(* ===== verification/_CoqProject ===== *)
-Q . S2P
Prelude.v
GoBase.v
MerkleSpec.v
SparseTree.v
SparseTreeFacts.v
SparseTreeInsert.v
SparseTreeProofs.v
SparseTreeSimulation.v
SparseTreeRuns.v
Storage.v
StorageFacts.v
GoLib.v
GoInstance.v
SparseTreeTheorems.v
Registry.v
RegistryFacts.v
RegistryRuns.v
RegistryTheorems.v
Service.v
ServiceFacts.v
Jobs.v
JobsFacts.v
Handlers.v
HandlersFacts.v
ServiceInstance.v
ServiceTheorems.v
HandlersTheorems.v
Locks.v
LocksTheorems.v
Indexer.v
IndexerFacts.v
IndexerWsFacts.v
RegistryJob.v
RegistryJobFacts.v
IndexerTheorems.v
Configurator.v
JobStorageFacts.v
ConfiguratorFacts.v
ConfiguratorTheorems.v
ReloadTheorems.v
Live.v
LiveFacts.v
LiveTheorems.v
Recovery.v
Lifecycle.v
LifecycleTheorems.v
Application.v
ApplicationTheorems.v
JsNumber.v
JsValue.v
Wire.v
WireFacts.v
DescriptorBase.v
WireInstance.v
Query.v
QueryFacts.v
QueryJson.v
QueryTheorems.v
QueryTypes.v
Http.v
HttpFacts.v
HttpJson.v
HttpTheorems.v
DescriptorEnums.v
DescriptorOptions.v
DescriptorOptions2.v
Descriptor.v
DescriptorOptionsFacts.v
DescriptorOptions2Facts.v
DescriptorFacts.v
DescriptorOptionsJson.v
DescriptorJson.v
DescriptorHalts.v
DescriptorTheorems.v
EndToEnd.v
