(* ===== verification/Prelude.v ===== *)
(** * Verification of the Merkle proof service

    The service keeps a sparse Merkle tree per certificate registry, follows the registry
    contract's events, and answers requests for Merkle proofs over gRPC.  The repository holds
    the service in Go ([internal/], [pkg/]) and, for its clients, TypeScript generated from the
    protobuf definitions ([gen/ts/]).  This library models both: the indexer that turns events
    into operations, the registries with their trees over a key-value database, the handlers
    that answer with proofs, and the messages, encoders, decoders and client stub by which a
    TypeScript program asks for proofs and reads them.

    ** The files

    - [Prelude] (this file): results of fallible code, iteration, shared lemmas and tactics.

    The tree, [internal/zkregistry/sparse_tree.go]:
    - [GoBase]: 8-, 32- and 64-bit unsigned arithmetic, error values with wrapping and
      [errors.Is], panics, and a state monad in which an error keeps the mutations made so far.
    - [MerkleSpec]: the abstract Merkle tree, the root a path leads to, and what it means that
      stored nodes agree with the leaves on all or some of the tree.
    - [SparseTree]: the code.  Each method of [SparseMerkleTree] and [SimulationBatch] is a
      definition of the same name; a loop [for ... { }] of method [m] is [m_loop] (for
      [InsertLeaves]: [InsertLeaves_set], [InsertLeaves_levels], [InsertLeaves_range]; for
      [SimulateBatchOperations]: [simulate_loop], [simulate_operation]).  The state is the tree
      (with its lazily filled [emptyBranchLevels]), the batch and a count of how often the
      context and the random numbers were used.  [InsertLeaves] reads one slice while it
      appends to another over the same array: the arrays are modelled and the sharing is
      explicit ([slices]).
    - [SparseTreeFacts], [SparseTreeInsert], [SparseTreeProofs], [SparseTreeSimulation],
      [SparseTreeRuns]: the lemmas.  They are proved against [BatchLaws], what the tree asks of a batch;
      [SparseTreeSimulation] shows that the simulation batch satisfies them, and defines the
      abstract batch of operations [spec_batch] and the replay of its proofs [replay].
    - [SparseTreeTheorems]: the theorems.

    The storage and the registries, [internal/storage], [internal/zkregistry], and the commit of
    a job of [internal/indexer]:
    - [Storage]: the layout of keys ([keys.go]), [LeafStorage] and [LeafView]
      ([leaf_storage.go]), [BatchWithLeavesBuffer] ([batch_with_leaves.go]) and [IndexStorage]
      ([index_storage.go]), over a database that is a parameter.
    - [StorageFacts]: the laws of the database, injectivity of the keys, and
      [BatchWithLeavesBuffer] as an implementation of [BatchLaws].
    - [Registry]: [ZKCertificateRegistry] with [CommitOperations], [CreateProof] and
      [GetRandomEmptyLeafProof], the operations buffer, the progress flag, and
      [ZkCertificateRegistryJob.Commit].  The tree object of a registry reads the database as it
      is at the time of a call ([tree_at], [run_tree]).
    - [RegistryFacts], [RegistryRuns], [RegistryTheorems]: the abstract registry (leaves, and the
      index of every value), whole runs of a registry, and the theorems.
    - [GoInstance]: concrete instances of the parameters, for witnesses.

    The service and its handlers, [internal/zkregistry/service.go], [metadata_storage.go],
    [mutex.go], [internal/query]:
    - [Service]: registries as objects under handles, the map from numbers to them, creation
      from stored metadata or from the contract.  [ServiceFacts], [ServiceTheorems].
    - [Handlers]: the three gRPC handlers with all guards and status codes, and the conversion
      of operations.  [HandlersFacts], [HandlersTheorems] with the abstract service.
    - [ServiceInstance]: instances for texts of numbers, addresses, metadata and contracts.
    - [Locks], [LocksTheorems]: [Mutex] and [MutexView] as a transition system of goroutines,
      every step of [getOrCreateMutex] by itself.

    The indexer, [internal/indexer] and [pkg/indexer/application.go]:
    - [Jobs], [JobsFacts]: names of contracts, the storage of jobs, the factory, and the jobs of
      a configuration.
    - [Indexer]: [IndexEVMLogs] with its loop over ranges of blocks in both modes, the
      subscription and the channel, against the interface [JobHandler].  [IndexerFacts] states
      what the loop relies on ([JobHandlerLaws], [knows_chain]) and proves polling;
      [IndexerWsFacts] is the mode with a subscription.
    - [RegistryJob], [RegistryJobFacts]: the handler for registries, and that it keeps
      [JobHandlerLaws].  [IndexerTheorems]: the theorems about indexing.
    - [Configurator], [JobStorageFacts], [ConfiguratorFacts], [ConfiguratorTheorems]: the set of
      running jobs, the storage of jobs as a table, and the start of the application.
      [ReloadTheorems]: a new configuration while jobs run.
    - [Live]: the running service, jobs and handlers over one database.  A range of blocks, or
      logs of a subscription ([Sink], only in the mode that has one), are two steps, filling the
      batch and writing it under the registry's lock; a query is two steps, up to the lock of
      its registry, or up to the simulation of a batch, which takes no lock, and from there on.
      A batch whose registry is written in between is marked ([overtaken_by]) and ends with
      [Mixed].  [LiveFacts] shows that the two steps in sequence are [handleLogs] and the
      handlers; [LiveTheorems] holds the abstract running service and the theorems about all
      interleavings without a subscription.  [Recovery]: the service that the application
      starts, on a new database and on one that was left behind, and all its histories as a
      transition system ([reachable]).

    The process, [pkg/indexer/application.go], [cmd/galacticad-merkle], [internal/query/server.go]:
    - [GoLib]: paths, host and port of addresses, and the integers in big-endian bytes of
      [internal/utils/uint.go].
    - [Lifecycle], [LifecycleTheorems]: the workers of [StartApplication], [RunIndexer] with its
      jobs and both servers as a transition system.  [happens] is what comes from outside (a
      signal, a failure), [reacts] what the goroutines do ([job_reacts], [indexer_reacts],
      [grpc_reacts], [gateway_reacts], [start_reacts]).
    - [Application], [ApplicationTheorems]: the configuration ([initConfig], [start_config]),
      [Init], [StartApplication], [RunIndexer] with the steps of [Live] in between, the loop of
      the start command ([start_loop]) and the process ([Execute]).  The [host] is what outlives
      an iteration of the loop, an [attempt] what an iteration meets.

    - [EndToEnd]: the TypeScript client over a transport to the Go handlers.

    The TypeScript messages:
    - [JsNumber], [JsValue]: what the sources use of JavaScript: UTF-16 strings, binary64
      numbers, conversions between them, values of type [any] and their coercions.
    - [Wire], [WireFacts]: the interface to the protobuf runtime the sources import, its
      documented behaviour as laws, and the reasoning about generated encoders and decoders
      that all messages share; [WireInstance] is a runtime that satisfies the laws, and
      evaluates the encoders and decoders on concrete messages.
    - [Query], [QueryFacts], [QueryJson], [QueryTheorems], [QueryTypes]:
      [gen/ts/galactica/merkle/query.ts].
    - [Http], [HttpFacts], [HttpJson], [HttpTheorems]: [gen/ts/google/api/http.ts].
    - [DescriptorBase], [DescriptorEnums], [DescriptorOptions], [DescriptorOptions2],
      [Descriptor] and their [Facts], [Json], [Halts] and [Theorems] files:
      [gen/ts/google/protobuf/descriptor.ts].

    For a message [M] of the sources, [M] is a record, [M_encode], [M_decode], [M_fromJSON],
    [M_toJSON], [M_create] and [M_fromPartial] are the functions of the same names, and
    [M_switch] is one iteration of the decoder's loop.

    ** What the theorems show

    - The tree ([SparseTreeTheorems]).  From an empty tree, every sequence of insertions
      produces exactly the Merkle tree over the inserted leaves; inserting several leaves at
      once is the same as inserting them one after the other, although the nodes of each level
      are hashed once and all levels share an array; proofs, from storage and from a batch,
      lead to the root; a node is read correctly on every branch, whether or not the hashes of
      empty branches are cached.  At the bounds: an index outside the tree is accepted and
      changes no node of the tree; depth 0 is rejected, depth 255 panics when the hashes of empty
      branches are computed, and depths from 64 on panic when a random index is drawn.
    - Simulated batches.  [SimulateBatchOperations] refines the abstract batch: the same
      answers, and an error exactly where the abstract batch has none; its proofs replay one
      after the other from the initial root to the root with all operations applied; the search
      for the leaf to revoke finds the first one, or an error when there is none; cancellation
      is reported; the simulation batch reads back what was set, the printed keys being
      injective.
    - Registries ([RegistryTheorems]).  Committing a job refines the abstract registry and
      touches no record of another registry; along every sequence of proper commits a proof is
      found by value for exactly the values in the tree, and verifies; a commit between the
      lookup of an index and the locked part of [CreateProof] makes it prove the empty leaf;
      keys of different records differ; the leaf storage reads back every value but 0; registry
      numbers wrap around after 256 addresses.
    - The messages ([QueryTheorems], [HttpTheorems], [DescriptorTheorems]).  Decoding inverts
      encoding, in binary and in JSON, at any nesting, for messages that the format can carry
      (for strings: well-formed, and without a byte order mark at the start, which a
      [TextDecoder] drops); decoding arbitrary bytes and reading
      arbitrary JSON returns or throws; unknown fields are skipped and concatenated messages are
      merged; integers that a JavaScript number cannot hold are rejected and never rounded; enum
      names and numbers, packed and unpacked repeated fields, base64.
    - The client.  A client over a transport to a server answers as the service's handlers do.
      Whatever bytes it gets, fewer than [2^32 / 3], what it returns has the declared types
      ([QueryTypes]): well-formed strings, 32-bit indices, and proofs that can be written and
      read again unless a text starts with a byte order mark.
    - The service ([ServiceTheorems], [HandlersTheorems]).  Configured addresses get distinct
      registries and numbers; an interrupted registration is completed by the next one; a new
      service over the same database serves what was committed.  Any sequence of queries gets
      the answers of an abstract service whose registries are unknown, behind the chain or
      serving leaves.
    - Locks ([LocksTheorems]).  One mutex per registry whatever the interleaving, exclusive
      writers, stable reads under the read lock; the handler that takes no lock can pair a root
      with proofs for another tree.
    - The indexer ([IndexerTheorems], [ConfiguratorTheorems]).  In polling mode a registry job
      reaches every block that the chain reaches, and the registry is then exactly what the
      events so far make, also when the job was resumed and indexes its last block twice; a
      range is one write or none.  With a subscription, a history of more than one range is
      complete, and one that fits into a range can leave a gap.  The storage of jobs is a table,
      and a restarted application runs the configured jobs from the blocks of their records.
      A new configuration stops the jobs it leaves out and deletes their records; since a
      goroutine that ends with any error cancels all jobs, it cancels the others as well, and
      reloading does not start them again ([ReloadTheorems]).
    - The running service ([LiveTheorems]), in every mode but the one with a subscription.
      However the steps of jobs and queries interleave, no step of a job fails, indexed blocks
      stay indexed, and every query gets an answer of the abstract service, except that nothing
      is said of a batch whose registry is written while it is simulated: [LocksTheorems] shows
      what it can answer.  A query for a proof that commits overtake is answered for the index
      it found before, which is right exactly when the leaf still holds the value.
    - All histories ([Recovery]), in the same modes.  From a new database and contracts that
      answer, through any steps and any number of stops between steps and restarts, the service
      runs exactly the configured jobs and serves the abstract registries, and a restart keeps
      every indexed block, whatever the contracts answer then.
    - The process ([ApplicationTheorems], [LifecycleTheorems]).  The loop that restarts the
      application keeps the database, in every mode but the one with a subscription, one of a
      service that serves and loses no indexed block, however often the node cannot be reached,
      once a start on a new database found contracts that answer; a start that fails after the
      database was opened, as one does when they do not, makes all later ones fail.  Once a
      signal arrived or something failed, the
      goroutines stop after a bounded number of steps; the database is closed after the jobs
      have ended, unless one failed; a job that fails during the start of the others, and a
      gateway that cannot listen, go unnoticed.  The command line passes only proper addresses,
      and the mode with a subscription only for an endpoint that starts with ws.
    - End to end ([EndToEnd]).  What the TypeScript client reads checks against the tree.

    ** Parameters and their laws

    The Poseidon hash ([Poseidon], [PoseidonLaws]: total on field elements, with values in the
    field), 256-bit integers ([Uint256], [Uint256Laws]), the storage the tree reads from, the
    database ([KVDatabase], [KVDatabaseLaws]: a finite map that does not fail), the encoding of
    jobs and of metadata ([JobCodec], [JobDecoder], [JobCodecLaws], [MetadataCodec]), the
    iterator of the database ([KVIterator], [KVIteratorLaws]), the calls of the contract
    ([RegistryContract]), its events ([ContractEvents]: ids, unpacking), the Ethereum node
    ([EthereumClient]; what it is assumed to answer is [knows_chain] and [good_node]), texts of
    addresses and numbers ([HexAddress], [Uint256Text], [TextTransfer]), the order of maps and
    the ends of goroutines ([GoScheduler]), the values of the configuration and the home directory
    ([viper], [HostEnv]), what the node and the database package answer at a start ([attempt]),
    the context, the random numbers, the protobuf runtime
    ([WireRuntime], [WireLaws], [TextLaws]) and the host's base64 primitives are not defined in the
    repository.  They are parameters; each theorem that uses a law has a witness with a
    concrete instance.

    ** Fuel and bounds

    The loops of [SparseTree] run on the number of iterations the source's loop condition
    allows, and none can run out: the theorems state results, not conditional results.  Tree
    theorems assume a depth of 1 to 32, the depths at which every leaf has a 32-bit index;
    what happens outside is stated separately.  Decoders take as fuel the length of their
    input plus one, since each iteration consumes a byte and an embedded message is shorter
    than the one that holds it; [fromJSON] of a recursive message takes the nesting of the
    value.  Termination is a theorem for every fuelled function.

    The loops of the indexer do not end by themselves: [IndexEVMLogs] takes fuel, a run of
    [OutOfFuel] is a prefix of the endless run, and the theorems give a fuel from which on every
    prefix has reached the block in question, or from which on the history is read.  The loop
    of the start command runs over a list of iterations, a prefix of the endless loop.

    ** What is not modelled

    Logging, waiting and time-outs, which are results that a call may have; the printed forms of
    jobs; the wiring of commands, flags and HTTP handlers, and the generated Go code and bindings
    of contract methods, which are calls to external packages; the default empty leaf (a Keccak
    hash); the package names that the TypeScript files export.  The concurrency of the service is
    modelled for the locks of registries ([Locks]), for jobs and handlers over one database
    ([Live]), whose steps are the parts of a function before and under a lock, and for the
    workers of the process ([Lifecycle]), whose steps are the parts between two waits.  The
    theorems about [Live] do not cover the mode with a subscription, whose commits may hold part
    of a block or leave blocks out: for one job its history is in [IndexerTheorems].  Of a batch
    query that a write overtakes [Live] says nothing but that it ends; one such run is in
    [LocksTheorems].  The logs of a block are taken to be fixed, so reorganisations of the chain
    are left out.  So are jobs that write while [ReloadConfig] runs, the data race of
    [CancelAll] on the map of jobs, queries that come before all jobs are started, and in
    [Lifecycle] the goroutine of [Wait] itself, which can stay blocked in its send.  Handlers
    and jobs read the database at the step, and its own consistency is assumed.  In
    [Configurator] and [Application] waiting for goroutines is modelled by their results. *)

From stdpp Require Import base list numbers strings.
From Stdlib Require Import ZArith Lia.

Local Open Scope Z_scope.

(** * Results of fallible code

    [Ok] is a normal return, [Throw] an error that propagates, and [OutOfFuel] the one
    outcome that no execution of the source has: a loop of the model that was given too
    little fuel.  Every fuelled definition has a theorem that excludes it. *)
Inductive res (E A : Type) : Type :=
| Ok (a : A)
| Throw (e : E)
| OutOfFuel.
Arguments Ok {E A} _.
Arguments Throw {E A} _.
Arguments OutOfFuel {E A}.

Definition res_bind {E A B : Type} (c : res E A) (k : A -> res E B) : res E B :=
  match c with
  | Ok a => k a
  | Throw e => Throw e
  | OutOfFuel => OutOfFuel
  end.

(** An operation that always returns or fails, seen as a fallible computation. *)
Definition lift {E A : Type} (s : E + A) : res E A :=
  match s with
  | inl e => Throw e
  | inr a => Ok a
  end.

Declare Scope res_scope.
Delimit Scope res_scope with res.
Notation "'let*' p ':=' c 'in' k" := (res_bind c (fun p => k))
  (at level 10, p pattern, c at level 200, k at level 200) : res_scope.
Open Scope res_scope.

(** [Array.prototype.map] with a callback that may throw: the first exception wins. *)
Section Iteration.
Context {E A B S : Type}.

Variable f : A -> res E B.

Fixpoint res_map (l : list A) : res E (list B) :=
  match l with
  | [] => Ok []
  | x :: l' => let* y := f x in let* ys := res_map l' in Ok (y :: ys)
  end.

Variable g : A -> S -> res E S.

(** [for (const v of l) { ... }], the loop body threading a state. *)
Fixpoint for_each (l : list A) (s : S) : res E S :=
  match l with
  | [] => Ok s
  | x :: l' => let* s' := g x s in for_each l' s'
  end.
End Iteration.

Lemma res_map_ok {E A B : Type} (f : A -> res E B) (h : A -> B) (l : list A) :
  Forall (fun x => f x = Ok (h x)) l -> res_map f l = Ok (map h l).
Proof.
  induction 1 as [|x l Hx _ IH]; [done|]. cbn. by rewrite Hx; cbn; rewrite IH.
Qed.

Lemma res_map_map {E A B C : Type} (f : B -> res E C) (h : A -> B) (l : list A) :
  res_map f (map h l) = res_map (fun x => f (h x)) l.
Proof. induction l as [|x l IH]; [done|]. cbn. by rewrite IH. Qed.

Lemma res_bind_ok {E A B : Type} (c : res E A) (k : A -> res E B) (b : B) :
  res_bind c k = Ok b -> exists a, c = Ok a /\ k a = Ok b.
Proof. destruct c; cbn; intros; [eauto|done|done]. Qed.

Lemma res_bind_assoc {E A B C : Type} (c : res E A) (k : A -> res E B) (h : B -> res E C) :
  res_bind (res_bind c k) h = res_bind c (fun a => res_bind (k a) h).
Proof. by destruct c. Qed.

Lemma lift_not_fuel {E A : Type} (s : E + A) : lift s <> OutOfFuel.
Proof. by destruct s. Qed.

(** [c] finishes, and when it returns normally its value satisfies [P]. *)
Definition total {E A : Type} (c : res E A) (P : A -> Prop) : Prop :=
  match c with
  | Ok a => P a
  | Throw _ => True
  | OutOfFuel => False
  end.

Lemma total_bind {E A B : Type} (c : res E A) (k : A -> res E B) (P : A -> Prop) (Q : B -> Prop) :
  total c P -> (forall a, P a -> total (k a) Q) -> total (res_bind c k) Q.
Proof. destruct c; cbn; auto. Qed.

Lemma total_mono {E A : Type} (c : res E A) (P Q : A -> Prop) :
  total c P -> (forall a, P a -> Q a) -> total c Q.
Proof. destruct c; cbn; auto. Qed.

Lemma total_not_fuel {E A : Type} (c : res E A) (P : A -> Prop) : total c P -> c <> OutOfFuel.
Proof. by destruct c. Qed.

(** [c] returns or throws. *)
Definition halts {E A : Type} (c : res E A) : Prop := total c (fun _ => True).

Lemma halts_bind {E A B : Type} (c : res E A) (k : A -> res E B) :
  halts c -> (forall a, halts (k a)) -> halts (res_bind c k).
Proof. intros Hc Hk. eapply total_bind; [exact Hc|]. intros a _. apply Hk. Qed.

Lemma halts_map {E A B : Type} (f : A -> res E B) (l : list A) :
  Forall (fun x => halts (f x)) l -> halts (res_map f l).
Proof.
  induction 1 as [|x l Hx _ IH]; [done|]. cbn. apply halts_bind; [done|]. intros y.
  apply halts_bind; [done|]. by intros ys.
Qed.

(** * Options *)

(** [a ?? b] on a value that is either [undefined]/[null] ([None]) or present. *)
Definition nullish {A : Type} (o : option A) (d : A) : A := default d o.

(** A property of the value, if there is one. *)
Definition opt_all {A : Type} (P : A -> Prop) (o : option A) : Prop :=
  match o with
  | Some v => P v
  | None => True
  end.

Lemma opt_all_impl {A : Type} (P Q : A -> Prop) (o : option A) :
  (forall x, P x -> Q x) -> opt_all P o -> opt_all Q o.
Proof. destruct o; cbn; auto. Qed.

Lemma option_map_compose {A B C : Type} (f : A -> B) (g : B -> C) (o : option A) :
  option_map g (option_map f o) = option_map (fun x => g (f x)) o.
Proof. by destruct o. Qed.

(** * Lists *)

(** [Forall] as a recursive function, for properties of trees. *)
Section AllOf.
Context {A : Type}.
Variable P : A -> Prop.
Fixpoint all_of (l : list A) : Prop :=
  match l with
  | [] => True
  | x :: l' => P x /\ all_of l'
  end.
End AllOf.

Lemma all_of_Forall {A : Type} (P : A -> Prop) (l : list A) : all_of P l <-> Forall P l.
Proof. induction l as [|x l IH]; cbn; [by split|]. by rewrite Forall_cons, IH. Qed.

Lemma list_max_elem {A : Type} (f : A -> nat) (l : list A) (n : nat) :
  (list_max (map f l) <= n)%nat -> Forall (fun x => (f x <= n)%nat) l.
Proof. rewrite list_max_le. apply Forall_map. Qed.

(** Maps of functions that change nothing. *)
Lemma map_fixed {A : Type} (f : A -> A) (l : list A) : (forall x, f x = x) -> map f l = l.
Proof. intros H. rewrite <- (map_id l) at 2. by apply map_ext. Qed.

Lemma option_map_fixed {A : Type} (f : A -> A) (o : option A) : (forall x, f x = x) -> option_map f o = o.
Proof. intros H. destruct o; cbn; by rewrite ?H. Qed.

(** * Integers *)

Lemma Z_of_nat_length_app {A : Type} (l1 l2 : list A) :
  Z.of_nat (length (l1 ++ l2)) = Z.of_nat (length l1) + Z.of_nat (length l2).
Proof. rewrite length_app. lia. Qed.

(** * Proof automation

    [inv_ok] takes apart a successful sequence of fallible steps. *)
Ltac inv_ok :=
  repeat match goal with
  | H : res_bind _ _ = Ok _ |- _ =>
      let a := fresh "a" in let E := fresh "E" in
      apply res_bind_ok in H; destruct H as (a & E & H)
  | H : Ok _ = Ok _ |- _ => injection H as H; subst
  | H : Throw _ = Ok _ |- _ => discriminate H
  | H : OutOfFuel = Ok _ |- _ => discriminate H
  | H : Ok _ = OutOfFuel |- _ => discriminate H
  | H : Throw _ = OutOfFuel |- _ => discriminate H
  | p : (_ * _)%type |- _ => destruct p
  end.

Create HintDb model discriminated.
#[export] Hint Resolve lift_not_fuel : model.

(** Normalisation of embedded messages: [fromPartial] after the view of a message as a
    partial one. *)
Create Rewrite HintDb partials.
Ltac solve_nested_partials :=
  match goal with |- ?l = _ => let l' := eval hnf in l in change l with l' end;
  f_equal; cbn;
  repeat match goal with
  | |- context [option_map _ ?o] => is_var o; destruct o; cbn [option_map]; [|reflexivity]
  end;
  rewrite ?map_map;
  first [ reflexivity
        | f_equal; by autorewrite with partials
        | apply map_ext; intros; by autorewrite with partials ].
Tactic Notation "solve_fromPartial" reference(f) reference(g) reference(h) :=
  intros m; destruct m; unfold f, g, h; cbn; solve_nested_partials.
