(* ===== verification/GoBase.v ===== *)
(** What the Go sources share: error values with [errors.Is] and wrapping, panics, and
    stateful fallible code.  A function that mutates objects keeps its mutations when it
    returns an error, so a computation returns its result together with the next state. *)

From stdpp Require Import base list numbers strings.
From Stdlib Require Import ZArith Lia.
From S2P Require Import Prelude.
Local Open Scope Z_scope.

(** * Machine integers *)

Definition u8 (z : Z) : Z := z mod 2 ^ 8.
Definition u32 (z : Z) : Z := z mod 2 ^ 32.
Definition u64 (z : Z) : Z := z mod 2 ^ 64.

(** * Bytes: [encoding/binary.BigEndian]

    A byte is a number below 256.  [be_bytes n v] is what [PutUint32] ([n = 4]) and
    [PutUint64] ([n = 8]) write, [be_value] what [Uint32] and [Uint64] read. *)
Abbreviation gobytes := (list Z).

Fixpoint be_bytes (n : nat) (v : Z) : gobytes :=
  match n with
  | O => []
  | S n' => be_bytes n' (v / 256) ++ [v mod 256]
  end.

Definition be_value (l : gobytes) : Z := fold_left (fun a b => 256 * a + b) l 0.

Lemma be_bytes_length (n : nat) (v : Z) : length (be_bytes n v) = n.
Proof. revert v. induction n as [|n IH]; intros v; cbn; [done|]. rewrite length_app, IH. cbn. lia. Qed.

Lemma be_value_snoc (l : gobytes) (b : Z) : be_value (l ++ [b]) = 256 * be_value l + b.
Proof. unfold be_value. by rewrite fold_left_app. Qed.

Lemma be_value_bytes (n : nat) (v : Z) : 0 <= v < 256 ^ Z.of_nat n -> be_value (be_bytes n v) = v.
Proof.
  revert v. induction n as [|n IH]; intros v Hv; cbn [be_bytes].
  { cbn in Hv |- *. lia. }
  rewrite be_value_snoc, IH; [rewrite <- (Z.div_mod v 256) by lia; done|].
  rewrite Nat2Z.inj_succ, Z.pow_succ_r in Hv by lia.
  split; [apply Z.div_pos; lia|apply Z.div_lt_upper_bound; lia].
Qed.

Lemma be_bytes_inj (n : nat) (v v' : Z) :
  0 <= v < 256 ^ Z.of_nat n -> 0 <= v' < 256 ^ Z.of_nat n -> be_bytes n v = be_bytes n v' -> v = v'.
Proof. intros Hv Hv' E. rewrite <- (be_value_bytes n v Hv), E. by apply be_value_bytes. Qed.

(** * Errors

    [Errorf format args cause] is [fmt.Errorf(format, args..., cause)] with [%w] for the
    cause.  [Panic] is not an error value: it ends every function up to the caller that
    recovers, which nothing in the modelled code does. *)
Inductive status_code : Type :=
| InvalidArgument
| NotFound
| FailedPrecondition
| Internal.

(** [Status] is [status.Errorf(code, format, ...)] of the gRPC package, which does not wrap the
    errors it prints: [args] are the numbers, [texts] the strings, [printed] the error. *)
Inductive go_error : Type :=
| ErrNotFound
| Errorf (format : string) (args : list Z) (cause : option go_error)
| Status (code : status_code) (format : string) (args : list Z) (texts : list string) (printed : option go_error)
| ContextError (code : Z)
| ExternalError (code : Z)
| Panic (message : string).

(** [errors.Is(err, types.ErrNotFound)] *)
Fixpoint is_not_found (e : go_error) : bool :=
  match e with
  | ErrNotFound => true
  | Errorf _ _ (Some cause) => is_not_found cause
  | _ => false
  end.

Definition is_panic (e : go_error) : bool :=
  match e with Panic _ => true | _ => false end.

Abbreviation gores := (res go_error).

(** [return fmt.Errorf(format, args..., err)] when a call failed; a panic passes through. *)
Definition wrap_error (format : string) (args : list Z) (e : go_error) : go_error :=
  if is_panic e then e else Errorf format args (Some e).

Definition wrap_res {A : Type} (format : string) (args : list Z) (c : gores A) : gores A :=
  match c with
  | Throw e => Throw (wrap_error format args e)
  | _ => c
  end.

(** * Stateful computations *)

Definition go (S A : Type) : Type := S -> gores A * S.

Section GoMonad.
Context {S A B : Type}.

Definition go_ret (a : A) : go S A := fun s => (Ok a, s).
Definition go_throw (e : go_error) : go S A := fun s => (Throw e, s).
Definition go_bind (m : go S A) (k : A -> go S B) : go S B :=
  fun s => match m s with
           | (Ok a, s') => k a s'
           | (Throw e, s') => (Throw e, s')
           | (OutOfFuel, s') => (OutOfFuel, s')
           end.

(** A call that only reads. *)
Definition go_res (c : gores A) : go S A := fun s => (c, s).

Definition go_wrap (format : string) (args : list Z) (m : go S A) : go S A :=
  fun s => let (c, s') := m s in (wrap_res format args c, s').

(** [x, err := m]: the error becomes a value, a panic does not. *)
Definition go_try (m : go S A) : go S (go_error + A) :=
  fun s => match m s with
           | (Ok a, s') => (Ok (inr a), s')
           | (Throw e, s') => if is_panic e then (Throw e, s') else (Ok (inl e), s')
           | (OutOfFuel, s') => (OutOfFuel, s')
           end.
End GoMonad.

Declare Scope go_scope.
Delimit Scope go_scope with go.
Notation "'let!' p ':=' m 'in' k" := (go_bind m (fun p => k))
  (at level 10, p pattern, m at level 200, k at level 200) : go_scope.
Open Scope go_scope.

(** ** Reasoning

    [runs m s a s'] says that [m] returns [a] from [s] and leaves [s']. *)
Definition runs {S A : Type} (m : go S A) (s : S) (a : A) (s' : S) : Prop := m s = (Ok a, s').

Lemma runs_ret {S A : Type} (a : A) (s : S) : runs (go_ret a) s a s.
Proof. done. Qed.

Lemma bind_runs {S A B : Type} (m : go S A) (k : A -> go S B) (s s' : S) (a : A) :
  runs m s a s' -> go_bind m k s = k a s'.
Proof. unfold runs, go_bind. by intros ->. Qed.

Lemma runs_bind {S A B : Type} (m : go S A) (k : A -> go S B) (s1 s2 s3 : S) (a : A) (b : B) :
  runs m s1 a s2 -> runs (k a) s2 b s3 -> runs (go_bind m k) s1 b s3.
Proof. unfold runs, go_bind. by intros ->. Qed.

Lemma runs_wrap {S A : Type} (format : string) (args : list Z) (m : go S A) (s s' : S) (a : A) :
  runs m s a s' -> runs (go_wrap format args m) s a s'.
Proof. unfold runs, go_wrap. by intros ->. Qed.

Lemma runs_bind_inv {S A B : Type} (m : go S A) (k : A -> go S B) (s1 s3 : S) (b : B) :
  runs (go_bind m k) s1 b s3 -> exists a s2, runs m s1 a s2 /\ runs (k a) s2 b s3.
Proof. unfold runs, go_bind. destruct (m s1) as [[a|e|] s2]; [eauto|done|done]. Qed.

Lemma runs_wrap_inv {S A : Type} (format : string) (args : list Z) (m : go S A) (s s' : S) (a : A) :
  runs (go_wrap format args m) s a s' -> runs m s a s'.
Proof. unfold runs, go_wrap. destruct (m s) as [[b|e|] s2]; cbn; congruence. Qed.

Lemma runs_det {S A : Type} (m : go S A) (s s1 s2 : S) (a1 a2 : A) :
  runs m s a1 s1 -> runs m s a2 s2 -> a1 = a2 /\ s1 = s2.
Proof. unfold runs. intros -> [= -> ->]. done. Qed.

Lemma runs_res {S A : Type} (c : gores A) (a : A) (s : S) : c = Ok a -> runs (go_res c) s a s.
Proof. unfold runs, go_res. by intros ->. Qed.

Lemma runs_snd {S A : Type} (m : go S A) (s : S) (a : A) : fst (m s) = Ok a -> runs m s a (snd (m s)).
Proof. unfold runs. destruct (m s) as [c s']. by intros E; cbn in E; subst c. Qed.

Create HintDb go_model discriminated.
#[export] Hint Resolve runs_ret runs_wrap : go_model.
