(* ===== verification/MerkleSpec.v ===== *)
(** The abstract Merkle tree that [SparseTree] implements: the value of every node as a
    function of the leaves, what it means for stored nodes to be consistent with it, how a
    change of leaves makes parts of the tree stale and how recomputing a level repairs them,
    and the root that a proof's path leads to. *)

From stdpp Require Import base list numbers.
From Stdlib Require Import ZArith Lia.
From S2P Require Import Prelude.
Local Open Scope Z_scope.

Section Merkle.
Context (H : Z -> Z -> Z).

(** The node at level [n] and index [i] over the given leaves. *)
Fixpoint merkle (leaf : Z -> Z) (n : nat) (i : Z) : Z :=
  match n with
  | O => leaf i
  | S n' => H (merkle leaf n' (2 * i)) (merkle leaf n' (2 * i + 1))
  end.

(** The hash of an empty branch of height [n]. *)
Fixpoint empty_node (e : Z) (n : nat) : Z :=
  match n with
  | O => e
  | S n' => H (empty_node e n') (empty_node e n')
  end.

Lemma merkle_empty (e : Z) (n : nat) (i : Z) : merkle (fun _ => e) n i = empty_node e n.
Proof. revert i. induction n as [|n IH]; intros i; cbn; [done|]. by rewrite !IH. Qed.

(** The nodes [N l i] of a tree of depth [d] that are in the tree. *)
Definition inside (d l i : Z) : Prop := 0 <= l <= d /\ 0 <= i < 2 ^ (d - l).

(** Every inner node is the hash of its children. *)
Definition consistent (d : Z) (N : Z -> Z -> Z) : Prop :=
  forall l i, 0 <= l < d -> 0 <= i < 2 ^ (d - l - 1) -> N (l + 1) i = H (N l (2 * i)) (N l (2 * i + 1)).

Lemma pow2_split (d l : Z) : 0 <= l < d -> 2 ^ (d - l) = 2 * 2 ^ (d - l - 1).
Proof. intros Hl. rewrite <- Z.pow_succ_r by lia. f_equal. lia. Qed.

(** A consistent tree is determined by its leaves. *)
Lemma consistent_merkle (d : Z) (N : Z -> Z -> Z) (n : nat) (i : Z) :
  consistent d N -> inside d (Z.of_nat n) i -> N (Z.of_nat n) i = merkle (N 0) n i.
Proof.
  intros HN. revert i. induction n as [|n IH]; intros i [Hl Hi]; [done|].
  rewrite Nat2Z.inj_succ in *. unfold Z.succ in *.
  assert (2 ^ (d - Z.of_nat n) = 2 * 2 ^ (d - Z.of_nat n - 1)) as E by (apply pow2_split; lia).
  replace (d - (Z.of_nat n + 1)) with (d - Z.of_nat n - 1) in Hi by lia.
  rewrite HN by lia. cbn [merkle]. rewrite !IH; [done|split; lia..].
Qed.

Lemma merkle_ext (leaf leaf' : Z -> Z) (n : nat) (i : Z) :
  0 <= i -> (forall j, 2 ^ Z.of_nat n * i <= j < 2 ^ Z.of_nat n * (i + 1) -> leaf j = leaf' j) ->
  merkle leaf n i = merkle leaf' n i.
Proof.
  revert i. induction n as [|n IH]; intros i Hi Hj; cbn [merkle].
  { apply Hj. cbn. lia. }
  rewrite Nat2Z.inj_succ, Z.pow_succ_r in Hj by lia.
  rewrite (IH (2 * i)), (IH (2 * i + 1)); [done|lia| |lia|]; intros j Hjj; apply Hj; nia.
Qed.

(** Two consistent trees with the same leaves have the same nodes. *)
Lemma consistent_unique (d : Z) (N N' : Z -> Z -> Z) :
  consistent d N -> consistent d N' -> (forall i, 0 <= i < 2 ^ d -> N 0 i = N' 0 i) ->
  forall l i, inside d l i -> N l i = N' l i.
Proof.
  intros HN HN' Hleaf l i [Hl Hi]. rewrite <- (Z2Nat.id l) in * by lia.
  rewrite (consistent_merkle d N), (consistent_merkle d N') by (done || by split).
  apply merkle_ext; [lia|]. intros j Hj. apply Hleaf.
  assert (2 ^ d = 2 ^ Z.of_nat (Z.to_nat l) * 2 ^ (d - Z.of_nat (Z.to_nat l))) as ->.
  { rewrite <- Z.pow_add_r by lia. f_equal. lia. }
  nia.
Qed.

(** * Stale nodes

    After the leaves at the indices [D] changed, the ancestors of [D] are stale; the ones below
    level [k] have been recomputed. *)
Definition ancestors (D : list Z) (l : Z) : list Z := map (fun x => x / 2 ^ l) D.

Definition consistent_below (d k : Z) (D : list Z) (N : Z -> Z -> Z) : Prop :=
  forall l i, 0 <= l < d -> 0 <= i < 2 ^ (d - l - 1) -> l < k \/ ~ In i (ancestors D (l + 1)) ->
    N (l + 1) i = H (N l (2 * i)) (N l (2 * i + 1)).

Lemma ancestors_0 (D : list Z) : ancestors D 0 = D.
Proof. unfold ancestors. apply map_fixed. intros x. apply Z.div_1_r. Qed.

Lemma ancestors_S (D : list Z) (l : Z) : 0 <= l -> ancestors D (l + 1) = map (fun x => x / 2) (ancestors D l).
Proof.
  intros Hl. unfold ancestors. rewrite map_map. apply map_ext. intros x.
  pose proof (Z.pow_pos_nonneg 2 l). rewrite Z.pow_add_r, Z.pow_1_r by lia.
  symmetry. apply Z.div_div; lia.
Qed.

Lemma child_of_ancestor (D : list Z) (l i j : Z) :
  0 <= l -> (j = 2 * i \/ j = 2 * i + 1) -> In j (ancestors D l) -> In i (ancestors D (l + 1)).
Proof.
  intros Hl Hj Hin. rewrite ancestors_S by lia. replace i with (j / 2); [by apply (in_map (fun x => x / 2))|].
  destruct Hj as [-> | ->].
  - symmetry. apply (Z.div_unique _ _ _ 0); lia.
  - symmetry. apply (Z.div_unique _ _ _ 1); lia.
Qed.

Lemma consistent_change_leaves (d : Z) (D : list Z) (N N' : Z -> Z -> Z) :
  consistent d N ->
  (forall l i, l <> 0 \/ ~ In i D -> N' l i = N l i) ->
  consistent_below d 0 D N'.
Proof.
  intros HN Hsame l i Hl Hi [?|Hni]; [lia|].
  assert (forall j, j = 2 * i \/ j = 2 * i + 1 -> N' l j = N l j) as Hchild.
  { intros j Hj. apply Hsame. destruct (decide (l = 0)) as [->|]; [right|by left].
    intros Hin. apply Hni. rewrite <- (ancestors_0 D) in Hin. by apply (child_of_ancestor D 0 i j). }
  rewrite !Hchild by auto. rewrite Hsame by (left; lia). by apply HN.
Qed.

(** Recomputing the stale nodes of level [k + 1]. *)
Lemma consistent_recompute (d k : Z) (D : list Z) (N N' : Z -> Z -> Z) :
  0 <= k -> consistent_below d k D N ->
  (forall l i, l <> k + 1 \/ ~ In i (ancestors D (k + 1)) -> N' l i = N l i) ->
  (forall i, In i (ancestors D (k + 1)) -> N' (k + 1) i = H (N k (2 * i)) (N k (2 * i + 1))) ->
  consistent_below d (k + 1) D N'.
Proof.
  intros Hk HN Hsame Hnew l i Hl Hi Hcase.
  destruct (decide (l = k)) as [->|Hlk].
  { rewrite (Hsame k (2 * i)), (Hsame k (2 * i + 1)) by (left; lia).
    destruct (in_dec Z.eq_dec i (ancestors D (k + 1))) as [Hin|Hni]; [by apply Hnew|].
    rewrite Hsame by auto. apply HN; auto. }
  assert (forall j, j = 2 * i \/ j = 2 * i + 1 -> N' l j = N l j) as Hchild.
  { intros j Hj. apply Hsame. destruct (decide (l = k + 1)) as [->|]; [right|by left].
    intros Hin. destruct Hcase as [|Hni]; [lia|]. apply Hni. by apply (child_of_ancestor D (k + 1) i j); [lia| |]. }
  rewrite !Hchild by auto. rewrite Hsame by (left; lia). apply HN; [done..|].
  destruct Hcase; [left; lia|by right].
Qed.

Lemma consistent_complete (d : Z) (D : list Z) (N : Z -> Z -> Z) :
  consistent_below d d D N -> consistent d N.
Proof. intros HN l i Hl Hi. apply HN; auto. left. lia. Qed.

(** * Paths *)

Definition sibling (i : Z) : Z := if i mod 2 =? 0 then i + 1 else i - 1.

(** The root that a leaf and the siblings on its way up lead to. *)
Fixpoint root_of (leaf : Z) (path : list Z) (index : Z) : Z :=
  match path with
  | [] => leaf
  | s :: path' =>
      root_of (if index mod 2 =? 0 then H leaf s else H s leaf) path' (index / 2)
  end.

(** The siblings of the nodes from level [l] up, [n] of them. *)
Fixpoint siblings (N : Z -> Z -> Z) (n : nat) (l i : Z) : list Z :=
  match n with
  | O => []
  | S n' => N l (sibling i) :: siblings N n' (l + 1) (i / 2)
  end.

Lemma siblings_length (N : Z -> Z -> Z) (n : nat) (l i : Z) : length (siblings N n l i) = n.
Proof. revert l i. induction n as [|n IH]; intros l i; cbn; [done|]. by rewrite IH. Qed.

Lemma index_parity (i : Z) :
  ((i mod 2 =? 0) = true /\ i = 2 * (i / 2) /\ sibling i = 2 * (i / 2) + 1) \/
  ((i mod 2 =? 0) = false /\ i = 2 * (i / 2) + 1 /\ sibling i = 2 * (i / 2)).
Proof.
  unfold sibling. pose proof (Z.div_mod i 2). pose proof (Z.mod_pos_bound i 2).
  destruct (Z.eqb_spec (i mod 2) 0); [left|right]; lia.
Qed.

(** In a consistent tree the path from a node leads to the root. *)
Lemma siblings_root (d : Z) (N : Z -> Z -> Z) (n : nat) (l i : Z) :
  consistent d N -> inside d l i -> l + Z.of_nat n = d ->
  root_of (N l i) (siblings N n l i) i = N d 0.
Proof.
  intros HN. revert l i. induction n as [|n IH]; intros l i [Hl Hi] Hn; cbn [siblings root_of].
  { assert (l = d) as -> by lia. rewrite Z.sub_diag in Hi. change (2 ^ 0) with 1 in Hi.
    assert (i = 0) as -> by lia. done. }
  assert (2 ^ (d - l) = 2 * 2 ^ (d - l - 1)) as E by (apply pow2_split; lia).
  assert (0 <= i / 2 < 2 ^ (d - l - 1)) as Hi2 by (split; [apply Z.div_pos|apply Z.div_lt_upper_bound]; lia).
  assert ((if i mod 2 =? 0 then H (N l i) (N l (sibling i)) else H (N l (sibling i)) (N l i))
          = N (l + 1) (i / 2)) as ->.
  { rewrite HN by lia. by destruct (index_parity i) as [(-> & <- & ->)|(-> & <- & ->)]. }
  apply IH; [|lia]. split; [lia|]. by replace (d - (l + 1)) with (d - l - 1) by lia.
Qed.

(** The siblings on the way up do not depend on the node they start from. *)
Lemma siblings_same (N N' : Z -> Z -> Z) (n : nat) (l i : Z) :
  (forall k j, l <= k < l + Z.of_nat n -> j <> i / 2 ^ (k - l) -> N' k j = N k j) ->
  siblings N' n l i = siblings N n l i.
Proof.
  revert l i. induction n as [|n IH]; intros l i HN; cbn [siblings]; [done|]. f_equal.
  - apply HN; [lia|]. rewrite Z.sub_diag. change (2 ^ 0) with 1. rewrite Z.div_1_r.
    unfold sibling. destruct (_ =? _); lia.
  - apply IH. intros k j Hk Hj. apply HN; [lia|]. contradict Hj.
    rewrite Hj. replace (k - l) with (1 + (k - (l + 1))) by lia.
    pose proof (Z.pow_pos_nonneg 2 (k - (l + 1))). rewrite Z.pow_add_r, Z.pow_1_r by lia.
    symmetry. apply Z.div_div; lia.
Qed.

Lemma consistent_ext (d : Z) (N N' : Z -> Z -> Z) :
  (forall l i, inside d l i -> N' l i = N l i) -> consistent d N -> consistent d N'.
Proof.
  intros E HN l i Hl Hi. pose proof (pow2_split d l Hl).
  rewrite !E; [by apply HN|split; [lia|]..]; [lia|lia|]. by replace (d - (l + 1)) with (d - l - 1) by lia.
Qed.

Lemma sibling_inside (d l i : Z) : 0 <= l < d -> inside d l i -> inside d l (sibling i).
Proof.
  intros Hl [Hl' Hi]. split; [done|]. rewrite (pow2_split d l Hl) in *.
  destruct (index_parity i) as [(_ & ? & ->)|(_ & ? & ->)]; lia.
Qed.

Lemma half_inside (d l i : Z) : 0 <= l < d -> inside d l i -> inside d (l + 1) (i / 2).
Proof.
  intros Hl [_ Hi]. rewrite (pow2_split d l Hl) in Hi. split; [lia|].
  replace (d - (l + 1)) with (d - l - 1) by lia.
  split; [apply Z.div_pos; lia|apply Z.div_lt_upper_bound; lia].
Qed.

Lemma siblings_ext (d : Z) (N N' : Z -> Z -> Z) (n : nat) (l i : Z) :
  (forall l i, inside d l i -> N' l i = N l i) -> inside d l i -> l + Z.of_nat n = d ->
  siblings N' n l i = siblings N n l i.
Proof.
  intros E. revert l i. induction n as [|n IH]; intros l i Hi Hn; cbn [siblings]; [done|].
  pose proof Hi as [Hl _]. f_equal.
  - apply E, sibling_inside; [lia|done].
  - apply IH; [apply half_inside; [lia|done]|lia].
Qed.

(** * The tree over given leaves *)

Definition tree_nodes (leaf : Z -> Z) (l i : Z) : Z := merkle leaf (Z.to_nat l) i.

Definition tree_root (d : Z) (leaf : Z -> Z) : Z := tree_nodes leaf d 0.

Definition tree_path (d : Z) (leaf : Z -> Z) (i : Z) : list Z := siblings (tree_nodes leaf) (Z.to_nat d) 0 i.

Definition set_leaf (leaf : Z -> Z) (x v : Z) : Z -> Z := fun i => if i =? x then v else leaf i.

Lemma tree_nodes_consistent (d : Z) (leaf : Z -> Z) : consistent d (tree_nodes leaf).
Proof.
  intros l i Hl Hi. unfold tree_nodes. replace (Z.to_nat (l + 1)) with (S (Z.to_nat l)) by lia. done.
Qed.

Lemma tree_root_ext (d : Z) (leaf leaf' : Z -> Z) :
  0 <= d -> (forall i, 0 <= i < 2 ^ d -> leaf i = leaf' i) -> tree_root d leaf = tree_root d leaf'.
Proof.
  intros Hd E. unfold tree_root, tree_nodes. apply merkle_ext; [lia|]. intros j Hj. apply E.
  rewrite Z2Nat.id in Hj by done. lia.
Qed.

(** The path of a leaf leads from the leaf to the root. *)
Lemma tree_path_root (d : Z) (leaf : Z -> Z) (i : Z) :
  0 <= d -> 0 <= i < 2 ^ d -> root_of (leaf i) (tree_path d leaf i) i = tree_root d leaf.
Proof.
  intros Hd Hi. apply (siblings_root d (tree_nodes leaf) (Z.to_nat d) 0 i); [apply tree_nodes_consistent| |lia].
  split; [lia|]. by rewrite Z.sub_0_r.
Qed.

(** The path of a leaf does not depend on the leaf. *)
Lemma tree_path_set (d : Z) (leaf : Z -> Z) (x v : Z) :
  0 <= d -> 0 <= x < 2 ^ d -> tree_path d (set_leaf leaf x v) x = tree_path d leaf x.
Proof.
  intros Hd Hx.
  set (N := fun l i => if decide (inside d l i) then tree_nodes leaf l i else 0).
  set (N' := fun l i => if decide (inside d l i) then tree_nodes (set_leaf leaf x v) l i else 0).
  assert (inside d 0 x) as Hin by (split; [lia|by rewrite Z.sub_0_r]).
  unfold tree_path.
  rewrite <- (siblings_ext d (tree_nodes (set_leaf leaf x v)) N' _ 0 x);
    [|intros l i Hi; unfold N'; by destruct (decide _)|done|lia].
  rewrite <- (siblings_ext d (tree_nodes leaf) N _ 0 x);
    [|intros l i Hi; unfold N; by destruct (decide _)|done|lia].
  apply siblings_same. intros k j Hk Hj. unfold N, N'. destruct (decide (inside d k j)) as [[Hk' Hj']|]; [|done].
  rewrite Z.sub_0_r in Hj. apply merkle_ext; [lia|]. intros i Hi. unfold set_leaf.
  destruct (Z.eqb_spec i x) as [->|]; [|done]. exfalso. apply Hj.
  rewrite Z2Nat.id in Hi by lia. pose proof (Z.pow_pos_nonneg 2 k).
  apply (Z.div_unique x (2 ^ k) j (x - 2 ^ k * j)); lia.
Qed.
End Merkle.
