(* ===== verification/SparseTree.v ===== *)
(** The sparse Merkle tree ([internal/zkregistry/sparse_tree.go]).  The tree holds the empty
    leaf, its depth, the lazily computed hashes of empty branches and the storage it reads
    from; insertions write to a batch.  A computation runs on the tree, the batch and the
    outside world (cancellation of the context, random numbers). *)

From stdpp Require Import base list numbers strings gmap pretty.
From Stdlib Require Import ZArith Lia.
From S2P Require Import Prelude GoBase.
Local Open Scope Z_scope.

(** * What the code calls but does not define *)

(** 256-bit integers (package [uint256]): conversion from a big integer, which reports whether
    it does not fit, to and from bytes, and to 32 bytes. *)
Class Uint256 := {
  uint256_FromBig : Z -> Z * bool;
  uint256_Bytes : Z -> list Z;
  uint256_SetBytes : list Z -> Z;
  uint256_Bytes32 : Z -> list Z;
}.

(** The Poseidon hash of two field elements (package [go-iden3-crypto]); it fails on inputs
    outside the field. *)
Class Poseidon := {
  poseidon_Hash : Z -> Z -> go_error + Z;
}.

(** The context and the random number generator: whether the k-th look at [ctx.Done()] finds
    the context cancelled, its error and its cause, and the k-th random number. *)
Class GoEnv := {
  ctx_done : nat -> bool;
  ctx_Err : go_error;
  ctx_Cause : go_error;
  rand_Uint64 : nat -> Z;
}.

(** * Data *)

Definition TreeLevel : Type := Z.
Definition TreeLeafIndex : Type := Z.

Definition maxIterationsEmptyLeafProof : nat := 10.

(** [TreeLeafGetter.GetLeaf] *)
Definition TreeLeafGetter : Type := TreeLevel -> TreeLeafIndex -> gores Z.

(** [TreeLeafGetterSetter]: what the tree asks of a batch. *)
Class TreeLeafGetterSetter (B : Type) := {
  GetLeaf : B -> TreeLevel -> TreeLeafIndex -> gores Z;
  SetLeaf : TreeLevel -> TreeLeafIndex -> Z -> go B unit;
}.

Record SparseMerkleTree : Type := mkSparseMerkleTree {
  emtpyLeaf : Z;
  depth : TreeLevel;
  emptyBranchLevels : option (list Z);
  storageLeafGetter : TreeLeafGetter
}.

Record MerkleProof : Type := mkMerkleProof {
  Proof_Leaf : Z;
  Proof_Path : list Z;
  Proof_Index : TreeLeafIndex;
  Proof_Root : Z
}.

Record TreeLeaf : Type := mkTreeLeaf {
  Leaf_Index : TreeLeafIndex;
  Leaf_Value : Z
}.

Record LeafOperation : Type := mkLeafOperation {
  Operation_Leaf : TreeLeaf;
  Operation_Op : Z
}.

Definition OperationAddition : Z := 1.
Definition OperationRevocation : Z := 2.

Record BatchProofResult : Type := mkBatchProofResult {
  Result_Index : TreeLeafIndex;
  Result_Path : list Z
}.

Definition NewSparseTree (depth : TreeLevel) (emptyLeafValue : Z) (storage : TreeLeafGetter)
    : SparseMerkleTree :=
  mkSparseMerkleTree emptyLeafValue depth None storage.

(** How often the context was looked at and random numbers were drawn. *)
Record world : Type := mkWorld { checks : nat; draws : nat }.

Record state (B : Type) : Type := mkState {
  st_tree : SparseMerkleTree;
  st_batch : B;
  st_world : world
}.
Arguments mkState {B} _ _ _.
Arguments st_tree {B} _.
Arguments st_batch {B} _.
Arguments st_world {B} _.

Section Code.
Context {U256 : Uint256} {PH : Poseidon} {GE : GoEnv}.

(** * Hashing *)

Definition calculateHash (left right : Z) : gores Z :=
  let* hash := wrap_res "compute hash: %w" [] (lift (poseidon_Hash left right)) in
  let (nodeHash, isOverflow) := uint256_FromBig hash in
  if isOverflow then Throw (Errorf "invalid hash" [] None) else Ok nodeHash.

(** [for i := TreeLevel(1); i <= t.depth; i++], [n] levels being left; [levels] holds those
    that are done. *)
Fixpoint emptyBranch_loop (n : nat) (i : TreeLevel) (prevHash : Z) (levels : list Z)
    : gores (list Z) :=
  match n with
  | O => Ok levels
  | S n' =>
      let* hash := wrap_res "compute hash for level %d: %w" [i] (calculateHash prevHash prevHash) in
      emptyBranch_loop n' (u8 (i + 1)) hash (levels ++ [hash])
  end.

(** The length [t.depth+1] of the slice is an 8-bit number: for a depth of 255 it is 0, and
    the assignment to [levels[0]] panics. *)
Definition calculateEmptyBranchHashes (t : SparseMerkleTree) : gores (list Z) :=
  if depth t <? 1 then Throw (Errorf "invalid tree depth" [] None)
  else if u8 (depth t + 1) =? 0 then Throw (Panic "index out of range")
  else emptyBranch_loop (Z.to_nat (depth t)) 1 (emtpyLeaf t) [emtpyLeaf t].

Section Methods.
Context {B : Type}.

(** ** Access to the state *)

Definition get_tree : go (state B) SparseMerkleTree := fun s => (Ok (st_tree s), s).
Definition get_batch : go (state B) B := fun s => (Ok (st_batch s), s).
Definition put_emptyBranchLevels (levels : list Z) : go (state B) unit :=
  fun s => let t := st_tree s in
    (Ok tt, mkState (mkSparseMerkleTree (emtpyLeaf t) (depth t) (Some levels) (storageLeafGetter t))
              (st_batch s) (st_world s)).

(** [select { case <-ctx.Done(): return err; default: }] *)
Definition check_ctx (err : go_error) : go (state B) unit :=
  fun s => let w := st_world s in
    (if ctx_done (checks w) then Throw err else Ok tt,
     mkState (st_tree s) (st_batch s) (mkWorld (S (checks w)) (draws w))).

Definition draw : go (state B) Z :=
  fun s => let w := st_world s in
    (Ok (rand_Uint64 (draws w)), mkState (st_tree s) (st_batch s) (mkWorld (checks w) (S (draws w)))).

(** ** Reading nodes *)

Definition invalid_level (t : SparseMerkleTree) (level : TreeLevel) : go_error :=
  Errorf "invalid level %d inside a tree of depth %d" [level; depth t] None.

Definition getEmptyBranchValue (level : TreeLevel) : go (state B) Z :=
  let! t := get_tree in
  if depth t <? level then go_throw (invalid_level t level)
  else
    let! levels :=
      match emptyBranchLevels t with
      | None =>
          let! emptyBranchLevels := go_wrap "calculate empty branch hashes: %w" []
                                      (go_res (calculateEmptyBranchHashes t)) in
          let! _ := put_emptyBranchLevels emptyBranchLevels in
          go_ret emptyBranchLevels
      | Some levels => go_ret levels
      end in
    match levels !! Z.to_nat level with
    | Some v => go_ret v
    | None => go_throw (Panic "index out of range")
    end.

Definition getLeafFromStorage (level : TreeLevel) (index : TreeLeafIndex) : go (state B) Z :=
  let! t := get_tree in
  if depth t <? level then go_throw (invalid_level t level)
  else
    let! leaf := go_try (go_res (storageLeafGetter t level index)) in
    match leaf with
    | inl err =>
        if negb (is_not_found err) then go_throw (Errorf "get TreeLeaf: %w" [] (Some err))
        else getEmptyBranchValue level
    | inr leaf => go_ret leaf
    end.

Definition GetRoot : go (state B) Z :=
  let! t := get_tree in
  getLeafFromStorage (depth t) 0.

(** ** Proofs from storage *)

Fixpoint CreateProof_loop (n : nat) (level : TreeLevel) (pathIndex : TreeLeafIndex)
    (pathElements : list Z) : go (state B) (list Z) :=
  match n with
  | O => go_ret pathElements
  | S n' =>
      let! _ := check_ctx ctx_Err in
      let! element :=
        if pathIndex mod 2 =? 0
        then go_wrap "retrieve right node: %w" [] (getLeafFromStorage level (u32 (pathIndex + 1)))
        else go_wrap "retrieve left node: %w" [] (getLeafFromStorage level (u32 (pathIndex - 1))) in
      CreateProof_loop n' (u8 (level + 1)) (pathIndex / 2) (pathElements ++ [element])
  end.

Definition CreateProof (index : TreeLeafIndex) : go (state B) MerkleProof :=
  let! t := get_tree in
  let! leaf := go_wrap "retrieve TreeLeaf: %w" [] (getLeafFromStorage 0 index) in
  let! pathElements := CreateProof_loop (Z.to_nat (depth t)) 0 index [] in
  let! root := go_wrap "get root: %w" [] GetRoot in
  go_ret (mkMerkleProof leaf pathElements index root).

(** ** Random empty leaves *)

Definition maxLeaves (t : SparseMerkleTree) : Z := u64 (Z.shiftl 1 (depth t)).

(** [TreeLeafIndex(rand.Uint64() % t.maxLeaves())] *)
Definition random_index : go (state B) TreeLeafIndex :=
  let! t := get_tree in
  let! r := draw in
  if maxLeaves t =? 0 then go_throw (Panic "integer divide by zero")
  else go_ret (u32 (r mod maxLeaves t)).

Fixpoint GetRandomEmptyLeafIndex_loop (maxIterations : nat) : go (state B) TreeLeafIndex :=
  match maxIterations with
  | O => go_throw (Errorf "could not find an empty leaf index" [] None)
  | S maxIterations' =>
      let! _ := check_ctx ctx_Cause in
      let! index := random_index in
      let! t := get_tree in
      let! leaf := go_try (go_res (storageLeafGetter t 0 index)) in
      match leaf with
      | inl err => if is_not_found err then go_ret index else GetRandomEmptyLeafIndex_loop maxIterations'
      | inr _ => GetRandomEmptyLeafIndex_loop maxIterations'
      end
  end.

Definition GetRandomEmptyLeafIndex : go (state B) TreeLeafIndex :=
  GetRandomEmptyLeafIndex_loop maxIterationsEmptyLeafProof.

(** ** Reading and writing through a batch *)

Context {TB : TreeLeafGetterSetter B}.

Definition batch_SetLeaf (level : TreeLevel) (index : TreeLeafIndex) (value : Z) : go (state B) unit :=
  fun s => let (c, b) := SetLeaf level index value (st_batch s) in (c, mkState (st_tree s) b (st_world s)).

Definition getLeafFromBatchOrStorage (level : TreeLevel) (index : TreeLeafIndex) : go (state B) Z :=
  let! batch := get_batch in
  let! node := go_try (go_res (GetLeaf batch level index)) in
  match node with
  | inl err =>
      if is_not_found err then go_wrap "get leaf from storage: %w" [] (getLeafFromStorage level index)
      else go_throw (Errorf "get leaf from batch: %w" [] (Some err))
  | inr node => go_ret node
  end.

Definition getSiblingNodes (level : TreeLevel) (index : TreeLeafIndex) : go (state B) (Z * Z) :=
  let (leftNodeIndex, rightNodeIndex) :=
    if negb (index mod 2 =? 0) then (u32 (index - 1), index) else (index, u32 (index + 1)) in
  let! leftNode := getLeafFromBatchOrStorage level leftNodeIndex in
  let! rightNode := getLeafFromBatchOrStorage level rightNodeIndex in
  go_ret (leftNode, rightNode).

Definition calculateHashForNode (level : TreeLevel) (index : TreeLeafIndex) : go (state B) Z :=
  let! (leftNode, rightNode) := go_wrap "get sibling nodes: %w" [] (getSiblingNodes level index) in
  go_res (calculateHash leftNode rightNode).

(** ** Inserting one leaf *)

Fixpoint InsertLeaf_loop (n : nat) (level : TreeLevel) (index : TreeLeafIndex) : go (state B) unit :=
  match n with
  | O => go_ret tt
  | S n' =>
      let! nodeHash := go_wrap "compute node hash: %w" [] (calculateHashForNode level index) in
      let index := index / 2 in
      let! _ := go_wrap "set node: %w" [] (batch_SetLeaf (u8 (level + 1)) index nodeHash) in
      InsertLeaf_loop n' (u8 (level + 1)) index
  end.

Definition InsertLeaf (index : TreeLeafIndex) (value : Z) : go (state B) unit :=
  let! t := get_tree in
  let! _ := go_wrap "set leaf: %w" [] (batch_SetLeaf 0 index value) in
  InsertLeaf_loop (Z.to_nat (depth t)) 0 index.

(** ** Inserting several leaves

    [leaves] and [nextLevelLeaves] are slices.  After a level, [leaves] is the slice that was
    filled and [nextLevelLeaves] is the same array cut to length 0, so that the next level
    overwrites the array it reads.  [cur] and [nxt] are the arrays underlying the two slices;
    [shared] says that they are the same array. *)
Record slices : Type := mkSlices {
  cur : list TreeLeaf;
  cur_len : nat;
  nxt : list TreeLeaf;
  nxt_len : nat;
  shared : bool
}.

(** [nextLevelLeaves = append(nextLevelLeaves, leaf)]: in place while the capacity lasts,
    otherwise into a new array.  The new array is modelled without the spare capacity Go gives
    it, which can only be used while the two arrays are distinct: once they are shared, the
    capacity is at least the length of the slice that is read. *)
Definition append_next (leaf : TreeLeaf) (sl : slices) : slices :=
  if (nxt_len sl <? length (nxt sl))%nat then
    let nxt' := <[nxt_len sl := leaf]> (nxt sl) in
    mkSlices (if shared sl then nxt' else cur sl) (cur_len sl) nxt' (S (nxt_len sl)) (shared sl)
  else
    mkSlices (cur sl) (cur_len sl) (take (nxt_len sl) (nxt sl) ++ [leaf]) (S (nxt_len sl)) false.

(** [leaves = nextLevelLeaves; nextLevelLeaves = nextLevelLeaves[:0]] *)
Definition swap_slices (sl : slices) : slices :=
  mkSlices (nxt sl) (nxt_len sl) (nxt sl) 0 true.

(** [for _, leaf := range leaves], at position [i] with [n] elements left. *)
Fixpoint InsertLeaves_range (n i : nat) (level : TreeLevel) (updatedIndexes : gset Z) (sl : slices)
    : go (state B) slices :=
  match n with
  | O => go_ret sl
  | S n' =>
      match cur sl !! i with
      | None => go_throw (Panic "index out of range")
      | Some leaf =>
          let index := Leaf_Index leaf / 2 in
          if bool_decide (index ∈ updatedIndexes) then
            InsertLeaves_range n' (S i) level updatedIndexes sl
          else
            let! nodeHash := go_wrap "compute node hash: %w" []
                               (calculateHashForNode level (Leaf_Index leaf)) in
            let! _ := go_wrap "set node: %w" [] (batch_SetLeaf (u8 (level + 1)) index nodeHash) in
            InsertLeaves_range n' (S i) level ({[ index ]} ∪ updatedIndexes)
              (append_next (mkTreeLeaf index nodeHash) sl)
      end
  end.

Fixpoint InsertLeaves_levels (n : nat) (level : TreeLevel) (sl : slices) : go (state B) unit :=
  match n with
  | O => go_ret tt
  | S n' =>
      let! sl := InsertLeaves_range (cur_len sl) 0 level ∅ sl in
      InsertLeaves_levels n' (u8 (level + 1)) (swap_slices sl)
  end.

Fixpoint InsertLeaves_set (leaves : list TreeLeaf) : go (state B) unit :=
  match leaves with
  | [] => go_ret tt
  | leaf :: leaves' =>
      let! _ := go_wrap "set leaf: %w" [] (batch_SetLeaf 0 (Leaf_Index leaf) (Leaf_Value leaf)) in
      InsertLeaves_set leaves'
  end.

Definition InsertLeaves (leaves : list TreeLeaf) : go (state B) unit :=
  let! t := get_tree in
  let! _ := InsertLeaves_set leaves in
  InsertLeaves_levels (Z.to_nat (depth t)) 0 (mkSlices leaves (length leaves) [] 0 false).

(** ** Proofs and searches in a batch *)

Fixpoint createProofWithBatch_loop (n : nat) (level : TreeLevel) (pathIndex : TreeLeafIndex)
    (pathElements : list Z) : go (state B) (list Z) :=
  match n with
  | O => go_ret pathElements
  | S n' =>
      let! _ := check_ctx ctx_Err in
      let siblingIndex := Z.lxor pathIndex 1 in
      let! element := go_wrap "retrieve sibling at level %d: %w" [level]
                        (getLeafFromBatchOrStorage level siblingIndex) in
      createProofWithBatch_loop n' (u8 (level + 1)) (pathIndex / 2) (pathElements ++ [element])
  end.

Definition createProofWithBatch (index : TreeLeafIndex) : go (state B) MerkleProof :=
  let! t := get_tree in
  let! leaf := go_wrap "retrieve leaf: %w" [] (getLeafFromBatchOrStorage 0 index) in
  let! pathElements := createProofWithBatch_loop (Z.to_nat (depth t)) 0 index [] in
  let! root := go_wrap "get root: %w" [] (getLeafFromBatchOrStorage (depth t) 0) in
  go_ret (mkMerkleProof leaf pathElements index root).

Fixpoint findEmptyLeafIndexInSimulation_loop (maxIterations : nat) : go (state B) TreeLeafIndex :=
  match maxIterations with
  | O => go_throw (Errorf "could not find an empty leaf index" [] None)
  | S maxIterations' =>
      let! _ := check_ctx ctx_Err in
      let! index := random_index in
      let! leaf := go_wrap "get leaf: %w" [] (getLeafFromBatchOrStorage 0 index) in
      let! t := get_tree in
      if leaf =? emtpyLeaf t then go_ret index
      else findEmptyLeafIndexInSimulation_loop maxIterations'
  end.

Definition findEmptyLeafIndexInSimulation : go (state B) TreeLeafIndex :=
  findEmptyLeafIndexInSimulation_loop maxIterationsEmptyLeafProof.

(** [for i := uint64(0); i < maxLeaves; i++], [n] iterations being left. *)
Fixpoint findLeafByValueInSimulation_loop (n : nat) (i : Z) (value : Z) : go (state B) TreeLeafIndex :=
  match n with
  | O => go_throw (Errorf "leaf with value not found" [] None)
  | S n' =>
      let! _ := check_ctx ctx_Err in
      let index := u32 i in
      let! leaf := go_try (getLeafFromBatchOrStorage 0 index) in
      match leaf with
      | inl _ => findLeafByValueInSimulation_loop n' (u64 (i + 1)) value
      | inr leaf =>
          if leaf =? value then go_ret index
          else findLeafByValueInSimulation_loop n' (u64 (i + 1)) value
      end
  end.

Definition findLeafByValueInSimulation (value : Z) : go (state B) TreeLeafIndex :=
  let! t := get_tree in
  findLeafByValueInSimulation_loop (Z.to_nat (maxLeaves t)) 0 value.

(** One operation of a batch: find the leaf, prove it, check the proof, apply the change. *)
Definition simulate_operation (i : Z) (op : LeafOperation) : go (state B) BatchProofResult :=
  let! _ := check_ctx ctx_Err in
  let value := Leaf_Value (Operation_Leaf op) in
  if Operation_Op op =? OperationAddition then
    let! leafIndex := go_wrap "find empty leaf index for operation %d: %w" [i]
                        findEmptyLeafIndexInSimulation in
    let! proof := go_wrap "create proof for addition at index %d: %w" [leafIndex]
                    (createProofWithBatch leafIndex) in
    let! t := get_tree in
    if negb (Proof_Leaf proof =? emtpyLeaf t) then
      go_throw (Errorf "leaf at index %d is not empty" [leafIndex] None)
    else
      let! _ := go_wrap "insert leaf at index %d: %w" [leafIndex] (InsertLeaf leafIndex value) in
      go_ret (mkBatchProofResult leafIndex (Proof_Path proof))
  else if Operation_Op op =? OperationRevocation then
    let! leafIndex := go_wrap "find leaf for revocation %d: %w" [i]
                        (findLeafByValueInSimulation value) in
    let! proof := go_wrap "create proof for revocation at index %d: %w" [leafIndex]
                    (createProofWithBatch leafIndex) in
    if negb (Proof_Leaf proof =? value) then
      go_throw (Errorf "leaf at index %d does not match expected value" [leafIndex] None)
    else
      let! t := get_tree in
      let! _ := go_wrap "revoke leaf at index %d: %w" [leafIndex] (InsertLeaf leafIndex (emtpyLeaf t)) in
      go_ret (mkBatchProofResult leafIndex (Proof_Path proof))
  else go_throw (Errorf "unknown operation type: %d" [Operation_Op op] None).

(** [for i, op := range operations] *)
Fixpoint simulate_loop (i : Z) (operations : list LeafOperation) (proofs : list BatchProofResult)
    : go (state B) (list BatchProofResult) :=
  match operations with
  | [] => go_ret proofs
  | op :: operations' =>
      let! proof := simulate_operation i op in
      simulate_loop (i + 1) operations' (proofs ++ [proof])
  end.
End Methods.

(** * The simulation batch: a buffer of changed nodes over the storage *)

Record SimulationBatch : Type := mkSimulationBatch {
  sim_storage : TreeLeafGetter;
  sim_buffer : gmap string Z
}.

Definition NewSimulationBatch (storage : TreeLeafGetter) : SimulationBatch :=
  mkSimulationBatch storage ∅.

(** [fmt.Sprintf("%d:%d", level, index)] *)
Definition makeSimKey (level : TreeLevel) (index : TreeLeafIndex) : string :=
  pretty (Z.to_N level) +:+ ":" +:+ pretty (Z.to_N index).

Definition SimulationBatch_GetLeaf (s : SimulationBatch) (level : TreeLevel) (index : TreeLeafIndex)
    : gores Z :=
  match sim_buffer s !! makeSimKey level index with
  | Some value => Ok value
  | None => sim_storage s level index
  end.

Definition SimulationBatch_SetLeaf (level : TreeLevel) (index : TreeLeafIndex) (value : Z)
    : go SimulationBatch unit :=
  fun s => (Ok tt, mkSimulationBatch (sim_storage s) (<[makeSimKey level index := value]> (sim_buffer s))).

#[export] Instance SimulationBatch_GetterSetter : TreeLeafGetterSetter SimulationBatch := {
  GetLeaf := SimulationBatch_GetLeaf;
  SetLeaf := SimulationBatch_SetLeaf;
}.

(** Runs a computation on a batch of its own; the caller's batch is not touched. *)
Definition on_batch {B B' A : Type} (b : B') (m : go (state B') A) : go (state B) A :=
  fun s => let (c, s') := m (mkState (st_tree s) b (st_world s)) in
           (c, mkState (st_tree s') (st_batch s) (st_world s')).

Definition SimulateBatchOperations {B : Type} (operations : list LeafOperation)
    : go (state B) (Z * list BatchProofResult) :=
  let! initialRoot := go_wrap "get initial root: %w" [] GetRoot in
  let! t := get_tree in
  let! proofs := on_batch (NewSimulationBatch (storageLeafGetter t)) (simulate_loop 0 operations []) in
  go_ret (initialRoot, proofs).
End Code.
