(* ===== verification/SparseTreeFacts.v ===== *)
(** The operations of [SparseTree] on well-formed states: what reading a node returns, what
    inserting leaves changes, and how the arrays that [InsertLeaves] shares between levels
    behave.  The lemmas are proved against the interface of a batch ([BatchLaws]). *)

From stdpp Require Import base list numbers strings gmap pretty.
From Stdlib Require Import ZArith Lia.
From S2P Require Import Prelude GoBase MerkleSpec SparseTree.
Local Open Scope Z_scope.

(** * What the code relies on *)

(** Numbers of 256 bits convert without overflow and read back from their bytes; zero is
    written as no bytes at all; the 32-byte form has 32 bytes and determines the number. *)
Class Uint256Laws (U : Uint256) := {
  FromBig_fits : forall z, 0 <= z < 2 ^ 256 -> uint256_FromBig z = (z, false);
  SetBytes_Bytes : forall z, 0 <= z < 2 ^ 256 -> uint256_SetBytes (uint256_Bytes z) = z;
  Bytes_empty : forall z, 0 <= z < 2 ^ 256 -> uint256_Bytes z = [] <-> z = 0;
  Bytes32_length : forall z, 0 <= z < 2 ^ 256 -> length (uint256_Bytes32 z) = 32%nat;
  Bytes32_inj : forall z z', 0 <= z < 2 ^ 256 -> 0 <= z' < 2 ^ 256 ->
    uint256_Bytes32 z = uint256_Bytes32 z' -> z = z';
}.

(** The hash maps pairs of field elements to field elements, and the field fits 256 bits. *)
Class PoseidonLaws (PH : Poseidon) := {
  field_modulus : Z;
  modulus_fits : field_modulus <= 2 ^ 256;
  poseidon_field : forall a b, 0 <= a < field_modulus -> 0 <= b < field_modulus ->
    exists h, poseidon_Hash a b = inr h /\ 0 <= h < field_modulus;
}.

Definition in_field `{PoseidonLaws} (x : Z) : Prop := 0 <= x < field_modulus.

(** Levels and indices are 8-bit and 32-bit numbers. *)
Definition key_ok (l i : Z) : Prop := 0 <= l < 2 ^ 8 /\ 0 <= i < 2 ^ 32.

(** What a batch promises: its nodes are a finite map that [SetLeaf] updates and [GetLeaf]
    looks up; a missing node is reported as not found. *)
Class BatchLaws (B : Type) {TB : TreeLeafGetterSetter B} := {
  batch_ok : B -> Prop;
  view : B -> Z -> Z -> option Z;
  GetLeaf_present : forall b l i v, batch_ok b -> key_ok l i -> view b l i = Some v -> GetLeaf b l i = Ok v;
  GetLeaf_absent : forall b l i, batch_ok b -> key_ok l i -> view b l i = None ->
    exists e, GetLeaf b l i = Throw e /\ is_not_found e = true;
  SetLeaf_ok : forall b l i v, batch_ok b -> key_ok l i ->
    exists b', SetLeaf l i v b = (Ok tt, b') /\ batch_ok b' /\
      view b' l i = Some v /\
      forall l' i', key_ok l' i' -> (l', i') <> (l, i) -> view b' l' i' = view b l' i';
}.

Lemma not_found_not_panic (e : go_error) : is_not_found e = true -> is_panic e = false.
Proof. by destruct e. Qed.

Section Facts.
Context {U256 : Uint256} {UL : Uint256Laws U256} {PH : Poseidon} {PL : PoseidonLaws PH} {GE : GoEnv}.

(** * Hashing *)

Definition hash (a b : Z) : Z := match calculateHash a b with Ok h => h | _ => 0 end.

Lemma calculateHash_ok (a b : Z) :
  in_field a -> in_field b -> calculateHash a b = Ok (hash a b) /\ in_field (hash a b).
Proof.
  intros Ha Hb. unfold hash, calculateHash. destruct (poseidon_field a b Ha Hb) as (h & E & Hh).
  rewrite E. cbn [lift wrap_res res_bind]. pose proof modulus_fits.
  by rewrite FromBig_fits by lia.
Qed.

Lemma empty_node_field (e : Z) (n : nat) : in_field e -> in_field (empty_node hash e n).
Proof. intros He. induction n as [|n IH]; cbn; [done|]. by apply calculateHash_ok. Qed.

(** * Trees *)

Definition depth_ok (t : SparseMerkleTree) : Prop := 1 <= depth t < 255.

Definition storage_ok (g : TreeLeafGetter) : Prop :=
  forall l i, key_ok l i ->
    (exists v, g l i = Ok v /\ in_field v) \/ (exists e, g l i = Throw e /\ is_not_found e = true).

Definition empty_branches (t : SparseMerkleTree) : list Z :=
  map (empty_node hash (emtpyLeaf t)) (seq 0 (S (Z.to_nat (depth t)))).

(** The cache is empty or holds the hashes of empty branches. *)
Definition cache_ok (t : SparseMerkleTree) : Prop :=
  emptyBranchLevels t = None \/ emptyBranchLevels t = Some (empty_branches t).

Definition tree_ok (t : SparseMerkleTree) : Prop :=
  depth_ok t /\ in_field (emtpyLeaf t) /\ storage_ok (storageLeafGetter t) /\ cache_ok t.

(** Trees that differ at most in the cache. *)
Definition same_tree (t t' : SparseMerkleTree) : Prop :=
  emtpyLeaf t' = emtpyLeaf t /\ depth t' = depth t /\ storageLeafGetter t' = storageLeafGetter t.

#[export] Instance same_tree_equiv : Equivalence same_tree.
Proof.
  split; [by intros t|by intros t t' (? & ? & ?)|].
  intros t1 t2 t3 (? & ? & ?) (? & ? & ?). repeat split; congruence.
Qed.

Lemma emptyBranch_loop_ok (n : nat) (k : nat) (i e : Z) (levels : list Z) :
  in_field e ->
  emptyBranch_loop n i (empty_node hash e k) levels =
  Ok (levels ++ map (empty_node hash e) (seq (S k) n)).
Proof.
  intros He. revert k i levels. induction n as [|n IH]; intros k i levels; cbn [emptyBranch_loop].
  { cbn. by rewrite app_nil_r. }
  pose proof (empty_node_field e k He) as Hk.
  destruct (calculateHash_ok _ _ Hk Hk) as [-> _]. cbn [wrap_res res_bind].
  change (hash (empty_node hash e k) (empty_node hash e k)) with (empty_node hash e (S k)).
  rewrite IH, <- (assoc_L (++)). done.
Qed.

Lemma calculateEmptyBranchHashes_ok (t : SparseMerkleTree) :
  depth_ok t -> in_field (emtpyLeaf t) -> calculateEmptyBranchHashes t = Ok (empty_branches t).
Proof.
  intros Hd He. unfold calculateEmptyBranchHashes, u8, depth_ok in *.
  rewrite (Z.mod_small (depth t + 1)) by lia.
  destruct (Z.ltb_spec (depth t) 1); [lia|]. destruct (Z.eqb_spec (depth t + 1) 0); [lia|].
  by apply (emptyBranch_loop_ok (Z.to_nat (depth t)) 0).
Qed.

Section Batch.
Context {B : Type}.

(** [quiet s s']: only the cache and the outside world may have changed. *)
Definition quiet (s s' : state B) : Prop :=
  st_batch s' = st_batch s /\ same_tree (st_tree s) (st_tree s') /\ cache_ok (st_tree s').

Lemma quiet_trans (s1 s2 s3 : state B) : quiet s1 s2 -> quiet s2 s3 -> quiet s1 s3.
Proof.
  intros (? & ? & ?) (? & ? & ?). split; [congruence|]. split; [by transitivity (st_tree s2)|done].
Qed.

Lemma quiet_refl (s : state B) : cache_ok (st_tree s) -> quiet s s.
Proof. by repeat split. Qed.

Lemma quiet_tree_ok (s s' : state B) : quiet s s' -> tree_ok (st_tree s) -> tree_ok (st_tree s').
Proof.
  intros (_ & (He & Hd & Hg) & Hc) (? & ? & ? & _). unfold tree_ok, depth_ok. by rewrite He, Hd, Hg.
Qed.

(** The value of a node that only the storage knows about. *)
Definition stored (t : SparseMerkleTree) (l i : Z) : Z :=
  match storageLeafGetter t l i with Ok v => v | _ => empty_node hash (emtpyLeaf t) (Z.to_nat l) end.

Lemma getEmptyBranchValue_ok (s : state B) (l : Z) :
  depth_ok (st_tree s) -> in_field (emtpyLeaf (st_tree s)) -> cache_ok (st_tree s) -> 0 <= l <= depth (st_tree s) ->
  exists s', runs (getEmptyBranchValue l) s (empty_node hash (emtpyLeaf (st_tree s)) (Z.to_nat l)) s' /\
    quiet s s' /\ st_world s' = st_world s.
Proof.
  intros Hd He Hc Hl. destruct s as [t b w]. cbn [st_tree st_world] in *.
  assert (empty_branches t !! Z.to_nat l = Some (empty_node hash (emtpyLeaf t) (Z.to_nat l))) as Hlook.
  { unfold empty_branches. rewrite list_lookup_fmap, lookup_seq_lt by lia. done. }
  unfold getEmptyBranchValue, runs. unfold go_bind at 1. cbn [get_tree st_tree].
  destruct (Z.ltb_spec (depth t) l); [lia|]. unfold cache_ok in Hc.
  destruct (emptyBranchLevels t) as [levels|] eqn:Ec.
  - destruct Hc as [|[= ->]]; [done|]. exists (mkState t b w).
    unfold go_bind, go_ret. rewrite Hlook. split; [done|]. split; [|done].
    repeat split. right. exact Ec.
  - unfold go_bind, go_wrap, go_res, wrap_res. rewrite (calculateEmptyBranchHashes_ok t Hd He).
    unfold put_emptyBranchLevels, go_ret. cbn [st_tree st_batch st_world]. rewrite Hlook.
    eexists. split; [reflexivity|]. split; [|done]. repeat split. by right.
Qed.

Lemma getLeafFromStorage_ok (s : state B) (l i : Z) :
  tree_ok (st_tree s) -> 0 <= l <= depth (st_tree s) -> 0 <= i < 2 ^ 32 ->
  exists s', runs (getLeafFromStorage l i) s (stored (st_tree s) l i) s' /\
    quiet s s' /\ st_world s' = st_world s.
Proof.
  intros Ht Hl Hi. pose proof Ht as (Hd & He & Hg & Hc). unfold depth_ok in Hd.
  unfold getLeafFromStorage, runs, stored. unfold go_bind at 1. cbn [get_tree].
  destruct (Z.ltb_spec (depth (st_tree s)) l); [lia|]. unfold go_bind, go_try, go_res.
  destruct (Hg l i) as [(v & -> & _)|(e & -> & Hn)]; [split; lia| |].
  - exists s. repeat split; done.
  - rewrite (not_found_not_panic e Hn). cbn [is_not_found]. rewrite Hn. cbn [negb].
    by apply getEmptyBranchValue_ok.
Qed.

Lemma stored_field (t : SparseMerkleTree) (l i : Z) :
  tree_ok t -> key_ok l i -> in_field (stored t l i).
Proof.
  intros (_ & He & Hg & _) Hk. unfold stored.
  destruct (Hg l i Hk) as [(v & -> & Hv)|(e & -> & _)]; [done|]. by apply empty_node_field.
Qed.

Lemma stored_same (t t' : SparseMerkleTree) (l i : Z) : same_tree t t' -> stored t' l i = stored t l i.
Proof. unfold stored. by intros (-> & _ & ->). Qed.

(** * States with a batch *)

Context {TB : TreeLeafGetterSetter B} {BL : BatchLaws B}.

(** The value of a node: from the batch, else from the storage, else of an empty branch. *)
Definition node (s : state B) (l i : Z) : Z :=
  match view (st_batch s) l i with Some v => v | None => stored (st_tree s) l i end.

Definition state_ok (s : state B) : Prop :=
  tree_ok (st_tree s) /\ batch_ok (st_batch s) /\ (forall l i, key_ok l i -> in_field (node s l i)).

(** The nodes of the state are those of [N]. *)
Definition represents (s : state B) (N : Z -> Z -> Z) : Prop :=
  forall l i, key_ok l i -> node s l i = N l i.

Lemma quiet_node (s s' : state B) (l i : Z) : quiet s s' -> node s' l i = node s l i.
Proof. intros (Hb & Ht & _). unfold node. rewrite Hb. by rewrite (stored_same _ _ l i Ht). Qed.

Lemma quiet_state_ok (s s' : state B) : quiet s s' -> state_ok s -> state_ok s'.
Proof.
  intros Hq (Ht & Hb & Hf). split; [by apply (quiet_tree_ok s)|]. split.
  - destruct Hq as (-> & _). done.
  - intros l i Hk. rewrite (quiet_node s s' l i Hq). auto.
Qed.

Lemma quiet_represents (s s' : state B) (N : Z -> Z -> Z) : quiet s s' -> represents s N -> represents s' N.
Proof. intros Hq Hr l i Hk. rewrite (quiet_node s s' l i Hq). auto. Qed.

Lemma quiet_depth (s s' : state B) : quiet s s' -> depth (st_tree s') = depth (st_tree s).
Proof. by intros (_ & (_ & ? & _) & _). Qed.

Lemma state_depth (s : state B) : state_ok s -> 1 <= depth (st_tree s) < 255.
Proof. by intros ((? & _) & _). Qed.

Lemma getLeafFromBatchOrStorage_ok (s : state B) (l i : Z) :
  state_ok s -> 0 <= l <= depth (st_tree s) -> 0 <= i < 2 ^ 32 ->
  exists s', runs (getLeafFromBatchOrStorage l i) s (node s l i) s' /\
    quiet s s' /\ st_world s' = st_world s.
Proof.
  intros Hs Hl Hi. pose proof (state_depth s Hs) as Hd. destruct Hs as (Ht & Hb & Hf).
  assert (key_ok l i) as Hk by (split; lia).
  unfold getLeafFromBatchOrStorage, runs, node, go_bind, get_batch, go_try, go_res.
  destruct (view (st_batch s) l i) as [v|] eqn:E.
  - rewrite (GetLeaf_present _ _ _ v Hb Hk E). exists s. split; [done|].
    split; [apply quiet_refl, Ht|done].
  - destruct (GetLeaf_absent _ _ _ Hb Hk E) as (e & -> & Hn). rewrite (not_found_not_panic e Hn), Hn.
    destruct (getLeafFromStorage_ok s l i Ht Hl Hi) as (s' & R & Q & W).
    exists s'. split; [by apply runs_wrap|done].
Qed.

(** A change of one node. *)
Definition set_node (N : Z -> Z -> Z) (l i v : Z) : Z -> Z -> Z :=
  fun l' i' => if decide ((l', i') = (l, i)) then v else N l' i'.

Lemma batch_SetLeaf_ok (s : state B) (N : Z -> Z -> Z) (l i v : Z) :
  state_ok s -> represents s N -> key_ok l i -> in_field v ->
  exists s', runs (batch_SetLeaf l i v) s tt s' /\ state_ok s' /\ represents s' (set_node N l i v) /\
    st_tree s' = st_tree s /\ st_world s' = st_world s.
Proof.
  intros (Ht & Hb & Hf) Hr Hk Hv. unfold batch_SetLeaf, runs.
  destruct (SetLeaf_ok (st_batch s) l i v Hb Hk) as (b' & -> & Hb' & Hset & Hother).
  eexists. split; [reflexivity|].
  assert (represents (mkState (st_tree s) b' (st_world s)) (set_node N l i v)) as Hr'.
  { intros l' i' Hk'. unfold node, set_node. cbn [st_batch st_tree]. destruct (decide _) as [[= -> ->]|Hne].
    - by rewrite Hset.
    - rewrite Hother by done. by apply Hr. }
  split; [split; [exact Ht|split; [exact Hb'|]]|done].
  intros l' i' Hk'. rewrite (Hr' l' i' Hk'). unfold set_node.
  destruct (decide _); [done|]. rewrite <- Hr by done. by apply Hf.
Qed.

Lemma sibling_pair (index : Z) :
  0 <= index < 2 ^ 32 ->
  (if negb (index mod 2 =? 0) then (u32 (index - 1), index) else (index, u32 (index + 1))) =
  (2 * (index / 2), 2 * (index / 2) + 1) /\
  0 <= 2 * (index / 2) < 2 ^ 32 /\ 0 <= 2 * (index / 2) + 1 < 2 ^ 32.
Proof.
  intros Hi. pose proof (Z.div_mod index 2). pose proof (Z.mod_pos_bound index 2). unfold u32.
  destruct (Z.eqb_spec (index mod 2) 0); cbn [negb]; rewrite Z.mod_small by lia;
    (split; [f_equal; lia|lia]).
Qed.

(** The hash of the node above [index]. *)
Definition parent_hash (N : Z -> Z -> Z) (l j : Z) : Z := hash (N l (2 * j)) (N l (2 * j + 1)).

Lemma calculateHashForNode_ok (s : state B) (N : Z -> Z -> Z) (l index : Z) :
  state_ok s -> represents s N -> 0 <= l <= depth (st_tree s) -> 0 <= index < 2 ^ 32 ->
  exists s', runs (calculateHashForNode l index) s (parent_hash N l (index / 2)) s' /\
    quiet s s' /\ st_world s' = st_world s /\ in_field (parent_hash N l (index / 2)).
Proof.
  intros Hs Hr Hl Hi. pose proof (state_depth s Hs).
  destruct (sibling_pair index Hi) as (E & Hi1 & Hi2).
  destruct (getLeafFromBatchOrStorage_ok s l (2 * (index / 2)) Hs Hl Hi1) as (s1 & R1 & Q1 & W1).
  pose proof (quiet_state_ok _ _ Q1 Hs) as Hs1.
  rewrite <- (quiet_depth _ _ Q1) in Hl.
  destruct (getLeafFromBatchOrStorage_ok s1 l (2 * (index / 2) + 1) Hs1 Hl Hi2) as (s2 & R2 & Q2 & W2).
  assert (key_ok l (2 * (index / 2))) as K1 by (rewrite (quiet_depth _ _ Q1) in Hl; split; lia).
  assert (key_ok l (2 * (index / 2) + 1)) as K2 by (rewrite (quiet_depth _ _ Q1) in Hl; split; lia).
  rewrite (quiet_node _ _ _ _ Q1), (Hr _ _ K2) in R2. rewrite (Hr _ _ K1) in R1.
  destruct Hs as (_ & _ & Hf).
  destruct (calculateHash_ok (N l (2 * (index / 2))) (N l (2 * (index / 2) + 1))) as [HH HF];
    [rewrite <- Hr by done; by apply Hf..|].
  exists s2. repeat split; [|by apply (quiet_trans _ _ _ Q1)..|congruence|apply HF|apply HF].
  unfold calculateHashForNode. eapply (runs_bind _ _ _ _ _ (_, _)).
  - apply runs_wrap. unfold getSiblingNodes, TreeLeafIndex. rewrite E.
    eapply runs_bind; [exact R1|]. eapply runs_bind; [exact R2|]. apply runs_ret.
  - by apply runs_res.
Qed.
End Batch.
End Facts.
