(* ===== verification/SparseTreeInsert.v ===== *)
(** Insertion into the sparse Merkle tree: what [InsertLeaf] and [InsertLeaves] do to the nodes
    of a consistent tree.  The arrays that [InsertLeaves] shares between levels are shown to
    behave as if every level had an array of its own. *)

From stdpp Require Import base list numbers strings gmap pretty.
From Stdlib Require Import ZArith Lia.
From S2P Require Import Prelude GoBase MerkleSpec SparseTree SparseTreeFacts.
Local Open Scope Z_scope.

(** * Shared slices *)

Section Slices.

(** After [i] elements of [L] were visited and [acc] was appended to the other slice. *)
Record slices_at (L : list TreeLeaf) (i : nat) (acc : list TreeLeaf) (sl : slices) : Prop := {
  at_cur_len : cur_len sl = length L;
  at_cur_cap : (length L <= length (cur sl))%nat;
  at_cur : forall k, (i <= k < length L)%nat -> cur sl !! k = L !! k;
  at_nxt_len : nxt_len sl = length acc;
  at_nxt : take (length acc) (nxt sl) = acc;
  at_behind : (length acc <= i)%nat;
  at_shared : shared sl = true -> cur sl = nxt sl;
}.

Lemma slices_start (L : list TreeLeaf) : slices_at L 0 [] (mkSlices L (length L) [] 0 false).
Proof. by split. Qed.

Lemma slices_skip (L acc : list TreeLeaf) (i : nat) (sl : slices) :
  slices_at L i acc sl -> slices_at L (S i) acc sl.
Proof.
  intros [Hlen Hcap Hcur Hnlen Hnxt Hbehind Hshared]. split; auto. intros k Hk. apply Hcur. lia.
Qed.

Lemma slices_append (L acc : list TreeLeaf) (i : nat) (sl : slices) (x : TreeLeaf) :
  slices_at L i acc sl -> slices_at L (S i) (acc ++ [x]) (append_next x sl).
Proof.
  intros [Hlen Hcap Hcur Hnlen Hnxt Hbehind Hshared]. unfold append_next.
  destruct (Nat.ltb_spec (nxt_len sl) (length (nxt sl))) as [Hin|Hout].
  - assert (take (length (acc ++ [x])) (<[nxt_len sl:=x]> (nxt sl)) = acc ++ [x]) as Htake.
    { rewrite length_app, Nat.add_1_r, Hnlen. rewrite (take_S_r _ _ x).
      - rewrite take_insert_ge by lia. by rewrite Hnxt.
      - apply list_lookup_insert_eq. lia. }
    split; cbn [cur cur_len nxt nxt_len shared]; auto.
    + destruct (shared sl) eqn:E; [|done]. by rewrite length_insert, <- (Hshared eq_refl).
    + intros k Hk. destruct (shared sl) eqn:E; [|apply Hcur; lia].
      rewrite list_lookup_insert_ne by lia. rewrite <- (Hshared eq_refl). apply Hcur. lia.
    + rewrite length_app, Hnlen. cbn. lia.
    + rewrite length_app. cbn. lia.
    + intros ->. done.
  - split; cbn [cur cur_len nxt nxt_len shared]; auto.
    + intros k Hk. apply Hcur. lia.
    + rewrite length_app, Hnlen. cbn. lia.
    + rewrite Hnlen, Hnxt. by rewrite take_ge.
    + rewrite length_app. cbn. lia.
    + done.
Qed.

Lemma slices_swap (L acc : list TreeLeaf) (i : nat) (sl : slices) :
  slices_at L i acc sl -> slices_at acc 0 [] (swap_slices sl).
Proof.
  intros [Hlen Hcap Hcur Hnlen Hnxt Hbehind Hshared]. unfold swap_slices.
  split; cbn [cur cur_len nxt nxt_len shared]; auto.
  - rewrite <- Hnxt at 1. rewrite length_take. lia.
  - intros k Hk. rewrite <- Hnxt at 1. by rewrite lookup_take_lt by lia.
Qed.
End Slices.

Section Insert.
Context {U256 : Uint256} {UL : Uint256Laws U256} {PH : Poseidon} {PL : PoseidonLaws PH} {GE : GoEnv}.
Context {B : Type} {TB : TreeLeafGetterSetter B} {BL : BatchLaws B}.

(** A state with well-formed nodes, and the trees of at most 2^32 leaves that indices can
    address. *)
Definition addressable (s : state B) : Prop := state_ok s /\ depth (st_tree s) <= 32.

(** What insertions leave alone. *)
Definition carries_on (s s' : state B) : Prop :=
  state_ok s' /\ same_tree (st_tree s) (st_tree s') /\ st_world s' = st_world s.

Lemma carries_on_trans (s1 s2 s3 : state B) : carries_on s1 s2 -> carries_on s2 s3 -> carries_on s1 s3.
Proof.
  intros (? & ? & ?) (? & ? & ?). split; [done|]. split; [by transitivity (st_tree s2)|congruence].
Qed.

Lemma carries_on_depth (s s' : state B) : carries_on s s' -> depth (st_tree s') = depth (st_tree s).
Proof. by intros (_ & (_ & ? & _) & _). Qed.

Lemma index_key (d l i : Z) : d <= 32 -> inside d l i -> key_ok l i.
Proof.
  intros Hd [Hl Hi]. split; [lia|]. assert (2 ^ (d - l) <= 2 ^ 32) by (apply Z.pow_le_mono_r; lia). lia.
Qed.

Lemma ancestor_inside (d l x : Z) : 0 <= l <= d -> 0 <= x < 2 ^ d -> inside d l (x / 2 ^ l).
Proof.
  intros Hl Hx. split; [done|]. pose proof (Z.pow_pos_nonneg 2 l).
  assert (2 ^ d = 2 ^ l * 2 ^ (d - l)) by (rewrite <- Z.pow_add_r by lia; f_equal; lia).
  split; [apply Z.div_pos; lia|apply Z.div_lt_upper_bound; lia].
Qed.

(** One node: hash its children and store it. *)
Lemma update_parent (s : state B) (N : Z -> Z -> Z) (l index : Z) :
  state_ok s -> represents s N -> 0 <= l < depth (st_tree s) -> 0 <= index < 2 ^ 32 ->
  exists s1 s2,
    runs (calculateHashForNode l index) s (parent_hash N l (index / 2)) s1 /\
    runs (batch_SetLeaf (u8 (l + 1)) (index / 2) (parent_hash N l (index / 2))) s1 tt s2 /\
    represents s2 (set_node N (l + 1) (index / 2) (parent_hash N l (index / 2))) /\ carries_on s s2.
Proof.
  intros Hs Hr Hl Hi. pose proof (state_depth s Hs) as Hd.
  destruct (calculateHashForNode_ok s N l index Hs Hr) as (s1 & R1 & Q1 & W1 & F1); [lia|done|].
  pose proof (quiet_state_ok _ _ Q1 Hs) as Hs1. pose proof (quiet_represents _ _ _ Q1 Hr) as Hr1.
  assert (key_ok (l + 1) (index / 2)) as Hk.
  { split; [lia|]. split; [apply Z.div_pos; lia|apply Z.div_lt_upper_bound; lia]. }
  assert (u8 (l + 1) = l + 1) as -> by (apply Z.mod_small; lia).
  destruct (batch_SetLeaf_ok s1 N (l + 1) (index / 2) _ Hs1 Hr1 Hk F1) as (s2 & R2 & Hs2 & Hr2 & T2 & W2).
  exists s1, s2. split; [done|]. split; [done|]. split; [done|].
  split; [done|]. split; [|congruence]. rewrite T2. apply Q1.
Qed.

Lemma set_node_same (N : Z -> Z -> Z) (l i v : Z) : set_node N l i v l i = v.
Proof. unfold set_node. by destruct (decide _). Qed.

Lemma set_node_other (N : Z -> Z -> Z) (l i v l' i' : Z) :
  l' <> l \/ i' <> i -> set_node N l i v l' i' = N l' i'.
Proof.
  intros Hne. unfold set_node. destruct (decide _) as [E|]; [|done].
  injection E as -> ->. by destruct Hne.
Qed.

(** * One leaf *)

Lemma InsertLeaf_loop_ok (n : nat) (l x : Z) (s : state B) (N : Z -> Z -> Z) :
  let d := depth (st_tree s) in
  addressable s -> represents s N -> 0 <= l -> l + Z.of_nat n = d -> 0 <= x < 2 ^ d ->
  consistent_below hash d l [x] N ->
  exists s' N', runs (InsertLeaf_loop n l (x / 2 ^ l)) s tt s' /\ represents s' N' /\ carries_on s s' /\
    consistent hash d N' /\ (forall l' i', l' <= l \/ i' <> x / 2 ^ l' -> N' l' i' = N l' i').
Proof.
  revert l s N. induction n as [|n IH]; intros l s N d [Hs Hd] Hr Hl Hn Hx Hc; subst d.
  { exists s, N. split; [apply runs_ret|]. split; [done|]. split; [by repeat split; try apply Hs|].
    split; [|done]. apply (consistent_complete _ _ [x]). by replace l with (depth (st_tree s)) in Hc by lia. }
  pose proof (state_depth s Hs) as Hd1.
  destruct (index_key _ _ _ Hd (ancestor_inside (depth (st_tree s)) l x ltac:(lia) Hx)) as [_ Hi].
  destruct (update_parent s N l (x / 2 ^ l) Hs Hr) as (s1 & s2 & R1 & R2 & Hr2 & C2); [lia|done|].
  assert (x / 2 ^ l / 2 = x / 2 ^ (l + 1)) as Ex.
  { pose proof (Z.pow_pos_nonneg 2 l). rewrite Z.pow_add_r, Z.pow_1_r by lia. apply Z.div_div; lia. }
  rewrite Ex in *.
  set (N2 := set_node N (l + 1) (x / 2 ^ (l + 1)) (parent_hash N l (x / 2 ^ (l + 1)))) in *.
  pose proof (carries_on_depth _ _ C2) as D2.
  destruct (IH (l + 1) s2 N2) as (s3 & N3 & R3 & Hr3 & C3 & Hc3 & Hsame); try (rewrite D2; lia || done).
  - split; [apply C2|by rewrite D2].
  - done.
  - lia.
  - rewrite D2. apply (consistent_recompute _ _ l [x] N); [done|done| |].
    + intros l' i' Hne. apply set_node_other. destruct Hne as [|Hne]; [by left|].
      right. intros ->. apply Hne. by left.
    + intros i [<-|[]]. apply set_node_same.
  - exists s3, N3. split; [|split; [done|split; [by apply (carries_on_trans _ s2)|split]]].
    + cbn [InsertLeaf_loop]. eapply runs_bind; [apply runs_wrap, R1|]. cbv zeta. rewrite Ex.
      eapply runs_bind; [apply runs_wrap, R2|].
      assert (u8 (l + 1) = l + 1) as -> by (apply Z.mod_small; lia). exact R3.
    + by rewrite D2 in Hc3.
    + intros l' i' Hne. rewrite Hsame by (destruct Hne; [left; lia|by right]).
      apply set_node_other. destruct Hne as [|Hne]; [left; lia|].
      destruct (decide (l' = l + 1)) as [->|]; [by right|by left].
Qed.

Lemma InsertLeaf_ok (x v : Z) (s : state B) (N : Z -> Z -> Z) :
  let d := depth (st_tree s) in
  addressable s -> represents s N -> consistent hash d N -> 0 <= x < 2 ^ d -> in_field v ->
  exists s' N', runs (InsertLeaf x v) s tt s' /\ represents s' N' /\ carries_on s s' /\
    consistent hash d N' /\ N' 0 x = v /\
    (forall l' i', i' <> x / 2 ^ l' -> N' l' i' = N l' i').
Proof.
  intros d Ha Hr Hc Hx Hv. pose proof Ha as [Hs Hd]. subst d. pose proof (state_depth s Hs) as Hd1.
  assert (key_ok 0 x) as Hk.
  { apply (index_key (depth (st_tree s))); [done|]. split; [lia|]. by rewrite Z.sub_0_r. }
  destruct (batch_SetLeaf_ok s N 0 x v Hs Hr Hk Hv) as (s1 & R1 & Hs1 & Hr1 & T1 & W1).
  destruct (InsertLeaf_loop_ok (Z.to_nat (depth (st_tree s))) 0 x s1 (set_node N 0 x v))
    as (s2 & N2 & R2 & Hr2 & C2 & Hc2 & Hsame); rewrite ?T1; try done; try lia.
  - split; [done|by rewrite T1].
  - apply (consistent_change_leaves _ _ [x] N); [done|]. intros l i Hne. apply set_node_other.
    destruct Hne as [|Hne]; [by left|]. right. intros ->. apply Hne. by left.
  - exists s2, N2. split; [|split; [done|split; [|split; [by rewrite T1 in Hc2|split]]]].
    + unfold InsertLeaf. eapply runs_bind; [reflexivity|]. eapply runs_bind; [apply runs_wrap, R1|].
      change (2 ^ 0) with 1 in R2. by rewrite Z.div_1_r in R2.
    + destruct C2 as (? & ? & ?). split; [done|]. rewrite T1 in *. split; [done|congruence].
    + rewrite Hsame by (left; lia). apply set_node_same.
    + intros l i Hne. rewrite Hsame by (by right). apply set_node_other.
      destruct (decide (l = 0)) as [->|]; [|by left]. right. change (2 ^ 0) with 1 in Hne.
      by rewrite Z.div_1_r in Hne.
Qed.

(** * Several leaves *)

(** The leaves as the insertions leave them: the last value for an index counts. *)
Fixpoint set_leaves (N : Z -> Z -> Z) (leaves : list TreeLeaf) : Z -> Z -> Z :=
  match leaves with
  | [] => N
  | leaf :: leaves' => set_leaves (set_node N 0 (Leaf_Index leaf) (Leaf_Value leaf)) leaves'
  end.

Lemma set_leaves_other (leaves : list TreeLeaf) (N : Z -> Z -> Z) (l i : Z) :
  l <> 0 \/ ~ In i (map Leaf_Index leaves) -> set_leaves N leaves l i = N l i.
Proof.
  revert N. induction leaves as [|leaf leaves IH]; intros N Hne; cbn; [done|]. cbn in Hne.
  rewrite IH by tauto. apply set_node_other. destruct Hne as [|Hne]; [by left|].
  right. intros ->. apply Hne. by left.
Qed.

Lemma set_leaves_ext (leaves : list TreeLeaf) (N N' : Z -> Z -> Z) (i : Z) :
  N 0 i = N' 0 i -> set_leaves N leaves 0 i = set_leaves N' leaves 0 i.
Proof.
  revert N N'. induction leaves as [|leaf leaves IH]; intros N N' E; cbn; [done|]. apply IH.
  unfold set_node. by destruct (decide _).
Qed.

Definition leaves_ok (s : state B) (leaves : list TreeLeaf) : Prop :=
  Forall (fun leaf => 0 <= Leaf_Index leaf < 2 ^ depth (st_tree s) /\ in_field (Leaf_Value leaf)) leaves.

Lemma InsertLeaves_set_ok (leaves : list TreeLeaf) (s : state B) (N : Z -> Z -> Z) :
  addressable s -> represents s N -> leaves_ok s leaves ->
  exists s', runs (InsertLeaves_set leaves) s tt s' /\ represents s' (set_leaves N leaves) /\
    carries_on s s'.
Proof.
  revert s N. induction leaves as [|leaf leaves IH]; intros s N [Hs Hd] Hr Hl.
  { exists s. split; [apply runs_ret|]. split; [done|]. by repeat split; try apply Hs. }
  apply Forall_cons in Hl as [[Hi Hv] Hl]. pose proof (state_depth s Hs) as Hd1.
  assert (key_ok 0 (Leaf_Index leaf)) as Hk.
  { apply (index_key (depth (st_tree s))); [done|]. split; [lia|]. by rewrite Z.sub_0_r. }
  destruct (batch_SetLeaf_ok s N 0 _ _ Hs Hr Hk Hv) as (s1 & R1 & Hs1 & Hr1 & T1 & W1).
  destruct (IH s1 _ ltac:(by split; [|rewrite T1]) Hr1 ltac:(unfold leaves_ok; by rewrite T1))
    as (s2 & R2 & Hr2 & C2).
  exists s2. split; [|split; [done|]].
  - cbn [InsertLeaves_set]. eapply runs_bind; [apply runs_wrap, R1|exact R2].
  - destruct C2 as (? & ? & ?). rewrite T1 in *. split; [done|]. split; [done|congruence].
Qed.

(** The nodes in the middle of a level: the parents in [U] are done. *)
Record level_at (N0 N : Z -> Z -> Z) (l : Z) (U : gset Z) : Prop := {
  level_done : forall j, j ∈ U -> N (l + 1) j = parent_hash N0 l j;
  level_rest : forall l' j, l' <> l + 1 \/ j ∉ U -> N l' j = N0 l' j;
}.

Lemma level_step (N0 N : Z -> Z -> Z) (l j : Z) (U : gset Z) :
  level_at N0 N l U ->
  level_at N0 (set_node N (l + 1) j (parent_hash N l j)) l ({[ j ]} ∪ U).
Proof.
  intros [Hdone Hrest].
  assert (parent_hash N l j = parent_hash N0 l j) as ->.
  { unfold parent_hash. by rewrite !Hrest by (left; lia). }
  split.
  - intros k Hk. destruct (decide (k = j)) as [->|Hkj]; [apply set_node_same|].
    rewrite set_node_other by (by right). apply Hdone.
    rewrite elem_of_union, elem_of_singleton in Hk. tauto.
  - intros l' k Hk. rewrite set_node_other; [apply Hrest|]; destruct Hk as [|Hk]; auto; right; set_solver.
Qed.

Definition parent (leaf : TreeLeaf) : Z := Leaf_Index leaf / 2.

(** A level: all parents of [L] are recomputed, each once, and collected in [acc]. *)
Lemma InsertLeaves_range_ok (L : list TreeLeaf) (l : Z) (N0 : Z -> Z -> Z) (n i : nat)
    (U : gset Z) (sl : slices) (acc : list TreeLeaf) (s : state B) (N : Z -> Z -> Z) :
  (i + n)%nat = length L -> slices_at L i acc sl ->
  state_ok s -> represents s N -> 0 <= l < depth (st_tree s) ->
  Forall (fun leaf => 0 <= Leaf_Index leaf < 2 ^ 32) L ->
  level_at N0 N l U -> (forall j, j ∈ U <-> In j (map Leaf_Index acc)) ->
  (forall j, j ∈ U <-> In j (map parent (take i L))) ->
  exists s' N' sl' acc', runs (InsertLeaves_range n i l U sl) s sl' s' /\
    slices_at L (length L) acc' sl' /\ represents s' N' /\ carries_on s s' /\
    (forall j, In j (map Leaf_Index acc') <-> In j (map parent L)) /\
    level_at N0 N' l (list_to_set (map parent L)).
Proof.
  revert i U sl acc s N.
  induction n as [|n IH]; intros i U sl acc s N Hn Hsl Hs Hr Hl HL HN Hacc HU.
  { exists s, N, sl, acc. rewrite Nat.add_0_r in Hn. subst i. rewrite take_ge in HU by done.
    split; [apply runs_ret|]. split; [done|]. split; [done|].
    split; [by repeat split; try apply Hs|]. split; [intros j; by rewrite <- Hacc, HU|].
    assert (list_to_set (map parent L) = U) as ->; [|done]. apply set_eq. intros j.
    rewrite elem_of_list_to_set, list_elem_of_In. by rewrite HU. }
  destruct (lookup_lt_is_Some_2 L i) as [leaf Hleaf]; [lia|].
  assert (cur sl !! i = Some leaf) as Hcur by (rewrite (at_cur _ _ _ _ Hsl) by lia; done).
  assert (take (S i) L = take i L ++ [leaf]) as Htake by (by apply take_S_r).
  cbn [InsertLeaves_range]. rewrite Hcur. destruct (bool_decide_reflect (Leaf_Index leaf / 2 ∈ U)) as [Hin|Hnin].
  - apply (IH (S i) U sl acc s N); try done; [lia|by apply slices_skip|].
    intros j. rewrite HU, Htake, map_app, in_app_iff. split; [by left|].
    intros [?|[<-|[]]]; [done|by apply HU].
  - assert (0 <= Leaf_Index leaf < 2 ^ 32) as Hidx.
    { rewrite Forall_lookup in HL. by apply (HL i). }
    destruct (update_parent s N l (Leaf_Index leaf) Hs Hr Hl Hidx) as (s1 & s2 & R1 & R2 & Hr2 & C2).
    pose proof (carries_on_depth _ _ C2) as D2.
    destruct (IH (S i) ({[ Leaf_Index leaf / 2 ]} ∪ U)
      (append_next (mkTreeLeaf (Leaf_Index leaf / 2) (parent_hash N l (Leaf_Index leaf / 2))) sl)
      (acc ++ [mkTreeLeaf (Leaf_Index leaf / 2) (parent_hash N l (Leaf_Index leaf / 2))]) s2 _
      ltac:(lia) (slices_append _ _ _ _ _ Hsl) (proj1 C2) Hr2 ltac:(by rewrite D2) HL
      (level_step _ _ _ _ _ HN)) as (s3 & N3 & sl3 & acc3 & R3 & Hsl3 & Hr3 & C3 & Hacc3 & HN3).
    + intros j. rewrite map_app, in_app_iff, elem_of_union, elem_of_singleton, Hacc. cbn.
      split; [intros [->|]; auto|intros [|[|[]]]; auto].
    + intros j. rewrite Htake, map_app, in_app_iff, elem_of_union, elem_of_singleton, HU. cbn.
      unfold parent at 2. split; [intros [->|]; auto|intros [|[|[]]]; auto].
    + exists s3, N3, sl3, acc3. split; [|split; [done|split; [done|split; [by apply (carries_on_trans _ s2)|done]]]].
      eapply runs_bind; [apply runs_wrap, R1|]. eapply runs_bind; [apply runs_wrap, R2|]. exact R3.
Qed.

Lemma InsertLeaves_levels_ok (n : nat) (l : Z) (D : list Z) (L : list TreeLeaf) (sl : slices)
    (s : state B) (N : Z -> Z -> Z) :
  let d := depth (st_tree s) in
  addressable s -> represents s N -> 0 <= l -> l + Z.of_nat n = d ->
  Forall (fun x => 0 <= x < 2 ^ d) D -> consistent_below hash d l D N ->
  slices_at L 0 [] sl -> (forall j, In j (map Leaf_Index L) <-> In j (ancestors D l)) ->
  exists s' N', runs (InsertLeaves_levels n l sl) s tt s' /\ represents s' N' /\ carries_on s s' /\
    consistent hash d N' /\ (forall l' i', l' <= l -> N' l' i' = N l' i').
Proof.
  revert l L sl s N. induction n as [|n IH]; intros l L sl s N d [Hs Hd] Hr Hl Hn HD Hc Hsl HL; subst d.
  { exists s, N. split; [apply runs_ret|]. split; [done|]. split; [by repeat split; try apply Hs|].
    split; [|done]. apply (consistent_complete _ _ D). by replace l with (depth (st_tree s)) in Hc by lia. }
  pose proof (state_depth s Hs) as Hd1.
  assert (Forall (fun leaf => 0 <= Leaf_Index leaf < 2 ^ 32) L) as Hidx.
  { apply Forall_forall. intros leaf Hleaf. apply list_elem_of_In, (in_map Leaf_Index), HL in Hleaf.
    apply in_map_iff in Hleaf as (x & <- & Hx). apply list_elem_of_In in Hx. rewrite Forall_forall in HD.
    by apply (index_key (depth (st_tree s)) l), ancestor_inside, HD; [|lia|]. }
  destruct (InsertLeaves_range_ok L l N (cur_len sl) 0 ∅ sl [] s N)
    as (s1 & N1 & sl1 & acc & R1 & Hsl1 & Hr1 & C1 & Hacc & [Hdone Hrest]); try done.
  { by rewrite (at_cur_len _ _ _ _ Hsl). }
  { lia. }
  pose proof (carries_on_depth _ _ C1) as D1.
  assert (forall j, In j (map parent L) <-> In j (ancestors D (l + 1))) as Hpar.
  { intros j. rewrite ancestors_S by lia.
    rewrite <- (map_map Leaf_Index (fun x => x / 2)), !in_map_iff.
    split; intros (x & Hx & Hin); exists x; (split; [done|by apply HL]). }
  assert (forall j, j ∈ (list_to_set (map parent L) : gset Z) <-> In j (ancestors D (l + 1))) as HU.
  { intros j. by rewrite elem_of_list_to_set, list_elem_of_In, Hpar. }
  destruct (IH (l + 1) acc (swap_slices sl1) s1 N1) as (s2 & N2 & R2 & Hr2 & C2 & Hc2 & Hsame).
  - split; [apply C1|by rewrite D1].
  - done.
  - lia.
  - rewrite D1. lia.
  - by rewrite D1.
  - rewrite D1. apply (consistent_recompute _ _ l D N); [done|done| |].
    + intros l' i Hne. apply Hrest. destruct Hne as [|Hne]; [by left|right]. by rewrite HU.
    + intros i Hi. apply Hdone. by apply HU.
  - by eapply slices_swap.
  - intros j. by rewrite Hacc, Hpar.
  - exists s2, N2. split; [|split; [done|split; [by apply (carries_on_trans _ s1)|split]]].
    + cbn [InsertLeaves_levels]. eapply runs_bind; [exact R1|].
      assert (u8 (l + 1) = l + 1) as -> by (apply Z.mod_small; lia). exact R2.
    + by rewrite D1 in Hc2.
    + intros l' i Hl'. rewrite Hsame by lia. apply Hrest. left. lia.
Qed.

Lemma InsertLeaves_ok (leaves : list TreeLeaf) (s : state B) (N : Z -> Z -> Z) :
  let d := depth (st_tree s) in
  addressable s -> represents s N -> consistent hash d N -> leaves_ok s leaves ->
  exists s' N', runs (InsertLeaves leaves) s tt s' /\ represents s' N' /\ carries_on s s' /\
    consistent hash d N' /\ (forall i, N' 0 i = set_leaves N leaves 0 i).
Proof.
  intros d Ha Hr Hc Hl. pose proof Ha as [Hs Hd]. subst d. pose proof (state_depth s Hs) as Hd1.
  destruct (InsertLeaves_set_ok leaves s N Ha Hr Hl) as (s1 & R1 & Hr1 & C1).
  pose proof (carries_on_depth _ _ C1) as D1.
  destruct (InsertLeaves_levels_ok (Z.to_nat (depth (st_tree s))) 0 (map Leaf_Index leaves) leaves
    (mkSlices leaves (length leaves) [] 0 false) s1 (set_leaves N leaves))
    as (s2 & N2 & R2 & Hr2 & C2 & Hc2 & Hsame).
  - split; [apply C1|by rewrite D1].
  - done.
  - lia.
  - rewrite D1. lia.
  - rewrite D1. apply Forall_map. eapply Forall_impl; [exact Hl|]. by intros leaf [? _].
  - rewrite D1. apply (consistent_change_leaves _ _ _ N); [done|]. apply set_leaves_other.
  - apply slices_start.
  - intros j. by rewrite ancestors_0.
  - exists s2, N2. split; [|split; [done|split; [by apply (carries_on_trans _ s1)|split]]].
    + unfold InsertLeaves. eapply runs_bind; [reflexivity|]. eapply runs_bind; [exact R1|exact R2].
    + by rewrite D1 in Hc2.
    + intros i. apply Hsame. lia.
Qed.

(** Inserting the leaves one by one, as a reference for [InsertLeaves]. *)
Fixpoint InsertEach (leaves : list TreeLeaf) : go (state B) unit :=
  match leaves with
  | [] => go_ret tt
  | leaf :: leaves' =>
      let! _ := InsertLeaf (Leaf_Index leaf) (Leaf_Value leaf) in InsertEach leaves'
  end.

Lemma InsertEach_ok (leaves : list TreeLeaf) (s : state B) (N : Z -> Z -> Z) :
  let d := depth (st_tree s) in
  addressable s -> represents s N -> consistent hash d N -> leaves_ok s leaves ->
  exists s' N', runs (InsertEach leaves) s tt s' /\ represents s' N' /\ carries_on s s' /\
    consistent hash d N' /\ (forall i, N' 0 i = set_leaves N leaves 0 i).
Proof.
  revert s N. induction leaves as [|leaf leaves IH]; intros s N d Ha Hr Hc Hl; subst d.
  { exists s, N. split; [apply runs_ret|]. split; [done|]. split; [by repeat split; try apply Ha|done]. }
  apply Forall_cons in Hl as [[Hi Hv] Hl].
  destruct (InsertLeaf_ok _ _ s N Ha Hr Hc Hi Hv) as (s1 & N1 & R1 & Hr1 & C1 & Hc1 & Hx & Hsame).
  pose proof (carries_on_depth _ _ C1) as D1.
  destruct (IH s1 N1) as (s2 & N2 & R2 & Hr2 & C2 & Hc2 & Hleaf).
  - split; [apply C1|rewrite D1; apply Ha].
  - done.
  - by rewrite D1.
  - unfold leaves_ok. by rewrite D1.
  - exists s2, N2. split; [|split; [done|split; [by apply (carries_on_trans _ s1)|split]]].
    + cbn [InsertEach]. eapply runs_bind; [exact R1|exact R2].
    + by rewrite D1 in Hc2.
    + intros i. rewrite Hleaf. cbn [set_leaves]. apply set_leaves_ext. unfold set_node.
      destruct (decide _) as [[= ->]|Hne]; [done|]. apply Hsame. change (2 ^ 0) with 1.
      rewrite Z.div_1_r. congruence.
Qed.
End Insert.
