(* ===== verification/SparseTreeProofs.v ===== *)
(** Reading the sparse Merkle tree: proofs from storage and from a batch, random empty leaves,
    and searches for a value, as functions of the tree's nodes and of the random numbers. *)

From stdpp Require Import base list numbers strings gmap pretty.
From Stdlib Require Import ZArith Lia.
From S2P Require Import Prelude GoBase MerkleSpec SparseTree SparseTreeFacts SparseTreeInsert.
Local Open Scope Z_scope.

(** The sibling of a node, as an exclusive or. *)
Lemma lxor_sibling (i : Z) : Z.lxor i 1 = sibling i.
Proof.
  assert (forall j, j mod 2 = 0 -> Z.lxor j 1 = j + 1) as Heven.
  { intros j Hj. symmetry. apply Z.add_nocarry_lxor. change 1 with (Z.ones 1). by rewrite Z.land_ones. }
  unfold sibling. destruct (Z.eqb_spec (i mod 2) 0) as [E|E]; [by apply Heven|].
  pose proof (Z.mod_pos_bound i 2). pose proof (Z.div_mod i 2).
  assert ((i - 1) mod 2 = 0) as E1.
  { replace (i - 1) with (i / 2 * 2) by lia. by apply Z.mod_mul. }
  rewrite <- (Z.sub_add 1 i) at 1. rewrite <- (Heven (i - 1) E1).
  by rewrite Z.lxor_assoc, Z.lxor_nilpotent, Z.lxor_0_r.
Qed.

Section Proofs.
Context {U256 : Uint256} {UL : Uint256Laws U256} {PH : Poseidon} {PL : PoseidonLaws PH} {GE : GoEnv}.

(** The context is never cancelled. *)
Definition context_active : Prop := forall k, ctx_done k = false.

Section Batch.
Context {B : Type}.

Lemma check_ctx_ok (e : go_error) (s : state B) :
  context_active -> cache_ok (st_tree s) ->
  exists s', runs (check_ctx e) s tt s' /\ quiet s s' /\ draws (st_world s') = draws (st_world s).
Proof.
  intros Ha Hc. eexists. unfold runs, check_ctx. rewrite Ha. split; [reflexivity|]. by repeat split.
Qed.

Lemma quiet_cache (s s' : state B) : quiet s s' -> cache_ok (st_tree s').
Proof. by intros (_ & _ & ?). Qed.

(** * Proofs from storage *)

Lemma CreateProof_loop_ok (n : nat) (l i : Z) (acc : list Z) (s : state B) :
  let d := depth (st_tree s) in
  context_active -> tree_ok (st_tree s) -> d <= 32 -> l + Z.of_nat n = d -> inside d l i ->
  exists s', runs (CreateProof_loop n l i acc) s (acc ++ siblings (stored (st_tree s)) n l i) s' /\
    quiet s s'.
Proof.
  revert l i acc s. induction n as [|n IH]; intros l i acc s d Ha Ht Hd Hn Hi; subst d.
  { exists s. cbn [siblings]. rewrite app_nil_r. split; [apply runs_ret|]. apply quiet_refl, Ht. }
  pose proof Ht as (Hd1 & _). unfold depth_ok in Hd1.
  pose proof Hi as [Hl _].
  destruct (check_ctx_ok ctx_Err s Ha) as (s1 & R1 & Q1 & _); [apply Ht|].
  pose proof (quiet_tree_ok _ _ Q1 Ht) as Ht1. pose proof (quiet_depth _ _ Q1) as D1.
  destruct (index_key _ _ _ Hd (sibling_inside (depth (st_tree s)) l i ltac:(lia) Hi)) as [_ Hsib].
  destruct (getLeafFromStorage_ok s1 l (sibling i) Ht1) as (s2 & R2 & Q2 & _); [rewrite D1; lia|done|].
  pose proof (quiet_trans _ _ _ Q1 Q2) as Q12. pose proof (quiet_depth _ _ Q12) as D2.
  pose proof (quiet_tree_ok _ _ Q12 Ht) as Ht2.
  assert (stored (st_tree s1) l (sibling i) = stored (st_tree s) l (sibling i)) as E
    by (apply stored_same; apply Q1).
  rewrite E in R2.
  destruct (IH (l + 1) (i / 2) (acc ++ [stored (st_tree s) l (sibling i)]) s2) as (s3 & R3 & Q3);
    rewrite ?D2; try done; try lia.
  { apply half_inside; [lia|done]. }
  exists s3. split; [|by apply (quiet_trans _ s2)].
  cbn [CreateProof_loop siblings]. eapply runs_bind; [exact R1|].
  apply (runs_bind _ _ _ s2 _ (stored (st_tree s) l (sibling i))).
  - unfold sibling, u32 in *. destruct (i mod 2 =? 0); rewrite Z.mod_small by lia; apply runs_wrap; exact R2.
  - assert (u8 (l + 1) = l + 1) as -> by (apply Z.mod_small; lia).
    assert (siblings (stored (st_tree s2)) n (l + 1) (i / 2) = siblings (stored (st_tree s)) n (l + 1) (i / 2))
      as <-.
    { apply siblings_same. intros k j _ _. apply stored_same. apply Q12. }
    by rewrite <- (assoc_L (++)) in R3.
Qed.

(** [CreateProof] returns the leaf, its siblings on the way up, and the root. *)
Lemma CreateProof_ok (index : Z) (s : state B) :
  let d := depth (st_tree s) in let N := stored (st_tree s) in
  context_active -> tree_ok (st_tree s) -> d <= 32 -> 0 <= index < 2 ^ d ->
  exists s', runs (CreateProof index) s
      (mkMerkleProof (N 0 index) (siblings N (Z.to_nat d) 0 index) index (N d 0)) s' /\ quiet s s'.
Proof.
  intros d N Ha Ht Hd Hi. subst d N. pose proof Ht as (Hd1 & _). unfold depth_ok in Hd1.
  assert (inside (depth (st_tree s)) 0 index) as Hin by (split; [lia|by rewrite Z.sub_0_r]).
  destruct (index_key _ _ _ Hd Hin) as [_ Hi32].
  destruct (getLeafFromStorage_ok s 0 index Ht) as (s1 & R1 & Q1 & _); [lia|done|].
  pose proof (quiet_depth _ _ Q1) as D1.
  destruct (CreateProof_loop_ok (Z.to_nat (depth (st_tree s))) 0 index [] s1) as (s2 & R2 & Q2);
    rewrite ?D1; try done; try lia; [by apply (quiet_tree_ok _ _ Q1)|].
  pose proof (quiet_trans _ _ _ Q1 Q2) as Q12. pose proof (quiet_depth _ _ Q12) as D2.
  destruct (getLeafFromStorage_ok s2 (depth (st_tree s2)) 0 (quiet_tree_ok _ _ Q12 Ht))
    as (s3 & R3 & Q3 & _); [lia|lia|].
  exists s3. split; [|by apply (quiet_trans _ s2)].
  unfold CreateProof. eapply runs_bind; [reflexivity|]. eapply runs_bind; [apply runs_wrap, R1|].
  eapply runs_bind; [exact R2|]. eapply runs_bind.
  - apply runs_wrap. unfold GetRoot. eapply runs_bind; [reflexivity|exact R3].
  - rewrite (stored_same (st_tree s) (st_tree s2) (depth (st_tree s2)) 0) by apply Q12.
    rewrite D2. cbn [app].
    rewrite (siblings_same (stored (st_tree s)) (stored (st_tree s1))); [apply runs_ret|].
    intros k j _ _. apply stored_same, Q1.
Qed.
End Batch.

(** * Proofs and searches in a batch *)

Section WithBatch.
Context {B : Type} {TB : TreeLeafGetterSetter B} {BL : BatchLaws B}.

Lemma read_node (s : state B) (N : Z -> Z -> Z) (l i : Z) :
  addressable s -> represents s N -> inside (depth (st_tree s)) l i ->
  exists s', runs (getLeafFromBatchOrStorage l i) s (N l i) s' /\ quiet s s' /\
    draws (st_world s') = draws (st_world s).
Proof.
  intros [Hs Hd] Hr Hi. pose proof (index_key _ _ _ Hd Hi) as Hk.
  destruct (getLeafFromBatchOrStorage_ok s l i Hs) as (s' & R & Q & W); [apply Hi|apply Hk|].
  exists s'. rewrite (Hr l i Hk) in R. by rewrite W.
Qed.

Lemma quiet_addressable (s s' : state B) : quiet s s' -> addressable s -> addressable s'.
Proof. intros Q [Hs Hd]. split; [by apply (quiet_state_ok s)|]. by rewrite (quiet_depth _ _ Q). Qed.

Lemma addressable_cache (s : state B) : addressable s -> cache_ok (st_tree s).
Proof. by intros [((_ & _ & _ & ?) & _) _]. Qed.

Lemma createProofWithBatch_loop_ok (n : nat) (l i : Z) (acc : list Z) (s : state B) (N : Z -> Z -> Z) :
  let d := depth (st_tree s) in
  context_active -> addressable s -> represents s N -> l + Z.of_nat n = d -> inside d l i ->
  exists s', runs (createProofWithBatch_loop n l i acc) s (acc ++ siblings N n l i) s' /\
    quiet s s' /\ draws (st_world s') = draws (st_world s).
Proof.
  revert l i acc s. induction n as [|n IH]; intros l i acc s d Ha Hs Hr Hn Hi; subst d.
  { exists s. cbn [siblings]. rewrite app_nil_r. split; [apply runs_ret|].
    split; [by apply quiet_refl, addressable_cache|done]. }
  pose proof (state_depth s (proj1 Hs)) as Hd1. pose proof Hi as [Hl _].
  destruct (check_ctx_ok ctx_Err s Ha (addressable_cache s Hs)) as (s1 & R1 & Q1 & W1).
  pose proof (quiet_depth _ _ Q1) as D1.
  destruct (read_node s1 N l (sibling i)) as (s2 & R2 & Q2 & W2);
    [by apply (quiet_addressable s)|by apply (quiet_represents s)|rewrite D1; apply sibling_inside; [lia|done]|].
  pose proof (quiet_trans _ _ _ Q1 Q2) as Q12. pose proof (quiet_depth _ _ Q12) as D2.
  destruct (IH (l + 1) (i / 2) (acc ++ [N l (sibling i)]) s2) as (s3 & R3 & Q3 & W3);
    rewrite ?D2; try done; try lia.
  { by apply (quiet_addressable s). }
  { by apply (quiet_represents s). }
  { apply half_inside; [lia|done]. }
  exists s3. split; [|split; [by apply (quiet_trans _ s2)|congruence]].
  cbn [createProofWithBatch_loop siblings]. eapply runs_bind; [exact R1|]. cbv zeta.
  rewrite lxor_sibling. eapply runs_bind; [apply runs_wrap, R2|].
  assert (u8 (l + 1) = l + 1) as -> by (apply Z.mod_small; destruct Hs; lia).
  by rewrite <- (assoc_L (++)) in R3.
Qed.

Lemma createProofWithBatch_ok (index : Z) (s : state B) (N : Z -> Z -> Z) :
  let d := depth (st_tree s) in
  context_active -> addressable s -> represents s N -> 0 <= index < 2 ^ d ->
  exists s', runs (createProofWithBatch index) s
      (mkMerkleProof (N 0 index) (siblings N (Z.to_nat d) 0 index) index (N d 0)) s' /\
    quiet s s' /\ draws (st_world s') = draws (st_world s).
Proof.
  intros d Ha Hs Hr Hi. subst d. pose proof (state_depth s (proj1 Hs)) as Hd1.
  assert (inside (depth (st_tree s)) 0 index) as Hin by (split; [lia|by rewrite Z.sub_0_r]).
  destruct (read_node s N 0 index Hs Hr Hin) as (s1 & R1 & Q1 & W1). pose proof (quiet_depth _ _ Q1) as D1.
  destruct (createProofWithBatch_loop_ok (Z.to_nat (depth (st_tree s))) 0 index [] s1 N)
    as (s2 & R2 & Q2 & W2); rewrite ?D1; try done; try lia;
    [by apply (quiet_addressable s)|by apply (quiet_represents s)|].
  pose proof (quiet_trans _ _ _ Q1 Q2) as Q12. pose proof (quiet_depth _ _ Q12) as D2.
  destruct (read_node s2 N (depth (st_tree s)) 0) as (s3 & R3 & Q3 & W3).
  - by apply (quiet_addressable s).
  - by apply (quiet_represents s).
  - rewrite D2. split; [lia|]. rewrite Z.sub_diag. lia.
  - exists s3. split; [|split; [by apply (quiet_trans _ s2)|congruence]].
    unfold createProofWithBatch. eapply runs_bind; [reflexivity|]. eapply runs_bind; [apply runs_wrap, R1|].
    eapply runs_bind; [exact R2|]. eapply runs_bind; [apply runs_wrap, R3|]. apply runs_ret.
Qed.
End WithBatch.
End Proofs.
