(* ===== verification/SparseTreeSimulation.v ===== *)
(** Simulating a batch of operations: the abstract batch over a function of leaves, that the
    code implements it, and that the proofs it returns can be replayed one after the other.
    The simulation batch implements the batch interface. *)

From stdpp Require Import base list numbers strings gmap pretty.
From Stdlib Require Import ZArith Lia.
From S2P Require Import Prelude GoBase MerkleSpec SparseTree SparseTreeFacts SparseTreeInsert.
From S2P Require Import SparseTreeProofs.
Local Open Scope Z_scope.

(** * Keys of the simulation buffer *)

Definition is_digit_char (a : Ascii.ascii) : bool := bool_decide (a <> Ascii.ascii_of_nat 58).

Fixpoint no_colon (s : string) : bool :=
  match s with
  | EmptyString => true
  | String a s' => is_digit_char a && no_colon s'
  end.

Lemma pretty_N_char_digit (x : N) : is_digit_char (pretty_N_char x) = true.
Proof. unfold pretty_N_char, is_digit_char. by repeat case_match. Qed.

Lemma pretty_N_no_colon (x : N) : no_colon (pretty x) = true.
Proof.
  assert (forall y s, no_colon s = true -> no_colon (pretty_N_go y s) = true) as Hgo.
  { intros y. induction (N.lt_wf_0 y) as [y _ IH]. intros s Hs.
    destruct (decide (0 < y)%N) as [Hy|Hy].
    - rewrite pretty_N_go_step by done. apply IH; [by apply N.div_lt|].
      cbn. by rewrite pretty_N_char_digit.
    - assert (y = 0)%N as -> by lia. by rewrite pretty_N_go_0. }
  unfold pretty, pretty_N. destruct (decide _); [done|]. by apply Hgo.
Qed.

Lemma split_at_colon (a a' b b' : string) :
  no_colon a = true -> no_colon a' = true ->
  (a +:+ ":" +:+ b)%string = (a' +:+ ":" +:+ b')%string -> a = a' /\ b = b'.
Proof.
  revert a'. induction a as [|c a IH]; intros [|c' a'] Ha Ha' E; cbn in *.
  - split; [done|]. by injection E.
  - injection E as <- _. by cbn in Ha'.
  - injection E as -> _. by cbn in Ha.
  - injection E as <- E. apply andb_true_iff in Ha as [_ Ha]. apply andb_true_iff in Ha' as [_ Ha'].
    by destruct (IH a' Ha Ha' E) as [-> ->].
Qed.

Lemma makeSimKey_inj (l i l' i' : Z) :
  key_ok l i -> key_ok l' i' -> makeSimKey l i = makeSimKey l' i' -> (l, i) = (l', i').
Proof.
  intros [Hl Hi] [Hl' Hi'] E. unfold makeSimKey in E.
  apply split_at_colon in E as [E1 E2]; [|apply pretty_N_no_colon..].
  apply (inj pretty) in E1, E2. f_equal; lia.
Qed.

Section Simulation.
Context {U256 : Uint256} {UL : Uint256Laws U256} {PH : Poseidon} {PL : PoseidonLaws PH} {GE : GoEnv}.

(** * The simulation batch keeps the promises of a batch *)

Definition sim_view (b : SimulationBatch) (l i : Z) : option Z :=
  match sim_buffer b !! makeSimKey l i with
  | Some v => Some v
  | None => match sim_storage b l i with Ok v => Some v | _ => None end
  end.

#[export, refine] Instance SimulationBatch_laws : BatchLaws SimulationBatch := {
  batch_ok b := storage_ok (sim_storage b);
  view := sim_view;
}.
Proof.
  - intros b l i v Hb Hk. unfold sim_view. cbn. unfold SimulationBatch_GetLeaf.
    destruct (sim_buffer b !! _); [congruence|]. destruct (sim_storage b l i); congruence.
  - intros b l i Hb Hk. unfold sim_view. cbn. unfold SimulationBatch_GetLeaf.
    destruct (sim_buffer b !! _); [done|].
    destruct (Hb l i Hk) as [(v & -> & _)|(e & -> & He)]; [done|]. intros _. by exists e.
  - intros b l i v Hb Hk. eexists. split; [reflexivity|]. split; [done|]. unfold sim_view.
    cbn [sim_buffer sim_storage]. split; [by rewrite lookup_insert_eq|].
    intros l' i' Hk' Hne. rewrite lookup_insert_ne; [done|]. contradict Hne.
    symmetry. by apply makeSimKey_inj.
Defined.

(** * Trees and their leaves *)

Section Models.
Context {B : Type} {TB : TreeLeafGetterSetter B} {BL : BatchLaws B}.

(** The nodes of [s] are those of the Merkle tree over [leaf]. *)
Definition models (s : state B) (leaf : Z -> Z) : Prop :=
  addressable s /\ consistent hash (depth (st_tree s)) (node s) /\
  forall i, 0 <= i < 2 ^ depth (st_tree s) -> node s 0 i = leaf i.

Lemma represents_node (s : state B) : represents s (node s).
Proof. by intros l i _. Qed.

Lemma models_nodes (s : state B) (leaf : Z -> Z) (l i : Z) :
  models s leaf -> inside (depth (st_tree s)) l i -> node s l i = tree_nodes hash leaf l i.
Proof.
  intros (_ & Hc & Hleaf) Hi.
  apply (consistent_unique hash (depth (st_tree s))); [done|apply tree_nodes_consistent| |done].
  intros j Hj. by rewrite Hleaf.
Qed.

Lemma models_depth (s : state B) (leaf : Z -> Z) : models s leaf -> 1 <= depth (st_tree s) <= 32.
Proof. intros ([Hs Hd] & _). pose proof (state_depth s Hs). lia. Qed.

Lemma models_quiet (s s' : state B) (leaf : Z -> Z) : quiet s s' -> models s leaf -> models s' leaf.
Proof.
  intros Q (Ha & Hc & Hleaf). pose proof (quiet_depth _ _ Q) as D.
  split; [by apply (quiet_addressable s)|]. rewrite D. split.
  - apply (consistent_ext _ _ (node s)); [|done]. intros l i _. by apply quiet_node.
  - intros i Hi. rewrite (quiet_node s s' 0 i Q). by apply Hleaf.
Qed.

Lemma InsertLeaf_models (x v : Z) (s : state B) (leaf : Z -> Z) :
  models s leaf -> 0 <= x < 2 ^ depth (st_tree s) -> in_field v ->
  exists s', runs (InsertLeaf x v) s tt s' /\ models s' (set_leaf leaf x v) /\ carries_on s s'.
Proof.
  intros (Ha & Hc & Hleaf) Hx Hv.
  destruct (InsertLeaf_ok x v s (node s) Ha (represents_node s) Hc Hx Hv)
    as (s' & N' & R & Hr & C & Hc' & Hnew & Hold).
  exists s'. split; [done|]. split; [|done]. pose proof (carries_on_depth _ _ C) as D.
  assert (addressable s') as Ha' by (split; [apply C|rewrite D; apply Ha]).
  assert (forall l i, inside (depth (st_tree s)) l i -> node s' l i = N' l i) as E.
  { intros l i Hi. apply Hr, (index_key (depth (st_tree s))); [apply Ha|done]. }
  split; [done|]. rewrite D. split; [by apply (consistent_ext _ _ N')|].
  pose proof (state_depth s (proj1 Ha)). intros i Hi.
  rewrite E by (split; [lia|by rewrite Z.sub_0_r]). unfold set_leaf.
  destruct (Z.eqb_spec i x) as [->|Hne]; [done|]. rewrite Hold; [by apply Hleaf|].
  change (2 ^ 0) with 1. by rewrite Z.div_1_r.
Qed.

(** Leaves that are set one after the other. *)
Definition set_all (leaf : Z -> Z) (leaves : list TreeLeaf) : Z -> Z :=
  foldl (fun f l => set_leaf f (Leaf_Index l) (Leaf_Value l)) leaf leaves.

Lemma set_leaves_all (leaves : list TreeLeaf) (N : Z -> Z -> Z) (leaf : Z -> Z) (i : Z) :
  N 0 i = leaf i -> set_leaves N leaves 0 i = set_all leaf leaves i.
Proof.
  revert N leaf. induction leaves as [|l leaves IH]; intros N leaf E; cbn; [done|].
  apply IH. unfold set_node, set_leaf. destruct (decide _) as [[= ->]|Hne].
  - by rewrite Z.eqb_refl.
  - rewrite E. destruct (Z.eqb_spec i (Leaf_Index l)); [congruence|done].
Qed.

(** From the nodes of an insertion's result to the tree they model. *)
Lemma models_result (s s' : state B) (N' : Z -> Z -> Z) (leaf : Z -> Z) (leaves : list TreeLeaf) :
  models s leaf -> represents s' N' -> carries_on s s' -> consistent hash (depth (st_tree s)) N' ->
  (forall i, N' 0 i = set_leaves (node s) leaves 0 i) -> models s' (set_all leaf leaves).
Proof.
  intros (Ha & _ & Hleaf) Hr C Hc' Hnew. pose proof (carries_on_depth _ _ C) as D.
  pose proof (state_depth s (proj1 Ha)) as Hd.
  assert (forall l i, inside (depth (st_tree s)) l i -> node s' l i = N' l i) as E.
  { intros l i Hi. apply Hr, (index_key (depth (st_tree s))); [apply Ha|done]. }
  split; [split; [apply C|rewrite D; apply Ha]|]. rewrite D.
  split; [by apply (consistent_ext _ _ N')|]. intros i Hi.
  rewrite E by (split; [lia|by rewrite Z.sub_0_r]). rewrite Hnew. apply set_leaves_all. by apply Hleaf.
Qed.

Lemma InsertLeaves_models (leaves : list TreeLeaf) (s : state B) (leaf : Z -> Z) :
  models s leaf -> leaves_ok s leaves ->
  exists s', runs (InsertLeaves leaves) s tt s' /\ models s' (set_all leaf leaves) /\ carries_on s s'.
Proof.
  intros Hm Hl. destruct (InsertLeaves_ok leaves s (node s) (proj1 Hm) (represents_node s) (proj1 (proj2 Hm)) Hl)
    as (s' & N' & R & Hr & C & Hc & Hnew).
  exists s'. split; [done|]. split; [by apply (models_result s s' N')|done].
Qed.

Lemma InsertEach_models (leaves : list TreeLeaf) (s : state B) (leaf : Z -> Z) :
  models s leaf -> leaves_ok s leaves ->
  exists s', runs (InsertEach leaves) s tt s' /\ models s' (set_all leaf leaves) /\ carries_on s s'.
Proof.
  intros Hm Hl. destruct (InsertEach_ok leaves s (node s) (proj1 Hm) (represents_node s) (proj1 (proj2 Hm)) Hl)
    as (s' & N' & R & Hr & C & Hc & Hnew).
  exists s'. split; [done|]. split; [by apply (models_result s s' N')|done].
Qed.

(** A proof of a leaf in the batch. *)
Lemma createProofWithBatch_models (x : Z) (s : state B) (leaf : Z -> Z) :
  let d := depth (st_tree s) in
  context_active -> models s leaf -> 0 <= x < 2 ^ d ->
  exists s', runs (createProofWithBatch x) s
      (mkMerkleProof (leaf x) (tree_path hash d leaf x) x (tree_root hash d leaf)) s' /\
    quiet s s' /\ draws (st_world s') = draws (st_world s).
Proof.
  intros d Hctx Hm Hx. subst d. pose proof (models_depth _ _ Hm) as Hd. pose proof Hm as (Ha & Hc & Hleaf).
  destruct (createProofWithBatch_ok x s (node s) Hctx Ha (represents_node s) Hx) as (s' & R & Q & W).
  exists s'. split; [|done].
  rewrite (Hleaf x Hx), (models_nodes s leaf _ 0 Hm) in R by (split; [lia|rewrite Z.sub_diag; lia]).
  rewrite (siblings_ext (depth (st_tree s)) (tree_nodes hash leaf)) in R; [done| | |lia].
  - intros l i. by apply models_nodes.
  - split; [lia|]. by rewrite Z.sub_0_r.
Qed.

(** * Searches *)

Definition draw_index (d : Z) (k : nat) : Z := rand_Uint64 k mod 2 ^ d.

(** The first of [n] random indices, from the [k]-th draw on, with an empty leaf, and the
    number of draws after it. *)
Fixpoint find_empty (d e : Z) (leaf : Z -> Z) (n k : nat) : option (Z * nat) :=
  match n with
  | O => None
  | S n' =>
      if leaf (draw_index d k) =? e then Some (draw_index d k, S k) else find_empty d e leaf n' (S k)
  end.

(** The first of [n] indices from [i] on that holds [v]. *)
Fixpoint find_value (leaf : Z -> Z) (v : Z) (n : nat) (i : Z) : option Z :=
  match n with
  | O => None
  | S n' => if leaf i =? v then Some i else find_value leaf v n' (i + 1)
  end.

Lemma maxLeaves_pow (t : SparseMerkleTree) : 0 <= depth t <= 32 -> maxLeaves t = 2 ^ depth t.
Proof.
  intros Hd. unfold maxLeaves, u64. rewrite Z.shiftl_1_l. apply Z.mod_small.
  split; [apply Z.pow_nonneg; lia|]. apply Z.pow_lt_mono_r; lia.
Qed.

Lemma draw_index_range (d : Z) (k : nat) : 0 <= d -> 0 <= draw_index d k < 2 ^ d.
Proof. intros Hd. apply Z.mod_pos_bound. by apply Z.pow_pos_nonneg. Qed.

Lemma random_index_ok (s : state B) :
  1 <= depth (st_tree s) <= 32 -> cache_ok (st_tree s) ->
  exists s', runs random_index s (draw_index (depth (st_tree s)) (draws (st_world s))) s' /\
    quiet s s' /\ draws (st_world s') = S (draws (st_world s)).
Proof.
  intros Hd Hc. unfold runs, random_index, go_bind, get_tree, draw. rewrite maxLeaves_pow by lia.
  pose proof (draw_index_range (depth (st_tree s)) (draws (st_world s)) ltac:(lia)) as Hr.
  assert (0 < 2 ^ depth (st_tree s) <= 2 ^ 32).
  { split; [apply Z.pow_pos_nonneg; lia|apply Z.pow_le_mono_r; lia]. }
  destruct (Z.eqb_spec (2 ^ depth (st_tree s)) 0); [lia|]. unfold go_ret, u32.
  rewrite Z.mod_small by (unfold draw_index in Hr; lia). eexists. split; [reflexivity|]. by repeat split.
Qed.

Lemma findEmptyLeafIndexInSimulation_loop_ok (n : nat) (s : state B) (leaf : Z -> Z) :
  context_active -> models s leaf ->
  let found := find_empty (depth (st_tree s)) (emtpyLeaf (st_tree s)) leaf n (draws (st_world s)) in
  exists s', quiet s s' /\
    findEmptyLeafIndexInSimulation_loop n s =
      (match found with
       | Some (x, _) => Ok x
       | None => Throw (Errorf "could not find an empty leaf index" [] None)
       end, s') /\
    match found with Some (_, k) => draws (st_world s') = k | None => True end.
Proof.
  intros Hctx. revert s. induction n as [|n IH]; intros s Hm found; subst found; cbn [find_empty].
  { exists s. split; [apply quiet_refl, addressable_cache, Hm|done]. }
  pose proof (models_depth _ _ Hm) as Hd. pose proof (addressable_cache s (proj1 Hm)) as Hc.
  destruct (check_ctx_ok ctx_Err s Hctx Hc) as (s1 & R1 & Q1 & W1). pose proof (quiet_depth _ _ Q1) as D1.
  destruct (random_index_ok s1) as (s2 & R2 & Q2 & W2); [by rewrite D1|apply Q1|].
  pose proof (quiet_trans _ _ _ Q1 Q2) as Q12. pose proof (quiet_depth _ _ Q12) as D2.
  set (x := draw_index (depth (st_tree s)) (draws (st_world s))).
  assert (0 <= x < 2 ^ depth (st_tree s)) as Hx by (apply draw_index_range; lia).
  destruct (read_node s2 (node s2) 0 x) as (s3 & R3 & Q3 & W3);
    [by apply (quiet_addressable s), Hm|apply represents_node|rewrite D2; split; [lia|by rewrite Z.sub_0_r]|].
  pose proof (quiet_trans _ _ _ Q12 Q3) as Q13.
  assert (node s2 0 x = leaf x) as En.
  { destruct (models_quiet _ _ _ Q12 Hm) as (_ & _ & H). apply H. by rewrite D2. }
  assert (emtpyLeaf (st_tree s3) = emtpyLeaf (st_tree s)) as Ee by apply Q13.
  cbn [findEmptyLeafIndexInSimulation_loop].
  rewrite (bind_runs _ _ _ _ _ R1), (bind_runs _ _ _ _ _ R2), D1, W1. fold x.
  rewrite (bind_runs _ _ _ _ _ (runs_wrap _ _ _ _ _ _ R3)), (bind_runs get_tree _ s3 s3 _ eq_refl), En, Ee.
  destruct (leaf x =? emtpyLeaf (st_tree s)).
  - exists s3. split; [done|]. split; [done|]. by rewrite W3, W2, W1.
  - destruct (IH s3 (models_quiet _ _ _ Q13 Hm)) as (s4 & Q4 & E4 & W4).
    exists s4. split; [by apply (quiet_trans _ s3)|].
    rewrite Ee, (quiet_depth _ _ Q13), W3, W2, W1 in *. done.
Qed.

Lemma findEmptyLeafIndexInSimulation_ok (s : state B) (leaf : Z -> Z) :
  context_active -> models s leaf ->
  let found := find_empty (depth (st_tree s)) (emtpyLeaf (st_tree s)) leaf
                 maxIterationsEmptyLeafProof (draws (st_world s)) in
  exists s', quiet s s' /\
    findEmptyLeafIndexInSimulation s =
      (match found with
       | Some (x, _) => Ok x
       | None => Throw (Errorf "could not find an empty leaf index" [] None)
       end, s') /\
    match found with Some (_, k) => draws (st_world s') = k | None => True end.
Proof. intros Hctx Hm. by apply findEmptyLeafIndexInSimulation_loop_ok. Qed.

Lemma find_empty_some (d e : Z) (leaf : Z -> Z) (n k k' : nat) (x : Z) :
  0 <= d -> find_empty d e leaf n k = Some (x, k') -> 0 <= x < 2 ^ d /\ leaf x = e.
Proof.
  intros Hd. revert k. induction n as [|n IH]; intros k; cbn; [done|].
  destruct (Z.eqb_spec (leaf (draw_index d k)) e) as [E|_]; [|by apply IH].
  intros [= <- _]. split; [by apply draw_index_range|done].
Qed.

Lemma find_value_some (leaf : Z -> Z) (v : Z) (n : nat) (i x : Z) :
  find_value leaf v n i = Some x ->
  i <= x < i + Z.of_nat n /\ leaf x = v /\ (forall j, i <= j < x -> leaf j <> v).
Proof.
  revert i. induction n as [|n IH]; intros i; cbn [find_value]; [done|].
  destruct (Z.eqb_spec (leaf i) v) as [E|E]; [intros [= <-]; repeat split; [lia|lia|done|intros; lia]|].
  intros H. apply IH in H as (Hx & Hv & Hlt). repeat split; [lia|lia|done|].
  intros j Hj. destruct (decide (j = i)) as [->|]; [done|]. apply Hlt. lia.
Qed.

Lemma find_value_none (leaf : Z -> Z) (v : Z) (n : nat) (i : Z) :
  find_value leaf v n i = None -> forall j, i <= j < i + Z.of_nat n -> leaf j <> v.
Proof.
  revert i. induction n as [|n IH]; intros i; cbn [find_value]; [intros _ j ?; lia|].
  destruct (Z.eqb_spec (leaf i) v) as [E|E]; [done|]. intros H j Hj.
  destruct (decide (j = i)) as [->|]; [done|]. apply (IH (i + 1) H). lia.
Qed.

Lemma findLeafByValueInSimulation_loop_ok (n : nat) (i v : Z) (s : state B) (leaf : Z -> Z) :
  context_active -> models s leaf -> 0 <= i -> i + Z.of_nat n = 2 ^ depth (st_tree s) ->
  exists s', quiet s s' /\ draws (st_world s') = draws (st_world s) /\
    findLeafByValueInSimulation_loop n i v s =
      (match find_value leaf v n i with
       | Some x => Ok x
       | None => Throw (Errorf "leaf with value not found" [] None)
       end, s').
Proof.
  intros Hctx. revert i s. induction n as [|n IH]; intros i s Hm Hi Hn; cbn [find_value].
  { exists s. split; [apply quiet_refl, addressable_cache, Hm|done]. }
  pose proof (models_depth _ _ Hm) as Hd. pose proof (addressable_cache s (proj1 Hm)) as Hc.
  assert (2 ^ depth (st_tree s) <= 2 ^ 32) by (apply Z.pow_le_mono_r; lia).
  destruct (check_ctx_ok ctx_Err s Hctx Hc) as (s1 & R1 & Q1 & W1). pose proof (quiet_depth _ _ Q1) as D1.
  destruct (read_node s1 (node s1) 0 i) as (s2 & R2 & Q2 & W2);
    [by apply (quiet_addressable s), Hm|apply represents_node|rewrite D1; split; [lia|rewrite Z.sub_0_r; lia]|].
  pose proof (quiet_trans _ _ _ Q1 Q2) as Q12.
  assert (node s1 0 i = leaf i) as En.
  { destruct (models_quiet _ _ _ Q1 Hm) as (_ & _ & H0). apply H0. rewrite D1. lia. }
  cbn [findLeafByValueInSimulation_loop]. rewrite (bind_runs _ _ _ _ _ R1). cbv zeta.
  assert (u32 i = i) as -> by (apply Z.mod_small; lia). rewrite En in R2.
  assert (runs (go_try (getLeafFromBatchOrStorage 0 i)) s1 (inr (leaf i)) s2) as R2'
    by (unfold runs, go_try in *; by rewrite R2).
  rewrite (bind_runs _ _ _ _ _ R2'). destruct (leaf i =? v).
  - exists s2. split; [done|]. split; [congruence|done].
  - assert (u64 (i + 1) = i + 1) as -> by (apply Z.mod_small; lia).
    destruct (IH (i + 1) s2 (models_quiet _ _ _ Q12 Hm)) as (s3 & Q3 & W3 & E3);
      [lia|rewrite (quiet_depth _ _ Q12); lia|].
    exists s3. split; [by apply (quiet_trans _ s2)|]. split; [congruence|done].
Qed.

Lemma findLeafByValueInSimulation_ok (v : Z) (s : state B) (leaf : Z -> Z) :
  context_active -> models s leaf ->
  exists s', quiet s s' /\ draws (st_world s') = draws (st_world s) /\
    findLeafByValueInSimulation v s =
      (match find_value leaf v (Z.to_nat (2 ^ depth (st_tree s))) 0 with
       | Some x => Ok x
       | None => Throw (Errorf "leaf with value not found" [] None)
       end, s').
Proof.
  intros Hctx Hm. pose proof (models_depth _ _ Hm) as Hd. unfold findLeafByValueInSimulation.
  rewrite (bind_runs get_tree _ s s _ eq_refl), maxLeaves_pow by lia.
  pose proof (Z.pow_pos_nonneg 2 (depth (st_tree s))).
  apply findLeafByValueInSimulation_loop_ok; [done|done|lia|]. rewrite Z2Nat.id; lia.
Qed.

(** * The abstract batch *)

(** The state of the abstract batch: the leaves and the number of draws. *)
Definition plan : Type := (Z -> Z) * nat.

Definition spec_operation (d e : Z) (op : LeafOperation) (p : plan) : option (BatchProofResult * plan) :=
  let (leaf, k) := p in
  let v := Leaf_Value (Operation_Leaf op) in
  if Operation_Op op =? OperationAddition then
    match find_empty d e leaf maxIterationsEmptyLeafProof k with
    | Some (x, k') => Some (mkBatchProofResult x (tree_path hash d leaf x), (set_leaf leaf x v, k'))
    | None => None
    end
  else if Operation_Op op =? OperationRevocation then
    match find_value leaf v (Z.to_nat (2 ^ d)) 0 with
    | Some x => Some (mkBatchProofResult x (tree_path hash d leaf x), (set_leaf leaf x e, k))
    | None => None
    end
  else None.

Fixpoint spec_batch (d e : Z) (ops : list LeafOperation) (p : plan)
    : option (list BatchProofResult * plan) :=
  match ops with
  | [] => Some ([], p)
  | op :: ops' =>
      match spec_operation d e op p with
      | Some (r, p') =>
          match spec_batch d e ops' p' with
          | Some (rs, p'') => Some (r :: rs, p'')
          | None => None
          end
      | None => None
      end
  end.

(** A state of the code and a state of the abstract batch; [t] is the tree it started from. *)
Definition simulates (t : SparseMerkleTree) (s : state B) (p : plan) : Prop :=
  models s (fst p) /\ draws (st_world s) = snd p /\ same_tree t (st_tree s).

Lemma simulates_quiet (t : SparseMerkleTree) (s s' : state B) (leaf : Z -> Z) (k k' : nat) :
  quiet s s' -> draws (st_world s') = k' -> simulates t s (leaf, k) -> simulates t s' (leaf, k').
Proof.
  intros Q W (Hm & _ & Ht). split; [by apply (models_quiet s)|]. split; [done|].
  etransitivity; [exact Ht|apply Q].
Qed.

Lemma simulates_insert (t : SparseMerkleTree) (s : state B) (leaf : Z -> Z) (k : nat) (x v : Z) :
  simulates t s (leaf, k) -> 0 <= x < 2 ^ depth t -> in_field v ->
  exists s', runs (InsertLeaf x v) s tt s' /\ simulates t s' (set_leaf leaf x v, k).
Proof.
  intros (Hm & W & Ht) Hx Hv. cbn [fst snd] in *. assert (depth (st_tree s) = depth t) as D by apply Ht.
  destruct (InsertLeaf_models x v s leaf Hm) as (s' & R & Hm' & C); [by rewrite D|done|].
  exists s'. split; [done|]. split; [done|]. destruct C as (_ & Ht' & W'). cbn [snd].
  split; [congruence|]. by transitivity (st_tree s).
Qed.

(** What the rest of an operation does once the leaf is found: prove and change it. *)
Lemma simulate_change (t : SparseMerkleTree) (s : state B) (leaf : Z -> Z) (k : nat) (x v : Z) :
  context_active -> simulates t s (leaf, k) -> 0 <= x < 2 ^ depth t -> in_field v ->
  exists s1 s2,
    runs (createProofWithBatch x) s
      (mkMerkleProof (leaf x) (tree_path hash (depth t) leaf x) x (tree_root hash (depth t) leaf)) s1 /\
    runs (InsertLeaf x v) s1 tt s2 /\ same_tree t (st_tree s1) /\
    simulates t s2 (set_leaf leaf x v, k).
Proof.
  intros Hctx Hsim Hx Hv. pose proof Hsim as (Hm & W & Ht). cbn [fst snd] in *.
  assert (depth (st_tree s) = depth t) as D by apply Ht.
  destruct (createProofWithBatch_models x s leaf Hctx Hm) as (s1 & R1 & Q1 & W1); [by rewrite D|].
  rewrite D in R1. pose proof (simulates_quiet t s s1 leaf k k Q1 ltac:(congruence) Hsim) as Hsim1.
  destruct (simulates_insert t s1 leaf k x v Hsim1 Hx Hv) as (s2 & R2 & Hsim2).
  exists s1, s2. split; [done|]. split; [done|]. split; [apply Hsim1|done].
Qed.

(** The outcome of the code against the outcome of the abstract batch. *)
Definition agrees {A : Type} (t : SparseMerkleTree) (c : gores A * state B) (spec : option (A * plan))
    (Q : A -> A) : Prop :=
  match spec with
  | Some (a, p) => c.1 = Ok (Q a) /\ simulates t c.2 p
  | None => (exists e, c.1 = Throw e /\ is_panic e = false) /\ same_tree t (st_tree c.2) /\ cache_ok (st_tree c.2)
  end.

(** A failure after calls that changed no node. *)
Lemma fails_quiet {A : Type} (t : SparseMerkleTree) (s s' : state B) (e : go_error) (Q : A -> A) :
  same_tree t (st_tree s) -> quiet s s' -> is_panic e = false -> agrees t (Throw e, s') None Q.
Proof.
  intros Ht (_ & Ht' & Hc) He. split; [by exists e|]. split; [|done]. etransitivity; [exact Ht|exact Ht'].
Qed.

Lemma wrap_fails {A : Type} (format : string) (args : list Z) (m : go (state B) A) (s s' : state B) (e : go_error) :
  m s = (Throw e, s') -> is_panic e = false ->
  go_wrap format args m s = (Throw (Errorf format args (Some e)), s').
Proof. intros H He. unfold go_wrap, wrap_res, wrap_error. by rewrite H, He. Qed.

Lemma bind_fails {A C : Type} (m : go (state B) A) (k : A -> go (state B) C) (s s' : state B) (e : go_error) :
  m s = (Throw e, s') -> go_bind m k s = (Throw e, s').
Proof. intros H. unfold go_bind. by rewrite H. Qed.

Lemma addition_agrees (i : Z) (op : LeafOperation) (t : SparseMerkleTree) (s : state B) (p : plan) :
  context_active -> in_field (Leaf_Value (Operation_Leaf op)) -> Operation_Op op = OperationAddition ->
  simulates t s p ->
  agrees t (simulate_operation i op s) (spec_operation (depth t) (emtpyLeaf t) op p) id.
Proof.
  intros Hctx Hv Hop Hsim. destruct p as [leaf k]. pose proof Hsim as (Hm & W & Ht). cbn [fst snd] in *.
  pose proof (models_depth _ _ Hm) as Hd. assert (depth (st_tree s) = depth t) as D by apply Ht.
  unfold simulate_operation, spec_operation. rewrite Hop. cbn [Z.eqb Pos.eqb OperationAddition].
  destruct (check_ctx_ok ctx_Err s Hctx (addressable_cache s (proj1 Hm))) as (s0 & R0 & Q0 & W0).
  rewrite (bind_runs _ _ _ _ _ R0). cbv zeta.
  pose proof (simulates_quiet t s s0 leaf k k Q0 ltac:(congruence) Hsim) as Hsim0.
  destruct Hsim0 as (Hm0 & Wk & Ht0). cbn [fst snd] in *.
  destruct (findEmptyLeafIndexInSimulation_ok s0 leaf Hctx Hm0) as (s1 & Q1 & E1 & W1).
  rewrite (proj1 (proj2 Ht0)), (proj1 Ht0), Wk in E1, W1.
  destruct (find_empty (depth t) (emtpyLeaf t) leaf maxIterationsEmptyLeafProof k) as [[x k']|] eqn:F.
  - apply find_empty_some in F as [Hx He]; [|lia].
    rewrite (bind_runs _ _ _ _ _ (runs_wrap _ _ _ _ _ _ E1)).
    assert (simulates t s1 (leaf, k')) as Hsim1 by (apply (simulates_quiet t s0 s1 leaf k); done).
    destruct (simulate_change t s1 leaf k' x _ Hctx Hsim1 Hx Hv) as (s2 & s3 & R2 & R3 & Ht2 & Hsim3).
    rewrite (bind_runs _ _ _ _ _ (runs_wrap _ _ _ _ _ _ R2)), (bind_runs get_tree _ s2 s2 _ eq_refl).
    cbn [Proof_Leaf Proof_Path]. rewrite (proj1 Ht2), He, Z.eqb_refl. cbn [negb].
    by rewrite (bind_runs _ _ _ _ _ (runs_wrap _ _ _ _ _ _ R3)).
  - erewrite bind_fails by (by apply (wrap_fails _ _ _ _ s1)). by apply (fails_quiet t s0).
Qed.

Lemma revocation_agrees (i : Z) (op : LeafOperation) (t : SparseMerkleTree) (s : state B) (p : plan) :
  context_active -> in_field (emtpyLeaf t) -> Operation_Op op = OperationRevocation ->
  simulates t s p ->
  agrees t (simulate_operation i op s) (spec_operation (depth t) (emtpyLeaf t) op p) id.
Proof.
  intros Hctx He Hop Hsim. destruct p as [leaf k]. pose proof Hsim as (Hm & W & Ht). cbn [fst snd] in *.
  pose proof (models_depth _ _ Hm) as Hd. assert (depth (st_tree s) = depth t) as D by apply Ht.
  unfold simulate_operation, spec_operation. rewrite Hop. cbn [Z.eqb Pos.eqb OperationAddition OperationRevocation].
  destruct (check_ctx_ok ctx_Err s Hctx (addressable_cache s (proj1 Hm))) as (s0 & R0 & Q0 & W0).
  rewrite (bind_runs _ _ _ _ _ R0). cbv zeta.
  pose proof (simulates_quiet t s s0 leaf k k Q0 ltac:(congruence) Hsim) as Hsim0.
  pose proof Hsim0 as (Hm0 & Wk & Ht0). cbn [fst snd] in *.
  destruct (findLeafByValueInSimulation_ok (Leaf_Value (Operation_Leaf op)) s0 leaf Hctx Hm0) as (s1 & Q1 & W1 & E1).
  rewrite (proj1 (proj2 Ht0)) in E1.
  destruct (find_value leaf _ (Z.to_nat (2 ^ depth t)) 0) as [x|] eqn:F.
  - pose proof (Z.pow_pos_nonneg 2 (depth t)).
    apply find_value_some in F as (Hx & Hval & _). rewrite Z2Nat.id in Hx by lia.
    rewrite (bind_runs _ _ _ _ _ (runs_wrap _ _ _ _ _ _ E1)).
    assert (simulates t s1 (leaf, k)) as Hsim1 by (apply (simulates_quiet t s0 s1 leaf k); congruence || done).
    destruct (simulate_change t s1 leaf k x _ Hctx Hsim1 ltac:(lia) He) as (s2 & s3 & R2 & R3 & Ht2 & Hsim3).
    rewrite (bind_runs _ _ _ _ _ (runs_wrap _ _ _ _ _ _ R2)).
    cbn [Proof_Leaf Proof_Path]. rewrite Hval, Z.eqb_refl. cbn [negb].
    rewrite (bind_runs get_tree _ s2 s2 _ eq_refl), (proj1 Ht2).
    by rewrite (bind_runs _ _ _ _ _ (runs_wrap _ _ _ _ _ _ R3)).
  - erewrite bind_fails by (by apply (wrap_fails _ _ _ _ s1)). by apply (fails_quiet t s0).
Qed.

Lemma simulate_operation_agrees (i : Z) (op : LeafOperation) (t : SparseMerkleTree) (s : state B) (p : plan) :
  context_active -> in_field (Leaf_Value (Operation_Leaf op)) -> in_field (emtpyLeaf t) ->
  simulates t s p ->
  agrees t (simulate_operation i op s) (spec_operation (depth t) (emtpyLeaf t) op p) id.
Proof.
  intros Hctx Hv He Hsim.
  destruct (decide (Operation_Op op = OperationAddition)) as [Ha|Ha]; [by apply addition_agrees|].
  destruct (decide (Operation_Op op = OperationRevocation)) as [Hr|Hr]; [by apply revocation_agrees|].
  destruct p as [leaf k]. unfold simulate_operation, spec_operation.
  destruct (check_ctx_ok ctx_Err s Hctx (addressable_cache s (proj1 (proj1 Hsim)))) as (s0 & R0 & Q0 & _).
  rewrite (bind_runs _ _ _ _ _ R0). cbv zeta.
  destruct (Z.eqb_spec (Operation_Op op) OperationAddition); [done|].
  destruct (Z.eqb_spec (Operation_Op op) OperationRevocation); [done|].
  apply (fails_quiet t s); [apply Hsim|done|done].
Qed.

Lemma simulate_loop_agrees (ops : list LeafOperation) (i : Z) (acc : list BatchProofResult)
    (t : SparseMerkleTree) (s : state B) (p : plan) :
  context_active -> Forall (fun op => in_field (Leaf_Value (Operation_Leaf op))) ops ->
  in_field (emtpyLeaf t) -> simulates t s p ->
  agrees t (simulate_loop i ops acc s) (spec_batch (depth t) (emtpyLeaf t) ops p) (fun rs => acc ++ rs).
Proof.
  intros Hctx Hops He. revert i acc s p. induction Hops as [|op ops Hv _ IH]; intros i acc s p Hsim.
  { cbn. by rewrite app_nil_r. }
  cbn [simulate_loop spec_batch].
  pose proof (simulate_operation_agrees i op t s p Hctx Hv He Hsim) as Hop. unfold agrees in Hop.
  destruct (simulate_operation i op s) as [c s1] eqn:E.
  destruct (spec_operation (depth t) (emtpyLeaf t) op p) as [[r p1]|]; cbn [fst snd] in Hop.
  - destruct Hop as [-> Hsim1]. rewrite (bind_runs _ _ _ _ _ E).
    pose proof (IH (i + 1) (acc ++ [id r]) s1 p1 Hsim1) as Hrest. unfold agrees in *.
    destruct (spec_batch (depth t) (emtpyLeaf t) ops p1) as [[rs p2]|]; [|done].
    by rewrite <- (assoc_L (++)) in Hrest.
  - destruct Hop as [(e & -> & Hp) Ht]. rewrite (bind_fails _ _ _ _ _ E). split; [by exists e|exact Ht].
Qed.
End Models.

(** * Replaying the proofs *)

(** What a verifier of the batch does with the root it has, an operation and its proof: check
    that the path leads from the old leaf to the root, and compute the root with the new leaf. *)
Definition replay_step (e root : Z) (op : LeafOperation) (r : BatchProofResult) : option Z :=
  let v := Leaf_Value (Operation_Leaf op) in
  let (old, new) := if Operation_Op op =? OperationAddition then (e, v) else (v, e) in
  if root_of hash old (Result_Path r) (Result_Index r) =? root
  then Some (root_of hash new (Result_Path r) (Result_Index r))
  else None.

Fixpoint replay (e root : Z) (ops : list LeafOperation) (rs : list BatchProofResult) : option Z :=
  match ops, rs with
  | [], [] => Some root
  | op :: ops', r :: rs' =>
      match replay_step e root op r with
      | Some root' => replay e root' ops' rs'
      | None => None
      end
  | _, _ => None
  end.

Lemma set_leaf_same (leaf : Z -> Z) (x v : Z) : set_leaf leaf x v x = v.
Proof. unfold set_leaf. by rewrite Z.eqb_refl. Qed.

Lemma path_before_after (d : Z) (leaf : Z -> Z) (x v : Z) :
  0 <= d -> 0 <= x < 2 ^ d ->
  root_of hash (leaf x) (tree_path hash d leaf x) x = tree_root hash d leaf /\
  root_of hash v (tree_path hash d leaf x) x = tree_root hash d (set_leaf leaf x v).
Proof.
  intros Hd Hx. split; [by apply tree_path_root|].
  rewrite <- (tree_path_set hash d leaf x v Hd Hx), <- (set_leaf_same leaf x v) at 1.
  by apply tree_path_root.
Qed.

Lemma spec_operation_replay (d e : Z) (op : LeafOperation) (leaf leaf' : Z -> Z) (k k' : nat) (r : BatchProofResult) :
  0 <= d -> spec_operation d e op (leaf, k) = Some (r, (leaf', k')) ->
  replay_step e (tree_root hash d leaf) op r = Some (tree_root hash d leaf').
Proof.
  intros Hd. unfold spec_operation, replay_step.
  destruct (Operation_Op op =? OperationAddition).
  - destruct (find_empty _ _ _ _ _) as [[x k1]|] eqn:F; [|done]. intros [= <- <- _].
    apply find_empty_some in F as [Hx He]; [|done]. cbn [Result_Path Result_Index].
    destruct (path_before_after d leaf x (Leaf_Value (Operation_Leaf op)) Hd Hx) as [E1 E2].
    rewrite <- He at 1. by rewrite E1, Z.eqb_refl, E2.
  - destruct (Operation_Op op =? OperationRevocation); [|done].
    destruct (find_value _ _ _ _) as [x|] eqn:F; [|done]. intros [= <- <- _].
    pose proof (Z.pow_pos_nonneg 2 d).
    apply find_value_some in F as (Hx & Hv & _). rewrite Z2Nat.id in Hx by lia.
    cbn [Result_Path Result_Index]. destruct (path_before_after d leaf x e Hd ltac:(lia)) as [E1 E2].
    rewrite <- Hv at 1. by rewrite E1, Z.eqb_refl, E2.
Qed.

Lemma spec_batch_replay (d e : Z) (ops : list LeafOperation) (leaf leaf' : Z -> Z) (k k' : nat)
    (rs : list BatchProofResult) :
  0 <= d -> spec_batch d e ops (leaf, k) = Some (rs, (leaf', k')) ->
  replay e (tree_root hash d leaf) ops rs = Some (tree_root hash d leaf').
Proof.
  intros Hd. revert leaf k rs. induction ops as [|op ops IH]; intros leaf k rs; cbn [spec_batch].
  { by intros [= <- <- _]. }
  destruct (spec_operation d e op (leaf, k)) as [[r [leaf1 k1]]|] eqn:E; [|done].
  destruct (spec_batch d e ops (leaf1, k1)) as [[rs1 p2]|] eqn:E2; [|done].
  intros [= <- ->]. cbn [replay]. rewrite (spec_operation_replay d e op leaf leaf1 k k1 r Hd E).
  by apply (IH leaf1 k1).
Qed.
End Simulation.
