(* ===== verification/SparseTreeRuns.v ===== *)
(** Whole runs of the sparse Merkle tree: the search for a random empty leaf, and a simulated
    batch of operations from the storage on. *)

From stdpp Require Import base list numbers strings gmap pretty.
From Stdlib Require Import ZArith Lia.
From S2P Require Import Prelude GoBase MerkleSpec SparseTree SparseTreeFacts SparseTreeInsert.
From S2P Require Import SparseTreeProofs SparseTreeSimulation.
Local Open Scope Z_scope.

Section Runs.
Context {U256 : Uint256} {UL : Uint256Laws U256} {PH : Poseidon} {PL : PoseidonLaws PH} {GE : GoEnv}.
Context {B : Type}.

(** * Random empty leaves *)

(** The first of [n] random indices, from the [k]-th draw on, that the storage does not have. *)
Fixpoint find_free (storage : TreeLeafGetter) (d : Z) (n k : nat) : option Z :=
  match n with
  | O => None
  | S n' =>
      match storage 0 (draw_index d k) with
      | Throw e => if is_not_found e then Some (draw_index d k) else find_free storage d n' (S k)
      | _ => find_free storage d n' (S k)
      end
  end.

Lemma GetRandomEmptyLeafIndex_loop_ok (n : nat) (s : state B) :
  context_active -> 1 <= depth (st_tree s) <= 32 -> cache_ok (st_tree s) ->
  (forall i, match storageLeafGetter (st_tree s) 0 i with Ok _ => True | Throw e => is_panic e = false |
      OutOfFuel => False end) ->
  exists s', quiet s s' /\
    GetRandomEmptyLeafIndex_loop n s =
      (match find_free (storageLeafGetter (st_tree s)) (depth (st_tree s)) n (draws (st_world s)) with
       | Some x => Ok x
       | None => Throw (Errorf "could not find an empty leaf index" [] None)
       end, s').
Proof.
  intros Hctx. revert s. induction n as [|n IH]; intros s Hd Hc Hg; cbn [find_free].
  { exists s. split; [by apply quiet_refl|done]. }
  destruct (check_ctx_ok ctx_Cause s Hctx Hc) as (s1 & R1 & Q1 & W1). pose proof (quiet_depth _ _ Q1) as D1.
  destruct (random_index_ok s1) as (s2 & R2 & Q2 & W2); [by rewrite D1|apply Q1|].
  pose proof (quiet_trans _ _ _ Q1 Q2) as Q12. pose proof (quiet_depth _ _ Q12) as D2.
  assert (storageLeafGetter (st_tree s2) = storageLeafGetter (st_tree s)) as Eg by apply Q12.
  cbn [GetRandomEmptyLeafIndex_loop].
  rewrite (bind_runs _ _ _ _ _ R1), (bind_runs _ _ _ _ _ R2), (bind_runs get_tree _ s2 s2 _ eq_refl), D1, W1, Eg.
  set (x := draw_index (depth (st_tree s)) (draws (st_world s))).
  destruct (IH s2) as (s3 & Q3 & E3); [by rewrite D2|apply Q12|by rewrite Eg|].
  rewrite Eg, D2, W2, W1 in E3.
  pose proof (Hg x) as Hx. unfold go_bind, go_try, go_res.
  destruct (storageLeafGetter (st_tree s) 0 x) as [v|e|]; [|rewrite Hx; destruct (is_not_found e)|done].
  - exists s3. split; [by apply (quiet_trans _ s2)|done].
  - exists s2. split; [done|done].
  - exists s3. split; [by apply (quiet_trans _ s2)|done].
Qed.

(** * Simulated batches *)

(** A batch that was just created shows the storage. *)
Lemma simulation_starts (t : SparseMerkleTree) (w : world) :
  tree_ok t -> depth t <= 32 -> consistent hash (depth t) (stored t) ->
  let s := mkState t (NewSimulationBatch (storageLeafGetter t)) w in
  models s (stored t 0) /\ forall l i, node s l i = stored t l i.
Proof.
  intros Ht Hd Hc s. pose proof Ht as (Hd1 & _ & Hg & _).
  assert (forall l i, node s l i = stored t l i) as E.
  { intros l i. unfold node, stored, s. cbn [st_batch st_tree view SimulationBatch_laws].
    unfold sim_view. cbn [sim_buffer sim_storage NewSimulationBatch]. rewrite lookup_empty.
    by destruct (storageLeafGetter t l i). }
  split; [|done]. split; [split; [split; [done|split; [done|]]|done]|split].
  - intros l i Hk. rewrite E. by apply stored_field.
  - apply (consistent_ext _ _ (stored t)); [|done]. intros l i _. apply E.
  - intros i _. apply E.
Qed.

(** [SimulateBatchOperations] after it has read the initial root. *)
Definition simulate_after_root (operations : list LeafOperation) : go (state B) (list BatchProofResult) :=
  let! t := get_tree in
  on_batch (NewSimulationBatch (storageLeafGetter t)) (simulate_loop 0 operations []).

Lemma SimulateBatchOperations_parts (operations : list LeafOperation) (s : state B) :
  SimulateBatchOperations operations s =
    (let! initialRoot := go_wrap "get initial root: %w" [] GetRoot in
     let! proofs := simulate_after_root operations in
     go_ret (initialRoot, proofs)) s.
Proof.
  unfold SimulateBatchOperations, simulate_after_root, go_bind at 1. symmetry. unfold go_bind at 1.
  by destruct (go_wrap _ _ GetRoot s) as [[root|e|] s1].
Qed.

Lemma simulate_after_root_agrees (ops : list LeafOperation) (s : state B) :
  let t := st_tree s in
  context_active -> tree_ok t -> depth t <= 32 -> consistent hash (depth t) (stored t) ->
  Forall (fun op => in_field (Leaf_Value (Operation_Leaf op))) ops ->
  exists c s', simulate_after_root ops s = (c, s') /\ quiet s s' /\
    match spec_batch (depth t) (emtpyLeaf t) ops (stored t 0, draws (st_world s)) with
    | Some (rs, _) => c = Ok rs
    | None => exists e, c = Throw e /\ is_panic e = false
    end.
Proof.
  intros t Hctx Ht Hd Hc Hops. subst t. pose proof Ht as (Hd1 & He & _). unfold depth_ok in Hd1.
  destruct (simulation_starts (st_tree s) (st_world s) Ht Hd Hc) as [Hm _].
  set (s2 := mkState (st_tree s) (NewSimulationBatch (storageLeafGetter (st_tree s))) (st_world s)) in *.
  assert (simulates (st_tree s) s2 (stored (st_tree s) 0, draws (st_world s))) as Hsim by (split; [exact Hm|done]).
  pose proof (simulate_loop_agrees ops 0 [] (st_tree s) s2 _ Hctx Hops He Hsim) as Hag.
  unfold agrees in Hag. destruct (simulate_loop 0 ops [] s2) as [c s3] eqn:Eloop.
  exists c, (mkState (st_tree s3) (st_batch s) (st_world s3)).
  split; [|destruct (spec_batch (depth (st_tree s)) (emtpyLeaf (st_tree s)) ops _) as [[rs p]|]; cbn [fst snd]
      in Hag].
  - unfold simulate_after_root. rewrite (bind_runs get_tree _ s s _ eq_refl). unfold on_batch. fold s2.
      by rewrite Eloop.
  - destruct Hag as [-> (Hm3 & _ & Ht3)]. split; [|done]. split; [done|]. split; [exact Ht3|].
    exact (addressable_cache s3 (proj1 Hm3)).
  - destruct Hag as [(e & -> & Hp) [Ht3 Hc3]]. split; [|by exists e]. done.
Qed.

Lemma GetRoot_ok (s : state B) :
  tree_ok (st_tree s) -> depth (st_tree s) <= 32 -> consistent hash (depth (st_tree s)) (stored (st_tree s)) ->
  exists s1, runs (go_wrap "get initial root: %w" [] GetRoot) s
    (tree_root hash (depth (st_tree s)) (stored (st_tree s) 0)) s1 /\ quiet s s1 /\ st_world s1 = st_world s.
Proof.
  intros Ht Hd Hc. pose proof Ht as (Hd1 & _). unfold depth_ok in Hd1.
  destruct (getLeafFromStorage_ok s (depth (st_tree s)) 0 Ht) as (s1 & R1 & Q1 & W1); [lia|lia|].
  assert (stored (st_tree s) (depth (st_tree s)) 0 = tree_root hash (depth (st_tree s)) (stored (st_tree s) 0)) as <-.
  { apply (consistent_unique hash (depth (st_tree s))); [done|apply tree_nodes_consistent|done|].
    split; [lia|]. rewrite Z.sub_diag. lia. }
  exists s1. split; [|done]. apply runs_wrap. unfold GetRoot. eapply runs_bind; [reflexivity|exact R1].
Qed.

Lemma SimulateBatchOperations_agrees (ops : list LeafOperation) (s : state B) :
  let t := st_tree s in
  context_active -> tree_ok t -> depth t <= 32 -> consistent hash (depth t) (stored t) ->
  Forall (fun op => in_field (Leaf_Value (Operation_Leaf op))) ops ->
  exists c s', SimulateBatchOperations ops s = (c, s') /\ quiet s s' /\
    match spec_batch (depth t) (emtpyLeaf t) ops (stored t 0, draws (st_world s)) with
    | Some (rs, _) => c = Ok (tree_root hash (depth t) (stored t 0), rs)
    | None => exists e, c = Throw e /\ is_panic e = false
    end.
Proof.
  intros t Hctx Ht Hd Hc Hops. destruct (GetRoot_ok s Ht Hd Hc) as (s1 & R1 & Q1 & W1).
  assert (stored (st_tree s1) = stored t) as Est.
  { unfold stored, empty_node. destruct Q1 as (_ & (E1 & E2 & E3) & _). by rewrite E1, E3. }
  pose proof (proj1 (proj2 Q1)) as (Ee & Ed & _).
  destruct (simulate_after_root_agrees ops s1 Hctx (quiet_tree_ok _ _ Q1 Ht)) as (c & s2 & E & Q2 & Hs);
    [by rewrite Ed|by rewrite Ed, Est|done|].
  rewrite Ee, Ed, Est, W1 in Hs. fold t in Hs. rewrite SimulateBatchOperations_parts, (bind_runs _ _ _ _ _ R1).
  unfold go_bind. rewrite E. exists (match c with Ok rs => Ok (tree_root hash (depth t) (stored t 0), rs)
    | Throw e => Throw e | OutOfFuel => OutOfFuel end), s2.
  split; [by destruct c|]. split; [by apply (quiet_trans s s1)|].
  destruct (spec_batch _ _ _ _) as [[rs p]|]; [by rewrite Hs|]. destruct Hs as (e & -> & Hp). by exists e.
Qed.
End Runs.
