(* ===== verification/Storage.v ===== *)
(** The key-value storage of the service: the layout of keys ([internal/storage/keys.go]), tree
    nodes and leaf indices ([internal/zkregistry/leaf_storage.go]), the batch that buffers
    nodes ([batch_with_leaves.go]), and the index of registry addresses ([index_storage.go]).
    The database is a parameter. *)

From stdpp Require Import base list numbers strings gmap.
From Stdlib Require Import ZArith Lia.
From S2P Require Import Prelude GoBase SparseTree.
Local Open Scope Z_scope.

(** * The database (package [cometbft-db])

    [Get] returns nil for a missing key; the sources only look at the length of the answer,
    so nil is the empty list here.  A batch collects changes; [WriteSync] applies them. *)
Class KVDatabase := {
  DB : Type;
  Batch : Type;
  DB_Get : DB -> gobytes -> gores gobytes;
  DB_Set : gobytes -> gobytes -> go DB unit;
  DB_NewBatch : DB -> Batch;
  Batch_Set : gobytes -> gobytes -> go Batch unit;
  Batch_Delete : gobytes -> go Batch unit;
  Batch_WriteSync : Batch -> go DB unit;
}.

(** * Keys *)

Definition PrefixLength : nat := 1.
Definition JobKeyPrefix : Z := 0x00.
Definition MerkleTreeLeafKeyPrefix : Z := 0x01.
Definition MerkleTreeLeafIndexPrefix : Z := 0x02.
Definition ZKCertificateRegistryKeyPrefix : Z := 0x03.
Definition ZKCertificateRegistryIndexPrefix : Z := 0x04.
Definition ZKCertificateRegistryCounterPrefix : Z := 0x05.

Definition TreeLevelTypeLength : nat := 1.
Definition LeafIndexTypeLength : nat := 4.
Definition LeafValueTypeLength : nat := 32.
Definition ZKCertificateRegistryIndexLength : nat := 1.
Definition AddressLength : nat := 20.

Definition LeafKeyLength : nat :=
  PrefixLength + ZKCertificateRegistryIndexLength + TreeLevelTypeLength + LeafIndexTypeLength.
Definition LeafIndexBytesSize : nat := PrefixLength + ZKCertificateRegistryIndexLength + LeafValueTypeLength.

Definition RegistryIndex : Type := Z.

(** [make([]byte, n)], [key[i] = b] and [copy(key[i:], src)] (also [PutUint32(key[i:], ...)]). *)
Definition make_bytes (n : nat) : gobytes := replicate n 0.
Definition set_byte (i : nat) (b : Z) (key : gobytes) : gobytes := <[i := b]> key.
Definition copy_at (i : nat) (src key : gobytes) : gobytes := list_inserts i src key.

Definition makeLeafKey (registryIndex : RegistryIndex) (level : TreeLevel) (index : TreeLeafIndex) : gobytes :=
  let key := make_bytes LeafKeyLength in
  let key := set_byte 0 MerkleTreeLeafKeyPrefix key in
  let key := set_byte PrefixLength (u8 registryIndex) key in
  let key := set_byte (PrefixLength + ZKCertificateRegistryIndexLength) (u8 level) key in
  copy_at (PrefixLength + ZKCertificateRegistryIndexLength + TreeLevelTypeLength) (be_bytes 4 (u32 index)) key.

(** An address is 20 bytes. *)
Definition makeRegistryIndexKey (contractAddr : gobytes) : gobytes :=
  let key := make_bytes (PrefixLength + AddressLength) in
  let key := set_byte 0 ZKCertificateRegistryIndexPrefix key in
  copy_at PrefixLength (take AddressLength contractAddr) key.

Definition makeRegistryIndexCounterKey : gobytes := [ZKCertificateRegistryCounterPrefix].

Definition makeZKCertificateRegistryKey (address : gobytes) : gobytes :=
  let key := make_bytes (PrefixLength + AddressLength) in
  let key := set_byte 0 ZKCertificateRegistryKeyPrefix key in
  copy_at PrefixLength (take AddressLength address) key.

Definition ContractTypeLength : nat := 1.
Definition BlockTypeLength : nat := 8.

Record JobDescriptor : Type := mkJobDescriptor {
  Job_Address : gobytes;
  Job_Contract : Z;
  Job_StartBlock : Z
}.

Definition Uint64ToBigEndian (i : Z) : gobytes := be_bytes 8 (u64 i).

(** [key] starts empty and is appended to. *)
Definition makeJobKey (job : JobDescriptor) : gobytes :=
  let key := [] in
  let key := key ++ [JobKeyPrefix] in
  let key := key ++ take AddressLength (Job_Address job) in
  let key := key ++ [u8 (Job_Contract job)] in
  key ++ take BlockTypeLength (Uint64ToBigEndian (Job_StartBlock job)).

Section Code.
Context {U256 : Uint256} {KV : KVDatabase}.

Definition makeLeafIndexKey (registryIndex : RegistryIndex) (leafValue : Z) : gobytes :=
  let leafValueBytes := uint256_Bytes32 leafValue in
  let key := make_bytes LeafIndexBytesSize in
  let key := set_byte 0 MerkleTreeLeafIndexPrefix key in
  let key := set_byte PrefixLength (u8 registryIndex) key in
  copy_at (PrefixLength + ZKCertificateRegistryIndexLength) (take LeafValueTypeLength leafValueBytes) key.

(** * Leaf storage

    A [LeafStorage] holds the database, a [LeafView] the registry's index besides; the
    database is the argument [database] here. *)

Definition LeafStorage_GetLeaf (database : DB) (registryIndex : RegistryIndex) (level : TreeLevel)
    (index : TreeLeafIndex) : gores Z :=
  let* leafBytes := DB_Get database (makeLeafKey registryIndex level index) in
  if (length leafBytes =? 0)%nat then Throw ErrNotFound else Ok (uint256_SetBytes leafBytes).

Definition LeafStorage_SetLeaf (registryIndex : RegistryIndex) (level : TreeLevel) (index : TreeLeafIndex)
    (value : Z) : go DB unit :=
  DB_Set (makeLeafKey registryIndex level index) (uint256_Bytes value).

Definition LeafStorage_GetLeafIndex (database : DB) (registryIndex : RegistryIndex) (leafValue : Z)
    : gores TreeLeafIndex :=
  let* leafIndexBytes := DB_Get database (makeLeafIndexKey registryIndex leafValue) in
  if (length leafIndexBytes =? 0)%nat then Throw ErrNotFound
  else if negb (length leafIndexBytes =? LeafIndexBytesSize)%nat then
    Throw (Errorf "invalid leaf index bytes: %v" leafIndexBytes None)
  else Ok (be_value (take 4 (take LeafIndexBytesSize leafIndexBytes))).

Definition LeafStorage_SetLeafIndex (registryIndex : RegistryIndex) (leafValue : Z) (leafIndex : TreeLeafIndex)
    : go Batch unit :=
  let leafIndexBytes := copy_at 0 (be_bytes 4 (u32 leafIndex)) (make_bytes LeafIndexBytesSize) in
  Batch_Set (makeLeafIndexKey registryIndex leafValue) leafIndexBytes.

Definition LeafStorage_DeleteLeafIndex (registryIndex : RegistryIndex) (leafValue : Z) : go Batch unit :=
  Batch_Delete (makeLeafIndexKey registryIndex leafValue).

(** The registry's index in a view; the methods of a view call those of the storage. *)
Record LeafView : Type := mkLeafView { view_registryIndex : RegistryIndex }.

Definition LeafView_GetLeaf (s : LeafView) (database : DB) : TreeLeafGetter :=
  fun level index => LeafStorage_GetLeaf database (view_registryIndex s) level index.
Definition LeafView_SetLeaf (s : LeafView) (level : TreeLevel) (index : TreeLeafIndex) (value : Z) : go DB unit :=
  LeafStorage_SetLeaf (view_registryIndex s) level index value.
Definition LeafView_GetLeafIndex (s : LeafView) (database : DB) (value : Z) : gores TreeLeafIndex :=
  LeafStorage_GetLeafIndex database (view_registryIndex s) value.
Definition LeafView_SetLeafIndex (s : LeafView) (value : Z) (index : TreeLeafIndex) : go Batch unit :=
  LeafStorage_SetLeafIndex (view_registryIndex s) value index.
Definition LeafView_DeleteLeafIndex (s : LeafView) (value : Z) : go Batch unit :=
  LeafStorage_DeleteLeafIndex (view_registryIndex s) value.

(** * A batch with a buffer of nodes *)

Record BatchWithLeavesBuffer : Type := mkBatchWithLeavesBuffer {
  bwl_Batch : Batch;
  bwl_index : RegistryIndex;
  bwl_buffer : gmap gobytes Z
}.

Definition NewBatchWithLeavesBuffer (batch : Batch) (index : RegistryIndex) : BatchWithLeavesBuffer :=
  mkBatchWithLeavesBuffer batch index ∅.

(** The buffer is written before the batch, whose [Set] may fail. *)
Definition BatchWithLeavesBuffer_SetLeaf (level : TreeLevel) (index : TreeLeafIndex) (value : Z)
    : go BatchWithLeavesBuffer unit :=
  fun b =>
    let key := makeLeafKey (bwl_index b) level index in
    let buffer := <[take LeafKeyLength key := value]> (bwl_buffer b) in
    let (c, batch) := Batch_Set key (uint256_Bytes value) (bwl_Batch b) in
    (c, mkBatchWithLeavesBuffer batch (bwl_index b) buffer).

Definition BatchWithLeavesBuffer_GetLeaf (b : BatchWithLeavesBuffer) (level : TreeLevel) (index : TreeLeafIndex)
    : gores Z :=
  let key := makeLeafKey (bwl_index b) level index in
  match bwl_buffer b !! take LeafKeyLength key with
  | Some value => Ok value
  | None => Throw ErrNotFound
  end.

#[export] Instance BatchWithLeavesBuffer_GetterSetter : TreeLeafGetterSetter BatchWithLeavesBuffer := {
  GetLeaf := BatchWithLeavesBuffer_GetLeaf;
  SetLeaf := BatchWithLeavesBuffer_SetLeaf;
}.

Definition LeafStorage_NewBatch (database : DB) (registryIndex : RegistryIndex) : BatchWithLeavesBuffer :=
  NewBatchWithLeavesBuffer (DB_NewBatch database) registryIndex.

(** * The index of registry addresses *)

Definition first_byte (data : gobytes) : Z := default 0 (head data).

Definition FindRegistryIndex (address : gobytes) : go DB RegistryIndex :=
  fun database =>
    (let* data := DB_Get database (makeRegistryIndexKey address) in
     if (length data =? 0)%nat then Throw ErrNotFound else Ok (first_byte data), database).

Definition getNextRegistryIndex : go DB RegistryIndex :=
  fun database =>
    (let* counter := DB_Get database makeRegistryIndexCounterKey in
     if (length counter =? 0)%nat then Ok 0 else Ok (u8 (first_byte counter + 1)), database).

(** The local batch of [ApplyAddressToIndex] is part of the state while it is filled. *)
Definition on_db {A : Type} (m : go DB A) : go (DB * Batch) A :=
  fun s => let (c, database) := m (fst s) in (c, (database, snd s)).
Definition on_local_batch {A : Type} (m : go Batch A) : go (DB * Batch) A :=
  fun s => let (c, batch) := m (snd s) in (c, (fst s, batch)).

Definition setIndex (address : gobytes) (index : RegistryIndex) : go (DB * Batch) unit :=
  let! found := go_try (on_db (FindRegistryIndex address)) in
  match found with
  | inr _ => go_throw (Errorf "address index already set for address %s" address None)
  | inl _ => on_local_batch (Batch_Set (makeRegistryIndexKey address) [u8 index])
  end.

Definition setIndexCounter (index : RegistryIndex) : go (DB * Batch) unit :=
  on_local_batch (Batch_Set makeRegistryIndexCounterKey [u8 index]).

Definition write_local_batch : go (DB * Batch) unit :=
  fun s => let (c, database) := Batch_WriteSync (snd s) (fst s) in (c, (database, snd s)).

(** [batch := f.database.NewBatch()], the code that uses it, and its [Close]. *)
Definition with_new_batch {A : Type} (m : go (DB * Batch) A) : go DB A :=
  fun database => let (c, s) := m (database, DB_NewBatch database) in (c, fst s).

Definition ApplyAddressToIndex (address : gobytes) : go DB RegistryIndex :=
  let! found := go_try (FindRegistryIndex address) in
  match found with
  | inr index => go_ret index
  | inl _ =>
      let! index := go_wrap "get next address index: %w" [] getNextRegistryIndex in
      with_new_batch (
        let! _ := go_wrap "set address to index: %w" [] (setIndex address index) in
        let! _ := go_wrap "set index counter: %w" [] (setIndexCounter index) in
        let! _ := go_wrap "write batch: %w" [] write_local_batch in
        go_ret index)
  end.
End Code.
