(* ===== verification/StorageFacts.v ===== *)
(** What the storage layer promises: the laws of the database, injectivity of its keys, the
    batch with a buffer as an implementation of the batch interface of the tree, and what the
    database holds once such a batch is written. *)

From stdpp Require Import base list numbers strings gmap.
From Stdlib Require Import ZArith Lia.
From S2P Require Import Prelude GoBase MerkleSpec SparseTree SparseTreeFacts Storage.
Local Open Scope Z_scope.

(** * The database *)

Inductive change : Type :=
| Put (k v : gobytes)
| Del (k : gobytes).

Definition apply_change (m : gmap gobytes gobytes) (c : change) : gmap gobytes gobytes :=
  match c with
  | Put k v => <[k := v]> m
  | Del k => delete k m
  end.

Definition apply_changes (cs : list change) (m : gmap gobytes gobytes) : gmap gobytes gobytes :=
  fold_left apply_change cs m.

(** A database that does not fail: it is a finite map, a batch is a list of changes, and
    writing a batch applies them in order.  The empty key is not allowed. *)
Class KVDatabaseLaws (KV : KVDatabase) := {
  contents : DB -> gmap gobytes gobytes;
  pending : Batch -> list change;
  writable : Batch -> Prop;
  Get_contents : forall d k, k <> [] -> DB_Get d k = Ok (default [] (contents d !! k));
  Set_contents : forall d k v, k <> [] ->
    exists d', DB_Set k v d = (Ok tt, d') /\ contents d' = <[k := v]> (contents d);
  NewBatch_pending : forall d, writable (DB_NewBatch d) /\ pending (DB_NewBatch d) = [];
  Batch_Set_pending : forall b k v, writable b -> k <> [] ->
    exists b', Batch_Set k v b = (Ok tt, b') /\ writable b' /\ pending b' = pending b ++ [Put k v];
  Batch_Delete_pending : forall b k, writable b -> k <> [] ->
    exists b', Batch_Delete k b = (Ok tt, b') /\ writable b' /\ pending b' = pending b ++ [Del k];
  WriteSync_contents : forall b d, writable b ->
    exists d', Batch_WriteSync b d = (Ok tt, d') /\ contents d' = apply_changes (pending b) (contents d);
}.

(** The value of a key after a list of changes. *)
Fixpoint last_change (cs : list change) (k : gobytes) : option (option gobytes) :=
  match cs with
  | [] => None
  | c :: cs' =>
      match last_change cs' k with
      | Some r => Some r
      | None =>
          match c with
          | Put k' v => if decide (k = k') then Some (Some v) else None
          | Del k' => if decide (k = k') then Some None else None
          end
      end
  end.

Lemma apply_changes_lookup (cs : list change) (m : gmap gobytes gobytes) (k : gobytes) :
  apply_changes cs m !! k = default (m !! k) (last_change cs k).
Proof.
  revert m. induction cs as [|c cs IH]; intros m; [done|]. cbn [apply_changes fold_left last_change].
  fold (apply_changes cs (apply_change m c)). rewrite IH.
  destruct (last_change cs k) as [r|]; [done|]. cbn [default].
  destruct c as [k' v|k']; cbn [apply_change]; destruct (decide (k = k')) as [->|Hne]; cbn [default].
  - by rewrite lookup_insert_eq.
  - by rewrite lookup_insert_ne.
  - by rewrite lookup_delete_eq.
  - by rewrite lookup_delete_ne.
Qed.

Lemma last_change_snoc (cs : list change) (c : change) (k : gobytes) :
  last_change (cs ++ [c]) k =
    match last_change [c] k with Some r => Some r | None => last_change cs k end.
Proof.
  induction cs as [|c' cs IH]; [by cbn; destruct c; case_decide|]. cbn [app last_change] in *. rewrite IH.
  destruct c; cbn; by case_decide.
Qed.

(** * Keys *)

Lemma copy_at_0 (src key : gobytes) : length src = length key -> copy_at 0 src key = src.
Proof.
  intros Hl. unfold copy_at. rewrite <- (app_nil_r key), list_inserts_0_r by done. apply app_nil_r.
Qed.

Lemma makeLeafKey_eq (r l i : Z) :
  makeLeafKey r l i = MerkleTreeLeafKeyPrefix :: u8 r :: u8 l :: be_bytes 4 (u32 i).
Proof. reflexivity. Qed.

Lemma address_key_eq (p : Z) (a : gobytes) :
  length a = AddressLength ->
  copy_at PrefixLength (take AddressLength a) (set_byte 0 p (make_bytes (PrefixLength + AddressLength))) = p :: a.
Proof.
  intros Ha. rewrite take_ge by lia. 
  change (list_inserts 1 a (p :: replicate AddressLength 0) = p :: a). rewrite list_inserts_cons. f_equal.
      apply copy_at_0. by rewrite length_replicate.
Qed.

(** What the database stores, and the key it is stored under. *)
Inductive storage_key : Type :=
| LeafKey (registryIndex level index : Z)
| LeafIndexKey (registryIndex leafValue : Z)
| MetadataKey (address : gobytes)
| RegistryIndexKey (address : gobytes)
| CounterKey
| JobKey (job : JobDescriptor).

Definition address_ok (a : gobytes) : Prop := length a = AddressLength.

Definition storage_key_ok (k : storage_key) : Prop :=
  match k with
  | LeafKey r l i => 0 <= r < 2 ^ 8 /\ key_ok l i
  | LeafIndexKey r v => 0 <= r < 2 ^ 8 /\ 0 <= v < 2 ^ 256
  | MetadataKey a | RegistryIndexKey a => address_ok a
  | CounterKey => True
  | JobKey j => address_ok (Job_Address j) /\ 0 <= Job_Contract j < 2 ^ 8 /\ 0 <= Job_StartBlock j < 2 ^ 64
  end.

Section Keys.
Context {U256 : Uint256} {UL : Uint256Laws U256}.

Definition key_bytes (k : storage_key) : gobytes :=
  match k with
  | LeafKey r l i => makeLeafKey r l i
  | LeafIndexKey r v => makeLeafIndexKey r v
  | MetadataKey a => makeZKCertificateRegistryKey a
  | RegistryIndexKey a => makeRegistryIndexKey a
  | CounterKey => makeRegistryIndexCounterKey
  | JobKey j => makeJobKey j
  end.

Lemma makeLeafIndexKey_eq (r v : Z) :
  0 <= v < 2 ^ 256 -> makeLeafIndexKey r v = MerkleTreeLeafIndexPrefix :: u8 r :: uint256_Bytes32 v.
Proof.
  intros Hv. unfold makeLeafIndexKey. rewrite take_ge by (rewrite Bytes32_length by done;
      unfold LeafValueTypeLength; lia).
  change (list_inserts 2 (uint256_Bytes32 v) (MerkleTreeLeafIndexPrefix :: u8 r :: replicate LeafValueTypeLength 0) =
    MerkleTreeLeafIndexPrefix :: u8 r :: uint256_Bytes32 v).
  rewrite !list_inserts_cons. do 2 f_equal. apply copy_at_0. by rewrite Bytes32_length, length_replicate.
Qed.

Lemma makeJobKey_eq (j : JobDescriptor) :
  address_ok (Job_Address j) ->
  makeJobKey j = JobKeyPrefix :: Job_Address j ++ u8 (Job_Contract j) :: be_bytes 8 (u64 (Job_StartBlock j)).
Proof.
  intros Ha. unfold makeJobKey, Uint64ToBigEndian. rewrite (take_ge (Job_Address j)) by (unfold address_ok in
      Ha; lia).
  rewrite take_ge by (rewrite be_bytes_length; unfold BlockTypeLength; lia). by rewrite <- !(assoc_L (++)).
Qed.

(** The first byte of a key tells what is stored. *)
Definition key_prefix (k : storage_key) : Z :=
  match k with
  | LeafKey _ _ _ => MerkleTreeLeafKeyPrefix
  | LeafIndexKey _ _ => MerkleTreeLeafIndexPrefix
  | MetadataKey _ => ZKCertificateRegistryKeyPrefix
  | RegistryIndexKey _ => ZKCertificateRegistryIndexPrefix
  | CounterKey => ZKCertificateRegistryCounterPrefix
  | JobKey _ => JobKeyPrefix
  end.

Definition key_rest (k : storage_key) : gobytes :=
  match k with
  | LeafKey r l i => r :: l :: be_bytes 4 i
  | LeafIndexKey r v => r :: uint256_Bytes32 v
  | MetadataKey a | RegistryIndexKey a => a
  | CounterKey => []
  | JobKey j => Job_Address j ++ Job_Contract j :: be_bytes 8 (Job_StartBlock j)
  end.

Lemma key_bytes_eq (k : storage_key) : storage_key_ok k -> key_bytes k = key_prefix k :: key_rest k.
Proof.
  destruct k as [r l i|r v|a|a| |j]; cbn [storage_key_ok key_bytes key_prefix key_rest].
  - intros (Hr & Hl & Hi). rewrite makeLeafKey_eq. unfold u8, u32. by rewrite !Z.mod_small by lia.
  - intros (Hr & Hv). rewrite makeLeafIndexKey_eq by done. unfold u8. by rewrite Z.mod_small by lia.
  - apply address_key_eq.
  - apply address_key_eq.
  - done.
  - intros (Ha & Hc & Hb). rewrite makeJobKey_eq by done. unfold u8, u64. by rewrite !Z.mod_small by lia.
Qed.

Lemma key_bytes_inj (k k' : storage_key) :
  storage_key_ok k -> storage_key_ok k' -> key_bytes k = key_bytes k' -> k = k'.
Proof.
  intros Hk Hk'. rewrite !key_bytes_eq by done. intros [= Hp Hr].
  destruct k as [r l i|r v|a|a| |j], k' as [r' l' i'|r' v'|a'|a'| |j']; try discriminate Hp;
    cbn [storage_key_ok key_rest] in *; [..|by rewrite Hr|by rewrite Hr|done|].
  - pose proof (f_equal (drop 2) Hr : be_bytes 4 i = be_bytes 4 i') as Hi.
    assert (r = r' /\ l = l') as [-> ->] by (by injection Hr). f_equal. destruct Hk as (_ & _ &
        Hk), Hk' as (_ & _ & Hk').
    apply (be_bytes_inj 4); [exact Hk|exact Hk'|done].
  - injection Hr as -> Hv. f_equal. apply Bytes32_inj; [apply Hk|apply Hk'|done].
  - destruct j as [a c b], j' as [a' c' b']. cbn [Job_Address Job_Contract Job_StartBlock] in *.
    destruct Hk as (Ha & _ & Hb), Hk' as (Ha' & _ & Hb'). unfold address_ok in *.
    apply app_inj_1 in Hr as [-> Hr]; [|congruence].
    pose proof (f_equal (drop 1) Hr : be_bytes 8 b = be_bytes 8 b') as Hs.
    assert (c = c') as -> by (by injection Hr). do 2 f_equal.
    apply (be_bytes_inj 8); [exact Hb|exact Hb'|done].
Qed.

Lemma key_bytes_nonempty (k : storage_key) : storage_key_ok k -> key_bytes k <> [].
Proof. intros Hk. by rewrite key_bytes_eq. Qed.
End Keys.

(** * Reading and writing *)

Section Laws.
Context {U256 : Uint256} {UL : Uint256Laws U256} {KV : KVDatabase} {KL : KVDatabaseLaws KV}.

Lemma DB_Get_key (d : DB) (k : storage_key) :
  storage_key_ok k -> DB_Get d (key_bytes k) = Ok (default [] (contents d !! key_bytes k)).
Proof. intros Hk. by apply Get_contents, key_bytes_nonempty. Qed.

(** The number a node's bytes stand for; no bytes is no node. *)
Definition decode_node (o : option gobytes) : option Z :=
  match o with
  | Some (b :: l) => Some (uint256_SetBytes (b :: l))
  | _ => None
  end.

Lemma decode_node_Bytes (v : Z) :
  0 <= v < 2 ^ 256 -> decode_node (Some (uint256_Bytes v)) = if v =? 0 then None else Some v.
Proof.
  intros Hv. pose proof (SetBytes_Bytes v Hv) as Hs. pose proof (Bytes_empty v Hv) as He.
  destruct (Z.eqb_spec v 0) as [E|E]; [by rewrite (proj2 He E)|].
  destruct (uint256_Bytes v) as [|b l]; [by destruct E; apply He|]. cbn. by rewrite Hs.
Qed.

Lemma GetLeaf_contents (d : DB) (r l i : Z) :
  0 <= r < 2 ^ 8 -> key_ok l i ->
  LeafStorage_GetLeaf d r l i =
    match decode_node (contents d !! makeLeafKey r l i) with Some v => Ok v | None => Throw ErrNotFound end.
Proof.
  intros Hr Hk. unfold LeafStorage_GetLeaf.
  rewrite (DB_Get_key d (LeafKey r l i) (conj Hr Hk) : DB_Get d (makeLeafKey r l i) = _).
  cbn [res_bind key_bytes].
  by destruct (contents d !! makeLeafKey r l i) as [[|b bs]|].
Qed.

(** The bytes that [SetLeafIndex] writes. *)
Definition index_bytes (i : Z) : gobytes := copy_at 0 (be_bytes 4 (u32 i)) (make_bytes LeafIndexBytesSize).

Lemma index_bytes_eq (i : Z) : index_bytes i = be_bytes 4 (u32 i) ++ replicate 30 0.
Proof. reflexivity. Qed.

Lemma GetLeafIndex_contents (d : DB) (r v : Z) (o : option Z) :
  0 <= r < 2 ^ 8 -> 0 <= v < 2 ^ 256 -> (forall i, o = Some i -> 0 <= i < 2 ^ 32) ->
  contents d !! makeLeafIndexKey r v = option_map index_bytes o ->
  LeafStorage_GetLeafIndex d r v = match o with Some i => Ok i | None => Throw ErrNotFound end.
Proof.
  intros Hr Hv Ho E. unfold LeafStorage_GetLeafIndex.
  rewrite (DB_Get_key d (LeafIndexKey r v) (conj Hr Hv) : DB_Get d (makeLeafIndexKey r v) = _).
  cbn [res_bind key_bytes]. rewrite E.
  destruct o as [i|]; cbn [option_map default from_option id]; [|done].
  specialize (Ho i eq_refl). rewrite index_bytes_eq. unfold u32. rewrite Z.mod_small by done.
  rewrite length_app, be_bytes_length. cbn [length replicate Nat.add Nat.eqb LeafIndexBytesSize negb
      PrefixLength ZKCertificateRegistryIndexLength LeafValueTypeLength].
  rewrite take_take. cbn [Nat.min]. rewrite take_app_length' by (by rewrite be_bytes_length).
  by rewrite be_value_bytes.
Qed.

(** * The batch with a buffer implements the batch interface *)

Definition bwl_view (b : BatchWithLeavesBuffer) (l i : Z) : option Z :=
  bwl_buffer b !! makeLeafKey (bwl_index b) l i.

(** [r] is the registry and [cs] the changes that were in the batch before: the batch holds
    the nodes of the buffer, and for all other keys what it held. *)
Definition bwl_ok (r : Z) (cs : list change) (b : BatchWithLeavesBuffer) : Prop :=
  writable (bwl_Batch b) /\ bwl_index b = r /\
  (forall l i, key_ok l i -> last_change (pending (bwl_Batch b)) (makeLeafKey r l i) =
     option_map (fun v => Some (uint256_Bytes v)) (bwl_view b l i)) /\
  forall k, (forall l i, key_ok l i -> k <> makeLeafKey r l i) ->
    last_change (pending (bwl_Batch b)) k = last_change cs k.

Lemma leaf_key_inj (r l i l' i' : Z) :
  0 <= r < 2 ^ 8 -> key_ok l i -> key_ok l' i' -> makeLeafKey r l i = makeLeafKey r l' i' -> (l, i) = (l', i').
Proof.
  intros Hr Hk Hk' E. assert (LeafKey r l i = LeafKey r l' i') as [= -> ->]; [|done].
  by apply key_bytes_inj.
Qed.

Lemma bwl_SetLeaf_ok (r : Z) (cs : list change) (b : BatchWithLeavesBuffer) (l i v : Z) :
  0 <= r < 2 ^ 8 -> bwl_ok r cs b -> key_ok l i ->
  exists b', BatchWithLeavesBuffer_SetLeaf l i v b = (Ok tt, b') /\ bwl_ok r cs b' /\
    bwl_view b' l i = Some v /\
    forall l' i', key_ok l' i' -> (l', i') <> (l, i) -> bwl_view b' l' i' = bwl_view b l' i'.
Proof.
  intros Hr (Hw & Hi & Hleaf & Hrest) Hk. unfold BatchWithLeavesBuffer_SetLeaf, bwl_view in *. rewrite Hi in *.
  destruct (Batch_Set_pending (bwl_Batch b) (makeLeafKey r l i) (uint256_Bytes v) Hw) as (b' & -> & Hw' & Hp).
  { by apply (key_bytes_nonempty (LeafKey r l i)). }
  change (take LeafKeyLength (makeLeafKey r l i)) with (makeLeafKey r l i).
  assert (forall l' i', key_ok l' i' -> (l', i') <> (l, i) -> makeLeafKey r l' i' <> makeLeafKey r l i) as Hne.
  { intros l' i' Hk' Hne E. by apply Hne, (leaf_key_inj r). }
  eexists. split; [reflexivity|]. unfold bwl_ok, bwl_view. cbn [bwl_Batch bwl_index bwl_buffer]. split; [|split].
  - repeat split; [done| |].
    + intros l' i' Hk'. rewrite Hp, last_change_snoc. cbn [last_change].
      destruct (decide (makeLeafKey r l' i' = makeLeafKey r l i)) as [->|Hd].
      * by rewrite lookup_insert_eq.
      * rewrite lookup_insert_ne by done. auto.
    + intros k Hkey. rewrite Hp, last_change_snoc. cbn [last_change].
      rewrite decide_False by (by apply Hkey). auto.
  - by rewrite lookup_insert_eq.
  - intros l' i' Hk' Hd. rewrite lookup_insert_ne; [done|]. by apply not_eq_sym, Hne.
Qed.

#[refine] Definition bwl_laws (r : Z) (Hr : 0 <= r < 2 ^ 8) (cs : list change) : BatchLaws BatchWithLeavesBuffer := {|
  batch_ok := bwl_ok r cs;
  view := bwl_view;
|}.
Proof.
  - intros b l i v (_ & _ & _) Hk E. cbn. unfold BatchWithLeavesBuffer_GetLeaf.
    change (take LeafKeyLength (makeLeafKey (bwl_index b) l i)) with (makeLeafKey (bwl_index b) l i).
    unfold bwl_view in E. by rewrite E.
  - intros b l i (_ & _ & _) Hk E. exists ErrNotFound. cbn. unfold BatchWithLeavesBuffer_GetLeaf.
    change (take LeafKeyLength (makeLeafKey (bwl_index b) l i)) with (makeLeafKey (bwl_index b) l i).
    unfold bwl_view in E. by rewrite E.
  - intros b l i v Hb Hk. by apply bwl_SetLeaf_ok.
Defined.

Lemma bwl_new_ok (r : Z) (b : Batch) :
  writable b -> (forall l i, key_ok l i -> last_change (pending b) (makeLeafKey r l i) = None) ->
  bwl_ok r (pending b) (NewBatchWithLeavesBuffer b r).
Proof.
  intros Hw Hn. split; [done|]. split; [done|]. split; [|done]. intros l i Hk.
      cbn [bwl_Batch NewBatchWithLeavesBuffer].
  rewrite Hn by done. unfold bwl_view. cbn [bwl_buffer NewBatchWithLeavesBuffer]. by rewrite lookup_empty.
Qed.
(** * Numbers of registries *)

Definition read_byte (o : option gobytes) : gores Z :=
  match o with Some (b :: _) => Ok b | _ => Throw ErrNotFound end.

Lemma FindRegistryIndex_ok (d : DB) (a : gobytes) :
  address_ok a ->
  FindRegistryIndex a d = (read_byte (contents d !! makeRegistryIndexKey a), d).
Proof.
  intros Ha. unfold FindRegistryIndex.
  rewrite (DB_Get_key d (RegistryIndexKey a) Ha : DB_Get d (makeRegistryIndexKey a) = _). cbn [key_bytes res_bind].
  by destruct (contents d !! makeRegistryIndexKey a) as [[|b l]|].
Qed.

(** The number the next new address gets. *)
Definition next_index (d : DB) : Z :=
  match contents d !! makeRegistryIndexCounterKey with Some (c :: _) => u8 (c + 1) | _ => 0 end.

Lemma getNextRegistryIndex_ok (d : DB) : runs getNextRegistryIndex d (next_index d) d.
Proof.
  unfold runs, getNextRegistryIndex, next_index.
  rewrite (DB_Get_key d CounterKey I : DB_Get d makeRegistryIndexCounterKey = _). cbn [key_bytes res_bind].
  by destruct (contents d !! makeRegistryIndexCounterKey) as [[|c l]|].
Qed.

Lemma ApplyAddressToIndex_known (d : DB) (a : gobytes) (b : Z) (l : gobytes) :
  address_ok a -> contents d !! makeRegistryIndexKey a = Some (b :: l) -> runs (ApplyAddressToIndex a) d b d.
Proof.
  intros Ha E. pose proof (FindRegistryIndex_ok d a Ha) as Hfind. rewrite E in Hfind.
  unfold runs, ApplyAddressToIndex, go_bind, go_try. by rewrite Hfind.
Qed.

Lemma next_index_u8 (d : DB) : u8 (next_index d) = next_index d.
Proof.
  unfold next_index. destruct (contents d !! makeRegistryIndexCounterKey) as [[|c l]|]; [done| |done].
  unfold u8. by rewrite Z.mod_mod.
Qed.

Lemma ApplyAddressToIndex_new (d : DB) (a : gobytes) :
  address_ok a -> contents d !! makeRegistryIndexKey a = None ->
  exists d', runs (ApplyAddressToIndex a) d (next_index d) d' /\
    contents d' = <[makeRegistryIndexCounterKey := [next_index d]]>
                    (<[makeRegistryIndexKey a := [next_index d]]> (contents d)).
Proof.
  intros Ha E. pose proof (FindRegistryIndex_ok d a Ha) as Hfind. rewrite E in Hfind.
  destruct (NewBatch_pending d) as [Hw0 Hp0].
  destruct (Batch_Set_pending (DB_NewBatch d) (makeRegistryIndexKey a) [next_index d] Hw0) as (b1 & E1 & Hw1 & Hp1);
    [by apply (key_bytes_nonempty (RegistryIndexKey a))|].
  destruct (Batch_Set_pending b1 makeRegistryIndexCounterKey [next_index d] Hw1) as (b2 & E2 & Hw2 & Hp2); [done|].
  destruct (WriteSync_contents b2 d Hw2) as (d' & E3 & Hc). rewrite Hp2, Hp1, Hp0 in
      Hc. exists d'. split; [|exact Hc].
  unfold runs, ApplyAddressToIndex. unfold go_bind at 1, go_try. rewrite Hfind. cbn [read_byte is_panic].
  rewrite (bind_runs _ _ d d (next_index d)) by (apply runs_wrap, getNextRegistryIndex_ok).
  unfold with_new_batch.
  erewrite (bind_runs _ _ (d, DB_NewBatch d) (d, b1) tt).
  2:{ apply runs_wrap. unfold runs, setIndex, go_bind, go_try, on_db. cbn [fst snd]. rewrite Hfind.
      cbn [read_byte is_panic].
      unfold on_local_batch. cbn [fst snd]. by rewrite next_index_u8, E1. }
  erewrite (bind_runs _ _ (d, b1) (d, b2) tt).
  2:{ apply runs_wrap. unfold runs, setIndexCounter, on_local_batch. cbn [fst snd]. by rewrite next_index_u8, E2. }
  erewrite (bind_runs _ _ (d, b2) (d', b2) tt); [done|].
  apply runs_wrap. unfold runs, write_local_batch. cbn [fst snd]. by rewrite E3.
Qed.
End Laws.
