(* ===== verification/GoLib.v ===== *)
(** What the command line and the servers use of the Go standard library and of
    [internal/utils]: paths ([filepath.Join] on Unix), host and port of an address
    ([net.SplitHostPort]), and the conversions of unsigned integers to and from big-endian
    bytes ([internal/utils/uint.go]). *)

From stdpp Require Import base list numbers strings.
From Stdlib Require Import ZArith Lia Ascii.
From S2P Require Import Prelude GoBase Storage.
Local Open Scope Z_scope.

(** The bytes of a text, for texts that are printed in errors. *)
Definition printed_text (s : string) : gobytes := map (fun c => Z.of_nat (nat_of_ascii c))
    (String.list_ascii_of_string s).

(** * Paths *)

(** [strings.Split(s, c)] *)
Fixpoint split_on (c : ascii) (s : string) : list string :=
  match s with
  | EmptyString => [EmptyString]
  | String a s' =>
      if Ascii.eqb a c then EmptyString :: split_on c s'
      else match split_on c s' with
           | x :: xs => String a x :: xs
           | [] => [String a EmptyString]
           end
  end.

(** The elements of a path, [out] in reverse: empty elements and [.] are dropped, [..] removes
    the element before it, and is kept at the front of a path that does not start at the root. *)
Fixpoint clean_elements (rooted : bool) (elements out : list string) : list string :=
  match elements with
  | [] => reverse out
  | e :: elements' =>
      if String.eqb e "" || String.eqb e "." then clean_elements rooted elements' out
      else if String.eqb e ".." then
        match out with
        | [] => clean_elements rooted elements' (if rooted then [] else [".."])
        | e' :: out' => clean_elements rooted elements' (if String.eqb e' ".." then ".." :: out else out')
        end
      else clean_elements rooted elements' (e :: out)
  end.

(** [filepath.Clean] *)
Definition filepath_Clean (path : string) : string :=
  let rooted := String.prefix "/" path in
  let body := String.concat "/" (clean_elements rooted (split_on "/" path) []) in
  if rooted then String "/" body else if String.eqb body "" then "." else body.

(** [filepath.Join]: empty elements at the front are left out. *)
Fixpoint filepath_Join (elem : list string) : string :=
  match elem with
  | [] => ""
  | e :: elem' => if String.eqb e "" then filepath_Join elem' else filepath_Clean (String.concat "/" elem)
  end.

Example join_home : filepath_Join ["/home/user/"; ".galacticad-merkle"] = "/home/user/.galacticad-merkle".
Proof. reflexivity. Qed.
Example join_dots : filepath_Join [""; "../a/./b"; "../c"] = "../a/c".
Proof. reflexivity. Qed.

(** * Addresses of servers *)

(** [strings.IndexByte] and [strings.LastIndexByte] *)
Fixpoint IndexByte (c : ascii) (s : string) : option nat :=
  match s with
  | EmptyString => None
  | String a s' => if Ascii.eqb a c then Some O else S <$> IndexByte c s'
  end.

Fixpoint LastIndexByte (c : ascii) (s : string) : option nat :=
  match s with
  | EmptyString => None
  | String a s' => match LastIndexByte c s' with
                   | Some i => Some (S i)
                   | None => if Ascii.eqb a c then Some O else None
                   end
  end.

Definition bytes_from (n : nat) (s : string) : string := String.substring n (String.length s - n) s.
Definition bytes_before (n : nat) (s : string) : string := String.substring 0 n s.

Definition address_error (why hostport : string) : go_error := Errorf why (printed_text hostport) None.

Definition missingPort : string := "missing port in address".
Definition tooManyColons : string := "too many colons in address".

(** [net.SplitHostPort]: the host, and from which byte on there must be no bracket. *)
Definition split_host (hostport : string) (i : nat) : go_error + (string * nat * nat) :=
  match hostport with
  | String "[" _ =>
      match IndexByte "]" hostport with
      | None => inl (address_error "missing ']' in address" hostport)
      | Some e =>
          if (S e =? String.length hostport)%nat then inl (address_error missingPort hostport)
          else if (S e =? i)%nat then inr (String.substring 1 (e - 1) hostport, 1%nat, S e)
          else if Ascii.eqb (default "000"%char (String.get (S e) hostport)) ":"
               then inl (address_error tooManyColons hostport)
               else inl (address_error missingPort hostport)
      end
  | _ =>
      let host := bytes_before i hostport in
      if IndexByte ":" host is Some _ then inl (address_error tooManyColons hostport) else inr (host, O, O)
  end.

Definition SplitHostPort (hostport : string) : go_error + (string * string) :=
  match LastIndexByte ":" hostport with
  | None => inl (address_error missingPort hostport)
  | Some i =>
      match split_host hostport i with
      | inl err => inl err
      | inr (host, j, k) =>
          if IndexByte "[" (bytes_from j hostport) is Some _ then inl (address_error
              "unexpected '[' in address" hostport)
          else if IndexByte "]" (bytes_from k hostport) is Some _ then inl (address_error
              "unexpected ']' in address" hostport)
          else inr (host, bytes_from (S i) hostport)
      end
  end.

Example split_default : SplitHostPort "localhost:50651" = inr ("localhost", "50651").
Proof. reflexivity. Qed.
Example split_v6 : SplitHostPort "[::1]:8480" = inr ("::1", "8480").
Proof. reflexivity. Qed.
Example split_bare_v6 : SplitHostPort "::1:8480" = inl (address_error tooManyColons "::1:8480").
Proof. reflexivity. Qed.

(** The host and the port are what is before and after the last colon. *)
Lemma last_index_split (c : ascii) (s : string) (i : nat) :
  LastIndexByte c s = Some i -> s = (String.append (bytes_before i s) (String c (bytes_from (S i) s))).
Proof.
  unfold bytes_before, bytes_from. revert i. induction s as [|a s IH]; intros i; cbn [LastIndexByte]; [done|].
  destruct (LastIndexByte c s) as [k|] eqn:E.
  - intros [= <-]. change (String a s = String a (String.append (String.substring 0 k s)
      (String c (String.substring (S k) (String.length s - S k) s)))). f_equal. by apply IH.
  - destruct (Ascii.eqb_spec a c) as [->|]; [|done]. intros [= <-].
    change (String c s = String c (String.substring 0 (String.length s - 0) s)). f_equal. rewrite Nat.sub_0_r.
    clear. induction s as [|b s IH]; [done|]. cbn. by f_equal.
Qed.

(** * Unsigned integers in big-endian bytes *)

Definition Uint8ToBigEndian (i : Z) : gobytes := set_byte 0 (u8 i) (make_bytes 1).
Definition Uint32ToBigEndian (i : Z) : gobytes := be_bytes 4 (u32 i).

(** [binary.BigEndian.Uint32] and [Uint64] look at the first bytes and panic when there are
    fewer. *)
Definition binary_BigEndian (n : nat) (bz : gobytes) : gores Z :=
  if (length bz <? n)%nat then Throw (Panic "index out of range") else Ok (be_value (take n bz)).

Definition BigEndianToUint8 (bz : gobytes) : gores Z :=
  match bz with
  | [] => Ok 0
  | b :: _ => Ok b
  end.

Definition BigEndianToUint32 (bz : gobytes) : gores Z :=
  if (length bz =? 0)%nat then Ok 0 else binary_BigEndian 4 bz.

Definition BigEndianToUint64 (bz : gobytes) : gores Z :=
  if (length bz =? 0)%nat then Ok 0 else binary_BigEndian 8 bz.

Lemma binary_big_endian_bytes (n : nat) (v : Z) (rest : gobytes) :
  0 <= v < 256 ^ Z.of_nat n -> binary_BigEndian n (be_bytes n v ++ rest) = Ok v.
Proof.
  intros Hv. unfold binary_BigEndian. rewrite length_app, be_bytes_length.
  destruct (Nat.ltb_spec (n + length rest) n); [lia|].
  rewrite take_app_length' by (by rewrite be_bytes_length). by rewrite be_value_bytes.
Qed.

(** What is written reads back, for every width. *)
Lemma big_endian_roundtrip (i : Z) :
  BigEndianToUint8 (Uint8ToBigEndian i) = Ok (u8 i) /\ BigEndianToUint32 (Uint32ToBigEndian i) = Ok (u32 i) /\
  BigEndianToUint64 (Uint64ToBigEndian i) = Ok (u64 i).
Proof.
  split; [done|]. unfold BigEndianToUint32, BigEndianToUint64, Uint32ToBigEndian, Uint64ToBigEndian.
  rewrite !be_bytes_length. cbn [Nat.eqb].
  rewrite <- (app_nil_r (be_bytes 4 _)), <- (app_nil_r (be_bytes 8 _)). unfold u32, u64.
  split; apply binary_big_endian_bytes; apply Z.mod_pos_bound; lia.
Qed.

(** ** The order of the bytes *)

Fixpoint bytes_lt (l l' : gobytes) : bool :=
  match l, l' with
  | [], b :: _ => true
  | b :: l, b' :: l' => (b <? b') || ((b =? b') && bytes_lt l l')
  | _, _ => false
  end.

Definition byte_range (b : Z) : Prop := 0 <= b < 256.

Lemma be_value_cons (b : Z) (l : gobytes) : be_value (b :: l) = b * 256 ^ Z.of_nat (length l) + be_value l.
Proof.
  induction l as [|c l IH] using rev_ind; [cbn; lia|].
  rewrite app_comm_cons, !be_value_snoc, IH, length_app. cbn [length].
  rewrite Nat2Z.inj_add, Z.pow_add_r by lia. change (256 ^ Z.of_nat 1) with 256. lia.
Qed.

Lemma be_value_range (l : gobytes) : Forall byte_range l -> 0 <= be_value l < 256 ^ Z.of_nat (length l).
Proof.
  induction 1 as [|b l Hb _ IH]; [done|]. rewrite be_value_cons. cbn [length].
  rewrite Nat2Z.inj_succ, Z.pow_succ_r by lia. unfold byte_range in Hb. nia.
Qed.

Lemma bytes_lt_value (l l' : gobytes) :
  Forall byte_range l -> Forall byte_range l' -> length l = length l' ->
  bytes_lt l l' = (be_value l <? be_value l').
Proof.
  intros Hl. revert l'. induction Hl as [|b l Hb Hl IH]; intros l' Hl' E; destruct l' as [|b' l']; try done.
  apply Forall_cons_1 in Hl' as [Hb' Hl']. injection E as E. cbn [bytes_lt]. rewrite IH by done.
      rewrite !be_value_cons.
  pose proof (be_value_range l Hl) as R. pose proof (be_value_range l' Hl') as R'. rewrite E in *.
  set (p := 256 ^ Z.of_nat (length l')) in *. apply eq_bool_prop_intro.
  rewrite Is_true_true, Is_true_true, orb_true_iff, andb_true_iff, Z.eqb_eq, !Z.ltb_lt. nia.
Qed.

Lemma be_bytes_range (n : nat) (v : Z) : Forall byte_range (be_bytes n v).
Proof.
  revert v. induction n as [|n IH]; intros v; [constructor|]. cbn [be_bytes]. apply Forall_app. split; [apply IH|].
  constructor; [|constructor]. apply Z.mod_pos_bound. lia.
Qed.

(** The bytes of two numbers are in the order of the numbers, as the comment of
    [Uint64ToBigEndian] says. *)
Lemma big_endian_sorted (i j : Z) :
  0 <= i < 2 ^ 64 -> 0 <= j < 2 ^ 64 -> bytes_lt (Uint64ToBigEndian i) (Uint64ToBigEndian j) = (i <? j).
Proof.
  intros Hi Hj. unfold Uint64ToBigEndian, u64. rewrite !Z.mod_small by done.
  rewrite bytes_lt_value; [|apply be_bytes_range..|by rewrite !be_bytes_length]. by rewrite !be_value_bytes.
Qed.

(** Input that is neither empty nor long enough panics. *)
Lemma big_endian_short (bz : gobytes) :
  (0 < length bz < 4)%nat -> BigEndianToUint32 bz = Throw (Panic "index out of range") /\
    BigEndianToUint64 bz = Throw (Panic "index out of range").
Proof.
  intros H. unfold BigEndianToUint32, BigEndianToUint64, binary_BigEndian.
  destruct (Nat.eqb_spec (length bz) 0); [lia|]. destruct (Nat.ltb_spec (length bz) 4); [|lia].
  destruct (Nat.ltb_spec (length bz) 8); [done|lia].
Qed.
