(* ===== verification/GoInstance.v ===== *)
(** Concrete instances of what the Go code calls: 256-bit integers in big-endian bytes, a
    database in memory, a small hash, and a context with a sequence of random numbers.  They
    satisfy the laws and evaluate the models on concrete inputs. *)

From stdpp Require Import base list numbers strings gmap.
From Stdlib Require Import ZArith Lia.
From S2P Require Import Prelude GoBase MerkleSpec SparseTree SparseTreeFacts Storage StorageFacts.
Local Open Scope Z_scope.

(** * 256-bit integers *)

Fixpoint strip_zeros (l : gobytes) : gobytes :=
  match l with
  | [] => []
  | b :: l' => if b =? 0 then strip_zeros l' else l
  end.

#[export] Instance big_endian : Uint256 := {
  uint256_FromBig z := (z mod 2 ^ 256, negb (z =? z mod 2 ^ 256));
  uint256_Bytes z := strip_zeros (be_bytes 32 z);
  uint256_SetBytes := be_value;
  uint256_Bytes32 := be_bytes 32;
}.

Lemma be_value_strip (l : gobytes) : be_value (strip_zeros l) = be_value l.
Proof.
  induction l as [|b l IH]; cbn [strip_zeros]; [done|]. destruct (Z.eqb_spec b 0) as [->|]; [|done].
  rewrite IH. done.
Qed.

Lemma be_fold_lower (l : gobytes) (a : Z) :
  Forall (fun b => 0 <= b) l -> 0 <= a -> a <= fold_left (fun a b => 256 * a + b) l a.
Proof.
  revert a. induction l as [|b l IH]; intros a Hl Ha; cbn; [lia|]. apply Forall_cons in Hl as [Hb Hl].
  specialize (IH (256 * a + b) Hl ltac:(lia)). lia.
Qed.

Lemma strip_zeros_nil (l : gobytes) :
  Forall (fun b => 0 <= b) l -> strip_zeros l = [] <-> be_value l = 0.
Proof.
  induction 1 as [|b l Hb Hl IH]; cbn [strip_zeros]; [done|]. destruct (Z.eqb_spec b 0) as [->|Hne].
  - rewrite IH. done.
  - split; [done|]. unfold be_value. cbn [fold_left]. pose proof (be_fold_lower l (256 * 0 + b) Hl ltac:(lia)). lia.
Qed.

Lemma be_bytes_nonneg (n : nat) (v : Z) : Forall (fun b => 0 <= b) (be_bytes n v).
Proof.
  revert v. induction n as [|n IH]; intros v; cbn [be_bytes]; [done|]. apply Forall_app. split; [done|].
  apply Forall_singleton. apply Z.mod_pos_bound. lia.
Qed.

#[export, refine] Instance big_endian_laws : Uint256Laws big_endian := {}.
Proof.
  - intros z Hz. cbn. rewrite Z.mod_small by lia. by rewrite Z.eqb_refl.
  - intros z Hz. change (be_value (strip_zeros (be_bytes 32 z)) = z). rewrite be_value_strip.
      by apply (be_value_bytes 32).
  - intros z Hz. change (strip_zeros (be_bytes 32 z) = [] <-> z = 0).
      rewrite strip_zeros_nil by apply be_bytes_nonneg.
    by rewrite (be_value_bytes 32).
  - intros z Hz. apply be_bytes_length.
  - intros z z' Hz Hz' E. by apply (be_bytes_inj 32).
Qed.

(** * A database in memory *)

#[export] Instance mem_db : KVDatabase := {
  DB := gmap gobytes gobytes;
  Batch := list change;
  DB_Get d k := Ok (default [] (d !! k));
  DB_Set k v := fun d => (Ok tt, <[k := v]> d);
  DB_NewBatch _ := [];
  Batch_Set k v := fun b => (Ok tt, b ++ [Put k v]);
  Batch_Delete k := fun b => (Ok tt, b ++ [Del k]);
  Batch_WriteSync b := fun d => (Ok tt, apply_changes b d);
}.

#[export, refine] Instance mem_db_laws : KVDatabaseLaws mem_db := {
  contents d := d;
  pending b := b;
  writable _ := True;
}.
Proof.
  - done.
  - intros d k v _. by eexists.
  - done.
  - intros b k v _ _. by eexists.
  - intros b k _ _. by eexists.
  - intros b d _. by eexists.
Defined.

(** * A hash and a context *)

#[export] Instance toy_poseidon : Poseidon := {
  poseidon_Hash a b := inr ((31 * a + 17 * b + 5) mod 1009);
}.

#[export, refine] Instance toy_poseidon_laws : PoseidonLaws toy_poseidon := { field_modulus := 1009 }.
Proof.
  - lia.
  - intros a b _ _. eexists. split; [reflexivity|]. by apply Z.mod_pos_bound.
Defined.

(** The k-th random number is [5 k + 2]; the context is cancelled at the checks [done] says. *)
Definition toy_env (done : nat -> bool) : GoEnv := {|
  ctx_done := done;
  ctx_Err := ContextError 1;
  ctx_Cause := ContextError 2;
  rand_Uint64 k := 5 * Z.of_nat k + 2;
|}.

#[export] Instance toy_active : GoEnv := toy_env (fun _ => false).
