(* ===== verification/SparseTreeTheorems.v ===== *)
(** Theorems about the sparse Merkle tree of [internal/zkregistry/sparse_tree.go]: every
    sequence of insertions keeps the stored nodes those of the Merkle tree over the leaves,
    inserting several leaves at once is inserting them one by one, proofs lead to the root,
    simulated batches return proofs that replay, and the behaviour at the bounds and on errors. *)

From stdpp Require Import base list numbers strings gmap pretty.
From Stdlib Require Import ZArith Lia.
From S2P Require Import Prelude GoBase MerkleSpec SparseTree SparseTreeFacts SparseTreeInsert.
From S2P Require Import SparseTreeProofs SparseTreeSimulation SparseTreeRuns StorageFacts GoInstance.
Local Open Scope Z_scope.

Section Theorems.
Context {U256 : Uint256} {UL : Uint256Laws U256} {PH : Poseidon} {PL : PoseidonLaws PH} {GE : GoEnv}.

Section Batch.
Context {B : Type} {TB : TreeLeafGetterSetter B} {BL : BatchLaws B}.

(** * Insertion *)

(** C1: [InsertLeaves], which hashes every touched node once and reuses one array for all
    levels, has the result of inserting the leaves one by one with [InsertLeaf]: both succeed,
    and every node of the tree, the root included, is that of the Merkle tree in which the last
    value given for an index is its leaf. *)
Theorem insert_leaves_is_insert_each (leaves : list TreeLeaf) (s : state B) (leaf : Z -> Z) :
  models s leaf -> leaves_ok s leaves ->
  exists s1 s2, runs (InsertLeaves leaves) s tt s1 /\ runs (InsertEach leaves) s tt s2 /\
    forall l i, inside (depth (st_tree s)) l i ->
      node s1 l i = node s2 l i /\ node s1 l i = tree_nodes hash (set_all leaf leaves) l i.
Proof.
  intros Hm Hl. destruct (InsertLeaves_models leaves s leaf Hm Hl) as (s1 & R1 & M1 & C1).
  destruct (InsertEach_models leaves s leaf Hm Hl) as (s2 & R2 & M2 & C2).
  exists s1, s2. split; [done|]. split; [done|]. intros l i Hi.
  rewrite (models_nodes s1 _ l i M1), (models_nodes s2 _ l i M2); [done|..];
    by rewrite ?(carries_on_depth _ _ C1), ?(carries_on_depth _ _ C2).
Qed.

(** ** Every reachable tree is a Merkle tree *)

(** The states that insertions and proofs lead to from an empty storage and an empty batch,
    with the leaves inserted so far. *)
Inductive reachable (d e : Z) : state B -> (Z -> Z) -> Prop :=
| reach_new (storage : TreeLeafGetter) (b : B) (w : world) :
    (forall l i, storage l i = Throw ErrNotFound) -> batch_ok b -> (forall l i, view b l i = None) ->
    reachable d e (mkState (NewSparseTree d e storage) b w) (fun _ => e)
| reach_insert (s s' : state B) (leaf : Z -> Z) (x v : Z) :
    reachable d e s leaf -> 0 <= x < 2 ^ d -> in_field v -> runs (InsertLeaf x v) s tt s' ->
    reachable d e s' (set_leaf leaf x v)
| reach_insert_all (s s' : state B) (leaf : Z -> Z) (leaves : list TreeLeaf) :
    reachable d e s leaf -> leaves_ok s leaves -> runs (InsertLeaves leaves) s tt s' ->
    reachable d e s' (set_all leaf leaves)
| reach_proof (s s' : state B) (leaf : Z -> Z) (x : Z) (p : MerkleProof) :
    context_active -> reachable d e s leaf -> 0 <= x < 2 ^ d ->
    runs (createProofWithBatch x) s p s' -> reachable d e s' leaf.

Lemma new_tree_models (d e : Z) (storage : TreeLeafGetter) (b : B) (w : world) :
  1 <= d <= 32 -> in_field e -> (forall l i, storage l i = Throw ErrNotFound) ->
  batch_ok b -> (forall l i, view b l i = None) ->
  models (mkState (NewSparseTree d e storage) b w) (fun _ => e).
Proof.
  intros Hd He Hs Hb Hv.
  assert (forall l i, node (mkState (NewSparseTree d e storage) b w) l i = empty_node hash e (Z.to_nat l)) as E.
  { intros l i. unfold node, stored. cbn [st_batch st_tree]. rewrite Hv. cbn. by rewrite Hs. }
  assert (tree_ok (NewSparseTree d e storage)) as Ht.
  { split; [unfold depth_ok; cbn; lia|]. split; [done|]. split; [|by left].
    intros l i _. right. exists ErrNotFound. by rewrite <- (Hs l i). }
  split; [split; [split; [done|split; [done|]]|cbn; lia]|split].
  - intros l i _. rewrite E. by apply empty_node_field.
  - intros l i Hl Hi. rewrite !E. by replace (Z.to_nat (l + 1)) with (S (Z.to_nat l)) by lia.
  - intros i _. by rewrite E.
Qed.

(** C16: from an empty tree, every sequence of insertions of one or of several leaves, with
    proofs computed in between, leads to a tree all of whose nodes are those of the Merkle tree
    over the leaves inserted; no insertion fails. *)
Theorem reachable_trees_are_merkle (d e : Z) (s : state B) (leaf : Z -> Z) :
  1 <= d <= 32 -> in_field e -> reachable d e s leaf ->
  depth (st_tree s) = d /\ (forall l i, inside d l i -> node s l i = tree_nodes hash leaf l i) /\
  forall x v, 0 <= x < 2 ^ d -> in_field v -> exists s', runs (InsertLeaf x v) s tt s'.
Proof.
  intros Hd He Hreach.
  assert (models s leaf /\ depth (st_tree s) = d) as [Hm D].
  { induction Hreach as [storage b w Hs Hb Hv|s s' leaf x v _ [IH D] Hx Hv R|s s' leaf leaves _ [IH D] Hl R
      |s s' leaf x p Hctx _ [IH D] Hx R].
    - split; [by apply new_tree_models|done].
    - destruct (InsertLeaf_models x v s leaf IH) as (s1 & R1 & M1 & C1); [by rewrite D|done|].
      destruct (runs_det _ _ _ _ _ _ R R1) as [_ ->]. by rewrite (carries_on_depth _ _ C1).
    - destruct (InsertLeaves_models leaves s leaf IH Hl) as (s1 & R1 & M1 & C1).
      destruct (runs_det _ _ _ _ _ _ R R1) as [_ ->]. by rewrite (carries_on_depth _ _ C1).
    - destruct (createProofWithBatch_models x s leaf Hctx IH) as (s1 & R1 & Q1 & _); [by rewrite D|].
      destruct (runs_det _ _ _ _ _ _ R R1) as [_ ->]. split; [by apply (models_quiet s)|].
      by rewrite (quiet_depth _ _ Q1). }
  split; [done|]. rewrite <- D. split; [by intros; apply models_nodes|].
  intros x v Hx Hv. destruct (InsertLeaf_models x v s leaf Hm Hx Hv) as (s' & R & _). by exists s'.
Qed.

(** ** Indices outside the tree *)

Lemma InsertLeaf_loop_frame (n : nat) (l x : Z) (s : state B) (N : Z -> Z -> Z) :
  state_ok s -> represents s N -> 0 <= l -> l + Z.of_nat n = depth (st_tree s) -> 0 <= x < 2 ^ 32 ->
  exists s' N', runs (InsertLeaf_loop n l (x / 2 ^ l)) s tt s' /\ represents s' N' /\ carries_on s s' /\
    (forall l' i', i' <> x / 2 ^ l' -> N' l' i' = N l' i').
Proof.
  revert l s N. induction n as [|n IH]; intros l s N Hs Hr Hl Hn Hx.
  { exists s, N. split; [apply runs_ret|]. split; [done|]. split; [by repeat split; try apply Hs|done]. }
  pose proof (state_depth s Hs) as Hd. pose proof (Z.pow_pos_nonneg 2 l).
  assert (0 <= x / 2 ^ l < 2 ^ 32) as Hi.
  { split; [apply Z.div_pos; lia|]. apply Z.div_lt_upper_bound; nia. }
  destruct (update_parent s N l (x / 2 ^ l) Hs Hr) as (s1 & s2 & R1 & R2 & Hr2 & C2); [lia|done|].
  assert (x / 2 ^ l / 2 = x / 2 ^ (l + 1)) as Ex.
  { rewrite Z.pow_add_r, Z.pow_1_r by lia. apply Z.div_div; lia. }
  rewrite Ex in *.
  destruct (IH (l + 1) s2 _ (proj1 C2) Hr2) as (s3 & N3 & R3 & Hr3 & C3 & Hsame);
    [lia|rewrite (carries_on_depth _ _ C2); lia|done|].
  exists s3, N3. split; [|split; [done|split; [by apply (carries_on_trans _ s2)|]]].
  - cbn [InsertLeaf_loop]. eapply runs_bind; [apply runs_wrap, R1|]. cbv zeta. rewrite Ex.
    eapply runs_bind; [apply runs_wrap, R2|].
    assert (u8 (l + 1) = l + 1) as -> by (apply Z.mod_small; lia). exact R3.
  - intros l' i' Hne. rewrite Hsame by done. apply set_node_other.
    destruct (decide (l' = l + 1)) as [->|]; [by right|by left].
Qed.

(** C28: [InsertLeaf] does not reject an index outside the tree: it succeeds, and every node of
    the tree, the root included, stays as it was. *)
Theorem insert_outside_keeps_tree (x v : Z) (s : state B) :
  addressable s -> 2 ^ depth (st_tree s) <= x < 2 ^ 32 -> in_field v ->
  exists s', runs (InsertLeaf x v) s tt s' /\
    forall l i, inside (depth (st_tree s)) l i -> node s' l i = node s l i.
Proof.
  intros [Hs Hd] Hx Hv. pose proof (state_depth s Hs) as Hd1.
  pose proof (Z.pow_pos_nonneg 2 (depth (st_tree s))).
  destruct (batch_SetLeaf_ok s (node s) 0 x v Hs (represents_node s)) as (s1 & R1 & Hs1 & Hr1 & T1 & W1);
    [split; lia|done|].
  destruct (InsertLeaf_loop_frame (Z.to_nat (depth (st_tree s))) 0 x s1 _ Hs1 Hr1)
    as (s2 & N2 & R2 & Hr2 & C2 & Hsame); [lia|rewrite T1; lia|lia|].
  exists s2. split.
  - unfold InsertLeaf. eapply runs_bind; [reflexivity|]. eapply runs_bind; [apply runs_wrap, R1|].
    change (2 ^ 0) with 1 in R2. by rewrite Z.div_1_r in R2.
  - intros l i Hi. rewrite (Hr2 l i (index_key _ _ _ Hd Hi)). destruct Hi as [Hl Hi].
    assert (2 ^ depth (st_tree s) = 2 ^ l * 2 ^ (depth (st_tree s) - l)) as Epow
      by (rewrite <- Z.pow_add_r by lia; f_equal; lia).
    pose proof (Z.pow_pos_nonneg 2 l).
    assert (2 ^ (depth (st_tree s) - l) <= x / 2 ^ l) by (apply Z.div_le_lower_bound; lia).
    rewrite Hsame by lia. apply set_node_other.
    destruct (decide (l = 0)) as [->|]; [right|by left]. rewrite Z.sub_0_r in Hi. lia.
Qed.

(** * Proofs *)

(** In a batch whose nodes are those of a Merkle tree, the proof of a leaf holds the leaf's
    value, one sibling per level and the root, and hashing the leaf with the siblings gives the
    root; computing it changes no node. *)
Theorem batch_proofs_verify (x : Z) (s : state B) (leaf : Z -> Z) :
  context_active -> models s leaf -> 0 <= x < 2 ^ depth (st_tree s) ->
  exists s' p, runs (createProofWithBatch x) s p s' /\
    Proof_Leaf p = leaf x /\ Proof_Index p = x /\ Proof_Root p = tree_root hash (depth (st_tree s)) leaf /\
    Z.of_nat (length (Proof_Path p)) = depth (st_tree s) /\
    root_of hash (Proof_Leaf p) (Proof_Path p) (Proof_Index p) = Proof_Root p /\
    (forall l i, node s' l i = node s l i).
Proof.
  intros Hctx Hm Hx. pose proof (models_depth _ _ Hm) as Hd.
  destruct (createProofWithBatch_models x s leaf Hctx Hm Hx) as (s' & R & Q & _).
  eexists s', _. split; [exact R|]. cbn [Proof_Leaf Proof_Index Proof_Root Proof_Path].
  repeat split; try done.
  - unfold tree_path. rewrite siblings_length. lia.
  - apply tree_path_root; [lia|done].
  - intros l i. by apply quiet_node.
Qed.

(** A proof from the storage of a consistent tree leads from the stored leaf, or the empty
    leaf, to the stored root. *)
Theorem storage_proofs_verify (x : Z) (s : state B) :
  let d := depth (st_tree s) in
  context_active -> tree_ok (st_tree s) -> d <= 32 -> consistent hash d (stored (st_tree s)) ->
  0 <= x < 2 ^ d ->
  exists s' p, runs (CreateProof x) s p s' /\
    Proof_Leaf p = stored (st_tree s) 0 x /\ Proof_Root p = stored (st_tree s) d 0 /\
    Z.of_nat (length (Proof_Path p)) = d /\
    root_of hash (Proof_Leaf p) (Proof_Path p) (Proof_Index p) = Proof_Root p.
Proof.
  intros d Hctx Ht Hd Hc Hx. subst d. pose proof Ht as (Hd1 & _). unfold depth_ok in Hd1.
  destruct (CreateProof_ok x s Hctx Ht Hd Hx) as (s' & R & Q).
  eexists s', _. split; [exact R|]. cbn [Proof_Leaf Proof_Index Proof_Root Proof_Path].
  repeat split; [rewrite siblings_length; lia|].
  apply (siblings_root hash _ _ _ 0 x Hc); [|lia]. split; [lia|]. by rewrite Z.sub_0_r.
Qed.

(** * Simulated batches *)

(** C9: [SimulateBatchOperations] is the abstract batch over the stored leaves: it returns the
    current root and, per operation, the index and the path that the abstract batch computes
    from the leaves as the operations before left them; where the abstract batch has no answer
    (no random index hits an empty leaf, no leaf holds the value, an unknown operation) it
    returns an error.  The caller's batch is not touched. *)
Theorem simulation_refines_spec (ops : list LeafOperation) (s : state B) :
  let t := st_tree s in
  context_active -> tree_ok t -> depth t <= 32 -> consistent hash (depth t) (stored t) ->
  Forall (fun op => in_field (Leaf_Value (Operation_Leaf op))) ops ->
  exists c s', SimulateBatchOperations ops s = (c, s') /\ st_batch s' = st_batch s /\
    match spec_batch (depth t) (emtpyLeaf t) ops (stored t 0, draws (st_world s)) with
    | Some (rs, _) => c = Ok (tree_root hash (depth t) (stored t 0), rs)
    | None => exists e, c = Throw e /\ is_panic e = false
    end.
Proof.
  intros t Hctx Ht Hd Hc Hops.
  destruct (SimulateBatchOperations_agrees ops s Hctx Ht Hd Hc Hops) as (c & s' & E & (Hb & _) & Hspec).
  by exists c, s'.
Qed.

(** C10: the proofs of a simulated batch can be replayed against the initial root: each path
    leads from the old leaf of its operation to the root that the operations before produced,
    and with the new leaf to the root for the next operation; the last root is that of the
    Merkle tree with all operations applied. *)
Theorem simulated_proofs_replay (ops : list LeafOperation) (s s' : state B) (root : Z)
    (rs : list BatchProofResult) :
  let t := st_tree s in
  context_active -> tree_ok t -> depth t <= 32 -> consistent hash (depth t) (stored t) ->
  Forall (fun op => in_field (Leaf_Value (Operation_Leaf op))) ops ->
  runs (SimulateBatchOperations ops) s (root, rs) s' ->
  root = stored t (depth t) 0 /\ exists leaf' k',
    spec_batch (depth t) (emtpyLeaf t) ops (stored t 0, draws (st_world s)) = Some (rs, (leaf', k')) /\
    replay (emtpyLeaf t) root ops rs = Some (tree_root hash (depth t) leaf').
Proof.
  intros t Hctx Ht Hd Hc Hops R.
  destruct (SimulateBatchOperations_agrees ops s Hctx Ht Hd Hc Hops) as (c & s1 & E & _ & Hspec).
  fold t in Hspec. unfold runs in R. rewrite E in R. injection R as -> ->.
  destruct (spec_batch _ _ ops _) as [[rs' [leaf' k']]|] eqn:Es; [|by destruct Hspec as (e & [=] & _)].
  injection Hspec as -> ->. pose proof Ht as (Hd1 & _). unfold depth_ok in Hd1. split.
  - symmetry. apply (consistent_unique hash (depth t)); [done|apply tree_nodes_consistent|done|].
    split; [lia|]. rewrite Z.sub_diag. lia.
  - exists leaf', k'. split; [done|]. eapply spec_batch_replay; [lia|exact Es].
Qed.

(** * Reading nodes *)

(** Reading a node from the storage on every branch: the stored value, the hash of an empty
    branch when there is none (with or without the cache filled, and filling it correctly), the
    wrapped error of a failing storage, and an error for a level above the root. *)
Theorem storage_reads_every_branch (l i : Z) (s : state B) :
  let t := st_tree s in
  depth_ok t -> in_field (emtpyLeaf t) -> cache_ok t -> 0 <= l ->
  exists s', quiet s s' /\
    getLeafFromStorage l i s =
      (if depth t <? l then Throw (invalid_level t l)
       else match storageLeafGetter t l i with
            | Ok v => Ok v
            | Throw e =>
                if is_panic e then Throw e
                else if is_not_found e then Ok (merkle hash (fun _ => emtpyLeaf t) (Z.to_nat l) 0)
                else Throw (Errorf "get TreeLeaf: %w" [] (Some e))
            | OutOfFuel => OutOfFuel
            end, s').
Proof.
  intros t Hd He Hc Hl. subst t. unfold getLeafFromStorage. rewrite (bind_runs get_tree _ s s _ eq_refl).
  destruct (Z.ltb_spec (depth (st_tree s)) l) as [|Hle]; [by exists s; split; [apply quiet_refl|]|].
  unfold go_bind, go_try, go_res. destruct (storageLeafGetter (st_tree s) l i) as [v|e|];
    [by exists s; split; [apply quiet_refl|]| |by exists s; split; [apply quiet_refl|]].
  destruct (is_panic e); [by exists s; split; [apply quiet_refl|]|].
  destruct (is_not_found e); cbn [negb]; [|by exists s; split; [apply quiet_refl|]].
  destruct (getEmptyBranchValue_ok s l Hd He Hc) as (s' & R & Q & _); [lia|].
  exists s'. split; [done|]. by rewrite merkle_empty.
Qed.

(** C29: the hashes of empty branches for every depth an 8-bit number can hold: an error for
    depth 0, the roots of empty trees for depths 1 to 254, and a panic for depth 255, where the
    length of the slice wraps around to 0. *)
Theorem empty_branch_hashes (t : SparseMerkleTree) :
  in_field (emtpyLeaf t) -> 0 <= depth t < 2 ^ 8 ->
  calculateEmptyBranchHashes t =
    if depth t =? 0 then Throw (Errorf "invalid tree depth" [] None)
    else if depth t =? 255 then Throw (Panic "index out of range")
    else Ok (map (fun n => merkle hash (fun _ => emtpyLeaf t) n 0) (seq 0 (S (Z.to_nat (depth t))))).
Proof.
  intros He Hd. destruct (Z.eqb_spec (depth t) 0) as [E0|]; [by unfold calculateEmptyBranchHashes; rewrite E0|].
  destruct (Z.eqb_spec (depth t) 255) as [E|]; [by unfold calculateEmptyBranchHashes; rewrite E|].
  rewrite calculateEmptyBranchHashes_ok by (unfold depth_ok; lia || done).
  f_equal. apply map_ext. intros k. by rewrite merkle_empty.
Qed.

(** * Searches *)

(** C30: [GetRandomEmptyLeafIndex] returns the first of ten random indices below 2^depth that
    the storage does not have, and an error when it has all ten; for depths from 64 on, where
    the number of leaves wraps around to 0, it panics. *)
Theorem random_empty_index (s : state B) :
  context_active -> cache_ok (st_tree s) ->
  (forall i, match storageLeafGetter (st_tree s) 0 i with Ok _ => True | Throw e => is_panic e = false |
      OutOfFuel => False end) ->
  (1 <= depth (st_tree s) <= 32 ->
     fst (GetRandomEmptyLeafIndex s) =
       match find_free (storageLeafGetter (st_tree s)) (depth (st_tree s)) 10 (draws (st_world s)) with
       | Some x => Ok x
       | None => Throw (Errorf "could not find an empty leaf index" [] None)
       end) /\
  (64 <= depth (st_tree s) < 2 ^ 8 ->
     fst (GetRandomEmptyLeafIndex s) = Throw (Panic "integer divide by zero")).
Proof.
  intros Hctx Hc Hg. split; intros Hd.
  - destruct (GetRandomEmptyLeafIndex_loop_ok 10 s Hctx Hd Hc Hg) as (s' & _ & E).
    unfold GetRandomEmptyLeafIndex, maxIterationsEmptyLeafProof. by rewrite E.
  - unfold GetRandomEmptyLeafIndex, maxIterationsEmptyLeafProof. cbn [GetRandomEmptyLeafIndex_loop].
    destruct (check_ctx_ok ctx_Cause s Hctx Hc) as (s1 & R1 & Q1 & _).
    rewrite (bind_runs _ _ _ _ _ R1).
    assert (maxLeaves (st_tree s1) = 0) as E0.
    { unfold maxLeaves, u64. rewrite (quiet_depth _ _ Q1), Z.shiftl_1_l.
      replace (depth (st_tree s)) with (depth (st_tree s) - 64 + 64) by lia.
      rewrite Z.pow_add_r by lia. apply Z.mod_mul. lia. }
    assert (exists s2, random_index s1 = (Throw (Panic "integer divide by zero"), s2)) as [s2 E2].
    { unfold random_index. rewrite (bind_runs get_tree _ s1 s1 _ eq_refl). rewrite E0. eexists. reflexivity. }
    unfold go_bind at 1. by rewrite E2.
Qed.

(** The search for the leaf of a revocation returns the smallest index that holds the
    value, and an error exactly when no leaf of the tree holds it. *)
Theorem revocation_search (v : Z) (s : state B) (leaf : Z -> Z) :
  context_active -> models s leaf ->
  exists s', quiet s s' /\
    ((exists x, findLeafByValueInSimulation v s = (Ok x, s') /\ 0 <= x < 2 ^ depth (st_tree s) /\
        leaf x = v /\ forall j, 0 <= j < x -> leaf j <> v) \/
     (findLeafByValueInSimulation v s = (Throw (Errorf "leaf with value not found" [] None), s') /\
        forall j, 0 <= j < 2 ^ depth (st_tree s) -> leaf j <> v)).
Proof.
  intros Hctx Hm. pose proof (models_depth _ _ Hm) as Hd. pose proof (Z.pow_pos_nonneg 2 (depth (st_tree s))).
  destruct (findLeafByValueInSimulation_ok v s leaf Hctx Hm) as (s' & Q & _ & E). exists s'. split; [done|].
  destruct (find_value leaf v _ 0) as [x|] eqn:F.
  - left. exists x. apply find_value_some in F as (Hx & Hv & Hmin). rewrite Z2Nat.id in Hx by lia.
    repeat split; [done|lia|lia|done|done].
  - right. split; [done|]. intros j Hj. apply (find_value_none _ _ _ _ F). rewrite Z2Nat.id; lia.
Qed.

(** * Cancellation *)

(** When the context is cancelled, proofs and simulated batches stop at their next look at
    it and return the context's error; the search for an empty leaf returns its cause. *)
Theorem cancellation_is_reported (x : Z) (op : LeafOperation) (ops : list LeafOperation) (s : state B) :
  tree_ok (st_tree s) -> depth (st_tree s) <= 32 -> 0 <= x < 2 ^ depth (st_tree s) ->
  ctx_done (checks (st_world s)) = true ->
  fst (CreateProof x s) = Throw ctx_Err /\
  fst (SimulateBatchOperations (op :: ops) s) = Throw ctx_Err /\
  fst (GetRandomEmptyLeafIndex s) = Throw ctx_Cause.
Proof.
  intros Ht Hd Hx Hdone. pose proof Ht as (Hd1 & _). unfold depth_ok in Hd1.
  assert (2 ^ depth (st_tree s) <= 2 ^ 32) by (apply Z.pow_le_mono_r; lia).
  split; [|split].
  - destruct (getLeafFromStorage_ok s 0 x Ht) as (s1 & R1 & Q1 & W1); [lia|lia|].
    unfold CreateProof. rewrite (bind_runs get_tree _ s s _ eq_refl).
    rewrite (bind_runs _ _ _ _ _ (runs_wrap _ _ _ _ _ _ R1)).
    destruct (Z.to_nat (depth (st_tree s))) as [|n] eqn:En; [lia|]. cbn [CreateProof_loop].
    unfold go_bind at 1 2, check_ctx. by rewrite W1, Hdone.
  - destruct (getLeafFromStorage_ok s (depth (st_tree s)) 0 Ht) as (s1 & R1 & Q1 & W1); [lia|lia|].
    unfold SimulateBatchOperations. rewrite (bind_runs _ _ s s1 (stored (st_tree s) (depth (st_tree s)) 0)).
    2:{ apply runs_wrap. unfold GetRoot. eapply runs_bind; [reflexivity|exact R1]. }
    rewrite (bind_runs get_tree _ s1 s1 _ eq_refl). unfold go_bind at 1, on_batch. cbn [simulate_loop].
    unfold go_bind at 1, simulate_operation. unfold go_bind at 1, check_ctx. cbn [st_world].
    by rewrite W1, Hdone.
  - unfold GetRandomEmptyLeafIndex, maxIterationsEmptyLeafProof. cbn [GetRandomEmptyLeafIndex_loop].
    unfold go_bind at 1, check_ctx. by rewrite Hdone.
Qed.
End Batch.

(** * The simulation batch *)

(** A simulation batch returns what was last set for a node, and the storage's answer for
    all others: no two nodes share a key of the buffer, although keys are printed numbers. *)
Theorem simulation_batch_reads_back (b b' : SimulationBatch) (l i v l' i' : Z) :
  key_ok l i -> key_ok l' i' -> runs (SimulationBatch_SetLeaf l i v) b tt b' ->
  SimulationBatch_GetLeaf b' l' i' =
    if decide ((l', i') = (l, i)) then Ok v else SimulationBatch_GetLeaf b l' i'.
Proof.
  intros Hk Hk' [= <-]. unfold SimulationBatch_GetLeaf. cbn [sim_buffer sim_storage].
  destruct (decide _) as [[= -> ->]|Hne]; [by rewrite lookup_insert_eq|].
  rewrite lookup_insert_ne; [done|]. contradict Hne. symmetry. by apply makeSimKey_inj.
Qed.
End Theorems.

(** * Witnesses: a small hash, a tree of depth 3 over an empty storage *)

Definition toy_storage : TreeLeafGetter := fun _ _ => Throw ErrNotFound.
Definition toy_state : state SimulationBatch :=
  mkState (NewSparseTree 3 7 toy_storage) (NewSimulationBatch toy_storage) (mkWorld 0 0).
Definition toy_leaves : list TreeLeaf := [mkTreeLeaf 1 20; mkTreeLeaf 6 30; mkTreeLeaf 1 40].
Definition toy_operations : list LeafOperation :=
  [mkLeafOperation (mkTreeLeaf 0 20) OperationAddition; mkLeafOperation (mkTreeLeaf 0 30) OperationAddition;
   mkLeafOperation (mkTreeLeaf 0 20) OperationRevocation].

Lemma toy_view (l i : Z) : view (NewSimulationBatch toy_storage) l i = None.
Proof. cbn. unfold sim_view. cbn [sim_buffer sim_storage NewSimulationBatch]. by rewrite lookup_empty. Qed.

Lemma toy_storage_ok : storage_ok toy_storage.
Proof. intros l i _. right. by exists ErrNotFound. Qed.

Lemma toy_models : models toy_state (fun _ => 7).
Proof.
  apply new_tree_models; [lia|split; cbn; lia|done|apply toy_storage_ok|apply toy_view].
Qed.

Lemma toy_tree_ok : tree_ok (st_tree toy_state).
Proof. apply toy_models. Qed.

Lemma toy_context : context_active.
Proof. done. Qed.

Lemma toy_depth : depth (st_tree toy_state) <= 32.
Proof. cbn. lia. Qed.

Lemma toy_consistent : consistent hash 3 (stored (st_tree toy_state)).
Proof.
  apply (consistent_ext hash 3 (node toy_state)); [|apply toy_models].
  intros l i _. unfold node, toy_state. cbn [st_batch]. by rewrite toy_view.
Qed.

Lemma toy_operations_ok : Forall (fun op => in_field (Leaf_Value (Operation_Leaf op))) toy_operations.
Proof. repeat constructor; cbn; lia. Qed.

Lemma insert_leaves_is_insert_each_witness :
  exists s1 s2, runs (InsertLeaves toy_leaves) toy_state tt s1 /\ runs (InsertEach toy_leaves) toy_state tt s2 /\
    forall l i, inside 3 l i -> node s1 l i = node s2 l i /\
      node s1 l i = tree_nodes hash (set_all (fun _ => 7) toy_leaves) l i.
Proof.
  apply (insert_leaves_is_insert_each toy_leaves toy_state (fun _ => 7) toy_models).
  repeat constructor; cbn; lia.
Defined.

Lemma reachable_trees_are_merkle_witness :
  exists s, reachable 3 7 s (set_leaf (fun _ => 7) 5 9) /\ node s 3 0 = tree_root hash 3 (set_leaf (fun _ => 7) 5 9).
Proof.
  assert (reachable 3 7 (snd (InsertLeaf 5 9 toy_state)) (set_leaf (fun _ => 7) 5 9)) as Hr.
  { eapply reach_insert.
    - apply (reach_new 3 7 toy_storage (NewSimulationBatch toy_storage) (mkWorld 0 0));
        [done|apply toy_storage_ok|apply toy_view].
    - cbn. lia.
    - split; cbn; lia.
    - apply injective_projections; [vm_compute; reflexivity|reflexivity]. }
  exists (snd (InsertLeaf 5 9 toy_state)). split; [exact Hr|].
  apply (reachable_trees_are_merkle 3 7 _ _ ltac:(lia) ltac:(split; cbn; lia) Hr). split; [lia|cbn; lia].
Defined.

Lemma insert_outside_keeps_tree_witness :
  exists s', runs (InsertLeaf 9 5) toy_state tt s' /\ forall l i, inside 3 l i -> node s' l i = node toy_state l i.
Proof. apply (insert_outside_keeps_tree 9 5 toy_state); [apply toy_models|cbn; lia|split; cbn; lia]. Defined.

Lemma batch_proofs_verify_witness :
  exists s' p, runs (createProofWithBatch 4) toy_state p s' /\
    root_of hash (Proof_Leaf p) (Proof_Path p) (Proof_Index p) = Proof_Root p.
Proof.
  destruct (batch_proofs_verify 4 toy_state (fun _ => 7)) as (s' & p & R & _ & _ & _ & _ & V & _);
    [done|apply toy_models|cbn; lia|]. by exists s', p.
Defined.

Lemma storage_proofs_verify_witness :
  exists s' p, runs (CreateProof 4) toy_state p s' /\
    root_of hash (Proof_Leaf p) (Proof_Path p) (Proof_Index p) = Proof_Root p.
Proof.
  destruct (storage_proofs_verify 4 toy_state) as (s' & p & R & _ & _ & _ & V);
    [done|apply toy_tree_ok|cbn; lia|apply toy_consistent|cbn; lia|]. by exists s', p.
Defined.

Lemma simulation_refines_spec_witness :
  exists c s', SimulateBatchOperations toy_operations toy_state = (c, s') /\
    exists rs, c = Ok (tree_root hash 3 (fun _ => 7), rs) /\ map Result_Index rs = [2; 7; 2].
Proof.
  destruct (simulation_refines_spec toy_operations toy_state) as (c & s' & E & _ & Hc);
    [done|apply toy_tree_ok|cbn; lia|apply toy_consistent|apply toy_operations_ok|].
  exists c, s'. split; [exact E|]. eexists. split; [exact Hc|]. vm_compute. reflexivity.
Defined.

Lemma simulated_proofs_replay_witness :
  exists root rs, fst (SimulateBatchOperations toy_operations toy_state) = Ok (root, rs) /\
    exists leaf', replay 7 root toy_operations rs = Some (tree_root hash 3 leaf').
Proof.
  destruct (SimulateBatchOperations toy_operations toy_state) as [c s'] eqn:E.
  assert (c = fst (SimulateBatchOperations toy_operations toy_state)) as Hc by (by rewrite E).
  vm_compute in Hc. subst c. eexists _, _. split; [reflexivity|].
  destruct (simulated_proofs_replay toy_operations toy_state s' _ _ toy_context toy_tree_ok toy_depth
    toy_consistent toy_operations_ok E) as (_ & leaf' & k' & _ & R).
  exists leaf'. exact R.
Defined.

Lemma storage_reads_every_branch_witness :
  exists s', getLeafFromStorage 2 1 toy_state = (Ok (merkle hash (fun _ => 7) 2 0), s').
Proof.
  destruct (storage_reads_every_branch 2 1 toy_state) as (s' & _ & E);
    [apply toy_tree_ok|split; cbn; lia|by left|lia|].
  exists s'. exact E.
Defined.

Lemma empty_branch_hashes_witness :
  calculateEmptyBranchHashes (NewSparseTree 255 7 toy_storage) = Throw (Panic "index out of range").
Proof. apply (empty_branch_hashes (NewSparseTree 255 7 toy_storage)); [split; cbn; lia|cbn; lia]. Defined.

Lemma random_empty_index_witness : fst (GetRandomEmptyLeafIndex toy_state) = Ok 2.
Proof.
  destruct (random_empty_index toy_state) as [E _]; [apply toy_context|by left|done|].
  rewrite E; [vm_compute; reflexivity|cbn; lia].
Defined.

Lemma revocation_search_witness :
  exists s', findLeafByValueInSimulation 8 toy_state = (Throw (Errorf "leaf with value not found" [] None), s').
Proof.
  destruct (revocation_search 8 toy_state (fun _ => 7)) as (s' & _ & [(x & _ & _ & E & _)|[E _]]);
    [done|apply toy_models|discriminate E|]. by exists s'.
Defined.

Lemma cancellation_is_reported_witness :
  fst (@CreateProof big_endian toy_poseidon (toy_env (fun _ => true)) SimulationBatch 4 toy_state)
      = Throw (ContextError 1).
Proof.
  refine (proj1 (@cancellation_is_reported big_endian big_endian_laws toy_poseidon toy_poseidon_laws (toy_env
      (fun _ => true))
    SimulationBatch 4 (mkLeafOperation (mkTreeLeaf 0 20) OperationAddition) [] toy_state _ _ _ _)).
  - apply toy_tree_ok.
  - cbn. lia.
  - cbn. lia.
  - reflexivity.
Defined.

Lemma simulation_batch_reads_back_witness :
  SimulationBatch_GetLeaf (snd (SimulationBatch_SetLeaf 1 11 5 (NewSimulationBatch toy_storage))) 11 1
  = Throw ErrNotFound.
Proof.
  rewrite (simulation_batch_reads_back (NewSimulationBatch toy_storage) _ 1 11 5 11 1);
    [reflexivity|split; lia..|reflexivity].
Defined.
