(* ===== verification/Registry.v ===== *)
(** A registry of certificates ([internal/zkregistry/zk_certificate_registry.go]): its tree over
    the leaf storage, committing operations to a batch, and proofs of leaves by value; the
    buffer of operations ([operations_buffer.go]), the progress flag ([progress.go]), and the
    commit of an indexer job ([internal/indexer/ZkCertificateRegistry.go]). *)

From stdpp Require Import base list numbers strings gmap.
From Stdlib Require Import ZArith Lia.
From S2P Require Import Prelude GoBase SparseTree Storage.
Local Open Scope Z_scope.

(** * Data *)

Record Metadata : Type := mkMetadata {
  Meta_Address : gobytes;
  Meta_Depth : TreeLevel;
  Meta_EmptyValue : Z;
  Meta_InitBlockHeight : Z;
  Meta_Description : string;
  Meta_Index : RegistryIndex
}.

(** The tree object of a registry: a [SparseMerkleTree] whose [storageLeafGetter] is a view of
    the leaf storage.  The view reads the database as it is at the time of the call. *)
Record TreeObject : Type := mkTreeObject {
  obj_emtpyLeaf : Z;
  obj_depth : TreeLevel;
  obj_emptyBranchLevels : option (list Z);
  obj_view : LeafView
}.

(** [IndexerProgressTracker]: 1 when the indexer is on the head of the chain. *)
Record Progress : Type := mkProgress { onHead : Z }.
Definition NewProgress : Progress := mkProgress 0.
Definition IsOnHead (p : Progress) : bool := onHead p =? 1.
Definition SetOnHead (p : Progress) (on : bool) : Progress := mkProgress (if on then 1 else 0).

Record ZKCertificateRegistry : Type := mkZKCertificateRegistry {
  reg_metadata : Metadata;
  reg_sparseTree : TreeObject;
  reg_leafView : LeafView;
  reg_progressTracker : Progress
}.

Definition set_cache (levels : option (list Z)) (reg : ZKCertificateRegistry) : ZKCertificateRegistry :=
  let t := reg_sparseTree reg in
  mkZKCertificateRegistry (reg_metadata reg)
    (mkTreeObject (obj_emtpyLeaf t) (obj_depth t) levels (obj_view t))
    (reg_leafView reg) (reg_progressTracker reg).

(** * The buffer of operations

    A slice: an array and a length.  [Reset] keeps the array, so a slice that [Operations]
    returned before is overwritten by later appends. *)
Record OperationsBuffer : Type := mkOperationsBuffer {
  ops_array : list LeafOperation;
  ops_len : nat
}.

Definition NewOperationsBuffer : OperationsBuffer := mkOperationsBuffer [] 0.

Definition append_operation (op : LeafOperation) (b : OperationsBuffer) : OperationsBuffer :=
  if (ops_len b <? length (ops_array b))%nat
  then mkOperationsBuffer (<[ops_len b := op]> (ops_array b)) (S (ops_len b))
  else mkOperationsBuffer (take (ops_len b) (ops_array b) ++ [op]) (S (ops_len b)).

Definition AppendAddition (index : TreeLeafIndex) (value : Z) (b : OperationsBuffer) : OperationsBuffer :=
  append_operation (mkLeafOperation (mkTreeLeaf index value) OperationAddition) b.
Definition AppendRevocation (index : TreeLeafIndex) (value : Z) (b : OperationsBuffer) : OperationsBuffer :=
  append_operation (mkLeafOperation (mkTreeLeaf index value) OperationRevocation) b.
Definition Operations (b : OperationsBuffer) : list LeafOperation := take (ops_len b) (ops_array b).
Definition Reset (b : OperationsBuffer) : OperationsBuffer := mkOperationsBuffer (ops_array b) 0.

Section Code.
Context {U256 : Uint256} {PH : Poseidon} {GE : GoEnv} {KV : KVDatabase}.

(** The state a registry's methods run in: the registry, the database, the outside world. *)
Record registry_state : Type := mkRegistryState {
  rs_reg : ZKCertificateRegistry;
  rs_db : DB;
  rs_world : world
}.

Definition tree_at (t : TreeObject) (database : DB) : SparseMerkleTree :=
  mkSparseMerkleTree (obj_emtpyLeaf t) (obj_depth t) (obj_emptyBranchLevels t)
    (LeafView_GetLeaf (obj_view t) database).

(** A method of the tree, called with the batch [b]; the tree keeps the hashes it computed. *)
Definition run_tree {B A : Type} (m : go (state B) A) (b : B) (s : registry_state)
    : gores A * (B * registry_state) :=
  let (c, s') := m (mkState (tree_at (reg_sparseTree (rs_reg s)) (rs_db s)) b (rs_world s)) in
  (c, (st_batch s', mkRegistryState (set_cache (emptyBranchLevels (st_tree s')) (rs_reg s)) (rs_db s) (st_world s'))).

(** * Committing operations *)

(** [CommitOperations] gets a batch from its caller and fills it. *)
Definition commit_state : Type := registry_state * Batch.

Definition on_batch_of {A : Type} (m : go Batch A) : go commit_state A :=
  fun s => let (c, b) := m (snd s) in (c, (fst s, b)).

Definition get_registry : go commit_state ZKCertificateRegistry := fun s => (Ok (rs_reg (fst s)), s).

(** [for _, operation := range operations] *)
Fixpoint CommitOperations_loop (operations : list LeafOperation) (leaves : list TreeLeaf)
    : go commit_state (list TreeLeaf) :=
  match operations with
  | [] => go_ret leaves
  | operation :: operations' =>
      let! reg := get_registry in
      let leaf := Operation_Leaf operation in
      if Operation_Op operation =? OperationAddition then
        let! _ := go_wrap "set leaf index: %w" []
                    (on_batch_of (LeafView_SetLeafIndex (reg_leafView reg) (Leaf_Value leaf) (Leaf_Index leaf))) in
        CommitOperations_loop operations' (leaves ++ [leaf])
      else if Operation_Op operation =? OperationRevocation then
        let! _ := go_wrap "revoke leaf index: %w" []
                    (on_batch_of (LeafView_DeleteLeafIndex (reg_leafView reg) (Leaf_Value leaf))) in
        CommitOperations_loop operations'
          (leaves ++ [mkTreeLeaf (Leaf_Index leaf) (Meta_EmptyValue (reg_metadata reg))])
      else go_throw (Errorf "unknown operation %d" [Operation_Op operation] None)
  end.

(** [reg.Tree().InsertLeaves(ctx, NewBatchWithLeavesBuffer(batch, reg.metadata.Index), leaves)] *)
Definition insert_into_batch (leaves : list TreeLeaf) : go commit_state unit :=
  fun s =>
    let batchWithBuffer := NewBatchWithLeavesBuffer (snd s) (Meta_Index (reg_metadata (rs_reg (fst s)))) in
    let '(c, (b, rs)) := run_tree (InsertLeaves leaves) batchWithBuffer (fst s) in
    (c, (rs, bwl_Batch b)).

Definition CommitOperations (operations : list LeafOperation) : go commit_state unit :=
  let! leaves := CommitOperations_loop operations [] in
  go_wrap "insert leaves: %w" [] (insert_into_batch leaves).

(** * Proofs

    [CreateProof] looks the index up before it takes the read lock: the two parts can be
    separated by a commit. *)
Definition on_tree {A : Type} (m : go (state unit) A) : go registry_state A :=
  fun s => let '(c, (_, s')) := run_tree m tt s in (c, s').

Definition CreateProof_lookup (leaf : Z) : go registry_state TreeLeafIndex :=
  go_wrap "failed to get leaf index: %w" []
    (fun s => (LeafView_GetLeafIndex (reg_leafView (rs_reg s)) (rs_db s) leaf, s)).

Definition CreateProof_locked (leafIndex : TreeLeafIndex) : go registry_state MerkleProof :=
  go_wrap "failed to create proof: %w" [] (on_tree (CreateProof leafIndex)).

Definition Registry_CreateProof (leaf : Z) : go registry_state MerkleProof :=
  let! leafIndex := CreateProof_lookup leaf in
  CreateProof_locked leafIndex.

Definition GetRandomEmptyLeafProof : go registry_state MerkleProof :=
  let! emptyIndex := go_wrap "failed to get random empty leaf proof: %w" [] (on_tree GetRandomEmptyLeafIndex) in
  CreateProof_locked emptyIndex.

(** * Committing a job

    [writeBatchWithLock] holds the registry's write lock while the batch is written. *)
Record Job : Type := mkJob {
  Job_Descriptor : JobDescriptor;
  Job_CurrentBlock : Z
}.

(** The msgpack encoding of a job (package [codec]). *)
Class JobCodec := {
  encode_job : Job -> go_error + gobytes;
}.

Context {JC : JobCodec}.

Definition UpsertJob (job : Job) : go Batch unit :=
  let! jobBytes := go_wrap "serialize job: %w" [] (go_res (lift (encode_job job))) in
  Batch_Set (makeJobKey (Job_Descriptor job)) jobBytes.

Definition writeBatchWithLock : go commit_state unit :=
  fun s => let (c, database) := Batch_WriteSync (snd s) (rs_db (fst s)) in
    (c, (mkRegistryState (rs_reg (fst s)) database (rs_world (fst s)), snd s)).

Definition Job_Commit (jobDescriptor : JobDescriptor) (operationsBuffer : OperationsBuffer) (block : Z)
    : go registry_state unit :=
  fun s0 =>
    let operations := Operations operationsBuffer in
    let body : go commit_state unit :=
      let! _ := if (0 <? length operations)%nat
                then go_wrap "insert leaves: %w" [] (CommitOperations operations)
                else go_ret tt in
      let! _ := go_wrap "update job's current startBlock: %w" []
                  (on_batch_of (UpsertJob (mkJob jobDescriptor block))) in
      go_wrap "write batch with lock: %w" [] writeBatchWithLock in
    let (c, s) := body (s0, DB_NewBatch (rs_db s0)) in (c, fst s).
End Code.
