(* ===== verification/RegistryFacts.v ===== *)
(** The registry over the storage: what it means that the database holds a registry's tree and
    its index of leaves, and that committing operations changes both as the operations say. *)

From stdpp Require Import base list numbers strings gmap.
From Stdlib Require Import ZArith Lia.
From S2P Require Import Prelude GoBase MerkleSpec SparseTree SparseTreeFacts SparseTreeInsert.
From S2P Require Import SparseTreeProofs SparseTreeSimulation Storage StorageFacts Registry.
Local Open Scope Z_scope.

Section Registry.
Context {U256 : Uint256} {UL : Uint256Laws U256} {PH : Poseidon} {PL : PoseidonLaws PH} {GE : GoEnv}.
Context {KV : KVDatabase} {KL : KVDatabaseLaws KV}.

(** * The abstract registry: the leaves and the index of every value *)

Definition is_addition (op : LeafOperation) : bool := Operation_Op op =? OperationAddition.

Definition operation_ok (d : Z) (op : LeafOperation) : Prop :=
  (Operation_Op op = OperationAddition \/ Operation_Op op = OperationRevocation) /\
  0 <= Leaf_Index (Operation_Leaf op) < 2 ^ d /\ in_field (Leaf_Value (Operation_Leaf op)).

(** The leaf an operation leaves behind; [e] is the empty leaf. *)
Definition commit_leaf (e : Z) (op : LeafOperation) : TreeLeaf :=
  if is_addition op then Operation_Leaf op else mkTreeLeaf (Leaf_Index (Operation_Leaf op)) e.

Definition abs_leaves (e : Z) (leaf : Z -> Z) (ops : list LeafOperation) : Z -> Z :=
  set_all leaf (map (commit_leaf e) ops).

Definition abs_index (idx : Z -> option Z) (op : LeafOperation) : Z -> option Z :=
  fun v => if v =? Leaf_Value (Operation_Leaf op)
           then (if is_addition op then Some (Leaf_Index (Operation_Leaf op)) else None)
           else idx v.

Definition abs_indices (idx : Z -> option Z) (ops : list LeafOperation) : Z -> option Z := foldl abs_index idx ops.

(** * The registry in the database *)

Definition reg_index (s : registry_state) : Z := Meta_Index (reg_metadata (rs_reg s)).
Definition reg_tree (s : registry_state) : SparseMerkleTree := tree_at (reg_sparseTree (rs_reg s)) (rs_db s).

Record reg_models (s : registry_state) (leaf : Z -> Z) (idx : Z -> option Z) : Prop := {
  rm_registry : 0 <= reg_index s < 2 ^ 8;
  rm_tree_view : obj_view (reg_sparseTree (rs_reg s)) = mkLeafView (reg_index s);
  rm_leaf_view : reg_leafView (rs_reg s) = mkLeafView (reg_index s);
  rm_empty : Meta_EmptyValue (reg_metadata (rs_reg s)) = emtpyLeaf (reg_tree s);
  rm_tree : tree_ok (reg_tree s);
  rm_depth : depth (reg_tree s) <= 32;
  rm_nodes : consistent hash (depth (reg_tree s)) (stored (reg_tree s));
  rm_leaves : forall i, 0 <= i < 2 ^ depth (reg_tree s) -> stored (reg_tree s) 0 i = leaf i;
  rm_lookup : forall v, 0 <= v < 2 ^ 256 ->
    contents (rs_db s) !! makeLeafIndexKey (reg_index s) v = option_map index_bytes (idx v);
  rm_range : forall v i, idx v = Some i -> 0 <= i < 2 ^ depth (reg_tree s);
}.

(** Registries that differ at most in the cache of the tree. *)
Definition same_registry (reg reg' : ZKCertificateRegistry) : Prop :=
  exists levels, reg' = set_cache levels reg.

Lemma field_256 (v : Z) : in_field v -> 0 <= v < 2 ^ 256.
Proof. unfold in_field. pose proof modulus_fits. lia. Qed.

Lemma depth_range (s : registry_state) (leaf : Z -> Z) (idx : Z -> option Z) :
  reg_models s leaf idx -> 1 <= depth (reg_tree s) <= 32.
Proof. intros Hm. pose proof (rm_tree _ _ _ Hm) as (Hd & _). pose proof (rm_depth _ _ _ Hm). unfold depth_ok in
    Hd. lia. Qed.

(** * Indexing the leaves of a batch *)

Definition index_change (r : Z) (op : LeafOperation) : change :=
  let v := Leaf_Value (Operation_Leaf op) in
  if is_addition op then Put (makeLeafIndexKey r v) (index_bytes (Leaf_Index (Operation_Leaf op)))
  else Del (makeLeafIndexKey r v).

Lemma CommitOperations_loop_ok (r : Z) (s : registry_state) (ops : list LeafOperation) (acc : list TreeLeaf)
    (b : Batch) :
  reg_leafView (rs_reg s) = mkLeafView r -> 0 <= r < 2 ^ 8 -> writable b ->
  Forall (operation_ok (depth (reg_tree s))) ops ->
  exists b', runs (CommitOperations_loop ops acc) (s, b)
      (acc ++ map (commit_leaf (Meta_EmptyValue (reg_metadata (rs_reg s)))) ops) (s, b') /\
    writable b' /\ pending b' = pending b ++ map (index_change r) ops.
Proof.
  intros Hv Hr. revert acc b. induction ops as [|op ops IH]; intros acc b Hw Hops; cbn [map].
  { exists b. rewrite !app_nil_r. done. }
  apply Forall_cons in Hops as [(Hop & Hi & Hf) Hops].
  assert (makeLeafIndexKey r (Leaf_Value (Operation_Leaf op)) <> []) as Hne.
  { apply (key_bytes_nonempty (LeafIndexKey r (Leaf_Value (Operation_Leaf op)))). split; [done|by apply field_256]. }
  assert (exists b1, pending b1 = pending b ++ [index_change r op] /\ writable b1 /\
    CommitOperations_loop (op :: ops) acc (s, b) =
    CommitOperations_loop ops (acc ++ [commit_leaf (Meta_EmptyValue (reg_metadata (rs_reg s))) op]) (s, b1))
    as (b1 & Hp & Hw1 & E).
  { cbn [CommitOperations_loop]. unfold index_change, commit_leaf, is_addition.
    rewrite (bind_runs get_registry _ (s, b) (s, b) _ eq_refl). cbn [fst]. rewrite Hv.
    destruct (Z.eqb_spec (Operation_Op op) OperationAddition) as [_|Hna].
    - destruct (Batch_Set_pending b _ (index_bytes (Leaf_Index (Operation_Leaf op))) Hw Hne) as (b1 & E1 & Hw1 & Hp1).
      exists b1. split; [done|]. split; [done|].
      rewrite (bind_runs _ _ (s, b) (s, b1) tt); [done|]. apply runs_wrap. unfold runs, on_batch_of. cbn [snd fst].
      unfold LeafView_SetLeafIndex, LeafStorage_SetLeafIndex. cbn [view_registryIndex].
      fold (index_bytes (Leaf_Index (Operation_Leaf op))). by rewrite E1.
    - destruct (Z.eqb_spec (Operation_Op op) OperationRevocation) as [_|Hnr]; [|by destruct Hop].
      destruct (Batch_Delete_pending b _ Hw Hne) as (b1 & E1 & Hw1 & Hp1).
      exists b1. split; [done|]. split; [done|].
      rewrite (bind_runs _ _ (s, b) (s, b1) tt); [done|]. apply runs_wrap. unfold runs, on_batch_of. cbn [snd fst].
      unfold LeafView_DeleteLeafIndex, LeafStorage_DeleteLeafIndex. cbn [view_registryIndex]. by rewrite E1. }
  destruct (IH (acc ++ [commit_leaf (Meta_EmptyValue (reg_metadata (rs_reg s))) op]) b1 Hw1 Hops) as (b2 & R &
      Hw2 & Hp2).
  exists b2. unfold runs in *. rewrite E, R, <- (assoc_L (++)). split; [done|]. split; [done|].
  by rewrite Hp2, Hp, <- (assoc_L (++)).
Qed.

Definition change_key (c : change) : gobytes := match c with Put k _ => k | Del k => k end.

Lemma last_change_none (cs : list change) (k : gobytes) :
  Forall (fun c => change_key c <> k) cs -> last_change cs k = None.
Proof.
  induction 1 as [|c cs Hc _ IH]; cbn; [done|]. rewrite IH.
  destruct c; cbn in Hc; by rewrite decide_False by congruence.
Qed.

Lemma index_change_key (r : Z) (op : LeafOperation) :
  change_key (index_change r op) = makeLeafIndexKey r (Leaf_Value (Operation_Leaf op)).
Proof. unfold index_change. by destruct (is_addition op). Qed.

(** Keys that are not indices of the registry's leaves are not touched. *)
Lemma index_changes_other (r d : Z) (ops : list LeafOperation) (k : storage_key) :
  0 <= r < 2 ^ 8 -> Forall (operation_ok d) ops -> storage_key_ok k ->
  (forall v, k <> LeafIndexKey r v) -> last_change (map (index_change r) ops) (key_bytes k) = None.
Proof.
  intros Hr Hops Hk Hne. apply last_change_none, Forall_map.
  eapply Forall_impl; [exact Hops|]. intros op (_ & _ & Hf). cbn. rewrite index_change_key.
  change (key_bytes (LeafIndexKey r (Leaf_Value (Operation_Leaf op))) <> key_bytes k).
  intros E. apply (Hne (Leaf_Value (Operation_Leaf op))). symmetry. apply key_bytes_inj; [|done|done].
  split; [done|by apply field_256].
Qed.

Lemma index_changes_lookup (r d : Z) (ops : list LeafOperation) (m : gmap gobytes gobytes) (idx : Z -> option Z) :
  0 <= r < 2 ^ 8 -> Forall (operation_ok d) ops ->
  (forall v, 0 <= v < 2 ^ 256 -> m !! makeLeafIndexKey r v = option_map index_bytes (idx v)) ->
  forall v, 0 <= v < 2 ^ 256 ->
    apply_changes (map (index_change r) ops) m !! makeLeafIndexKey r v = option_map index_bytes (abs_indices
        idx ops v).
Proof.
  intros Hr Hops. revert m idx. induction Hops as [|op ops (_ & _ & Hf) _ IH]; intros m idx Hm v Hv; [by apply Hm|].
  cbn [map apply_changes fold_left]. apply (IH (apply_change m (index_change r op)) (abs_index idx op)); [|done].
  clear v Hv. intros v Hv. unfold index_change, abs_index.
  assert (makeLeafIndexKey r v = makeLeafIndexKey r (Leaf_Value (Operation_Leaf op)) ->
      v = Leaf_Value (Operation_Leaf op)) as Hinj.
  { intros E. assert (LeafIndexKey r v = LeafIndexKey r (Leaf_Value (Operation_Leaf op))) as [= ->]; [|done].
    apply key_bytes_inj; [done|split; [done|by apply field_256]|done]. }
  destruct (Z.eqb_spec v (Leaf_Value (Operation_Leaf op))) as [->|Hne]; destruct (is_addition op); cbn [apply_change].
  - by rewrite lookup_insert_eq.
  - by rewrite lookup_delete_eq.
  - rewrite lookup_insert_ne by (intros E; by apply Hne, Hinj). by apply Hm.
  - rewrite lookup_delete_ne by (intros E; by apply Hne, Hinj). by apply Hm.
Qed.

Lemma abs_indices_range (d : Z) (ops : list LeafOperation) (idx : Z -> option Z) :
  Forall (operation_ok d) ops -> (forall v i, idx v = Some i -> 0 <= i < 2 ^ d) ->
  forall v i, abs_indices idx ops v = Some i -> 0 <= i < 2 ^ d.
Proof.
  intros Hops. revert idx. induction Hops as [|op ops (_ & Hi & _) _ IH]; intros idx Hidx; [done|].
  apply IH. intros v i. unfold abs_index. destruct (v =? _); [|apply Hidx].
  destruct (is_addition op); [by intros [= <-]|done].
Qed.

(** * Inserting the leaves of a batch

    [prepared s leaf cs s' b]: with the changes [cs] and the nodes that differ from the
    database, the batch [b] holds all that turns the tree of [s] into that over [leaf]. *)
Record prepared (s : registry_state) (leaf : Z -> Z) (cs : list change) (s' : registry_state) (b : Batch) : Prop := {
  pr_writable : writable b;
  pr_db : rs_db s' = rs_db s;
  pr_registry : same_registry (rs_reg s) (rs_reg s');
  pr_cache : cache_ok (reg_tree s');
  pr_nodes : forall l i, key_ok l i ->
    match last_change (pending b) (makeLeafKey (reg_index s) l i) with
    | None => inside (depth (reg_tree s)) l i -> stored (reg_tree s) l i = tree_nodes hash leaf l i
    | Some o => exists v, o = Some (uint256_Bytes v) /\ in_field v /\
                  (inside (depth (reg_tree s)) l i -> v = tree_nodes hash leaf l i)
    end;
  pr_rest : forall k, (forall l i, key_ok l i -> k <> makeLeafKey (reg_index s) l i) ->
    last_change (pending b) k = last_change cs k;
}.

Lemma stored_nodes (s : registry_state) (leaf : Z -> Z) (idx : Z -> option Z) (l i : Z) :
  reg_models s leaf idx -> inside (depth (reg_tree s)) l i -> stored (reg_tree s) l i = tree_nodes hash leaf l i.
Proof.
  intros Hm Hi. apply (consistent_unique hash (depth (reg_tree s)));
    [apply (rm_nodes _ _ _ Hm)|apply tree_nodes_consistent|apply (rm_leaves _ _ _ Hm)|done].
Qed.

Lemma nothing_prepared (s : registry_state) (leaf : Z -> Z) (idx : Z -> option Z) (b : Batch) :
  reg_models s leaf idx -> writable b -> pending b = [] -> prepared s leaf [] s b.
Proof.
  intros Hm Hw Hp. split; [done|done| |apply (rm_tree _ _ _ Hm)| |by rewrite Hp].
  - exists (obj_emptyBranchLevels (reg_sparseTree (rs_reg s))). by destruct (rs_reg s) as [m [] v p].
  - intros l i Hk. rewrite Hp. cbn [last_change]. by apply (stored_nodes s leaf idx).
Qed.

Lemma batch_models (s : registry_state) (leaf : Z -> Z) (idx : Z -> option Z) (b : Batch)
    (Hr : 0 <= reg_index s < 2 ^ 8) :
  reg_models s leaf idx -> writable b ->
  (forall l i, key_ok l i -> last_change (pending b) (makeLeafKey (reg_index s) l i) = None) ->
  @models _ _ _ _ _ (bwl_laws (reg_index s) Hr (pending b))
    (mkState (reg_tree s) (NewBatchWithLeavesBuffer b (reg_index s)) (rs_world s)) leaf.
Proof.
  intros Hm Hw Hn. set (BL := bwl_laws (reg_index s) Hr (pending b)).
  assert (forall l i, @node _ _ _ _ BL (mkState (reg_tree s) (NewBatchWithLeavesBuffer b (reg_index s))
      (rs_world s)) l i
    = stored (reg_tree s) l i) as E.
  { intros l i. unfold node. cbn. unfold bwl_view. cbn [bwl_buffer NewBatchWithLeavesBuffer].
      by rewrite lookup_empty. }
  split; [|split].
  - split; [|apply (rm_depth _ _ _ Hm)]. split; [apply (rm_tree _ _ _ Hm)|]. split; [by apply bwl_new_ok|].
    intros l i Hk. rewrite E. apply stored_field; [apply (rm_tree _ _ _ Hm)|done].
  - apply (consistent_ext _ _ (stored (reg_tree s))); [done|apply (rm_nodes _ _ _ Hm)].
  - intros i Hi. rewrite E. by apply (rm_leaves _ _ _ Hm).
Qed.

Lemma insert_into_batch_ok (s : registry_state) (leaf : Z -> Z) (idx : Z -> option Z) (leaves : list TreeLeaf)
    (b : Batch) :
  reg_models s leaf idx -> writable b ->
  (forall l i, key_ok l i -> last_change (pending b) (makeLeafKey (reg_index s) l i) = None) ->
  Forall (fun x => 0 <= Leaf_Index x < 2 ^ depth (reg_tree s) /\ in_field (Leaf_Value x)) leaves ->
  exists s' b', runs (insert_into_batch leaves) (s, b) tt (s', b') /\
    prepared s (set_all leaf leaves) (pending b) s' b'.
Proof.
  intros Hm Hw Hn Hl. pose proof (rm_registry _ _ _ Hm) as Hr.
  set (BL := bwl_laws (reg_index s) Hr (pending b)).
  set (s0 := mkState (reg_tree s) (NewBatchWithLeavesBuffer b (reg_index s)) (rs_world s)).
  destruct (InsertLeaves_models leaves s0 leaf (batch_models s leaf idx b Hr Hm Hw Hn) Hl) as (s1 & R & M & C).
  destruct C as (Hs1 & Hsame & _). pose proof Hs1 as (Ht1 & Hb1 & Hf1).
  eexists _, _. split.
  { unfold runs, insert_into_batch, run_tree. cbn [fst snd]. unfold runs in R.
    unfold s0, reg_tree, reg_index in R. rewrite R. reflexivity. }
  destruct Hb1 as (Hw1 & Hidx & Hleaf1 & Hrest1).
  assert (forall l i, inside (depth (reg_tree s)) l i -> node s1 l i = tree_nodes hash (set_all leaf leaves)
      l i) as Hnodes.
  { intros l i Hi. apply models_nodes; [done|]. by rewrite (proj1 (proj2 Hsame)). }
  split; cbn [rs_db rs_reg]; [done|done|by eexists| | |done].
  - destruct Ht1 as (_ & _ & _ & Hc). destruct Hsame as (He & Hd & _).
    unfold cache_ok, empty_branches in *. rewrite He, Hd in Hc. exact Hc.
  - intros l i Hk. rewrite Hleaf1 by done. specialize (Hnodes l i). specialize (Hf1 l i Hk).
    unfold node in Hnodes, Hf1. cbn [view BL bwl_laws] in Hnodes, Hf1.
    destruct (bwl_view (st_batch s1) l i) as [v|]; cbn [option_map].
    + exists v. done.
    + intros Hi. rewrite <- (stored_same _ _ l i Hsame). by apply Hnodes.
Qed.

(** * Committing *)

Lemma commit_leaf_ok (d e : Z) (op : LeafOperation) :
  in_field e -> operation_ok d op ->
  0 <= Leaf_Index (commit_leaf e op) < 2 ^ d /\ in_field (Leaf_Value (commit_leaf e op)).
Proof. intros He (_ & Hi & Hf). unfold commit_leaf. by destruct (is_addition op). Qed.

Lemma CommitOperations_ok (s : registry_state) (leaf : Z -> Z) (idx : Z -> option Z) (ops : list LeafOperation)
    (b : Batch) :
  reg_models s leaf idx -> writable b -> pending b = [] -> Forall (operation_ok (depth (reg_tree s))) ops ->
  exists s' b', runs (CommitOperations ops) (s, b) tt (s', b') /\
    prepared s (abs_leaves (emtpyLeaf (reg_tree s)) leaf ops) (map (index_change (reg_index s)) ops) s' b'.
Proof.
  intros Hm Hw Hp Hops. pose proof (rm_registry _ _ _ Hm) as Hr.
  destruct (CommitOperations_loop_ok (reg_index s) s ops [] b (rm_leaf_view _ _ _ Hm) Hr Hw Hops)
    as (b1 & R1 & Hw1 & Hp1).
  rewrite Hp in Hp1. cbn [app] in Hp1, R1. rewrite (rm_empty _ _ _ Hm) in R1.
  destruct (insert_into_batch_ok s leaf idx (map (commit_leaf (emtpyLeaf (reg_tree s))) ops) b1 Hm Hw1)
    as (s' & b' & R2 & Hprep).
  - intros l i Hk. rewrite Hp1. apply (index_changes_other _ (depth (reg_tree s)) _ (LeafKey (reg_index s)
      l i)); done.
  - apply Forall_map. eapply Forall_impl; [exact Hops|]. intros op Hop. apply commit_leaf_ok; [|done].
    apply (rm_tree _ _ _ Hm).
  - exists s', b'. split; [|by rewrite <- Hp1].
    unfold CommitOperations. eapply runs_bind; [exact R1|]. by apply runs_wrap.
Qed.

(** The database after a prepared batch, with the job's record added, has been written. *)
Definition overwritten (s : registry_state) (jd : JobDescriptor) (b : Batch) (d : DB) : Prop :=
  forall k, storage_key_ok k -> k <> JobKey jd ->
    contents d !! key_bytes k = default (contents (rs_db s) !! key_bytes k) (last_change (pending b) (key_bytes k)).

Lemma overwritten_node (s : registry_state) (leaf leaf' : Z -> Z) (idx : Z -> option Z) (cs : list change)
    (jd : JobDescriptor) (s' : registry_state) (b : Batch) (d : DB) (l i : Z) :
  reg_models s leaf idx -> prepared s leaf' cs s' b -> overwritten s jd b d -> key_ok l i ->
  LeafStorage_GetLeaf d (reg_index s) l i = LeafStorage_GetLeaf (rs_db s) (reg_index s) l i /\
    (inside (depth (reg_tree s)) l i -> stored (reg_tree s) l i = tree_nodes hash leaf' l i) \/
  exists v, in_field v /\ (inside (depth (reg_tree s)) l i -> v = tree_nodes hash leaf' l i) /\
    LeafStorage_GetLeaf d (reg_index s) l i = if v =? 0 then Throw ErrNotFound else Ok v.
Proof.
  intros Hm Hp Ho Hk. pose proof (rm_registry _ _ _ Hm) as Hr.
  specialize (Ho (LeafKey (reg_index s) l i) (conj Hr Hk) ltac:(done)). cbn [key_bytes] in Ho.
  pose proof (pr_nodes _ _ _ _ _ Hp l i Hk) as Hn. rewrite !GetLeaf_contents, Ho by done.
  destruct (last_change (pending b) (makeLeafKey (reg_index s) l i)) as [o|]; cbn [default from_option id] in *.
  - right. destruct Hn as (v & -> & Hf & Hi). exists v. split; [done|]. split; [done|].
    rewrite decode_node_Bytes by (by apply field_256). by destruct (v =? 0).
  - by left.
Qed.

Lemma same_registry_fields (s s' : registry_state) (d : DB) (w : world) :
  same_registry (rs_reg s) (rs_reg s') -> cache_ok (reg_tree s') ->
  let s2 := mkRegistryState (rs_reg s') d w in
  reg_index s2 = reg_index s /\ obj_view (reg_sparseTree (rs_reg s2)) = obj_view (reg_sparseTree (rs_reg s)) /\
  reg_leafView (rs_reg s2) = reg_leafView (rs_reg s) /\
  Meta_EmptyValue (reg_metadata (rs_reg s2)) = Meta_EmptyValue (reg_metadata (rs_reg s)) /\
  emtpyLeaf (reg_tree s2) = emtpyLeaf (reg_tree s) /\ depth (reg_tree s2) = depth (reg_tree s) /\
  cache_ok (reg_tree s2).
Proof.
  intros [levels E] Hc s2. unfold reg_index, s2, reg_tree, cache_ok, empty_branches in *. cbn [rs_reg rs_db] in *.
  rewrite E in *. repeat split. exact Hc.
Qed.

Lemma overwritten_models (s : registry_state) (leaf : Z -> Z) (idx : Z -> option Z) (ops : list LeafOperation)
    (jd : JobDescriptor) (s' : registry_state) (b : Batch) (d : DB) (w : world) :
  let leaf' := abs_leaves (emtpyLeaf (reg_tree s)) leaf ops in
  reg_models s leaf idx -> Forall (operation_ok (depth (reg_tree s))) ops ->
  prepared s leaf' (map (index_change (reg_index s)) ops) s' b -> overwritten s jd b d ->
  (forall l i, inside (depth (reg_tree s)) l i -> tree_nodes hash leaf' l i <> 0) ->
  reg_models (mkRegistryState (rs_reg s') d w) leaf' (abs_indices idx ops).
Proof.
  intros leaf' Hm Hops Hp Ho Hnz. pose proof (rm_registry _ _ _ Hm) as Hr.
  pose proof (depth_range _ _ _ Hm) as Hd. pose proof (rm_tree _ _ _ Hm) as (Hd0 & He & Hs & _).
  destruct (same_registry_fields s s' d w (pr_registry _ _ _ _ _ Hp) (pr_cache _ _ _ _ _ Hp))
    as (E1 & E2 & E3 & E4 & E5 & E6 & Hc).
  set (s2 := mkRegistryState (rs_reg s') d w) in *.
  assert (forall l i, storageLeafGetter (reg_tree s2) l i = LeafStorage_GetLeaf d (reg_index s) l i) as Eg.
  { intros l i. unfold reg_tree, tree_at, LeafView_GetLeaf. cbn [storageLeafGetter].
      by rewrite E2, (rm_tree_view _ _ _ Hm). }
  assert (forall l i, storageLeafGetter (reg_tree s) l i = LeafStorage_GetLeaf (rs_db s) (reg_index s) l i) as Eg0.
  { intros l i. unfold reg_tree, tree_at, LeafView_GetLeaf. cbn [storageLeafGetter].
      by rewrite (rm_tree_view _ _ _ Hm). }
  assert (forall l i, inside (depth (reg_tree s)) l i -> stored (reg_tree s2) l i = tree_nodes hash leaf' l i)
      as Hnodes.
  { intros l i Hi. assert (key_ok l i) as Hk by (apply (index_key (depth (reg_tree s))); [lia|done]).
    destruct (overwritten_node s leaf leaf' idx _ jd s' b d l i Hm Hp Ho Hk) as [[E Hold]|(v & _ & Hv & E)].
    - rewrite <- (Hold Hi). unfold stored. by rewrite Eg, Eg0, E, E5.
    - unfold stored. rewrite Eg, E. specialize (Hv Hi). destruct (Z.eqb_spec v 0) as [->|]; [|done].
      by destruct (Hnz l i Hi). }
  split; rewrite ?E1, ?E2, ?E3, ?E4, ?E5, ?E6.
  - done.
  - apply (rm_tree_view _ _ _ Hm).
  - apply (rm_leaf_view _ _ _ Hm).
  - apply (rm_empty _ _ _ Hm).
  - split; [unfold depth_ok; by rewrite E6|]. split; [by rewrite E5|]. split; [|done].
    intros l i Hk. rewrite Eg.
    destruct (overwritten_node s leaf leaf' idx _ jd s' b d l i Hm Hp Ho Hk) as [[-> _]|(v & Hf & _ & ->)].
    + rewrite <- Eg0. by apply Hs.
    + destruct (v =? 0); [right; by eexists|left; by eexists].
  - apply (rm_depth _ _ _ Hm).
  - apply (consistent_ext _ _ (tree_nodes hash leaf')); [done|apply tree_nodes_consistent].
  - intros i Hi. apply Hnodes. split; [lia|by rewrite Z.sub_0_r].
  - intros v Hv. cbn [rs_db s2].
    rewrite (Ho (LeafIndexKey (reg_index s) v) (conj Hr Hv) ltac:(done)
        : contents d !! makeLeafIndexKey (reg_index s) v = _).
    rewrite (pr_rest _ _ _ _ _ Hp), <- apply_changes_lookup.
    + apply (index_changes_lookup _ (depth (reg_tree s))); [done|done|apply (rm_lookup _ _ _ Hm)|done].
    + intros l i Hk E. assert (LeafIndexKey (reg_index s) v = LeafKey (reg_index s) l i) as [=].
      by apply key_bytes_inj.
  - apply abs_indices_range; [done|apply (rm_range _ _ _ Hm)].
Qed.

(** * Committing a job *)

Section Job.
Context {JC : JobCodec}.

Lemma commit_part_ok (s : registry_state) (leaf : Z -> Z) (idx : Z -> option Z) (ops : list LeafOperation)
    (b : Batch) :
  reg_models s leaf idx -> writable b -> pending b = [] -> Forall (operation_ok (depth (reg_tree s))) ops ->
  exists s' b', runs (if (0 <? length ops)%nat then go_wrap "insert leaves: %w" [] (CommitOperations ops)
      else go_ret tt)
      (s, b) tt (s', b') /\
    prepared s (abs_leaves (emtpyLeaf (reg_tree s)) leaf ops) (map (index_change (reg_index s)) ops) s' b'.
Proof.
  intros Hm Hw Hp Hops. destruct ops as [|op ops].
  - exists s, b. split; [done|]. by apply (nothing_prepared s leaf idx).
  - destruct (CommitOperations_ok s leaf idx (op :: ops) b Hm Hw Hp Hops) as (s' & b' & R & Hprep).
    exists s', b'. split; [by apply runs_wrap|done].
Qed.

Lemma Job_Commit_ok (s : registry_state) (leaf : Z -> Z) (idx : Z -> option Z) (jd : JobDescriptor)
    (buf : OperationsBuffer) (block : Z) (jb : gobytes) :
  reg_models s leaf idx -> storage_key_ok (JobKey jd) -> encode_job (mkJob jd block) = inr jb ->
  Forall (operation_ok (depth (reg_tree s))) (Operations buf) ->
  exists s' b s1, runs (Job_Commit jd buf block) s tt s' /\
    prepared s (abs_leaves (emtpyLeaf (reg_tree s)) leaf (Operations buf))
      (map (index_change (reg_index s)) (Operations buf)) s1 b /\
    rs_reg s' = rs_reg s1 /\ overwritten s jd b (rs_db s') /\ contents (rs_db s') !! makeJobKey jd = Some jb.
Proof.
  intros Hm Hj Hjb Hops. destruct (NewBatch_pending (rs_db s)) as [Hw0 Hp0].
  destruct (commit_part_ok s leaf idx (Operations buf) _ Hm Hw0 Hp0 Hops) as (s1 & b & R & Hp).
  pose proof (key_bytes_nonempty (JobKey jd) Hj) as Hne. cbn [key_bytes] in Hne.
  destruct (Batch_Set_pending b (makeJobKey jd) jb (pr_writable _ _ _ _ _ Hp) Hne) as (b2 & E2 & Hw2 & Hp2).
  destruct (WriteSync_contents b2 (rs_db s1) Hw2) as (d & E3 & Hd).
  rewrite (pr_db _ _ _ _ _ Hp), Hp2 in Hd.
  exists (mkRegistryState (rs_reg s1) d (rs_world s1)), b, s1. cbn [rs_reg rs_db]. split; [|split; [done|split;
      [done|]]].
  - unfold Job_Commit, runs.
    erewrite (bind_runs _ _ (s, DB_NewBatch (rs_db s)) (s1, b) tt); [|exact R].
    erewrite (bind_runs _ _ (s1, b) (s1, b2) tt).
    2:{ apply runs_wrap. unfold runs, on_batch_of, UpsertJob. cbn [snd fst Job_Descriptor].
        erewrite bind_runs; [|apply runs_wrap, runs_res; by rewrite Hjb]. by rewrite E2. }
    unfold go_wrap, writeBatchWithLock. cbn [snd fst]. by rewrite E3.
  - assert (forall k, last_change (pending b ++ [Put (makeJobKey jd) jb]) k =
      if decide (k = makeJobKey jd) then Some (Some jb) else last_change (pending b) k) as Hl.
    { intros k. rewrite last_change_snoc. cbn. by destruct (decide _). }
    split.
    + intros k Hk Hne'. rewrite Hd, apply_changes_lookup, Hl, decide_False; [done|].
      intros E. by apply Hne', key_bytes_inj.
    + by rewrite Hd, apply_changes_lookup, Hl, decide_True.
Qed.
End Job.

(** * Reading back *)

Lemma CreateProof_lookup_ok (s : registry_state) (leaf : Z -> Z) (idx : Z -> option Z) (v : Z) :
  reg_models s leaf idx -> 0 <= v < 2 ^ 256 ->
  CreateProof_lookup v s =
    (match idx v with
     | Some i => Ok i
     | None => Throw (Errorf "failed to get leaf index: %w" [] (Some ErrNotFound))
     end, s).
Proof.
  intros Hm Hv. pose proof (depth_range _ _ _ Hm) as Hd.
  unfold CreateProof_lookup, go_wrap, LeafView_GetLeafIndex. rewrite (rm_leaf_view _ _ _ Hm).
      cbn [view_registryIndex].
  rewrite (GetLeafIndex_contents (rs_db s) (reg_index s) v (idx v)).
  - by destruct (idx v).
  - apply (rm_registry _ _ _ Hm).
  - done.
  - intros i Hi. apply (rm_range _ _ _ Hm) in Hi.
    assert (2 ^ depth (reg_tree s) <= 2 ^ 32) by (apply Z.pow_le_mono_r; lia). lia.
  - by apply (rm_lookup _ _ _ Hm).
Qed.

(** A new cache changes nothing. *)
Lemma recache_models (s : registry_state) (leaf : Z -> Z) (idx : Z -> option Z) (levels : option (list Z))
    (w : world) :
  reg_models s leaf idx ->
  cache_ok (tree_at (reg_sparseTree (set_cache levels (rs_reg s))) (rs_db s)) ->
  reg_models (mkRegistryState (set_cache levels (rs_reg s)) (rs_db s) w) leaf idx.
Proof.
  intros Hm Hc. pose proof (rm_tree _ _ _ Hm) as (? & ? & ? & _).
  split; try apply Hm. repeat split; try done; apply Hm.
Qed.

(** A path of a tree: one field element per level. *)
Definition path_ok (d : Z) (path : list Z) : Prop := length path = Z.to_nat d /\ Forall in_field path.

Lemma siblings_field (t : SparseMerkleTree) (n : nat) (l i : Z) :
  tree_ok t -> depth t <= 32 -> inside (depth t) l i -> l + Z.of_nat n <= depth t ->
  Forall in_field (siblings (stored t) n l i).
Proof.
  intros Ht Hd. revert l i. induction n as [|n IH]; intros l i Hin Hl; cbn [siblings]; [done|].
  pose proof (proj1 Hin). constructor.
  - apply stored_field; [done|]. apply (index_key (depth t)); [done|]. apply sibling_inside; [lia|done].
  - apply IH; [apply half_inside; [lia|done]|lia].
Qed.

Lemma CreateProof_locked_ok (s : registry_state) (leaf : Z -> Z) (idx : Z -> option Z) (i : Z) :
  context_active -> reg_models s leaf idx -> 0 <= i < 2 ^ depth (reg_tree s) ->
  exists s' p, runs (CreateProof_locked i) s p s' /\ reg_models s' leaf idx /\
    depth (reg_tree s') = depth (reg_tree s) /\ emtpyLeaf (reg_tree s') = emtpyLeaf (reg_tree s) /\
    Proof_Leaf p = leaf i /\ Proof_Index p = i /\
    Proof_Root p = tree_root hash (depth (reg_tree s)) leaf /\
    root_of hash (leaf i) (Proof_Path p) i = Proof_Root p /\ path_ok (depth (reg_tree s)) (Proof_Path p).
Proof.
  intros Hctx Hm Hi. pose proof (depth_range _ _ _ Hm) as Hd.
  set (s0 := mkState (reg_tree s) tt (rs_world s)).
  destruct (CreateProof_ok i s0 Hctx (rm_tree _ _ _ Hm) (rm_depth _ _ _ Hm) Hi) as (s1 & R & _ & Hsame & Hc).
  eexists _, (mkMerkleProof (stored (reg_tree s) 0 i) (siblings (stored (reg_tree s))
      (Z.to_nat (depth (reg_tree s))) 0 i)
    i (stored (reg_tree s) (depth (reg_tree s)) 0)). split.
  { unfold runs, CreateProof_locked, go_wrap, on_tree, run_tree. unfold runs, s0 in R. unfold reg_tree at 1 in R.
    rewrite R. reflexivity. }
  split.
  { apply recache_models; [done|]. destruct Hsame as (He & Hd' & _).
    unfold cache_ok, empty_branches in *. rewrite He, Hd' in Hc. exact Hc. }
  split; [done|]. split; [done|]. cbn [Proof_Leaf Proof_Index Proof_Root Proof_Path].
  assert (inside (depth (reg_tree s)) (depth (reg_tree s)) 0) as Htop by (split; [lia|rewrite Z.sub_diag; lia]).
  pose proof (siblings_root hash _ (stored (reg_tree s)) (Z.to_nat (depth (reg_tree s)))
      0 i (rm_nodes _ _ _ Hm)) as Hroot.
  rewrite (rm_leaves _ _ _ Hm i Hi) in Hroot |- *. rewrite Hroot; [|split; [lia|by rewrite Z.sub_0_r]|lia].
  rewrite (stored_nodes s leaf idx _ _ Hm Htop). split; [done|]. split; [done|]. split; [done|]. split; [done|].
  split; [apply siblings_length|]. apply siblings_field; [apply Hm|apply Hm|split; [lia|by rewrite Z.sub_0_r]|lia].
Qed.
End Registry.
