(* ===== verification/RegistryRuns.v ===== *)
(** Whole runs of a registry: a commit as a step of the abstract registry, the operations a
    contract produces, and the registries that commits and proofs lead to. *)

From stdpp Require Import base list numbers strings gmap.
From Stdlib Require Import ZArith Lia.
From S2P Require Import Prelude GoBase MerkleSpec SparseTree SparseTreeFacts SparseTreeInsert.
From S2P Require Import SparseTreeProofs SparseTreeSimulation Storage StorageFacts Registry RegistryFacts.
Local Open Scope Z_scope.

Section Runs.
Context {U256 : Uint256} {UL : Uint256Laws U256} {PH : Poseidon} {PL : PoseidonLaws PH} {GE : GoEnv}.
Context {KV : KVDatabase} {KL : KVDatabaseLaws KV} {JC : JobCodec}.

(** * Committing *)

(** What a commit of registry [r] by job [jd] may write. *)
Definition belongs_to (r : Z) (jd : JobDescriptor) (k : storage_key) : Prop :=
  match k with
  | LeafKey r' _ _ | LeafIndexKey r' _ => r' = r
  | JobKey jd' => jd' = jd
  | _ => False
  end.

Definition no_zero_node (d : Z) (leaf : Z -> Z) : Prop :=
  forall l i, inside d l i -> tree_nodes hash leaf l i <> 0.

Lemma Job_Commit_models (s : registry_state) (leaf : Z -> Z) (idx : Z -> option Z) (jd : JobDescriptor)
    (buf : OperationsBuffer) (block : Z) (jb : gobytes) :
  let leaf' := abs_leaves (emtpyLeaf (reg_tree s)) leaf (Operations buf) in
  reg_models s leaf idx -> storage_key_ok (JobKey jd) -> encode_job (mkJob jd block) = inr jb ->
  Forall (operation_ok (depth (reg_tree s))) (Operations buf) -> no_zero_node (depth (reg_tree s)) leaf' ->
  exists s', runs (Job_Commit jd buf block) s tt s' /\
    reg_models s' leaf' (abs_indices idx (Operations buf)) /\
    depth (reg_tree s') = depth (reg_tree s) /\ emtpyLeaf (reg_tree s') = emtpyLeaf (reg_tree s) /\
    same_registry (rs_reg s) (rs_reg s') /\ contents (rs_db s') !! makeJobKey jd = Some jb /\
    forall k, storage_key_ok k -> ~ belongs_to (reg_index s) jd k ->
      contents (rs_db s') !! key_bytes k = contents (rs_db s) !! key_bytes k.
Proof.
  intros leaf' Hm Hj Hjb Hops Hnz. pose proof (rm_registry _ _ _ Hm) as Hr.
  destruct (Job_Commit_ok s leaf idx jd buf block jb Hm Hj Hjb Hops) as (s' & b & s1 & R & Hp & Er & Ho & Ejob).
  exists s'. split; [done|].
  destruct s' as [reg d w]. cbn [rs_reg rs_db] in *. subst reg.
  destruct (same_registry_fields s s1 d w (pr_registry _ _ _ _ _ Hp) (pr_cache _ _ _ _ _ Hp))
    as (_ & _ & _ & _ & E5 & E6 & _).
  split; [by apply (overwritten_models s leaf idx (Operations buf) jd s1 b)|].
  split; [done|]. split; [done|]. split; [exact (pr_registry _ _ _ _ _ Hp)|]. split; [done|].
  intros k Hk Hb. rewrite (Ho k Hk).
  - rewrite (pr_rest _ _ _ _ _ Hp), (index_changes_other _ (depth (reg_tree s))); try done.
    + intros v ->. by apply Hb.
    + intros l i Hli E. apply Hb. by rewrite (key_bytes_inj k (LeafKey (reg_index s) l i) Hk (conj Hr Hli) E).
  - intros ->. by apply Hb.
Qed.

(** * Proofs by value

    The contract only adds a value that is not in the tree to an empty leaf, and only revokes
    a value from the leaf that holds it. *)
Definition proper_operation (e : Z) (leaf : Z -> Z) (idx : Z -> option Z) (op : LeafOperation) : Prop :=
  let i := Leaf_Index (Operation_Leaf op) in
  let v := Leaf_Value (Operation_Leaf op) in
  if is_addition op then idx v = None /\ leaf i = e /\ v <> e else idx v = Some i.

Fixpoint proper_operations (e : Z) (leaf : Z -> Z) (idx : Z -> option Z) (ops : list LeafOperation) : Prop :=
  match ops with
  | [] => True
  | op :: ops' =>
      proper_operation e leaf idx op /\ proper_operations e (abs_leaves e leaf [op]) (abs_index idx op) ops'
  end.

(** The index and the leaves say the same. *)
Definition index_agrees (e d : Z) (leaf : Z -> Z) (idx : Z -> option Z) : Prop :=
  (forall v i, idx v = Some i -> leaf i = v /\ v <> e) /\
  (forall i, 0 <= i < 2 ^ d -> leaf i <> e -> idx (leaf i) = Some i).

Lemma index_agrees_step (e d : Z) (leaf : Z -> Z) (idx : Z -> option Z) (op : LeafOperation) :
  proper_operation e leaf idx op -> index_agrees e d leaf idx ->
  index_agrees e d (abs_leaves e leaf [op]) (abs_index idx op).
Proof.
  unfold proper_operation, index_agrees, abs_leaves, commit_leaf, abs_index. destruct op as [[i v] o].
  cbn [Operation_Leaf Leaf_Index Leaf_Value map set_all foldl]. destruct (is_addition _).
  - intros (Hn & Hi & Hv) [H1 H2]. cbn [Leaf_Index Leaf_Value]. unfold set_leaf. split.
    + intros w j. destruct (Z.eqb_spec w v) as [->|Hw]; [intros [= <-]; by rewrite Z.eqb_refl|].
      intros E. destruct (H1 w j E). destruct (Z.eqb_spec j i) as [->|]; [congruence|done].
    + intros j Hj. destruct (Z.eqb_spec j i) as [->|]; [by rewrite Z.eqb_refl|].
      intros E. specialize (H2 j Hj E). destruct (Z.eqb_spec (leaf j) v) as [Ev|]; [congruence|done].
  - intros Hi [H1 H2]. cbn [Leaf_Index Leaf_Value]. unfold set_leaf. split.
    + intros w j. destruct (Z.eqb_spec w v) as [->|Hw]; [done|].
      intros E. destruct (H1 w j E), (H1 v i Hi). destruct (Z.eqb_spec j i) as [->|]; [congruence|done].
    + intros j Hj. destruct (Z.eqb_spec j i) as [->|Hji]; [done|].
      intros E. specialize (H2 j Hj E). destruct (Z.eqb_spec (leaf j) v) as [Ev|]; [congruence|done].
Qed.

Lemma index_agrees_all (e d : Z) (ops : list LeafOperation) (leaf : Z -> Z) (idx : Z -> option Z) :
  proper_operations e leaf idx ops -> index_agrees e d leaf idx ->
  index_agrees e d (abs_leaves e leaf ops) (abs_indices idx ops).
Proof.
  revert leaf idx. induction ops as [|op ops IH]; intros leaf idx; [done|]. cbn [proper_operations].
  intros [Hop Hops] H. apply (IH (abs_leaves e leaf [op]) (abs_index idx op)); [done|by apply index_agrees_step].
Qed.

(** A registry as [InitializeRegistry] creates it, with nothing in the database under its
    number. *)
Definition new_registry (s : registry_state) : Prop :=
  let t := reg_sparseTree (rs_reg s) in
  0 <= reg_index s < 2 ^ 8 /\ obj_view t = mkLeafView (reg_index s) /\
  reg_leafView (rs_reg s) = mkLeafView (reg_index s) /\
  Meta_EmptyValue (reg_metadata (rs_reg s)) = obj_emtpyLeaf t /\
  1 <= obj_depth t <= 32 /\ in_field (obj_emtpyLeaf t) /\ obj_emptyBranchLevels t = None /\
  (forall l i, key_ok l i -> contents (rs_db s) !! makeLeafKey (reg_index s) l i = None) /\
  (forall v, 0 <= v < 2 ^ 256 -> contents (rs_db s) !! makeLeafIndexKey (reg_index s) v = None).

Lemma new_registry_models (s : registry_state) :
  new_registry s -> reg_models s (fun _ => emtpyLeaf (reg_tree s)) (fun _ => None).
Proof.
  intros (Hr & Hv & Hv' & He & Hd & Hf & Hc & Hl & Hi).
  assert (forall l i, key_ok l i -> storageLeafGetter (reg_tree s) l i = Throw ErrNotFound) as Hg.
  { intros l i Hk. unfold reg_tree, tree_at, LeafView_GetLeaf. cbn [storageLeafGetter]. rewrite Hv.
      cbn [view_registryIndex].
    by rewrite GetLeaf_contents, Hl by done. }
  assert (forall l i, inside (depth (reg_tree s)) l i ->
    stored (reg_tree s) l i = tree_nodes hash (fun _ => emtpyLeaf (reg_tree s)) l i) as Hn.
  { intros l i Hin. unfold stored. rewrite Hg by (apply (index_key (depth (reg_tree s))); [apply Hd|done]).
    unfold tree_nodes. by rewrite merkle_empty. }
  split; try done.
  - split; [unfold depth_ok; cbn; lia|]. split; [done|]. split; [|by left].
    intros l i Hk. right. exists ErrNotFound. by rewrite Hg.
  - apply Hd.
  - apply (consistent_ext _ _ (tree_nodes hash (fun _ => emtpyLeaf (reg_tree s))));
      [done|apply tree_nodes_consistent].
  - intros i Hin. rewrite Hn; [done|]. split; [cbn in *; lia|by rewrite Z.sub_0_r].
Qed.

(** Commits of proper operations, and proofs, from a new registry on. *)
Inductive reg_reachable : registry_state -> (Z -> Z) -> (Z -> option Z) -> Prop :=
| reach_new_registry s : new_registry s -> reg_reachable s (fun _ => emtpyLeaf (reg_tree s)) (fun _ => None)
| reach_commit s s' leaf idx jd buf block jb :
    reg_reachable s leaf idx -> storage_key_ok (JobKey jd) -> encode_job (mkJob jd block) = inr jb ->
    Forall (operation_ok (depth (reg_tree s))) (Operations buf) ->
    proper_operations (emtpyLeaf (reg_tree s)) leaf idx (Operations buf) ->
    no_zero_node (depth (reg_tree s)) (abs_leaves (emtpyLeaf (reg_tree s)) leaf (Operations buf)) ->
    runs (Job_Commit jd buf block) s tt s' ->
    reg_reachable s' (abs_leaves (emtpyLeaf (reg_tree s)) leaf (Operations buf)) (abs_indices idx (Operations buf))
| reach_proof_by_value s s' leaf idx v p :
    context_active -> reg_reachable s leaf idx -> 0 <= v < 2 ^ 256 ->
    runs (Registry_CreateProof v) s p s' -> reg_reachable s' leaf idx.

Lemma Registry_CreateProof_ok (s : registry_state) (leaf : Z -> Z) (idx : Z -> option Z) (v i : Z) :
  context_active -> reg_models s leaf idx -> 0 <= v < 2 ^ 256 -> idx v = Some i ->
  exists s' p, runs (Registry_CreateProof v) s p s' /\ reg_models s' leaf idx /\
    depth (reg_tree s') = depth (reg_tree s) /\ emtpyLeaf (reg_tree s') = emtpyLeaf (reg_tree s) /\
    Proof_Leaf p = leaf i /\ Proof_Index p = i /\
    Proof_Root p = tree_root hash (depth (reg_tree s)) leaf /\
    root_of hash (leaf i) (Proof_Path p) i = Proof_Root p /\ path_ok (depth (reg_tree s)) (Proof_Path p).
Proof.
  intros Hctx Hm Hv Hi. destruct (CreateProof_locked_ok s leaf idx i Hctx Hm (rm_range _ _ _ Hm v i Hi))
      as (s' & p & R & H).
  exists s', p. split; [|done]. unfold Registry_CreateProof. eapply runs_bind; [|exact R].
  unfold runs. by rewrite (CreateProof_lookup_ok s leaf idx v Hm Hv), Hi.
Qed.

Lemma reachable_models (s : registry_state) (leaf : Z -> Z) (idx : Z -> option Z) :
  reg_reachable s leaf idx ->
  reg_models s leaf idx /\ index_agrees (emtpyLeaf (reg_tree s)) (depth (reg_tree s)) leaf idx.
Proof.
  induction 1 as [s Hn|s s' leaf idx jd buf block jb _ [IH Ha] Hj Hjb Hops Hprop Hnz R
    |s s' leaf idx v p Hctx _ [IH Ha] Hv R].
  - split; [by apply new_registry_models|]. split; [done|]. intros i Hi. by intros [].
  - destruct (Job_Commit_models s leaf idx jd buf block jb IH Hj Hjb Hops Hnz) as (s1 & R1 & M1 & D1 & E1 & _).
    destruct (runs_det _ _ _ _ _ _ R R1) as [_ ->]. split; [done|]. rewrite D1, E1. by apply index_agrees_all.
  - destruct (idx v) as [i|] eqn:E.
    + destruct (Registry_CreateProof_ok s leaf idx v i Hctx IH Hv E) as (s1 & p1 & R1 & M1 & D1 & E1 & _).
      destruct (runs_det _ _ _ _ _ _ R R1) as [_ ->]. by rewrite D1, E1.
    + unfold Registry_CreateProof, runs, go_bind in R.
      by rewrite (CreateProof_lookup_ok s leaf idx v IH Hv), E in R.
Qed.
End Runs.
