(* ===== verification/RegistryTheorems.v ===== *)
(** Theorems about the storage and the registries of [internal/zkregistry]: committing the
    operations of an indexed block changes the stored tree and the index of leaves as the
    operations say and touches nothing else; proofs by value; keys never collide; what the
    leaf storage reads back; how registry addresses are numbered. *)

From stdpp Require Import base list numbers strings gmap.
From Stdlib Require Import ZArith Lia.
From S2P Require Import Prelude GoBase MerkleSpec SparseTree SparseTreeFacts SparseTreeInsert.
From S2P Require Import SparseTreeProofs SparseTreeSimulation Storage StorageFacts Registry RegistryFacts.
From S2P Require Import RegistryRuns GoInstance.
Local Open Scope Z_scope.

Section Theorems.
Context {U256 : Uint256} {UL : Uint256Laws U256} {PH : Poseidon} {PL : PoseidonLaws PH} {GE : GoEnv}.
Context {KV : KVDatabase} {KL : KVDatabaseLaws KV} {JC : JobCodec}.

(** * Committing *)

(** C7: the commit of an indexer job, when the database works and no node of the new tree is 0:
    the stored tree becomes the Merkle tree with all operations applied in order, the index of
    leaves is updated operation by operation, the job's record is stored, and no other record
    of the database, those of other registries included, changes. *)
Theorem job_commit_refines (s : registry_state) (leaf : Z -> Z) (idx : Z -> option Z) (jd : JobDescriptor)
    (buf : OperationsBuffer) (block : Z) (jb : gobytes) :
  let leaf' := abs_leaves (emtpyLeaf (reg_tree s)) leaf (Operations buf) in
  reg_models s leaf idx -> storage_key_ok (JobKey jd) -> encode_job (mkJob jd block) = inr jb ->
  Forall (operation_ok (depth (reg_tree s))) (Operations buf) -> no_zero_node (depth (reg_tree s)) leaf' ->
  exists s', runs (Job_Commit jd buf block) s tt s' /\
    reg_models s' leaf' (abs_indices idx (Operations buf)) /\
    contents (rs_db s') !! makeJobKey jd = Some jb /\
    forall k, storage_key_ok k -> ~ belongs_to (reg_index s) jd k ->
      contents (rs_db s') !! key_bytes k = contents (rs_db s) !! key_bytes k.
Proof.
  intros leaf' Hm Hj Hjb Hops Hnz.
  destruct (Job_Commit_models s leaf idx jd buf block jb Hm Hj Hjb Hops Hnz) as (s' & R & M & _ & _ & _ & Ej & Hk).
  by exists s'.
Qed.

(** * Proofs by value *)

(** C11: in every registry that commits of proper operations produce from a new one, a proof is
    found by value for exactly the values in the tree: it holds the value, its index and the
    root of the tree, and leads from the value to the root; for any other value the answer is
    a not-found error. *)
Theorem registry_proofs_by_value (s : registry_state) (leaf : Z -> Z) (idx : Z -> option Z) (v : Z) :
  let d := depth (reg_tree s) in
  context_active -> reg_reachable s leaf idx -> 0 <= v < 2 ^ 256 -> v <> emtpyLeaf (reg_tree s) ->
  (forall i, 0 <= i < 2 ^ d -> leaf i = v -> exists s' p, runs (Registry_CreateProof v) s p s' /\
     Proof_Leaf p = v /\ Proof_Index p = i /\ Proof_Root p = tree_root hash d leaf /\
     root_of hash v (Proof_Path p) i = Proof_Root p) /\
  ((forall i, 0 <= i < 2 ^ d -> leaf i <> v) ->
     exists e, Registry_CreateProof v s = (Throw e, s) /\ is_not_found e = true).
Proof.
  intros d Hctx Hreach Hv Hne. destruct (reachable_models s leaf idx Hreach) as [Hm [H1 H2]]. split.
  - intros i Hi E. assert (idx v = Some i) as Hidx by (rewrite <- E; apply H2; [done|by rewrite E]).
    destruct (Registry_CreateProof_ok s leaf idx v i Hctx Hm Hv Hidx) as (s' & p & R & _ & _ & _ & P1 & P2 &
        P3 & P4 & _).
    exists s', p. rewrite E in P1, P4. done.
  - intros Hnone. destruct (idx v) as [i|] eqn:E.
    + destruct (H1 v i E) as [Hl _]. destruct (Hnone i); [by apply (rm_range _ _ _ Hm v)|done].
    + eexists. split; [|shelve]. unfold Registry_CreateProof, go_bind.
      rewrite (CreateProof_lookup_ok s leaf idx v Hm Hv), E. reflexivity.
      Unshelve. done.
Qed.

(** [CreateProof] looks the index of a value up before it takes the registry's lock.  When a
    commit that revokes the value comes in between, the call still succeeds, with a proof of
    the empty leaf under the new root instead of a not-found error. *)
Theorem stale_lookup_proves_empty_leaf (s : registry_state) (leaf : Z -> Z) (idx : Z -> option Z) (v i : Z)
    (jd : JobDescriptor) (block : Z) (jb : gobytes) :
  let e := emtpyLeaf (reg_tree s) in
  let revocation := AppendRevocation i v NewOperationsBuffer in
  context_active -> reg_models s leaf idx -> in_field v -> idx v = Some i ->
  storage_key_ok (JobKey jd) -> encode_job (mkJob jd block) = inr jb ->
  no_zero_node (depth (reg_tree s)) (set_leaf leaf i e) ->
  exists s1 s2 p, runs (CreateProof_lookup v) s i s /\ runs (Job_Commit jd revocation block) s tt s1 /\
    runs (CreateProof_locked i) s1 p s2 /\
    Proof_Leaf p = e /\ root_of hash e (Proof_Path p) i = Proof_Root p /\
    (exists err, Registry_CreateProof v s1 = (Throw err, s1) /\ is_not_found err = true).
Proof.
  intros e revocation Hctx Hm Hf Hidx Hj Hjb Hnz. pose proof (rm_range _ _ _ Hm v i Hidx) as Hi.
  assert (0 <= v < 2 ^ 256) as Hv by (by apply field_256).
  destruct (Job_Commit_models s leaf idx jd revocation block jb Hm Hj Hjb) as (s1 & R1 & M1 & D1 & E1 & _).
  { apply (Forall_singleton (operation_ok (depth (reg_tree s))) (mkLeafOperation (mkTreeLeaf i v)
      OperationRevocation)).
    split; [by right|done]. }
  { exact Hnz. }
  destruct (CreateProof_locked_ok s1 _ _ i Hctx M1) as (s2 & p & R2 & _ & _ & _ & P1 & _ & _ & P4 & _);
      [by rewrite D1|].
  assert (abs_leaves e leaf (Operations revocation) i = e) as El by apply set_leaf_same.
  exists s1, s2, p. fold e in P1, P4. rewrite El in P1, P4.
  split; [unfold runs; by rewrite (CreateProof_lookup_ok s leaf idx v Hm Hv), Hidx|].
  split; [done|]. split; [done|]. split; [done|]. split; [done|].
  eexists. split; [|shelve]. unfold Registry_CreateProof, go_bind.
  rewrite (CreateProof_lookup_ok s1 _ _ v M1 Hv).
  assert (abs_indices idx (Operations revocation) v = None) as -> by (cbn; unfold abs_index; cbn;
      by rewrite Z.eqb_refl).
  reflexivity.
  Unshelve. done.
Qed.

(** * The storage *)

(** No two records of the database share a key: tree nodes, leaf indices, metadata, numbers
    of registries, their counter and jobs, for keys in the range of their types. *)
Theorem storage_keys_distinct (k k' : storage_key) :
  storage_key_ok k -> storage_key_ok k' -> key_bytes k = key_bytes k' -> k = k'.
Proof. apply key_bytes_inj. Qed.

(** C31: the leaf storage reads back every value it was given except 0, which is written as no
    bytes and reads as not found; nodes at other places and the index of leaves are not
    touched. *)
Theorem leaf_storage_roundtrip (d : DB) (r l i v : Z) :
  0 <= r < 2 ^ 8 -> key_ok l i -> 0 <= v < 2 ^ 256 ->
  exists d', runs (LeafStorage_SetLeaf r l i v) d tt d' /\
    LeafStorage_GetLeaf d' r l i = (if v =? 0 then Throw ErrNotFound else Ok v) /\
    (forall r' l' i', 0 <= r' < 2 ^ 8 -> key_ok l' i' -> (r', l', i') <> (r, l, i) ->
       LeafStorage_GetLeaf d' r' l' i' = LeafStorage_GetLeaf d r' l' i') /\
    (forall r' w, 0 <= r' < 2 ^ 8 -> 0 <= w < 2 ^ 256 ->
       LeafStorage_GetLeafIndex d' r' w = LeafStorage_GetLeafIndex d r' w).
Proof.
  intros Hr Hk Hv. assert (storage_key_ok (LeafKey r l i)) as Hok by done.
  destruct (Set_contents d (makeLeafKey r l i) (uint256_Bytes v)) as (d' & E & Hc);
    [by apply (key_bytes_nonempty (LeafKey r l i))|].
  assert (forall k, storage_key_ok k -> k <> LeafKey r l i ->
      contents d' !! key_bytes k = contents d !! key_bytes k) as Hother.
  { intros k Hk' Hne. rewrite Hc. apply lookup_insert_ne. intros E'. apply Hne. symmetry. by apply key_bytes_inj. }
  exists d'. split; [done|]. split; [|split].
  - rewrite GetLeaf_contents, Hc, lookup_insert_eq, decode_node_Bytes by done. by destruct (v =? 0).
  - intros r' l' i' Hr' Hk' Hne. rewrite !GetLeaf_contents by done.
    rewrite (Hother (LeafKey r' l' i') (conj Hr' Hk') ltac:(congruence)
        : contents d' !! makeLeafKey r' l' i' = _). done.
  - intros r' w Hr' Hw. unfold LeafStorage_GetLeafIndex.
    rewrite (DB_Get_key d' (LeafIndexKey r' w) (conj Hr' Hw) : DB_Get d' (makeLeafIndexKey r' w) = _).
    rewrite (DB_Get_key d (LeafIndexKey r' w) (conj Hr' Hw) : DB_Get d (makeLeafIndexKey r' w) = _).
    by rewrite (Hother (LeafIndexKey r' w) (conj Hr' Hw)).
Qed.

(** * Numbers of registries *)

(** Registering addresses one after the other. *)
Fixpoint apply_addresses (addresses : list gobytes) : go DB (list Z) :=
  match addresses with
  | [] => go_ret []
  | a :: addresses' =>
      let! i := ApplyAddressToIndex a in
      let! rest := apply_addresses addresses' in
      go_ret (i :: rest)
  end.

(** [n] addresses have been numbered. *)
Definition numbered (d : DB) (n : nat) : Prop := next_index d = Z.of_nat n mod 256.

Lemma apply_addresses_ok (addresses : list gobytes) (d : DB) (n : nat) :
  Forall address_ok addresses -> NoDup addresses -> numbered d n ->
  Forall (fun a => contents d !! makeRegistryIndexKey a = None) addresses ->
  exists d', runs (apply_addresses addresses) d (map (fun k => Z.of_nat k mod 256) (seq n (length addresses))) d' /\
    (forall a, address_ok a -> a ∉ addresses ->
       contents d' !! makeRegistryIndexKey a = contents d !! makeRegistryIndexKey a) /\
    forall k a, addresses !! k = Some a -> contents d' !! makeRegistryIndexKey a = Some [Z.of_nat (n + k) mod 256].
Proof.
  revert d n. induction addresses as [|a addresses IH]; intros d n Hok Hnd Hn Hnew; cbn [apply_addresses].
  { exists d. done. }
  apply Forall_cons in Hok as [Ha Hok]. apply NoDup_cons in Hnd as [Hna Hnd]. apply Forall_cons in
      Hnew as [Hnew1 Hnew].
  assert (forall a', address_ok a' -> makeRegistryIndexKey a' <> makeRegistryIndexCounterKey) as Hctr.
  { intros a' Ha' E. assert (RegistryIndexKey a' = CounterKey) as [=]. by apply key_bytes_inj. }
  assert (forall a', address_ok a' -> makeRegistryIndexKey a' = makeRegistryIndexKey a -> a' = a) as Hinj.
  { intros a' Ha' E. assert (RegistryIndexKey a' = RegistryIndexKey a) as [= ->]; [|done]. by apply key_bytes_inj. }
  destruct (ApplyAddressToIndex_new d a Ha Hnew1) as (d1 & R1 & C1).
  assert (forall a', address_ok a' -> a' <> a ->
    contents d1 !! makeRegistryIndexKey a' = contents d !! makeRegistryIndexKey a') as Hkeep.
  { intros a' Ha' Hne. rewrite C1, lookup_insert_ne by (by apply not_eq_sym, Hctr).
    apply lookup_insert_ne. intros E. by apply Hne, Hinj. }
  destruct (IH d1 (S n)) as (d2 & R2 & K2 & L2); [done|done| | |].
  { unfold numbered, next_index. rewrite C1, lookup_insert_eq, Hn. unfold u8. change (2 ^ 8) with 256.
    rewrite Zplus_mod_idemp_l. f_equal. lia. }
  { apply Forall_forall. intros a' Hin. rewrite Hkeep; [by apply (proj1 (Forall_forall _ _) Hnew)
      |by apply (proj1 (Forall_forall _ _) Hok)|by intros ->]. }
  exists d2. split; [|split].
  - eapply runs_bind; [exact R1|]. eapply runs_bind; [exact R2|]. cbn [length seq map]. by rewrite Hn.
  - intros a' Ha' Hnin. apply not_elem_of_cons in Hnin as [Hne Hnin]. by rewrite K2, Hkeep.
  - intros [|k] a' Hlook.
    + injection Hlook as <-. rewrite K2 by done. rewrite C1, lookup_insert_ne by (by apply not_eq_sym, Hctr).
      rewrite lookup_insert_eq, Hn. by rewrite Nat.add_0_r.
    + rewrite (L2 k a' Hlook). do 3 f_equal. lia.
Qed.

(** C32: addresses that are registered one after the other are numbered 0, 1, 2, ... modulo 256,
    and found under their number; registering one again changes nothing.  The number is one
    byte, so the 257th registry shares the number, and with it the stored tree, of the first. *)
Theorem registry_numbers (addresses : list gobytes) (d : DB) :
  Forall address_ok addresses -> NoDup addresses -> contents d !! makeRegistryIndexCounterKey = None ->
  Forall (fun a => contents d !! makeRegistryIndexKey a = None) addresses ->
  exists d', runs (apply_addresses addresses) d (map (fun k => Z.of_nat k mod 256) (seq 0 (length addresses))) d' /\
    forall k a, addresses !! k = Some a ->
      runs (FindRegistryIndex a) d' (Z.of_nat k mod 256) d' /\ runs (ApplyAddressToIndex a)
          d' (Z.of_nat k mod 256) d'.
Proof.
  intros Hok Hnd Hc Hnew. destruct (apply_addresses_ok addresses d 0 Hok Hnd) as (d' & R & _ & L);
    [unfold numbered, next_index; by rewrite Hc|done|].
  exists d'. split; [done|]. intros k a Hlook. pose proof (L k a Hlook) as E.
  assert (address_ok a) as Ha by (by apply (Forall_lookup_1 _ _ _ _ Hok Hlook)). split.
  - unfold runs. by rewrite FindRegistryIndex_ok, E.
  - by apply (ApplyAddressToIndex_known d' a _ []).
Qed.
End Theorems.

(** * Witnesses: a registry of depth 3 over a database in memory *)

#[export] Instance toy_codec : JobCodec := {
  encode_job job := inr (be_bytes 8 (Job_CurrentBlock job));
}.

Definition toy_address : gobytes := replicate AddressLength 17.
Definition toy_job : JobDescriptor := mkJobDescriptor toy_address 1 100.
Definition toy_metadata : Metadata := mkMetadata toy_address 3 7 100 "registry" 0.
Definition toy_registry : ZKCertificateRegistry :=
  mkZKCertificateRegistry toy_metadata (mkTreeObject 7 3 None (mkLeafView 0)) (mkLeafView 0) NewProgress.
Definition toy_reg_state : registry_state := mkRegistryState toy_registry ∅ (mkWorld 0 0).
Definition toy_buffer : OperationsBuffer := AppendAddition 6 30 (AppendAddition 1 20 NewOperationsBuffer).
Definition toy_reg_leaves : Z -> Z := abs_leaves 7 (fun _ => 7) (Operations toy_buffer).
Definition toy_index : Z -> option Z := abs_indices (fun _ => None) (Operations toy_buffer).

(** All nodes of a small tree at once. *)
Definition no_zero_check (d : Z) (leaf : Z -> Z) : bool :=
  forallb (fun l => forallb (fun i => negb (tree_nodes hash leaf l i =? 0)) (seqZ 0 (2 ^ (d - l)))) (seqZ 0 (d + 1)).

Lemma no_zero_check_sound (d : Z) (leaf : Z -> Z) : no_zero_check d leaf = true -> no_zero_node d leaf.
Proof.
  unfold no_zero_check. intros H l i [Hl Hi]. rewrite forallb_forall in H.
  specialize (H l ltac:(apply list_elem_of_In, elem_of_seqZ; lia)). rewrite forallb_forall in H.
  specialize (H i ltac:(apply list_elem_of_In, elem_of_seqZ; lia)).
      by destruct (Z.eqb_spec (tree_nodes hash leaf l i) 0).
Qed.

Lemma toy_new : new_registry toy_reg_state.
Proof.
  unfold new_registry. cbn [toy_reg_state rs_reg rs_db]. repeat split; try (cbn; lia); intros; apply lookup_empty.
Qed.

Lemma toy_buffer_ok : Forall (operation_ok (depth (reg_tree toy_reg_state))) (Operations toy_buffer).
Proof. repeat constructor; cbn; lia. Qed.

Lemma toy_no_zero : no_zero_node 3 toy_reg_leaves.
Proof. apply no_zero_check_sound. vm_compute. reflexivity. Qed.

Lemma toy_job_ok : storage_key_ok (JobKey toy_job).
Proof. split; [done|]. cbn. lia. Qed.

Lemma toy_encodes (block : Z) : encode_job (mkJob toy_job block) = inr (be_bytes 8 block).
Proof. reflexivity. Qed.

Lemma job_commit_refines_witness :
  exists s', runs (Job_Commit toy_job toy_buffer 105) toy_reg_state tt s' /\ reg_models s' toy_reg_leaves toy_index.
Proof.
  destruct (job_commit_refines toy_reg_state (fun _ => 7) (fun _ => None) toy_job toy_buffer 105 (be_bytes 8 105)
    (new_registry_models toy_reg_state toy_new) toy_job_ok (toy_encodes 105) toy_buffer_ok toy_no_zero)
        as (s' & R & M & _).
  exists s'. split; [exact R|exact M].
Defined.

(** The registry after the commit. *)
Definition toy_committed : registry_state := snd (Job_Commit toy_job toy_buffer 105 toy_reg_state).

Lemma toy_commit_runs : runs (Job_Commit toy_job toy_buffer 105) toy_reg_state tt toy_committed.
Proof. apply injective_projections; [vm_compute; reflexivity|reflexivity]. Qed.

Lemma toy_reachable : reg_reachable toy_committed toy_reg_leaves toy_index.
Proof.
  apply (reach_commit toy_reg_state toy_committed (fun _ => 7) (fun _ => None) toy_job toy_buffer 105 (be_bytes 8 105)
    (reach_new_registry toy_reg_state toy_new) toy_job_ok (toy_encodes 105) toy_buffer_ok);
        [|apply toy_no_zero|apply toy_commit_runs].
  repeat split; done.
Qed.

Lemma toy_active_context : context_active.
Proof. done. Qed.

Lemma toy_committed_tree : depth (reg_tree toy_committed) = 3 /\ emtpyLeaf (reg_tree toy_committed) = 7.
Proof. split; vm_compute; reflexivity. Qed.

Lemma registry_proofs_by_value_witness :
  exists s' p, runs (Registry_CreateProof 30) toy_committed p s' /\ Proof_Index p = 6 /\
    root_of hash 30 (Proof_Path p) 6 = Proof_Root p.
Proof.
  destruct toy_committed_tree as [Ed Ee].
  destruct (registry_proofs_by_value toy_committed toy_reg_leaves toy_index 30 toy_active_context
      toy_reachable) as [H _];
    [lia|rewrite Ee; lia|].
  destruct (H 6) as (s' & p & R & _ & Hi & _ & V); [rewrite Ed; lia|vm_compute; reflexivity|].
  exists s', p. split; [exact R|]. split; [exact Hi|exact V].
Defined.

Lemma stale_lookup_proves_empty_leaf_witness :
  exists s1 s2 p, runs (CreateProof_lookup 30) toy_committed 6 toy_committed /\
    runs (Job_Commit toy_job (AppendRevocation 6 30 NewOperationsBuffer) 106) toy_committed tt s1 /\
    runs (CreateProof_locked 6) s1 p s2 /\ Proof_Leaf p = 7.
Proof.
  destruct toy_committed_tree as [Ed Ee].
  destruct (stale_lookup_proves_empty_leaf toy_committed toy_reg_leaves toy_index 30 6 toy_job 106 (be_bytes 8 106)
    toy_active_context) as (s1 & s2 & p & R1 & R2 & R3 & P & _).
  - apply reachable_models, toy_reachable.
  - split; cbn; lia.
  - vm_compute. reflexivity.
  - apply toy_job_ok.
  - reflexivity.
  - rewrite Ed, Ee. apply no_zero_check_sound. vm_compute. reflexivity.
  - exists s1, s2, p. rewrite Ee in P. split; [exact R1|]. split; [exact R2|]. split; [exact R3|exact P].
Defined.

Lemma storage_keys_distinct_witness : makeLeafKey 1 2 3 <> makeLeafKey 1 3 2.
Proof.
  intros E. assert (LeafKey 1 2 3 = LeafKey 1 3 2) as [=]; [|lia..].
  apply (storage_keys_distinct (LeafKey 1 2 3) (LeafKey 1 3 2)); [split; [lia|split; lia]..|exact E].
Defined.

Lemma leaf_storage_roundtrip_witness :
  exists d', runs (LeafStorage_SetLeaf 0 0 5 0) (rs_db toy_reg_state) tt d' /\
      LeafStorage_GetLeaf d' 0 0 5 = Throw ErrNotFound.
Proof.
  destruct (leaf_storage_roundtrip (rs_db toy_reg_state) 0 0 5 0) as (d' & R & E & _); [lia|split; lia|lia|].
  exists d'. split; [exact R|exact E].
Defined.

Lemma registry_numbers_witness :
  exists d', runs (apply_addresses [toy_address; replicate AddressLength 18]) (rs_db toy_reg_state) [0; 1] d'.
Proof.
  destruct (registry_numbers [toy_address; replicate AddressLength 18] (rs_db toy_reg_state)) as (d' & R & _).
  - by repeat constructor.
  - by apply (bool_decide_eq_true_1 _); vm_compute.
  - reflexivity.
  - repeat constructor.
  - exists d'. exact R.
Defined.
