(* ===== verification/Service.v ===== *)
(** The registry service ([internal/zkregistry/service.go]) and the storage of registry metadata
    ([metadata_storage.go]): registries are created from the stored metadata, or from what the
    contract says, and kept in a map by their number. *)

From stdpp Require Import base list numbers strings gmap.
From Stdlib Require Import ZArith Lia.
From S2P Require Import Prelude GoBase SparseTree Storage Registry.
Local Open Scope Z_scope.

(** The msgpack encoding of metadata (package [codec]). *)
Class MetadataCodec := {
  codec_Encode : Metadata -> go_error + gobytes;
  codec_Decode : gobytes -> go_error + Metadata;
}.

(** The contract of a registry, called over RPC through the generated bindings: the answers
    are big integers, 32 bytes and a string. *)
Class RegistryContract := {
  NewZkCertificateRegistryCaller : gobytes -> go_error + unit;
  contract_TreeDepth : gobytes -> go_error + Z;
  contract_ZEROVALUE : gobytes -> go_error + gobytes;
  contract_InitBlockHeight : gobytes -> go_error + Z;
  contract_Description : gobytes -> go_error + string;
}.

Section Code.
Context {U256 : Uint256} {PH : Poseidon} {GE : GoEnv} {KV : KVDatabase}.
Context {MC : MetadataCodec} {RC : RegistryContract}.

(** * Metadata storage *)

Definition encodeMetadata (metadata : Metadata) : gores gobytes :=
  wrap_res "encode metadata: %w" [] (lift (codec_Encode metadata)).

Definition decodeMetadata (metadataBytes : gobytes) : gores Metadata :=
  wrap_res "decode metadata: %w" [] (lift (codec_Decode metadataBytes)).

Definition SetMetadata (metadata : Metadata) : go Batch unit :=
  let! metadataBytes := go_res (encodeMetadata metadata) in
  Batch_Set (makeZKCertificateRegistryKey (Meta_Address metadata)) metadataBytes.

Definition GetMetadata (address : gobytes) : go DB Metadata :=
  fun database =>
    (let* metadataBytes := DB_Get database (makeZKCertificateRegistryKey address) in
     if (length metadataBytes =? 0)%nat then Throw ErrNotFound else decodeMetadata metadataBytes, database).

(** * The service

    Registries are objects: [sv_objects] holds them by handle, [sv_registry] is the map from
    numbers to handles. *)
Record service_state : Type := mkServiceState {
  sv_db : DB;
  sv_objects : list ZKCertificateRegistry;
  sv_registry : gmap RegistryIndex nat;
  sv_world : world
}.

(** [NewService] over a database. *)
Definition NewService (database : DB) (w : world) : service_state := mkServiceState database [] ∅ w.

Definition on_sv_db {A : Type} (m : go DB A) : go service_state A :=
  fun s => let (c, database) := m (sv_db s) in
      (c, mkServiceState database (sv_objects s) (sv_registry s) (sv_world s)).

(** [Service.ZKCertificateRegistry] *)
Definition find_registry (address : gobytes) : go service_state nat :=
  let! index := go_wrap "failed to find registry index: %w" [] (on_sv_db (FindRegistryIndex address)) in
  fun s => match sv_registry s !! index with
           | Some registry => (Ok registry, s)
           | None => (Throw ErrNotFound, s)
           end.

(** [TreeLevel(treeDepth.Uint64())]: the low 8 bits of the low 64 bits. *)
Definition fetchMetadataFromContract (address : gobytes) : gores Metadata :=
  let* _ := wrap_res "failed to create contract caller: %w" [] (lift (NewZkCertificateRegistryCaller address)) in
  let* treeDepth := wrap_res "failed to get tree depth: %w" [] (lift (contract_TreeDepth address)) in
  let* emptyValue := wrap_res "failed to get tree depth: %w" [] (lift (contract_ZEROVALUE address)) in
  let (emptyValueUint256, overflow) := uint256_FromBig (be_value emptyValue) in
  if overflow then Throw (Errorf "failed to convert empty value to uint256" [] None)
  else
    let* initBlockHeight := wrap_res "failed to get init block height: %w" []
        (lift (contract_InitBlockHeight address)) in
    let* description := wrap_res "failed to get description: %w" [] (lift (contract_Description address)) in
    Ok (mkMetadata address (u8 (u64 treeDepth)) emptyValueUint256 (u64 initBlockHeight) description 0).

Definition with_index (index : RegistryIndex) (m : Metadata) : Metadata :=
  mkMetadata (Meta_Address m) (Meta_Depth m) (Meta_EmptyValue m) (Meta_InitBlockHeight m) (Meta_Description m) index.

(** The number of the registry, which is assigned if there is none. *)
Definition registry_number (address : gobytes) : go service_state RegistryIndex :=
  let! found := go_try (on_sv_db (FindRegistryIndex address)) in
  match found with
  | inr registryIndex => go_ret registryIndex
  | inl err =>
      if negb (is_not_found err) then go_throw (Errorf "failed to find registry index: %w" [] (Some err))
      else go_wrap "failed to apply address to index: %w" [] (on_sv_db (ApplyAddressToIndex address))
  end.

(** The metadata of the registry, which is fetched and stored if there is none. *)
Definition registry_metadata (address : gobytes) (registryIndex : RegistryIndex) : go service_state Metadata :=
  let! found := go_try (on_sv_db (GetMetadata address)) in
  match found with
  | inr metadata => go_ret metadata
  | inl err =>
      if negb (is_not_found err) then go_throw (Errorf "failed to get registry metadata: %w" [] (Some err))
      else
        let! metadata := go_wrap "failed to fetch metadata from contract: %w" []
            (go_res (fetchMetadataFromContract address)) in
        let metadata := with_index registryIndex metadata in
        let! _ := on_sv_db (with_new_batch (
          let! _ := go_wrap "failed to set metadata: %w" [] (on_local_batch (SetMetadata metadata)) in
          go_wrap "failed to write batch: %w" [] write_local_batch)) in
        go_ret metadata
  end.

(** [NewSparseTree] and [NewZKCertificateRegistry] over a view of the leaf storage. *)
Definition new_registry_object (metadata : Metadata) (registryIndex : RegistryIndex) : ZKCertificateRegistry :=
  let leafView := mkLeafView registryIndex in
  mkZKCertificateRegistry metadata
    (mkTreeObject (Meta_EmptyValue metadata) (Meta_Depth metadata) None leafView) leafView NewProgress.

Definition add_registry (registryIndex : RegistryIndex) (registry : ZKCertificateRegistry) : go service_state nat :=
  fun s => let h := length (sv_objects s) in
    (Ok h, mkServiceState (sv_db s) (sv_objects s ++ [registry]) (<[registryIndex := h]> (sv_registry s))
        (sv_world s)).

Definition InitializeRegistry (address : gobytes) : go service_state nat :=
  let! registryIndex := registry_number address in
  let! metadata := registry_metadata address registryIndex in
  add_registry registryIndex (new_registry_object metadata registryIndex).

(** A method of the registry object [h]. *)
Definition on_registry {A : Type} (h : nat) (m : go registry_state A) : go service_state A :=
  fun s => match sv_objects s !! h with
           | None => (Throw (Panic "nil pointer dereference"), s)
           | Some reg =>
               let (c, s') := m (mkRegistryState reg (sv_db s) (sv_world s)) in
               (c, mkServiceState (rs_db s') (<[h := rs_reg s']> (sv_objects s)) (sv_registry s) (rs_world s'))
           end.
End Code.
