(* ===== verification/ServiceFacts.v ===== *)
(** The registry service over the database: what is stored for a registered address, and what
    [InitializeRegistry] reads, stores and returns. *)

From stdpp Require Import base list numbers strings gmap.
From Stdlib Require Import ZArith Lia.
From S2P Require Import Prelude GoBase MerkleSpec SparseTree SparseTreeFacts SparseTreeInsert.
From S2P Require Import SparseTreeProofs SparseTreeSimulation Storage StorageFacts Registry RegistryFacts Service.
Local Open Scope Z_scope.

(** Metadata reads back from its encoding, which is not empty. *)
Class MetadataCodecLaws (MC : MetadataCodec) := {
  Decode_Encode : forall m, exists bs, codec_Encode m = inr bs /\ bs <> [] /\ codec_Decode bs = inr m;
}.

Section Facts.
Context {U256 : Uint256} {UL : Uint256Laws U256} {PH : Poseidon} {PL : PoseidonLaws PH} {GE : GoEnv}.
Context {KV : KVDatabase} {KL : KVDatabaseLaws KV}.
Context {MC : MetadataCodec} {ML : MetadataCodecLaws MC} {RC : RegistryContract}.

Definition with_db (s : service_state) (d : DB) : service_state :=
  mkServiceState d (sv_objects s) (sv_registry s) (sv_world s).

Lemma with_db_same (s : service_state) : with_db s (sv_db s) = s.
Proof. by destruct s. Qed.

(** * What is stored for an address *)

Definition has_index (d : DB) (a : gobytes) (i : Z) : Prop := contents d !! makeRegistryIndexKey a = Some [i].

Definition has_metadata (d : DB) (a : gobytes) (m : Metadata) : Prop :=
  exists bs, contents d !! makeZKCertificateRegistryKey a = Some bs /\ bs <> [] /\ codec_Decode bs = inr m.

(** A registered address: a number, and metadata with that number. *)
Definition registered (d : DB) (a : gobytes) (m : Metadata) : Prop :=
  has_index d a (Meta_Index m) /\ has_metadata d a m.

(** The records that [InitializeRegistry] may write for an address. *)
Definition registration_key (a : gobytes) (k : storage_key) : Prop :=
  k = RegistryIndexKey a \/ k = CounterKey \/ k = MetadataKey a.

Definition same_records (P : storage_key -> Prop) (d d' : DB) : Prop :=
  forall k, storage_key_ok k -> ~ P k -> contents d' !! key_bytes k = contents d !! key_bytes k.

Lemma same_records_refl (P : storage_key -> Prop) (d : DB) : same_records P d d.
Proof. by intros k _ _. Qed.

Lemma same_records_trans (P : storage_key -> Prop) (d1 d2 d3 : DB) :
  same_records P d1 d2 -> same_records P d2 d3 -> same_records P d1 d3.
Proof. intros H1 H2 k Hk Hn. rewrite (H2 k Hk Hn). by apply H1. Qed.

(** * The number *)

Lemma find_index (d : DB) (a : gobytes) (i : Z) :
  address_ok a -> has_index d a i -> FindRegistryIndex a d = (Ok i, d).
Proof. intros Ha E. rewrite FindRegistryIndex_ok by done. unfold has_index in E. by rewrite E. Qed.

Lemma find_no_index (d : DB) (a : gobytes) :
  address_ok a -> contents d !! makeRegistryIndexKey a = None -> FindRegistryIndex a d = (Throw ErrNotFound, d).
Proof. intros Ha E. rewrite FindRegistryIndex_ok by done. by rewrite E. Qed.

(** Nothing under the prefix of jobs changes. *)
Definition jobs_untouched (d d' : DB) : Prop :=
  forall key, [JobKeyPrefix] `prefix_of` key -> contents d' !! key = contents d !! key.

Lemma job_prefix_other (k : storage_key) (key : gobytes) :
  storage_key_ok k -> key_prefix k <> JobKeyPrefix -> [JobKeyPrefix] `prefix_of` key -> key_bytes k <> key.
Proof. intros Hk Hp [l ->] E. rewrite key_bytes_eq in E by done. by injection E. Qed.

Lemma registry_number_known (s : service_state) (a : gobytes) (i : Z) :
  address_ok a -> has_index (sv_db s) a i -> runs (registry_number a) s i s.
Proof.
  intros Ha E. unfold runs, registry_number, go_bind, go_try, on_sv_db. rewrite (find_index _ a i Ha E).
  by destruct s.
Qed.

Lemma registry_number_new (s : service_state) (a : gobytes) :
  address_ok a -> contents (sv_db s) !! makeRegistryIndexKey a = None ->
  exists d', runs (registry_number a) s (next_index (sv_db s)) (with_db s d') /\
    has_index d' a (next_index (sv_db s)) /\ next_index d' = u8 (next_index (sv_db s) + 1) /\
    same_records (fun k => k = RegistryIndexKey a \/ k = CounterKey) (sv_db s) d' /\ jobs_untouched (sv_db s) d'.
Proof.
  intros Ha E. destruct (ApplyAddressToIndex_new (sv_db s) a Ha E) as (d' & R & C). exists d'.
  assert (makeRegistryIndexKey a <> makeRegistryIndexCounterKey) as Hne.
  { intros E'. assert (RegistryIndexKey a = CounterKey) as [=]. by apply key_bytes_inj. }
  split; [|split; [|split; [|split]]].
  - unfold runs, registry_number, go_bind, go_try, on_sv_db. rewrite (find_no_index _ a Ha E).
      cbn [is_panic is_not_found negb].
    unfold go_wrap. cbn [sv_db]. unfold runs in R. by rewrite R.
  - unfold has_index. rewrite C, lookup_insert_ne by (by apply not_eq_sym). by rewrite lookup_insert_eq.
  - unfold next_index at 1. by rewrite C, lookup_insert_eq.
  - intros k Hk Hn. rewrite C, !lookup_insert_ne; [done|..].
    + intros E'. apply Hn. left. symmetry. by apply key_bytes_inj.
    + intros E'. apply Hn. right. symmetry. by apply key_bytes_inj.
  - intros key Hk. rewrite C, !lookup_insert_ne; [done|by apply (job_prefix_other (RegistryIndexKey a))|].
    by apply (job_prefix_other CounterKey).
Qed.

(** * The metadata *)

Lemma GetMetadata_ok (d : DB) (a : gobytes) (m : Metadata) :
  address_ok a -> has_metadata d a m -> GetMetadata a d = (Ok m, d).
Proof.
  intros Ha (bs & E & Hne & Hd). unfold GetMetadata.
  rewrite (DB_Get_key d (MetadataKey a) Ha : DB_Get d (makeZKCertificateRegistryKey a) = _).
  cbn [key_bytes res_bind]. rewrite E. cbn [default from_option id]. unfold decodeMetadata. rewrite Hd.
  by destruct bs.
Qed.

Lemma GetMetadata_none (d : DB) (a : gobytes) :
  address_ok a -> contents d !! makeZKCertificateRegistryKey a = None -> GetMetadata a d = (Throw ErrNotFound, d).
Proof.
  intros Ha E. unfold GetMetadata.
  rewrite (DB_Get_key d (MetadataKey a) Ha : DB_Get d (makeZKCertificateRegistryKey a) = _).
  cbn [key_bytes res_bind]. by rewrite E.
Qed.

Lemma registry_metadata_known (s : service_state) (a : gobytes) (i : Z) (m : Metadata) :
  address_ok a -> has_metadata (sv_db s) a m -> runs (registry_metadata a i) s m s.
Proof.
  intros Ha Hm. unfold runs, registry_metadata, go_bind, go_try, on_sv_db. rewrite (GetMetadata_ok _ a m Ha Hm).
  by destruct s.
Qed.

Lemma registry_metadata_new (s : service_state) (a : gobytes) (i : Z) (m : Metadata) :
  address_ok a -> contents (sv_db s) !! makeZKCertificateRegistryKey a = None ->
  fetchMetadataFromContract a = Ok m -> Meta_Address m = a ->
  exists d', runs (registry_metadata a i) s (with_index i m) (with_db s d') /\
    has_metadata d' a (with_index i m) /\ same_records (fun k => k = MetadataKey a) (sv_db s) d' /\
    jobs_untouched (sv_db s) d'.
Proof.
  intros Ha E Hf Hma. destruct (Decode_Encode (with_index i m)) as (bs & Henc & Hne & Hdec).
  destruct (NewBatch_pending (sv_db s)) as [Hw0 Hp0].
  destruct (Batch_Set_pending (DB_NewBatch (sv_db s)) (makeZKCertificateRegistryKey a) bs Hw0) as (b1 & E1 &
      Hw1 & Hp1);
    [by apply (key_bytes_nonempty (MetadataKey a))|].
  destruct (WriteSync_contents b1 (sv_db s) Hw1) as (d' & E2 & Hc). rewrite Hp1, Hp0 in Hc. cbn in Hc.
  exists d'. split; [|split; [|split]].
  - unfold registry_metadata, runs. unfold go_bind at 1, go_try, on_sv_db. rewrite (GetMetadata_none _ a Ha E).
    cbn [is_panic is_not_found negb]. rewrite Hf. cbn [sv_db sv_objects sv_registry sv_world].
    erewrite (bind_runs _ _ _ _ m); [|reflexivity].
    erewrite (bind_runs _ _ _ (with_db s d') tt); [reflexivity|]. unfold runs, on_sv_db, with_new_batch. cbn [sv_db].
    erewrite (bind_runs _ _ (sv_db s, DB_NewBatch (sv_db s)) (sv_db s, b1) tt).
    2:{ apply runs_wrap. unfold runs, on_local_batch, SetMetadata, encodeMetadata. rewrite Henc. cbn [snd fst].
        erewrite bind_runs; [|reflexivity]. cbn [Meta_Address with_index]. by rewrite Hma, E1. }
    unfold go_wrap, write_local_batch. cbn [fst snd]. by rewrite E2.
  - exists bs. rewrite Hc, lookup_insert_eq. done.
  - intros k Hk Hn. rewrite Hc, lookup_insert_ne; [done|]. intros E'. apply Hn. symmetry. by apply key_bytes_inj.
  - intros key Hk. rewrite Hc, lookup_insert_ne; [done|]. by apply (job_prefix_other (MetadataKey a)).
Qed.

(** The calls of the contract in order, each answered or failed. *)
Ltac contract_calls a :=
  let zv := fresh "zero_value" in
  unfold fetchMetadataFromContract;
  destruct (NewZkCertificateRegistryCaller a); cbn [lift wrap_res res_bind]; [done|];
  destruct (contract_TreeDepth a) as [|]; cbn [lift wrap_res res_bind]; [done|];
  destruct (contract_ZEROVALUE a) as [|zv]; cbn [lift wrap_res res_bind]; [done|];
  destruct (uint256_FromBig (be_value zv)) as [? [|]]; [done|];
  destruct (contract_InitBlockHeight a) as [|]; cbn [lift wrap_res res_bind]; [done|];
  destruct (contract_Description a); cbn [lift wrap_res res_bind]; [done|].

Lemma fetched_address (a : gobytes) (m : Metadata) : fetchMetadataFromContract a = Ok m -> Meta_Address m = a.
Proof. contract_calls a. by intros [= <-]. Qed.

Lemma fetch_returns (a : gobytes) : fetchMetadataFromContract a <> OutOfFuel.
Proof. contract_calls a. done. Qed.

(** * Initialisation *)

(** The state after the registry has been added. *)
Definition with_registry (s : service_state) (d : DB) (i : Z) (reg : ZKCertificateRegistry) : service_state :=
  mkServiceState d (sv_objects s ++ [reg]) (<[i := length (sv_objects s)]> (sv_registry s)) (sv_world s).

Lemma InitializeRegistry_known (s : service_state) (a : gobytes) (m : Metadata) :
  address_ok a -> registered (sv_db s) a m ->
  runs (InitializeRegistry a) s (length (sv_objects s))
    (with_registry s (sv_db s) (Meta_Index m) (new_registry_object m (Meta_Index m))).
Proof.
  intros Ha [Hi Hm]. unfold InitializeRegistry.
  eapply runs_bind; [by apply registry_number_known|]. eapply runs_bind; [by apply registry_metadata_known|]. done.
Qed.

(** An address has no number yet, or one. *)
Definition may_have_index (d : DB) (a : gobytes) : Prop :=
  contents d !! makeRegistryIndexKey a = None \/ exists i, has_index d a i.

(** The number an address has or gets. *)
Definition its_index (d : DB) (a : gobytes) : Z :=
  match contents d !! makeRegistryIndexKey a with Some (i :: _) => i | _ => next_index d end.

Lemma registry_number_ok (s : service_state) (a : gobytes) :
  let i := its_index (sv_db s) a in
  address_ok a -> may_have_index (sv_db s) a ->
  exists d', runs (registry_number a) s i (with_db s d') /\ has_index d' a i /\
    (contents (sv_db s) !! makeRegistryIndexKey a = None -> next_index d' = u8 (i + 1)) /\
    same_records (fun k => k = RegistryIndexKey a \/ k = CounterKey) (sv_db s) d' /\ jobs_untouched (sv_db s) d'.
Proof.
  intros i Ha Hi. unfold i, its_index. destruct Hi as [Hn|[j Hj]].
  - destruct (registry_number_new s a Ha Hn) as (d' & R & I & N & S & U). rewrite Hn. by exists d'.
  - exists (sv_db s). rewrite with_db_same, Hj. split; [by apply registry_number_known|].
    split; [done|]. split; [done|]. split; [apply same_records_refl|by intros key _].
Qed.

Lemma registration_weaken (a : gobytes) (d d' : DB) :
  same_records (fun k => k = RegistryIndexKey a \/ k = CounterKey) d d' -> same_records (registration_key a) d d'.
Proof. intros S k Hk Hn. apply S; [done|]. intros [->| ->]; apply Hn; unfold registration_key; auto. Qed.

Lemma InitializeRegistry_new (s : service_state) (a : gobytes) (m : Metadata) :
  let i := its_index (sv_db s) a in
  address_ok a -> may_have_index (sv_db s) a ->
  contents (sv_db s) !! makeZKCertificateRegistryKey a = None -> fetchMetadataFromContract a = Ok m ->
  exists d', runs (InitializeRegistry a) s (length (sv_objects s))
      (with_registry s d' i (new_registry_object (with_index i m) i)) /\
    registered d' a (with_index i m) /\ same_records (registration_key a) (sv_db s) d' /\
    (contents (sv_db s) !! makeRegistryIndexKey a = None -> next_index d' = u8 (i + 1)) /\
        jobs_untouched (sv_db s) d'.
Proof.
  intros i Ha Hi Hm Hf. pose proof (fetched_address a m Hf) as Hma.
  destruct (registry_number_ok s a Ha Hi) as (d1 & R1 & I1 & N1 & S1 & U1). fold i in R1, I1, N1.
  destruct (registry_metadata_new (with_db s d1) a i m Ha) as (d2 & R2 & M2 & S2 & U2); [|done|done|].
  { cbn [sv_db with_db]. rewrite <- Hm. apply (S1 (MetadataKey a) Ha). by intros [[=]|[=]]. }
  exists d2. split; [|split; [|split; [|split]]].
  - unfold InitializeRegistry. eapply runs_bind; [exact R1|]. eapply runs_bind; [exact R2|]. done.
  - split; [|done]. unfold has_index in *. cbn [Meta_Index with_index]. rewrite <- I1.
    apply (S2 (RegistryIndexKey a) Ha). by intros [=].
  - apply (same_records_trans _ _ d1); [by apply registration_weaken|].
    intros k Hk Hn. apply S2; [done|]. intros ->. apply Hn. unfold registration_key. auto.
  - intros Hn. rewrite <- (N1 Hn). unfold next_index. f_equal.
    apply (f_equal (fun o => match o with Some (c :: _) => u8 (c + 1) | _ => 0 end)).
    apply (S2 CounterKey I). by intros [=].
  - intros key Hk. exact (eq_trans (U2 key Hk) (U1 key Hk)).
Qed.

(** When the contract does not answer, only the number has been stored. *)
Lemma InitializeRegistry_no_contract (s : service_state) (a : gobytes) (e : go_error) :
  let i := its_index (sv_db s) a in
  address_ok a -> may_have_index (sv_db s) a ->
  contents (sv_db s) !! makeZKCertificateRegistryKey a = None -> fetchMetadataFromContract a = Throw e ->
  exists d', InitializeRegistry a s =
      (Throw (wrap_error "failed to fetch metadata from contract: %w" [] e), with_db s d') /\
    has_index d' a i /\ contents d' !! makeZKCertificateRegistryKey a = None /\
    same_records (registration_key a) (sv_db s) d'.
Proof.
  intros i Ha Hi Hm Hf. destruct (registry_number_ok s a Ha Hi) as (d' & R & I & _ & S & _). fold i in R, I.
  assert (contents d' !! makeZKCertificateRegistryKey a = None) as Hm'.
  { rewrite <- Hm. apply (S (MetadataKey a) Ha). by intros [[=]|[=]]. }
  exists d'. split; [|split; [done|split; [done|by apply registration_weaken]]].
  unfold InitializeRegistry. rewrite (bind_runs _ _ _ _ _ R). unfold registry_metadata.
  unfold go_bind at 1 2, go_try, on_sv_db. cbn [sv_db with_db]. rewrite (GetMetadata_none _ a Ha Hm').
  cbn [is_panic is_not_found negb]. unfold go_bind, go_wrap, go_res. by rewrite Hf.
Qed.

Lemma find_registry_ok (s : service_state) (a : gobytes) (i : Z) (h : nat) :
  address_ok a -> has_index (sv_db s) a i -> sv_registry s !! i = Some h -> runs (find_registry a) s h s.
Proof.
  intros Ha Hi Hh. unfold find_registry. eapply runs_bind.
  - apply runs_wrap. unfold runs, on_sv_db. rewrite (find_index _ a i Ha Hi). reflexivity.
  - unfold runs. cbn [sv_registry].
    match goal with |- context [match ?x with _ => _ end] => change x with (sv_registry s !! i) end.
    rewrite Hh. by destruct s.
Qed.

(** A registry object for metadata, whatever its cache and progress. *)
Definition object_of (m : Metadata) (reg : ZKCertificateRegistry) : Prop :=
  exists levels p, reg = mkZKCertificateRegistry m
    (mkTreeObject (Meta_EmptyValue m) (Meta_Depth m) levels (mkLeafView (Meta_Index m)))
        (mkLeafView (Meta_Index m)) p.

Lemma object_of_new (m : Metadata) : object_of m (new_registry_object m (Meta_Index m)).
Proof. by exists None, NewProgress. Qed.

Lemma object_of_same (m : Metadata) (reg reg' : ZKCertificateRegistry) :
  same_registry reg reg' -> object_of m reg -> object_of m reg'.
Proof. intros [levels ->] (l0 & p & ->). by exists levels, p. Qed.

Definition with_progress (p : Progress) (reg : ZKCertificateRegistry) : ZKCertificateRegistry :=
  mkZKCertificateRegistry (reg_metadata reg) (reg_sparseTree reg) (reg_leafView reg) p.

(** A registry that is opened again models what the database holds for its number. *)
Lemma reopened_models (s : registry_state) (leaf : Z -> Z) (idx : Z -> option Z) (m : Metadata) (p : Progress)
    (w : world) :
  object_of m (rs_reg s) -> reg_models s leaf idx ->
  reg_models (mkRegistryState (with_progress p (new_registry_object m (Meta_Index m))) (rs_db s) w) leaf idx.
Proof.
  intros (levels & p' & E) Hm. destruct s as [reg d w']. cbn [rs_reg rs_db] in *. subst reg.
  apply (recache_models _ _ _ None w) in Hm; [|by left]. destruct Hm. by split.
Qed.
End Facts.
