(* ===== verification/Jobs.v ===== *)
(** Indexer jobs ([internal/indexer]): the names of contracts ([job_contract.go]), the storage
    of jobs ([job_storage.go]), the factory of job handlers ([job_factory.go]), and the jobs
    that the application configures for its registries ([pkg/indexer/application.go]). *)

From stdpp Require Import base list numbers strings gmap.
From Stdlib Require Import ZArith Lia.
From S2P Require Import Prelude GoBase SparseTree Storage Registry Service.
Local Open Scope Z_scope.

(** * Names of contracts *)

Definition Contract : Type := Z.
Definition ContractZkCertificateRegistry : Contract := 1.
Definition ContractZkCertificateRegistryString : string := "ZkCertificateRegistry".

(** [UnmarshalText]: the new value of the receiver; it never fails. *)
Definition UnmarshalText (text : string) : Contract :=
  if String.eqb text ContractZkCertificateRegistryString then ContractZkCertificateRegistry else 0.

Definition ContractFromString (s : string) : Contract := UnmarshalText s.

Definition Contract_String (s : Contract) : string :=
  if s =? ContractZkCertificateRegistry then ContractZkCertificateRegistryString else "unknown".

Definition MarshalText (s : Contract) : string := Contract_String s.
Definition UnmarshalJSON (data : string) : Contract := UnmarshalText data.
Definition MarshalJSON (s : Contract) : string := MarshalText s.

(** [unmarshal] gives the text of the YAML node, or fails. *)
Definition UnmarshalYAML (unmarshal : gores string) : gores Contract :=
  let* text := unmarshal in Ok (UnmarshalText text).
Definition MarshalYAML (s : Contract) : string := Contract_String s.

(** * What the storage calls *)

(** Reading a job back from its msgpack encoding (package [codec]). *)
Class JobDecoder := {
  decode_job : gobytes -> go_error + Job;
}.

(** [db.IteratePrefix]: the records whose keys start with a prefix, in the order of keys
    (package [cometbft-db]). *)
Class KVIterator (KV : KVDatabase) := {
  DB_IteratePrefix : DB -> gobytes -> gores (list (gobytes * gobytes));
}.

Section Code.
Context {U256 : Uint256} {PH : Poseidon} {GE : GoEnv} {KV : KVDatabase} {KI : KVIterator KV}.
Context {JC : JobCodec} {JD : JobDecoder} {MC : MetadataCodec} {RC : RegistryContract}.

(** * Job storage *)

Definition DeleteJob (jobDescriptor : JobDescriptor) : go Batch unit := Batch_Delete (makeJobKey jobDescriptor).

Definition SelectJob (database : DB) (jobDescriptor : JobDescriptor) : gores Job :=
  let* jobBytes := DB_Get database (makeJobKey jobDescriptor) in
  wrap_res "deserialize job: %w" [] (lift (decode_job jobBytes)).

(** [for iter.Valid()]: a look at the context, then the next record. *)
Fixpoint SelectAllJobs_loop (records : list (gobytes * gobytes)) (jobs : list Job) (w : world)
    : gores (list Job) * world :=
  match records with
  | [] => (Ok jobs, w)
  | (_, value) :: records' =>
      let w' := mkWorld (S (checks w)) (draws w) in
      if ctx_done (checks w) then (Throw ctx_Err, w')
      else
        match wrap_res "deserialize job: %w" [] (lift (decode_job value)) with
        | Ok job => SelectAllJobs_loop records' (jobs ++ [job]) w'
        | Throw err => (Throw err, w')
        | OutOfFuel => (OutOfFuel, w')
        end
  end.

Definition SelectAllJobs (database : DB) (w : world) : gores (list Job) * world :=
  match DB_IteratePrefix database [JobKeyPrefix] with
  | Ok records => SelectAllJobs_loop records [] w
  | Throw err => (Throw err, w)
  | OutOfFuel => (OutOfFuel, w)
  end.

(** * The factory

    A handler of a job is the job's descriptor and the registry object it works on. *)
Record ZkCertificateRegistryJob : Type := mkZkCertificateRegistryJob {
  job_jobDescriptor : JobDescriptor;
  job_registry : nat
}.

(** The address in the first error is kept as its bytes, the name of the contract in the
    second as its number. *)
Definition Produce (jobDescriptor : JobDescriptor) : go service_state ZkCertificateRegistryJob :=
  if Job_Contract jobDescriptor =? ContractZkCertificateRegistry then
    let! registry := go_wrap "get zk certificate registry for address %s: %w" (Job_Address jobDescriptor)
                       (find_registry (Job_Address jobDescriptor)) in
    go_ret (mkZkCertificateRegistryJob jobDescriptor registry)
  else go_throw (Errorf "unknown contract: %s" [Job_Contract jobDescriptor] None).

(** * The jobs of a configuration *)

(** [registry.Metadata()] *)
Definition registry_Metadata (h : nat) : go service_state Metadata :=
  on_registry h (fun s => (Ok (reg_metadata (rs_reg s)), s)).

(** [if initBlockHeight > 0 { initBlockHeight-- }]; the address in the error is kept as its
    bytes. *)
Definition configure_job (address : gobytes) : go service_state JobDescriptor :=
  let! registry := go_wrap "initialize registry for address %s: %w" address (InitializeRegistry address) in
  let! metadata := registry_Metadata registry in
  let initBlockHeight := Meta_InitBlockHeight metadata in
  let initBlockHeight := if 0 <? initBlockHeight then initBlockHeight - 1 else initBlockHeight in
  go_ret (mkJobDescriptor address ContractZkCertificateRegistry initBlockHeight).

Fixpoint configureZkCertificateRegistry_loop (addresses : list gobytes) (jobs : list JobDescriptor)
    : go service_state (list JobDescriptor) :=
  match addresses with
  | [] => go_ret jobs
  | address :: addresses' =>
      let! job := configure_job address in
      configureZkCertificateRegistry_loop addresses' (jobs ++ [job])
  end.

Definition configureZkCertificateRegistry (addresses : list gobytes) : go service_state (list JobDescriptor) :=
  configureZkCertificateRegistry_loop addresses [].
End Code.
