(* ===== verification/JobsFacts.v ===== *)
(** The jobs of a configuration: what the application makes of addresses that are registered
    already and of new ones; the storage of jobs. *)

From stdpp Require Import base list numbers strings gmap.
From Stdlib Require Import ZArith Lia.
From S2P Require Import Prelude GoBase MerkleSpec SparseTree SparseTreeFacts SparseTreeInsert.
From S2P Require Import SparseTreeProofs SparseTreeSimulation Storage StorageFacts Registry.
From S2P Require Import RegistryFacts Service ServiceFacts.
From S2P Require Import Jobs.
Local Open Scope Z_scope.

Section Facts.
Context {U256 : Uint256} {UL : Uint256Laws U256} {PH : Poseidon} {PL : PoseidonLaws PH} {GE : GoEnv}.
Context {KV : KVDatabase} {KL : KVDatabaseLaws KV}.
Context {MC : MetadataCodec} {ML : MetadataCodecLaws MC} {RC : RegistryContract}.

(** * Configuration *)

(** The job for a registry: from the block before the contract's first one. *)
Definition job_of (a : gobytes) (m : Metadata) : JobDescriptor :=
  mkJobDescriptor a ContractZkCertificateRegistry
    (if 0 <? Meta_InitBlockHeight m then Meta_InitBlockHeight m - 1 else Meta_InitBlockHeight m).

Lemma configure_job_runs (s : service_state) (a : gobytes) (d : DB) (i : Z) (reg : ZKCertificateRegistry) :
  runs (InitializeRegistry a) s (length (sv_objects s)) (with_registry s d i reg) ->
  runs (configure_job a) s (job_of a (reg_metadata reg)) (with_registry s d i reg).
Proof.
  intros R. unfold configure_job. eapply runs_bind; [apply runs_wrap, R|].
  assert (sv_objects (with_registry s d i reg) !! length (sv_objects s) = Some reg) as Ho.
  { cbn [sv_objects with_registry]. by rewrite lookup_app_r, Nat.sub_diag. }
  eapply runs_bind; [|reflexivity]. unfold runs, registry_Metadata, on_registry. rewrite Ho.
  cbn [rs_db rs_reg rs_world]. by rewrite list_insert_id.
Qed.

(** Addresses that are registered. *)
Lemma configure_known (addresses : list gobytes) (ms : list Metadata) (s : service_state)
    (jobs : list JobDescriptor) :
  Forall2 (fun a m => address_ok a /\ registered (sv_db s) a m) addresses ms -> NoDup (map Meta_Index ms) ->
  exists s', runs (configureZkCertificateRegistry_loop addresses jobs) s (jobs ++ zip_with job_of addresses ms) s' /\
    sv_db s' = sv_db s /\ sv_world s' = sv_world s /\
    sv_objects s' = sv_objects s ++ map (fun m => new_registry_object m (Meta_Index m)) ms /\
    (forall i, i ∉ map Meta_Index ms -> sv_registry s' !! i = sv_registry s !! i) /\
    forall k m, ms !! k = Some m -> sv_registry s' !! Meta_Index m = Some (length (sv_objects s) + k)%nat.
Proof.
  intros H. revert jobs. remember (sv_db s) as d eqn:Ed. revert s Ed.
  induction H as [|a m addresses ms [Ha Hr] H IH]; intros s Ed jobs Hnd; cbn [configureZkCertificateRegistry_loop].
  { exists s. rewrite !app_nil_r. done. }
  cbn [map] in Hnd. apply NoDup_cons in Hnd as [Hni Hnd].
  set (s1 := with_registry s d (Meta_Index m) (new_registry_object m (Meta_Index m))).
  assert (runs (configure_job a) s (job_of a m) s1) as R1.
  { apply (configure_job_runs s a d (Meta_Index m) (new_registry_object m (Meta_Index m))). rewrite Ed.
    apply InitializeRegistry_known; [done|by rewrite <- Ed]. }
  destruct (IH s1 eq_refl (jobs ++ [job_of a m]) Hnd) as (s' & R & Edb & Ew & Eo & Hother & Hk). exists s'.
  split; [|split; [|split; [|split; [|split]]]].
  - eapply runs_bind; [exact R1|]. cbn [zip_with]. by rewrite <- (assoc_L (++)) in R.
  - done.
  - done.
  - rewrite Eo. cbn [sv_objects s1 with_registry map]. by rewrite <- (assoc_L (++)).
  - intros i Hi. cbn [map] in Hi. apply not_elem_of_cons in Hi as [Hne Hi]. rewrite (Hother i Hi).
    by apply lookup_insert_ne.
  - intros [|k] m' Hm'.
    + injection Hm' as <-. rewrite (Hother _ Hni), Nat.add_0_r. apply lookup_insert_eq.
    + rewrite (Hk k m' Hm'). cbn [sv_objects s1 with_registry]. rewrite length_app. cbn. f_equal. lia.
Qed.

(** Addresses of which nothing is stored. *)
Definition unregistered (d : DB) (a : gobytes) : Prop :=
  contents d !! makeRegistryIndexKey a = None /\ contents d !! makeZKCertificateRegistryKey a = None.

Definition numbered_metadata (n : nat) (k : nat) (m : Metadata) : Metadata := with_index (Z.of_nat (n + k)) m.

Lemma registered_kept (P : storage_key -> Prop) (a : gobytes) (d d' : DB) (m : Metadata) :
  address_ok a -> ~ P (RegistryIndexKey a) -> ~ P (MetadataKey a) -> same_records P d d' ->
  registered d a m -> registered d' a m.
Proof.
  intros Ha H1 H2 S [Hi (bs & E & Hm)]. split.
  - unfold has_index in *. by rewrite (S (RegistryIndexKey a) Ha H1 : _ !! makeRegistryIndexKey a = _).
  - exists bs. split; [|done]. by rewrite (S (MetadataKey a) Ha H2 : _ !! makeZKCertificateRegistryKey a = _).
Qed.

Lemma unregistered_kept (P : storage_key -> Prop) (a : gobytes) (d d' : DB) :
  address_ok a -> ~ P (RegistryIndexKey a) -> ~ P (MetadataKey a) -> same_records P d d' ->
  unregistered d a -> unregistered d' a.
Proof.
  intros Ha H1 H2 S [Hi Hm]. split.
  - by rewrite (S (RegistryIndexKey a) Ha H1 : _ !! makeRegistryIndexKey a = _).
  - by rewrite (S (MetadataKey a) Ha H2 : _ !! makeZKCertificateRegistryKey a = _).
Qed.

Definition registration_keys (addresses : list gobytes) (k : storage_key) : Prop :=
  exists a, a ∈ addresses /\ registration_key a k.

Lemma configure_new (addresses : list gobytes) (ms : list Metadata) (s : service_state) (n : nat)
    (jobs : list JobDescriptor) :
  Forall2 (fun a m => address_ok a /\ unregistered (sv_db s) a /\ fetchMetadataFromContract a = Ok m) addresses ms ->
  NoDup addresses -> next_index (sv_db s) = u8 (Z.of_nat n) -> (n + length addresses <= 256)%nat ->
  exists s', runs (configureZkCertificateRegistry_loop addresses jobs) s (jobs ++ zip_with job_of addresses ms) s' /\
    (same_records (registration_keys addresses) (sv_db s) (sv_db s') /\ jobs_untouched (sv_db s) (sv_db s')) /\
    sv_objects s' = sv_objects s ++ imap (fun k m => new_registry_object (numbered_metadata n k m)
        (Z.of_nat (n + k))) ms /\
    (forall i, i < Z.of_nat n -> sv_registry s' !! i = sv_registry s !! i) /\
    forall k a m, addresses !! k = Some a -> ms !! k = Some m ->
      registered (sv_db s') a (numbered_metadata n k m) /\
      sv_registry s' !! Z.of_nat (n + k) = Some (length (sv_objects s) + k)%nat.
Proof.
  revert ms s n jobs. induction addresses as [|a addresses IH]; intros ms s n jobs H Hnd Hn Hlen.
  { apply Forall2_nil_inv_l in H as ->. exists s. cbn. rewrite !app_nil_r. split; [done|].
    split; [split; [apply same_records_refl|by intros key _]|done]. }
  apply Forall2_cons_inv_l in H as (m & ms' & (Ha & [Hu1 Hu2] & Hf) & H & ->).
  apply NoDup_cons in Hnd as [Hni Hnd]. cbn [length] in Hlen.
  assert (its_index (sv_db s) a = Z.of_nat n) as Hi.
  { unfold its_index. rewrite Hu1, Hn. unfold u8. rewrite Z.mod_small; lia. }
  destruct (InitializeRegistry_new s a m Ha (or_introl Hu1) Hu2 Hf) as (d1 & R1 & Hr1 & S1 & N1 & U1).
  rewrite Hi in R1, Hr1, N1. specialize (N1 Hu1). apply configure_job_runs in R1.
  cbn [configureZkCertificateRegistry_loop]. set (s1 := with_registry _ _ _ _) in R1.
  assert (forall a', a' ∈ addresses -> a' <> a) as Hne by (by intros a' Hin ->).
  destruct (IH ms' s1 (S n) (jobs ++ [job_of a m])) as (s' & R & [S' U'] & Eo & Hother & Hk); [|done| |lia|].
  { cbn [sv_db s1 with_registry]. apply Forall2_same_length_lookup. split; [exact (Forall2_length _ _ _ H)|].
    intros k a' m' Ea Em. destruct (Forall2_lookup_lr _ _ _ _ _ _ H Ea Em) as (Ha' & Hu & Hf').
    split; [done|]. split; [|done]. assert (a' <> a) as Hne' by (apply Hne, list_elem_of_lookup; eauto).
    apply (unregistered_kept (registration_key a) _ (sv_db s)); [done| | |done..].
    - by intros [[= ->]|[[=]|[=]]].
    - by intros [[=]|[[=]|[= ->]]]. }
  { cbn [sv_db s1 with_registry]. rewrite N1. f_equal. lia. }
  exists s'. split; [|split; [|split; [|split]]].
  - eapply runs_bind; [exact R1|]. cbn [zip_with reg_metadata new_registry_object]. by rewrite <- (assoc_L (++)) in R.
  - split; [|intros key Hkey; exact (eq_trans (U' key Hkey) (U1 key Hkey))].
    apply (same_records_trans _ _ d1).
    + intros k Hok Hn'. apply S1; [done|]. intros Hreg. apply Hn'. exists a. split; [left|done].
    + intros k Hok Hn'. apply S'; [done|]. intros (a' & Hin & Hreg). apply Hn'. exists a'. split; [by right|done].
  - rewrite Eo. cbn [sv_objects s1 with_registry imap]. rewrite <- (assoc_L (++)). f_equal.
    unfold numbered_metadata. rewrite Nat.add_0_r. cbn [app]. f_equal. apply imap_ext. intros k m' _. cbn.
    by rewrite Nat.add_succ_r.
  - intros i Hlt. rewrite Hother by lia. cbn [sv_registry s1 with_registry]. apply lookup_insert_ne. lia.
  - intros [|k] a' m' Ea Em.
    + injection Ea as <-. injection Em as <-. rewrite !Nat.add_0_r. split.
      * unfold numbered_metadata. rewrite Nat.add_0_r.
        apply (registered_kept (registration_keys addresses) _ d1); [done| | |done..].
        -- intros (a' & Hin & [[= ->]|[[=]|[=]]]). by apply (Hne a').
        -- intros (a' & Hin & [[=]|[[=]|[= ->]]]). by apply (Hne a').
      * rewrite Hother by lia. apply lookup_insert_eq.
    + destruct (Hk k a' m' Ea Em) as [Hr Hh]. unfold numbered_metadata in *.
      replace (n + S k)%nat with (S n + k)%nat by lia. split; [done|]. rewrite Hh.
          cbn [sv_objects s1 with_registry]. rewrite length_app. cbn. f_equal. lia.
Qed.
End Facts.

(** * Names of contracts *)

(** A JSON string without special characters. *)
Definition json_quoted (s : string) : string := String (Ascii.ascii_of_nat 34) (s ++
    String (Ascii.ascii_of_nat 34) EmptyString).

(** The name of the contract is read back from text and YAML, but a JSON string of the name is
    read as no contract: [UnmarshalJSON] looks at the quotes too. *)
Lemma contract_name_json :
  UnmarshalText (MarshalText ContractZkCertificateRegistry) = ContractZkCertificateRegistry /\
  UnmarshalYAML (Ok (MarshalYAML ContractZkCertificateRegistry)) = Ok ContractZkCertificateRegistry /\
  UnmarshalJSON (json_quoted ContractZkCertificateRegistryString) = 0.
Proof. repeat split. Qed.
