(* ===== verification/Handlers.v ===== *)
(** The gRPC handlers of the service ([internal/query]): [Proof] ([proof_handler.go]),
    [GetEmptyLeafProof] ([get_empty_index_handler.go]) and [GetBatchProofs]
    ([batch_proofs_handler.go]), over the registry service.  Logging is left out. *)

From stdpp Require Import base list numbers strings gmap.
From Stdlib Require Import ZArith Lia.
From S2P Require Import Prelude GoBase SparseTree Storage Registry Service.
Local Open Scope Z_scope.

(** Addresses in hexadecimal (package [go-ethereum/common]). *)
Class HexAddress := {
  IsHexAddress : string -> bool;
  HexToAddress : string -> gobytes;
}.

(** 256-bit integers in decimal (package [uint256]). *)
Class Uint256Text := {
  uint256_FromDecimal : string -> go_error + Z;
  uint256_String : Z -> string;
}.

(** * Messages ([gen/galactica/merkle/query.pb.go]) *)

Record pb_QueryProofRequest : Type := mkpb_QueryProofRequest {
  pb_QueryProofRequest_Registry : string;
  pb_QueryProofRequest_Leaf : string
}.

Record pb_Proof : Type := mkpb_Proof {
  pb_Proof_Leaf : string;
  pb_Proof_Path : list string;
  pb_Proof_Index : Z;
  pb_Proof_Root : string
}.

Record pb_QueryProofResponse : Type := mkpb_QueryProofResponse { pb_QueryProofResponse_Proof : pb_Proof }.

Record pb_GetEmptyLeafProofRequest : Type := mkpb_GetEmptyLeafProofRequest {
    pb_GetEmptyLeafProofRequest_Registry : string }.

Record pb_GetEmptyLeafProofResponse : Type := mkpb_GetEmptyLeafProofResponse {
    pb_GetEmptyLeafProofResponse_Proof : pb_Proof }.

Record pb_BatchOperation : Type := mkpb_BatchOperation {
  pb_BatchOperation_LeafHash : string;
  pb_BatchOperation_IsAddition : bool
}.

Record pb_QueryBatchProofsRequest : Type := mkpb_QueryBatchProofsRequest {
  pb_QueryBatchProofsRequest_Registry : string;
  pb_QueryBatchProofsRequest_Operations : list pb_BatchOperation
}.

Record pb_BatchProof : Type := mkpb_BatchProof {
  pb_BatchProof_Index : Z;
  pb_BatchProof_Path : list string
}.

Record pb_QueryBatchProofsResponse : Type := mkpb_QueryBatchProofsResponse {
  pb_QueryBatchProofsResponse_InitialRoot : string;
  pb_QueryBatchProofsResponse_Proofs : list pb_BatchProof
}.

Section Code.
Context {U256 : Uint256} {PH : Poseidon} {GE : GoEnv} {KV : KVDatabase}.
Context {HA : HexAddress} {UT : Uint256Text}.

Definition bad_address (registry : string) : go_error :=
  Status InvalidArgument "invalid registry address, must be a hex string: %s" [] [registry] None.
Definition not_on_head : go_error :=
  Status FailedPrecondition "registry indexer is not on head, try again later" [] [] None.

(** [registry.ProgressTracker().IsOnHead()] *)
Definition on_head (h : nat) : go service_state bool :=
  on_registry h (fun s => (Ok (IsOnHead (reg_progressTracker (rs_reg s))), s)).

(** * [Proof] *)

Definition Server_Proof (req : pb_QueryProofRequest) : go service_state pb_QueryProofResponse :=
  let registry := pb_QueryProofRequest_Registry req in
  let leaf := pb_QueryProofRequest_Leaf req in
  if negb (IsHexAddress registry) then go_throw (bad_address registry)
  else
    let address := HexToAddress registry in
    let! found := go_try (find_registry address) in
    match found with
    | inl _ => go_throw (Status NotFound "registry not found: %s" [] [registry] None)
    | inr h =>
        let! isOnHead := on_head h in
        if negb isOnHead then go_throw not_on_head
        else
          match uint256_FromDecimal leaf with
          | inl _ => go_throw (Status InvalidArgument "invalid leaf value, must be a decimal number: %s" []
              [leaf] None)
          | inr leafValue =>
              let! created := go_try (on_registry h (Registry_CreateProof leafValue)) in
              match created with
              | inl err =>
                  if is_not_found err then go_throw (Status NotFound "leaf not found: %s" [] [leaf] None)
                  else go_throw (Status Internal "failed to create proof for leaf: %s" [] [leaf] None)
              | inr proof =>
                  let path := map uint256_String (Proof_Path proof) in
                  go_ret (mkpb_QueryProofResponse
                    (mkpb_Proof leaf path (u32 (Proof_Index proof)) (uint256_String (Proof_Root proof))))
              end
          end
    end.

(** * [GetEmptyLeafProof] *)

Definition Server_GetEmptyLeafProof (req : pb_GetEmptyLeafProofRequest)
    : go service_state pb_GetEmptyLeafProofResponse :=
  let registry := pb_GetEmptyLeafProofRequest_Registry req in
  if negb (IsHexAddress registry) then go_throw (bad_address registry)
  else
    let address := HexToAddress registry in
    let! found := go_try (find_registry address) in
    match found with
    | inl _ => go_throw (Status NotFound "tree not found: %s" [] [registry] None)
    | inr h =>
        let! isOnHead := on_head h in
        if negb isOnHead then go_throw not_on_head
        else
          let! created := go_try (on_registry h GetRandomEmptyLeafProof) in
          match created with
          | inl _ => go_throw (Status Internal "failed to get empty leaf proof, try again" [] [] None)
          | inr proofOfEmptyIndex =>
              let path := map uint256_String (Proof_Path proofOfEmptyIndex) in
              go_ret (mkpb_GetEmptyLeafProofResponse
                (mkpb_Proof (uint256_String (Proof_Leaf proofOfEmptyIndex)) path
                   (u32 (Proof_Index proofOfEmptyIndex)) (uint256_String (Proof_Root proofOfEmptyIndex))))
          end
    end.

(** * [GetBatchProofs] *)

(** [for i, op := range req.Operations] *)
Fixpoint convert_operations (i : Z) (ops : list pb_BatchOperation) (operations : list LeafOperation)
    : gores (list LeafOperation) :=
  match ops with
  | [] => Ok operations
  | op :: ops' =>
      match uint256_FromDecimal (pb_BatchOperation_LeafHash op) with
      | inl _ => Throw (Status InvalidArgument "invalid leaf hash at index %d, must be a decimal number: %s"
                          [i] [pb_BatchOperation_LeafHash op] None)
      | inr leafHash =>
          let opType := if pb_BatchOperation_IsAddition op then OperationAddition else OperationRevocation in
          convert_operations (i + 1) ops' (operations ++ [mkLeafOperation (mkTreeLeaf 0 leafHash) opType])
      end
  end.

Definition batch_proof (proof : BatchProofResult) : pb_BatchProof :=
  mkpb_BatchProof (u32 (Result_Index proof)) (map uint256_String (Result_Path proof)).

Definition Server_GetBatchProofs (req : pb_QueryBatchProofsRequest) : go service_state pb_QueryBatchProofsResponse :=
  let registry := pb_QueryBatchProofsRequest_Registry req in
  if negb (IsHexAddress registry) then go_throw (bad_address registry)
  else
    let address := HexToAddress registry in
    let! found := go_try (find_registry address) in
    match found with
    | inl _ => go_throw (Status NotFound "registry not found: %s" [] [registry] None)
    | inr h =>
        let! isOnHead := on_head h in
        if negb isOnHead then go_throw not_on_head
        else if (length (pb_QueryBatchProofsRequest_Operations req) =? 0)%nat then
          go_throw (Status InvalidArgument "operations cannot be empty" [] [] None)
        else
          let! operations := go_res (convert_operations 0 (pb_QueryBatchProofsRequest_Operations req) []) in
          let! simulated := go_try (on_registry h (on_tree (SimulateBatchOperations operations))) in
          match simulated with
          | inl err => go_throw (Status Internal "failed to simulate batch operations: %v" [] [] (Some err))
          | inr (initialRoot, proofs) =>
              go_ret (mkpb_QueryBatchProofsResponse (uint256_String initialRoot) (map batch_proof proofs))
          end
    end.
End Code.
