(* ===== verification/HandlersFacts.v ===== *)
(** The gRPC handlers on a service that has a registry open: the guards that all handlers
    share, and what each handler answers. *)

From stdpp Require Import base list numbers strings gmap.
From Stdlib Require Import ZArith Lia.
From S2P Require Import Prelude GoBase MerkleSpec SparseTree SparseTreeFacts SparseTreeInsert.
From S2P Require Import SparseTreeProofs SparseTreeSimulation SparseTreeRuns.
From S2P Require Import Storage StorageFacts Registry RegistryFacts RegistryRuns.
From S2P Require Import Service ServiceFacts Handlers.
Local Open Scope Z_scope.

(** An address has 20 bytes. *)
Class HexAddressLaws (HA : HexAddress) := {
  HexToAddress_length : forall s, IsHexAddress s = true -> address_ok (HexToAddress s);
}.

(** ASCII text: the characters below 128. *)
Fixpoint ascii_text (s : string) : bool :=
  match s with
  | EmptyString => true
  | String c s' => (Ascii.nat_of_ascii c <? 128)%nat && ascii_text s'
  end.

(** Decimal text is ASCII and reads back, and what is read fits 256 bits. *)
Class Uint256TextLaws (UT : Uint256Text) := {
  FromDecimal_String : forall z, 0 <= z < 2 ^ 256 -> uint256_FromDecimal (uint256_String z) = inr z;
  String_ascii : forall z, 0 <= z < 2 ^ 256 -> ascii_text (uint256_String z) = true;
  FromDecimal_fits : forall s z, uint256_FromDecimal s = inr z -> 0 <= z < 2 ^ 256;
}.

Section Facts.
Context {U256 : Uint256} {UL : Uint256Laws U256} {PH : Poseidon} {PL : PoseidonLaws PH} {GE : GoEnv}.
Context {KV : KVDatabase} {KL : KVDatabaseLaws KV}.
Context {HA : HexAddress} {HL : HexAddressLaws HA} {UT : Uint256Text} {TL : Uint256TextLaws UT}.

(** The state that the registry object [reg] of a service works on. *)
Definition registry_view (s : service_state) (reg : ZKCertificateRegistry) : registry_state :=
  mkRegistryState reg (sv_db s) (sv_world s).

(** The service after a method of the registry [h] has led to [rs]. *)
Definition sv_after (s : service_state) (h : nat) (rs : registry_state) : service_state :=
  mkServiceState (rs_db rs) (<[h := rs_reg rs]> (sv_objects s)) (sv_registry s) (rs_world rs).

(** The address [a] has the registry [reg] open under the handle [h]. *)
Record opened (s : service_state) (a : gobytes) (h : nat) (reg : ZKCertificateRegistry) : Prop := {
  op_address : address_ok a;
  op_index : exists i, has_index (sv_db s) a i /\ sv_registry s !! i = Some h;
  op_object : sv_objects s !! h = Some reg;
}.

(** The registry is also on the head of the chain, and models leaves and an index that agree. *)
Record serving (s : service_state) (a : gobytes) (h : nat) (reg : ZKCertificateRegistry)
    (leaf : Z -> Z) (idx : Z -> option Z) : Prop := {
  sg_opened : opened s a h reg;
  sg_head : IsOnHead (reg_progressTracker reg) = true;
  sg_models : reg_models (registry_view s reg) leaf idx;
  sg_agrees : index_agrees (emtpyLeaf (reg_tree (registry_view s reg)))
      (depth (reg_tree (registry_view s reg))) leaf idx;
}.

Lemma on_registry_eq {A : Type} (m : go registry_state A) (s : service_state) (h : nat) (reg : ZKCertificateRegistry)
    (c : gores A) (rs : registry_state) :
  sv_objects s !! h = Some reg -> m (registry_view s reg) = (c, rs) -> on_registry h m s = (c, sv_after s h rs).
Proof. intros Ho E. unfold on_registry. rewrite Ho. unfold registry_view in E. by rewrite E. Qed.

Lemma opened_found (s : service_state) (a : gobytes) (h : nat) (reg : ZKCertificateRegistry) :
  opened s a h reg -> go_try (find_registry a) s = (Ok (inr h), s).
Proof.
  intros [Ha (i & Hi & Hh) _]. unfold go_try. by rewrite (find_registry_ok s a i h Ha Hi Hh).
Qed.

Lemma sv_after_same (s : service_state) (h : nat) (reg : ZKCertificateRegistry) :
  sv_objects s !! h = Some reg -> sv_after s h (registry_view s reg) = s.
Proof. intros Ho. unfold sv_after, registry_view. cbn. rewrite list_insert_id by done. by destruct s. Qed.

Lemma opened_head (s : service_state) (a : gobytes) (h : nat) (reg : ZKCertificateRegistry) :
  opened s a h reg -> on_head h s = (Ok (IsOnHead (reg_progressTracker reg)), s).
Proof.
  intros [_ _ Ho]. unfold on_head.
  erewrite (on_registry_eq _ s h reg); [|exact Ho|reflexivity]. by rewrite sv_after_same.
Qed.

(** The guards of the handlers, passed. *)
Lemma bind_found {A : Type} (s : service_state) (a : gobytes) (h : nat) (reg : ZKCertificateRegistry)
    (k : go_error + nat -> go service_state A) :
  opened s a h reg -> go_bind (go_try (find_registry a)) k s = k (inr h) s.
Proof. intros Ho. unfold go_bind. by rewrite (opened_found s a h reg Ho). Qed.

Lemma bind_head {A : Type} (s : service_state) (a : gobytes) (h : nat) (reg : ZKCertificateRegistry)
    (k : bool -> go service_state A) :
  opened s a h reg -> go_bind (on_head h) k s = k (IsOnHead (reg_progressTracker reg)) s.
Proof. intros Ho. unfold go_bind. by rewrite (opened_head s a h reg Ho). Qed.

(** * What a call leaves of a registry and of the service *)

(** Only the cache of the tree may have changed. *)
Definition tree_kept (rs rs' : registry_state) : Prop :=
  rs_db rs' = rs_db rs /\ same_registry (rs_reg rs) (rs_reg rs') /\
  (cache_ok (reg_tree rs) -> cache_ok (reg_tree rs')).

Lemma kept_models (rs rs' : registry_state) (leaf : Z -> Z) (idx : Z -> option Z) :
  tree_kept rs rs' -> reg_models rs leaf idx -> reg_models rs' leaf idx.
Proof.
  intros (Ed & [levels Er] & Hc) Hm. destruct rs' as [reg' d' w']. cbn [rs_db rs_reg] in *. subst.
  apply recache_models; [done|]. apply Hc, (rm_tree _ _ _ Hm).
Qed.

Lemma tree_kept_trans (r1 r2 r3 : registry_state) : tree_kept r1 r2 -> tree_kept r2 r3 -> tree_kept r1 r3.
Proof.
  intros (E1 & [l1 S1] & C1) (E2 & [l2 S2] & C2). split; [congruence|]. split; [|by auto].
  exists l2. by rewrite S2, S1.
Qed.

Lemma on_tree_kept {A : Type} (m : go (state unit) A) (rs rs' : registry_state) (c : gores A)
    (leaf : Z -> Z) (idx : Z -> option Z) :
  on_tree m rs = (c, rs') -> reg_models rs' leaf idx -> tree_kept rs rs'.
Proof.
  unfold on_tree, run_tree. destruct (m _) as [c' s']. intros [= <- <-] Hm.
  split; [done|]. split; [by eexists|]. intros _. apply (rm_tree _ _ _ Hm).
Qed.

Lemma CreateProof_locked_kept (i : Z) (rs rs' : registry_state) (p : MerkleProof)
    (leaf : Z -> Z) (idx : Z -> option Z) :
  runs (CreateProof_locked i) rs p rs' -> reg_models rs' leaf idx -> tree_kept rs rs'.
Proof. intros R%runs_wrap_inv. by apply (on_tree_kept (CreateProof i) rs rs' (Ok p) leaf idx). Qed.

(** The service after a call: the same database and numbers, objects with the same trees. *)
Definition sv_kept (s s' : service_state) : Prop :=
  sv_db s' = sv_db s /\ sv_registry s' = sv_registry s /\
  forall h reg, sv_objects s !! h = Some reg -> exists reg', sv_objects s' !! h = Some reg' /\
    tree_kept (registry_view s reg) (registry_view s' reg').

Lemma sv_kept_refl (s : service_state) : sv_kept s s.
Proof.
  split; [done|]. split; [done|]. intros h reg E. exists reg. split; [done|]. split; [done|].
  split; [|done]. exists (obj_emptyBranchLevels (reg_sparseTree reg)). by destruct reg as [m [] v p].
Qed.

Lemma sv_after_kept (s : service_state) (h : nat) (reg : ZKCertificateRegistry) (rs : registry_state) :
  sv_objects s !! h = Some reg -> tree_kept (registry_view s reg) rs -> sv_kept s (sv_after s h rs).
Proof.
  intros Ho (Ed & Hs & Hc). cbn [rs_db rs_reg registry_view] in Ed, Hs. split; [exact Ed|]. split; [done|].
  intros h' reg' Ho'. destruct (decide (h' = h)) as [->|Hne].
  - rewrite Ho in Ho'. injection Ho' as <-. exists (rs_reg rs). split.
    + apply list_lookup_insert_eq, lookup_lt_is_Some. eauto.
    + split; [exact Ed|]. split; [exact Hs|]. intros H. specialize (Hc H). exact Hc.
  - destruct (sv_kept_refl s) as (_ & _ & Hk). destruct (Hk h' reg' Ho') as (reg2 & E2 & _ & Hs2 & Hc2).
    exists reg2. split; [|split; [exact Ed|split; [exact Hs2|]]].
    + cbn [sv_objects sv_after]. by rewrite list_lookup_insert_ne.
    + intros H. specialize (Hc2 H). exact Hc2.
Qed.

(** A method of an open registry, called by a handler. *)
Lemma try_on_registry {A : Type} (m : go registry_state A) (s : service_state) (h : nat) (reg : ZKCertificateRegistry)
    (c : gores A) (rs : registry_state) :
  sv_objects s !! h = Some reg -> m (registry_view s reg) = (c, rs) -> tree_kept (registry_view s reg) rs ->
  exists s', sv_kept s s' /\ go_try (on_registry h m) s =
    (match c with
     | Ok a => Ok (inr a)
     | Throw e => if is_panic e then Throw e else Ok (inl e)
     | OutOfFuel => OutOfFuel
     end, s').
Proof.
  intros Ho E Hk. exists (sv_after s h rs). split; [by apply (sv_after_kept s h reg)|].
  unfold go_try. rewrite (on_registry_eq m s h reg c rs Ho E). by destruct c as [a|e|]; [|destruct (is_panic e)|].
Qed.

(** * [Proof] *)

Lemma registry_proof_cases (rs : registry_state) (leaf : Z -> Z) (idx : Z -> option Z) (v : Z) :
  let d := depth (reg_tree rs) in
  let e := emtpyLeaf (reg_tree rs) in
  context_active -> reg_models rs leaf idx -> index_agrees e d leaf idx -> 0 <= v < 2 ^ 256 ->
  exists c rs', Registry_CreateProof v rs = (c, rs') /\ tree_kept rs rs' /\
    ((exists i p, 0 <= i < 2 ^ d /\ leaf i = v /\ v <> e /\ c = Ok p /\ Proof_Index p = i /\
        Proof_Root p = tree_root hash d leaf /\ root_of hash v (Proof_Path p) i = Proof_Root p /\
        path_ok d (Proof_Path p)) \/
     ((v = e \/ forall i, 0 <= i < 2 ^ d -> leaf i <> v) /\
        exists err, c = Throw err /\ is_panic err = false /\ is_not_found err = true)).
Proof.
  intros d e Hctx Hm [H1 H2] Hv. destruct (idx v) as [i|] eqn:Ei.
  - destruct (H1 v i Ei) as [El Hne].
    pose proof (rm_range _ _ _ Hm v i Ei) as Hi.
    destruct (CreateProof_locked_ok rs leaf idx i Hctx Hm Hi) as (rs' & p & R & M & _ & _ & _ & P2 & P3 & P4 & P5).
    exists (Ok p), rs'. split; [|split; [by apply (CreateProof_locked_kept i rs rs' p leaf idx)|left; exists i, p]].
    + unfold Registry_CreateProof, go_bind. by rewrite (CreateProof_lookup_ok rs leaf idx v Hm Hv), Ei.
    + rewrite El in P4. done.
  - eexists _, rs. split; [|split; [split; [done|split; [|done]]|right]].
    + unfold Registry_CreateProof, go_bind. rewrite (CreateProof_lookup_ok rs leaf idx v Hm Hv), Ei. reflexivity.
    + exists (obj_emptyBranchLevels (reg_sparseTree (rs_reg rs))). by destruct (rs_reg rs) as [m [] vw p].
    + split; [|by eexists]. destruct (decide (v = e)) as [->|Hne]; [by left|right].
      intros i Hi E. rewrite <- E in Hne, Ei. by rewrite (H2 i Hi Hne) in Ei.
Qed.

(** * [GetEmptyLeafProof] *)

Lemma stored_answers (rs : registry_state) (leaf : Z -> Z) (idx : Z -> option Z) (i : Z) :
  reg_models rs leaf idx ->
  (exists v, storageLeafGetter (reg_tree rs) 0 i = Ok v) \/ storageLeafGetter (reg_tree rs) 0 i = Throw ErrNotFound.
Proof.
  intros Hm. pose proof (rm_registry _ _ _ Hm) as Hr.
  assert (storageLeafGetter (reg_tree rs) 0 i = LeafStorage_GetLeaf (rs_db rs) (reg_index rs) 0 (u32 i)) as ->.
  { unfold reg_tree, tree_at, LeafView_GetLeaf. cbn [storageLeafGetter]. rewrite (rm_tree_view _ _ _ Hm).
    unfold LeafStorage_GetLeaf. cbn [view_registryIndex]. rewrite !makeLeafKey_eq. unfold u32. by rewrite Z.mod_mod. }
  rewrite GetLeaf_contents; [|done|split; [lia|by apply Z.mod_pos_bound]].
  destruct (decode_node _) as [v|]; [left; by exists v|by right].
Qed.

Lemma find_free_spec (storage : TreeLeafGetter) (d : Z) (n k : nat) (x : Z) :
  0 <= d -> find_free storage d n k = Some x ->
  0 <= x < 2 ^ d /\ exists e, storage 0 x = Throw e /\ is_not_found e = true.
Proof.
  intros Hd. revert k. induction n as [|n IH]; intros k; cbn [find_free]; [done|].
  destruct (storage 0 (draw_index d k)) as [v|e|] eqn:E; [apply IH| |apply IH].
  destruct (is_not_found e) eqn:Hn; [|apply IH]. intros [= <-]. split; [by apply draw_index_range|]. by exists e.
Qed.

(** Drawing an index: the first of ten that the storage does not have. *)
Lemma draw_empty_ok (rs : registry_state) (leaf : Z -> Z) (idx : Z -> option Z) :
  let d := depth (reg_tree rs) in
  context_active -> reg_models rs leaf idx ->
  exists rs', tree_kept rs rs' /\ reg_models rs' leaf idx /\
    match find_free (storageLeafGetter (reg_tree rs)) d 10 (draws (rs_world rs)) with
    | Some x => on_tree GetRandomEmptyLeafIndex rs = (Ok x, rs') /\ 0 <= x < 2 ^ d /\ leaf x = emtpyLeaf (reg_tree rs)
    | None => on_tree GetRandomEmptyLeafIndex rs =
                (Throw (Errorf "could not find an empty leaf index" [] None), rs')
    end.
Proof.
  intros d Hctx Hm. pose proof (depth_range _ _ _ Hm) as Hd. pose proof (rm_tree _ _ _ Hm) as (_ & _ & _ & Hc).
  destruct (GetRandomEmptyLeafIndex_loop_ok 10 (mkState (reg_tree rs) tt (rs_world rs)) Hctx) as (s1 & Q & E).
  { exact Hd. } { exact Hc. }
  { intros i. destruct (stored_answers rs leaf idx i Hm) as [[v Ev]|Ev]; cbn [st_tree]; rewrite Ev; done. }
  cbn [st_tree st_world] in E. destruct Q as (_ & (He & Hde & _) & Hc1).
  set (rs1 := mkRegistryState (set_cache (emptyBranchLevels (st_tree s1)) (rs_reg rs)) (rs_db rs) (st_world s1)).
  assert (on_tree GetRandomEmptyLeafIndex rs =
    (match find_free (storageLeafGetter (reg_tree rs)) d 10 (draws (rs_world rs)) with
     | Some x => Ok x | None => Throw (Errorf "could not find an empty leaf index" [] None) end, rs1)) as E1.
  { unfold on_tree, run_tree, GetRandomEmptyLeafIndex, maxIterationsEmptyLeafProof.
    unfold reg_tree in E at 1. rewrite E. done. }
  assert (reg_models rs1 leaf idx) as Hm1.
  { apply recache_models; [done|]. unfold cache_ok, empty_branches in *. cbn [st_tree] in He, Hde.
    rewrite He, Hde in Hc1. exact Hc1. }
  exists rs1. split; [exact (on_tree_kept _ _ _ _ _ _ E1 Hm1)|]. split; [done|].
  destruct (find_free _ d 10 _) as [x|] eqn:F; [|exact E1]. split; [exact E1|].
  apply find_free_spec in F as [Hx (e & Ee & Hn)]; [|lia]. split; [done|].
  rewrite <- (rm_leaves _ _ _ Hm x Hx). unfold stored. by rewrite Ee.
Qed.

Lemma GetRandomEmptyLeafProof_ok (rs : registry_state) (leaf : Z -> Z) (idx : Z -> option Z) :
  let d := depth (reg_tree rs) in
  context_active -> reg_models rs leaf idx ->
  exists c rs', GetRandomEmptyLeafProof rs = (c, rs') /\ tree_kept rs rs' /\
    match find_free (storageLeafGetter (reg_tree rs)) d 10 (draws (rs_world rs)) with
    | Some x => exists p, c = Ok p /\ 0 <= x < 2 ^ d /\ leaf x = emtpyLeaf (reg_tree rs) /\
        Proof_Leaf p = leaf x /\ Proof_Index p = x /\ Proof_Root p = tree_root hash d leaf /\
        root_of hash (leaf x) (Proof_Path p) x = Proof_Root p /\ path_ok d (Proof_Path p)
    | None => exists e, c = Throw e /\ is_panic e = false
    end.
Proof.
  intros d Hctx Hm. destruct (draw_empty_ok rs leaf idx Hctx Hm) as (rs1 & K1 & Hm1 & E1). fold d in E1.
  assert (depth (reg_tree rs1) = d) as Ed by (destruct K1 as (_ & [levels Er] & _); unfold reg_tree; by rewrite Er).
  unfold GetRandomEmptyLeafProof, go_bind, go_wrap at 1. destruct (find_free _ d 10 _) as [x|].
  - destruct E1 as (E1 & Hx & El). rewrite E1. cbn [wrap_res]. rewrite <- Ed in Hx.
    destruct (CreateProof_locked_ok rs1 leaf idx x Hctx Hm1 Hx) as (rs2 & p & R & M2 & _ & _ & P1 & P2 & P3 &
        P4 & P5).
    rewrite Ed in *. exists (Ok p), rs2. split; [exact R|]. split; [|by exists p].
    apply (tree_kept_trans rs rs1); [done|by apply (CreateProof_locked_kept x rs1 rs2 p leaf idx)].
  - rewrite E1. eexists _, rs1. split; [reflexivity|]. split; [done|]. by eexists.
Qed.

(** * [GetBatchProofs] *)

(** The operations of a request: their values and kinds, or the first text that is not a
    number and its position. *)
Fixpoint parse_operations (i : Z) (ops : list pb_BatchOperation) : Z * string + list (Z * bool) :=
  match ops with
  | [] => inr []
  | op :: ops' =>
      match uint256_FromDecimal (pb_BatchOperation_LeafHash op) with
      | inl _ => inl (i, pb_BatchOperation_LeafHash op)
      | inr v => match parse_operations (i + 1) ops' with
                 | inl bad => inl bad
                 | inr vs => inr ((v, pb_BatchOperation_IsAddition op) :: vs)
                 end
      end
  end.

Definition go_operations (vs : list (Z * bool)) : list LeafOperation :=
  map (fun '(v, add) => mkLeafOperation (mkTreeLeaf 0 v)
      (if add : bool then OperationAddition else OperationRevocation)) vs.

Definition bad_operation (bad : Z * string) : go_error :=
  Status InvalidArgument "invalid leaf hash at index %d, must be a decimal number: %s" [fst bad] [snd bad] None.

Lemma convert_operations_ok (ops : list pb_BatchOperation) (i : Z) (acc : list LeafOperation) :
  convert_operations i ops acc =
    match parse_operations i ops with
    | inl bad => Throw (bad_operation bad)
    | inr vs => Ok (acc ++ go_operations vs)
    end.
Proof.
  revert i acc. induction ops as [|op ops IH]; intros i acc; cbn [convert_operations parse_operations].
  { by rewrite app_nil_r. }
  destruct (uint256_FromDecimal (pb_BatchOperation_LeafHash op)) as [e|v]; [done|]. rewrite IH.
  destruct (parse_operations (i + 1) ops) as [bad|vs]; [done|]. cbn [go_operations map]. by rewrite <- (assoc_L (++)).
Qed.

Lemma simulate_registry (rs : registry_state) (leaf : Z -> Z) (idx : Z -> option Z) (vs : list (Z * bool)) :
  let t := reg_tree rs in
  context_active -> reg_models rs leaf idx -> Forall (fun va => in_field (fst va)) vs ->
  exists c rs', on_tree (SimulateBatchOperations (go_operations vs)) rs = (c, rs') /\ tree_kept rs rs' /\
    match spec_batch (depth t) (emtpyLeaf t) (go_operations vs) (stored t 0, draws (rs_world rs)) with
    | Some (rs, _) => c = Ok (tree_root hash (depth t) (stored t 0), rs)
    | None => exists e, c = Throw e /\ is_panic e = false
    end.
Proof.
  intros t Hctx Hm Hf.
  assert (Forall (fun op => in_field (Leaf_Value (Operation_Leaf op))) (go_operations vs)) as Hops.
  { apply Forall_map. eapply Forall_impl; [exact Hf|]. by intros [v add]. }
  destruct (SimulateBatchOperations_agrees (go_operations vs) (mkState t tt (rs_world rs)) Hctx
    (rm_tree _ _ _ Hm) (rm_depth _ _ _ Hm) (rm_nodes _ _ _ Hm) Hops) as (c & s1 & E & (_ & Ht & Hc1) & Hc).
  cbn [st_tree st_world] in Hc, Ht.
  exists c, (mkRegistryState (set_cache (emptyBranchLevels (st_tree s1)) (rs_reg rs)) (rs_db rs) (st_world s1)).
  split; [|split; [|exact Hc]].
  - unfold on_tree, run_tree. unfold t, reg_tree in E. by rewrite E.
  - split; [done|]. split; [by eexists|]. intros _. destruct Ht as (He & Hd & _).
    unfold cache_ok, empty_branches in *. rewrite He, Hd in Hc1. exact Hc1.
Qed.
End Facts.
