(* ===== verification/ServiceInstance.v ===== *)
(** Concrete instances of what the service and the handlers call: addresses in hexadecimal,
    256-bit integers in decimal, encodings of metadata and jobs, contracts with fixed answers.
    They satisfy the laws and evaluate the models on concrete inputs. *)

From stdpp Require Import base list numbers strings gmap.
From Stdlib Require Import ZArith Lia Ascii.
From S2P Require Import Prelude GoBase MerkleSpec SparseTree SparseTreeFacts Storage StorageFacts Registry.
From S2P Require Import Service ServiceFacts Handlers HandlersFacts Jobs.
Local Open Scope Z_scope.

(** * Decimal text *)

Definition char_code (c : ascii) : Z := Z.of_nat (nat_of_ascii c).
Definition digit_char (d : Z) : ascii := ascii_of_nat (Z.to_nat (48 + d)).

Fixpoint write_decimal (fuel : nat) (z : Z) (acc : string) : string :=
  match fuel with
  | O => acc
  | S fuel' => if z <? 10 then String (digit_char z) acc
               else write_decimal fuel' (z / 10) (String (digit_char (z mod 10)) acc)
  end.

Fixpoint read_decimal (s : string) (a : Z) : option Z :=
  match s with
  | EmptyString => Some a
  | String c s' =>
      if (48 <=? char_code c) && (char_code c <=? 57) then read_decimal s' (10 * a + (char_code c - 48)) else None
  end.

Lemma digit_char_code (d : Z) : 0 <= d < 10 -> char_code (digit_char d) = 48 + d.
Proof. intros Hd. unfold char_code, digit_char. rewrite nat_ascii_embedding; lia. Qed.

Lemma read_digit (d a : Z) (s : string) :
  0 <= d < 10 -> read_decimal (String (digit_char d) s) a = read_decimal s (10 * a + d).
Proof.
  intros Hd. cbn [read_decimal]. rewrite digit_char_code by done.
  rewrite (proj2 (Z.leb_le 48 (48 + d))), (proj2 (Z.leb_le (48 + d) 57)) by lia. cbn [andb]. f_equal. lia.
Qed.

Lemma read_write_decimal (fuel : nat) (z : Z) (acc : string) :
  0 <= z < 10 ^ Z.of_nat fuel -> (0 < fuel)%nat -> read_decimal (write_decimal fuel z acc) 0 = read_decimal acc z.
Proof.
  revert z acc. induction fuel as [|fuel IH]; intros z acc Hz Hf; [lia|]. cbn [write_decimal].
  rewrite Nat2Z.inj_succ, Z.pow_succ_r in Hz by lia. destruct (Z.ltb_spec z 10) as [H|H].
  { by rewrite read_digit by lia. }
  pose proof (Z.mod_pos_bound z 10 ltac:(lia)). pose proof (Z.div_mod z 10 ltac:(lia)).
  assert (0 < fuel)%nat as Hf' by (destruct fuel; [cbn in Hz|]; lia).
  rewrite IH by (done || (split; [|apply Z.div_lt_upper_bound]; lia || apply Z.div_pos; lia)).
  rewrite read_digit by done. f_equal. lia.
Qed.

Definition not_a_number : go_error := Errorf "invalid number" [] None.

Definition parse_decimal (s : string) : go_error + Z :=
  match s with
  | EmptyString => inl not_a_number
  | _ => match read_decimal s 0 with
         | Some z => if z <? 2 ^ 256 then inr z else inl not_a_number
         | None => inl not_a_number
         end
  end.

#[export] Instance decimal_text : Uint256Text := {
  uint256_FromDecimal := parse_decimal;
  uint256_String z := write_decimal 78 z EmptyString;
}.

Lemma write_decimal_nonempty (fuel : nat) (z : Z) (c : ascii) (acc : string) :
  write_decimal fuel z (String c acc) <> EmptyString.
Proof.
  revert z c acc. induction fuel as [|fuel IH]; intros z c acc; cbn [write_decimal]; [done|].
  destruct (z <? 10); [done|apply IH].
Qed.

Lemma read_decimal_nonneg (s : string) (a z : Z) : 0 <= a -> read_decimal s a = Some z -> 0 <= z.
Proof.
  revert a. induction s as [|c s IH]; intros a Ha; cbn [read_decimal]; [by intros [= <-]|].
  destruct (_ && _) eqn:E; [|done]. apply IH. lia.
Qed.

Lemma write_decimal_some (fuel : nat) (z : Z) (acc : string) :
  (0 < fuel)%nat -> write_decimal fuel z acc <> EmptyString.
Proof.
  destruct fuel as [|fuel]; [lia|]. intros _. cbn [write_decimal]. destruct (z <? 10); [done|].
  apply write_decimal_nonempty.
Qed.

Lemma parse_write (fuel : nat) (z : Z) :
  (0 < fuel)%nat -> 0 <= z < 10 ^ Z.of_nat fuel -> z < 2 ^ 256 ->
  parse_decimal (write_decimal fuel z EmptyString) = inr z.
Proof.
  intros Hf Hz Hz'. pose proof (read_write_decimal fuel z EmptyString Hz Hf) as E.
  pose proof (write_decimal_some fuel z EmptyString Hf) as Hne. unfold parse_decimal.
  destruct (write_decimal fuel z EmptyString) as [|c s]; [done|].
  rewrite E. cbn [read_decimal]. by rewrite (proj2 (Z.ltb_lt _ _)) by lia.
Qed.

Lemma parse_decimal_fits (s : string) (z : Z) : parse_decimal s = inr z -> 0 <= z < 2 ^ 256.
Proof.
  unfold parse_decimal. destruct s as [|c s]; [done|].
  destruct (read_decimal (String c s) 0) as [v|] eqn:E; [|done]. destruct (Z.ltb_spec v (2 ^ 256)); [|done].
  intros [= <-]. split; [|done]. by apply (read_decimal_nonneg (String c s) 0 v).
Qed.

Lemma digit_char_ascii (d : Z) : 0 <= d < 10 -> (nat_of_ascii (digit_char d) <? 128)%nat = true.
Proof. intros Hd. apply Nat.ltb_lt. pose proof (digit_char_code d Hd) as E. unfold char_code in E. lia. Qed.

Lemma write_decimal_ascii (fuel : nat) (z : Z) (acc : string) :
  0 <= z -> ascii_text acc = true -> ascii_text (write_decimal fuel z acc) = true.
Proof.
  revert z acc. induction fuel as [|fuel IH]; intros z acc Hz Ha; cbn [write_decimal]; [done|].
  destruct (Z.ltb_spec z 10) as [H|H].
  - cbn [ascii_text]. by rewrite digit_char_ascii, Ha by lia.
  - apply IH; [apply Z.div_pos; lia|]. cbn [ascii_text].
    by rewrite digit_char_ascii, Ha by (apply Z.mod_pos_bound; lia).
Qed.

Lemma decimal_width : 2 ^ 256 < 10 ^ Z.of_nat 78.
Proof. vm_compute. reflexivity. Qed.

#[export, refine] Instance decimal_text_laws : Uint256TextLaws decimal_text := {}.
Proof.
  - intros z Hz. apply (parse_write 78); pose proof decimal_width; lia.
  - intros z Hz. apply (write_decimal_ascii 78); [apply Hz|done].
  - apply parse_decimal_fits.
Qed.

(** * Addresses in hexadecimal *)

Definition hex_digit (c : ascii) : option Z :=
  let x := char_code c in
  if (48 <=? x) && (x <=? 57) then Some (x - 48)
  else if (97 <=? x) && (x <=? 102) then Some (x - 87)
  else if (65 <=? x) && (x <=? 70) then Some (x - 55)
  else None.

Definition drop_0x (s : string) : string :=
  match s with
  | String c0 (String c1 s') =>
      if (char_code c0 =? 48) && ((char_code c1 =? 120) || (char_code c1 =? 88)) then s' else s
  | _ => s
  end.

Fixpoint is_hex (s : string) : bool :=
  match s with
  | EmptyString => true
  | String c s' => match hex_digit c with Some _ => is_hex s' | None => false end
  end.

Fixpoint hex_bytes (s : string) : gobytes :=
  match s with
  | String c0 (String c1 s') => (16 * default 0 (hex_digit c0) + default 0 (hex_digit c1)) :: hex_bytes s'
  | _ => []
  end.

#[export] Instance hex_address : HexAddress := {
  IsHexAddress s := let s' := drop_0x s in (String.length s' =? 2 * AddressLength)%nat && is_hex s';
  HexToAddress s := hex_bytes (drop_0x s);
}.

Lemma hex_bytes_length (n : nat) (s : string) : String.length s = (2 * n)%nat -> length (hex_bytes s) = n.
Proof.
  revert s. induction n as [|n IH]; intros s; [by destruct s|].
  destruct s as [|c0 [|c1 s]]; [done|cbn; lia|]. cbn [String.length hex_bytes length]. intros E. rewrite IH; lia.
Qed.

#[export, refine] Instance hex_address_laws : HexAddressLaws hex_address := {}.
Proof.
  intros s. cbn [IsHexAddress HexToAddress hex_address]. intros H%andb_true_iff. destruct H as [H%Nat.eqb_eq _].
  by apply hex_bytes_length.
Qed.

(** * Encodings *)

Fixpoint text_bytes (s : string) : gobytes :=
  match s with EmptyString => [] | String c s' => char_code c :: text_bytes s' end.

Fixpoint bytes_text (l : gobytes) : string :=
  match l with [] => EmptyString | b :: l' => String (ascii_of_nat (Z.to_nat b)) (bytes_text l') end.

Lemma bytes_text_bytes (s : string) : bytes_text (text_bytes s) = s.
Proof.
  induction s as [|c s IH]; cbn [text_bytes bytes_text]; [done|]. rewrite IH. unfold char_code.
  by rewrite Nat2Z.id, ascii_nat_embedding.
Qed.

(** The fields one after the other, the address behind its length. *)
#[export] Instance flat_metadata : MetadataCodec := {
  codec_Encode m := inr (Z.of_nat (length (Meta_Address m)) :: Meta_Depth m :: Meta_EmptyValue m ::
    Meta_InitBlockHeight m :: Meta_Index m :: Meta_Address m ++ text_bytes (Meta_Description m));
  codec_Decode bs :=
    match bs with
    | n :: d :: e :: b :: i :: rest =>
        inr (mkMetadata (take (Z.to_nat n) rest) d e b (bytes_text (drop (Z.to_nat n) rest)) i)
    | _ => inl not_a_number
    end;
}.

#[export, refine] Instance flat_metadata_laws : MetadataCodecLaws flat_metadata := {}.
Proof.
  intros m. eexists. split; [reflexivity|]. split; [done|]. cbn [codec_Decode flat_metadata].
  rewrite Nat2Z.id, take_app_length, drop_app_length, bytes_text_bytes. by destruct m.
Qed.

(** Contracts of depth 3 with the empty value 7, from the block that the last byte of their
    address names on; a contract whose address starts with 0 does not answer. *)
#[export] Instance toy_contract : RegistryContract := {
  NewZkCertificateRegistryCaller _ := inr tt;
  contract_TreeDepth a := match a with 0 :: _ => inl (Errorf "no answer" [] None) | _ => inr 3 end;
  contract_ZEROVALUE _ := inr (be_bytes 32 7);
  contract_InitBlockHeight a := inr (default 0 (last a));
  contract_Description _ := inr "registry"%string;
}.
