(* ===== verification/ServiceTheorems.v ===== *)
(** Theorems about the registry service of [internal/zkregistry]: what [InitializeRegistry]
    stores and returns for an address that is known, half registered or new, also when the
    contract does not answer; that distinct addresses get distinct registries; that a new
    service over the same database serves the trees that were committed before. *)

From stdpp Require Import base list numbers strings gmap.
From Stdlib Require Import ZArith Lia.
From S2P Require Import Prelude GoBase MerkleSpec SparseTree SparseTreeFacts SparseTreeInsert.
From S2P Require Import SparseTreeProofs SparseTreeSimulation Storage StorageFacts Registry RegistryFacts.
From S2P Require Import RegistryRuns GoInstance RegistryTheorems Service ServiceFacts Jobs JobsFacts.
From S2P Require Import ServiceInstance.
Local Open Scope Z_scope.

Section Theorems.
Context {U256 : Uint256} {UL : Uint256Laws U256} {PH : Poseidon} {PL : PoseidonLaws PH} {GE : GoEnv}.
Context {KV : KVDatabase} {KL : KVDatabaseLaws KV} {JC : JobCodec}.
Context {MC : MetadataCodec} {ML : MetadataCodecLaws MC} {RC : RegistryContract}.

(** * One address *)

Lemma with_registry_finds (s : service_state) (d : DB) (a : gobytes) (i : Z) (reg : ZKCertificateRegistry) :
  address_ok a -> has_index d a i ->
  runs (find_registry a) (with_registry s d i reg) (length (sv_objects s)) (with_registry s d i reg) /\
  sv_objects (with_registry s d i reg) !! length (sv_objects s) = Some reg.
Proof.
  intros Ha Hi. split.
  - apply (find_registry_ok _ a i); [done|done|]. apply lookup_insert_eq.
  - cbn. by rewrite lookup_app_r, Nat.sub_diag.
Qed.

(** C24: [InitializeRegistry] for an address of 20 bytes.  A registered address gets an object made
    from the stored metadata, and nothing is written.  An address without metadata, whether it
    has a number already or not, gets the contract's metadata with its number, and both are
    stored.  When the contract does not answer, the call fails, the number stays and no object
    is added, so that a later call finds the second case.  In each case no other record of the
    database changes, and afterwards the service finds the new object under the address. *)
Theorem initialize_registry (s : service_state) (a : gobytes) :
  address_ok a ->
  (forall m, registered (sv_db s) a m -> exists s' h,
     runs (InitializeRegistry a) s h s' /\ runs (find_registry a) s' h s' /\ sv_db s' = sv_db s /\
     sv_objects s' = sv_objects s ++ [new_registry_object m (Meta_Index m)] /\ h = length (sv_objects s)) /\
  (let i := its_index (sv_db s) a in
   may_have_index (sv_db s) a -> contents (sv_db s) !! makeZKCertificateRegistryKey a = None ->
   exists c s', InitializeRegistry a s = (c, s') /\ has_index (sv_db s') a i /\
     same_records (registration_key a) (sv_db s) (sv_db s') /\
     match fetchMetadataFromContract a with
     | Ok m => c = Ok (length (sv_objects s)) /\ runs (find_registry a) s' (length (sv_objects s)) s' /\
         registered (sv_db s') a (with_index i m) /\
         sv_objects s' = sv_objects s ++ [new_registry_object (with_index i m) i]
     | Throw e => c = Throw (wrap_error "failed to fetch metadata from contract: %w" [] e) /\
         sv_objects s' = sv_objects s /\ sv_registry s' = sv_registry s /\
         contents (sv_db s') !! makeZKCertificateRegistryKey a = None
     | OutOfFuel => False
     end).
Proof.
  intros Ha. split.
  - intros m Hm. exists (with_registry s (sv_db s) (Meta_Index m)
      (new_registry_object m (Meta_Index m))), (length (sv_objects s)).
    split; [by apply InitializeRegistry_known|]. split; [apply with_registry_finds; [done|apply Hm]|done].
  - intros i Hi Hm. pose proof (fetch_returns a) as Hf. destruct (fetchMetadataFromContract a) as [m|e|] eqn:E;
      [| |done].
    + destruct (InitializeRegistry_new s a m Ha Hi Hm E) as (d' & R & Hr & Hs & _). fold i in R, Hr.
      exists (Ok (length (sv_objects s))), (with_registry s d' i (new_registry_object (with_index i m) i)).
      split; [exact R|]. split; [apply Hr|]. split; [done|]. split; [done|].
      split; [apply with_registry_finds; [done|apply Hr]|done].
    + destruct (InitializeRegistry_no_contract s a e Ha Hi Hm E) as (d' & R & Hr & Hn & Hs).
      by exists (Throw (wrap_error "failed to fetch metadata from contract: %w" [] e)), (with_db s d').
Qed.

(** * The registries of a configuration *)

(** C22: up to 256 distinct addresses of which nothing is stored, configured on an empty numbering:
    each gets the job that the contract's first block asks for, its own number, in order, and
    its own registry, which the service finds under the address; the metadata is stored with
    the number, and no record of anything else is touched. *)
Theorem configured_registries_distinct (addresses : list gobytes) (ms : list Metadata) (d : DB) (w : world) :
  Forall2 (fun a m => address_ok a /\ unregistered d a /\ fetchMetadataFromContract a = Ok m) addresses ms ->
  NoDup addresses -> contents d !! makeRegistryIndexCounterKey = None -> (length addresses <= 256)%nat ->
  exists s', runs (configureZkCertificateRegistry addresses) (NewService d w) (zip_with job_of addresses ms) s' /\
    same_records (registration_keys addresses) d (sv_db s') /\
    forall k a m, addresses !! k = Some a -> ms !! k = Some m ->
      let m' := with_index (Z.of_nat k) m in
      runs (find_registry a) s' k s' /\ registered (sv_db s') a m' /\
      sv_objects s' !! k = Some (new_registry_object m' (Z.of_nat k)).
Proof.
  intros H Hnd Hc Hlen.
  destruct (configure_new addresses ms (NewService d w) 0 [] H Hnd) as (s' & R & [S _] & Eo & _ & Hk); [|done|].
  { unfold next_index. cbn [sv_db NewService]. by rewrite Hc. }
  exists s'. split; [exact R|]. split; [exact S|]. intros k a m Ea Em m'. destruct (Hk k a m Ea Em) as [Hr Hh].
  destruct (Forall2_lookup_lr _ _ _ _ _ _ H Ea Em) as [Ha _].
  split; [|split; [exact Hr|]].
  - by apply (find_registry_ok s' a (Z.of_nat k) k Ha (proj1 Hr)).
  - rewrite Eo. cbn [sv_objects NewService app]. by rewrite list_lookup_imap, Em.
Qed.

(** A commit followed by a restart.  When registries with distinct numbers are registered, one
    of them models leaves and an index, and a job of it commits a block, a new service over the
    same database is configured without a change of the database and with the jobs it had
    before; it finds every registry, and the registry of the commit models the leaves and the
    index with the operations applied, under the job's stored record. *)
Theorem service_restart (s : registry_state) (leaf : Z -> Z) (idx : Z -> option Z) (jd : JobDescriptor)
    (buf : OperationsBuffer) (block : Z) (jb : gobytes) (addresses : list gobytes) (ms : list Metadata)
    (k : nat) (m : Metadata) (w : world) :
  let leaf' := abs_leaves (emtpyLeaf (reg_tree s)) leaf (Operations buf) in
  reg_models s leaf idx -> storage_key_ok (JobKey jd) -> encode_job (mkJob jd block) = inr jb ->
  Forall (operation_ok (depth (reg_tree s))) (Operations buf) -> no_zero_node (depth (reg_tree s)) leaf' ->
  Forall2 (fun a m => address_ok a /\ registered (rs_db s) a m) addresses ms -> NoDup (map Meta_Index ms) ->
  ms !! k = Some m -> object_of m (rs_reg s) ->
  exists s' v reg, runs (Job_Commit jd buf block) s tt s' /\
    runs (configureZkCertificateRegistry addresses) (NewService (rs_db s') w) (zip_with job_of addresses ms) v /\
    sv_db v = rs_db s' /\ contents (sv_db v) !! makeJobKey jd = Some jb /\
    (forall j a, addresses !! j = Some a -> runs (find_registry a) v j v) /\
    sv_objects v !! k = Some reg /\
    reg_models (mkRegistryState reg (sv_db v) (sv_world v)) leaf' (abs_indices idx (Operations buf)).
Proof.
  intros leaf' Hm Hj Hjb Hops Hnz H Hnd Ek Hreg.
  destruct (Job_Commit_models s leaf idx jd buf block jb Hm Hj Hjb Hops Hnz) as (s' & R & M & _ & _ & Sr & Ej & Hk).
  assert (Forall2 (fun a m => address_ok a /\ registered (rs_db s') a m) addresses ms) as H'.
  { eapply Forall2_impl; [exact H|]. intros a m' [Ha Hr]. split; [done|].
    apply (registered_kept (belongs_to (reg_index s) jd) a (rs_db s) (rs_db s') m' Ha);
        [by intros []|by intros []|done..]. }
  destruct (configure_known addresses ms (NewService (rs_db s') w) [] H' Hnd) as (v & Rv & Edb & Ew & Eo & _ & Hh).
  exists s', v, (new_registry_object m (Meta_Index m)).
  split; [exact R|]. split; [exact Rv|]. split; [exact Edb|]. split; [by rewrite Edb|]. split; [|split].
  - intros j a Ea. destruct (Forall2_lookup_l _ _ _ _ _ H' Ea) as (m' & Em & Ha & Hr).
    apply (find_registry_ok v a (Meta_Index m') j Ha); [rewrite Edb; apply Hr|apply (Hh j m' Em)].
  - rewrite Eo. cbn [sv_objects NewService app]. by rewrite list_lookup_fmap, Ek.
  - rewrite Edb. apply (reopened_models _ _ _ m NewProgress); [by apply (object_of_same _ (rs_reg s))|exact M].
Qed.
End Theorems.

(** * Witnesses *)

Definition other_address : gobytes := replicate AddressLength 18.
Definition silent_address : gobytes := replicate AddressLength 0.

(** The metadata that the contracts of the two addresses answer with. *)
Definition toy_fetched (a : gobytes) : Metadata := mkMetadata a 3 7 (default 0 (last a)) "registry" 0.

Lemma initialize_registry_witness :
  exists c s', InitializeRegistry silent_address (NewService ∅ (mkWorld 0 0)) = (c, s') /\
    c <> Ok 0%nat /\ has_index (sv_db s') silent_address 0.
Proof.
  destruct (initialize_registry (NewService ∅ (mkWorld 0 0)) silent_address eq_refl) as [_ H].
  destruct H as (c & s' & E & Hi & _ & Hc); [by left|reflexivity|].
  exists c, s'. split; [exact E|]. split; [|exact Hi]. destruct Hc as [-> _]. discriminate.
Defined.

Lemma toy_new_addresses :
  Forall2 (fun a m => address_ok a /\ unregistered (∅ : DB) a /\ fetchMetadataFromContract a = Ok m)
    [toy_address; other_address] [toy_fetched toy_address; toy_fetched other_address].
Proof. repeat constructor. Qed.

Lemma configured_registries_distinct_witness :
  exists s', runs (configureZkCertificateRegistry [toy_address; other_address]) (NewService ∅ (mkWorld 0 0))
      [mkJobDescriptor toy_address 1 16; mkJobDescriptor other_address 1 17] s' /\
    runs (find_registry other_address) s' 1%nat s'.
Proof.
  destruct (configured_registries_distinct [toy_address; other_address] _ ∅ (mkWorld 0 0) toy_new_addresses)
    as (s' & R & _ & H).
  - by apply (bool_decide_eq_true_1 _); vm_compute.
  - reflexivity.
  - cbn. lia.
  - exists s'. split; [exact R|]. destruct (H 1%nat other_address (toy_fetched other_address) eq_refl eq_refl)
      as [F _].
    exact F.
Defined.

(** The service that configured both, and the state of its first registry. *)
Definition toy_service : service_state :=
  snd (configureZkCertificateRegistry [toy_address; other_address] (NewService ∅ (mkWorld 0 0))).

Definition toy_first : registry_state :=
  mkRegistryState (new_registry_object (toy_fetched toy_address) 0) (sv_db toy_service) (mkWorld 0 0).

Lemma toy_configured :
  same_records (registration_keys [toy_address; other_address]) ∅ (sv_db toy_service) /\
  registered (sv_db toy_service) toy_address (toy_fetched toy_address) /\
  registered (sv_db toy_service) other_address (with_index 1 (toy_fetched other_address)).
Proof.
  destruct (configure_new _ _ (NewService ∅ (mkWorld 0 0)) 0 [] toy_new_addresses) as (s' & R & [S _] & _ & _ & H).
  - by apply (bool_decide_eq_true_1 _); vm_compute.
  - reflexivity.
  - cbn. lia.
  - assert (toy_service = s') as ->
      by exact (f_equal snd (R : configureZkCertificateRegistry _ (NewService ∅ (mkWorld 0 0)) = _)).
    split; [exact S|]. split.
    + exact (proj1 (H 0%nat toy_address (toy_fetched toy_address) eq_refl eq_refl)).
    + exact (proj1 (H 1%nat other_address (toy_fetched other_address) eq_refl eq_refl)).
Qed.

Lemma toy_registered :
  Forall2 (fun a m => address_ok a /\ registered (sv_db toy_service) a m) [toy_address; other_address]
    [toy_fetched toy_address; with_index 1 (toy_fetched other_address)].
Proof.
  destruct toy_configured as (_ & H1 & H2).
  constructor; [split; [reflexivity|exact H1]|]. constructor; [split; [reflexivity|exact H2]|constructor].
Qed.

Lemma toy_first_new : new_registry toy_first.
Proof.
  destruct toy_configured as (S & _ & _).
  assert (forall k, storage_key_ok k -> (forall a, ~ registration_key a k) ->
    contents (sv_db toy_service) !! key_bytes k = None) as Hn.
  { intros k Hk Hr. rewrite (S k Hk); [exact (lookup_empty (M := gmap gobytes) (A := gobytes) (key_bytes k))|].
    intros (a & _ & H). exact (Hr a H). }
  unfold new_registry. cbn [rs_reg rs_db toy_first]. repeat split; try (cbn; lia).
  - intros l i Hk. apply (Hn (LeafKey 0 l i)); [split; [lia|exact Hk]|]. by intros a [[=]|[[=]|[=]]].
  - intros v Hv. apply (Hn (LeafIndexKey 0 v)); [split; [lia|exact Hv]|]. by intros a [[=]|[[=]|[=]]].
Qed.

Lemma service_restart_witness :
  exists s' v reg, runs (Job_Commit toy_job toy_buffer 105) toy_first tt s' /\
    runs (configureZkCertificateRegistry [toy_address; other_address]) (NewService (rs_db s') (mkWorld 0 0))
      [mkJobDescriptor toy_address 1 16; mkJobDescriptor other_address 1 17] v /\
    sv_objects v !! 0%nat = Some reg /\ reg_models (mkRegistryState reg (sv_db v) (sv_world v))
        toy_reg_leaves toy_index.
Proof.
  destruct (service_restart toy_first (fun _ => 7) (fun _ => None) toy_job toy_buffer 105 (be_bytes 8 105)
    [toy_address; other_address] [toy_fetched toy_address; with_index 1 (toy_fetched other_address)]
    0 (toy_fetched toy_address) (mkWorld 0 0) (new_registry_models toy_first toy_first_new)
        toy_job_ok (toy_encodes 105)
    toy_buffer_ok toy_no_zero toy_registered) as (s' & v & reg & R & Rv & _ & _ & _ & Eo & M).
  - by apply (bool_decide_eq_true_1 _); vm_compute.
  - reflexivity.
  - apply object_of_new.
  - exists s', v, reg. split; [exact R|]. split; [exact Rv|]. split; [exact Eo|exact M].
Defined.
