(* ===== verification/HandlersTheorems.v ===== *)
(** The gRPC handlers against an abstract service: a registry is unknown, behind the chain, or
    serves leaves, and each query has its answer in terms of these leaves.  Any sequence of
    queries is answered so, and leaves the service as it was. *)

From stdpp Require Import base list numbers strings gmap.
From Stdlib Require Import ZArith Lia.
From S2P Require Import Prelude GoBase MerkleSpec SparseTree SparseTreeFacts SparseTreeInsert.
From S2P Require Import SparseTreeProofs SparseTreeSimulation SparseTreeRuns.
From S2P Require Import Storage StorageFacts Registry RegistryFacts RegistryRuns.
From S2P Require Import GoInstance RegistryTheorems Service ServiceFacts Handlers HandlersFacts.
From S2P Require Import Jobs JobsFacts ServiceInstance ServiceTheorems.
Local Open Scope Z_scope.

(** * Queries and answers *)

Inductive query : Type :=
| Query_Proof (req : pb_QueryProofRequest)
| Query_GetEmptyLeafProof (req : pb_GetEmptyLeafProofRequest)
| Query_GetBatchProofs (req : pb_QueryBatchProofsRequest).

Inductive answer : Type :=
| Answer_Proof (res : pb_QueryProofResponse)
| Answer_GetEmptyLeafProof (res : pb_GetEmptyLeafProofResponse)
| Answer_GetBatchProofs (res : pb_QueryBatchProofsResponse).

Definition query_registry (q : query) : string :=
  match q with
  | Query_Proof req => pb_QueryProofRequest_Registry req
  | Query_GetEmptyLeafProof req => pb_GetEmptyLeafProofRequest_Registry req
  | Query_GetBatchProofs req => pb_QueryBatchProofsRequest_Registry req
  end.

(** What a registry is to a client: not there, not on the head of the chain, or a tree of a
    depth over leaves, with a value for empty ones. *)
Inductive registry_status : Type :=
| Unknown
| Behind
| Serving (d e : Z) (leaf : Z -> Z).

Section Theorems.
Context {U256 : Uint256} {UL : Uint256Laws U256} {PH : Poseidon} {PL : PoseidonLaws PH} {GE : GoEnv}.
Context {KV : KVDatabase} {KL : KVDatabaseLaws KV}.
Context {HA : HexAddress} {HL : HexAddressLaws HA} {UT : Uint256Text} {TL : Uint256TextLaws UT}.

(** The method of the server that a query calls. *)
Definition serve_query (q : query) : go service_state answer :=
  match q with
  | Query_Proof req => let! res := Server_Proof req in go_ret (Answer_Proof res)
  | Query_GetEmptyLeafProof req => let! res := Server_GetEmptyLeafProof req in go_ret (Answer_GetEmptyLeafProof res)
  | Query_GetBatchProofs req => let! res := Server_GetBatchProofs req in go_ret (Answer_GetBatchProofs res)
  end.

Fixpoint serve_all (qs : list query) (s : service_state) : list (gores answer) * service_state :=
  match qs with
  | [] => ([], s)
  | q :: qs' => let (c, s1) := serve_query q s in let (cs, s2) := serve_all qs' s1 in (c :: cs, s2)
  end.

(** * The specification *)

(** A proof message: the path has a field element per level and leads from the leaf's value to
    the root. *)
Definition proof_message (d : Z) (leaf : Z -> Z) (i : Z) (text : string) (p : pb_Proof) : Prop :=
  exists path, path_ok d path /\ root_of hash (leaf i) path i = tree_root hash d leaf /\
    p = mkpb_Proof text (map uint256_String path) i (uint256_String (tree_root hash d leaf)).

Definition proof_spec (d e : Z) (leaf : Z -> Z) (text : string) (c : gores answer) : Prop :=
  match uint256_FromDecimal text with
  | inl _ => c = Throw (Status InvalidArgument "invalid leaf value, must be a decimal number: %s" [] [text] None)
  | inr v =>
      (exists i p, 0 <= i < 2 ^ d /\ leaf i = v /\ v <> e /\ proof_message d leaf i text p /\
         c = Ok (Answer_Proof (mkpb_QueryProofResponse p))) \/
      ((v = e \/ forall i, 0 <= i < 2 ^ d -> leaf i <> v) /\
         c = Throw (Status NotFound "leaf not found: %s" [] [text] None))
  end.

Definition empty_leaf_spec (d e : Z) (leaf : Z -> Z) (c : gores answer) : Prop :=
  (exists i p, 0 <= i < 2 ^ d /\ leaf i = e /\ proof_message d leaf i (uint256_String e) p /\
     c = Ok (Answer_GetEmptyLeafProof (mkpb_GetEmptyLeafProofResponse p))) \/
  c = Throw (Status Internal "failed to get empty leaf proof, try again" [] [] None).

(** A batch of operations: the abstract batch over leaves that agree with the tree's, from some
    place in the sequence of random numbers on. *)
Definition batch_spec (d e : Z) (leaf : Z -> Z) (ops : list pb_BatchOperation) (c : gores answer) : Prop :=
  match ops with
  | [] => c = Throw (Status InvalidArgument "operations cannot be empty" [] [] None)
  | _ =>
      match parse_operations 0 ops with
      | inl bad => c = Throw (bad_operation bad)
      | inr vs => exists leaf0 k, (forall i, 0 <= i < 2 ^ d -> leaf0 i = leaf i) /\
          match spec_batch d e (go_operations vs) (leaf0, k) with
          | Some (rs, _) => c = Ok (Answer_GetBatchProofs
              (mkpb_QueryBatchProofsResponse (uint256_String (tree_root hash d leaf)) (map batch_proof rs)))
          | None => exists err, c = Throw (Status Internal "failed to simulate batch operations: %v" [] [] (Some err))
          end
      end
  end.

Definition serving_spec (d e : Z) (leaf : Z -> Z) (q : query) (c : gores answer) : Prop :=
  match q with
  | Query_Proof req => proof_spec d e leaf (pb_QueryProofRequest_Leaf req) c
  | Query_GetEmptyLeafProof _ => empty_leaf_spec d e leaf c
  | Query_GetBatchProofs req => batch_spec d e leaf (pb_QueryBatchProofsRequest_Operations req) c
  end.

Definition unknown_registry (q : query) : go_error :=
  Status NotFound (match q with Query_GetEmptyLeafProof _ => "tree not found: %s" | _ => "registry not found: %s" end)
    [] [query_registry q] None.

Definition answer_spec (M : gobytes -> registry_status) (q : query) (c : gores answer) : Prop :=
  if IsHexAddress (query_registry q) then
    match M (HexToAddress (query_registry q)) with
    | Unknown => c = Throw (unknown_registry q)
    | Behind => c = Throw not_on_head
    | Serving d e leaf => serving_spec d e leaf q c
    end
  else c = Throw (bad_address (query_registry q)).

(** The values of a batch are field elements. *)
Definition query_ok (q : query) : Prop :=
  match q with
  | Query_GetBatchProofs req => Forall (fun op => forall v,
      uint256_FromDecimal (pb_BatchOperation_LeafHash op) = inr v -> in_field v)
          (pb_QueryBatchProofsRequest_Operations req)
  | _ => True
  end.

(** * The service as the specification sees it *)

Definition status_ok (s : service_state) (a : gobytes) (st : registry_status) : Prop :=
  match st with
  | Unknown => contents (sv_db s) !! makeRegistryIndexKey a = None \/
               exists i, has_index (sv_db s) a i /\ sv_registry s !! i = None
  | Behind => exists h reg, opened s a h reg /\ IsOnHead (reg_progressTracker reg) = false
  | Serving d e leaf => exists h reg idx, serving s a h reg leaf idx /\
      depth (reg_tree (registry_view s reg)) = d /\ emtpyLeaf (reg_tree (registry_view s reg)) = e
  end.

Definition represents (s : service_state) (M : gobytes -> registry_status) : Prop :=
  forall a, address_ok a -> status_ok s a (M a).

Lemma opened_kept (s s' : service_state) (a : gobytes) (h : nat) (reg : ZKCertificateRegistry) :
  sv_kept s s' -> opened s a h reg -> exists reg', opened s' a h reg' /\
    tree_kept (registry_view s reg) (registry_view s' reg') /\ reg_progressTracker reg' = reg_progressTracker reg.
Proof.
  intros (Ed & Er & Hk) [Ha Hi Ho]. destruct (Hk h reg Ho) as (reg' & Ho' & Ht). exists reg'.
  split; [|split; [done|]].
  - split; [done| |done]. by rewrite Ed, Er.
  - destruct Ht as (_ & [levels E] & _). cbn [registry_view rs_reg] in E. by rewrite E.
Qed.

Lemma represents_kept (s s' : service_state) (M : gobytes -> registry_status) :
  sv_kept s s' -> represents s M -> represents s' M.
Proof.
  intros Hk H a Ha. specialize (H a Ha). pose proof Hk as (Ed & Er & _). unfold status_ok in *.
  destruct (M a) as [| |d e leaf].
  - by rewrite Ed, Er.
  - destruct H as (h & reg & Ho & Hh). destruct (opened_kept s s' a h reg Hk Ho) as (reg' & Ho' & _ & Ep).
    exists h, reg'. by rewrite Ep.
  - destruct H as (h & reg & idx & [Ho Hh Hm Ha'] & Hd & He).
    destruct (opened_kept s s' a h reg Hk Ho) as (reg' & Ho' & Ht & Ep).
    assert (depth (reg_tree (registry_view s' reg')) = depth (reg_tree (registry_view s reg)) /\
      emtpyLeaf (reg_tree (registry_view s' reg')) = emtpyLeaf (reg_tree (registry_view s reg))) as [Hd' He'].
    { destruct Ht as (_ & [levels E] & _). cbn [registry_view rs_reg] in E. by rewrite E. }
    exists h, reg', idx. rewrite Hd', He'. split; [|done]. split; [done|by rewrite Ep| |by rewrite Hd', He'].
    by apply (kept_models (registry_view s reg)).
Qed.

(** * The guards *)

Lemma unknown_not_found (s : service_state) (a : gobytes) :
  address_ok a -> status_ok s a Unknown -> exists err, go_try (find_registry a) s = (Ok (inl err), s).
Proof.
  intros Ha H. unfold go_try, find_registry, go_bind, go_wrap, on_sv_db.
  rewrite FindRegistryIndex_ok by done. destruct H as [E|(i & E & Er)].
  - rewrite E. destruct s. by eexists.
  - unfold has_index in E. rewrite E. cbn [read_byte wrap_res sv_registry].
    match goal with |- context [match ?x with Some _ => _ | None => _ end] => change x with (sv_registry s !! i) end.
    rewrite Er. destruct s. by eexists.
Qed.

(** The three ways in which a query fails before the registry is asked. *)
Lemma serve_bad_address (s : service_state) (q : query) :
  IsHexAddress (query_registry q) = false -> serve_query q s = (Throw (bad_address (query_registry q)), s).
Proof.
  destruct q as [req|req|req]; cbn [serve_query query_registry]; intros E;
    unfold Server_Proof, Server_GetEmptyLeafProof, Server_GetBatchProofs; by rewrite E.
Qed.

Lemma serve_unknown (s : service_state) (q : query) :
  IsHexAddress (query_registry q) = true -> status_ok s (HexToAddress (query_registry q)) Unknown ->
  serve_query q s = (Throw (unknown_registry q), s).
Proof.
  intros E H. destruct (unknown_not_found s _ (HexToAddress_length _ E) H) as [err Ef].
  destruct q as [req|req|req]; cbn [serve_query query_registry] in *;
    unfold Server_Proof, Server_GetEmptyLeafProof, Server_GetBatchProofs; rewrite E; cbn [negb];
    unfold go_bind; by rewrite Ef.
Qed.

Lemma serve_behind (s : service_state) (q : query) (h : nat) (reg : ZKCertificateRegistry) :
  IsHexAddress (query_registry q) = true -> opened s (HexToAddress (query_registry q)) h reg ->
  IsOnHead (reg_progressTracker reg) = false -> serve_query q s = (Throw not_on_head, s).
Proof.
  intros E Ho Hh. pose proof (opened_found s _ h reg Ho) as Ef. pose proof (opened_head s _ h reg Ho) as Eh.
  destruct q as [req|req|req]; cbn [serve_query query_registry] in *;
    unfold Server_Proof, Server_GetEmptyLeafProof, Server_GetBatchProofs; rewrite E; cbn [negb];
    unfold go_bind; by rewrite Ef, Eh, Hh.
Qed.

(** * The handlers of a registry on the head *)

Lemma serve_proof (s : service_state) (req : pb_QueryProofRequest) (h : nat) (reg : ZKCertificateRegistry)
    (leaf : Z -> Z) (idx : Z -> option Z) :
  let t := reg_tree (registry_view s reg) in
  context_active -> IsHexAddress (pb_QueryProofRequest_Registry req) = true ->
  serving s (HexToAddress (pb_QueryProofRequest_Registry req)) h reg leaf idx ->
  exists c s', serve_query (Query_Proof req) s = (c, s') /\ sv_kept s s' /\
    proof_spec (depth t) (emtpyLeaf t) leaf (pb_QueryProofRequest_Leaf req) c.
Proof.
  intros t Hctx Hr [Ho Hh Hm Ha]. cbn [serve_query]. unfold Server_Proof, proof_spec. rewrite Hr. cbn [negb].
  unfold go_bind at 1. rewrite (bind_found s _ h reg _ Ho), (bind_head s _ h reg _ Ho), Hh. cbn [negb].
  destruct (uint256_FromDecimal (pb_QueryProofRequest_Leaf req)) as [e|v] eqn:Et.
  { eexists _, s. split; [reflexivity|]. split; [apply sv_kept_refl|done]. }
  destruct (registry_proof_cases (registry_view s reg) leaf idx v Hctx Hm Ha (FromDecimal_fits _ _ Et))
    as (c & rs & E & Hk & Hc).
  destruct (try_on_registry _ s h reg c rs (op_object _ _ _ _ Ho) E Hk) as (s' & Hk' & Ec).
  unfold go_bind at 1. rewrite Ec. fold t in Hc.
  destruct Hc as [(i & p & Hi & El & Hne & -> & Ep & Er & Hp & Hpath)|[Hno (err & -> & Hpan & Hnf)]].
  - eexists _, s'. split; [reflexivity|]. split; [done|]. left. eexists i, _. split; [done|]. split; [done|].
    split; [done|]. split; [|reflexivity]. exists (Proof_Path p). rewrite El, Hp, Er. split; [done|]. split; [done|].
    rewrite Ep. f_equal. unfold u32. apply Z.mod_small. pose proof (depth_range _ _ _ Hm) as Hd. fold t in Hd.
    pose proof (Z.pow_le_mono_r 2 (depth t) 32). lia.
  - rewrite Hpan. eexists _, s'. split; [|split; [done|right; split; [done|reflexivity]]]. by rewrite Hnf.
Qed.

Lemma serve_empty_leaf (s : service_state) (req : pb_GetEmptyLeafProofRequest) (h : nat) (reg : ZKCertificateRegistry)
    (leaf : Z -> Z) (idx : Z -> option Z) :
  let t := reg_tree (registry_view s reg) in
  context_active -> IsHexAddress (pb_GetEmptyLeafProofRequest_Registry req) = true ->
  serving s (HexToAddress (pb_GetEmptyLeafProofRequest_Registry req)) h reg leaf idx ->
  exists c s', serve_query (Query_GetEmptyLeafProof req) s = (c, s') /\ sv_kept s s' /\
    empty_leaf_spec (depth t) (emtpyLeaf t) leaf c.
Proof.
  intros t Hctx Hr [Ho Hh Hm Ha]. cbn [serve_query]. unfold Server_GetEmptyLeafProof, empty_leaf_spec.
      rewrite Hr. cbn [negb].
  unfold go_bind at 1. rewrite (bind_found s _ h reg _ Ho), (bind_head s _ h reg _ Ho), Hh. cbn [negb].
  destruct (GetRandomEmptyLeafProof_ok (registry_view s reg) leaf idx Hctx Hm) as (c & rs & E & Hk & Hc).
  destruct (try_on_registry _ s h reg c rs (op_object _ _ _ _ Ho) E Hk) as (s' & Hk' & Ec).
  unfold go_bind at 1. rewrite Ec. fold t in Hc. destruct (find_free _ _ _ _) as [x|].
  - destruct Hc as (p & -> & Hx & Ee & Pl & Pi & Pr & Hp & Hpath). eexists _, s'. split; [reflexivity|]. split;
      [done|]. left.
    eexists x, _. split; [done|]. split; [done|]. split; [|reflexivity]. exists (Proof_Path p).
    split; [done|]. split; [by rewrite <- Pr|]. rewrite Pl, Ee, Pi, Pr. f_equal. unfold u32. apply Z.mod_small.
    pose proof (depth_range _ _ _ Hm) as Hd. fold t in Hd. pose proof (Z.pow_le_mono_r 2 (depth t) 32). lia.
  - destruct Hc as (err & -> & Hpan). rewrite Hpan. eexists _, s'. split; [reflexivity|]. split; [done|by right].
Qed.

Lemma parsed_in_field (ops : list pb_BatchOperation) (i : Z) (vs : list (Z * bool)) :
  Forall (fun op => forall v, uint256_FromDecimal (pb_BatchOperation_LeafHash op) = inr v -> in_field v) ops ->
  parse_operations i ops = inr vs -> Forall (fun va => in_field (fst va)) vs.
Proof.
  intros H. revert i vs. induction H as [|op ops Hop _ IH]; intros i vs; cbn [parse_operations]; [by intros [= <-]|].
  destruct (uint256_FromDecimal (pb_BatchOperation_LeafHash op)) as [e|v] eqn:E; [done|].
  destruct (parse_operations (i + 1) ops) as [bad|vs'] eqn:E'; [done|]. intros [= <-].
  constructor; [by apply Hop|by apply (IH (i + 1))].
Qed.

(** A simulation on a registry that does not change meanwhile. *)
Lemma simulation_answers (s : service_state) (h : nat) (reg : ZKCertificateRegistry) (leaf : Z -> Z)
    (idx : Z -> option Z) (ops : list pb_BatchOperation) (vs : list (Z * bool)) :
  let t := reg_tree (registry_view s reg) in
  context_active -> sv_objects s !! h = Some reg -> reg_models (registry_view s reg) leaf idx ->
  Forall (fun va => in_field (fst va)) vs -> ops <> [] -> parse_operations 0 ops = inr vs ->
  exists r s', go_try (on_registry h (on_tree (SimulateBatchOperations (go_operations vs)))) s = (Ok r, s') /\
    sv_kept s s' /\
    batch_spec (depth t) (emtpyLeaf t) leaf ops
      match r with
      | inl err => Throw (Status Internal "failed to simulate batch operations: %v" [] [] (Some err))
      | inr (root, proofs) => Ok (Answer_GetBatchProofs
          (mkpb_QueryBatchProofsResponse (uint256_String root) (map batch_proof proofs)))
      end.
Proof.
  intros t Hctx Ho Hm Hf Hne Ep. unfold batch_spec. destruct ops as [|op ops]; [done|]. rewrite Ep.
  destruct (simulate_registry (registry_view s reg) leaf idx vs Hctx Hm Hf) as (c & rs & E & Hk & Hc).
  destruct (try_on_registry _ s h reg c rs Ho E Hk) as (s' & Hk' & Ec). rewrite Ec. fold t in Hc.
  assert (tree_root hash (depth t) (stored t 0) = tree_root hash (depth t) leaf) as Eroot.
  { apply tree_root_ext; [|exact (rm_leaves _ _ _ Hm)]. pose proof (depth_range _ _ _ Hm). fold t in H. lia. }
  destruct (spec_batch _ _ _ _) as [[bs pl]|] eqn:Es.
  - subst c. eexists _, s'. split; [reflexivity|]. split; [done|]. eexists _, _.
    split; [exact (rm_leaves _ _ _ Hm)|]. fold t. rewrite Es, Eroot. done.
  - destruct Hc as (err & -> & Hpan). rewrite Hpan. eexists _, s'. split; [reflexivity|]. split; [done|].
    eexists _, _. split; [exact (rm_leaves _ _ _ Hm)|]. fold t. rewrite Es. by exists err.
Qed.

Lemma serve_batch (s : service_state) (req : pb_QueryBatchProofsRequest) (h : nat) (reg : ZKCertificateRegistry)
    (leaf : Z -> Z) (idx : Z -> option Z) :
  let t := reg_tree (registry_view s reg) in
  context_active -> IsHexAddress (pb_QueryBatchProofsRequest_Registry req) = true ->
  serving s (HexToAddress (pb_QueryBatchProofsRequest_Registry req)) h reg leaf idx ->
  query_ok (Query_GetBatchProofs req) ->
  exists c s', serve_query (Query_GetBatchProofs req) s = (c, s') /\ sv_kept s s' /\
    batch_spec (depth t) (emtpyLeaf t) leaf (pb_QueryBatchProofsRequest_Operations req) c.
Proof.
  intros t Hctx Hr [Ho Hh Hm Ha] Hok. cbn [serve_query query_ok] in *. unfold Server_GetBatchProofs.
  rewrite Hr. cbn [negb]. unfold go_bind at 1.
  rewrite (bind_found s _ h reg _ Ho), (bind_head s _ h reg _ Ho), Hh. cbn [negb].
  set (ops := pb_QueryBatchProofsRequest_Operations req) in *. destruct (decide (ops = [])) as [E|Hne].
  { rewrite E. eexists _, s. split; [reflexivity|]. split; [apply sv_kept_refl|done]. }
  assert ((length ops =? 0)%nat = false) as -> by (by destruct ops).
  unfold go_bind at 1, go_res. rewrite convert_operations_ok. destruct (parse_operations 0 ops) as [bad|vs] eqn:Ep.
  { eexists _, s. split; [reflexivity|]. split; [apply sv_kept_refl|]. unfold batch_spec. rewrite Ep.
    by destruct ops. }
  destruct (simulation_answers s h reg leaf idx ops vs Hctx (op_object _ _ _ _ Ho) Hm (parsed_in_field _ _ _ Hok Ep)
    Hne Ep) as (r & s' & E & Hk & Hc).
  cbn [app]. unfold go_bind at 1. rewrite E. destruct r as [err|[root proofs]];
    (eexists _, s'; split; [reflexivity|by split]).
Qed.

(** * Queries *)

Lemma serve_ok (s : service_state) (M : gobytes -> registry_status) (q : query) :
  context_active -> represents s M -> query_ok q ->
  exists c s', serve_query q s = (c, s') /\ sv_kept s s' /\ answer_spec M q c.
Proof.
  intros Hctx H Hq. unfold answer_spec. destruct (IsHexAddress (query_registry q)) eqn:E.
  2:{ exists (Throw (bad_address (query_registry q))), s. split; [by apply serve_bad_address|].
      split; [apply sv_kept_refl|done]. }
  specialize (H _ (HexToAddress_length _ E)). destruct (M (HexToAddress (query_registry q))) as [| |d e leaf].
  - exists (Throw (unknown_registry q)), s. split; [by apply serve_unknown|]. split; [apply sv_kept_refl|done].
  - destruct H as (h & reg & Ho & Hh). exists (Throw not_on_head), s.
    split; [by apply (serve_behind s q h reg)|]. split; [apply sv_kept_refl|done].
  - destruct H as (h & reg & idx & Hs & <- & <-). destruct q as [req|req|req]; cbn [serving_spec query_registry] in *.
    + by apply serve_proof with (idx := idx) (h := h).
    + by apply serve_empty_leaf with (idx := idx) (h := h).
    + by apply serve_batch with (idx := idx) (h := h).
Qed.

(** C5: the handlers refine the abstract service.  In a service whose registries are unknown, behind
    the chain or serving leaves, with a context that is not cancelled, any sequence of queries
    gets answers that the specification allows.  A query fails on an address that is not
    hexadecimal, an unknown registry, and a registry that is not on the head, in this order.
    Otherwise [Proof] answers with a path from the value to the root exactly when a leaf
    holds the value and with a not-found error if none does, [GetEmptyLeafProof] with
    a path from an empty leaf or a request to try again, and [GetBatchProofs], whose values are
    field elements, with the root and the indices and paths of the abstract batch, or the error
    where that has no answer.
    No query changes what the next one gets. *)
Theorem handlers_refine_service (s : service_state) (M : gobytes -> registry_status) (qs : list query) :
  context_active -> represents s M -> Forall query_ok qs ->
  exists cs s', serve_all qs s = (cs, s') /\ Forall2 (answer_spec M) qs cs /\ represents s' M /\ sv_db s' = sv_db s.
Proof.
  intros Hctx H Hqs. revert s H. induction Hqs as [|q qs Hq _ IH]; intros s H; cbn [serve_all].
  { exists [], s. done. }
  destruct (serve_ok s M q Hctx H Hq) as (c & s1 & E & Hk & Hc). rewrite E.
  destruct (IH s1 (represents_kept s s1 M Hk H)) as (cs & s2 & E2 & Hcs & H2 & Ed). rewrite E2.
  exists (c :: cs), s2. split; [done|]. split; [by constructor|]. split; [done|]. rewrite Ed. apply Hk.
Qed.
End Theorems.

(** * Witnesses: one registry serving, one behind, no other *)

Definition toy_first_committed : registry_state := snd (Job_Commit toy_job toy_buffer 105 toy_first).

Definition toy_on_head : ZKCertificateRegistry :=
  with_progress (SetOnHead NewProgress true) (new_registry_object (toy_fetched toy_address) 0).
Definition toy_behind : ZKCertificateRegistry := new_registry_object (with_index 1 (toy_fetched other_address)) 1.

Definition toy_serving : service_state :=
  mkServiceState (rs_db toy_first_committed) [toy_on_head; toy_behind]
    {[0 := 0%nat; 1 := 1%nat]} (mkWorld 0 0).

Definition toy_status (a : gobytes) : registry_status :=
  if decide (a = toy_address) then Serving 3 7 toy_reg_leaves
  else if decide (a = other_address) then Behind else Unknown.

Lemma toy_first_commits : runs (Job_Commit toy_job toy_buffer 105) toy_first tt toy_first_committed.
Proof. unfold toy_first_committed. apply runs_snd. vm_compute. reflexivity. Qed.

Lemma toy_first_reachable : reg_reachable toy_first_committed toy_reg_leaves toy_index.
Proof.
  apply (reach_commit toy_first toy_first_committed (fun _ => 7) (fun _ => None)
      toy_job toy_buffer 105 (be_bytes 8 105)
    (reach_new_registry toy_first toy_first_new) toy_job_ok (toy_encodes 105) toy_buffer_ok);
    [|apply toy_no_zero|apply toy_first_commits].
  repeat split; done.
Qed.

(** The commit keeps the registry and the numbers of all addresses. *)
Lemma toy_commit_keeps :
  same_registry (rs_reg toy_first) (rs_reg toy_first_committed) /\
  forall a, address_ok a ->
    contents (sv_db toy_serving) !! makeRegistryIndexKey a = contents (sv_db toy_service) !! makeRegistryIndexKey a.
Proof.
  destruct (Job_Commit_models toy_first (fun _ => 7) (fun _ => None) toy_job toy_buffer 105 (be_bytes 8 105)
    (new_registry_models toy_first toy_first_new) toy_job_ok (toy_encodes 105) toy_buffer_ok toy_no_zero)
    as (s' & R & _ & _ & _ & S & _ & H).
  destruct (runs_det _ _ _ _ _ _ R toy_first_commits) as [_ ->]. split; [exact S|].
  intros a Ha. apply (H (RegistryIndexKey a) Ha). by intros [].
Qed.

Lemma toy_represents : represents toy_serving toy_status.
Proof.
  destruct toy_configured as (S & [H1 _] & [H2 _]). destruct toy_commit_keeps as [Hreg Hindex]. intros a Ha.
      unfold toy_status.
  destruct (decide (a = toy_address)) as [->|Hne1]; [|destruct (decide (a = other_address)) as [->|Hne2]].
  - exists 0%nat, toy_on_head, toy_index. split; [|split; reflexivity]. split.
    + split; [done| |reflexivity]. exists 0. split; [|reflexivity]. unfold has_index. rewrite Hindex by done.
      exact H1.
    + reflexivity.
    + apply (reopened_models toy_first_committed _ _ (toy_fetched toy_address)).
      * apply (object_of_same _ (rs_reg toy_first) _ Hreg), object_of_new.
      * apply (reachable_models _ _ _ toy_first_reachable).
    + apply (reachable_models _ _ _ toy_first_reachable).
  - exists 1%nat, toy_behind. split; [|reflexivity]. split; [done| |reflexivity]. exists 1. split; [|reflexivity].
    unfold has_index. rewrite Hindex by done. exact H2.
  - assert (~ registration_keys [toy_address; other_address] (RegistryIndexKey a)) as Hn.
    { intros (b & Hb & [E|[E|E]]); [|discriminate E|discriminate E]. injection E as <-.
      apply list_elem_of_In in Hb. destruct Hb as [Hb|[Hb|[]]]; [exact (Hne1 (eq_sym Hb))|exact (Hne2 (eq_sym Hb))]. }
    left. rewrite Hindex by done. rewrite (S (RegistryIndexKey a) Ha Hn : _ !! makeRegistryIndexKey a = _).
    exact (lookup_empty (M := gmap gobytes) (A := gobytes) (makeRegistryIndexKey a)).
Qed.

Definition toy_address_text : string := "0x1111111111111111111111111111111111111111".

Lemma toy_address_hex : IsHexAddress toy_address_text = true /\ HexToAddress toy_address_text = toy_address.
Proof. split; vm_compute; reflexivity. Qed.

Definition toy_queries : list query :=
  [Query_Proof (mkpb_QueryProofRequest toy_address_text "30");
   Query_GetEmptyLeafProof (mkpb_GetEmptyLeafProofRequest toy_address_text);
   Query_GetBatchProofs (mkpb_QueryBatchProofsRequest toy_address_text [mkpb_BatchOperation "44" true]);
   Query_Proof (mkpb_QueryProofRequest "1111" "30")].

Lemma handlers_refine_service_witness :
  exists cs s', serve_all toy_queries toy_serving = (cs, s') /\ Forall2 (answer_spec toy_status) toy_queries cs.
Proof.
  destruct (handlers_refine_service toy_serving toy_status toy_queries toy_active_context toy_represents)
    as (cs & s' & E & H & _).
  - constructor; [exact I|]. constructor; [exact I|]. constructor; [|constructor; [exact I|constructor]].
    constructor; [|constructor]. intros v E. vm_compute in E. injection E as <-. split; cbn; lia.
  - exists cs, s'. split; [exact E|exact H].
Defined.
