(* ===== verification/Locks.v ===== *)
(** The locks of registries ([internal/zkregistry/mutex.go]) as a transition system: goroutines
    that call [Lock], [Unlock], [RLock] and [RUnlock] for a registry's number, go through
    [getOrCreateMutex] step by step, and hold read-write mutexes; those that hold a write
    lock write to the database.

    [sync.RWMutex] is as documented: [RLock] waits for a writer, [Lock] for readers and
    writers, and unlocking a mutex that the goroutine does not hold is a fatal error. *)

From stdpp Require Import base list numbers gmap.
From Stdlib Require Import ZArith Lia.
From S2P Require Import Prelude GoBase SparseTree Storage.
Local Open Scope Z_scope.

Section System.
Context {KV : KVDatabase}.

Inductive lock_op : Type := OpLock | OpUnlock | OpRLock | OpRUnlock.

(** What a goroutine holds: a write lock, or a read lock with the database as it was when the
    lock was taken. *)
Inductive hold_kind : Type := Writer | Reader (snapshot : DB).

Record hold : Type := mkHold {
  hold_index : RegistryIndex;
  hold_mutex : nat;
  hold_as : hold_kind
}.

(** Where a goroutine is: outside of [Mutex]'s methods, or in a call of one of them, inside
    [getOrCreateMutex] or with its result. *)
Inductive pc : Type :=
| Idle
| Enter (op : lock_op) (index : RegistryIndex)
| Lookup (op : lock_op) (index : RegistryIndex)
| Looked (op : lock_op) (index : RegistryIndex) (found : option nat)
| Missing (op : lock_op) (index : RegistryIndex)
| Recheck (op : lock_op) (index : RegistryIndex)
| Insert (op : lock_op) (index : RegistryIndex)
| Leave (op : lock_op) (index : RegistryIndex) (mutex : nat)
| Return (op : lock_op) (index : RegistryIndex) (mutex : nat)
| Fatal.

Record goroutine : Type := mkGoroutine { gr_pc : pc; gr_hold : option hold }.

(** [Mutex.mutexes], the number of mutexes created so far, the goroutines, the database. *)
Record locks : Type := mkLocks {
  lk_mutexes : gmap RegistryIndex nat;
  lk_next : nat;
  lk_threads : list goroutine;
  lk_db : DB
}.

(** [NewMutex], with all goroutines outside. *)
Definition NewMutex (n : nat) (database : DB) : locks := mkLocks ∅ 0 (replicate n (mkGoroutine Idle None)) database.

(** [Mutex.mu] is held for reading, for writing. *)
Definition reads_mu (p : pc) : bool := match p with Lookup _ _ | Looked _ _ _ => true | _ => false end.
Definition writes_mu (p : pc) : bool := match p with Recheck _ _ | Insert _ _ | Leave _ _ _ => true | _ => false end.

Definition mu_free (s : locks) : Prop := forall j t, lk_threads s !! j = Some t -> writes_mu (gr_pc t) = false.
Definition mu_unused (s : locks) : Prop :=
  forall j t, lk_threads s !! j = Some t -> writes_mu (gr_pc t) = false /\ reads_mu (gr_pc t) = false.

(** The mutex [h] has no writer, and no holder at all. *)
Definition no_writer (s : locks) (h : nat) : Prop :=
  forall j t k, lk_threads s !! j = Some t -> gr_hold t = Some k -> hold_mutex k = h -> hold_as k <> Writer.
Definition no_holder (s : locks) (h : nat) : Prop :=
  forall j t k, lk_threads s !! j = Some t -> gr_hold t = Some k -> hold_mutex k <> h.

(** The goroutine [i] moves on. *)
Definition goes (s : locks) (i : nat) (p : pc) (o : option hold) : locks :=
  mkLocks (lk_mutexes s) (lk_next s) (<[i := mkGoroutine p o]> (lk_threads s)) (lk_db s).

(** A goroutine starts a call: the registry code takes a lock when it has none, and releases
    the one it has. *)
Definition may_call (o : option hold) (op : lock_op) (k : RegistryIndex) : Prop :=
  match o, op with
  | None, OpLock | None, OpRLock => True
  | Some h, OpUnlock => hold_index h = k /\ hold_as h = Writer
  | Some h, OpRUnlock => hold_index h = k /\ hold_as h <> Writer
  | _, _ => False
  end.

Variable commits : RegistryIndex -> DB -> DB -> Prop.
Variable other_writes : DB -> DB -> Prop.

Inductive step (s : locks) : locks -> Prop :=
| step_call i o op k : lk_threads s !! i = Some (mkGoroutine Idle o) -> may_call o op k ->
    step s (goes s i (Enter op k) o)
(* m.mu.RLock() *)
| step_rlock_mu i o op k : lk_threads s !! i = Some (mkGoroutine (Enter op k) o) -> mu_free s ->
    step s (goes s i (Lookup op k) o)
(* mutex, ok := m.mutexes[address] *)
| step_lookup i o op k : lk_threads s !! i = Some (mkGoroutine (Lookup op k) o) ->
    step s (goes s i (Looked op k (lk_mutexes s !! k)) o)
(* m.mu.RUnlock(); if ok { return mutex } *)
| step_found i o op k h : lk_threads s !! i = Some (mkGoroutine (Looked op k (Some h)) o) ->
    step s (goes s i (Return op k h) o)
| step_missing i o op k : lk_threads s !! i = Some (mkGoroutine (Looked op k None) o) ->
    step s (goes s i (Missing op k) o)
(* m.mu.Lock() *)
| step_lock_mu i o op k : lk_threads s !! i = Some (mkGoroutine (Missing op k) o) -> mu_unused s ->
    step s (goes s i (Recheck op k) o)
(* mutex, ok = m.mutexes[address]; if ok { return mutex } *)
| step_recheck i o op k : lk_threads s !! i = Some (mkGoroutine (Recheck op k) o) ->
    step s (goes s i (match lk_mutexes s !! k with Some h => Leave op k h | None => Insert op k end) o)
(* mutex = &sync.RWMutex{}; m.mutexes[address] = mutex *)
| step_insert i o op k : lk_threads s !! i = Some (mkGoroutine (Insert op k) o) ->
    step s (mkLocks (<[k := lk_next s]> (lk_mutexes s)) (S (lk_next s))
              (<[i := mkGoroutine (Leave op k (lk_next s)) o]> (lk_threads s)) (lk_db s))
(* the deferred m.mu.Unlock() *)
| step_leave i o op k h : lk_threads s !! i = Some (mkGoroutine (Leave op k h) o) ->
    step s (goes s i (Return op k h) o)
(* .Lock(), .RLock(), .Unlock(), .RUnlock() *)
| step_lock i o k h : lk_threads s !! i = Some (mkGoroutine (Return OpLock k h) o) -> no_holder s h ->
    step s (goes s i Idle (Some (mkHold k h Writer)))
| step_rlock i o k h : lk_threads s !! i = Some (mkGoroutine (Return OpRLock k h) o) -> no_writer s h ->
    step s (goes s i Idle (Some (mkHold k h (Reader (lk_db s)))))
| step_unlock i o k h op : lk_threads s !! i = Some (mkGoroutine (Return op k h) o) ->
    op = OpUnlock \/ op = OpRUnlock ->
    step s (match o with
            | Some g => if decide (hold_mutex g = h) then goes s i Idle None else goes s i Fatal o
            | None => goes s i Fatal o
            end)
(* batch.WriteSync() under the write lock; writes for addresses, under none *)
| step_write i k h d : lk_threads s !! i = Some (mkGoroutine Idle (Some (mkHold k h Writer))) ->
    commits k (lk_db s) d ->
    step s (mkLocks (lk_mutexes s) (lk_next s) (lk_threads s) d)
| step_other d : other_writes (lk_db s) d -> step s (mkLocks (lk_mutexes s) (lk_next s) (lk_threads s) d).

Inductive reachable (n : nat) (d : DB) : locks -> Prop :=
| reachable_start : reachable n d (NewMutex n d)
| reachable_step s s' : reachable n d s -> step s s' -> reachable n d s'.
End System.
