(* ===== verification/LocksTheorems.v ===== *)
(** Theorems about the locks of registries: one mutex per registry's number, whatever the order
    in which goroutines create them; no writer beside another holder of the same registry's
    lock; what is read under a lock belongs to one state of the registry. *)

From stdpp Require Import base list numbers strings gmap.
From Stdlib Require Import ZArith Lia.
From S2P Require Import Prelude GoBase MerkleSpec SparseTree SparseTreeFacts SparseTreeInsert.
From S2P Require Import SparseTreeProofs SparseTreeSimulation SparseTreeRuns Storage StorageFacts.
From S2P Require Import Registry RegistryFacts RegistryRuns Service ServiceFacts GoInstance RegistryTheorems Locks.
Local Open Scope Z_scope.

Section Theorems.
Context {U256 : Uint256} {UL : Uint256Laws U256} {PH : Poseidon} {PL : PoseidonLaws PH} {GE : GoEnv}.
Context {KV : KVDatabase} {KL : KVDatabaseLaws KV}.

(** A commit of a registry writes to its nodes, its index of leaves and the record of a job; a
    registration writes to the records of an address. *)
Definition commit_of (r : RegistryIndex) (d d' : DB) : Prop := exists jd, same_records (belongs_to r jd) d d'.
Definition registration (d d' : DB) : Prop := exists a, same_records (registration_key a) d d'.

(** Two databases have the same nodes and the same index of leaves for a registry. *)
Definition agree (r : RegistryIndex) (d d' : DB) : Prop :=
  forall k, storage_key_ok k -> (match k with LeafKey r' _ _ | LeafIndexKey r' _ => r' = r | _ => False end) ->
    contents d' !! key_bytes k = contents d !! key_bytes k.

Lemma commit_agrees (r r' : RegistryIndex) (d d0 d' : DB) : r <> r' -> commit_of r d d' -> agree r' d0 d ->
    agree r' d0 d'.
Proof.
  intros Hne [jd S] H k Hk Hr. rewrite (S k Hk); [by apply H|]. destruct k; cbn in *; congruence || done.
Qed.

Lemma registration_agrees (r : RegistryIndex) (d d0 d' : DB) : registration d d' -> agree r d0 d -> agree r d0 d'.
Proof.
  intros [a S] H k Hk Hr. rewrite (S k Hk); [by apply H|]. intros [->|[->| ->]]; done.
Qed.

#[local] Abbreviation step := (step commit_of registration).
#[local] Abbreviation reachable := (reachable commit_of registration).

(** * The invariant *)

(** The mutex a goroutine knows of is the one in the map, and it is in a call that fits what it
    holds. *)
Definition pc_ok (m : gmap RegistryIndex nat) (p : pc) (o : option hold) : Prop :=
  match p with
  | Idle => True
  | Enter op k | Lookup op k | Missing op k | Recheck op k => may_call o op k
  | Looked op k found => may_call o op k /\ forall h, found = Some h -> m !! k = Some h
  | Insert op k => may_call o op k /\ m !! k = None
  | Leave op k h | Return op k h => may_call o op k /\ m !! k = Some h
  | Fatal => False
  end.

Definition hold_ok (m : gmap RegistryIndex nat) (d : DB) (o : option hold) : Prop :=
  match o with
  | None => True
  | Some g => m !! hold_index g = Some (hold_mutex g) /\
              match hold_as g with Writer => True | Reader d0 => agree (hold_index g) d0 d end
  end.

(** Two goroutines that do not exclude each other. *)
Definition compatible (t t' : goroutine) : Prop :=
  (writes_mu (gr_pc t) = true -> writes_mu (gr_pc t') = false /\ reads_mu (gr_pc t') = false) /\
  (forall g g', gr_hold t = Some g -> gr_hold t' = Some g' -> hold_as g = Writer -> hold_mutex g <> hold_mutex g').

Record locks_ok (s : locks) : Prop := {
  lo_threads : forall i t, lk_threads s !! i = Some t ->
    pc_ok (lk_mutexes s) (gr_pc t) (gr_hold t) /\ hold_ok (lk_mutexes s) (lk_db s) (gr_hold t);
  lo_exclude : forall i j t t', i <> j -> lk_threads s !! i = Some t -> lk_threads s !! j = Some t' ->
      compatible t t';
  lo_fresh : forall k h, lk_mutexes s !! k = Some h -> (h < lk_next s)%nat;
  lo_inj : forall k k' h, lk_mutexes s !! k = Some h -> lk_mutexes s !! k' = Some h -> k = k';
}.

Lemma threads_insert (l : list goroutine) (i j : nat) (t0 t t' : goroutine) :
  l !! i = Some t0 -> <[i := t]> l !! j = Some t' -> (j = i /\ t' = t) \/ (j <> i /\ l !! j = Some t').
Proof.
  intros Hi. destruct (decide (j = i)) as [->|Hne].
  - rewrite list_lookup_insert_eq by (by eapply lookup_lt_Some). intros [= <-]. by left.
  - rewrite list_lookup_insert_ne by done. by right.
Qed.

(** A move that leaves the map, the database and what is held alone. *)
Lemma goes_ok (s : locks) (i : nat) (p p' : pc) (o o' : option hold) :
  locks_ok s -> lk_threads s !! i = Some (mkGoroutine p o) ->
  pc_ok (lk_mutexes s) p' o' -> hold_ok (lk_mutexes s) (lk_db s) o' ->
  (forall j t, j <> i -> lk_threads s !! j = Some t ->
     compatible (mkGoroutine p' o') t /\ compatible t (mkGoroutine p' o')) ->
  locks_ok (goes s i p' o').
Proof.
  intros [H1 H2 H3 H4] Hi Hp Ho Hc. split; cbn [goes lk_threads lk_mutexes lk_next lk_db]; [| |done..].
  - intros j t Hj. destruct (threads_insert _ _ _ _ _ _ Hi Hj) as [[-> ->]|[_ Hj']]; [done|by apply (H1 j)].
  - intros j k t t' Hne Hj Hk.
    destruct (threads_insert _ _ _ _ _ _ Hi Hj) as [[-> ->]|[Hj1 Hj']],
      (threads_insert _ _ _ _ _ _ Hi Hk) as [[-> ->]|[Hk1 Hk']];
          [done|by apply (Hc k)|by apply (Hc j)|by apply (H2 j k)].
Qed.

(** The same, for a move that does not take [Mutex.mu]. *)
Lemma goes_inside (s : locks) (i : nat) (p p' : pc) (o : option hold) :
  locks_ok s -> lk_threads s !! i = Some (mkGoroutine p o) -> pc_ok (lk_mutexes s) p' o ->
  (writes_mu p' = true -> writes_mu p = true) -> (reads_mu p' = true -> reads_mu p = true) ->
  locks_ok (goes s i p' o).
Proof.
  intros Hs Hi Hp Hw Hr. apply (goes_ok s i p p' o o Hs Hi Hp); [apply (lo_threads s Hs i _ Hi)|].
  intros j t Hne Hj.
  destruct (lo_exclude s Hs i j _ _ (not_eq_sym Hne) Hi Hj) as [A1 A2], (lo_exclude s Hs j i _ _ Hne Hj Hi)
      as [B1 B2].
  cbn [gr_pc gr_hold] in *. split; (split; [cbn [gr_pc]|done]).
  - intros E. auto.
  - intros E. destruct (B1 E) as [C1 C2]. split.
    + destruct (writes_mu p'); [by rewrite (Hw eq_refl) in C1|done].
    + destruct (reads_mu p'); [by rewrite (Hr eq_refl) in C2|done].
Qed.

(** The same, for a move outside of [getOrCreateMutex] that changes what is held. *)
Lemma goes_idle (s : locks) (i : nat) (p : pc) (o o' : option hold) :
  locks_ok s -> lk_threads s !! i = Some (mkGoroutine p o) -> hold_ok (lk_mutexes s) (lk_db s) o' ->
  (forall j t g g', j <> i -> lk_threads s !! j = Some t -> gr_hold t = Some g -> o' = Some g' ->
     hold_as g = Writer \/ hold_as g' = Writer -> hold_mutex g <> hold_mutex g') ->
  locks_ok (goes s i Idle o').
Proof.
  intros Hs Hi Ho Hx. apply (goes_ok s i p Idle o o' Hs Hi I Ho). intros j t Hne Hj. split; (split; [done|]);
      cbn [gr_hold].
  - intros g' g Eg' Eg Hw E. apply (Hx j t g g' Hne Hj Eg Eg'); [by right|done].
  - intros g g' Eg Eg' Hw. apply (Hx j t g g' Hne Hj Eg Eg'). by left.
Qed.

(** A move that takes [Mutex.mu]. *)
Lemma goes_mu (s : locks) (i : nat) (p p' : pc) (o : option hold) :
  locks_ok s -> lk_threads s !! i = Some (mkGoroutine p o) -> pc_ok (lk_mutexes s) p' o ->
  (forall j t, j <> i -> lk_threads s !! j = Some t -> writes_mu (gr_pc t) = false /\
     (writes_mu p' = true -> reads_mu (gr_pc t) = false)) ->
  locks_ok (goes s i p' o).
Proof.
  intros Hs Hi Hp Hmu. apply (goes_ok s i p p' o o Hs Hi Hp); [apply (lo_threads s Hs i _ Hi)|].
  intros j t Hne Hj. destruct (Hmu j t Hne Hj) as [M1 M2].
  destruct (lo_exclude s Hs i j _ _ (not_eq_sym Hne) Hi Hj) as [_ A2], (lo_exclude s Hs j i _ _ Hne Hj Hi) as [_ B2].
  split; (split; [cbn [gr_pc]|done]).
  - intros E. auto.
  - intros E. congruence.
Qed.

(** A new mutex in the map. *)
Lemma insert_ok (s : locks) (i : nat) (op : lock_op) (k : RegistryIndex) (o : option hold) :
  locks_ok s -> lk_threads s !! i = Some (mkGoroutine (Insert op k) o) ->
  locks_ok (mkLocks (<[k := lk_next s]> (lk_mutexes s)) (S (lk_next s))
              (<[i := mkGoroutine (Leave op k (lk_next s)) o]> (lk_threads s)) (lk_db s)).
Proof.
  intros Hs Hi. destruct (lo_threads s Hs i _ Hi) as [[Hc Hn] Ho]. cbn [gr_pc gr_hold] in *.
  assert (forall k' h, lk_mutexes s !! k' = Some h -> <[k := lk_next s]> (lk_mutexes s) !! k' = Some h) as Hkeep.
  { intros k' h E. rewrite lookup_insert_ne; [done|]. intros ->. congruence. }
  assert (forall d o', hold_ok (lk_mutexes s) d o' -> hold_ok (<[k := lk_next s]> (lk_mutexes s)) d o') as Hhold.
  { intros d [g|]; cbn; [|done]. intros [E A]. split; [by apply Hkeep|done]. }
  split; cbn [lk_threads lk_mutexes lk_next lk_db].
  - intros j t Hj. destruct (threads_insert _ _ _ _ _ _ Hi Hj) as [[-> ->]|[Hne Hj']]; cbn [gr_pc gr_hold].
    + split; [|by apply Hhold]. split; [done|apply lookup_insert_eq].
    + destruct (lo_threads s Hs j t Hj') as [Hp Hh]. split; [|by apply Hhold].
      destruct (lo_exclude s Hs i j _ _ (not_eq_sym Hne) Hi Hj') as [A _]. destruct (A eq_refl) as [A1 A2].
      destruct (gr_pc t); cbn [pc_ok] in *; try done. destruct Hp as [? Hp]. split; [done|by apply Hkeep].
  - intros j j' t t' Hne Hj Hj'.
    destruct (threads_insert _ _ _ _ _ _ Hi Hj) as [[-> ->]|[Hj1 Hj2]],
      (threads_insert _ _ _ _ _ _ Hi Hj') as [[-> ->]|[Hj1' Hj2']]; [done|..].
    + apply (lo_exclude s Hs i j' (mkGoroutine (Insert op k) o) t' Hne Hi Hj2').
    + destruct (lo_exclude s Hs j i t (mkGoroutine (Insert op k) o) Hne Hj2 Hi) as [A B].
      split; [|done]. cbn [gr_pc] in *. intros E. by destruct (A E).
    + by apply (lo_exclude s Hs j j').
  - intros k' h [[_ <-]|[_ E]]%lookup_insert_Some; [lia|]. pose proof (lo_fresh s Hs k' h E). lia.
  - intros k1 k2 h E1 E2. pose proof (lo_fresh s Hs) as Hf.
    apply lookup_insert_Some in E1 as [[<- Eh]|[H1 E1]]; apply lookup_insert_Some in E2 as [[<- Eh2]|[H2 E2]].
    + done.
    + apply Hf in E2. lia.
    + apply Hf in E1. lia.
    + by apply (lo_inj s Hs k1 k2 h).
Qed.

(** A write to the database. *)
Lemma write_ok (s : locks) (d : DB) :
  locks_ok s ->
  (forall i t g d0, lk_threads s !! i = Some t -> gr_hold t = Some g -> hold_as g = Reader d0 ->
     agree (hold_index g) d0 (lk_db s) -> agree (hold_index g) d0 d) ->
  locks_ok (mkLocks (lk_mutexes s) (lk_next s) (lk_threads s) d).
Proof.
  intros Hs Hd. split; cbn [lk_threads lk_mutexes lk_next lk_db]; [|apply Hs..].
  intros i t Hi. destruct (lo_threads s Hs i t Hi) as [Hp Ho]. split; [done|].
  destruct (gr_hold t) as [g|] eqn:Eg; cbn in *; [|done]. destruct Ho as [E A]. split; [done|].
  destruct (hold_as g) as [|d0] eqn:Ea; [done|]. by apply (Hd i t g d0).
Qed.

Lemma step_ok (s s' : locks) : locks_ok s -> step s s' -> locks_ok s'.
Proof.
  intros Hs Hstep. destruct Hstep as [i o op k Hi Hc|i o op k Hi Hmu|i o op k Hi|i o op k h Hi|i o op k Hi
    |i o op k Hi Hmu|i o op k Hi|i o op k Hi|i o op k h Hi|i o k h Hi Hno|i o k h Hi Hno|i o k h op Hi Hop
    |i k h d Hi Hd|d Hd].
  all: try (pose proof (lo_threads s Hs i _ Hi) as [Hp Ho]; cbn [gr_pc gr_hold pc_ok] in Hp, Ho).
  - by apply (goes_inside s i Idle).
  - apply (goes_mu s i (Enter op k)); [done..|]. intros j t _ Hj. split; [by apply (Hmu j)|done].
  - apply (goes_inside s i (Lookup op k)); done.
  - apply (goes_inside s i (Looked op k (Some h))); [done|done| |done|done]. split; [apply Hp|by apply Hp].
  - apply (goes_inside s i (Looked op k None)); [done|done|apply Hp|done|done].
  - apply (goes_mu s i (Missing op k)); [done..|]. intros j t _ Hj. destruct (Hmu j t Hj). done.
  - destruct (lk_mutexes s !! k) as [h|] eqn:E; apply (goes_inside s i (Recheck op k)); done.
  - by apply insert_ok.
  - by apply (goes_inside s i (Leave op k h)).
  - apply (goes_idle s i (Return OpLock k h) o); [done|done|cbn; split; [apply Hp|done]|].
    intros j t g g' _ Hj Eg [= <-] _. apply (Hno j t g Hj Eg).
  - apply (goes_idle s i (Return OpRLock k h) o); [done|done|cbn; split; [apply Hp|by intros ? ? ?]|].
    intros j t g g' _ Hj Eg [= <-] [E|[=]] Em. by apply (Hno j t g Hj Eg Em).
  - destruct o as [g|]; [|by destruct Hop as [-> | ->], Hp].
    assert (hold_mutex g = h) as <-.
    { destruct Hp as [Hp Eh], Ho as [Ek _].
      assert (hold_index g = k) as Ei by (destruct Hop as [-> | ->]; apply Hp). rewrite Ei in Ek. congruence. }
    rewrite decide_True by done. apply (goes_idle s i (Return op k (hold_mutex g)) (Some g)); [done|done|done|].
    by intros j t g1 g2 _ _ _ [=].
  - apply write_ok; [done|]. intros j t g d0 Hj Eg Ea. apply (commit_agrees k); [|done].
    intros Ekg. destruct (decide (j = i)) as [->|Hne].
    + rewrite Hi in Hj. injection Hj as <-. cbn in Eg. injection Eg as <-. by cbn in Ea.
    + destruct (lo_exclude s Hs i j _ _ (not_eq_sym Hne) Hi Hj) as [_ A].
      apply (A (mkHold k h Writer) g eq_refl Eg eq_refl).
      destruct (lo_threads s Hs j t Hj) as [_ B]. rewrite Eg in B. destruct B as [B _], Ho as [C _].
      cbn [hold_index hold_mutex] in *. rewrite <- Ekg in B. congruence.
  - apply write_ok; [done|]. intros j t g d0 Hj Eg Ea. by apply registration_agrees.
Qed.

Lemma reachable_ok (n : nat) (d : DB) (s : locks) : reachable n d s -> locks_ok s.
Proof.
  induction 1 as [|s s' _ IH Hs]; [|by apply (step_ok s)]. split; cbn.
  - intros i t [-> _]%lookup_replicate. done.
  - intros i j t t' _ [-> _]%lookup_replicate [-> _]%lookup_replicate. done.
  - by intros k h.
  - by intros k k' h.
Qed.

(** * What the locks give *)

(** C20: whatever the order in which goroutines run: a goroutine never unlocks a mutex it does not
    hold; [getOrCreateMutex] returns one mutex per registry, the same to all its callers and
    different ones for different registries; and while a goroutine holds the write lock of
    a registry, no other goroutine holds a lock of it. *)
Theorem registry_locks_exclude (n : nat) (d : DB) (s : locks) :
  reachable n d s ->
  (forall i t, lk_threads s !! i = Some t -> gr_pc t <> Fatal) /\
  (forall i j t t' op op' k k' h h', lk_threads s !! i = Some t -> lk_threads s !! j = Some t' ->
     gr_pc t = Return op k h -> gr_pc t' = Return op' k' h' -> k = k' <-> h = h') /\
  (forall i j t t' g g', i <> j -> lk_threads s !! i = Some t -> lk_threads s !! j = Some t' ->
     gr_hold t = Some g -> gr_hold t' = Some g' -> hold_as g = Writer -> hold_index g <> hold_index g').
Proof.
  intros Hs%reachable_ok. split; [|split].
  - intros i t Hi E. destruct (lo_threads s Hs i t Hi) as [Hp _]. by rewrite E in Hp.
  - intros i j t t' op op' k k' h h' Hi Hj E E'.
    destruct (lo_threads s Hs i t Hi) as [Hp _], (lo_threads s Hs j t' Hj) as [Hp' _].
    rewrite E in Hp. rewrite E' in Hp'. destruct Hp as [_ Hp], Hp' as [_ Hp']. split; intros ->; [congruence|].
    by apply (lo_inj s Hs k k' h').
  - intros i j t t' g g' Hne Hi Hj Eg Eg' Ea Ek.
    destruct (lo_exclude s Hs i j t t' Hne Hi Hj) as [_ A]. apply (A g g' Eg Eg' Ea).
    destruct (lo_threads s Hs i t Hi) as [_ B], (lo_threads s Hs j t' Hj) as [_ B']. rewrite Eg in
        B. rewrite Eg' in B'.
    destruct B as [B _], B' as [B' _]. rewrite Ek in B. congruence.
Qed.

(** C21: what a goroutine reads under the read lock of a registry belongs to one state of the
    registry: as long as it holds the lock, every node and every entry of the index of leaves
    reads as it did in the database of the moment the lock was taken, whatever other
    goroutines commit to other registries or register. *)
Theorem locked_reads_stable (n : nat) (d d0 : DB) (s : locks) (i : nat) (t : goroutine) (r : RegistryIndex)
    (h : nat) :
  reachable n d s -> lk_threads s !! i = Some t -> gr_hold t = Some (mkHold r h (Reader d0)) -> 0 <= r < 2 ^ 8 ->
  (forall l x, key_ok l x -> LeafStorage_GetLeaf (lk_db s) r l x = LeafStorage_GetLeaf d0 r l x) /\
  (forall v, 0 <= v < 2 ^ 256 -> LeafStorage_GetLeafIndex (lk_db s) r v = LeafStorage_GetLeafIndex d0 r v).
Proof.
  intros Hs%reachable_ok Hi Eg Hr. destruct (lo_threads s Hs i t Hi) as [_ Ho]. rewrite Eg in Ho.
  destruct Ho as [_ A]. cbn [hold_as hold_index] in A. split.
  - intros l x Hk. rewrite !GetLeaf_contents by done. by rewrite (A (LeafKey r l x) (conj Hr Hk) eq_refl
      : contents (lk_db s) !! makeLeafKey r l x = _).
  - intros v Hv. unfold LeafStorage_GetLeafIndex.
    rewrite (DB_Get_key (lk_db s) (LeafIndexKey r v) (conj Hr Hv) : DB_Get _ (makeLeafIndexKey r v) = _).
    rewrite (DB_Get_key d0 (LeafIndexKey r v) (conj Hr Hv) : DB_Get _ (makeLeafIndexKey r v) = _).
    by rewrite (A (LeafIndexKey r v) (conj Hr Hv) eq_refl).
Qed.

(** * A batch without a lock *)

Context {JC : JobCodec}.

Lemma replay_other_root (d e : Z) (ops : list LeafOperation) (leaf : Z -> Z) (k : nat) (rs : list BatchProofResult)
    (p : plan) (root : Z) :
  0 <= d -> ops <> [] -> spec_batch d e ops (leaf, k) = Some (rs, p) -> root <> tree_root hash d leaf ->
  replay e root ops rs = None.
Proof.
  intros Hd Hne. destruct ops as [|op ops]; [done|]. cbn [spec_batch].
  destruct (spec_operation d e op (leaf, k)) as [[r [leaf1 k1]]|] eqn:E; [|done].
  destruct (spec_batch d e ops (leaf1, k1)) as [[rs1 p2]|]; [|done]. intros [= <- _] Hroot. cbn [replay].
  pose proof (spec_operation_replay d e op leaf leaf1 k k1 r Hd E) as Hr. revert Hr. unfold replay_step.
  destruct (if Operation_Op op =? OperationAddition then _ else _) as [old new].
  destruct (Z.eqb_spec (root_of hash old (Result_Path r) (Result_Index r)) (tree_root hash d leaf)) as [->|]; [|done].
  intros _. by destruct (Z.eqb_spec (tree_root hash d leaf) root) as [<-|].
Qed.

(** C25: [GetBatchProofs] takes no lock.  When a commit that changes the root comes between the read
    of the initial root and the simulation, the call answers with the root of the old tree
    and proofs for the new one, and the first step of replaying them fails. *)
Theorem unlocked_batch_mixes_roots (s : registry_state) (leaf : Z -> Z) (idx : Z -> option Z) (jd : JobDescriptor)
    (buf : OperationsBuffer) (block : Z) (jb : gobytes) (ops : list LeafOperation) :
  let d := depth (reg_tree s) in
  let e := emtpyLeaf (reg_tree s) in
  let leaf' := abs_leaves e leaf (Operations buf) in
  context_active -> reg_models s leaf idx -> storage_key_ok (JobKey jd) -> encode_job (mkJob jd block) = inr jb ->
  Forall (operation_ok d) (Operations buf) -> no_zero_node d leaf' ->
  ops <> [] -> Forall (fun op => in_field (Leaf_Value (Operation_Leaf op))) ops ->
  tree_root hash d leaf <> tree_root hash d leaf' ->
  exists s0 s1 c s2,
    runs (on_tree (go_wrap "get initial root: %w" [] GetRoot)) s (tree_root hash d leaf) s0 /\
    runs (Job_Commit jd buf block) s0 tt s1 /\ on_tree (simulate_after_root ops) s1 = (c, s2) /\
    match spec_batch d e ops (stored (reg_tree s1) 0, draws (rs_world s1)) with
    | Some (rs, _) => c = Ok rs /\ replay e (tree_root hash d leaf) ops rs = None
    | None => exists err, c = Throw err
    end.
Proof.
  intros d e leaf' Hctx Hm Hj Hjb Hops Hnz Hne Hf Hroot. pose proof (depth_range _ _ _ Hm) as Hd.
  destruct (GetRoot_ok (mkState (reg_tree s) tt (rs_world s)) (rm_tree _ _ _ Hm) (rm_depth _ _ _ Hm)
      (rm_nodes _ _ _ Hm))
    as (st0 & R0 & (_ & (Ee & Ed & _) & Hc0) & _).
  cbn [st_tree] in *.
  assert (tree_root hash d (stored (reg_tree s) 0) = tree_root hash d leaf) as Er
    by (apply tree_root_ext; [unfold d; lia|exact (rm_leaves _ _ _ Hm)]).
  set (s0 := mkRegistryState (set_cache (emptyBranchLevels (st_tree st0)) (rs_reg s)) (rs_db s) (st_world st0)).
  assert (reg_models s0 leaf idx) as M0.
  { apply recache_models; [done|]. unfold cache_ok, empty_branches in *. rewrite Ee, Ed in Hc0. exact Hc0. }
  destruct (Job_Commit_models s0 leaf idx jd buf block jb M0 Hj Hjb Hops Hnz) as (s1 & R1 & M1 & D1 & E1 & _).
  destruct (simulate_after_root_agrees ops (mkState (reg_tree s1) tt (rs_world s1)) Hctx (rm_tree _ _ _ M1)
    (rm_depth _ _ _ M1) (rm_nodes _ _ _ M1) Hf) as (c & st2 & E2 & _ & Hs).
  cbn [st_tree st_world] in Hs.
  exists s0, s1, c, (mkRegistryState (set_cache (emptyBranchLevels (st_tree st2)) (rs_reg s1)) (rs_db s1)
      (st_world st2)).
  split; [|split; [exact R1|split]].
  - unfold runs, on_tree, run_tree. unfold runs in R0. unfold reg_tree in R0 at 1. rewrite R0. fold d. by rewrite Er.
  - unfold on_tree, run_tree. unfold reg_tree in E2. by rewrite E2.
  - rewrite D1, E1 in Hs. change (depth (reg_tree s0)) with d in Hs. change (emtpyLeaf (reg_tree s0)) with e in Hs.
    destruct (spec_batch d e ops _) as [[rs p]|] eqn:Es; [|destruct Hs as (err & -> & _); by exists err].
    split; [done|]. apply (replay_other_root d e ops _ _ rs p _ ltac:(unfold d; lia) Hne Es). intros E. apply Hroot.
    rewrite E. apply tree_root_ext; [unfold d; lia|]. pose proof (rm_leaves _ _ _ M1) as Hl. rewrite D1 in
        Hl. exact Hl.
Qed.
End Theorems.

(** * Witnesses *)

(** A goroutine calls [Lock] or [RLock] for a registry without a mutex, while the others do
    nothing, and gets to the new mutex. *)
Lemma creates_mutex {KV : KVDatabase} (commits : RegistryIndex -> DB -> DB -> Prop) (others : DB -> DB -> Prop)
    (n : nat) (d db : DB) (m : gmap RegistryIndex nat) (next : nat) (ts : list goroutine) (i : nat) (op : lock_op)
    (k : RegistryIndex) :
  let at_pc p := mkLocks m next (<[i := mkGoroutine p None]> ts) db in
  reachable commits others n d (mkLocks m next ts db) -> ts !! i = Some (mkGoroutine Idle None) ->
  Forall (fun t => gr_pc t = Idle) ts -> m !! k = None -> may_call None op k ->
  reachable commits others n d
    (mkLocks (<[k := next]> m) (S next) (<[i := mkGoroutine (Return op k next) None]> ts) db).
Proof.
  intros at_pc H Hi Hidle Hk Hop. pose proof (lookup_lt_Some _ _ _ Hi) as Hlt.
  assert (forall p, lk_threads (at_pc p) !! i = Some (mkGoroutine p None)) as Hat
    by (intros p; by apply list_lookup_insert_eq).
  assert (forall p p', goes (at_pc p) i p' None = at_pc p') as Hgo
    by (intros p p'; unfold goes, at_pc; cbn; by rewrite list_insert_insert_eq).
  assert (forall p, writes_mu p = false -> mu_free (at_pc p)) as Hfree.
  { intros p Hp j t Hj. apply list_lookup_insert_Some in Hj as [(-> & <- & _)|[_ Hj]]; [done|].
    rewrite Forall_lookup in Hidle. by rewrite (Hidle j t Hj). }
  assert (forall p, writes_mu p = false -> reads_mu p = false -> mu_unused (at_pc p)) as Hunused.
  { intros p Hp Hp' j t Hj. apply list_lookup_insert_Some in Hj as [(-> & <- & _)|[_ Hj]]; [done|].
    rewrite Forall_lookup in Hidle. by rewrite (Hidle j t Hj). }
  eapply reachable_step in H; [|by apply (step_call _ _ _ i None op k)].
  change (goes _ i (Enter op k) None) with (at_pc (Enter op k)) in H.
  eapply reachable_step in H; [|apply (step_rlock_mu _ _ _ i None op k); [apply Hat|by apply Hfree]].
      rewrite Hgo in H.
  eapply reachable_step in H; [|apply (step_lookup _ _ _ i None op k), Hat]. rewrite Hgo in
      H. cbn [lk_mutexes at_pc] in H.
  rewrite Hk in H. eapply reachable_step in H; [|apply (step_missing _ _ _ i None op k), Hat]. rewrite Hgo in H.
  eapply reachable_step in H; [|apply (step_lock_mu _ _ _ i None op k); [apply Hat|by apply Hunused]].
      rewrite Hgo in H.
  eapply reachable_step in H; [|apply (step_recheck _ _ _ i None op k), Hat]. rewrite Hgo in
      H. cbn [lk_mutexes at_pc] in H.
  rewrite Hk in H. eapply reachable_step in H; [|apply (step_insert _ _ _ i None op k), Hat].
  cbn [lk_mutexes lk_next lk_threads lk_db at_pc] in H. rewrite list_insert_insert_eq in H.
  eapply reachable_step in H; [|apply (step_leave _ _ _ i None op k next), list_lookup_insert_eq, Hlt].
  unfold goes in H. cbn [lk_mutexes lk_next lk_threads lk_db] in H. by rewrite list_insert_insert_eq in H.
Qed.

(** The first of two goroutines has taken the read lock of registry 0, the second the write lock
    of registry 1, to which it writes a leaf. *)
Definition toy_read : hold := mkHold 0 0 (Reader (∅ : DB)).
Definition toy_write : hold := mkHold 1 1 Writer.
Definition toy_reader : goroutine := mkGoroutine Idle (Some toy_read).
Definition toy_writer : goroutine := mkGoroutine Idle (Some toy_write).
Definition toy_written : DB := <[makeLeafKey 1 0 5 := be_bytes 32 20]> ∅.
Definition toy_locks : locks :=
  mkLocks (<[1 := 1%nat]> (<[0 := 0%nat]> ∅)) 2 [toy_reader; toy_writer] toy_written.

Lemma toy_commit : commit_of 1 (∅ : DB) toy_written.
Proof.
  exists (mkJobDescriptor [] 0 0). intros k Hk Hb. unfold toy_written. apply (lookup_insert_ne (M := gmap gobytes)).
  intros E. apply Hb. rewrite (key_bytes_inj k (LeafKey 1 0 5)); [done|exact Hk|repeat split; cbn; lia|by symmetry].
Qed.

Lemma toy_locks_reachable : reachable commit_of registration 2 (∅ : DB) toy_locks.
Proof.
  pose proof (reachable_start commit_of registration 2 (∅ : DB)) as H.
  apply (creates_mutex _ _ _ _ _ _ _ _ 0 OpRLock 0) in H; [|done|by repeat constructor|done|done].
  eapply reachable_step in H; [|apply (step_rlock _ _ _ 0 None 0 0); [reflexivity|]].
  2:{ intros [|[|j]] t k; [| |done]; by intros [= <-]. }
  apply (creates_mutex _ _ _ _ _ _ _ _ 1 OpLock 1) in H; [|done|by repeat constructor|done|done].
  eapply reachable_step in H; [|apply (step_lock _ _ _ 1 None 1 1); [reflexivity|]].
  2:{ intros [|[|j]] t k; [| |done]; intros [= <-]; [|done]. by intros [= <-]. }
  eapply reachable_step in H; [|apply (step_write _ _ _ 1 1 1 toy_written); [reflexivity|exact toy_commit]].
  exact H.
Qed.

(** The reader and the writer hold locks of different registries. *)
Lemma registry_locks_exclude_witness :
  gr_pc toy_writer <> Fatal /\ hold_index toy_write <> hold_index toy_read.
Proof.
  destruct (registry_locks_exclude 2 ∅ toy_locks toy_locks_reachable) as (H & _ & He).
  split; [exact (H 1%nat toy_writer eq_refl)|].
  exact (He 1%nat 0%nat toy_writer toy_reader toy_write toy_read ltac:(discriminate) eq_refl eq_refl eq_refl eq_refl
    eq_refl).
Defined.

(** The database has changed since the reader took its lock; its registry has not. *)
Lemma locked_reads_stable_witness :
  lk_db toy_locks <> (∅ : DB) /\ LeafStorage_GetLeaf (lk_db toy_locks) 0 0 5 = LeafStorage_GetLeaf (∅ : DB) 0 0 5.
Proof.
  split; [apply (insert_non_empty (M := gmap gobytes))|].
  destruct (locked_reads_stable 2 ∅ ∅ toy_locks 0 toy_reader 0 0 toy_locks_reachable eq_refl eq_refl) as [H _];
      [lia|].
  apply H. split; lia.
Defined.

(** An addition is simulated while 30 is revoked: the answer does not replay. *)
Definition toy_addition : list LeafOperation := [mkLeafOperation (mkTreeLeaf 0 44) OperationAddition].

Definition toy_after_root : registry_state :=
  snd (on_tree (go_wrap "get initial root: %w" [] GetRoot) toy_committed).
Definition toy_revoked : registry_state :=
  snd (Job_Commit toy_job (AppendRevocation 6 30 NewOperationsBuffer) 106 toy_after_root).

Lemma toy_simulated :
  match spec_batch 3 7 toy_addition (stored (reg_tree toy_revoked) 0, draws (rs_world toy_revoked)) with
  | Some _ => true | None => false end = true.
Proof. vm_compute. reflexivity. Qed.

Lemma unlocked_batch_mixes_roots_witness :
  exists c s2 rs, on_tree (simulate_after_root toy_addition) toy_revoked = (c, s2) /\ c = Ok rs /\
    replay 7 (tree_root hash 3 toy_reg_leaves) toy_addition rs = None.
Proof.
  destruct toy_committed_tree as [Ed Ee].
  destruct (unlocked_batch_mixes_roots toy_committed toy_reg_leaves toy_index toy_job
    (AppendRevocation 6 30 NewOperationsBuffer) 106 (be_bytes 8 106) toy_addition toy_active_context)
    as (s0 & s1 & c & s2 & R0 & R1 & R2 & Hs).
  - apply reachable_models, toy_reachable.
  - apply toy_job_ok.
  - reflexivity.
  - rewrite Ed. repeat constructor; cbn; lia.
  - rewrite Ed, Ee. apply no_zero_check_sound. vm_compute. reflexivity.
  - discriminate.
  - repeat constructor; cbn; lia.
  - rewrite Ed, Ee. vm_compute. discriminate.
  - assert (toy_after_root = s0) as E0 by exact (f_equal snd R0). subst s0.
    assert (toy_revoked = s1) as E1 by exact (f_equal snd R1). subst s1.
    rewrite Ed, Ee in Hs. pose proof toy_simulated as Hsim.
    destruct (spec_batch 3 7 toy_addition _) as [[rs p]|]; [|discriminate Hsim]. destruct Hs as [Hc Hr].
    exists c, s2, rs. split; [exact R2|]. split; [exact Hc|exact Hr].
Defined.
