(* ===== verification/Indexer.v ===== *)
(** The indexer ([internal/indexer/indexer.go]): the loop over ranges of blocks in its two
    modes, against the interface of job handlers ([job_factory.go]) and the handlers made of
    functions ([handler.go]).  Logging and waiting are left out. *)

From stdpp Require Import base list numbers strings gmap.
From Stdlib Require Import ZArith Lia.
From S2P Require Import Prelude GoBase SparseTree Storage Registry Service Jobs.
Local Open Scope Z_scope.

(** * Data *)

Definition Mode : Type := string.
Definition ModePoll : Mode := "poll".
Definition ModeWS : Mode := "ws".
Definition ModeHistory : Mode := "history".

Definition MaxBlocksDistance : Z := 10000.
Definition SinkSize : Z := 100.
Definition SinkProgressTick : Z := 5.
Definition PollingInterval : Z := 1.

(** Times in seconds. *)
Record Config : Type := mkConfig {
  Config_MaxBlocksDistance : Z;
  Config_SinkChannelSize : Z;
  Config_SinkProgressTick : Z;
  Config_IndexerMode : Mode;
  Config_PollingInterval : Z
}.

(** [NewEVMIndexer]: the configuration with its defaults. *)
Definition NewEVMIndexer (config : Config) : Config :=
  let config := if Config_MaxBlocksDistance config =? 0
    then mkConfig MaxBlocksDistance (Config_SinkChannelSize config) (Config_SinkProgressTick config)
           (Config_IndexerMode config) (Config_PollingInterval config) else config in
  let config := if Config_SinkChannelSize config =? 0
    then mkConfig (Config_MaxBlocksDistance config) SinkSize (Config_SinkProgressTick config)
           (Config_IndexerMode config) (Config_PollingInterval config) else config in
  let config := if Config_SinkProgressTick config =? 0
    then mkConfig (Config_MaxBlocksDistance config) (Config_SinkChannelSize config) SinkProgressTick
           (Config_IndexerMode config) (Config_PollingInterval config) else config in
  let config := if String.eqb (Config_IndexerMode config) ""
    then mkConfig (Config_MaxBlocksDistance config) (Config_SinkChannelSize config) (Config_SinkProgressTick config)
           ModePoll (Config_PollingInterval config) else config in
  if Config_PollingInterval config =? 0
  then mkConfig (Config_MaxBlocksDistance config) (Config_SinkChannelSize config) (Config_SinkProgressTick config)
         (Config_IndexerMode config) PollingInterval else config.

(** The fields of [types.Log] that the sources look at, and the data of the event. *)
Record Log : Type := mkLog {
  Log_Removed : bool;
  Log_Topics : list gobytes;
  Log_BlockNumber : Z;
  Log_Data : gobytes
}.

(** [ethereum.FilterQuery] *)
Record FilterQuery : Type := mkFilterQuery {
  Query_Addresses : list gobytes;
  Query_Topics : list (list gobytes);
  Query_FromBlock : option Z;
  Query_ToBlock : option Z
}.

(** [query.FromBlock = ...; query.ToBlock = ...] *)
Definition set_blocks (query : FilterQuery) (fromBlock toBlock : option Z) : FilterQuery :=
  mkFilterQuery (Query_Addresses query) (Query_Topics query) fromBlock toBlock.

(** * The outside world *)

Inductive client_call : Type :=
| CallBlockNumber
| CallFilterLogs (query : FilterQuery)
| CallSubscribeFilterLogs (query : FilterQuery).

(** What a [select] that also watches the context finds in the channel of logs: [RecvDone] is
    the end of the context, with its cause. *)
Inductive recv_event : Type :=
| RecvDone (cause : go_error)
| RecvClosed
| RecvLog (eventLog : Log).

(** What the [select] of [runSinkIndexation] finds next; with a log come the events of
    [readUntilEmpty], up to the first time the channel is empty. *)
Inductive sink_event : Type :=
| SinkDone (cause : go_error)
| SinkTick
| SinkClosed
| SinkLog (eventLog : Log) (next : list recv_event).

(** The client's answers by the number of calls made before (package [ethclient]), the error
    that the subscription reports before the k-th look at the context, and the k-th event of
    the channel. *)
Class EthereumClient := {
  BlockNumber : nat -> go_error + Z;
  FilterLogs : nat -> FilterQuery -> go_error + list Log;
  SubscribeFilterLogs : nat -> FilterQuery -> option go_error;
  subscription_Err : nat -> option go_error;
  sink_next : nat -> sink_event;
}.

(** * Job handlers *)

(** [JobHandler], over a state [S] of its own and contexts [C]. *)
Record JobHandler (S C : Type) : Type := mkJobHandler {
  PrepareContext : C -> go S C;
  HandleEVMLog : C -> Log -> go S unit;
  Commit : C -> Z -> go S unit;
  handler_FilterQuery : gores FilterQuery;
  handler_JobDescriptor : JobDescriptor;
  OnIndexerModeChange : Mode -> go S unit
}.
Arguments mkJobHandler {S C}.
Arguments PrepareContext {S C}.
Arguments HandleEVMLog {S C}.
Arguments Commit {S C}.
Arguments handler_FilterQuery {S C}.
Arguments handler_JobDescriptor {S C}.
Arguments OnIndexerModeChange {S C}.

(** A handler made of functions, each of which may be nil. *)
Record EvmHandlers (S C : Type) : Type := mkEvmHandlers {
  prepCtxHandler : option (C -> go S C);
  evmLogHandler : option (C -> Log -> go S unit);
  committer : option (C -> Z -> go S unit);
  filterQuery : option (gores FilterQuery);
  jobDescriptor : JobDescriptor;
  onModeChange : option (Mode -> go S unit)
}.
Arguments mkEvmHandlers {S C}.
Arguments prepCtxHandler {S C}.
Arguments evmLogHandler {S C}.
Arguments committer {S C}.
Arguments filterQuery {S C}.
Arguments jobDescriptor {S C}.
Arguments onModeChange {S C}.

Definition EvmHandlers_JobHandler {S C : Type} (h : EvmHandlers S C) : JobHandler S C := {|
  PrepareContext ctx := match prepCtxHandler h with None => go_ret ctx | Some f => f ctx end;
  HandleEVMLog ctx log := match evmLogHandler h with None => go_ret tt | Some f => f ctx log end;
  Commit ctx block := match committer h with None => go_ret tt | Some f => f ctx block end;
  handler_FilterQuery := match filterQuery h with None => Ok (mkFilterQuery [] [] None None) | Some f => f end;
  handler_JobDescriptor := jobDescriptor h;
  OnIndexerModeChange mode := match onModeChange h with None => go_ret tt | Some f => f mode end
|}.

(** * Indexing *)

(** [for { select { ... } }] of [readUntilEmpty]; the channel is empty after the last event. *)
Fixpoint readUntilEmpty (next : list recv_event) (logs : list Log) : list Log * option go_error :=
  match next with
  | [] => (logs, None)
  | RecvDone cause :: _ => (logs, Some cause)
  | RecvClosed :: _ => (logs, None)
  | RecvLog eventLog :: next' => readUntilEmpty next' (logs ++ [eventLog])
  end.

Section Indexer.
Context {GE : GoEnv} {EC : EthereumClient} {S C : Type} (handler : JobHandler S C).

(** The state of the job, the calls of the client so far, the looks at the context and the
    events of the channel so far, whether there is a subscription, and the cause with which
    [sinkCtx] was cancelled. *)
Record indexer_state : Type := mkIndexerState {
  ix_job : S;
  ix_calls : list client_call;
  ix_checks : nat;
  ix_events : nat;
  ix_subscribed : bool;
  ix_cause : option go_error
}.

(** The state of the job when its indexing starts. *)
Definition new_run (j : S) : indexer_state := mkIndexerState j [] 0 0 false None.

Definition set_job (j : S) (s : indexer_state) : indexer_state :=
  mkIndexerState j (ix_calls s) (ix_checks s) (ix_events s) (ix_subscribed s) (ix_cause s).

Definition on_job {A : Type} (m : go S A) : go indexer_state A :=
  fun s => let (c, j) := m (ix_job s) in (c, set_job j s).

Definition call_client {A : Type} (call : client_call) (answer : nat -> go_error + A) : go indexer_state A :=
  fun s => (lift (answer (length (ix_calls s))),
    mkIndexerState (ix_job s) (ix_calls s ++ [call]) (ix_checks s) (ix_events s) (ix_subscribed s) (ix_cause s)).

(** The cause of [sinkCtx]: the first of its own cancellation, that of its parent, and an
    error of the subscription, which cancels it. *)
Definition sink_cause (s : indexer_state) : option go_error :=
  match ix_cause s with
  | Some cause => Some cause
  | None =>
      if ctx_done (ix_checks s) then Some ctx_Cause
      else if ix_subscribed s then
        err ← subscription_Err (ix_checks s); Some (Errorf "subscribe to new logs: %w" [] (Some err))
      else None
  end.

(** [if sinkCtx.Err() != nil { return context.Cause(sinkCtx) }] *)
Definition check_sinkCtx : go indexer_state unit :=
  fun s => (match sink_cause s with Some cause => Throw cause | None => Ok tt end,
    mkIndexerState (ix_job s) (ix_calls s) (Datatypes.S (ix_checks s)) (ix_events s) (ix_subscribed s)
        (sink_cause s)).

(** [case <-ctx.Done(): return context.Cause(ctx)] *)
Definition check_parent : go indexer_state unit :=
  fun s => (if ctx_done (ix_checks s) then Throw ctx_Cause else Ok tt,
    mkIndexerState (ix_job s) (ix_calls s) (Datatypes.S (ix_checks s)) (ix_events s) (ix_subscribed s) (ix_cause s)).

Definition get_block_number : go indexer_state Z :=
  go_wrap "get current block number: %w" [] (call_client CallBlockNumber BlockNumber).

(** [for _, eventLog := range logs] *)
Fixpoint handle_each (storageCtx : C) (logs : list Log) : go indexer_state unit :=
  match logs with
  | [] => go_ret tt
  | eventLog :: logs' =>
      let! _ := go_wrap "handle event: %w" [] (on_job (HandleEVMLog handler storageCtx eventLog)) in
      handle_each storageCtx logs'
  end.

Definition handleLogs (ctx : C) (logs : list Log) (progressBlock : Z) : go indexer_state unit :=
  let! storageCtx := go_wrap "prepare context: %w" [] (on_job (PrepareContext handler ctx)) in
  let! _ := handle_each storageCtx logs in
  go_wrap "job commit: %w" [] (on_job (Commit handler storageCtx progressBlock)).

(** [subscribeToEvents] up to the signal that it has started: without a subscription it has
    cancelled the context by then. *)
Definition subscribeToEvents (query : FilterQuery) : go indexer_state unit :=
  let subscriptionQuery := mkFilterQuery (Query_Addresses query) (Query_Topics query) None None in
  fun s =>
    let err := SubscribeFilterLogs (length (ix_calls s)) subscriptionQuery in
    let calls := ix_calls s ++ [CallSubscribeFilterLogs subscriptionQuery] in
    let cause := match ix_cause s, err with
                 | None, Some err => Some (Errorf "create subscription: %w" [] (Some err))
                 | cause, _ => cause
                 end in
    (Ok tt, mkIndexerState (ix_job s) calls (ix_checks s) (ix_events s) (bool_decide (err = None)) cause).

Definition startSubscription (query : FilterQuery) (fromBlock : Z) : go indexer_state bool :=
  let! _ := subscribeToEvents (set_blocks query (Some fromBlock) None) in
  go_ret true.

(** The loop that waits for the next block. *)
Fixpoint poll_next (fuel : nat) (fromBlock : Z) : go indexer_state Z :=
  match fuel with
  | O => fun s => (OutOfFuel, s)
  | Datatypes.S fuel' =>
      let! currentBlock := get_block_number in
      if fromBlock <=? currentBlock then go_ret currentBlock
      else
        let! _ := check_parent in
        poll_next fuel' fromBlock
  end.

(** The body of the loop up to the [switch]: the next range of blocks, to its end. *)
Definition index_range (config : Config) (query : FilterQuery) (ctx : C) (fromBlock currentBlock : Z)
    : go indexer_state Z :=
  let toBlock := Z.min (u64 (u64 (fromBlock + Config_MaxBlocksDistance config) - 1)) currentBlock in
  let query := set_blocks query (Some fromBlock) (Some toBlock) in
  let! logs := go_wrap "filter logs: %w" []
    (call_client (CallFilterLogs query) (fun k => FilterLogs k query)) in
  let! _ := go_wrap "handle logs: %w" [] (handleLogs ctx logs toBlock) in
  let! _ := check_sinkCtx in
  go_ret (u64 (toBlock + 1)).

(** [for fromBlock <= currentBlock]: it ends with the next block and whether the subscription
    has started.  The last error leaves out the text of the mode. *)
Fixpoint index_loop (fuel : nat) (config : Config) (query : FilterQuery) (ctx : C) (fromBlock currentBlock : Z)
    (isOnHead subscriptionStarted : bool) : go indexer_state (Z * bool) :=
  match fuel with
  | O => fun s => (OutOfFuel, s)
  | Datatypes.S fuel' =>
      if currentBlock <? fromBlock then go_ret (fromBlock, subscriptionStarted)
      else
        let! fromBlock := index_range config query ctx fromBlock currentBlock in
        if String.eqb (Config_IndexerMode config) ModePoll then
          if fromBlock <=? currentBlock
          then index_loop fuel' config query ctx fromBlock currentBlock isOnHead subscriptionStarted
          else
            let! _ := if isOnHead then go_ret tt else on_job (OnIndexerModeChange handler ModePoll) in
            let! currentBlock := poll_next fuel' fromBlock in
            index_loop fuel' config query ctx fromBlock currentBlock true subscriptionStarted
        else if String.eqb (Config_IndexerMode config) ModeWS then
          if negb subscriptionStarted && (u64 (currentBlock - fromBlock) <=? Config_MaxBlocksDistance config) then
            let! subscriptionStarted := startSubscription query fromBlock in
            let! currentBlock := get_block_number in
            index_loop fuel' config query ctx fromBlock currentBlock isOnHead subscriptionStarted
          else index_loop fuel' config query ctx fromBlock currentBlock isOnHead subscriptionStarted
        else go_throw (Errorf "unknown indexer mode: %s" [] None)
  end.

(** The next event of the channel; a context that was cancelled before has its first cause. *)
Definition next_event : go indexer_state sink_event :=
  fun s => (Ok (sink_next (ix_events s)),
    mkIndexerState (ix_job s) (ix_calls s) (ix_checks s) (Datatypes.S (ix_events s)) (ix_subscribed s) (ix_cause s)).
Definition throw_cause (wrap : go_error -> go_error) (cause : go_error) : go indexer_state unit :=
  fun s => (Throw (wrap (default cause (ix_cause s))), s).

(** [for { select { ... } }] of [runSinkIndexation]. *)
Fixpoint sink_loop (fuel : nat) (ctx : C) (fromBlock : Z) : go indexer_state unit :=
  match fuel with
  | O => fun s => (OutOfFuel, s)
  | Datatypes.S fuel' =>
      let! event := next_event in
      match event with
      | SinkDone cause => throw_cause id cause
      | SinkTick => let! _ := get_block_number in sink_loop fuel' ctx fromBlock
      | SinkClosed => go_ret tt
      | SinkLog eventLog next =>
          match readUntilEmpty next [] with
          | (_, Some cause) => throw_cause (wrap_error "read until empty: %w" []) cause
          | (logs, None) =>
              let logs := [eventLog] ++ logs in
              let progressBlock := Log_BlockNumber (List.last logs eventLog) in
              let logsToProcess := List.filter (fun eventLog => fromBlock <=? Log_BlockNumber eventLog) logs in
              let! _ := go_wrap "handle logs: %w" [] (handleLogs ctx logsToProcess progressBlock) in
              sink_loop fuel' ctx fromBlock
          end
      end
  end.

Definition runSinkIndexation (fuel : nat) (ctx : C) (fromBlock : Z) : go indexer_state unit :=
  let! _ := on_job (OnIndexerModeChange handler ModeWS) in
  sink_loop fuel ctx fromBlock.

Definition IndexEVMLogs (fuel : nat) (config : Config) (query : FilterQuery) (ctx : C) (startBlock : Z)
    : go indexer_state unit :=
  let! currentBlock := get_block_number in
  if currentBlock <? startBlock then
    go_throw (Errorf "start block %d is greater than the current block %d" [startBlock; currentBlock] None)
  else
    let! _ := on_job (OnIndexerModeChange handler ModeHistory) in
    let! (fromBlock, subscriptionStarted) := index_loop fuel config query ctx startBlock currentBlock false false in
    if negb (String.eqb (Config_IndexerMode config) ModeWS) then go_ret tt
    else
      let! _ := if subscriptionStarted then go_ret true else startSubscription query fromBlock in
      runSinkIndexation fuel ctx fromBlock.
End Indexer.
Arguments indexer_state : clear implicits.
