(* ===== verification/IndexerFacts.v ===== *)
(** The indexer against its handlers: what a handler promises, what an honest client answers,
    and that the loop then hands over every range of blocks once and in order, in polling
    mode without end. *)

From stdpp Require Import base list numbers strings gmap.
From Stdlib Require Import ZArith Lia.
From S2P Require Import Prelude GoBase SparseTree SparseTreeProofs Storage Registry Service Jobs Indexer.
Local Open Scope Z_scope.

(** * The chain *)

(** The logs of blocks [fromBlock] to [toBlock], where [chain] has those of every block. *)
Definition block_logs (chain : Z -> list Log) (fromBlock toBlock : Z) : list Log :=
  concat (map chain (seqZ fromBlock (toBlock - fromBlock + 1))).

Lemma block_logs_split (chain : Z -> list Log) (a b c : Z) :
  a <= b -> b <= c + 1 -> block_logs chain a c = block_logs chain a (b - 1) ++ block_logs chain b c.
Proof.
  intros Hab Hbc. unfold block_logs. rewrite <- concat_app, <- map_app. do 2 f_equal.
  replace (c - a + 1) with ((b - 1 - a + 1) + (c - b + 1)) by lia.
  rewrite seqZ_app by lia. do 2 f_equal. lia.
Qed.

Lemma block_logs_empty (chain : Z -> list Log) (a b : Z) : b < a -> block_logs chain a b = [].
Proof. intros H. unfold block_logs. rewrite seqZ_nil by lia. done. Qed.

Lemma block_logs_in (chain : Z -> list Log) (a b : Z) (log : Log) :
  In log (block_logs chain a b) -> exists n, a <= n <= b /\ In log (chain n).
Proof.
  unfold block_logs. rewrite in_concat. intros (l & Hl & Hin). apply in_map_iff in Hl as (n & <- & Hn).
  exists n. split; [|done]. apply list_elem_of_In, elem_of_seqZ in Hn. lia.
Qed.

(** The client knows the chain: the k-th call finds [height k] blocks, and a query up to a
    block that was seen before gets the logs of its range. *)
Record knows_chain {EC : EthereumClient} (chain : Z -> list Log) (height : nat -> Z) (query : FilterQuery) : Prop := {
  kc_height : forall k, BlockNumber k = inr (height k);
  kc_logs : forall k k' a b, (k' < k)%nat -> 0 <= a <= b -> b <= height k' ->
    FilterLogs k (set_blocks query (Some a) (Some b)) = inr (block_logs chain a b);
}.

(** * Handlers

    What the indexer relies on: [I m b s] says that the job has indexed all blocks before [b]
    and was told the mode [m], [J m b done ctx s] that it is in the middle of a range that
    starts at [b], with the logs [done] behind it. *)
Class JobHandlerLaws {S C : Type} (handler : JobHandler S C) (ctx : C) (chain : Z -> list Log)
    (I : Mode -> Z -> S -> Prop) (J : Mode -> Z -> list Log -> C -> S -> Prop) : Prop := {
  prepare_law m b s : I m b s -> exists c s', runs (PrepareContext handler ctx) s c s' /\ J m b [] c s';
  handle_law m b n don log c s :
    J m b don c s -> b <= n -> In log (chain n) ->
    exists s', runs (HandleEVMLog handler c log) s tt s' /\ J m b (don ++ [log]) c s';
  commit_law m a b c s :
    0 <= a <= b -> b < 2 ^ 64 -> J m a (block_logs chain a b) c s ->
    exists s', runs (Commit handler c b) s tt s' /\ I m (b + 1) s';
  mode_law m m' b s : I m b s -> exists s', runs (OnIndexerModeChange handler m') s tt s' /\ I m' b s';
}.

Section Indexer.
Context {GE : GoEnv} {EC : EthereumClient} {S C : Type} {handler : JobHandler S C} {ctx : C}.
Context {chain : Z -> list Log} {I : Mode -> Z -> S -> Prop} {J : Mode -> Z -> list Log -> C -> S -> Prop}.
Context {HL : JobHandlerLaws handler ctx chain I J}.

(** ** A range *)

Lemma on_job_runs {A : Type} (m : go S A) (s : indexer_state S) (a : A) (j : S) :
  runs m (ix_job s) a j -> runs (on_job m) s a (set_job j s).
Proof. unfold runs, on_job. by intros ->. Qed.

Lemma handle_each_ok (m : Mode) (b : Z) (c : C) (logs don : list Log) (s : indexer_state S) :
  (forall log, In log logs -> exists n, b <= n /\ In log (chain n)) -> J m b don c (ix_job s) ->
  exists j, runs (handle_each handler c logs) s tt (set_job j s) /\ J m b (don ++ logs) c j.
Proof.
  revert don s. induction logs as [|log logs IH]; intros don s Hl Hj.
  { exists (ix_job s). rewrite app_nil_r. by destruct s. }
  destruct (Hl log (or_introl eq_refl)) as (n & Hn & Hin).
  destruct (handle_law m b n don log c (ix_job s) Hj Hn Hin) as (j & R & Hj').
  destruct (IH (don ++ [log]) (set_job j s)) as (j' & R' & Hj''); [|done|].
  { intros log' Hin'. apply Hl. by right. }
  exists j'. split; [|by rewrite <- (assoc_L (++)) in Hj''].
  cbn [handle_each]. eapply runs_bind; [apply runs_wrap, on_job_runs, R|exact R'].
Qed.

Lemma handleLogs_ok (m : Mode) (a b : Z) (s : indexer_state S) :
  0 <= a <= b -> b < 2 ^ 64 -> I m a (ix_job s) ->
  exists j, runs (handleLogs handler ctx (block_logs chain a b) b) s tt (set_job j s) /\ I m (b + 1) j.
Proof.
  intros Hab Hb Hi. destruct (prepare_law m a (ix_job s) Hi) as (c & j & R & Hj).
  destruct (handle_each_ok m a c (block_logs chain a b) [] (set_job j s)) as (j' & R' & Hj'); [|done|].
  { intros log Hin. apply block_logs_in in Hin as (n & Hn & Hin). exists n. split; [lia|done]. }
  destruct (commit_law m a b c j' Hab Hb Hj') as (j'' & R'' & Hi'').
  exists j''. split; [|done]. unfold handleLogs.
  eapply runs_bind; [apply runs_wrap, on_job_runs, R|]. eapply runs_bind; [exact R'|].
  apply runs_wrap. exact (on_job_runs _ (set_job j' (set_job j s)) tt j'' R'').
Qed.

(** [b] was seen by a call of the client. *)
Definition seen (height : nat -> Z) (s : indexer_state S) (b : Z) : Prop :=
  exists k, (k < length (ix_calls s))%nat /\ b <= height k.

Lemma seen_calls (height : nat -> Z) (s s' : indexer_state S) (b : Z) :
  (length (ix_calls s) <= length (ix_calls s'))%nat -> seen height s b -> seen height s' b.
Proof. intros Hl (k & Hk & Hb). exists k. split; [lia|done]. Qed.

(** Nothing cancelled the context of the subscription. *)
Definition undisturbed (s : indexer_state S) : Prop :=
  ix_cause s = None /\ (ix_subscribed s = true -> forall k, subscription_Err k = None).

Lemma undisturbed_cause (s : indexer_state S) : context_active -> undisturbed s -> sink_cause s = None.
Proof.
  intros Hctx [Hc Hs]. unfold sink_cause. rewrite Hc, Hctx. destruct (ix_subscribed s); [|done].
  by rewrite (Hs eq_refl).
Qed.

Context {height : nat -> Z} {query : FilterQuery} {config : Config}.
Context (Hctx : context_active) (Hchain : knows_chain chain height query).
Context (Hmax : 1 <= Config_MaxBlocksDistance config).
Context (Hheight : forall k, height k + Config_MaxBlocksDistance config < 2 ^ 64).

Definition range_end (fromBlock currentBlock : Z) : Z :=
  Z.min (fromBlock + Config_MaxBlocksDistance config - 1) currentBlock.

Lemma index_range_ok (m : Mode) (a cur : Z) (s : indexer_state S) :
  0 <= a <= cur -> seen height s cur -> undisturbed s -> I m a (ix_job s) ->
  exists s', runs (index_range handler config query ctx a cur) s (range_end a cur + 1) s' /\
    I m (range_end a cur + 1) (ix_job s') /\ undisturbed s' /\ ix_subscribed s' = ix_subscribed s /\
    ix_calls s' = ix_calls s ++ [CallFilterLogs (set_blocks query (Some a) (Some (range_end a cur)))].
Proof.
  intros Ha (k & Hk & Hcur) Hu Hi. pose proof (Hheight k) as Hk64.
  assert (Z.min (u64 (u64 (a + Config_MaxBlocksDistance config) - 1)) cur = range_end a cur) as Eto.
  { unfold u64, range_end. rewrite !Z.mod_small; [done|lia|]. rewrite Z.mod_small by lia. lia. }
  set (s1 := mkIndexerState (ix_job s) (ix_calls s ++ [CallFilterLogs (set_blocks query (Some a)
      (Some (range_end a cur)))])
    (ix_checks s) (ix_events s) (ix_subscribed s) (ix_cause s)).
  destruct (handleLogs_ok m a (range_end a cur) s1) as (j & R & Hj); [unfold range_end; lia|unfold range_end;
      lia|done|].
  exists (mkIndexerState j (ix_calls s1) (Datatypes.S (ix_checks s)) (ix_events s) (ix_subscribed s) None).
  split; [|split; [exact Hj|]].
  - unfold index_range. rewrite Eto. eapply runs_bind; [apply runs_wrap|].
    { unfold runs, call_client. rewrite (kc_logs _ _ _ Hchain _ k) by (unfold range_end; lia || done). reflexivity. }
    eapply runs_bind; [apply runs_wrap, R|]. eapply runs_bind.
    { unfold runs, check_sinkCtx. rewrite (undisturbed_cause (set_job j s1) Hctx Hu). reflexivity. }
    unfold runs, go_ret. unfold u64. rewrite Z.mod_small by (unfold range_end; lia). reflexivity.
  - split; [|done]. destruct Hu as [Hc Hs]. by split.
Qed.

(** ** Polling *)

Lemma get_block_number_runs (s : indexer_state S) :
  runs get_block_number s (height (length (ix_calls s)))
    (mkIndexerState (ix_job s) (ix_calls s ++ [CallBlockNumber]) (ix_checks s) (ix_events s) (ix_subscribed s)
       (ix_cause s)).
Proof. apply runs_wrap. unfold runs, call_client. by rewrite (kc_height _ _ _ Hchain). Qed.

(** Waiting for a block ends with a block number that is high enough, unless the waiting goes
    on for longer than the fuel; the job does not change. *)
Lemma poll_next_ok (fuel : nat) (a : Z) (s : indexer_state S) :
  undisturbed s -> exists s', ix_job s' = ix_job s /\ undisturbed s' /\
    (length (ix_calls s) <= length (ix_calls s'))%nat /\
    ((exists cur, runs (poll_next fuel a) s cur s' /\ a <= cur /\ seen height s' cur) \/
     (poll_next fuel a s = (OutOfFuel, s') /\
      forall i, (i < fuel)%nat -> height (length (ix_calls s) + i) < a)).
Proof.
  revert s. induction fuel as [|fuel IH]; intros s Hu.
  { exists s. split; [done|]. split; [done|]. split; [done|]. right. split; [done|lia]. }
  set (s1 := mkIndexerState (ix_job s) (ix_calls s ++ [CallBlockNumber]) (ix_checks s) (ix_events s) (ix_subscribed s)
    (ix_cause s)).
  set (s2 := mkIndexerState (ix_job s1) (ix_calls s1) (Datatypes.S (ix_checks s1)) (ix_events s1) (ix_subscribed s1)
    (ix_cause s1)).
  assert (poll_next (Datatypes.S fuel) a s = if a <=? height (length (ix_calls s))
    then (Ok (height (length (ix_calls s))), s1) else poll_next fuel a s2) as E.
  { cbn [poll_next]. rewrite (bind_runs _ _ _ _ _ (get_block_number_runs s)).
    destruct (a <=? _); [done|]. apply (bind_runs check_parent (fun _ => poll_next fuel a) s1 s2 tt).
    unfold runs, check_parent. by rewrite Hctx. }
  unfold runs. rewrite E. clear E.
  assert (length (ix_calls s1) = Datatypes.S (length (ix_calls s))) as El.
  { cbn. rewrite length_app. cbn. lia. }
  destruct (Z.leb_spec a (height (length (ix_calls s)))) as [Hle|Hlt].
  { exists s1. split; [done|]. split; [done|]. split; [lia|]. left. eexists. split; [reflexivity|].
    split; [done|]. exists (length (ix_calls s)). split; [lia|done]. }
  destruct (IH s2) as (s' & Ej & Hu' & Hl & H); [done|].
  exists s'. split; [done|]. split; [done|]. split; [cbn in Hl; rewrite length_app in Hl; lia|].
  destruct H as [H|[H Hh]]; [by left|right]. split; [done|]. intros [|i] Hi; [by rewrite Nat.add_0_r|].
  specialize (Hh i). cbn in Hh. rewrite length_app in Hh. cbn in Hh.
  replace (length (ix_calls s) + Datatypes.S i)%nat with (length (ix_calls s) + 1 + i)%nat by lia. apply Hh. lia.
Qed.

(** What polling comes to when the fuel is used up: a state in which all blocks before [b] are
    indexed, [b] not less than [a], and beyond every block that the chain reached early
    enough; the handler has been told about the head, or there are blocks left. *)
Definition polled (fuel : nat) (a b : Z) (m : Mode) (s' : indexer_state S) : Prop :=
  I m b (ix_job s') /\ a <= b /\ (a < b -> seen height s' (b - 1)) /\
  (m = ModePoll \/ exists cur, b <= cur /\ seen height s' cur) /\
  forall T K, (forall k, (K <= k)%nat -> T <= height k) -> (Z.to_nat (T + 1 - a) + K < fuel)%nat -> T < b.

Definition mode_of (isOnHead : bool) : Mode := if isOnHead then ModePoll else ModeHistory.

Lemma polled_later (fuel : nat) (a a' b : Z) (m : Mode) (s' : indexer_state S) :
  a < a' -> seen height s' (a' - 1) -> polled fuel a' b m s' -> polled (Datatypes.S fuel) a b m s'.
Proof.
  intros Ha Hs (Hi & Hb & Hseen & Hm & Hp). split; [done|]. split; [lia|]. split.
  - intros _. destruct (decide (a' < b)) as [H|H]; [by apply Hseen|]. by replace b with a' by lia.
  - split; [done|]. intros T K HT Hf. destruct (decide (T < a')); [lia|]. apply (Hp T K HT). lia.
Qed.

Context (Hmode : Config_IndexerMode config = ModePoll).

Lemma index_loop_polls (fuel : nat) (a cur : Z) (isOnHead started : bool) (s : indexer_state S) :
  0 <= a <= cur -> seen height s cur -> undisturbed s -> I (mode_of isOnHead) a (ix_job s) ->
  exists m b s', index_loop handler fuel config query ctx a cur isOnHead started s = (OutOfFuel, s') /\
    (length (ix_calls s) <= length (ix_calls s'))%nat /\ polled fuel a b m s'.
Proof.
  revert a cur isOnHead s. induction fuel as [|fuel IH]; intros a cur isOnHead s Ha Hs Hu Hi.
  { exists (mode_of isOnHead), a, s. split; [done|]. split; [done|]. split; [done|]. split; [lia|]. split; [lia|].
    split; [right; exists cur; split; [lia|done]|]. lia. }
  destruct (index_range_ok _ a cur s Ha Hs Hu Hi) as (s1 & R1 & Hi1 & Hu1 & Hsub1 & Hc1).
  assert (length (ix_calls s) <= length (ix_calls s1))%nat as Hl1 by (rewrite Hc1, length_app; lia).
  assert (forall s', (length (ix_calls s1) <= length (ix_calls s'))%nat -> seen height s' (range_end a cur + 1 - 1))
    as Hend.
  { intros s' Hl. apply (seen_calls _ s); [lia|]. destruct Hs as (k & Hk & Hh). exists k.
    split; [done|]. unfold range_end. lia. }
  assert (a < range_end a cur + 1) as Hlt by (unfold range_end; lia).
  cbn [index_loop]. rewrite (proj2 (Z.ltb_ge cur a)) by lia. rewrite (bind_runs _ _ _ _ _ R1).
  rewrite Hmode, (String.eqb_refl ModePoll). destruct (Z.leb_spec (range_end a cur + 1) cur) as [Hle|Hgt].
  { destruct (IH (range_end a cur + 1) cur isOnHead s1) as (m & b & s' & E & Hl & Hp);
      [lia|by apply (seen_calls _ s)|done|done|].
    exists m, b, s'. split; [done|]. split; [lia|]. by apply (polled_later fuel a (range_end a cur + 1)), Hp;
        [|apply Hend]. }
  assert (exists j, runs (if isOnHead then go_ret tt else on_job (OnIndexerModeChange handler ModePoll)) s1 tt
    (set_job j s1) /\ I ModePoll (range_end a cur + 1) j) as (j & R2 & Hi2).
  { destruct isOnHead; [exists (ix_job s1); by destruct s1|].
    destruct (mode_law _ ModePoll _ _ Hi1) as (j & R & Hj). exists j. split; [by apply on_job_runs|done]. }
  rewrite (bind_runs _ _ _ _ _ R2).
  destruct (poll_next_ok fuel (range_end a cur + 1) (set_job j s1) Hu1) as (s2 & Ej & Hu2 & Hl2 & H).
  change (length (ix_calls (set_job j s1))) with (length (ix_calls s1)) in *.
  destruct H as [(cur' & R3 & Hcur & Hs3)|[E Hlow]].
  - rewrite (bind_runs _ _ _ _ _ R3).
    destruct (IH (range_end a cur + 1) cur' true s2) as (m & b & s' & E & Hl & Hp);
      [lia|done|done|by rewrite Ej|].
    exists m, b, s'. split; [done|]. split; [lia|].
    apply (polled_later fuel a (range_end a cur + 1)); [done| |done]. apply Hend. lia.
  - exists ModePoll, (range_end a cur + 1), s2. split; [unfold go_bind; by rewrite E|]. split; [lia|].
    split; [by rewrite Ej|]. split; [lia|]. split; [intros _; by apply Hend|]. split; [by left|].
    intros T K HT Hf. destruct (decide (T < range_end a cur + 1)) as [|Hge]; [done|].
    specialize (Hlow K). specialize (HT (length (ix_calls s1) + K)%nat). lia.
Qed.

Lemma IndexEVMLogs_polls (fuel : nat) (m0 : Mode) (startBlock : Z) (s : indexer_state S) :
  0 <= startBlock <= height (length (ix_calls s)) -> undisturbed s -> I m0 startBlock (ix_job s) ->
  exists m b s', IndexEVMLogs handler fuel config query ctx startBlock s = (OutOfFuel, s') /\
    polled fuel startBlock b m s'.
Proof.
  intros Hstart Hu Hi. unfold IndexEVMLogs. rewrite (bind_runs _ _ _ _ _ (get_block_number_runs s)).
  rewrite (proj2 (Z.ltb_ge _ _)) by lia. set (s1 := mkIndexerState _ _ _ _ _ _).
  destruct (mode_law m0 ModeHistory startBlock (ix_job s1) Hi) as (j & R & Hj).
  rewrite (bind_runs _ _ _ _ _ (on_job_runs _ s1 tt j R)).
  destruct (index_loop_polls fuel startBlock (height (length (ix_calls s))) false false (set_job j s1))
    as (m & b & s' & E & _ & Hp); [done| |done|done|].
  { exists (length (ix_calls s)). split; [cbn; rewrite length_app; cbn; lia|done]. }
  exists m, b, s'. split; [|done]. unfold go_bind at 1. by rewrite E.
Qed.
End Indexer.
