(* ===== verification/IndexerWsFacts.v ===== *)
(** The indexer with a subscription: how the history is read until the subscription takes over. *)

From stdpp Require Import base list numbers strings gmap.
From Stdlib Require Import ZArith Lia.
From S2P Require Import Prelude GoBase SparseTree SparseTreeProofs Storage Registry Service Jobs Indexer IndexerFacts.
Local Open Scope Z_scope.

Definition is_filter (call : client_call) : Prop := exists query, call = CallFilterLogs query.

Section Ws.
Context {GE : GoEnv} {EC : EthereumClient} {S C : Type} {handler : JobHandler S C} {ctx : C}.
Context {chain : Z -> list Log} {I : Mode -> Z -> S -> Prop} {J : Mode -> Z -> list Log -> C -> S -> Prop}.
Context {HL : JobHandlerLaws handler ctx chain I J}.
Context {height : nat -> Z} {query : FilterQuery} {config : Config}.
Context (Hctx : context_active) (Hchain : knows_chain chain height query).
Context (Hmax : 1 <= Config_MaxBlocksDistance config < 2 ^ 64 - 1).
Context (Hheight : forall k, height k + Config_MaxBlocksDistance config < 2 ^ 64).
Context (Hmono : forall k k', (k <= k')%nat -> height k <= height k').
Context (Hsub : forall k q, SubscribeFilterLogs k q = None) (Herr : forall k, subscription_Err k = None).
Context (Hmode : Config_IndexerMode config = ModeWS).

Abbreviation range_end := (@range_end config).

(** One step of the loop, up to the question whether to subscribe. *)
Lemma ws_step (a cur : Z) (started : bool) (s : indexer_state S) :
  0 <= a <= cur -> seen height s cur -> undisturbed s -> I ModeHistory a (ix_job s) ->
  exists s1, I ModeHistory (range_end a cur + 1) (ix_job s1) /\ undisturbed s1 /\
    ix_calls s1 = ix_calls s ++ [CallFilterLogs (set_blocks query (Some a) (Some (range_end a cur)))] /\
    forall fuel, index_loop handler (Datatypes.S fuel) config query ctx a cur false started s =
    (if negb started && (u64 (cur - (range_end a cur + 1)) <=? Config_MaxBlocksDistance config) then
       let! started := startSubscription query (range_end a cur + 1) in
       let! cur' := get_block_number in
       index_loop handler fuel config query ctx (range_end a cur + 1) cur' false started
     else index_loop handler fuel config query ctx (range_end a cur + 1) cur false started) s1.
Proof.
  intros Ha Hs Hu Hi.
  destruct (index_range_ok Hctx Hchain (proj1 Hmax) Hheight ModeHistory a cur s Ha Hs Hu Hi)
    as (s1 & R & Hi1 & Hu1 & _ & Hc1).
  exists s1. split; [done|]. split; [done|]. split; [done|]. intros fuel.
  cbn [index_loop]. rewrite (proj2 (Z.ltb_ge cur a)) by lia. rewrite (bind_runs _ _ _ _ _ R). by rewrite Hmode.
Qed.

(** Once there is a subscription, the loop reads up to the block it knows. *)
Lemma ws_rest (fuel : nat) (a cur : Z) (s : indexer_state S) :
  0 <= a <= cur + 1 -> seen height s cur -> undisturbed s -> I ModeHistory a (ix_job s) ->
  (Z.to_nat (cur + 1 - a) < fuel)%nat ->
  exists s' after, runs (index_loop handler fuel config query ctx a cur false true) s (cur + 1, true) s' /\
    I ModeHistory (cur + 1) (ix_job s') /\ undisturbed s' /\ ix_calls s' = ix_calls s ++ after /\
        Forall is_filter after.
Proof.
  revert a s. induction fuel as [|fuel IH]; intros a s Ha Hs Hu Hi Hf; [lia|].
  destruct (decide (a = cur + 1)) as [->|Hne].
  { exists s, []. split; [|by rewrite app_nil_r]. unfold runs. cbn [index_loop].
    by rewrite (proj2 (Z.ltb_lt cur (cur + 1))) by lia. }
  destruct (ws_step a cur true s) as (s1 & Hi1 & Hu1 & Hc1 & E); [lia|done|done|done|].
  assert (a <= range_end a cur <= cur) as He by (unfold IndexerFacts.range_end; lia).
  destruct (IH (range_end a cur + 1) s1) as (s' & after & R & Hi' & Hu' & Hc' & Hall); [lia| |done|done|lia|].
  { apply (seen_calls _ s); [|done]. rewrite Hc1, length_app. lia. }
  eexists s', (_ :: after). split; [unfold runs in *; by rewrite E|]. split; [done|]. split; [done|].
  split; [rewrite Hc', Hc1, <- (assoc_L (++)); reflexivity|]. constructor; [by eexists|done].
Qed.

(** A history that fits into one range: no subscription, and the block number is not read
    again. *)
Lemma ws_short (fuel : nat) (a cur : Z) (s : indexer_state S) :
  0 <= a <= cur -> cur < a + Config_MaxBlocksDistance config ->
  seen height s cur -> undisturbed s -> I ModeHistory a (ix_job s) ->
  exists s', runs (index_loop handler (Datatypes.S (Datatypes.S fuel)) config query ctx a cur false false) s
      (cur + 1, false) s' /\
    I ModeHistory (cur + 1) (ix_job s') /\ undisturbed s' /\
    ix_calls s' = ix_calls s ++ [CallFilterLogs (set_blocks query (Some a) (Some cur))].
Proof.
  intros Ha Hshort Hs Hu Hi.
  destruct (ws_step a cur false s) as (s1 & Hi1 & Hu1 & Hc1 & E); [done|done|done|done|].
  assert (range_end a cur = cur) as Er by (unfold IndexerFacts.range_end; lia). rewrite Er in *.
  exists s1. split; [|done]. unfold runs. rewrite E.
  assert (u64 (cur - (cur + 1)) = 2 ^ 64 - 1) as -> by (replace (cur - (cur + 1)) with (-1) by lia; reflexivity).
  rewrite (proj2 (Z.leb_gt _ _)) by lia. cbn [negb andb index_loop].
  by rewrite (proj2 (Z.ltb_lt cur (cur + 1))) by lia.
Qed.

Lemma startSubscription_runs (q : FilterQuery) (a : Z) (s : indexer_state S) :
  undisturbed s -> exists s', runs (startSubscription q a) s true s' /\ ix_job s' = ix_job s /\ undisturbed s' /\
    ix_calls s' = ix_calls s ++ [CallSubscribeFilterLogs (mkFilterQuery (Query_Addresses q) (Query_Topics q)
        None None)].
Proof.
  intros [Hc _]. eexists. split; [unfold runs, startSubscription, subscribeToEvents, go_bind, go_ret; reflexivity|].
  split; [done|]. split; [|done]. split; [|done]. cbn [ix_cause]. by rewrite Hsub, Hc.
Qed.

(** A longer history: the subscription starts within the loop, and the last block of the
    history is one that was read afterwards. *)
Lemma ws_long (a cur : Z) (s : indexer_state S) :
  0 <= a -> a + Config_MaxBlocksDistance config <= cur ->
  (exists k, (k < length (ix_calls s))%nat /\ cur = height k) -> undisturbed s -> I ModeHistory a (ix_job s) ->
  exists fuel0, forall fuel, (fuel0 <= fuel)%nat -> exists h s' q before after,
    runs (index_loop handler fuel config query ctx a cur false false) s (h + 1, true) s' /\
    I ModeHistory (h + 1) (ix_job s') /\ undisturbed s' /\
    ix_calls s' = ix_calls s ++ before ++ [CallSubscribeFilterLogs q; CallBlockNumber] ++ after /\
    Forall is_filter before /\ Forall is_filter after /\ h = height (length (ix_calls s ++ before) + 1).
Proof.
  intros Ha Hlong (k & Hk & ->). remember (Z.to_nat (height k - a)) as n eqn:En. revert a s Ha Hlong Hk En.
  induction n as [n IH] using lt_wf_ind. intros a s Ha Hlong Hk En Hu Hi.
  assert (range_end a (height k) = a + Config_MaxBlocksDistance config - 1) as Er
    by (unfold IndexerFacts.range_end; lia).
  assert (seen height s (height k)) as Hs by (by exists k).
  destruct (ws_step a (height k) false s) as (s1 & Hi1 & Hu1 & Hc1 & E); [lia|done|done|done|]. rewrite Er in *.
  remember (a + Config_MaxBlocksDistance config - 1 + 1) as a1 eqn:Ea1.
  pose proof (Hheight k) as Hk64.
  assert (length (ix_calls s1) = Datatypes.S (length (ix_calls s))) as El by (rewrite Hc1, length_app; cbn; lia).
  assert (u64 (height k - a1) = height k - a1) as Eu by (unfold u64; rewrite Z.mod_small; lia).
  rewrite Eu in E. destruct (Z.leb_spec (height k - a1) (Config_MaxBlocksDistance config)) as [Hnear|Hfar].
  - destruct (startSubscription_runs query a1 s1 Hu1) as (s2 & R2 & Ej2 & Hu2 & Hc2).
    set (h := height (length (ix_calls s2))).
    exists (Datatypes.S (Datatypes.S (Z.to_nat (h + 1 - a1)))). intros [|fuel] Hf; [lia|].
    assert (length (ix_calls s2) = Datatypes.S (length (ix_calls s1))) as El2 by (rewrite Hc2, length_app; cbn; lia).
    destruct (ws_rest fuel a1 h (mkIndexerState (ix_job s2) (ix_calls s2 ++ [CallBlockNumber]) (ix_checks s2)
      (ix_events s2) (ix_subscribed s2) (ix_cause s2))) as (s' & after & R & Hi' & Hu' & Hc' & Hall).
    + pose proof (Hmono k (length (ix_calls s2)) ltac:(lia)). lia.
    + exists (length (ix_calls s2)). split; [cbn; rewrite length_app; cbn; lia|done].
    + exact Hu2.
    + cbn [ix_job]. by rewrite Ej2.
    + lia.
    + eexists h, s', _, [_], after. split; [unfold runs; rewrite E; cbn [negb andb]|].
      { rewrite (bind_runs _ _ _ _ _ R2), (bind_runs _ _ _ _ _ (get_block_number_runs Hchain s2)). exact R. }
      split; [done|]. split; [done|]. cbn [ix_calls] in Hc'. split; [|split; [|split; [done|]]].
      * rewrite Hc', Hc2, Hc1, <- !(assoc_L (++)). reflexivity.
      * repeat constructor. by eexists.
      * unfold h. f_equal. rewrite El2, El, length_app. cbn. lia.
  - destruct (IH (Z.to_nat (height k - a1)) ltac:(lia) a1 s1) as (fuel0 & H); [lia|lia|lia|done|done|done|].
    exists (Datatypes.S fuel0). intros [|fuel] Hf; [lia|].
    destruct (H fuel ltac:(lia)) as (h & s' & q & before & after & R & Hi' & Hu' & Hc' & Hb & Ha' & Eh).
    eexists h, s', q, (_ :: before), after. split; [unfold runs; rewrite E; cbn [negb andb]; exact R|].
    split; [done|]. split; [done|]. split; [|split; [|split; [done|]]].
    + rewrite Hc', Hc1, <- !(assoc_L (++)). reflexivity.
    + constructor; [by eexists|done].
    + by rewrite Eh, Hc1, <- (assoc_L (++)).
Qed.
End Ws.

(** The sink only asks for block numbers. *)
Section Sink.
Context {GE : GoEnv} {EC : EthereumClient} {S C : Type} (handler : JobHandler S C).

Lemma handle_each_calls (c : C) (logs : list Log) (s : indexer_state S) :
  ix_calls (snd (handle_each handler c logs s)) = ix_calls s.
Proof.
  revert s. induction logs as [|log logs IH]; intros s; [done|]. cbn [handle_each].
  unfold go_bind, go_wrap, on_job. destruct (HandleEVMLog handler c log (ix_job s)) as [[[]|e|] j];
    cbn [wrap_res snd]; [by rewrite IH|done|done].
Qed.

Lemma handleLogs_calls (c : C) (logs : list Log) (b : Z) (s : indexer_state S) :
  ix_calls (snd (handleLogs handler c logs b s)) = ix_calls s.
Proof.
  unfold handleLogs, go_bind, go_wrap, on_job.
  destruct (PrepareContext handler c (ix_job s)) as [[c'|e|] j]; cbn [wrap_res]; [|done|done].
  pose proof (handle_each_calls c' logs (set_job j s)) as E.
  destruct (handle_each handler c' logs (set_job j s)) as [[[]|e|] s']; cbn [snd] in E; [|done|done].
  destruct (Commit handler c' b (ix_job s')) as [[[]|e|] j']; done.
Qed.

Lemma sink_loop_calls (fuel : nat) (c : C) (a : Z) (s : indexer_state S) :
  exists n, ix_calls (snd (sink_loop handler fuel c a s)) = ix_calls s ++ replicate n CallBlockNumber.
Proof.
  revert s. induction fuel as [|fuel IH]; intros s; [exists 0%nat; by rewrite app_nil_r|].
  cbn [sink_loop]. unfold go_bind at 1, next_event. set (s1 := mkIndexerState _ _ _ _ _ _).
  destruct (sink_next (ix_events s)) as [cause| | |log next]; try (exists 0%nat; by rewrite app_nil_r).
  - unfold go_bind, get_block_number, go_wrap, call_client.
    destruct (BlockNumber (length (ix_calls s1))) as [e|z]; cbn [lift wrap_res snd].
    + by exists 1%nat.
    + set (s2 := mkIndexerState _ _ _ _ _ _). destruct (IH s2) as [n En]. exists (Datatypes.S n).
      rewrite En. cbn [ix_calls s2 s1]. by rewrite <- (assoc_L (++)).
  - destruct (readUntilEmpty next []) as [logs [cause|]]; [exists 0%nat; by rewrite app_nil_r|].
    unfold go_bind, go_wrap. match goal with |- context [handleLogs handler c ?l ?b s1] =>
      pose proof (handleLogs_calls c l b s1) as E; destruct (handleLogs handler c l b s1) as [[[]|e|] s2] end;
      cbn [snd wrap_res] in *; try (exists 0%nat; by rewrite app_nil_r, E).
    destruct (IH s2) as [n En]. exists n. by rewrite En, E.
Qed.

Lemma runSinkIndexation_calls (fuel : nat) (c : C) (a : Z) (s : indexer_state S) :
  exists n, ix_calls (snd (runSinkIndexation handler fuel c a s)) = ix_calls s ++ replicate n CallBlockNumber.
Proof.
  unfold runSinkIndexation, go_bind, on_job. destruct (OnIndexerModeChange handler ModeWS (ix_job s)) as [[[]|e|] j];
    [apply (sink_loop_calls fuel c a (set_job j s))|exists 0%nat; by rewrite app_nil_r..].
Qed.
End Sink.
