(* ===== verification/RegistryJob.v ===== *)
(** The job that indexes a registry ([internal/indexer/ZkCertificateRegistry.go]): it turns the
    events of the contract into operations, and commits the operations of a range of blocks. *)

From stdpp Require Import base list numbers strings gmap.
From Stdlib Require Import ZArith Lia.
From S2P Require Import Prelude GoBase SparseTree Storage Registry Service Jobs Indexer.
Local Open Scope Z_scope.

Definition EventCertificateProcessed : string := "CertificateProcessed".

(** The event [CertificateProcessed] of the contract; the raw log is left out, nothing reads it. *)
Record CertificateProcessed : Type := mkCertificateProcessed {
  CP_ZkCertificateLeafHash : gobytes;
  CP_Guardian : gobytes;
  CP_Operation : Z;
  CP_QueueIndex : Z;
  CP_LeafIndex : Z
}.

(** What the code asks of the packages [abi] and [bind]: the ids of the contract's events, the
    topics of a query, the contract bound to an address, and unpacking a log as an event. *)
Class ContractEvents := {
  BoundContract : Type;
  GetAbi : go_error + (string -> gobytes);
  MakeTopics : list (list gobytes) -> go_error + list (list gobytes);
  NewBoundContract : gobytes -> (string -> gobytes) -> BoundContract;
  UnpackLog : BoundContract -> string -> Log -> go_error + CertificateProcessed;
}.

Section Code.
Context {U256 : Uint256} {PH : Poseidon} {GE : GoEnv} {KV : KVDatabase} {JC : JobCodec} {CE : ContractEvents}.

(** * The state of the job

    The registry, the parser once it is made, and the buffers that contexts refer to. *)
Record job_state : Type := mkJobState {
  js_registry : registry_state;
  js_parser : option BoundContract;
  js_buffers : list OperationsBuffer
}.

(** The value of a context under [ctxOperationsBufferKey]: a reference to a buffer. *)
Definition job_ctx : Type := option nat.

Definition WithOperationsBuffer (ctx : job_ctx) (buffer : nat) : job_ctx := Some buffer.
Definition OperationsBufferFromContext (ctx : job_ctx) : option nat := ctx.

Definition new_buffer : go job_state nat :=
  fun s => (Ok (length (js_buffers s)),
    mkJobState (js_registry s) (js_parser s) (js_buffers s ++ [NewOperationsBuffer])).

(** A method of the buffer behind a reference. *)
Definition on_buffer (b : nat) (f : OperationsBuffer -> OperationsBuffer) : go job_state unit :=
  fun s => (Ok tt, mkJobState (js_registry s) (js_parser s) (alter f b (js_buffers s))).

Definition get_buffer (b : nat) : go job_state OperationsBuffer :=
  fun s => (match js_buffers s !! b with
            | Some buffer => Ok buffer
            | None => Throw (Panic "nil pointer dereference")
            end, s).

Definition on_job_registry {A : Type} (m : go registry_state A) : go job_state A :=
  fun s => let (c, r) := m (js_registry s) in (c, mkJobState r (js_parser s) (js_buffers s)).

(** * Handling events *)

Definition job_PrepareContext (ctx : job_ctx) : go job_state job_ctx :=
  let! buffer := new_buffer in
  go_ret (WithOperationsBuffer ctx buffer).

(** Of the bindings: the contract bound to an address ([bindZkCertificateRegistry]), the
    filterer over it, and [ParseCertificateProcessed]. *)
Definition bindZkCertificateRegistry (address : gobytes) : go_error + BoundContract :=
  match GetAbi with
  | inl err => inl err
  | inr parsed => inr (NewBoundContract address parsed)
  end.

Definition NewZkCertificateRegistryFilterer (address : gobytes) : go_error + BoundContract :=
  bindZkCertificateRegistry address.

Definition ParseCertificateProcessed (parser : BoundContract) (log : Log) : gores CertificateProcessed :=
  lift (UnpackLog parser EventCertificateProcessed log).

Definition getParserLazy (jobDescriptor : JobDescriptor) : go job_state BoundContract :=
  fun s =>
    match js_parser s with
    | Some parser => (Ok parser, s)
    | None =>
        match NewZkCertificateRegistryFilterer (Job_Address jobDescriptor) with
        | inl err => (Throw (wrap_error "bind contract: %w" [] err), s)
        | inr parser => (Ok parser, mkJobState (js_registry s) (Some parser) (js_buffers s))
        end
    end.

(** [LeafIndex.Uint64()] keeps the low 64 bits, [TreeLeafIndex(indexU64)] the low 32. *)
Definition handleCertificateProcessedLog (jobDescriptor : JobDescriptor) (ctx : job_ctx) (log : Log)
    : go job_state unit :=
  let! parser := go_wrap "get parser: %w" [] (getParserLazy jobDescriptor) in
  let! certificateProcessed := go_wrap "parse CertificateProcessed: %w" []
    (go_res (ParseCertificateProcessed parser log)) in
  let indexU64 := u64 (CP_LeafIndex certificateProcessed) in
  let index := u32 indexU64 in
  let (leaf, overflow) := uint256_FromBig (be_value (CP_ZkCertificateLeafHash certificateProcessed)) in
  if overflow : bool then go_throw (Errorf "CertificateProcessed: leaf hash overflow for index %d" [index] None)
  else
    match OperationsBufferFromContext ctx with
    | None => go_throw (Errorf "operations buffer not found in context" [] None)
    | Some operationsBuffer =>
        if CP_Operation certificateProcessed =? 0 then on_buffer operationsBuffer (AppendAddition index leaf)
        else if CP_Operation certificateProcessed =? 1 then on_buffer operationsBuffer (AppendRevocation index leaf)
        else go_throw (Errorf "unknown operation type: %d" [CP_Operation certificateProcessed] None)
    end.

(** [log.Topics[0]] panics when there is no topic; the topic in the error is kept as its bytes. *)
Definition job_HandleEVMLog (jobDescriptor : JobDescriptor) (ctx : job_ctx) (log : Log) : go job_state unit :=
  let! events := go_wrap "get abi: %w" [] (go_res (lift GetAbi)) in
  if Log_Removed log then go_ret tt
  else
    match Log_Topics log with
    | [] => go_throw (Panic "index out of range [0] with length 0")
    | topic :: _ =>
        if bool_decide (topic = events EventCertificateProcessed) then
          go_wrap "handle CertificateProcessed log: %w" [] (handleCertificateProcessedLog jobDescriptor ctx log)
        else go_throw (Errorf "unknown event %s" topic None)
    end.

Definition job_Commit (jobDescriptor : JobDescriptor) (ctx : job_ctx) (block : Z) : go job_state unit :=
  match OperationsBufferFromContext ctx with
  | None => go_throw (Errorf "leaves buffer not found in context" [] None)
  | Some b =>
      let! operationsBuffer := get_buffer b in
      on_job_registry (Job_Commit jobDescriptor operationsBuffer block)
  end.

(** Of [Commit], what comes before the write: the batch with the operations and the job's
    record. *)
Definition fill_batch (jobDescriptor : JobDescriptor) (operations : list LeafOperation) (block : Z)
    : go commit_state unit :=
  let! _ := if (0 <? length operations)%nat then go_wrap "insert leaves: %w" [] (CommitOperations operations)
            else go_ret tt in
  go_wrap "update job's current startBlock: %w" [] (on_batch_of (UpsertJob (mkJob jobDescriptor block))).

Definition job_FilterQuery (jobDescriptor : JobDescriptor) : gores FilterQuery :=
  let* events := wrap_res "get abi: %w" [] (lift GetAbi) in
  let* topics := wrap_res "make topics: %w" [] (lift (MakeTopics [[events EventCertificateProcessed]])) in
  Ok (mkFilterQuery [Job_Address jobDescriptor] topics None None).

(** The registry always has a progress tracker. *)
Definition job_OnIndexerModeChange (mode : Mode) : go job_state unit :=
  on_job_registry (fun s =>
    let reg := rs_reg s in
    let progressTracker := reg_progressTracker reg in
    let set p := mkRegistryState (mkZKCertificateRegistry (reg_metadata reg) (reg_sparseTree reg)
        (reg_leafView reg) p)
                   (rs_db s) (rs_world s) in
    if String.eqb mode ModeWS || String.eqb mode ModePoll then
      (Ok tt, if negb (IsOnHead progressTracker) then set (SetOnHead progressTracker true) else s)
    else if String.eqb mode ModeHistory then
      (Ok tt, if IsOnHead progressTracker then set (SetOnHead progressTracker false) else s)
    else (Ok tt, s)).

Definition ZkCertificateRegistryJob_JobHandler (jobDescriptor : JobDescriptor) : JobHandler job_state job_ctx := {|
  PrepareContext := job_PrepareContext;
  HandleEVMLog := job_HandleEVMLog jobDescriptor;
  Commit := job_Commit jobDescriptor;
  handler_FilterQuery := job_FilterQuery jobDescriptor;
  handler_JobDescriptor := jobDescriptor;
  OnIndexerModeChange := job_OnIndexerModeChange
|}.

(** [NewZkCertificateRegistryJob]: no parser yet. *)
Definition NewZkCertificateRegistryJob (registry : registry_state) : job_state := mkJobState registry None [].
End Code.
