(* ===== verification/RegistryJobFacts.v ===== *)
(** The registry job keeps the promises of a job handler: after a range of blocks the database
    holds the registry that the operations of the chain's events make. *)

From stdpp Require Import base list numbers strings gmap.
From Stdlib Require Import ZArith Lia.
From S2P Require Import Prelude GoBase MerkleSpec SparseTree SparseTreeFacts SparseTreeInsert SparseTreeProofs.
From S2P Require Import SparseTreeSimulation Storage StorageFacts Registry RegistryFacts RegistryRuns.
From S2P Require Import Service ServiceFacts Jobs Indexer IndexerFacts RegistryJob.
Local Open Scope Z_scope.

(** * Operations that are applied again *)

Lemma abs_leaves_app (e : Z) (leaf : Z -> Z) (ops ops' : list LeafOperation) :
  abs_leaves e leaf (ops ++ ops') = abs_leaves e (abs_leaves e leaf ops) ops'.
Proof. unfold abs_leaves, set_all. by rewrite map_app, foldl_app. Qed.

Lemma abs_indices_app (idx : Z -> option Z) (ops ops' : list LeafOperation) :
  abs_indices idx (ops ++ ops') = abs_indices (abs_indices idx ops) ops'.
Proof. unfold abs_indices. by rewrite foldl_app. Qed.

(** What the last operation on a leaf or a value says does not depend on the registry before. *)
Lemma abs_leaves_last (e : Z) (ops : list LeafOperation) (i : Z) :
  (forall leaf, abs_leaves e leaf ops i = leaf i) \/ (exists v, forall leaf, abs_leaves e leaf ops i = v).
Proof.
  induction ops as [|op ops IH] using rev_ind; [by left|].
  assert (forall leaf, abs_leaves e leaf (ops ++ [op]) i =
    if i =? Leaf_Index (commit_leaf e op) then Leaf_Value (commit_leaf e op) else abs_leaves e leaf ops i) as E.
  { intros leaf. by rewrite abs_leaves_app. }
  destruct (i =? Leaf_Index (commit_leaf e op)); [right; by exists (Leaf_Value (commit_leaf e op))|].
  destruct IH as [IH|[v IH]]; [left|right; exists v]; intros leaf; by rewrite E.
Qed.

Lemma abs_indices_last (ops : list LeafOperation) (v : Z) :
  (forall idx, abs_indices idx ops v = idx v) \/ (exists r, forall idx, abs_indices idx ops v = r).
Proof.
  induction ops as [|op ops IH] using rev_ind; [by left|].
  assert (forall idx, abs_indices idx (ops ++ [op]) v =
    if v =? Leaf_Value (Operation_Leaf op) then (if is_addition op then Some (Leaf_Index (Operation_Leaf op))
        else None)
    else abs_indices idx ops v) as E.
  { intros idx. by rewrite abs_indices_app. }
  destruct (v =? Leaf_Value (Operation_Leaf op)); [right; by eexists|].
  destruct IH as [IH|[r IH]]; [left|right; exists r]; intros idx; by rewrite E.
Qed.

Lemma abs_leaves_again (e : Z) (leaf : Z -> Z) (ops : list LeafOperation) (i : Z) :
  abs_leaves e (abs_leaves e leaf ops) ops i = abs_leaves e leaf ops i.
Proof. destruct (abs_leaves_last e ops i) as [H|[v H]]; [by rewrite H|by rewrite !H]. Qed.

Lemma abs_indices_again (idx : Z -> option Z) (ops : list LeafOperation) (v : Z) :
  abs_indices (abs_indices idx ops) ops v = abs_indices idx ops v.
Proof. destruct (abs_indices_last ops v) as [H|[r H]]; [by rewrite H|by rewrite !H]. Qed.

Lemma abs_leaves_ext (e : Z) (leaf leaf' : Z -> Z) (ops : list LeafOperation) (i : Z) :
  (forall j, leaf j = leaf' j) -> abs_leaves e leaf ops i = abs_leaves e leaf' ops i.
Proof. intros E. destruct (abs_leaves_last e ops i) as [H|[v H]]; by rewrite !H. Qed.

Lemma abs_indices_ext (idx idx' : Z -> option Z) (ops : list LeafOperation) (v : Z) :
  (forall w, idx w = idx' w) -> abs_indices idx ops v = abs_indices idx' ops v.
Proof. intros E. destruct (abs_indices_last ops v) as [H|[r H]]; by rewrite !H. Qed.

Lemma Operations_append (op : LeafOperation) (b : OperationsBuffer) :
  (ops_len b <= length (ops_array b))%nat ->
  Operations (append_operation op b) = Operations b ++ [op] /\
  (ops_len (append_operation op b) <= length (ops_array (append_operation op b)))%nat.
Proof.
  intros Hl. unfold Operations, append_operation. destruct (Nat.ltb_spec (ops_len b) (length (ops_array b))) as [H|H];
    cbn [ops_len ops_array].
  - rewrite length_insert. split; [|lia].
    rewrite (take_S_r _ _ op) by (rewrite list_lookup_insert_eq; [done|lia]). by rewrite take_insert_ge.
  - rewrite length_app, length_take. cbn. split; [|lia].
    rewrite take_ge; [done|]. rewrite length_app, length_take. cbn. lia.
Qed.

Section Untouched.
Context {U256 : Uint256} {PH : Poseidon} {GE : GoEnv} {KV : KVDatabase} {JC : JobCodec} {CE : ContractEvents}.

(** Handling an event does not touch the registry. *)
Lemma job_HandleEVMLog_registry (jd : JobDescriptor) (c : job_ctx) (log : Log) (s : job_state) :
  js_registry (snd (job_HandleEVMLog jd c log s)) = js_registry s.
Proof.
  unfold job_HandleEVMLog, go_bind at 1, go_wrap at 1, go_res. destruct (wrap_res _ _ (lift GetAbi))
      as [events|e|]; [|done|done].
  destruct (Log_Removed log); [done|]. destruct (Log_Topics log) as [|topic rest]; [done|].
  destruct (bool_decide _); [|done]. unfold go_wrap, handleCertificateProcessedLog, go_bind, go_wrap.
  assert (js_registry (snd (getParserLazy jd s)) = js_registry s) as E.
  { unfold getParserLazy. destruct (js_parser s); [done|].
      by destruct (NewZkCertificateRegistryFilterer (Job_Address jd)). }
  destruct (getParserLazy jd s) as [[parser|e|] s1]; cbn [wrap_res snd] in *; [|done|done].
  unfold go_res. destruct (wrap_res _ _ (ParseCertificateProcessed parser log)) as [cp|e|]; cbn [wrap_res snd];
      [|done|done].
  destruct (uint256_FromBig _) as [leaf overflow]. destruct overflow; [done|].
      destruct (OperationsBufferFromContext c) as [k|]; [|done].
  destruct (CP_Operation cp =? 0); [done|]. by destruct (CP_Operation cp =? 1).
Qed.

Lemma handle_each_registry (jd : JobDescriptor) (c : job_ctx) (logs : list Log) (s : indexer_state job_state) :
  js_registry (ix_job (snd (handle_each (ZkCertificateRegistryJob_JobHandler jd) c logs s))) = js_registry (ix_job s).
Proof.
  revert s. induction logs as [|log logs IH]; intros s; [done|]. cbn [handle_each]. unfold go_bind, go_wrap, on_job.
  cbn [HandleEVMLog ZkCertificateRegistryJob_JobHandler].
      pose proof (job_HandleEVMLog_registry jd c log (ix_job s)) as E.
  destruct (job_HandleEVMLog jd c log (ix_job s)) as [[[]|e|] j]; cbn [wrap_res snd] in *; [rewrite IH|..]; exact E.
Qed.
End Untouched.

Section Job.
Context {U256 : Uint256} {UL : Uint256Laws U256} {PH : Poseidon} {PL : PoseidonLaws PH} {GE : GoEnv}.
Context {KV : KVDatabase} {KL : KVDatabaseLaws KV} {JC : JobCodec} {CE : ContractEvents}.

(** * Descriptions that agree *)

Lemma reg_models_ext (s : registry_state) (leaf leaf' : Z -> Z) (idx idx' : Z -> option Z) :
  (forall i, leaf i = leaf' i) -> (forall v, idx v = idx' v) -> reg_models s leaf idx -> reg_models s leaf' idx'.
Proof.
  intros El Ei Hm. split; try apply Hm.
  - intros i Hi. rewrite <- El. by apply (rm_leaves _ _ _ Hm).
  - intros v Hv. rewrite <- Ei. by apply (rm_lookup _ _ _ Hm).
  - intros v i. rewrite <- Ei. apply (rm_range _ _ _ Hm).
Qed.

(** What a registry models depends on the contents of the database only. *)
Lemma reg_models_contents (s s' : registry_state) (leaf : Z -> Z) (idx : Z -> option Z) :
  rs_reg s = rs_reg s' -> contents (rs_db s) = contents (rs_db s') -> reg_models s leaf idx -> reg_models s' leaf idx.
Proof.
  destruct s as [reg d w], s' as [reg' d' w']. cbn [rs_reg rs_db]. intros <- Ed Hm.
  assert (forall l i, storageLeafGetter (reg_tree (mkRegistryState reg d w)) l i =
    storageLeafGetter (reg_tree (mkRegistryState reg d' w')) l i) as Eg.
  { intros l i. unfold reg_tree, tree_at, LeafView_GetLeaf, LeafStorage_GetLeaf. cbn [storageLeafGetter rs_reg rs_db].
    by rewrite !Get_contents, Ed by done. }
  assert (forall l i, stored (reg_tree (mkRegistryState reg d w))
      l i = stored (reg_tree (mkRegistryState reg d' w')) l i)
    as Es by (intros l i; unfold stored; by rewrite Eg).
  destruct Hm as [H1 H2 H3 H4 (H5 & H6 & H7 & H8) H9 H10 H11 H12 H13]. split; try done.
  - split; [exact H5|]. split; [exact H6|]. split; [|exact H8]. intros l i Hk. rewrite <- Eg. by apply H7.
  - apply (consistent_ext _ _ (stored (reg_tree (mkRegistryState reg d w)))); [intros l i _; by rewrite Es|exact H10].
  - intros i Hi. rewrite <- Es. by apply H11.
  - intros v Hv. cbn [rs_db] in *. rewrite <- Ed. by apply H12.
Qed.

Lemma no_zero_node_ext (d : Z) (leaf leaf' : Z -> Z) :
  (forall i, leaf i = leaf' i) -> no_zero_node d leaf -> no_zero_node d leaf'.
Proof.
  intros E H l i Hin H0. apply (H l i Hin).
  rewrite <- H0. unfold tree_nodes. apply merkle_ext; [apply Hin|]. intros j _. apply E.
Qed.

(** * The job's view of the chain

    The job's descriptor, the contract bound to its address and the ids of its events; the
    registry's metadata, its leaves and index before block [first], and the database then; the
    block at which the job starts or is resumed. *)
Context (jd : JobDescriptor) (parser : BoundContract) (events : string -> gobytes) (chain : Z -> list Log).
Context (meta : Metadata) (leaf0 : Z -> Z) (idx0 : Z -> option Z) (first : Z) (db0 : DB) (start : Z).

(** The operation that an event asks for; a log that was removed asks for none. *)
Definition log_operation (log : Log) : option LeafOperation :=
  if Log_Removed log then None
  else match UnpackLog parser EventCertificateProcessed log with
       | inl _ => None
       | inr cp => Some (mkLeafOperation (mkTreeLeaf (CP_LeafIndex cp) (be_value (CP_ZkCertificateLeafHash cp)))
                    (if CP_Operation cp =? 0 then OperationAddition else OperationRevocation))
       end.

Definition chain_operations (a b : Z) : list LeafOperation := omap log_operation (block_logs chain a b).

(** An event of the registry's contract: a known operation on a leaf of the tree. *)
Definition event_ok (log : Log) : Prop :=
  Log_Removed log = true \/
  exists cp rest, Log_Removed log = false /\ Log_Topics log = events EventCertificateProcessed :: rest /\
    UnpackLog parser EventCertificateProcessed log = inr cp /\ (CP_Operation cp = 0 \/ CP_Operation cp = 1) /\
    0 <= CP_LeafIndex cp < 2 ^ Meta_Depth meta /\ in_field (be_value (CP_ZkCertificateLeafHash cp)).

(** The leaves and the index after block [n]. *)
Definition leaves_after (n : Z) : Z -> Z := abs_leaves (Meta_EmptyValue meta) leaf0 (chain_operations first n).
Definition indices_after (n : Z) : Z -> option Z := abs_indices idx0 (chain_operations first n).

Record chain_ok : Prop := {
  co_abi : GetAbi = inr events;
  co_bind : NewZkCertificateRegistryFilterer (Job_Address jd) = inr parser;
  co_key : storage_key_ok (JobKey jd);
  co_encode : forall n, 0 <= n < 2 ^ 64 -> exists jb, encode_job (mkJob jd n) = inr jb;
  co_events : forall n log, first <= n -> In log (chain n) -> event_ok log;
  co_nodes : forall n, first <= n -> no_zero_node (Meta_Depth meta) (leaves_after n);
}.

(** * The job's promise *)

(** The registry holds what the blocks before [n] say, and the job's record says so; nothing
    else in the database has changed. *)
Record indexed (n : Z) (r : registry_state) : Prop := {
  ind_models : reg_models r (leaves_after (n - 1)) (indices_after (n - 1));
  ind_object : object_of meta (rs_reg r);
  ind_record : first < n -> exists jb, encode_job (mkJob jd (n - 1)) = inr jb /\
    contents (rs_db r) !! makeJobKey jd = Some jb;
  ind_rest : forall k, storage_key_ok k -> ~ belongs_to (Meta_Index meta) jd k ->
    contents (rs_db r) !! key_bytes k = contents db0 !! key_bytes k;
}.

Definition head_flag (m : Mode) (r : registry_state) : Prop :=
  ((m = ModePoll \/ m = ModeWS) -> IsOnHead (reg_progressTracker (rs_reg r)) = true) /\
  (m = ModeHistory -> IsOnHead (reg_progressTracker (rs_reg r)) = false).

(** All blocks before [b] are indexed.  At the start block [b] may be indexed too: a job that
    is resumed starts with the last block of its record again. *)
Definition job_indexed (m : Mode) (b : Z) (s : job_state) : Prop :=
  (exists n, first <= b /\ (n = b \/ b = start /\ n = b + 1) /\ indexed n (js_registry s)) /\
  (js_parser s = None \/ js_parser s = Some parser) /\ head_flag m (js_registry s).

Definition job_in_range (m : Mode) (b : Z) (don : list Log) (ctx : job_ctx) (s : job_state) : Prop :=
  job_indexed m b s /\
  exists k buffer, ctx = Some k /\ js_buffers s !! k = Some buffer /\
    (ops_len buffer <= length (ops_array buffer))%nat /\ Operations buffer = omap log_operation don.

(** A registry object that is made again for a database with the same contents. *)
Lemma indexed_reopened (n : Z) (r : registry_state) (d : DB) (w : world) :
  contents d = contents (rs_db r) -> indexed n r ->
  indexed n (mkRegistryState (new_registry_object meta (Meta_Index meta)) d w).
Proof.
  intros Ed Hi. destruct Hi as [Hm Ho Hrec Hrest]. split; cbn [rs_db rs_reg]; rewrite ?Ed; try done.
  - apply (reg_models_contents (mkRegistryState (with_progress NewProgress (new_registry_object meta
      (Meta_Index meta)))
      (rs_db r) w)); [done|cbn [rs_db]; by rewrite Ed|]. by apply reopened_models.
  - apply object_of_new.
Qed.

(** ** The handler's methods *)

Lemma indexed_buffers (m : Mode) (b : Z) (s : job_state) (p : option BoundContract) (bufs : list OperationsBuffer) :
  job_indexed m b s -> p = None \/ p = Some parser -> job_indexed m b (mkJobState (js_registry s) p bufs).
Proof. intros (Hn & _ & Hf) Hp. by split. Qed.

Lemma job_prepare (m : Mode) (b : Z) (s : job_state) :
  job_indexed m b s ->
  exists c s', runs (job_PrepareContext None) s c s' /\ job_in_range m b [] c s'.
Proof.
  intros H. eexists (Some (length (js_buffers s))), _. split; [reflexivity|]. split.
  - apply indexed_buffers; [done|apply H].
  - eexists _, _. split; [done|]. cbn [js_buffers]. rewrite lookup_app_r by lia. rewrite Nat.sub_diag. done.
Qed.

Context (Hok : chain_ok).

Lemma getParserLazy_ok (m : Mode) (b : Z) (s : job_state) :
  job_indexed m b s ->
  runs (getParserLazy jd) s parser (mkJobState (js_registry s) (Some parser) (js_buffers s)).
Proof.
  intros (_ & Hp & _). unfold runs, getParserLazy. destruct s as [r p bufs].
      cbn [js_parser js_registry js_buffers] in *.
  destruct Hp as [-> | ->]; [by rewrite (co_bind Hok)|done].
Qed.

Lemma job_append (m : Mode) (b : Z) (don : list Log) (log : Log) (op : LeafOperation) (k : nat) (s : job_state) :
  job_in_range m b don (Some k) s -> log_operation log = Some op ->
  exists s', runs (on_buffer k (append_operation op)) (mkJobState (js_registry s) (Some parser) (js_buffers s))
      tt s' /\
    job_in_range m b (don ++ [log]) (Some k) s'.
Proof.
  intros (Hi & k' & buffer & [= <-] & Hb & Hl & Ho) Hop. eexists. split; [reflexivity|].
  destruct (Operations_append op buffer Hl) as [Ea Hl']. split; [exact (indexed_buffers m b s (Some parser)
      _ Hi (or_intror eq_refl))|].
  exists k, (append_operation op buffer). split; [done|]. cbn [js_buffers].
  split; [by rewrite list_lookup_alter_eq, Hb|]. split; [done|].
  rewrite Ea, Ho, omap_app. cbn. by rewrite Hop.
Qed.

Lemma event_index (x : Z) : 1 <= Meta_Depth meta <= 32 -> 0 <= x < 2 ^ Meta_Depth meta -> u32 (u64 x) = x.
Proof.
  intros Hd Hx. assert (2 ^ Meta_Depth meta <= 2 ^ 32) by (apply Z.pow_le_mono_r; lia).
  unfold u64, u32. rewrite (Z.mod_small x (2 ^ 64)) by lia. rewrite Z.mod_small; lia.
Qed.

Lemma indexed_depth (n : Z) (r : registry_state) :
  indexed n r -> depth (reg_tree r) = Meta_Depth meta /\ emtpyLeaf (reg_tree r) = Meta_EmptyValue meta /\
    reg_index r = Meta_Index meta /\ 1 <= Meta_Depth meta <= 32.
Proof.
  intros H. destruct (ind_object _ _ H) as (levels & p & E). pose proof (depth_range _ _ _ (ind_models _ _ H)) as Hd.
  unfold reg_tree, reg_index in *. rewrite E in *. cbn in *. done.
Qed.

Lemma job_handle (m : Mode) (b n : Z) (don : list Log) (log : Log) (c : job_ctx) (s : job_state) :
  job_in_range m b don c s -> b <= n -> In log (chain n) ->
  exists s', runs (job_HandleEVMLog jd c log) s tt s' /\ job_in_range m b (don ++ [log]) c s'.
Proof.
  intros Hr Hn Hin. pose proof Hr as (Hi & k & buffer & -> & Hb & Hl & Ho).
  pose proof Hi as ((n' & Hfirst & Hn' & Hx) & _). destruct (indexed_depth _ _ Hx) as (_ & _ & _ & Hd).
  unfold job_HandleEVMLog. destruct (co_events Hok n log) as [Hrem|(cp & rest & Hrem & Ht & Hu & Hop & Hix & Hf)];
    [lia|done| |].
  { exists s. split.
    - eapply runs_bind; [apply runs_wrap, runs_res; by rewrite (co_abi Hok)|]. by rewrite Hrem.
    - split; [done|]. exists k, buffer. split; [done|]. split; [done|]. split; [done|].
      rewrite Ho, omap_app. cbn. unfold log_operation. by rewrite Hrem, app_nil_r. }
  assert (exists op, log_operation log = Some op /\ forall s', runs (handleCertificateProcessedLog jd (Some k)
      log) s tt s' <->
    runs (on_buffer k (append_operation op)) (mkJobState (js_registry s) (Some parser) (js_buffers s)) tt s')
    as (op & Eop & Hrun).
  { unfold log_operation. rewrite Hrem, Hu. eexists. split; [done|]. intros s'.
    unfold handleCertificateProcessedLog, runs.
    rewrite (bind_runs _ _ _ _ _ (runs_wrap _ _ _ _ _ _ (getParserLazy_ok m b s Hi))).
    rewrite (bind_runs _ _ _ _ cp) by (apply runs_wrap, runs_res; unfold ParseCertificateProcessed; by rewrite Hu).
    rewrite (event_index _ Hd Hix), (FromBig_fits _ (field_256 _ Hf)). cbn [OperationsBufferFromContext].
    destruct Hop as [-> | ->]; done. }
  destruct (job_append m b don log op k s Hr Eop) as (s' & R & Hr'). exists s'. split; [|done].
  eapply runs_bind; [apply runs_wrap, runs_res; by rewrite (co_abi Hok)|].
  rewrite Hrem, Ht, bool_decide_true by done. apply runs_wrap. by apply Hrun.
Qed.

(** ** Committing a range *)

Lemma chain_operations_split (a b c : Z) :
  a <= b -> b <= c + 1 -> chain_operations a c = chain_operations a (b - 1) ++ chain_operations b c.
Proof. intros Hab Hbc. unfold chain_operations. by rewrite (block_logs_split chain a b c), omap_app. Qed.

Lemma leaves_step (n a b i : Z) :
  first <= a -> a <= n <= a + 1 -> a <= b ->
  abs_leaves (Meta_EmptyValue meta) (leaves_after (n - 1)) (chain_operations a b) i = leaves_after b i.
Proof.
  intros Hf Hn Hab. unfold leaves_after at 2. rewrite (chain_operations_split first a b), abs_leaves_app by lia.
  change (abs_leaves (Meta_EmptyValue meta) leaf0 (chain_operations first (a - 1))) with (leaves_after (a - 1)).
  assert (n = a \/ n = a + 1) as [-> | ->] by lia; [done|].
  replace (a + 1 - 1) with a by lia. unfold leaves_after at 1.
  rewrite (chain_operations_split first a a), (chain_operations_split a (a + 1) b), !abs_leaves_app by lia.
  replace (a + 1 - 1) with a by lia. apply abs_leaves_ext. intros j. apply abs_leaves_again.
Qed.

Lemma indices_step (n a b v : Z) :
  first <= a -> a <= n <= a + 1 -> a <= b ->
  abs_indices (indices_after (n - 1)) (chain_operations a b) v = indices_after b v.
Proof.
  intros Hf Hn Hab. unfold indices_after at 2. rewrite (chain_operations_split first a b), abs_indices_app by lia.
  change (abs_indices idx0 (chain_operations first (a - 1))) with (indices_after (a - 1)).
  assert (n = a \/ n = a + 1) as [-> | ->] by lia; [done|].
  replace (a + 1 - 1) with a by lia. unfold indices_after at 1.
  rewrite (chain_operations_split first a a), (chain_operations_split a (a + 1) b), !abs_indices_app by lia.
  replace (a + 1 - 1) with a by lia. apply abs_indices_ext. intros w. apply abs_indices_again.
Qed.

Lemma chain_operations_ok (a b : Z) :
  first <= a -> Forall (operation_ok (Meta_Depth meta)) (chain_operations a b).
Proof.
  intros Ha. apply Forall_forall. intros op Hop. apply list_elem_of_omap in Hop as (log & Hin & Hop).
  apply list_elem_of_In, block_logs_in in Hin as (n & Hn & Hin). unfold log_operation in Hop.
  destruct (co_events Hok n log) as [Hrem|(cp & rest & Hrem & Ht & Hu & Ho & Hix & Hf)];
      [lia|done|by rewrite Hrem in Hop|].
  rewrite Hrem, Hu in Hop. injection Hop as <-. split; [|done].
  cbn. destruct (CP_Operation cp =? 0); [by left|by right].
Qed.

Lemma indexed_commit (n a b : Z) (r : registry_state) (buf : OperationsBuffer) :
  first <= a -> a <= n <= a + 1 -> 0 <= a <= b -> b < 2 ^ 64 -> indexed n r ->
      Operations buf = chain_operations a b ->
  exists r', runs (Job_Commit jd buf b) r tt r' /\ indexed (b + 1) r' /\
    reg_progressTracker (rs_reg r') = reg_progressTracker (rs_reg r).
Proof.
  intros Hf Hn Hab Hb Hi Ho. destruct (indexed_depth _ _ Hi) as (Ed & Ee & Er & Hd).
  destruct (co_encode Hok b) as [jb Hjb]; [lia|].
  assert (forall i, leaves_after b i = abs_leaves (emtpyLeaf (reg_tree r)) (leaves_after (n - 1)) (Operations buf) i)
    as El by (intros i; rewrite Ee, Ho; symmetry; apply leaves_step; lia).
  destruct (Job_Commit_models r _ _ jd buf b jb (ind_models _ _ Hi) (co_key Hok) Hjb)
    as (r' & R & Hm & Ed' & Ee' & Hsame & Hrec & Hrest).
  { rewrite Ed, Ho. by apply chain_operations_ok. }
  { rewrite Ed. apply (no_zero_node_ext _ _ _ El). apply (co_nodes Hok). lia. }
  exists r'. split; [done|]. split; [split|].
  - replace (b + 1 - 1) with b by lia. revert Hm. apply reg_models_ext; [done|]. intros v.
    rewrite Ho. apply indices_step; lia.
  - by apply (object_of_same _ (rs_reg r)), Hi.
  - intros _. exists jb. by replace (b + 1 - 1) with b by lia.
  - intros k Hk Hb'. rewrite Hrest; [by apply (ind_rest _ _ Hi)|done|by rewrite Er].
  - destruct Hsame as [levels ->]. done.
Qed.

Lemma job_commit (m : Mode) (a b : Z) (c : job_ctx) (s : job_state) :
  0 <= a <= b -> b < 2 ^ 64 -> job_in_range m a (block_logs chain a b) c s ->
  exists s', runs (job_Commit jd c b) s tt s' /\ job_indexed m (b + 1) s'.
Proof.
  intros Hab Hb (((n & Hf & Hn & Hi) & Hp & Hflag) & k & buffer & -> & Hk & _ & Ho).
  destruct (indexed_commit n a b (js_registry s) buffer Hf ltac:(lia) Hab Hb Hi Ho) as (r' & R & Hi' & Eflag).
  exists (mkJobState r' (js_parser s) (js_buffers s)). split.
  - unfold job_Commit. cbn [OperationsBufferFromContext]. eapply runs_bind.
    { unfold runs, get_buffer. rewrite Hk. reflexivity. }
    unfold runs, on_job_registry. unfold runs in R. by rewrite R.
  - split; [exists (b + 1); split; [lia|split; [by left|done]]|]. split; [done|].
    unfold head_flag in *. cbn [js_registry]. by rewrite Eflag.
Qed.

(** ** Modes *)

Lemma indexed_progress (n : Z) (r : registry_state) (p : Progress) :
  indexed n r ->
  indexed n (mkRegistryState (with_progress p (rs_reg r)) (rs_db r) (rs_world r)).
Proof.
  intros Hi. destruct Hi as [Hm (levels & p' & E) Hrec Hrest]. split; [destruct Hm; by split|by rewrite E;
      exists levels, p|done|done].
Qed.

Lemma job_mode (m m' : Mode) (b : Z) (s : job_state) :
  job_indexed m b s -> exists s', runs (job_OnIndexerModeChange m') s tt s' /\ job_indexed m' b s'.
Proof.
  intros ((n & Hf & Hn & Hi) & Hp & _).
  assert (exists r', snd (job_OnIndexerModeChange m' s) = mkJobState r' (js_parser s) (js_buffers s) /\
    fst (job_OnIndexerModeChange m' s) = Ok tt /\ indexed n r' /\ head_flag m' r') as (r' & E & E' & Hi' & Hf').
  { unfold job_OnIndexerModeChange, on_job_registry, head_flag.
    destruct (String.eqb_spec m' ModeWS) as [->|H1]; [|destruct (String.eqb_spec m' ModePoll) as [->|H2];
      [|destruct (String.eqb_spec m' ModeHistory) as [->|H3]]]; cbn [orb];
      try destruct (IsOnHead (reg_progressTracker (rs_reg (js_registry s)))) eqn:Eh; cbn [negb];
      (eexists; split; [reflexivity|]; split; [reflexivity|]); (split; [done || by apply indexed_progress|]);
      (split; [intros [?|?]|intros ?]); done || congruence. }
  exists (mkJobState r' (js_parser s) (js_buffers s)). split.
  - rewrite <- E. by apply runs_snd.
  - split; [by exists n|done].
Qed.

(** The registry job is a handler that the indexer can rely on. *)
#[export] Instance registry_job_laws :
  JobHandlerLaws (ZkCertificateRegistryJob_JobHandler jd) None chain job_indexed job_in_range.
Proof. split; [apply job_prepare|apply job_handle|apply job_commit|apply job_mode]. Qed.
End Job.
