(* ===== verification/IndexerTheorems.v ===== *)
(** What the indexer does for its jobs: in polling mode the registry job keeps up with the
    chain and a resumed job loses nothing; with a subscription the history is complete up to
    the subscription, unless it fits into one range. *)

From stdpp Require Import base list numbers strings gmap.
From Stdlib Require Import ZArith Lia.
From S2P Require Import Prelude GoBase MerkleSpec SparseTree SparseTreeFacts SparseTreeInsert SparseTreeProofs.
From S2P Require Import SparseTreeSimulation Storage StorageFacts GoInstance Registry RegistryFacts RegistryRuns.
From S2P Require Import RegistryTheorems Service ServiceFacts Jobs Indexer IndexerFacts IndexerWsFacts.
From S2P Require Import RegistryJob RegistryJobFacts.
Local Open Scope Z_scope.

(** * Configuration *)

Lemma default_mode (config : Config) :
  Config_IndexerMode config = "" \/ Config_IndexerMode config = ModePoll ->
  Config_IndexerMode (NewEVMIndexer config) = ModePoll.
Proof.
  destruct config as [d n t m p]. cbn [Config_IndexerMode]. unfold NewEVMIndexer.
  cbn [Config_MaxBlocksDistance]. intros [-> | ->];
    repeat (cbn [Config_MaxBlocksDistance Config_SinkChannelSize Config_SinkProgressTick Config_IndexerMode
              Config_PollingInterval String.eqb]; try done; case_match; try done).
Qed.

Lemma default_distance (config : Config) :
  Config_MaxBlocksDistance (NewEVMIndexer config) =
  if Config_MaxBlocksDistance config =? 0 then MaxBlocksDistance else Config_MaxBlocksDistance config.
Proof.
  destruct config as [d n t m p]. unfold NewEVMIndexer. cbn [Config_MaxBlocksDistance].
  destruct (d =? 0); repeat (cbn [Config_MaxBlocksDistance Config_SinkChannelSize Config_SinkProgressTick
    Config_IndexerMode Config_PollingInterval]; try done; case_match; try done).
Qed.

(** * Polling *)

Section Polling.
Context {U256 : Uint256} {UL : Uint256Laws U256} {PH : Poseidon} {PL : PoseidonLaws PH} {GE : GoEnv}.
Context {KV : KVDatabase} {KL : KVDatabaseLaws KV} {JC : JobCodec} {CE : ContractEvents} {EC : EthereumClient}.

(** C6: In polling mode (also the default) the registry job keeps up with the chain.  Whatever
    block [T] the chain reaches, the run gets to a state in which the registry in the database
    holds exactly what the operations of all events up to some block [b - 1 >= T] make, the
    job's record says [b - 1], and all that does not belong to the registry is untouched; it
    never returns and never fails.  The run may start at a new registry or at the last block
    of the job's record, which is then indexed a second time.  When the chain stands still at
    [T], exactly the blocks up to [T] are indexed and the registry is marked as on the head. *)
Theorem polling_job_catches_up (jd : JobDescriptor) (parser : BoundContract) (events : string -> gobytes)
    (chain : Z -> list Log) (meta : Metadata) (leaf0 : Z -> Z) (idx0 : Z -> option Z) (first : Z) (db0 : DB)
    (height : nat -> Z) (query : FilterQuery) (config : Config) (r : registry_state) (start T : Z) (K : nat) :
  context_active -> chain_ok jd parser events chain meta leaf0 first -> knows_chain chain height query ->
  Config_IndexerMode config = "" \/ Config_IndexerMode config = ModePoll ->
  0 <= Config_MaxBlocksDistance config ->
  (forall k, height k + Config_MaxBlocksDistance (NewEVMIndexer config) < 2 ^ 64) ->
  0 <= first <= start -> start <= height 0%nat -> start <= T ->
  indexed jd parser chain meta leaf0 idx0 first db0 start r \/
    indexed jd parser chain meta leaf0 idx0 first db0 (start + 1) r ->
  (forall k, (K <= k)%nat -> T <= height k) ->
  exists fuel0, forall fuel, (fuel0 <= fuel)%nat -> exists b s',
    IndexEVMLogs (ZkCertificateRegistryJob_JobHandler jd) fuel (NewEVMIndexer config) query None start
      (new_run (NewZkCertificateRegistryJob r)) = (OutOfFuel, s') /\
    T < b /\ indexed jd parser chain meta leaf0 idx0 first db0 b (js_registry (ix_job s')) /\
    ((forall k, height k <= T) ->
     b = T + 1 /\ IsOnHead (reg_progressTracker (rs_reg (js_registry (ix_job s')))) = true).
Proof.
  intros Hctx Hok Hchain Hmode Hdist Hheight Hfirst Hstart HT Hr HK.
  exists (Datatypes.S (Z.to_nat (T + 1 - start) + K)). intros fuel Hfuel.
  pose proof (registry_job_laws jd parser events chain meta leaf0 idx0 first db0 start Hok) as HL.
  destruct (IndexEVMLogs_polls (HL := HL) (config := NewEVMIndexer config) Hctx Hchain) with (fuel := fuel)
    (m0 := ""%string) (startBlock := start) (s := new_run (NewZkCertificateRegistryJob r))
    as (m & b & s' & E & Hp).
  - rewrite default_distance. unfold MaxBlocksDistance. destruct (Z.eqb_spec (Config_MaxBlocksDistance config)
      0); lia.
  - done.
  - by apply default_mode.
  - cbn. lia.
  - done.
  - split; [|split; [by left|by split; [intros [[=]|[=]]|intros [=]]]].
    destruct Hr as [Hr|Hr]; [exists start|exists (start + 1)]; (split; [lia|]); (split; [|exact Hr]);
        [by left|by right].
  - destruct Hp as (((n & _ & Hn & Hi) & _ & Hflag & _) & Hsb & Hseen & Hm & HTb).
    assert (T < b) as Hb by (apply (HTb T K HK); lia).
    assert (n = b) as -> by lia. exists b, s'. split; [exact E|]. split; [done|]. split; [exact Hi|].
    intros Hlow. destruct (Hseen ltac:(lia)) as (k & _ & Hk). specialize (Hlow k) as Hlk. split; [lia|].
    destruct Hm as [-> |(cur & Hcur & k' & _ & Hk')]; [apply Hflag; by left|].
    specialize (Hlow k'). lia.
Qed.
End Polling.

(** * Subscriptions *)

Section Subscription.
Context {GE : GoEnv} {EC : EthereumClient} {S C : Type} (handler : JobHandler S C) (ctx : C).
Context (chain : Z -> list Log) (I : Mode -> Z -> S -> Prop) (J : Mode -> Z -> list Log -> C -> S -> Prop).
Context (height : nat -> Z) (query : FilterQuery) (config : Config).

(** A node whose chain only grows and whose subscriptions do not fail. *)
Record good_node : Prop := {
  gn_chain : knows_chain chain height query;
  gn_max : 1 <= Config_MaxBlocksDistance config < 2 ^ 64 - 1;
  gn_height : forall k, height k + Config_MaxBlocksDistance config < 2 ^ 64;
  gn_grows : forall k k', (k <= k')%nat -> height k <= height k';
  gn_subscribes : forall k q, SubscribeFilterLogs k q = None;
  gn_no_error : forall k, subscription_Err k = None;
}.

Lemma IndexEVMLogs_reads (start : Z) (m : Mode) (j : S) :
  JobHandlerLaws handler ctx chain I J -> knows_chain chain height query -> start <= height 0%nat -> I m start j ->
  exists j', I ModeHistory start j' /\ forall fuel,
    let s := mkIndexerState j' [CallBlockNumber] 0 0 false None in
    IndexEVMLogs handler fuel config query ctx start (new_run j) =
    (let! (fromBlock, started) := index_loop handler fuel config query ctx start (height 0%nat) false false in
     if negb (String.eqb (Config_IndexerMode config) ModeWS) then go_ret tt
     else let! _ := if started then go_ret true else startSubscription query fromBlock in
       runSinkIndexation handler fuel ctx fromBlock) s.
Proof.
  intros HL Hchain Hstart Hi. destruct (mode_law m ModeHistory start j Hi) as (j' & R & Hi').
  exists j'. split; [done|]. intros fuel. unfold IndexEVMLogs.
  rewrite (bind_runs _ _ _ _ _ (get_block_number_runs Hchain (new_run j))).
  cbn [new_run ix_calls length]. rewrite (proj2 (Z.ltb_ge _ _)) by done.
  match goal with |- context [go_bind (on_job ?f) _ ?s1] =>
    rewrite (bind_runs _ _ _ _ _ (on_job_runs f s1 tt j' R)) end.
  reflexivity.
Qed.

(** C19: With a subscription, a history of more than one range is complete: the indexer
    subscribes before it has read the history to its end, asks for the block number again
    after that, and hands over to the subscription at the block after that number, with all
    blocks before it indexed.  No block that the chain had when the subscription started is
    left to the subscription. *)
Theorem ws_history_is_complete (start : Z) (m : Mode) (j : S) :
  JobHandlerLaws handler ctx chain I J -> context_active -> good_node ->
  Config_IndexerMode config = ModeWS -> 0 <= start ->
  start + Config_MaxBlocksDistance config <= height 0%nat -> I m start j ->
  exists fuel0, forall fuel, (fuel0 <= fuel)%nat -> exists before q after s,
    IndexEVMLogs handler fuel config query ctx start (new_run j) =
      runSinkIndexation handler fuel ctx (height (length before + 1) + 1) s /\
    I ModeHistory (height (length before + 1) + 1) (ix_job s) /\
    ix_calls s = before ++ [CallSubscribeFilterLogs q; CallBlockNumber] ++ after /\ Forall is_filter after.
Proof.
  intros HL Hctx Hn Hmode Hs Hlong Hi.
  destruct (IndexEVMLogs_reads start m j HL (gn_chain Hn)) as (j' & Hi' & E); [pose proof (gn_max Hn); lia|done|].
  destruct (ws_long Hctx (gn_chain Hn) (gn_max Hn) (gn_height Hn) (gn_grows Hn) (gn_subscribes Hn) (gn_no_error Hn)
    Hmode start (height 0%nat) (mkIndexerState j' [CallBlockNumber] 0 0 false None)) as (fuel0 & H);
    [done|done|exists 0%nat; split; [cbn; lia|done]|done|done|].
  exists fuel0. intros fuel Hf. destruct (H fuel Hf) as (h & s' & q & before & after & R & Hh & _ & Hc & _ & Ha & ->).
  exists (CallBlockNumber :: before), q, after, s'. split; [|by rewrite Hc].
  rewrite E, (bind_runs _ _ _ _ _ R), Hmode. reflexivity.
Qed.

(** C26: With a subscription, a history that fits into one range leaves a gap: the difference
    of the block numbers wraps around, so the indexer subscribes only after the loop, and it
    does not ask for the logs of any block after the first block number it read.  An event in
    a block that came between that number and the subscription is never seen. *)
Theorem ws_short_history_gap (start : Z) (m : Mode) (j : S) (fuel : nat) :
  JobHandlerLaws handler ctx chain I J -> context_active -> good_node ->
  Config_IndexerMode config = ModeWS -> 0 <= start <= height 0%nat ->
  height 0%nat < start + Config_MaxBlocksDistance config -> I m start j -> (2 <= fuel)%nat ->
  exists n, ix_calls (snd (IndexEVMLogs handler fuel config query ctx start (new_run j))) =
    [CallBlockNumber; CallFilterLogs (set_blocks query (Some start) (Some (height 0%nat)));
     CallSubscribeFilterLogs (mkFilterQuery (Query_Addresses query) (Query_Topics query) None None)] ++
    replicate n CallBlockNumber.
Proof.
  intros HL Hctx Hn Hmode Hs Hshort Hi Hf. destruct fuel as [|[|fuel]]; [lia|lia|].
  destruct (IndexEVMLogs_reads start m j HL (gn_chain Hn)) as (j' & Hi' & E); [lia|done|].
  destruct (ws_short Hctx (gn_chain Hn) (gn_max Hn) (gn_height Hn) Hmode fuel start (height 0%nat)
    (mkIndexerState j' [CallBlockNumber] 0 0 false None)) as (s1 & R1 & _ & Hu & Hc1);
    [done|done|exists 0%nat; split; [cbn; lia|done]|done|done|].
  rewrite E, (bind_runs _ _ _ _ _ R1), Hmode. cbn [String.eqb negb].
  destruct (startSubscription_runs (gn_subscribes Hn) (gn_no_error Hn) query (height 0%nat + 1) s1 Hu)
    as (s2 & R2 & _ & _ & Hc2).
  change (negb (String.eqb ModeWS ModeWS)) with false. cbn iota beta. rewrite (bind_runs _ _ _ _ _ R2).
  destruct (runSinkIndexation_calls handler (Datatypes.S (Datatypes.S fuel)) ctx (height 0%nat + 1) s2) as [n En].
  exists n. rewrite En, Hc2, Hc1. reflexivity.
Qed.
End Subscription.

(** * Ranges that fail *)

Section Failure.
Context {U256 : Uint256} {PH : Poseidon} {GE : GoEnv} {KV : KVDatabase} {JC : JobCodec} {CE : ContractEvents}.

Lemma CommitOperations_loop_state (ops : list LeafOperation) (leaves : list TreeLeaf) (s : commit_state) :
  fst (snd (CommitOperations_loop ops leaves s)) = fst s.
Proof.
  revert leaves s. induction ops as [|op ops IH]; intros leaves s; [done|]. cbn [CommitOperations_loop].
  unfold go_bind at 1, get_registry. destruct (Operation_Op op =? OperationAddition);
      [|destruct (Operation_Op op =? OperationRevocation); [|done]];
    unfold go_bind, go_wrap, on_batch_of;
    match goal with |- context [match ?m (snd s) with _ => _ end] => destruct (m (snd s)) as [[[]|e|] b] end;
    cbn [wrap_res]; by rewrite ?IH.
Qed.

Lemma CommitOperations_db (ops : list LeafOperation) (s : commit_state) :
  rs_db (fst (snd (CommitOperations ops s))) = rs_db (fst s).
Proof.
  unfold CommitOperations, go_bind. pose proof (CommitOperations_loop_state ops [] s) as E.
  destruct (CommitOperations_loop ops [] s) as [[leaves|e|] s1]; cbn [snd] in E; [|by rewrite <- E..].
  unfold go_wrap, insert_into_batch, run_tree. destruct (InsertLeaves leaves _) as [r s2]. cbn. by rewrite E.
Qed.

(** What a commit does to the database: nothing, or one write of one batch. *)
Lemma Job_Commit_writes (jd : JobDescriptor) (buf : OperationsBuffer) (block : Z) (s : registry_state) :
  let (r, s') := Job_Commit jd buf block s in
  (r <> Ok tt /\ rs_db s' = rs_db s) \/
  exists s1 batch r0, runs (fill_batch jd (Operations buf) block) (s, DB_NewBatch (rs_db s)) tt (s1, batch) /\
    Batch_WriteSync batch (rs_db s) = (r0, rs_db s') /\ (r = Ok tt <-> r0 = Ok tt).
Proof.
  unfold Job_Commit, runs, fill_batch. set (operations := Operations buf).
  set (first_part := if (0 <? length operations)%nat then _ else _).
  assert (rs_db (fst (snd (first_part (s, DB_NewBatch (rs_db s))))) = rs_db s) as E1.
  { unfold first_part. destruct (0 <? length operations)%nat; [|done]. unfold go_wrap.
    pose proof (CommitOperations_db operations (s, DB_NewBatch (rs_db s))) as E.
    by destruct (CommitOperations operations (s, DB_NewBatch (rs_db s))). }
  unfold go_bind. destruct (first_part (s, DB_NewBatch (rs_db s))) as [[[]|e|] [s1 b1]]; cbn [fst snd] in *;
    [|by left|by left].
  unfold go_wrap, on_batch_of. cbn [fst snd].
  destruct (UpsertJob (mkJob jd block) b1) as [[[]|e|] b2]; cbn [wrap_res fst]; [|by left|by left].
  unfold writeBatchWithLock. cbn [fst snd]. destruct (Batch_WriteSync b2 (rs_db s1)) as [r0 d'] eqn:Ew.
  right. exists s1, b2, r0. cbn [fst rs_db]. rewrite <- E1, Ew. split; [done|]. split; [done|].
  destruct r0 as [[]|e|]; by split.
Qed.

(** C18: a range of blocks is indexed as a whole or not at all.  Whatever the logs are, the
    registry job changes the database by at most one write, of one new batch that was filled
    with operations and the job's record together.  When anything before that write fails (a
    log without topics, an unknown event or operation, an error of the tree or the
    encoding), the database is as before the range. *)
Theorem range_is_one_write (jd : JobDescriptor) (ctx : job_ctx) (logs : list Log) (block : Z)
    (s : indexer_state job_state) :
  let database s := rs_db (js_registry (ix_job s)) in
  let (r, s') := handleLogs (ZkCertificateRegistryJob_JobHandler jd) ctx logs block s in
  (r <> Ok tt /\ database s' = database s) \/
  exists operations s1 batch r0,
    runs (fill_batch jd operations block) (js_registry (ix_job s), DB_NewBatch (database s)) tt (s1, batch) /\
    Batch_WriteSync batch (database s) = (r0, database s') /\ (r = Ok tt <-> r0 = Ok tt).
Proof.
  intros database. unfold handleLogs, go_bind at 1, go_wrap at 1, on_job at 1.
  cbn [PrepareContext ZkCertificateRegistryJob_JobHandler].
      unfold job_PrepareContext, go_bind at 1, new_buffer, go_ret.
  cbn [wrap_res]. set (c := WithOperationsBuffer _ _). set (s1 := set_job _ s).
  change (database s) with (database s1). change (js_registry (ix_job s)) with (js_registry (ix_job s1)).
  unfold go_bind. pose proof (handle_each_registry jd c logs s1) as E.
  destruct (handle_each _ c logs s1) as [[[]|e|] s2]; cbn [snd] in E; [|left; unfold database; by rewrite E..].
  unfold go_wrap, on_job. cbn [Commit ZkCertificateRegistryJob_JobHandler].
      unfold job_Commit, c, WithOperationsBuffer.
  cbn [OperationsBufferFromContext]. unfold go_bind, get_buffer.
  destruct (js_buffers (ix_job s2) !! _) as [buf|]; [|left; unfold database; by rewrite <- E].
  unfold on_job_registry. pose proof (Job_Commit_writes jd buf block (js_registry (ix_job s2))) as H.
  destruct (Job_Commit jd buf block (js_registry (ix_job s2))) as [r r']. unfold database.
  cbn [ix_job set_job js_registry]. rewrite <- E. destruct H as [[Hr Ed]|(s3 & batch & r0 & Hfill & Ew & Hr)];
      [left|right].
  - split; [destruct r as [[]|e|]; done|exact Ed].
  - exists (Operations buf), s3, batch, r0. split; [exact Hfill|]. split; [exact Ew|]. rewrite <- Hr.
      destruct r as [[]|e|]; by split.
Qed.
End Failure.

(** * Witnesses: a chain with two certificates *)

Definition toy_log (block operation index value : Z) : Log := mkLog false [[1]] block [operation; index; value].

Definition toy_chain (n : Z) : list Log :=
  if n =? 101 then [toy_log 101 0 1 20] else if n =? 103 then [toy_log 103 0 6 30] else [].

#[export] Instance toy_events : ContractEvents := {
  BoundContract := gobytes;
  GetAbi := inr (fun _ => [1]);
  MakeTopics topics := inr topics;
  NewBoundContract address _ := address;
  UnpackLog _ _ log := match Log_Data log with
                       | [operation; index; value] => inr (mkCertificateProcessed [value] [] operation 0 index)
                       | _ => inl (ExternalError 1)
                       end;
}.

Definition toy_parser : BoundContract := toy_address.

(** A node that knows the chain; the channel has a log, then the context ends. *)
Definition toy_node (height : nat -> Z) : EthereumClient := {|
  BlockNumber k := inr (height k);
  FilterLogs _ q := match Query_FromBlock q, Query_ToBlock q with
                    | Some a, Some b => inr (block_logs toy_chain a b)
                    | _, _ => inl (ExternalError 2)
                    end;
  SubscribeFilterLogs _ _ := None;
  subscription_Err _ := None;
  sink_next k := match k with O => SinkLog (toy_log 106 0 2 40) [] | _ => SinkDone (ContextError 2) end;
|}.

Definition toy_query : FilterQuery := mkFilterQuery [toy_address] [[[1]]] None None.
Definition toy_config (mode : Mode) : Config := mkConfig 10 0 0 mode 0.

Lemma toy_node_knows (height : nat -> Z) : knows_chain (EC := toy_node height) toy_chain height toy_query.
Proof. split; [done|]. intros k k' a b _ _ _. reflexivity. Qed.

Definition toy_operation (index value : Z) : LeafOperation :=
  mkLeafOperation (mkTreeLeaf index value) OperationAddition.

Lemma toy_chain_cases (n : Z) :
  toy_chain n = [] \/ n = 101 /\ toy_chain n = [toy_log 101 0 1 20] \/ n = 103 /\ toy_chain n = [toy_log 103 0 6 30].
Proof.
  unfold toy_chain. destruct (Z.eqb_spec n 101) as [->|]; [by right; left|].
  destruct (Z.eqb_spec n 103) as [->|]; [by right; right|by left].
Qed.

Lemma toy_chain_quiet (a b : Z) : 103 < a -> block_logs toy_chain a b = [].
Proof.
  intros Ha. destruct (block_logs toy_chain a b) as [|log logs] eqn:E; [done|].
  destruct (block_logs_in toy_chain a b log) as (n & Hn & Hin); [rewrite E; by left|].
  destruct (toy_chain_cases n) as [Hc|[[-> Hc]|[-> Hc]]]; [by rewrite Hc in Hin|lia|lia].
Qed.

Lemma toy_chain_operations (n : Z) :
  100 <= n -> chain_operations toy_parser toy_chain 100 n =
    if n <? 101 then [] else if n <? 103 then [toy_operation 1 20] else [toy_operation 1 20; toy_operation 6 30].
Proof.
  intros Hn. destruct (Z.ltb_spec n 101).
  { assert (n = 100) as -> by lia. reflexivity. }
  destruct (Z.ltb_spec n 103).
  { assert (n = 101 \/ n = 102) as [-> | ->] by lia; reflexivity. }
  rewrite (chain_operations_split _ _ 100 104) by lia. unfold chain_operations at 2.
  by rewrite (toy_chain_quiet 104 n) by lia.
Qed.

Lemma toy_chain_for (m : Metadata) :
  Meta_Depth m = 3 -> Meta_EmptyValue m = 7 ->
  chain_ok toy_job toy_parser (fun _ => [1]) toy_chain m (fun _ => 7) 100.
Proof.
  intros Hd He. split.
  - reflexivity.
  - reflexivity.
  - apply toy_job_ok.
  - intros n _. eexists. reflexivity.
  - intros n log _ Hin. right.
    destruct (toy_chain_cases n) as [Hc|[[-> Hc]|[-> Hc]]]; rewrite Hc in Hin; [done| |];
      destruct Hin as [<-|[]]; eexists _, []; rewrite Hd; repeat split; try (by left); cbn; lia.
  - intros n Hn. unfold leaves_after. rewrite Hd, He, toy_chain_operations by done.
    destruct (n <? 101); [|destruct (n <? 103)]; apply no_zero_check_sound; vm_compute; reflexivity.
Qed.

Lemma toy_chain_ok : chain_ok toy_job toy_parser (fun _ => [1]) toy_chain toy_metadata (fun _ => 7) 100.
Proof. by apply toy_chain_for. Qed.

Lemma toy_indexed : indexed toy_job toy_parser toy_chain toy_metadata (fun _ => 7) (fun _ => None)
    100 ∅ 100 toy_reg_state.
Proof.
  split.
  - apply (new_registry_models toy_reg_state toy_new).
  - exists None, NewProgress. reflexivity.
  - lia.
  - done.
Qed.

(** One block per call, up to block 110. *)
Definition toy_height (k : nat) : Z := Z.min (100 + Z.of_nat k) 110.

Lemma polling_job_catches_up_witness :
  exists fuel s', IndexEVMLogs (EC := toy_node toy_height) (ZkCertificateRegistryJob_JobHandler toy_job) fuel
      (NewEVMIndexer (toy_config "")) toy_query None 100 (new_run (NewZkCertificateRegistryJob toy_reg_state)) =
      (OutOfFuel, s') /\
    IsOnHead (reg_progressTracker (rs_reg (js_registry (ix_job s')))) = true /\
    reg_models (js_registry (ix_job s')) toy_reg_leaves toy_index.
Proof.
  destruct (polling_job_catches_up (EC := toy_node toy_height) toy_job toy_parser (fun _ => [1])
      toy_chain toy_metadata
    (fun _ => 7) (fun _ => None) 100 ∅ toy_height toy_query (toy_config "") toy_reg_state 100 110 10
    toy_active_context toy_chain_ok (toy_node_knows toy_height)) as (fuel0 & H).
  - by left.
  - cbn. lia.
  - intros k. unfold toy_height. cbn. lia.
  - lia.
  - unfold toy_height. lia.
  - lia.
  - left. apply toy_indexed.
  - intros k Hk. unfold toy_height. lia.
  - destruct (H fuel0 (le_n _)) as (b & s' & E & Hb & Hi & Hhead). exists fuel0, s'. split; [exact E|].
    destruct Hhead as [-> Hh]; [intros k; unfold toy_height; lia|]. split; [exact Hh|].
    apply (ind_models _ _ _ _ _ _ _ _ _ _ Hi).
Defined.

Lemma toy_good_node (height : nat -> Z) :
  (forall k, height k <= 1000) -> (forall k k', (k <= k')%nat -> height k <= height k') ->
  good_node (EC := toy_node height) toy_chain height toy_query (toy_config ModeWS).
Proof.
  intros Hh Hg. split; [apply toy_node_knows|cbn; lia| |done|done|done].
  intros k. specialize (Hh k). cbn. lia.
Qed.

Lemma toy_job_laws (start : Z) : JobHandlerLaws (ZkCertificateRegistryJob_JobHandler toy_job) None toy_chain
  (job_indexed toy_job toy_parser toy_chain toy_metadata (fun _ => 7) (fun _ => None) 100 ∅ start)
  (job_in_range toy_job toy_parser toy_chain toy_metadata (fun _ => 7) (fun _ => None) 100 ∅ start).
Proof. apply (registry_job_laws _ _ (fun _ => [1])), toy_chain_ok. Qed.

Lemma toy_job_starts :
  job_indexed toy_job toy_parser toy_chain toy_metadata (fun _ => 7) (fun _ => None) 100 ∅ 100 "" 100
    (NewZkCertificateRegistryJob toy_reg_state).
Proof.
  split; [|split; [by left|by split; [intros [[=]|[=]]|intros [=]]]].
  exists 100. split; [lia|]. split; [by left|apply toy_indexed].
Qed.

(** Fifteen blocks of history, and the chain goes on to block 120. *)
Definition toy_growing (k : nat) : Z := if (k <=? 2)%nat then 115 else 120.

Lemma ws_history_is_complete_witness :
  exists before q after s fuel,
    IndexEVMLogs (EC := toy_node toy_growing) (ZkCertificateRegistryJob_JobHandler toy_job) fuel (toy_config ModeWS)
      toy_query None 100 (new_run (NewZkCertificateRegistryJob toy_reg_state)) =
    runSinkIndexation (EC := toy_node toy_growing) (ZkCertificateRegistryJob_JobHandler toy_job) fuel None
      (toy_growing (length before + 1) + 1) s /\
    ix_calls s = before ++ [CallSubscribeFilterLogs q; CallBlockNumber] ++ after.
Proof.
  destruct (ws_history_is_complete (EC := toy_node toy_growing) (ZkCertificateRegistryJob_JobHandler toy_job) None
    toy_chain _ _ toy_growing toy_query (toy_config ModeWS) 100 ""
    (NewZkCertificateRegistryJob toy_reg_state) (toy_job_laws 100) toy_active_context) as (fuel0 & H).
  - apply toy_good_node; [intros k|intros k k' Hk]; unfold toy_growing; repeat case_match; try lia.
    apply Nat.leb_gt in H. apply Nat.leb_le in H0. lia.
  - reflexivity.
  - lia.
  - cbn. lia.
  - apply toy_job_starts.
  - destruct (H fuel0 (le_n _)) as (before & q & after & s & E & _ & Hc & _).
    exists before, q, after, s, fuel0. split; [exact E|exact Hc].
Defined.

(** Block 105 is there when the subscription starts; block 106 comes through it. *)
Definition toy_restarted (k : nat) : Z := if (k =? 0)%nat then 100 else 105.

(** The value 20 of block 101 is never indexed, though the job's record says 106. *)
Lemma ws_short_history_gap_witness :
  let run := IndexEVMLogs (EC := toy_node toy_restarted) (ZkCertificateRegistryJob_JobHandler toy_job) 5
    (toy_config ModeWS) toy_query None 100 (new_run (NewZkCertificateRegistryJob toy_reg_state)) in
  (exists n, ix_calls (snd run) =
    [CallBlockNumber; CallFilterLogs (set_blocks toy_query (Some 100) (Some 100));
        CallSubscribeFilterLogs toy_query] ++
    replicate n CallBlockNumber) /\
  contents (rs_db (js_registry (ix_job (snd run)))) !! makeJobKey toy_job = Some (be_bytes 8 106) /\
  contents (rs_db (js_registry (ix_job (snd run)))) !! makeLeafIndexKey 0 40 = Some (index_bytes 2) /\
  contents (rs_db (js_registry (ix_job (snd run)))) !! makeLeafIndexKey 0 20 = None.
Proof.
  intros run. split; [|vm_compute; repeat split; reflexivity].
  apply (ws_short_history_gap (EC := toy_node toy_restarted) (ZkCertificateRegistryJob_JobHandler toy_job) None
    toy_chain _ _ toy_restarted toy_query (toy_config ModeWS) 100 ""
    (NewZkCertificateRegistryJob toy_reg_state) 5 (toy_job_laws 100) toy_active_context).
  - apply toy_good_node; [intros k|intros k k' Hk]; unfold toy_restarted; repeat case_match; try lia.
    apply Nat.eqb_neq in H. apply Nat.eqb_eq in H0. lia.
  - reflexivity.
  - cbn. lia.
  - cbn. lia.
  - apply toy_job_starts.
  - lia.
Defined.
