(* ===== verification/Configurator.v ===== *)
(** The set of running jobs ([internal/indexer/configurator.go]): starting and stopping jobs,
    resuming them from the storage, and bringing them in line with a configuration, as
    [RunIndexer] of [pkg/indexer/application.go] does at the start.  A started job is recorded
    with the arguments that its goroutine passes to [IndexEVMLogs]. *)

From stdpp Require Import base list numbers strings gmap.
From Stdlib Require Import ZArith Lia.
From S2P Require Import Prelude GoBase SparseTree Storage Registry Service Jobs Indexer RegistryJob.
Local Open Scope Z_scope.

(** Descriptors are keys of a map. *)
#[export] Instance JobDescriptor_eq_dec : EqDecision JobDescriptor.
Proof. solve_decision. Defined.
#[export, refine] Instance JobDescriptor_countable : Countable JobDescriptor :=
  inj_countable' (fun j => (Job_Address j, Job_Contract j, Job_StartBlock j))
    (fun p => mkJobDescriptor p.1.1 p.1.2 p.2) _.
Proof. by intros []. Defined.

(** [errors.Is(err, context.Canceled)]; [ContextError 1] is [context.Canceled]. *)
Fixpoint is_canceled (e : go_error) : bool :=
  match e with
  | ContextError code => code =? 1
  | Errorf _ _ (Some cause) => is_canceled cause
  | _ => false
  end.

(** What the scheduler decides: the order in which [range] visits a map, and the error with
    which the k-th goroutine ends after it is cancelled or by itself.  A job that goes on
    writes to the database meanwhile; these writes are left out here. *)
Class GoScheduler := {
  map_order : gmap JobDescriptor nat -> list JobDescriptor;
  job_result : nat -> option go_error;
}.

Section Code.
Context {U256 : Uint256} {PH : Poseidon} {GE : GoEnv} {KV : KVDatabase} {KI : KVIterator KV}.
Context {JC : JobCodec} {JD : JobDecoder} {MC : MetadataCodec} {RC : RegistryContract}.
Context {CE : ContractEvents} {GS : GoScheduler}.

(** The arguments of [IndexEVMLogs] in the goroutine of a job. *)
Record started_job : Type := mkStartedJob {
  sj_jobDescriptor : JobDescriptor;
  sj_startBlock : Z;
  sj_filterQuery : FilterQuery;
  sj_jobHandler : ZkCertificateRegistryJob
}.

(** [c.jobs] holds the number of the goroutine of every job; all goroutines in the order of
    their start, and those whose context was cancelled. *)
Record Configurator : Type := mkConfigurator {
  cf_service : service_state;
  cf_jobs : gmap JobDescriptor nat;
  cf_started : list started_job;
  cf_cancelled : gset nat
}.

Definition NewConfigurator (service : service_state) : Configurator := mkConfigurator service ∅ [] ∅.

Definition on_service {A : Type} (m : go service_state A) : go Configurator A :=
  fun c => let (r, service) := m (cf_service c) in
    (r, mkConfigurator service (cf_jobs c) (cf_started c) (cf_cancelled c)).

(** [c.jobs[jobDescriptor] = JobContext{...}; wg.Go(...)] *)
Definition run_job (job : started_job) : go Configurator unit :=
  fun c => (Ok tt, mkConfigurator (cf_service c) (<[sj_jobDescriptor job := length (cf_started c)]> (cf_jobs c))
                     (cf_started c ++ [job]) (cf_cancelled c)).

Definition StartJob (jobDescriptor : JobDescriptor) (startBlock : Z) : go Configurator unit :=
  let! jobHandler := go_wrap "create event handler: %w" [] (on_service (Produce jobDescriptor)) in
  let! filterQuery := go_wrap "get job filter query: %w" []
    (go_res (job_FilterQuery (job_jobDescriptor jobHandler))) in
  run_job (mkStartedJob jobDescriptor startBlock filterQuery jobHandler).

(** * Stopping *)

Definition reload_state : Type := Configurator * Batch.

Definition on_configurator {A : Type} (m : go Configurator A) : go reload_state A :=
  fun s => let (r, c) := m (fst s) in (r, (c, snd s)).
Definition on_reload_batch {A : Type} (m : go Batch A) : go reload_state A :=
  fun s => let (r, b) := m (snd s) in (r, (fst s, b)).

(** [jobContext := c.jobs[job]; delete(c.jobs, job)] *)
Definition take_job (job : JobDescriptor) : go Configurator (option nat) :=
  fun c => (Ok (cf_jobs c !! job), mkConfigurator (cf_service c) (delete job (cf_jobs c)) (cf_started c)
      (cf_cancelled c)).

Definition CancelAll (c : Configurator) : Configurator :=
  mkConfigurator (cf_service c) (cf_jobs c) (cf_started c) (list_to_set (map snd (map_to_list (cf_jobs c)))
      ∪ cf_cancelled c).

(** The goroutine of a job ends with its result.  One that returns an error, also that of its
    own cancellation, cancels all jobs before. *)
Definition job_ends (k : nat) : go Configurator (option go_error) :=
  fun c => (Ok (job_result k), match job_result k with Some _ => CancelAll c | None => c end).

(** [jobContext.CancelFunc()]; the zero [JobContext] has no function. *)
Definition cancel_job (jobContext : option nat) : go Configurator nat :=
  fun c => match jobContext with
           | Some k => (Ok k, mkConfigurator (cf_service c) (cf_jobs c) (cf_started c) ({[k]} ∪ cf_cancelled c))
           | None => (Throw (Panic "nil pointer dereference"), c)
           end.

Definition StopJob (job : JobDescriptor) : go reload_state unit :=
  let! jobContext := on_configurator (take_job job) in
  let! _ := go_wrap "delete job from storage: %w" [] (on_reload_batch (DeleteJob job)) in
  let! k := on_configurator (cancel_job jobContext) in
  let! result := on_configurator (job_ends k) in
  match result with
  | Some err => if is_canceled err then go_ret tt else go_throw (Errorf "wait for job: %w" [] (Some err))
  | None => go_ret tt
  end.

(** * Configurations *)

(** The first loop of [ReloadConfig]. *)
Fixpoint start_missing (config : list JobDescriptor) : go Configurator unit :=
  match config with
  | [] => go_ret tt
  | job :: config' =>
      let! _ := fun c => match cf_jobs c !! job with
                         | Some _ => (Ok tt, c)
                         | None => go_wrap "start job while reloading config: %w" []
                             (StartJob job (Job_StartBlock job)) c
                         end in
      start_missing config'
  end.

(** The second loop, over the jobs in the order of the map. *)
Fixpoint stop_others (config jobs : list JobDescriptor) : go reload_state unit :=
  match jobs with
  | [] => go_ret tt
  | job :: jobs' =>
      let! _ := if bool_decide (job ∈ config) then go_ret tt
                else go_wrap "stop job while reloading config: %w" [] (StopJob job) in
      stop_others config jobs'
  end.

Definition write_reload_batch : go reload_state unit :=
  fun s =>
    let (r, service) := on_sv_db (Batch_WriteSync (snd s)) (cf_service (fst s)) in
    (r, (mkConfigurator service (cf_jobs (fst s)) (cf_started (fst s)) (cf_cancelled (fst s)), snd s)).

Definition ReloadConfig (config : list JobDescriptor) : go Configurator unit :=
  let! _ := start_missing config in
  fun c =>
    let body : go reload_state unit :=
      let! _ := stop_others config (map_order (cf_jobs c)) in
      go_wrap "write batch to storage: %w" [] write_reload_batch in
    let (r, s) := body (c, DB_NewBatch (sv_db (cf_service c))) in (r, fst s).

(** [for _, job := range jobs] of [InitConfiguratorFromStorage]. *)
Fixpoint resume_jobs (activeSet : list JobDescriptor) (jobs : list Job) : go Configurator unit :=
  match jobs with
  | [] => go_ret tt
  | job :: jobs' =>
      let! _ := if bool_decide (Job_Descriptor job ∈ activeSet)
                then go_wrap "start job: %w" [] (StartJob (Job_Descriptor job) (Job_CurrentBlock job))
                else go_ret tt in
      resume_jobs activeSet jobs'
  end.

Definition select_jobs : go Configurator (list Job) :=
  on_service (fun s => let (r, w) := SelectAllJobs (sv_db s) (sv_world s) in
    (r, mkServiceState (sv_db s) (sv_objects s) (sv_registry s) w)).

Definition InitConfiguratorFromStorage (activeSet : list JobDescriptor) : go Configurator unit :=
  let! jobs := go_wrap "select all jobs: %w" [] select_jobs in
  resume_jobs activeSet jobs.

(** [RunIndexer] up to the point where it waits for the jobs. *)
Definition RunIndexer_start (jobs : list JobDescriptor) : go Configurator unit :=
  let! _ := go_wrap "init configurator: %w" [] (InitConfiguratorFromStorage jobs) in
  go_wrap "start job: %w" [] (ReloadConfig jobs).

(** * Ending *)

(** What [Wait] sends on its channel before it closes it. *)
Definition Wait (c : Configurator) : list go_error :=
  omap (fun job => k ← cf_jobs c !! job; err ← job_result k; if is_canceled err then None else Some err)
    (map_order (cf_jobs c)).
End Code.
