(* ===== verification/JobStorageFacts.v ===== *)
(** The storage of jobs as a table from descriptors to blocks: what [SelectAllJobs] and
    [SelectJob] read, and what stored and deleted jobs change. *)

From stdpp Require Import base list numbers strings gmap.
From Stdlib Require Import ZArith Lia.
From S2P Require Import Prelude GoBase SparseTree SparseTreeFacts SparseTreeProofs Storage StorageFacts.
From S2P Require Import Registry Service Jobs Configurator.
Local Open Scope Z_scope.

(** A job's encoding is not empty and is read back. *)
Class JobCodecLaws (JC : JobCodec) (JD : JobDecoder) : Prop := {
  decode_encode_job : forall job bs, encode_job job = inr bs -> decode_job bs = inr job /\ bs <> [];
}.

(** The iterator visits the records whose keys have the prefix. *)
Class KVIteratorLaws {KV : KVDatabase} (KL : KVDatabaseLaws KV) (KI : KVIterator KV) : Prop := {
  IteratePrefix_contents : forall d p, p <> [] -> exists l, DB_IteratePrefix d p = Ok l /\
    l ≡ₚ filter (fun kv => p `prefix_of` kv.1) (map_to_list (contents d));
}.

Section Facts.
Context {U256 : Uint256} {UL : Uint256Laws U256} {GE : GoEnv} {KV : KVDatabase} {KL : KVDatabaseLaws KV}.
Context {KI : KVIterator KV} {KIL : KVIteratorLaws KL KI} {JC : JobCodec} {JD : JobDecoder} {JL : JobCodecLaws JC JD}.

Abbreviation descriptor_ok jd := (storage_key_ok (JobKey jd)).

(** The records under the prefix of jobs are those of the table. *)
Record stores_jobs (m : gmap gobytes gobytes) (table : gmap JobDescriptor Z) : Prop := {
  st_records : forall key bs, m !! key = Some bs -> [JobKeyPrefix] `prefix_of` key ->
    exists jd block, key = makeJobKey jd /\ table !! jd = Some block /\ encode_job (mkJob jd block) = inr bs;
  st_table : forall jd block, table !! jd = Some block ->
    descriptor_ok jd /\ exists bs, encode_job (mkJob jd block) = inr bs /\ m !! makeJobKey jd = Some bs;
}.

Lemma job_key_inj (jd jd' : JobDescriptor) :
  descriptor_ok jd -> descriptor_ok jd' -> makeJobKey jd = makeJobKey jd' -> jd = jd'.
Proof. intros H H' E. by injection (key_bytes_inj (JobKey jd) (JobKey jd') H H' E). Qed.

Lemma job_key_prefix (jd : JobDescriptor) : [JobKeyPrefix] `prefix_of` makeJobKey jd.
Proof. by eexists. Qed.

Lemma job_key_nonempty (jd : JobDescriptor) : makeJobKey jd <> [].
Proof. done. Qed.

(** * Reading *)

Lemma SelectAllJobs_loop_ok (records : list (gobytes * gobytes)) (jobs jobs' : list Job) (w : world) :
  context_active -> Forall2 (fun r job => decode_job r.2 = inr job) records jobs' ->
  exists w', SelectAllJobs_loop records jobs w = (Ok (jobs ++ jobs'), w').
Proof.
  intros Hctx H. revert jobs w. induction H as [|[key bs] job records jobs' E _ IH]; intros jobs w.
  { exists w. by rewrite app_nil_r. }
  cbn [SelectAllJobs_loop]. cbn [snd] in E. rewrite Hctx, E. cbn [lift wrap_res].
  destruct (IH (jobs ++ [job]) (mkWorld (S (checks w)) (draws w))) as [w' E']. exists w'.
  by rewrite E', <- (assoc_L (++)).
Qed.

Definition job_entry (e : JobDescriptor * Z) : Job := mkJob e.1 e.2.

(** The record of an entry of the table. *)
Definition job_record (e : JobDescriptor * Z) : gobytes * gobytes :=
  (makeJobKey e.1, match encode_job (job_entry e) with inr bs => bs | inl _ => [] end).

Lemma stored_records (m : gmap gobytes gobytes) (table : gmap JobDescriptor Z) :
  stores_jobs m table ->
  filter (fun kv => [JobKeyPrefix] `prefix_of` kv.1) (map_to_list m) ≡ₚ map job_record (map_to_list table).
Proof.
  intros Hst. apply NoDup_Permutation.
  - apply NoDup_filter, NoDup_map_to_list.
  - apply NoDup_fmap_2_strong; [|apply NoDup_map_to_list]. intros [jd b] [jd' b'] H H' E.
    apply elem_of_map_to_list in H, H'. assert (makeJobKey jd = makeJobKey jd') as Ek by exact (f_equal fst E).
    apply job_key_inj in Ek as <-; [|by apply (st_table _ _ Hst _ _ H)|by apply (st_table _ _ Hst _ _ H')].
    f_equal. congruence.
  - intros [key bs]. rewrite list_elem_of_filter, elem_of_map_to_list, list_elem_of_fmap. cbn [fst]. split.
    + intros [Hp Hm]. destruct (st_records _ _ Hst key bs Hm Hp) as (jd & block & -> & Et & Ee).
      exists (jd, block). split; [|by apply elem_of_map_to_list]. unfold job_record, job_entry. cbn. by rewrite Ee.
    + intros ([jd block] & E & Hin). apply elem_of_map_to_list in Hin.
      destruct (st_table _ _ Hst jd block Hin) as (_ & bs' & Ee & Hm).
      unfold job_record, job_entry in E. cbn in E. rewrite Ee in E. apply pair_equal_spec in E as [-> ->].
      split; [apply job_key_prefix|done].
Qed.

Lemma SelectAllJobs_ok (d : DB) (table : gmap JobDescriptor Z) (w : world) :
  context_active -> stores_jobs (contents d) table ->
  exists jobs w', SelectAllJobs d w = (Ok jobs, w') /\ jobs ≡ₚ map job_entry (map_to_list table).
Proof.
  intros Hctx Hst. destruct (IteratePrefix_contents d [JobKeyPrefix]) as (l & E & Hl); [done|].
  rewrite (stored_records _ _ Hst) in Hl. symmetry in Hl.
  assert (Forall2 (fun r job => decode_job r.2 = inr job) (map job_record (map_to_list table))
    (map job_entry (map_to_list table))) as H.
  { apply Forall2_fmap, Forall_Forall2_diag, Forall_forall. intros [jd block] Hin. apply elem_of_map_to_list in Hin.
    destruct (st_table _ _ Hst jd block Hin) as (_ & bs & Ee & _). unfold job_record, job_entry. cbn. rewrite Ee.
    by apply decode_encode_job. }
  destruct (Permutation_Forall2 Hl H) as (jobs & Hj & HF).
  destruct (SelectAllJobs_loop_ok l [] jobs w Hctx HF) as (w' & Ew).
  exists jobs, w'. split; [unfold SelectAllJobs; by rewrite E|by symmetry].
Qed.

Lemma SelectJob_ok (d : DB) (table : gmap JobDescriptor Z) (jd : JobDescriptor) (block : Z) :
  stores_jobs (contents d) table -> table !! jd = Some block -> SelectJob d jd = Ok (mkJob jd block).
Proof.
  intros Hst Ht. destruct (st_table _ _ Hst jd block Ht) as (_ & bs & Ee & Hm). unfold SelectJob.
  rewrite Get_contents by apply job_key_nonempty. rewrite Hm. cbn. by rewrite (proj1 (decode_encode_job _ _ Ee)).
Qed.

(** * Writing *)

Inductive job_change : Type :=
| Upsert (job : Job)
| Remove (jd : JobDescriptor).

Definition change_table (table : gmap JobDescriptor Z) (c : job_change) : gmap JobDescriptor Z :=
  match c with
  | Upsert job => <[Job_Descriptor job := Job_CurrentBlock job]> table
  | Remove jd => delete jd table
  end.

Definition change_ok (c : job_change) : Prop :=
  match c with
  | Upsert job => descriptor_ok (Job_Descriptor job) /\ exists bs, encode_job job = inr bs
  | Remove jd => descriptor_ok jd
  end.

(** The storage's methods on a batch. *)
Fixpoint apply_job_changes (cs : list job_change) : go Batch unit :=
  match cs with
  | [] => go_ret tt
  | c :: cs' =>
      let! _ := match c with Upsert job => UpsertJob job | Remove jd => DeleteJob jd end in
      apply_job_changes cs'
  end.

Definition record_change (c : job_change) : change :=
  match c with
  | Upsert job => Put (makeJobKey (Job_Descriptor job)) (match encode_job job with inr bs => bs | inl _ => [] end)
  | Remove jd => Del (makeJobKey jd)
  end.

Lemma apply_job_changes_ok (cs : list job_change) (b : Batch) :
  writable b -> Forall change_ok cs ->
  exists b', runs (apply_job_changes cs) b tt b' /\ writable b' /\ pending b' = pending b ++ map record_change cs.
Proof.
  intros Hw H. revert b Hw. induction H as [|c cs Hc _ IH]; intros b Hw.
  { exists b. by rewrite app_nil_r. }
  assert (exists b1, runs (match c with Upsert job => UpsertJob job | Remove jd => DeleteJob jd end) b tt b1 /\
    writable b1 /\ pending b1 = pending b ++ [record_change c]) as (b1 & R & Hw1 & Hp1).
  { destruct c as [job|jd]; cbn [record_change].
    - destruct Hc as [_ [bs Ee]]. destruct (Batch_Set_pending b (makeJobKey (Job_Descriptor job)) bs Hw)
        as (b1 & E & H1);
        [apply job_key_nonempty|]. exists b1. rewrite Ee. split; [|done]. unfold UpsertJob.
      eapply runs_bind; [apply runs_wrap, runs_res; by rewrite Ee|exact E].
    - destruct (Batch_Delete_pending b (makeJobKey jd) Hw) as (b1 & E & H1); [apply job_key_nonempty|].
      exists b1. by split. }
  destruct (IH b1 Hw1) as (b' & R' & Hw' & Hp'). exists b'. split; [cbn [apply_job_changes]; by eapply runs_bind|].
  split; [done|]. rewrite Hp', Hp1, <- (assoc_L (++)). reflexivity.
Qed.

Lemma change_stores (m : gmap gobytes gobytes) (table : gmap JobDescriptor Z) (c : job_change) :
  stores_jobs m table -> change_ok c -> stores_jobs (apply_change m (record_change c)) (change_table table c).
Proof.
  intros Hst Hc. split.
  - intros key bs. destruct c as [job|jd]; cbn [record_change apply_change change_table].
    + destruct Hc as [Hd [bs' Ee]]. rewrite Ee. intros [[<- <-]|[Hne Hm]]%lookup_insert_Some Hp.
      * exists (Job_Descriptor job), (Job_CurrentBlock job). rewrite lookup_insert_eq. by destruct job.
      * destruct (st_records _ _ Hst key bs Hm Hp) as (jd & block & -> & Et & E). exists jd, block.
        rewrite lookup_insert_ne by congruence. done.
    + intros [Hne Hm]%lookup_delete_Some Hp. destruct (st_records _ _ Hst key bs Hm Hp) as (jd' & block & -> &
        Et & E).
      exists jd', block. rewrite lookup_delete_ne by congruence. done.
  - intros jd block. destruct c as [job|jd']; cbn [record_change apply_change change_table].
    + destruct Hc as [Hd [bs' Ee]]. rewrite Ee. intros [[<- <-]|[Hne Ht]]%lookup_insert_Some.
      * split; [done|]. exists bs'. rewrite lookup_insert_eq. by destruct job.
      * destruct (st_table _ _ Hst jd block Ht) as (Hok & bs & E & Hm). split; [done|]. exists bs.
        rewrite lookup_insert_ne; [done|]. intros Ek. by apply Hne, job_key_inj.
    + intros [Hne Ht]%lookup_delete_Some. destruct (st_table _ _ Hst jd block Ht) as (Hok & bs & E & Hm).
      split; [done|]. exists bs. rewrite lookup_delete_ne; [done|]. intros Ek. by apply Hne, job_key_inj.
Qed.

Lemma changes_store (cs : list job_change) (m : gmap gobytes gobytes) (table : gmap JobDescriptor Z) :
  stores_jobs m table -> Forall change_ok cs ->
  stores_jobs (apply_changes (map record_change cs) m) (foldl change_table table cs).
Proof.
  intros Hst H. revert m table Hst. induction H as [|c cs Hc _ IH]; intros m table Hst; [done|].
  cbn. apply IH. by apply change_stores.
Qed.

Lemma no_jobs : stores_jobs ∅ ∅.
Proof. split; intros k v H; by rewrite lookup_empty in H. Qed.
End Facts.
