(* ===== verification/ConfiguratorFacts.v ===== *)
(** Starting the configured jobs: which jobs run after the start of the application, and from
    which block. *)

From stdpp Require Import base list numbers strings gmap.
From Stdlib Require Import ZArith Lia.
From S2P Require Import Prelude GoBase SparseTree SparseTreeFacts SparseTreeProofs Storage StorageFacts.
From S2P Require Import Registry Service ServiceFacts Jobs Indexer RegistryJob Configurator JobStorageFacts.
Local Open Scope Z_scope.

(** A map is visited once per key. *)
Class GoSchedulerLaws (GS : GoScheduler) : Prop := {
  map_order_keys : forall m, map_order m ≡ₚ (map_to_list m).*1;
}.

Lemma filter_ext_in {A : Type} (P Q : A -> Prop) `{!forall x, Decision (P x), !forall x, Decision (Q x)} (l :
    list A) :
  (forall x, x ∈ l -> P x <-> Q x) -> filter P l = filter Q l.
Proof.
  induction l as [|x l IH]; intros Hl; [done|]. rewrite !filter_cons, IH by (intros y Hy; apply Hl; by right).
  pose proof (Hl x ltac:(left)) as Hx.
  destruct (decide (P x)) as [HP|HP], (decide (Q x)) as [HQ|HQ]; tauto.
Qed.

Section Facts.
Context {U256 : Uint256} {UL : Uint256Laws U256} {PH : Poseidon} {PL : PoseidonLaws PH} {GE : GoEnv}.
Context {KV : KVDatabase} {KL : KVDatabaseLaws KV} {KI : KVIterator KV} {KIL : KVIteratorLaws KL KI}.
Context {JC : JobCodec} {JD : JobDecoder} {JL : JobCodecLaws JC JD} {MC : MetadataCodec} {RC : RegistryContract}.
Context {CE : ContractEvents} {GS : GoScheduler} {GL : GoSchedulerLaws GS}.

(** The service can run a job: it is for a registry that the service has as object [h]. *)
Definition servable (s : service_state) (jd : JobDescriptor) (h : nat) : Prop :=
  Job_Contract jd = ContractZkCertificateRegistry /\ address_ok (Job_Address jd) /\
  exists i, has_index (sv_db s) (Job_Address jd) i /\ sv_registry s !! i = Some h.

(** The configurator with more jobs. *)
Definition add_job (c : Configurator) (job : started_job) : Configurator :=
  mkConfigurator (cf_service c) (<[sj_jobDescriptor job := length (cf_started c)]> (cf_jobs c))
    (cf_started c ++ [job]) (cf_cancelled c).
Definition add_jobs (c : Configurator) (jobs : list started_job) : Configurator := foldl add_job c jobs.

(** The objects and queries of the jobs of a configuration. *)
Context (object : JobDescriptor -> nat) (query : JobDescriptor -> FilterQuery).
Definition job_run (jd : JobDescriptor) (startBlock : Z) : started_job :=
  mkStartedJob jd startBlock (query jd) (mkZkCertificateRegistryJob jd (object jd)).

Definition runnable (s : service_state) (jd : JobDescriptor) : Prop :=
  servable s jd (object jd) /\ job_FilterQuery jd = Ok (query jd).

Lemma StartJob_ok (c : Configurator) (jd : JobDescriptor) (startBlock : Z) :
  runnable (cf_service c) jd -> runs (StartJob jd startBlock) c tt (add_job c (job_run jd startBlock)).
Proof.
  intros [(Hc & Ha & i & Hi & Hh) Hq]. unfold StartJob. eapply runs_bind.
  { apply runs_wrap. unfold runs, on_service, Produce. rewrite Hc, Z.eqb_refl.
    rewrite (bind_runs _ _ _ _ _ (runs_wrap _ _ _ _ _ _ (find_registry_ok _ _ i _ Ha Hi Hh))). reflexivity. }
  cbn [job_jobDescriptor]. eapply runs_bind; [apply runs_wrap, runs_res, Hq|]. reflexivity.
Qed.

Lemma add_jobs_service (c : Configurator) (jobs : list started_job) :
  cf_service (add_jobs c jobs) = cf_service c /\ cf_cancelled (add_jobs c jobs) = cf_cancelled c /\
  cf_started (add_jobs c jobs) = cf_started c ++ jobs.
Proof.
  revert c. induction jobs as [|job jobs IH]; intros c; [by rewrite app_nil_r|].
  change (add_jobs c (job :: jobs)) with (add_jobs (add_job c job) jobs). destruct (IH (add_job c job))
      as (E1 & E2 & E3). rewrite E1, E2, E3. cbn. by rewrite <- (assoc_L (++)).
Qed.

Lemma add_jobs_jobs (c : Configurator) (jobs : list started_job) (jd : JobDescriptor) :
  is_Some (cf_jobs (add_jobs c jobs) !! jd) <-> is_Some (cf_jobs c !! jd) \/ jd ∈ map sj_jobDescriptor jobs.
Proof.
  revert c. induction jobs as [|job jobs IH]; intros c.
  { split; [by left|]. intros [H|H]; [done|]. by apply elem_of_nil in H. }
  change (add_jobs c (job :: jobs)) with (add_jobs (add_job c job) jobs).
  rewrite (IH (add_job c job)). cbn [add_job cf_jobs map]. rewrite elem_of_cons, lookup_insert_is_Some'.
  assert (sj_jobDescriptor job = jd <-> jd = sj_jobDescriptor job) by (by split). tauto.
Qed.

(** Every job of the map is the goroutine it was started as. *)
Definition jobs_match (c : Configurator) : Prop :=
  forall jd k, cf_jobs c !! jd = Some k -> sj_jobDescriptor <$> cf_started c !! k = Some jd.

Lemma add_jobs_match (c : Configurator) (jobs : list started_job) : jobs_match c -> jobs_match (add_jobs c jobs).
Proof.
  revert c. induction jobs as [|job jobs IH]; intros c Hm; [done|]. apply IH. intros jd k.
  cbn [add_job cf_jobs cf_started]. intros [[<- <-]|[Hne H]]%lookup_insert_Some.
  - rewrite lookup_app_r, Nat.sub_diag by lia. done.
  - apply Hm in H. destruct (cf_started c !! k) as [sj|] eqn:E; [|done]. by rewrite (lookup_app_l_Some _ _ _ _ E).
Qed.

(** * Resuming and starting *)

Lemma resume_jobs_ok (active : list JobDescriptor) (jobs : list Job) (c : Configurator) :
  (forall jd, jd ∈ active -> runnable (cf_service c) jd) ->
  runs (resume_jobs active jobs) c tt
    (add_jobs c (map (fun job => job_run (Job_Descriptor job) (Job_CurrentBlock job))
                   (filter (fun job => Job_Descriptor job ∈ active) jobs))).
Proof.
  revert c. induction jobs as [|job jobs IH]; intros c Hrun; [done|]. cbn [resume_jobs].
  rewrite filter_cons. destruct (decide (Job_Descriptor job ∈ active)) as [Hin|Hin].
  - rewrite bool_decide_true by done. eapply runs_bind; [apply runs_wrap, StartJob_ok; by apply Hrun|].
    cbn [map add_jobs foldl]. apply (IH (add_job c _)). done.
  - rewrite bool_decide_false by done. eapply runs_bind; [reflexivity|]. by apply IH.
Qed.

Lemma start_missing_ok (config : list JobDescriptor) (c : Configurator) :
  NoDup config -> (forall jd, jd ∈ config -> runnable (cf_service c) jd) ->
  runs (start_missing config) c tt
    (add_jobs c (map (fun jd => job_run jd (Job_StartBlock jd)) (filter (fun jd => cf_jobs c !! jd = None) config))).
Proof.
  intros Hnd. revert c. induction Hnd as [|jd config Hni Hnd IH]; intros c Hrun; [done|]. cbn [start_missing].
  rewrite filter_cons. destruct (cf_jobs c !! jd) as [k|] eqn:E.
  - rewrite decide_False by done. eapply runs_bind; [unfold runs; by rewrite E|]. apply IH.
    intros jd' Hin. apply Hrun. by right.
  - rewrite decide_True by done. eapply runs_bind.
    { unfold runs. rewrite E. apply runs_wrap, StartJob_ok, Hrun. left. }
    cbn [map add_jobs foldl]. assert (filter (fun jd' => cf_jobs c !! jd' = None) config =
      filter (fun jd' => cf_jobs (add_job c (job_run jd (Job_StartBlock jd))) !! jd' = None) config) as ->.
    { apply filter_ext_in. intros jd' Hin. cbn [add_job cf_jobs job_run sj_jobDescriptor].
      rewrite lookup_insert_ne; [done|]. by intros ->. }
    apply (IH (add_job c _)). intros jd' Hin. apply Hrun. by right.
Qed.

(** Nothing is stopped when every job is in the configuration. *)
Lemma stop_others_none (config jobs : list JobDescriptor) (s : reload_state) :
  (forall jd, jd ∈ jobs -> jd ∈ config) -> runs (stop_others config jobs) s tt s.
Proof.
  induction jobs as [|jd jobs IH]; intros Hin; [done|]. cbn [stop_others].
  rewrite bool_decide_true by (apply Hin; left). eapply runs_bind; [reflexivity|]. apply IH.
  intros jd' H. apply Hin. by right.
Qed.

Lemma ReloadConfig_ok (config : list JobDescriptor) (c : Configurator) :
  NoDup config -> (forall jd, jd ∈ config -> runnable (cf_service c) jd) ->
  (forall jd, is_Some (cf_jobs c !! jd) -> jd ∈ config) ->
  exists d, contents d = contents (sv_db (cf_service c)) /\
    let c1 := add_jobs c (map (fun jd => job_run jd (Job_StartBlock jd))
        (filter (fun jd => cf_jobs c !! jd = None) config)) in
    runs (ReloadConfig config) c tt
      (mkConfigurator (with_db (cf_service c) d) (cf_jobs c1) (cf_started c1) (cf_cancelled c1)).
Proof.
  intros Hnd Hrun Hjobs. set (new := map _ _). set (c1 := add_jobs c new).
  destruct (add_jobs_service c new) as (Es & _ & _). fold c1 in Es.
  destruct (NewBatch_pending (sv_db (cf_service c1))) as [Hw Hp].
  destruct (WriteSync_contents (DB_NewBatch (sv_db (cf_service c1))) (sv_db (cf_service c1)) Hw) as (d & Ew & Ed).
  rewrite Hp in Ed. exists d. split; [rewrite <- Es; exact Ed|]. cbv zeta. unfold ReloadConfig.
  eapply runs_bind; [by apply start_missing_ok|]. fold new c1. unfold runs.
  rewrite (bind_runs _ _ _ _ _ (stop_others_none config (map_order (cf_jobs c1)) _ ltac:(
    intros jd Hin; rewrite map_order_keys in Hin; apply list_elem_of_fmap in Hin as ([jd' k] & -> & Hin);
    apply elem_of_map_to_list in
        Hin; destruct (proj1 (add_jobs_jobs c new jd')) as [H|H]; [by eexists|by apply Hjobs|];
    apply list_elem_of_fmap in H as (sj & -> & H); apply list_elem_of_fmap in H as (jd'' & -> & H);
    by apply list_elem_of_filter in H as [_ H]))).
  unfold go_wrap, write_reload_batch, on_sv_db. cbn [fst snd]. rewrite Ew, Es. reflexivity.
Qed.

(** * The start of the application *)

Definition first_block (table : gmap JobDescriptor Z) (jd : JobDescriptor) : Z :=
  default (Job_StartBlock jd) (table !! jd).

Lemma started_jobs (table : gmap JobDescriptor Z) (jobs : list JobDescriptor) (stored : list Job) :
  NoDup jobs -> stored ≡ₚ map job_entry (map_to_list table) ->
  map (fun job => job_run (Job_Descriptor job) (Job_CurrentBlock job))
      (filter (fun job => Job_Descriptor job ∈ jobs) stored) ++
  map (fun jd => job_run jd (Job_StartBlock jd)) (filter (fun jd => table !! jd = None) jobs) ≡ₚ
  map (fun jd => job_run jd (first_block table jd)) jobs.
Proof.
  intros Hnd Hst.
  assert (filter (fun job => Job_Descriptor job ∈ jobs) stored ≡ₚ
    map (fun jd => mkJob jd (first_block table jd)) (filter (fun jd => is_Some (table !! jd)) jobs)) as ->.
  { rewrite Hst. apply NoDup_Permutation.
    - apply NoDup_filter, NoDup_fmap_2; [|apply NoDup_map_to_list]. by intros [jd b] [jd' b'] [= -> ->].
    - apply NoDup_fmap_2; [by intros jd jd' [= ->]|by apply NoDup_filter].
    - intros [jd b]. rewrite list_elem_of_filter, !list_elem_of_fmap. cbn [Job_Descriptor]. split.
      + intros [Hin ([jd' b'] & [= -> ->] & Hm)]. apply elem_of_map_to_list in Hm. exists jd'.
        unfold first_block. rewrite Hm. split; [done|]. apply list_elem_of_filter. split; [by rewrite Hm;
            eexists|done].
      + intros (jd' & [= -> ->] & Hin). apply list_elem_of_filter in Hin as [[b' Hb] Hin]. split; [done|].
        exists (jd', b'). unfold first_block. rewrite Hb. split; [done|]. by apply elem_of_map_to_list. }
  rewrite map_map. cbn [Job_Descriptor Job_CurrentBlock].
  rewrite (map_ext_in (fun jd => job_run jd (Job_StartBlock jd)) (fun jd => job_run jd (first_block table jd))).
  - rewrite <- map_app. apply Permutation_map. induction jobs as [|jd jobs IH]; [done|].
    apply NoDup_cons in Hnd as [_ Hnd]. rewrite !filter_cons. destruct (table !! jd) as [b|] eqn:E.
    + rewrite decide_True by (by eexists). rewrite decide_False by done. cbn. by rewrite IH.
    + rewrite decide_False by (by intros [? ?]). rewrite decide_True by done. rewrite <- Permutation_middle.
        by rewrite IH.
  - intros jd Hin. apply list_elem_of_In, list_elem_of_filter in Hin as [E _]. unfold first_block. by rewrite E.
Qed.

(** The jobs that are resumed are those with a record. *)
Lemma resumed_jobs (table : gmap JobDescriptor Z) (jobs : list JobDescriptor) (stored : list Job) (c : Configurator)
    (jd : JobDescriptor) :
  stored ≡ₚ map job_entry (map_to_list table) -> cf_jobs c = ∅ ->
  is_Some (cf_jobs (add_jobs c (map (fun job => job_run (Job_Descriptor job) (Job_CurrentBlock job))
    (filter (fun job => Job_Descriptor job ∈ jobs) stored))) !! jd) <-> jd ∈ jobs /\ is_Some (table !! jd).
Proof.
  intros Hst Hc. rewrite add_jobs_jobs, Hc, lookup_empty, map_map. split.
  - intros [[? [=]]|Hin]. apply list_elem_of_fmap in Hin as (job & -> & Hin). apply list_elem_of_filter in
      Hin as [Hj Hin].
    split; [done|]. rewrite Hst in Hin. apply list_elem_of_fmap in Hin as ([jd b] & -> & Hin).
    apply elem_of_map_to_list in Hin. by eexists.
  - intros [Hj [b Hb]]. right. apply list_elem_of_fmap. exists (mkJob jd b). split; [done|].
    apply list_elem_of_filter. split; [done|]. rewrite Hst. apply list_elem_of_fmap. exists (jd, b).
    split; [done|]. by apply elem_of_map_to_list.
Qed.

Lemma RunIndexer_start_ok (s : service_state) (table : gmap JobDescriptor Z) (jobs : list JobDescriptor) :
  context_active -> stores_jobs (contents (sv_db s)) table -> NoDup jobs -> (forall jd, jd ∈ jobs -> runnable s jd) ->
  exists c, runs (RunIndexer_start jobs) (NewConfigurator s) tt c /\
    contents (sv_db (cf_service c)) = contents (sv_db s) /\ sv_objects (cf_service c) = sv_objects s /\
    sv_registry (cf_service c) = sv_registry s /\ cf_cancelled c = ∅ /\
    (forall jd, is_Some (cf_jobs c !! jd) <-> jd ∈ jobs) /\ jobs_match c /\
    cf_started c ≡ₚ map (fun jd => job_run jd (first_block table jd)) jobs.
Proof.
  intros Hctx Hst Hnd Hrun. destruct (SelectAllJobs_ok (sv_db s) table (sv_world s) Hctx Hst) as (stored & w &
      E & Hs).
  set (c0 := mkConfigurator (mkServiceState (sv_db s) (sv_objects s) (sv_registry s) w) ∅ [] ∅).
  set (old := map (fun job => job_run (Job_Descriptor job) (Job_CurrentBlock job))
    (filter (fun job => Job_Descriptor job ∈ jobs) stored)). set (c1 := add_jobs c0 old).
  pose proof (fun jd => resumed_jobs table jobs stored c0 jd Hs eq_refl) as Hold. fold old c1 in Hold.
  destruct (add_jobs_service c0 old) as (Es & Ec & Est). fold c1 in Es, Ec, Est.
  assert (forall jd, jd ∈ jobs -> runnable (cf_service c1) jd) as Hrun1 by (rewrite Es; exact Hrun).
  destruct (ReloadConfig_ok jobs c1 Hnd Hrun1) as (d & Ed & R); [intros jd H; by apply Hold|].
  cbv zeta in R. set (new := map _ _) in R. set (c2 := add_jobs c1 new) in R.
  assert (new = map (fun jd => job_run jd (Job_StartBlock jd)) (filter (fun jd => table !! jd = None) jobs)) as Enew.
  { unfold new. f_equal. apply filter_ext_in. intros jd Hin. rewrite !eq_None_not_Some. rewrite Hold. tauto. }
  destruct (add_jobs_service c1 new) as (_ & Ec2 & Est2). fold c2 in Ec2, Est2.
  exists (mkConfigurator (with_db (cf_service c1) d) (cf_jobs c2) (cf_started c2) (cf_cancelled c2)).
  split; [|split; [cbn [cf_service sv_db with_db]; rewrite Ed, Es; reflexivity|]].
  - unfold RunIndexer_start. eapply runs_bind; [apply runs_wrap|apply runs_wrap, R].
      unfold InitConfiguratorFromStorage.
    eapply runs_bind; [apply runs_wrap; unfold runs, select_jobs, on_service; cbn [cf_service NewConfigurator];
        rewrite E; reflexivity|].
    apply (resume_jobs_ok jobs stored c0). exact Hrun.
  - cbn [cf_service cf_jobs cf_started cf_cancelled with_db sv_objects sv_registry]. rewrite Es, Ec2, Ec.
    split; [done|]. split; [done|]. split; [done|]. split; [|split].
    + intros jd. unfold c2. rewrite add_jobs_jobs, Hold, Enew, map_map. split.
      * intros [[H _]|H]; [done|]. apply list_elem_of_fmap in
          H as (jd' & -> & H). by apply list_elem_of_filter in H as [_ H].
      * intros H. destruct (table !! jd) as [b|] eqn:Et; [left; split; [done|by eexists]|right].
        apply list_elem_of_fmap. exists jd. split; [done|]. by apply list_elem_of_filter.
    + apply (add_jobs_match c1 new), (add_jobs_match c0 old). intros jd k H.
      change ((∅ : gmap JobDescriptor nat) !! jd = Some k) in H. by rewrite lookup_empty in H.
    + rewrite Est2, Est, Enew. cbn [cf_started c0 app]. by apply started_jobs.
Qed.
End Facts.
