(* ===== verification/ConfiguratorTheorems.v ===== *)
(** Theorems about jobs: the storage of jobs is a table, and an application that is started
    again runs exactly the configured jobs, each from the block its record says. *)

From stdpp Require Import base list numbers strings gmap.
From Stdlib Require Import ZArith Lia.
From S2P Require Import Prelude GoBase MerkleSpec SparseTree SparseTreeFacts SparseTreeProofs Storage StorageFacts.
From S2P Require Import GoInstance Registry RegistryFacts RegistryRuns RegistryTheorems Service ServiceFacts Jobs.
From S2P Require Import JobsFacts ServiceInstance ServiceTheorems Indexer IndexerFacts RegistryJob RegistryJobFacts.
From S2P Require Import IndexerTheorems Configurator JobStorageFacts ConfiguratorFacts.
Local Open Scope Z_scope.

Section Theorems.
Context {U256 : Uint256} {UL : Uint256Laws U256} {PH : Poseidon} {PL : PoseidonLaws PH} {GE : GoEnv}.
Context {KV : KVDatabase} {KL : KVDatabaseLaws KV} {KI : KVIterator KV} {KIL : KVIteratorLaws KL KI}.
Context {JC : JobCodec} {JD : JobDecoder} {JL : JobCodecLaws JC JD}.
Context {MC : MetadataCodec} {ML : MetadataCodecLaws MC} {RC : RegistryContract}.
Context {CE : ContractEvents} {GS : GoScheduler} {GL : GoSchedulerLaws GS}.

(** C27: the storage of jobs is a table from descriptors to blocks.  After any sequence of
    stored and deleted jobs in one batch, [SelectAllJobs] returns every job of the changed
    table once, with its block, and [SelectJob] the job of a descriptor; jobs whose
    descriptors differ in any field do not overwrite each other. *)
Theorem job_storage_is_table (d : DB) (table : gmap JobDescriptor Z) (cs : list job_change) (w : world) :
  context_active -> stores_jobs (contents d) table -> Forall change_ok cs ->
  exists b d' jobs w', runs (apply_job_changes cs) (DB_NewBatch d) tt b /\ runs (Batch_WriteSync b) d tt d' /\
    SelectAllJobs d' w = (Ok jobs, w') /\ jobs ≡ₚ map job_entry (map_to_list (foldl change_table table cs)) /\
    forall jd block, foldl change_table table cs !! jd = Some block -> SelectJob d' jd = Ok (mkJob jd block).
Proof.
  intros Hctx Hst Hcs. destruct (NewBatch_pending d) as [Hw Hp].
  destruct (apply_job_changes_ok cs (DB_NewBatch d) Hw Hcs) as (b & R & Hwb & Hpb). rewrite Hp in Hpb.
  destruct (WriteSync_contents b d Hwb) as (d' & W & Ed). rewrite Hpb in Ed.
  assert (stores_jobs (contents d') (foldl change_table table cs)) as Hst' by (rewrite Ed; by apply changes_store).
  destruct (SelectAllJobs_ok d' _ w Hctx Hst') as (jobs & w' & E & Hj).
  exists b, d', jobs, w'. split; [exact R|]. split; [exact W|]. split; [exact E|]. split; [exact Hj|].
  intros jd block. by apply SelectJob_ok.
Qed.

(** * The start of the application *)

(** The place of a job in the configuration. *)
Definition place (jobs : list JobDescriptor) (jd : JobDescriptor) : nat :=
  default 0%nat (fst <$> list_find (fun jd' => jd' = jd) jobs).

Lemma place_lookup (jobs : list JobDescriptor) (k : nat) (jd : JobDescriptor) :
  NoDup jobs -> jobs !! k = Some jd -> place jobs jd = k.
Proof.
  intros Hnd Hk. unfold place. destruct (list_find (fun jd' => jd' = jd) jobs) as [[i jd']|] eqn:E.
  - apply list_find_Some in E as (Hi & -> & _). by apply (NoDup_lookup jobs i k jd).
  - apply list_find_None in E. rewrite Forall_lookup in E. by apply E in Hk.
Qed.

Lemma configured_NoDup (addresses : list gobytes) (ms : list Metadata) :
  length addresses = length ms -> NoDup addresses -> NoDup (zip_with job_of addresses ms).
Proof.
  intros Hl Hnd. apply (NoDup_fmap_1 Job_Address). rewrite fmap_zip_with_l; [done|done|lia].
Qed.

(** Where the jobs of a configured service start: its registries are objects under their places,
    each with the number of its metadata. *)
Lemma indexer_start (v : service_state) (addresses : list gobytes) (ms : list Metadata)
    (table : gmap JobDescriptor Z) (events : string -> gobytes) (topics : list (list gobytes)) :
  let jobs := zip_with job_of addresses ms in
  let run k jd := mkStartedJob jd (first_block table jd) (mkFilterQuery [Job_Address jd] topics None None)
                    (mkZkCertificateRegistryJob jd k) in
  context_active -> Forall2 (fun a m => address_ok a /\ has_index (sv_db v) a (Meta_Index m)) addresses ms ->
  (forall k m, ms !! k = Some m -> sv_registry v !! Meta_Index m = Some k) ->
  NoDup addresses -> stores_jobs (contents (sv_db v)) table ->
  GetAbi = inr events -> MakeTopics [[events EventCertificateProcessed]] = inr topics ->
  exists c, runs (RunIndexer_start jobs) (NewConfigurator v) tt c /\
    contents (sv_db (cf_service c)) = contents (sv_db v) /\ sv_objects (cf_service c) = sv_objects v /\
    sv_registry (cf_service c) = sv_registry v /\ cf_cancelled c = ∅ /\ cf_started c ≡ₚ imap run jobs.
Proof.
  intros jobs run Hctx Hreg Hh Hnd Hst Habi Htop.
  pose proof (configured_NoDup addresses ms (Forall2_length _ _ _ Hreg) Hnd) as Hndj. fold jobs in Hndj.
  set (query jd := mkFilterQuery [Job_Address jd] topics None None).
  destruct (RunIndexer_start_ok (place jobs) query v table jobs Hctx Hst Hndj)
    as (c & Rc & Ec & Eobj & Ereg & Ecan & _ & _ & Est).
  { intros jd Hin. apply list_elem_of_lookup in Hin as [k Hk]. unfold runnable.
    rewrite (place_lookup jobs k jd Hndj Hk). apply lookup_zip_with_Some in Hk as (a & m & -> & Ea & Em).
    destruct (Forall2_lookup_lr _ _ _ _ _ _ Hreg Ea Em) as [Ha Hr].
    split; [|unfold job_FilterQuery; rewrite Habi; cbn [lift wrap_res res_bind]; by rewrite Htop].
    split; [done|]. split; [done|]. exists (Meta_Index m). split; [done|by apply Hh]. }
  exists c. split; [exact Rc|]. do 4 (split; [done|]).
  rewrite Est. apply Permutation_refl'. apply list_eq. intros k. rewrite list_lookup_imap.
  etransitivity; [exact (list_lookup_fmap _ jobs k)|].
  destruct (jobs !! k) as [jd|] eqn:Hk; [|done]. cbn. unfold job_run, run.
      by rewrite (place_lookup jobs k jd Hndj Hk).
Qed.

(** An application that is started again over the database of an earlier run.  Nothing in
    the database changes; exactly the configured jobs run, each once, with the query for its
    contract's events and on its own registry, from the block of its record, or from the
    descriptor's first block when there is no record; no job is cancelled.  A registry that
    had all blocks before [n] indexed is found as such, and its job starts at [n - 1]. *)
Theorem application_resumes_jobs (d : DB) (w : world) (addresses : list gobytes) (ms : list Metadata)
    (table : gmap JobDescriptor Z) (events : string -> gobytes) (topics : list (list gobytes)) :
  context_active -> Forall2 (fun a m => address_ok a /\ registered d a m) addresses ms ->
  NoDup addresses -> NoDup (map Meta_Index ms) -> stores_jobs (contents d) table ->
  GetAbi = inr events -> MakeTopics [[events EventCertificateProcessed]] = inr topics ->
  let jobs := zip_with job_of addresses ms in
  let run k jd := mkStartedJob jd (first_block table jd) (mkFilterQuery [Job_Address jd] topics None None)
                    (mkZkCertificateRegistryJob jd k) in
  exists v c, runs (configureZkCertificateRegistry addresses) (NewService d w) jobs v /\
    runs (RunIndexer_start jobs) (NewConfigurator v) tt c /\
    contents (sv_db (cf_service c)) = contents d /\ cf_cancelled c = ∅ /\ cf_started c ≡ₚ imap run jobs /\
    forall k m jd n r parser chain leaf0 idx0 db0,
      ms !! k = Some m -> jobs !! k = Some jd -> contents (rs_db r) = contents d -> Job_StartBlock jd < n ->
      indexed jd parser chain m leaf0 idx0 (Job_StartBlock jd) db0 n r ->
      exists reg, sv_objects (cf_service c) !! k = Some reg /\ sj_startBlock (run k jd) = n - 1 /\
        indexed jd parser chain m leaf0 idx0 (Job_StartBlock jd) db0 n
          (mkRegistryState reg (sv_db (cf_service c)) (sv_world (cf_service c))).
Proof.
  intros Hctx Hreg Hnd Hndi Hst Habi Htop jobs run.
  destruct (configure_known addresses ms (NewService d w) [] Hreg Hndi) as (v & Rv & Edb & Ew & Eo & _ & Hh).
  cbn [app sv_objects NewService length Nat.add sv_db] in *.
  destruct (indexer_start v addresses ms table events topics Hctx) as (c & Rc & Ec & Eobj & _ & Ecan & Est);
    [|done|done|by rewrite Edb|done|done|].
  { rewrite Edb. eapply Forall2_impl; [exact Hreg|]. intros a m [Ha Hr]. split; [done|apply Hr]. }
  exists v, c. split; [exact Rv|]. split; [exact Rc|]. split; [by rewrite Ec, Edb|]. split; [done|]. split; [done|].
  intros k m jd n r parser chain leaf0 idx0 db0 Em Hk Er Hn Hi. exists (new_registry_object m (Meta_Index m)).
  split; [rewrite Eobj, Eo; exact (eq_trans (list_lookup_fmap _ ms k) (f_equal (fmap _) Em))|]. split.
  - destruct (ind_record _ _ _ _ _ _ _ _ _ _ Hi Hn) as (jb & Ej & Hrec). cbn [run sj_startBlock].
    rewrite Er in Hrec. destruct (st_records _ _ Hst _ _ Hrec (job_key_prefix jd)) as (jd' & b & Ekey & Et & Ee).
    apply decode_encode_job in Ej as [Ej _]. apply decode_encode_job in Ee as [Ee _].
    rewrite Ej in Ee. injection Ee as <- <-. unfold first_block. by rewrite Et.
  - apply (indexed_reopened _ _ _ _ _ _ _ _ _ r); [by rewrite Ec, Edb|exact Hi].
Qed.
End Theorems.

(** * Witnesses *)

(** Jobs whose fields fit, as their address, contract, first and current block. *)
Definition fits (n : nat) (z : Z) : bool := (0 <=? z) && (z <? 256 ^ Z.of_nat n).

Definition flat_encode (job : Job) : go_error + gobytes :=
  let jd := Job_Descriptor job in
  if (length (Job_Address jd) =? AddressLength)%nat && fits 8 (Job_StartBlock jd) && fits 8 (Job_CurrentBlock job)
  then inr (Job_Address jd ++ [Job_Contract jd] ++ be_bytes 8 (Job_StartBlock jd) ++
      be_bytes 8 (Job_CurrentBlock job))
  else inl (ExternalError 3).

Definition flat_decode (bs : gobytes) : go_error + Job :=
  inr (mkJob (mkJobDescriptor (take 20 bs) (default 0 (bs !! 20%nat)) (be_value (take 8 (drop 21 bs))))
         (be_value (drop 29 bs))).

#[export] Instance flat_decoder : JobDecoder := { decode_job := flat_decode }.
Definition flat_codec : JobCodec := {| encode_job := flat_encode |}.

#[export] Instance flat_codec_laws : JobCodecLaws flat_codec flat_decoder.
Proof.
  split. intros [[a c n] b] bs. cbn [encode_job flat_codec decode_job flat_decoder]. unfold flat_encode, flat_decode.
  cbn [Job_Descriptor Job_CurrentBlock Job_Address Job_Contract Job_StartBlock].
  destruct ((length a =? AddressLength)%nat) eqn:Ha; [|done]. apply Nat.eqb_eq in Ha. unfold AddressLength in Ha.
  unfold fits. destruct (Z.leb_spec 0 n); [|done]. destruct (Z.ltb_spec n (256 ^ Z.of_nat 8)); [|done].
  destruct (Z.leb_spec 0 b); [|done]. destruct (Z.ltb_spec b (256 ^ Z.of_nat 8)); [|done].
  cbn [andb]. intros E. assert (a ++ [c] ++ be_bytes 8 n ++ be_bytes 8 b = bs) as <- by (by injection E). clear E.
  split; [|by destruct a].
  do 2 f_equal.
  - f_equal.
    + by rewrite take_app_length' by done.
    + rewrite lookup_app_r, Ha by lia. done.
    + change 21%nat with (20 + 1)%nat. rewrite <- (drop_drop _ 1 20), drop_app_length' by done.
      change (drop 1 ([c] ++ be_bytes 8 n ++ be_bytes 8 b)) with (be_bytes 8 n ++ be_bytes 8 b).
      rewrite take_app_length' by (by rewrite be_bytes_length). by apply be_value_bytes.
  - change 29%nat with (20 + 9)%nat. rewrite <- (drop_drop _ 9 20), drop_app_length' by done.
    change ([c] ++ be_bytes 8 n ++ be_bytes 8 b) with ((c :: be_bytes 8 n) ++ be_bytes 8 b).
    rewrite drop_app_length' by (cbn [length]; by rewrite be_bytes_length). by apply be_value_bytes.
Qed.

#[export] Instance mem_iterator : KVIterator mem_db := {
  DB_IteratePrefix (d : DB (KVDatabase := mem_db)) p :=
    Ok (filter (fun kv : gobytes * gobytes => p `prefix_of` kv.1) (map_to_list (d : gmap gobytes gobytes)));
}.

#[export] Instance mem_iterator_laws : KVIteratorLaws mem_db_laws mem_iterator.
Proof. split. intros d p _. eexists. by split. Qed.

#[export] Instance toy_scheduler : GoScheduler := {
  map_order m := (map_to_list m).*1;
  job_result _ := None;
}.
#[export] Instance toy_scheduler_laws : GoSchedulerLaws toy_scheduler.
Proof. by split. Qed.

Definition first_job : JobDescriptor := mkJobDescriptor toy_address 1 16.
Definition second_job : JobDescriptor := mkJobDescriptor other_address 1 17.

Lemma toy_changes_ok :
  Forall (change_ok (JC := flat_codec)) [Upsert (mkJob first_job 100); Upsert (mkJob second_job 200);
    Upsert (mkJob first_job 105); Remove second_job].
Proof. repeat constructor; cbn; try lia; by eexists. Qed.

Lemma job_storage_is_table_witness :
  exists b d' w', runs (apply_job_changes (JC := flat_codec) [Upsert (mkJob first_job 100);
      Upsert (mkJob second_job 200); Upsert (mkJob first_job 105); Remove second_job]) (DB_NewBatch ∅) tt b /\
    runs (Batch_WriteSync b) ∅ tt d' /\ SelectAllJobs d' (mkWorld 0 0) = (Ok [mkJob first_job 105], w') /\
    SelectJob d' first_job = Ok (mkJob first_job 105).
Proof.
  destruct (job_storage_is_table (JC := flat_codec) (KL := mem_db_laws) (∅ : gmap gobytes gobytes)
      ∅ _ (mkWorld 0 0) toy_active_context (no_jobs (JC := flat_codec)) toy_changes_ok)
    as (b & d' & jobs & w' & R & W & E & Hj & Hs).
  exists b, d', w'. split; [exact R|]. split; [exact W|]. split; [|apply Hs; vm_compute; reflexivity].
  rewrite E. do 2 f_equal. apply Permutation_length_1_inv. rewrite Hj. vm_compute. reflexivity.
Defined.

Lemma toy_service_no_jobs (JC : JobCodec) : stores_jobs (JC := JC) (sv_db toy_service : gmap gobytes gobytes) ∅.
Proof.
  assert (map_Forall (fun k _ => ~ [JobKeyPrefix] `prefix_of` k) (sv_db toy_service : gmap gobytes gobytes)) as H
    by (apply (bool_decide_eq_true_1 _); vm_compute; reflexivity).
  split; [intros key bs E Hp; by destruct (H key bs E)|intros jd b E; by rewrite lookup_empty in E].
Qed.

(** The database of an application that was stopped when its first job had indexed block 105. *)
Definition stopped_db : gmap gobytes gobytes :=
  <[makeJobKey first_job := toy_address ++ [1] ++ be_bytes 8 16 ++
      be_bytes 8 105]> (sv_db toy_service : gmap gobytes gobytes).

Lemma stopped_jobs : stores_jobs (JC := flat_codec) stopped_db {[first_job := 105]}.
Proof.
  change {[first_job := 105]} with (change_table ∅ (Upsert (mkJob first_job 105))).
  apply (change_stores (JC := flat_codec) (sv_db toy_service : gmap gobytes gobytes)
      ∅ (Upsert (mkJob first_job 105))).
  - apply toy_service_no_jobs.
  - split; [split; [done|cbn; lia]|]. by eexists.
Qed.

Lemma stopped_registered :
  Forall2 (fun a m => address_ok a /\ registered (stopped_db : DB) a m) [toy_address; other_address]
    [toy_fetched toy_address; with_index 1 (toy_fetched other_address)].
Proof.
  eapply Forall2_impl; [exact toy_registered|]. intros a m [Ha Hr]. split; [done|].
  apply (registered_kept (fun k => k = JobKey first_job) a (sv_db toy_service)); [done|done|done| |done].
  intros k Hk Hne. cbn [contents mem_db_laws]. unfold stopped_db. rewrite lookup_insert_ne; [done|].
  intros E. apply Hne. symmetry. apply key_bytes_inj; [split; [done|cbn; lia]|done|exact E].
Qed.

Lemma application_resumes_jobs_witness :
  exists v c, runs (RunIndexer_start [first_job; second_job]) (NewConfigurator v) tt c /\
    map (fun job => (sj_jobDescriptor job, sj_startBlock job)) (cf_started c) ≡ₚ [(first_job, 105); (second_job, 17)].
Proof.
  destruct (application_resumes_jobs (JC := flat_codec) (KL := mem_db_laws) stopped_db (mkWorld 0 0)
    [toy_address; other_address] [toy_fetched toy_address; with_index 1 (toy_fetched other_address)]
    {[first_job := 105]} (fun _ => [1]) [[[1]]] toy_active_context stopped_registered) as (v & c & _ & R & _ &
        _ & Hst & _).
  - by apply (bool_decide_eq_true_1 _); vm_compute.
  - by apply (bool_decide_eq_true_1 _); vm_compute.
  - exact stopped_jobs.
  - reflexivity.
  - reflexivity.
  - exists v, c. split; [exact R|]. rewrite Hst. vm_compute. reflexivity.
Defined.
