(* ===== verification/ReloadTheorems.v ===== *)
(** Bringing the running jobs in line with a new configuration: which jobs run afterwards, which
    records are left, and that stopping one job cancels all. *)

From stdpp Require Import base list numbers strings gmap.
From Stdlib Require Import ZArith Lia.
From S2P Require Import Prelude GoBase SparseTree SparseTreeFacts SparseTreeProofs Storage StorageFacts.
From S2P Require Import GoInstance Registry RegistryTheorems Service ServiceFacts Jobs JobsFacts ServiceInstance.
From S2P Require Import ServiceTheorems Indexer RegistryJob IndexerTheorems Configurator JobStorageFacts.
From S2P Require Import ConfiguratorFacts ConfiguratorTheorems.
Local Open Scope Z_scope.

(** * A job ends with an error only *)

Section Returns.
Context {GE : GoEnv} {EC : EthereumClient} {S C : Type} (handler : JobHandler S C).

Lemma poll_next_reaches (fuel : nat) (fromBlock cur : Z) (s s' : indexer_state S) :
  runs (poll_next fuel fromBlock) s cur s' -> fromBlock <= cur.
Proof.
  revert s. induction fuel as [|fuel IH]; intros s; [done|]. cbn [poll_next].
  intros (b & s1 & _ & R)%runs_bind_inv. destruct (Z.leb_spec fromBlock b) as [Hb|Hb].
  - by injection R as <- <-.
  - apply runs_bind_inv in R as (x & s2 & _ & R). by apply IH in R.
Qed.

Lemma index_loop_polls_on (fuel : nat) (config : Config) (query : FilterQuery) (ctx : C) (fromBlock cur : Z)
    (isOnHead started : bool) (s s' : indexer_state S) (r : Z * bool) :
  Config_IndexerMode config = ModePoll -> fromBlock <= cur ->
  ~ runs (index_loop handler fuel config query ctx fromBlock cur isOnHead started) s r s'.
Proof.
  intros Hmode. revert fromBlock cur isOnHead s. induction fuel as [|fuel IH];
      intros fromBlock cur isOnHead s Hle; [done|].
  cbn [index_loop]. rewrite (proj2 (Z.ltb_ge _ _)) by done. rewrite Hmode. cbn [String.eqb].
  intros (next & s1 & _ & R)%runs_bind_inv. change (String.eqb ModePoll ModePoll) with true in R. cbn iota in R.
  destruct (Z.leb_spec next cur) as [Hn|Hn]; [by apply IH in R|].
  apply runs_bind_inv in R as (x & s2 & _ & R). apply runs_bind_inv in R as (cur' & s3 & Rp & R).
  apply poll_next_reaches in Rp. by apply IH in R.
Qed.

(** In polling mode [IndexEVMLogs] does not return without an error, as its comment says. *)
Theorem polling_returns_only_errors (fuel : nat) (config : Config) (query : FilterQuery) (ctx : C) (start : Z)
    (s s' : indexer_state S) :
  Config_IndexerMode config = ModePoll -> ~ runs (IndexEVMLogs handler fuel config query ctx start) s tt s'.
Proof.
  intros Hmode (cur & s1 & _ & R)%runs_bind_inv. destruct (Z.ltb_spec cur start) as [Hc|Hc]; [done|].
  apply runs_bind_inv in R as (x & s2 & _ & R). apply runs_bind_inv in R as (r & s3 & R & _).
  by apply index_loop_polls_on in R.
Qed.
End Returns.

(** * A new configuration *)

Section Reload.
Context {U256 : Uint256} {UL : Uint256Laws U256} {PH : Poseidon} {PL : PoseidonLaws PH} {GE : GoEnv}.
Context {KV : KVDatabase} {KL : KVDatabaseLaws KV} {KI : KVIterator KV} {KIL : KVIteratorLaws KL KI}.
Context {JC : JobCodec} {JD : JobDecoder} {JL : JobCodecLaws JC JD}.
Context {MC : MetadataCodec} {ML : MetadataCodecLaws MC} {RC : RegistryContract}.
Context {CE : ContractEvents} {GS : GoScheduler} {GL : GoSchedulerLaws GS}.

(** The goroutine [k] ends with the error of a cancellation once it is cancelled. *)
Definition ends_cancelled (k : nat) : Prop := exists err, job_result k = Some err /\ is_canceled err = true.

(** Every job of the map is cancelled. *)
Definition all_cancelled (c : Configurator) : Prop :=
  forall jd k, cf_jobs c !! jd = Some k -> k ∈ cf_cancelled c.

Definition without {A : Type} (jobs : gmap JobDescriptor A) (stopped : list JobDescriptor) : gmap JobDescriptor A :=
  foldl (fun m jd => delete jd m) jobs stopped.

Lemma without_lookup {A : Type} (stopped : list JobDescriptor) (jobs : gmap JobDescriptor A) (jd : JobDescriptor) :
  without jobs stopped !! jd = if decide (jd ∈ stopped) then None else jobs !! jd.
Proof.
  revert jobs. induction stopped as [|jd' stopped IH]; intros jobs.
  { rewrite decide_False; [done|apply not_elem_of_nil]. }
  cbn [without foldl]. fold (without (delete jd' jobs) stopped). rewrite IH.
  destruct (decide (jd ∈ stopped)) as [H|H]; [by rewrite decide_True by (by right)|].
  destruct (decide (jd = jd')) as [->|Hne]; [rewrite decide_True by left; apply lookup_delete_eq|].
  rewrite decide_False by (by rewrite elem_of_cons; intros [?|?]). by apply lookup_delete_ne.
Qed.

Lemma StopJob_ok (jd : JobDescriptor) (k : nat) (c : Configurator) (b : Batch) :
  cf_jobs c !! jd = Some k -> ends_cancelled k -> writable b ->
  exists c' b', runs (StopJob jd) (c, b) tt (c', b') /\ writable b' /\ pending b' = pending b ++
      [Del (makeJobKey jd)] /\
    cf_service c' = cf_service c /\ cf_started c' = cf_started c /\ cf_jobs c' = delete jd (cf_jobs c) /\
    k ∈ cf_cancelled c' /\ cf_cancelled c ⊆ cf_cancelled c' /\ all_cancelled c'.
Proof.
  intros Hk (err & Er & Hc) Hw.
  destruct (Batch_Delete_pending b (makeJobKey jd) Hw) as (b' & E & Hw' & Hp'); [apply job_key_nonempty|].
  eexists _, b'. split; [|split; [done|split; [done|]]].
  - unfold runs, StopJob. erewrite bind_runs; [|unfold runs, on_configurator, take_job; cbn [fst snd];
      rewrite Hk; reflexivity].
    erewrite bind_runs; [|apply runs_wrap; unfold runs, on_reload_batch, DeleteJob; cbn [fst snd]; rewrite E;
        reflexivity].
    erewrite bind_runs; [|reflexivity].
    erewrite bind_runs; [|unfold runs, on_configurator, job_ends; cbn [fst snd]; rewrite Er; reflexivity].
    cbv beta iota. rewrite Hc. reflexivity.
  - unfold CancelAll, all_cancelled. cbn [cf_service cf_started cf_jobs cf_cancelled]. do 3 (split; [done|]).
    split; [set_solver|]. split; [set_solver|]. intros jd' k' H'. apply elem_of_union_l, elem_of_list_to_set.
    apply list_elem_of_fmap. exists (jd', k'). split; [done|]. by apply elem_of_map_to_list.
Qed.

Lemma stop_others_ok (config jobs : list JobDescriptor) (c : Configurator) (b : Batch) :
  let stopped := filter (fun jd => jd ∉ config) jobs in
  NoDup jobs -> (forall jd, jd ∈ stopped -> exists k, cf_jobs c !! jd = Some k /\ ends_cancelled k) -> writable b ->
  exists c' b', runs (stop_others config jobs) (c, b) tt (c', b') /\ writable b' /\
    pending b' = pending b ++ map (fun jd => Del (makeJobKey jd)) stopped /\
    cf_service c' = cf_service c /\ cf_started c' = cf_started c /\ cf_jobs c' = without (cf_jobs c) stopped /\
    cf_cancelled c ⊆ cf_cancelled c' /\
    (forall jd k, jd ∈ stopped -> cf_jobs c !! jd = Some k -> k ∈ cf_cancelled c') /\
    (all_cancelled c -> all_cancelled c') /\ (stopped <> [] -> all_cancelled c').
Proof.
  intros stopped Hnd. unfold stopped. clear stopped. revert c b. induction Hnd as [|jd jobs Hni Hnd IH];
      intros c b Hk Hw.
  { exists c, b. rewrite app_nil_r. do 7 (split; [done|]). split; [intros jd k H; by apply elem_of_nil in H|done]. }
  cbn [stop_others]. rewrite filter_cons in *. destruct (decide (jd ∉ config)) as [Hj|Hj].
  - rewrite bool_decide_false by done. destruct (Hk jd ltac:(left)) as (k & Ek & He).
    destruct (StopJob_ok jd k c b Ek He Hw) as (c1 & b1 & R1 & Hw1 & Hp1 & S1 & T1 & J1 & K1 & C1 & A1).
    destruct (IH c1 b1) as (c2 & b2 & R2 & Hw2 & Hp2 & S2 & T2 & J2 & C2 & K2 & A2 & _); [|done|].
    { intros jd' Hin. destruct (Hk jd' ltac:(by right)) as (k' & Ek' & He'). exists k'. split; [|done].
      rewrite J1, lookup_delete_ne; [done|]. intros ->. by apply list_elem_of_filter in Hin as [_ Hin]. }
    exists c2, b2. split; [eapply runs_bind; [apply runs_wrap, R1|exact R2]|]. split; [done|].
    split; [by rewrite Hp2, Hp1, <- (assoc_L (++))|]. split; [by rewrite S2|]. split; [by rewrite T2|].
    split; [by rewrite J2, J1|]. split; [set_solver|]. split; [|split; intros _; by apply A2].
    intros jd' k' [->|Hin]%elem_of_cons Ek'; [rewrite Ek in Ek'; injection Ek' as <-; set_solver|].
    apply (K2 jd'); [done|]. rewrite J1, lookup_delete_ne; [done|]. intros ->. by apply list_elem_of_filter in
        Hin as [_ Hin].
  - rewrite bool_decide_true by (by apply dec_stable). eapply IH in Hk as (c' & b' & R & H); [|done].
    exists c', b'. split; [|exact H]. eapply runs_bind; [reflexivity|exact R].
Qed.

Lemma last_change_deleted (keys : list JobDescriptor) (key : gobytes) :
  (forall jd, jd ∈ keys -> key <> makeJobKey jd) ->
  last_change (map (fun jd => Del (makeJobKey jd)) keys) key = None.
Proof.
  intros H. induction keys as [|jd keys IH]; [done|]. cbn [map last_change].
  rewrite IH by (intros jd' Hin; apply H; by right). rewrite decide_False; [done|]. apply H. left.
Qed.

Lemma removed_table (stopped : list JobDescriptor) (table : gmap JobDescriptor Z) :
  foldl change_table table (map Remove stopped) = without table stopped.
Proof. revert table. induction stopped as [|jd stopped IH]; intros table; [done|]. cbn. apply IH. Qed.

Lemma add_jobs_other (c : Configurator) (jobs : list started_job) (jd : JobDescriptor) :
  jd ∉ map sj_jobDescriptor jobs -> cf_jobs (add_jobs c jobs) !! jd = cf_jobs c !! jd.
Proof.
  revert c. induction jobs as [|job jobs IH]; intros c Hn; [done|]. cbn [map] in Hn. apply not_elem_of_cons in
      Hn as [H1 H2].
  change (add_jobs c (job :: jobs)) with (add_jobs (add_job c job) jobs). rewrite (IH (add_job c job) H2).
  cbn [add_job cf_jobs]. by rewrite lookup_insert_ne.
Qed.

Context (object : JobDescriptor -> nat) (query : JobDescriptor -> FilterQuery).

(** The jobs of a configuration that do not run yet. *)
Definition new_jobs (c : Configurator) (config : list JobDescriptor) : list started_job :=
  map (fun jd => job_run object query jd (Job_StartBlock jd)) (filter (fun jd => cf_jobs c !! jd = None) config).

Lemma new_jobs_elem (c : Configurator) (config : list JobDescriptor) (jd : JobDescriptor) :
  jd ∈ map sj_jobDescriptor (new_jobs c config) <-> jd ∈ config /\ cf_jobs c !! jd = None.
Proof.
  unfold new_jobs. rewrite map_map. cbn [sj_jobDescriptor job_run]. rewrite map_id, list_elem_of_filter. tauto.
Qed.

(** A job is to be stopped. *)
Definition superfluous (c : Configurator) (config : list JobDescriptor) (jd : JobDescriptor) : Prop :=
  is_Some (cf_jobs c !! jd) /\ jd ∉ config.

Lemma map_order_elem (c : Configurator) (jd : JobDescriptor) : jd ∈ map_order (cf_jobs c)
    <-> is_Some (cf_jobs c !! jd).
Proof.
  rewrite map_order_keys. split.
  - intros ([jd' k] & -> & Hin)%list_elem_of_fmap. apply elem_of_map_to_list in Hin. by eexists.
  - intros [k Hk]. apply list_elem_of_fmap. exists (jd, k). split; [done|]. by apply elem_of_map_to_list.
Qed.

Lemma new_jobs_other (c : Configurator) (config : list JobDescriptor) (jd : JobDescriptor) :
  jd ∉ config -> cf_jobs (add_jobs c (new_jobs c config)) !! jd = cf_jobs c !! jd.
Proof. intros Hj. apply add_jobs_other. rewrite new_jobs_elem. tauto. Qed.

(** The jobs that the second loop of [ReloadConfig] stops. *)
Definition jobs_to_stop (c : Configurator) (config : list JobDescriptor) : list JobDescriptor :=
  filter (fun jd => jd ∉ config) (map_order (cf_jobs (add_jobs c (new_jobs c config)))).

Lemma jobs_to_stop_elem (c : Configurator) (config : list JobDescriptor) (jd : JobDescriptor) :
  jd ∈ jobs_to_stop c config <-> superfluous c config jd.
Proof.
  unfold jobs_to_stop, superfluous. rewrite list_elem_of_filter, map_order_elem. split.
  - intros [Hj Hs]. by rewrite new_jobs_other in Hs.
  - intros [Hs Hj]. by rewrite new_jobs_other.
Qed.

(** Deleting records of jobs leaves the other records alone. *)
Lemma deleted_jobs_same (d d' : DB) (stopped : list JobDescriptor) :
  contents d' = apply_changes (map (fun jd => Del (makeJobKey jd)) stopped) (contents d) ->
  (forall jd, jd ∈ stopped -> storage_key_ok (JobKey jd)) ->
  same_records (fun k => exists jd, k = JobKey jd /\ jd ∈ stopped) d d'.
Proof.
  intros Ed Hok key Hkey Hn. rewrite Ed, apply_changes_lookup, last_change_deleted; [done|]. intros jd Hs E.
  apply Hn. exists jd. split; [|done]. by apply key_bytes_inj; [|apply Hok|].
Qed.

Lemma reload_ok (config : list JobDescriptor) (c : Configurator) (table : gmap JobDescriptor Z) :
  NoDup config -> (forall jd, jd ∈ config -> runnable object query (cf_service c) jd) ->
  stores_jobs (contents (sv_db (cf_service c))) table ->
  (forall jd k, cf_jobs c !! jd = Some k -> jd ∉ config -> ends_cancelled k /\ storage_key_ok (JobKey jd)) ->
  exists c' table', runs (ReloadConfig config) c tt c' /\
    (forall jd, jd ∈ config -> cf_jobs c' !! jd = cf_jobs (add_jobs c (new_jobs c config)) !! jd) /\
    (forall jd, jd ∉ config -> cf_jobs c' !! jd = None) /\
    cf_started c' = cf_started c ++ new_jobs c config /\
    cf_service c' = with_db (cf_service c) (sv_db (cf_service c')) /\
    stores_jobs (contents (sv_db (cf_service c'))) table' /\
    (forall jd, table' !! jd = if decide (superfluous c config jd) then None else table !! jd) /\
    same_records (fun k => exists jd, k = JobKey jd /\ superfluous c config jd) (sv_db (cf_service c))
      (sv_db (cf_service c')) /\
    (forall jd k, superfluous c config jd -> cf_jobs c !! jd = Some k -> k ∈ cf_cancelled c') /\
    ((exists jd, superfluous c config jd) -> all_cancelled c') /\ (all_cancelled c -> new_jobs c config = [] ->
        all_cancelled c').
Proof.
  intros Hnd Hrun Hst Hstop. set (new := new_jobs c config). set (c1 := add_jobs c new).
  destruct (add_jobs_service c new) as (Es & Ec & Est). fold c1 in Es, Ec, Est.
  pose proof (new_jobs_other c config) as Hother. pose proof (jobs_to_stop_elem c config) as Hstopped.
  fold new c1 in Hother. set (order := map_order (cf_jobs c1)). set (stopped := jobs_to_stop c config) in *.
  assert (NoDup order) as Hndo by (unfold order; rewrite map_order_keys; apply NoDup_fst_map_to_list).
  destruct (NewBatch_pending (sv_db (cf_service c1))) as [Hw0 Hp0].
  destruct (stop_others_ok config order c1 (DB_NewBatch (sv_db (cf_service c1))) Hndo)
    as (c2 & b & R & Hw & Hp & S2 & T2 & J2 & C2 & K2 & A2 & A2'); [|done|].
  { intros jd Hin. change (jd ∈ stopped) in Hin. apply Hstopped in
      Hin as [[k Hk] Hj]. exists k. rewrite Hother by done. split; [done|].
    by apply (Hstop jd k). }
  change (filter _ order) with stopped in Hp, J2, K2, A2'. rewrite Hp0 in Hp. cbn [app] in Hp.
  destruct (WriteSync_contents b (sv_db (cf_service c2)) Hw) as (d & Ew & Ed).
  rewrite Hp, S2, Es in Ed.
  exists (mkConfigurator (with_db (cf_service c2) d) (cf_jobs c2) (cf_started c2)
      (cf_cancelled c2)), (without table stopped).
  cbn [cf_service cf_jobs cf_started cf_cancelled sv_db with_db].
  split; [|split; [|split; [|split; [|split; [|split; [|split; [|split; [|split; [|split]]]]]]]]].
  - unfold ReloadConfig. eapply runs_bind; [by apply start_missing_ok|]. fold new c1. unfold runs.
    fold order. rewrite (bind_runs _ _ _ _ _ R). unfold go_wrap, write_reload_batch, on_sv_db. cbn [fst snd].
    by rewrite Ew.
  - intros jd Hj. rewrite J2, without_lookup, decide_False; [done|]. intros Hs. by apply Hstopped in Hs as [_ Hs].
  - intros jd Hj. rewrite J2, without_lookup. destruct (decide (jd ∈ stopped)) as [Hs|Hs]; [done|].
    rewrite Hother by done. apply eq_None_not_Some. intros Hsome. by apply Hs, Hstopped.
  - by rewrite T2, Est.
  - by rewrite S2, Es.
  - rewrite <- removed_table, Ed. replace (map (fun jd => Del (makeJobKey jd)) stopped) with (map record_change
      (map Remove stopped)) by (by rewrite map_map).
    apply changes_store; [done|]. apply Forall_map, Forall_forall. intros jd Hs. apply Hstopped in Hs as [[k Hk] Hj].
    by apply (Hstop jd k).
  - intros jd. rewrite without_lookup. destruct (decide (jd ∈ stopped)) as [Hs|Hs];
      [by rewrite decide_True by (by apply Hstopped)|rewrite decide_False; [done|]]. intros H. by apply Hs, Hstopped.
  - intros key Hkey Hn. apply (deleted_jobs_same _ d stopped Ed); [| done|].
    + intros jd Hs. apply Hstopped in Hs as [[k Hk] Hj]. by apply (Hstop jd k).
    + intros (jd & -> & Hs). apply Hn. exists jd. split; [done|]. by apply Hstopped.
  - intros jd k Hs Hk. apply (K2 jd); [by apply Hstopped|]. rewrite Hother; [done|apply Hs].
  - intros [jd Hs]. apply A2'. intros E. apply Hstopped in Hs. rewrite E in Hs. by apply elem_of_nil in Hs.
  - intros Ha Hn. apply A2. unfold c1. by rewrite Hn.
Qed.

(** C23: [ReloadConfig] with a configuration that leaves out running jobs.  Afterwards the map of
    jobs holds exactly the configured jobs, those that ran before as they were started, the
    others from their first block; the jobs left out are cancelled and their records deleted,
    and nothing else in the database changes.  But the goroutine of a job that is stopped ends
    with the error of its cancellation and cancels all jobs before it returns: when one job is
    stopped, every configured job is cancelled too, and reloading the same configuration
    starts none of them again. *)
Theorem reload_cancels_all_jobs (config : list JobDescriptor) (c : Configurator) (table : gmap JobDescriptor Z) :
  NoDup config -> (forall jd, jd ∈ config -> runnable object query (cf_service c) jd) ->
  stores_jobs (contents (sv_db (cf_service c))) table ->
  (forall jd k, cf_jobs c !! jd = Some k -> jd ∉ config -> ends_cancelled k /\ storage_key_ok (JobKey jd)) ->
  (exists jd, superfluous c config jd) ->
  exists c' table' c'', runs (ReloadConfig config) c tt c' /\
    (forall jd, is_Some (cf_jobs c' !! jd) <-> jd ∈ config) /\
    (forall jd k, jd ∈ config -> cf_jobs c !! jd = Some k -> cf_jobs c' !! jd = Some k) /\
    cf_started c' = cf_started c ++ new_jobs c config /\
    stores_jobs (contents (sv_db (cf_service c'))) table' /\
    (forall jd, table' !! jd = if decide (superfluous c config jd) then None else table !! jd) /\
    same_records (fun k => exists jd, k = JobKey jd /\ superfluous c config jd) (sv_db (cf_service c))
      (sv_db (cf_service c')) /\
    (forall jd k, superfluous c config jd -> cf_jobs c !! jd = Some k -> k ∈ cf_cancelled c') /\
    all_cancelled c' /\
    runs (ReloadConfig config) c' tt c'' /\ cf_started c'' = cf_started c' /\ all_cancelled c''.
Proof.
  intros Hnd Hrun Hst Hstop Hsome.
  destruct (reload_ok config c table Hnd Hrun Hst Hstop)
    as (c' & table' & R & Hin & Hout & Est & Esv & Hst' & Ht & Hsame & Hcan & Hall & _).
  assert (forall jd, is_Some (cf_jobs c' !! jd) <-> jd ∈ config) as Hjobs.
  { intros jd. destruct (decide (jd ∈ config)) as [Hj|Hj].
    - rewrite (Hin jd Hj), (add_jobs_jobs object query), new_jobs_elem. split; [done|]. intros _.
      destruct (cf_jobs c !! jd) as [k|]; [left; by eexists|by right].
    - rewrite (Hout jd Hj). split; [by intros [? [=]]|done]. }
  assert (new_jobs c' config = []) as Hnone.
  { unfold new_jobs. destruct (filter _ config) as [|jd l] eqn:E; [done|]. exfalso.
    assert (jd ∈ jd :: l) as Hjd by left. rewrite <- E in Hjd. apply list_elem_of_filter in Hjd as [Hn Hj].
    apply Hjobs in Hj as [k Hk]. congruence. }
  destruct (reload_ok config c' table' Hnd) as (c'' & table'' & R'' & _ & _ & Est'' & _ & _ & _ & _ & _ & _ & Hall'').
  { intros jd Hj. destruct (Hrun jd Hj) as [(H1 & H2 & i & Hi & Hr) Hq]. split; [|done]. split; [done|]. split;
      [done|].
    exists i. rewrite Esv. split; [|exact Hr]. unfold has_index in *. cbn [sv_db with_db]. rewrite <- Hi.
    apply (Hsame (RegistryIndexKey (Job_Address jd)) H2). by intros (jd' & [=] & _). }
  { done. }
  { intros jd k Hk Hj. exfalso. rewrite (Hout jd Hj) in Hk. done. }
  exists c', table', c''. split; [done|]. split; [done|]. split.
  { intros jd k Hj Hk. rewrite (Hin jd Hj), add_jobs_other; [done|]. rewrite new_jobs_elem, Hk. by intros []. }
  do 6 (split; [done || by apply Hall|]). split; [done|].
  split; [by rewrite Est'', Hnone, app_nil_r|]. by apply Hall''; [apply Hall|].
Qed.
End Reload.

(** * Witness: the second of two running jobs is left out *)

(** Every goroutine ends with [context.Canceled]. *)
Definition cancelling_scheduler : GoScheduler := {|
  map_order m := (map_to_list m).*1;
  job_result _ := Some (Errorf "index EVM logs: %w" [] (Some (ContextError 1)))
|}.

Definition cancelling_laws : GoSchedulerLaws cancelling_scheduler.
Proof. by split. Qed.

Definition toy_filter_query (jd : JobDescriptor) : FilterQuery := mkFilterQuery [Job_Address jd] [[[1]]] None None.

(** The objects of the two registries. *)
Definition toy_object (jd : JobDescriptor) : nat := if decide (jd = second_job) then 1%nat else 0%nat.

Definition two_jobs : Configurator :=
  mkConfigurator (with_db toy_service (stopped_db : DB)) {[first_job := 0%nat; second_job := 1%nat]}
    [job_run toy_object toy_filter_query first_job 105; job_run toy_object toy_filter_query second_job 17] ∅.

Lemma reload_cancels_all_jobs_witness :
  exists c', runs (ReloadConfig (GS := cancelling_scheduler) [first_job]) two_jobs tt c' /\
    cf_jobs c' !! first_job = Some 0%nat /\ 0%nat ∈ cf_cancelled c'.
Proof.
  destruct (reload_cancels_all_jobs (JC := flat_codec) (KL := mem_db_laws) (GS := cancelling_scheduler)
    (GL := cancelling_laws) toy_object toy_filter_query [first_job] two_jobs {[first_job := 105]})
    as (c' & table' & c'' & R & _ & Hkeep & _ & _ & _ & _ & _ & Hall & _).
  - apply NoDup_singleton.
  - intros jd Hin. apply list_elem_of_singleton in Hin as ->. split; [|reflexivity]. split; [reflexivity|].
    split; [reflexivity|]. exists 0. split; [|vm_compute; reflexivity].
    pose proof stopped_registered as H. apply Forall2_cons in H as [[_ [H _]] _]. exact H.
  - exact stopped_jobs.
  - intros jd k Hk Hj. split; [eexists; split; [reflexivity|reflexivity]|].
    cbn [cf_jobs two_jobs] in Hk. apply lookup_insert_Some in Hk as [[<- _]|[_ Hk]]; [destruct Hj; left|].
    apply lookup_singleton_Some in Hk as [<- _]. split; [done|cbn; lia].
  - exists second_job. split; [eexists; vm_compute; reflexivity|]. rewrite list_elem_of_singleton. discriminate.
  - exists c'. split; [exact R|].
    assert (cf_jobs c' !! first_job = Some 0%nat) as E by (apply Hkeep; [left|vm_compute; reflexivity]).
    split; [exact E|]. by apply (Hall first_job).
Defined.
