(* ===== verification/Live.v ===== *)
(** The running service: jobs that index their registries and handlers that answer queries,
    over one database.  A range of blocks, or the logs of a subscription, are indexed in two
    steps, filling the batch and writing it under the registry's lock
    ([internal/indexer/indexer.go], [internal/indexer/ZkCertificateRegistry.go]); a query runs
    up to the registry's lock, or to the simulation that takes none, and later to its end
    ([internal/zkregistry/zk_certificate_registry.go], [internal/query]).  Between any two
    steps any other goroutine may take one.  A job that failed or was cancelled takes no more
    steps. *)

From stdpp Require Import base list numbers strings gmap.
From Stdlib Require Import ZArith Lia.
From S2P Require Import Prelude GoBase SparseTree Storage Registry Service Jobs Handlers HandlersFacts.
From S2P Require Import HandlersTheorems Indexer IndexerFacts RegistryJob.
Local Open Scope Z_scope.

Section Code.
Context {U256 : Uint256} {PH : Poseidon} {GE : GoEnv} {KV : KVDatabase} {JC : JobCodec} {CE : ContractEvents}.
Context {HA : HexAddress} {UT : Uint256Text}.

(** * A range of blocks in two steps *)

(** [Commit] up to the write. *)
Definition job_fill (jobDescriptor : JobDescriptor) (ctx : job_ctx) (block : Z) : go job_state Batch :=
  match OperationsBufferFromContext ctx with
  | None => go_throw (Errorf "leaves buffer not found in context" [] None)
  | Some b =>
      let! operationsBuffer := get_buffer b in
      fun s =>
        let r := js_registry s in
        let (c, filled) := fill_batch jobDescriptor (Operations operationsBuffer) block (r, DB_NewBatch (rs_db r)) in
        (match c with Ok _ => Ok (snd filled) | Throw e => Throw e | OutOfFuel => OutOfFuel end,
         mkJobState (fst filled) (js_parser s) (js_buffers s))
  end.

(** [handleLogs] up to the write. *)
Definition range_fill (jobDescriptor : JobDescriptor) (logs : list Log) (progressBlock : Z)
    : go (indexer_state job_state) Batch :=
  let handler := ZkCertificateRegistryJob_JobHandler jobDescriptor in
  let! storageCtx := go_wrap "prepare context: %w" [] (on_job (PrepareContext handler None)) in
  let! _ := handle_each handler storageCtx logs in
  go_wrap "job commit: %w" [] (on_job (job_fill jobDescriptor storageCtx progressBlock)).

(** The write, under the registry's lock. *)
Definition job_write (batch : Batch) : go job_state unit :=
  go_wrap "write batch with lock: %w" [] (on_job_registry (fun s =>
    let (c, database) := Batch_WriteSync batch (rs_db s) in
    (c, mkRegistryState (rs_reg s) database (rs_world s)))).

Definition range_write (batch : Batch) : go (indexer_state job_state) unit :=
  go_wrap "job commit: %w" [] (on_job (job_write batch)).

(** * A query in two steps *)

(** A query that waits for the read lock of its registry, with the index that was looked up
    for a leaf or the one that was drawn; or a batch that is simulated without a lock, where
    [overtaken] says that the registry was written since the query began. *)
Inductive open_query : Type :=
| Open_Proof (registry : nat) (leaf : string) (leafIndex : TreeLeafIndex)
| Open_EmptyLeaf (registry : nat) (emptyIndex : TreeLeafIndex)
| Open_BatchProofs (registry : nat) (operations : list LeafOperation) (overtaken : bool).

(** [Proof] up to the lock in [CreateProof]. *)
Definition begin_Proof (req : pb_QueryProofRequest) : go service_state open_query :=
  let registry := pb_QueryProofRequest_Registry req in
  let leaf := pb_QueryProofRequest_Leaf req in
  if negb (IsHexAddress registry) then go_throw (bad_address registry)
  else
    let! found := go_try (find_registry (HexToAddress registry)) in
    match found with
    | inl _ => go_throw (Status NotFound "registry not found: %s" [] [registry] None)
    | inr h =>
        let! isOnHead := on_head h in
        if negb isOnHead then go_throw not_on_head
        else
          match uint256_FromDecimal leaf with
          | inl _ => go_throw (Status InvalidArgument "invalid leaf value, must be a decimal number: %s" []
              [leaf] None)
          | inr leafValue =>
              let! looked := go_try (on_registry h (CreateProof_lookup leafValue)) in
              match looked with
              | inl err =>
                  if is_not_found err then go_throw (Status NotFound "leaf not found: %s" [] [leaf] None)
                  else go_throw (Status Internal "failed to create proof for leaf: %s" [] [leaf] None)
              | inr leafIndex => go_ret (Open_Proof h leaf leafIndex)
              end
          end
    end.

(** [GetEmptyLeafProof] up to the lock in [GetRandomEmptyLeafProof]. *)
Definition begin_GetEmptyLeafProof (req : pb_GetEmptyLeafProofRequest) : go service_state open_query :=
  let registry := pb_GetEmptyLeafProofRequest_Registry req in
  if negb (IsHexAddress registry) then go_throw (bad_address registry)
  else
    let! found := go_try (find_registry (HexToAddress registry)) in
    match found with
    | inl _ => go_throw (Status NotFound "tree not found: %s" [] [registry] None)
    | inr h =>
        let! isOnHead := on_head h in
        if negb isOnHead then go_throw not_on_head
        else
          let! drawn := go_try (on_registry h
            (go_wrap "failed to get random empty leaf proof: %w" [] (on_tree GetRandomEmptyLeafIndex))) in
          match drawn with
          | inl _ => go_throw (Status Internal "failed to get empty leaf proof, try again" [] [] None)
          | inr emptyIndex => go_ret (Open_EmptyLeaf h emptyIndex)
          end
    end.

(** [GetBatchProofs] up to the simulation. *)
Definition begin_GetBatchProofs (req : pb_QueryBatchProofsRequest) : go service_state open_query :=
  let registry := pb_QueryBatchProofsRequest_Registry req in
  if negb (IsHexAddress registry) then go_throw (bad_address registry)
  else
    let! found := go_try (find_registry (HexToAddress registry)) in
    match found with
    | inl _ => go_throw (Status NotFound "registry not found: %s" [] [registry] None)
    | inr h =>
        let! isOnHead := on_head h in
        if negb isOnHead then go_throw not_on_head
        else if (length (pb_QueryBatchProofsRequest_Operations req) =? 0)%nat then
          go_throw (Status InvalidArgument "operations cannot be empty" [] [] None)
        else
          let! operations := go_res (convert_operations 0 (pb_QueryBatchProofsRequest_Operations req) []) in
          go_ret (Open_BatchProofs h operations false)
    end.

(** The checks and the lookup are one step.  A job takes its registry off the head only when it
    starts, so the flag does not fall after it was checked; the lookup is one read, and of the
    draws for an empty leaf only the last read counts: a write between the check and that read
    is as good as one before both. *)
Definition begin_query (q : query) : go service_state open_query :=
  match q with
  | Query_Proof req => begin_Proof req
  | Query_GetEmptyLeafProof req => begin_GetEmptyLeafProof req
  | Query_GetBatchProofs req => begin_GetBatchProofs req
  end.

(** [Proof] from the lock on. *)
Definition finish_Proof (h : nat) (leaf : string) (leafIndex : TreeLeafIndex)
    : go service_state pb_QueryProofResponse :=
  let! created := go_try (on_registry h (CreateProof_locked leafIndex)) in
  match created with
  | inl err =>
      if is_not_found err then go_throw (Status NotFound "leaf not found: %s" [] [leaf] None)
      else go_throw (Status Internal "failed to create proof for leaf: %s" [] [leaf] None)
  | inr proof =>
      go_ret (mkpb_QueryProofResponse
        (mkpb_Proof leaf (map uint256_String (Proof_Path proof)) (u32 (Proof_Index proof))
           (uint256_String (Proof_Root proof))))
  end.

(** [GetEmptyLeafProof] from the lock on. *)
Definition finish_GetEmptyLeafProof (h : nat) (emptyIndex : TreeLeafIndex)
    : go service_state pb_GetEmptyLeafProofResponse :=
  let! created := go_try (on_registry h (CreateProof_locked emptyIndex)) in
  match created with
  | inl _ => go_throw (Status Internal "failed to get empty leaf proof, try again" [] [] None)
  | inr proof =>
      go_ret (mkpb_GetEmptyLeafProofResponse
        (mkpb_Proof (uint256_String (Proof_Leaf proof)) (map uint256_String (Proof_Path proof))
           (u32 (Proof_Index proof)) (uint256_String (Proof_Root proof))))
  end.

(** [GetBatchProofs] from the simulation on, when its reads all see the registry as it is now. *)
Definition finish_GetBatchProofs (h : nat) (operations : list LeafOperation)
    : go service_state pb_QueryBatchProofsResponse :=
  let! simulated := go_try (on_registry h (on_tree (SimulateBatchOperations operations))) in
  match simulated with
  | inl err => go_throw (Status Internal "failed to simulate batch operations: %v" [] [] (Some err))
  | inr (initialRoot, proofs) =>
      go_ret (mkpb_QueryBatchProofsResponse (uint256_String initialRoot) (map batch_proof proofs))
  end.

Definition finish_query (o : open_query) : go service_state answer :=
  match o with
  | Open_Proof h leaf leafIndex => let! res := finish_Proof h leaf leafIndex in go_ret (Answer_Proof res)
  | Open_EmptyLeaf h emptyIndex =>
      let! res := finish_GetEmptyLeafProof h emptyIndex in go_ret (Answer_GetEmptyLeafProof res)
  | Open_BatchProofs h operations _ =>
      let! res := finish_GetBatchProofs h operations in go_ret (Answer_GetBatchProofs res)
  end.

(** A write to the registry [h] overtakes the batches that are simulated on it. *)
Definition overtaken_by (h : nat) (o : open_query) : open_query :=
  match o with
  | Open_BatchProofs h' operations overtaken =>
      Open_BatchProofs h' operations (overtaken || bool_decide (h' = h))
  | _ => o
  end.

Definition is_overtaken (o : open_query) : bool :=
  match o with Open_BatchProofs _ _ overtaken => overtaken | _ => false end.

(** * The system *)

(** Where a job is: it waits for the next range or the next logs; it has filled a batch with
    the progress block and will go on from [next]; or it has ended with an error. *)
Inductive job_phase : Type :=
| Waiting
| Filled (next block : Z) (batch : Batch)
| Ended (err : go_error).

(** A job: its registry object, its parser and buffers, its [fromBlock]. *)
Record running_job : Type := mkRunningJob {
  jr_descriptor : JobDescriptor;
  jr_registry : nat;
  jr_parser : option BoundContract;
  jr_buffers : list OperationsBuffer;
  jr_next : Z;
  jr_phase : job_phase
}.

(** The mode is that of the indexer's configuration. *)
Record live_state : Type := mkLiveState {
  lv_mode : Mode;
  lv_service : service_state;
  lv_jobs : list running_job;
  lv_open : list open_query
}.

Inductive live_action : Type :=
| Fill (job : nat) (toBlock : Z)
| Sink (job : nat) (logs : list Log)
| WriteBatch (job : nat)
| ChangeMode (job : nat) (mode : Mode)
| Begin (q : query)
| Finish (request : nat).

(** [Mixed] is the end of a batch that a write overtook: some of its reads may have seen the
    registry before the write and some after it, and nothing is said of its answer. *)
Inductive live_output : Type :=
| Skipped
| Done (r : gores unit)
| Opened (o : open_query)
| Answered (c : gores answer)
| Mixed.

(** A method of the job [k], on the registry object it shares with the service. *)
Definition on_live_job {A : Type} (r : running_job) (reg : ZKCertificateRegistry) (k : nat) (m : go job_state A)
    (s : live_state) : gores A * live_state :=
  let svc := lv_service s in
  let (c, j) := m (mkJobState (registry_view svc reg) (jr_parser r) (jr_buffers r)) in
  (c, mkLiveState (lv_mode s) (sv_after svc (jr_registry r) (js_registry j))
        (<[k := mkRunningJob (jr_descriptor r) (jr_registry r) (js_parser j) (js_buffers j) (jr_next r) (jr_phase r)]>
           (lv_jobs s)) (lv_open s)).

(** The job [k] goes on to another range or phase. *)
Definition job_goes (k : nat) (next : Z -> Z) (phase : job_phase) (s : live_state) : live_state :=
  mkLiveState (lv_mode s) (lv_service s)
    (alter (fun r => mkRunningJob (jr_descriptor r) (jr_registry r) (jr_parser r) (jr_buffers r)
        (next (jr_next r)) phase)
       k (lv_jobs s)) (lv_open s).

(** A computation of the indexer on the job alone. *)
Definition in_run {A : Type} (m : go (indexer_state job_state) A) : go job_state A :=
  fun j => let (c, s) := m (new_run j) in (c, ix_job s).

(** The job [k], which waits, fills a batch with logs and their progress block. *)
Definition fill_logs (k : nat) (r : running_job) (logs : list Log) (progressBlock next : Z) (s : live_state)
    : live_output * live_state :=
  match sv_objects (lv_service s) !! jr_registry r with
  | Some reg =>
      let (c, s') := on_live_job r reg k (in_run (range_fill (jr_descriptor r) logs progressBlock)) s in
      match c with
      | Ok batch => (Done (Ok tt), job_goes k id (Filled next progressBlock batch) s')
      | Throw e => (Done (Throw e), job_goes k id (Ended e) s')
      | OutOfFuel => (Done OutOfFuel, s')
      end
  | None => (Skipped, s)
  end.

(** A range of blocks, in any mode: the logs that job [k] gets are those of its chain. *)
Definition live_fill (chains : nat -> Z -> list Log) (k : nat) (toBlock : Z) (s : live_state)
    : live_output * live_state :=
  match lv_jobs s !! k with
  | Some r =>
      match jr_phase r with
      | Waiting =>
          if (jr_next r <=? toBlock) && (toBlock <? 2 ^ 64)
          then fill_logs k r (block_logs (chains k) (jr_next r) toBlock) toBlock (toBlock + 1) s
          else (Skipped, s)
      | _ => (Skipped, s)
      end
  | None => (Skipped, s)
  end.

(** Logs that were read from the subscription, whichever they are: those before [fromBlock] are
    left out, and [fromBlock] stays.  Only in the mode with a subscription. *)
Definition live_sink (k : nat) (logs : list Log) (s : live_state) : live_output * live_state :=
  match lv_jobs s !! k, last logs with
  | Some r, Some lastLog =>
      match jr_phase r with
      | Waiting =>
          if String.eqb (lv_mode s) ModeWS
          then fill_logs k r (List.filter (fun eventLog => jr_next r <=? Log_BlockNumber eventLog) logs)
                 (Log_BlockNumber lastLog) (jr_next r) s
          else (Skipped, s)
      | _ => (Skipped, s)
      end
  | _, _ => (Skipped, s)
  end.

Definition live_write (k : nat) (s : live_state) : live_output * live_state :=
  match lv_jobs s !! k with
  | Some r =>
      match jr_phase r, sv_objects (lv_service s) !! jr_registry r with
      | Filled next _ batch, Some reg =>
          let (c, s1) := on_live_job r reg k (in_run (range_write batch)) s in
          let s' := mkLiveState (lv_mode s1) (lv_service s1) (lv_jobs s1)
                      (map (overtaken_by (jr_registry r)) (lv_open s1)) in
          match c with
          | Ok _ => (Done (Ok tt), job_goes k (fun _ => next) Waiting s')
          | Throw e => (Done (Throw e), job_goes k id (Ended e) s')
          | OutOfFuel => (Done OutOfFuel, s')
          end
      | _, _ => (Skipped, s)
      end
  | None => (Skipped, s)
  end.

Definition live_mode (k : nat) (mode : Mode) (s : live_state) : live_output * live_state :=
  match lv_jobs s !! k with
  | Some r =>
      match jr_phase r, sv_objects (lv_service s) !! jr_registry r with
      | Waiting, Some reg =>
          let (c, s') := on_live_job r reg k (job_OnIndexerModeChange mode) s in (Done c, s')
      | _, _ => (Skipped, s)
      end
  | None => (Skipped, s)
  end.

Definition live_begin (q : query) (s : live_state) : live_output * live_state :=
  match begin_query q (lv_service s) with
  | (Ok o, svc) => (Opened o, mkLiveState (lv_mode s) svc (lv_jobs s) (lv_open s ++ [o]))
  | (Throw e, svc) => (Answered (Throw e), mkLiveState (lv_mode s) svc (lv_jobs s) (lv_open s))
  | (OutOfFuel, svc) => (Answered OutOfFuel, mkLiveState (lv_mode s) svc (lv_jobs s) (lv_open s))
  end.

(** The answer of a batch that was overtaken is left open; what it leaves behind, filled caches
    of empty branches and used random numbers, is as if it ran on the registry as it is now. *)
Definition live_finish (request : nat) (s : live_state) : live_output * live_state :=
  match lv_open s !! request with
  | Some o =>
      let (c, svc) := finish_query o (lv_service s) in
      (if is_overtaken o then Mixed else Answered c,
       mkLiveState (lv_mode s) svc (lv_jobs s) (delete request (lv_open s)))
  | None => (Skipped, s)
  end.

(** An action that is not possible is skipped. *)
Definition live_do (chains : nat -> Z -> list Log) (act : live_action) (s : live_state) : live_output * live_state :=
  match act with
  | Fill k toBlock => live_fill chains k toBlock s
  | Sink k logs => live_sink k logs s
  | WriteBatch k => live_write k s
  | ChangeMode k mode => live_mode k mode s
  | Begin q => live_begin q s
  | Finish request => live_finish request s
  end.

Fixpoint live_all (chains : nat -> Z -> list Log) (acts : list live_action) (s : live_state)
    : list live_output * live_state :=
  match acts with
  | [] => ([], s)
  | act :: acts' =>
      let (o, s1) := live_do chains act s in let (os, s2) := live_all chains acts' s1 in (o :: os, s2)
  end.
End Code.
