(* ===== verification/LiveFacts.v ===== *)
(** The running service: its steps are those of the indexer and of the handlers, and what a
    registry holds depends on its own records only, so that the steps of others keep it. *)

From stdpp Require Import base list numbers strings gmap.
From Stdlib Require Import ZArith Lia.
From S2P Require Import Prelude GoBase MerkleSpec SparseTree SparseTreeFacts SparseTreeInsert SparseTreeProofs.
From S2P Require Import SparseTreeSimulation SparseTreeRuns Storage StorageFacts Registry RegistryFacts RegistryRuns.
From S2P Require Import Service ServiceFacts Handlers HandlersFacts HandlersTheorems Locks LocksTheorems.
From S2P Require Import Jobs Indexer IndexerFacts RegistryJob RegistryJobFacts Live.
Local Open Scope Z_scope.

(** * The two steps in a row *)

Section TwoSteps.
Context {U256 : Uint256} {PH : Poseidon} {GE : GoEnv} {KV : KVDatabase} {JC : JobCodec} {CE : ContractEvents}.
Context {HA : HexAddress} {UT : Uint256Text}.

Lemma Job_Commit_two_steps (jd : JobDescriptor) (ctx : job_ctx) (block : Z) (s : job_state) :
  job_Commit jd ctx block s = (let! batch := job_fill jd ctx block in job_write batch) s.
Proof.
  unfold job_Commit, job_fill. destruct (OperationsBufferFromContext ctx) as [b|]; [|done].
  unfold go_bind, get_buffer. destruct (js_buffers s !! b) as [buf|]; [|done].
  unfold on_job_registry, Job_Commit, fill_batch, go_bind.
  set (first_part := if (0 <? length (Operations buf))%nat then _ else _).
  destruct (first_part (js_registry s, DB_NewBatch (rs_db (js_registry s)))) as [[[]|e|] [r1 b1]]; [|done|done].
  destruct (go_wrap _ _ (on_batch_of _) (r1, b1)) as [[[]|e|] [r2 b2]]; [|done|done].
  unfold job_write, on_job_registry, go_wrap, writeBatchWithLock. cbn [fst snd js_registry].
  by destruct (Batch_WriteSync b2 (rs_db r2)) as [c d].
Qed.

Lemma handleLogs_two_steps (jd : JobDescriptor) (logs : list Log) (block : Z) (s : indexer_state job_state) :
  handleLogs (ZkCertificateRegistryJob_JobHandler jd) None logs block s =
  (let! batch := range_fill jd logs block in range_write batch) s.
Proof.
  unfold handleLogs, range_fill, go_bind.
  destruct (go_wrap "prepare context: %w" [] (on_job (PrepareContext (ZkCertificateRegistryJob_JobHandler jd)
      None)) s)
    as [[ctx|e|] s1]; [|done|done].
  destruct (handle_each _ ctx logs s1) as [[[]|e|] s2]; [|done|done].
  unfold range_write, go_wrap, on_job. cbn [Commit ZkCertificateRegistryJob_JobHandler].
  rewrite Job_Commit_two_steps. unfold go_bind.
  by destruct (job_fill jd ctx block (ix_job s2)) as [[batch|e|] j].
Qed.

Lemma on_registry_bind {A B : Type} (h : nat) (m : go registry_state A) (k : A -> go registry_state B)
    (s : service_state) :
  on_registry h (go_bind m k) s = (let! a := on_registry h m in on_registry h (k a)) s.
Proof.
  unfold on_registry, go_bind. destruct (sv_objects s !! h) as [reg|] eqn:E; [|done].
  destruct (m _) as [[a|e|] s1]; [|done|done]. cbn [sv_objects].
  rewrite list_lookup_insert_eq by (by eapply lookup_lt_Some). cbn [sv_db sv_world]. destruct s1 as [reg1 d1 w1].
  cbn [rs_reg rs_db rs_world]. destruct (k a _) as [c s2]. by rewrite list_insert_insert_eq.
Qed.

Lemma bind_assoc {S A B C : Type} (m : go S A) (k : A -> go S B) (l : B -> go S C) (s : S) :
  go_bind (go_bind m k) l s = go_bind m (fun a => go_bind (k a) l) s.
Proof. unfold go_bind. by destruct (m s) as [[a|e|] s']. Qed.

Lemma bind_ext {S A B : Type} (m : go S A) (k k' : A -> go S B) (s : S) :
  (forall a s', k a s' = k' a s') -> go_bind m k s = go_bind m k' s.
Proof. intros H. unfold go_bind. destruct (m s) as [[a|e|] s']; [apply H|done|done]. Qed.

Lemma query_two_steps (q : query) (s : service_state) :
  serve_query q s = (let! o := begin_query q in finish_query o) s.
Proof.
  destruct q as [req|req|req]; cbn [serve_query begin_query].
  - unfold Server_Proof, begin_Proof. destruct (negb (IsHexAddress _)); [done|].
    rewrite !bind_assoc. apply bind_ext. intros [e|h] s1; [done|]. rewrite !bind_assoc. apply bind_ext.
    intros [] s2; [|done]. cbn [negb]. destruct (uint256_FromDecimal _) as [e|v]; [done|].
    rewrite !bind_assoc. unfold go_bind at 1, go_try at 1, Registry_CreateProof. rewrite on_registry_bind.
    unfold go_bind, go_try. destruct (on_registry h (CreateProof_lookup v) s2) as [[i|e|] s3]; [|..|done].
    + unfold finish_query, finish_Proof, go_ret, go_bind, go_try.
      destruct (on_registry h (CreateProof_locked i) s3) as [[p|e|] s4]; [done| |done].
      destruct (is_panic e); [done|]. by destruct (is_not_found e).
    + destruct (is_panic e); [done|]. by destruct (is_not_found e).
  - unfold Server_GetEmptyLeafProof, begin_GetEmptyLeafProof.
    destruct (negb (IsHexAddress _)); [done|].
    rewrite !bind_assoc. apply bind_ext. intros [e|h] s1; [done|]. rewrite !bind_assoc. apply bind_ext.
    intros [] s2; [|done]. cbn [negb].
    rewrite !bind_assoc. unfold go_bind at 1, go_try at 1, GetRandomEmptyLeafProof. rewrite on_registry_bind.
    unfold go_bind, go_try. destruct (on_registry h (go_wrap _ [] _) s2) as [[i|e|] s3]; [|..|done].
    + unfold finish_query, finish_GetEmptyLeafProof, go_ret, go_bind, go_try.
      destruct (on_registry h (CreateProof_locked i) s3) as [[p|e|] s4]; [done| |done].
      by destruct (is_panic e).
    + by destruct (is_panic e).
  - unfold Server_GetBatchProofs, begin_GetBatchProofs. destruct (negb (IsHexAddress _)); [done|].
    rewrite !bind_assoc. apply bind_ext. intros [e|h] s1; [done|]. rewrite !bind_assoc. apply bind_ext.
    intros [] s2; [|done]. cbn [negb]. destruct (_ =? 0)%nat; [done|].
    rewrite !bind_assoc. apply bind_ext. by intros ops s3.
Qed.
End TwoSteps.

(** * What a registry holds depends on its own records *)

Section Frame.
Context {U256 : Uint256} {UL : Uint256Laws U256} {PH : Poseidon} {PL : PoseidonLaws PH} {GE : GoEnv}.
Context {KV : KVDatabase} {KL : KVDatabaseLaws KV} {JC : JobCodec} {CE : ContractEvents}.

Lemma agree_same (r : RegistryIndex) (d : DB) : agree r d d.
Proof. by intros k _ _. Qed.

Lemma object_index (meta : Metadata) (s : registry_state) :
  object_of meta (rs_reg s) -> reg_index s = Meta_Index meta /\ depth (reg_tree s) = Meta_Depth meta /\
    emtpyLeaf (reg_tree s) = Meta_EmptyValue meta /\ obj_view (reg_sparseTree (rs_reg s))
        = mkLeafView (Meta_Index meta) /\
    reg_leafView (rs_reg s) = mkLeafView (Meta_Index meta) /\ Meta_EmptyValue (reg_metadata (rs_reg s))
        = Meta_EmptyValue meta.
Proof. intros (levels & p & E). unfold reg_index, reg_tree. by rewrite E. Qed.

Lemma getter_agree (meta : Metadata) (s s' : registry_state) (l i : Z) :
  object_of meta (rs_reg s) -> object_of meta (rs_reg s') -> 0 <= Meta_Index meta < 2 ^ 8 ->
  agree (Meta_Index meta) (rs_db s) (rs_db s') -> key_ok l i ->
  storageLeafGetter (reg_tree s') l i = storageLeafGetter (reg_tree s) l i.
Proof.
  intros Ho Ho' Hr Ha Hk. unfold reg_tree, tree_at, LeafView_GetLeaf. cbn [storageLeafGetter].
  destruct (object_index _ _ Ho) as (_ & _ & _ & -> & _), (object_index _ _ Ho') as (_ & _ & _ & -> & _).
  cbn [view_registryIndex]. rewrite !GetLeaf_contents by done.
  by rewrite (Ha (LeafKey (Meta_Index meta) l i) (conj Hr Hk) eq_refl : contents _ !! makeLeafKey _ l i = _).
Qed.

Lemma stored_agree (meta : Metadata) (s s' : registry_state) (l i : Z) :
  object_of meta (rs_reg s) -> object_of meta (rs_reg s') -> 0 <= Meta_Index meta < 2 ^ 8 ->
  agree (Meta_Index meta) (rs_db s) (rs_db s') -> key_ok l i -> stored (reg_tree s') l i = stored (reg_tree s) l i.
Proof.
  intros Ho Ho' Hr Ha Hk. unfold stored. rewrite (getter_agree meta s s') by done.
  destruct (object_index _ _ Ho) as (_ & _ & -> & _), (object_index _ _ Ho') as (_ & _ & -> & _). done.
Qed.

Lemma models_agree (meta : Metadata) (s s' : registry_state) (leaf : Z -> Z) (idx : Z -> option Z) :
  object_of meta (rs_reg s) -> object_of meta (rs_reg s') -> agree (Meta_Index meta) (rs_db s) (rs_db s') ->
  cache_ok (reg_tree s') -> reg_models s leaf idx -> reg_models s' leaf idx.
Proof.
  intros Ho Ho' Ha Hc Hm. pose proof (rm_registry _ _ _ Hm) as Hr. pose proof (depth_range _ _ _ Hm) as Hd.
  pose proof (object_index _ _ Ho) as (E1 & E2 & E3 & E4 & E5 & E6).
  pose proof (object_index _ _ Ho') as (F1 & F2 & F3 & F4 & F5 & F6). rewrite E1 in Hr. rewrite E2 in Hd.
  assert (forall l i, inside (Meta_Depth meta) l i -> stored (reg_tree s') l i = stored (reg_tree s) l i) as Es.
  { intros l i Hin. apply (stored_agree meta); [done..|]. apply (index_key (Meta_Depth meta)); [lia|done]. }
  destruct Hm as [H1 H2 H3 H4 (H5 & H6 & H7 & H8) H9 H10 H11 H12 H13].
  rewrite ?E1, ?E2, ?E3, ?E6 in *. split; rewrite ?F1, ?F2, ?F3, ?F4, ?F5, ?F6; try done.
  - split; [unfold depth_ok in *; by rewrite F2, <- E2|]. split; [by rewrite F3|]. split; [|exact Hc].
    intros l i Hk. rewrite (getter_agree meta s s') by done. by apply H7.
  - apply (consistent_ext _ _ (stored (reg_tree s))); [exact Es|exact H10].
  - intros i Hi. rewrite Es; [by apply H11|]. split; [lia|by rewrite Z.sub_0_r].
  - intros v Hv. rewrite <- (H12 v Hv). by apply (Ha (LeafIndexKey (Meta_Index meta) v)).
Qed.

(** A batch that was prepared stays so. *)
Lemma prepared_agree (meta : Metadata) (s s1 s' : registry_state) (leaf : Z -> Z) (cs : list change) (b : Batch) :
  object_of meta (rs_reg s) -> object_of meta (rs_reg s') -> 0 <= Meta_Index meta < 2 ^ 8 -> Meta_Depth meta <= 32 ->
  agree (Meta_Index meta) (rs_db s) (rs_db s') -> cache_ok (reg_tree s') -> prepared s leaf cs s1 b ->
  prepared s' leaf cs s' b.
Proof.
  intros Ho Ho' Hr Hd Ha Hc Hp.
  pose proof (object_index _ _ Ho) as (E1 & E2 & _). pose proof (object_index _ _ Ho') as (F1 & F2 & _).
  destruct Hp as [H1 _ _ _ H5 H6]. rewrite E1, ?E2 in *. split; rewrite ?F1, ?F2; try done.
  - exists (obj_emptyBranchLevels (reg_sparseTree (rs_reg s'))). by destruct (rs_reg s') as [m [] v p].
  - intros l i Hk. specialize (H5 l i Hk). destruct (last_change _ _) as [o|]; [done|].
    intros Hin. rewrite (stored_agree meta s s') by done. by apply H5.
Qed.

(** * Filling and writing a batch *)

(** The batch holds the operations, prepared for the registry as it is now, and the record. *)
Definition filled (s : registry_state) (jd : JobDescriptor) (leaf : Z -> Z) (ops : list LeafOperation) (block : Z)
    (batch : Batch) : Prop :=
  exists b0 jb, encode_job (mkJob jd block) = inr jb /\ writable batch /\
    pending batch = pending b0 ++ [Put (makeJobKey jd) jb] /\
    prepared s (abs_leaves (emtpyLeaf (reg_tree s)) leaf ops) (map (index_change (reg_index s)) ops) s b0.

Lemma filled_agree (meta : Metadata) (s s' : registry_state) (jd : JobDescriptor) (leaf : Z -> Z)
    (ops : list LeafOperation) (block : Z) (batch : Batch) :
  object_of meta (rs_reg s) -> object_of meta (rs_reg s') -> 0 <= Meta_Index meta < 2 ^ 8 -> Meta_Depth meta <= 32 ->
  agree (Meta_Index meta) (rs_db s) (rs_db s') -> cache_ok (reg_tree s') -> filled s jd leaf ops block batch ->
  filled s' jd leaf ops block batch.
Proof.
  intros Ho Ho' Hr Hd Ha Hc (b0 & jb & Hjb & Hw & Hp & Hprep). exists b0, jb. split; [done|]. split; [done|].
  split; [done|]. pose proof (object_index _ _ Ho) as (E1 & _ & E3 & _).
  pose proof (object_index _ _ Ho') as (F1 & _ & F3 & _). rewrite F1, F3. rewrite E1, E3 in Hprep.
  by apply (prepared_agree meta s s).
Qed.

Lemma fill_batch_ok (meta : Metadata) (s : registry_state) (leaf : Z -> Z) (idx : Z -> option Z) (jd : JobDescriptor)
    (ops : list LeafOperation) (block : Z) (jb : gobytes) :
  object_of meta (rs_reg s) -> reg_models s leaf idx -> storage_key_ok (JobKey jd) ->
  encode_job (mkJob jd block) = inr jb -> Forall (operation_ok (depth (reg_tree s))) ops ->
  exists s1 batch, runs (fill_batch jd ops block) (s, DB_NewBatch (rs_db s)) tt (s1, batch) /\
    rs_db s1 = rs_db s /\ same_registry (rs_reg s) (rs_reg s1) /\ cache_ok (reg_tree s1) /\
    filled s1 jd leaf ops block batch.
Proof.
  intros Ho Hm Hj Hjb Hops. destruct (NewBatch_pending (rs_db s)) as [Hw0 Hp0].
  destruct (commit_part_ok s leaf idx ops _ Hm Hw0 Hp0 Hops) as (s1 & b & R & Hp).
  pose proof (key_bytes_nonempty (JobKey jd) Hj) as Hne. cbn [key_bytes] in Hne.
  destruct (Batch_Set_pending b (makeJobKey jd) jb (pr_writable _ _ _ _ _ Hp) Hne) as (b2 & E2 & Hw2 & Hp2).
  pose proof (pr_db _ _ _ _ _ Hp) as Ed. pose proof (pr_registry _ _ _ _ _ Hp) as Hsame.
  pose proof (pr_cache _ _ _ _ _ Hp) as Hc.
  assert (object_of meta (rs_reg s1)) as Ho1 by (by apply (object_of_same _ (rs_reg s))).
  exists s1, b2. split; [|split; [done|split; [done|split; [done|]]]].
  - unfold fill_batch. eapply runs_bind; [exact R|]. apply runs_wrap. unfold runs, on_batch_of, UpsertJob.
    cbn [snd fst Job_Descriptor]. erewrite bind_runs; [|apply runs_wrap, runs_res; by rewrite Hjb]. by rewrite E2.
  - exists b, jb. split; [done|]. split; [done|]. split; [done|]. pose proof (rm_registry _ _ _ Hm) as Hr.
    pose proof (depth_range _ _ _ Hm) as Hd. pose proof (object_index _ _ Ho) as (E1 & D1 & E3 & _).
    pose proof (object_index _ _ Ho1) as (F1 & _ & F3 & _). rewrite F1, F3. rewrite E1 in Hr. rewrite E1, E3 in Hp.
    apply (prepared_agree meta s s1 s1); [done|done|done|lia| |done|done]. rewrite Ed. apply agree_same.
Qed.

(** The records of other jobs, and whatever else lies under their prefix, are as before. *)
Definition jobs_kept (jd : JobDescriptor) (d d' : DB) : Prop :=
  forall key, [JobKeyPrefix] `prefix_of` key -> key <> makeJobKey jd -> contents d' !! key = contents d !! key.

Lemma index_changes_jobs (r d : Z) (ops : list LeafOperation) (key : gobytes) :
  0 <= r < 2 ^ 8 -> Forall (operation_ok d) ops -> [JobKeyPrefix] `prefix_of` key ->
  last_change (map (index_change r) ops) key = None.
Proof.
  intros Hr Hops Hk. apply last_change_none, Forall_map. eapply Forall_impl; [exact Hops|].
  intros op (_ & _ & Hf). cbn. rewrite index_change_key.
  apply (job_prefix_other (LeafIndexKey r (Leaf_Value (Operation_Leaf op)))); [|done|done].
  split; [done|by apply field_256].
Qed.

Lemma write_filled (s : registry_state) (leaf : Z -> Z) (idx : Z -> option Z) (jd : JobDescriptor)
    (ops : list LeafOperation) (block : Z) (batch : Batch) :
  let leaf' := abs_leaves (emtpyLeaf (reg_tree s)) leaf ops in
  reg_models s leaf idx -> storage_key_ok (JobKey jd) -> Forall (operation_ok (depth (reg_tree s))) ops ->
  no_zero_node (depth (reg_tree s)) leaf' -> filled s jd leaf ops block batch ->
  exists d jb, Batch_WriteSync batch (rs_db s) = (Ok tt, d) /\
    reg_models (mkRegistryState (rs_reg s) d (rs_world s)) leaf' (abs_indices idx ops) /\
    encode_job (mkJob jd block) = inr jb /\ contents d !! makeJobKey jd = Some jb /\
    same_records (belongs_to (reg_index s) jd) (rs_db s) d /\ jobs_kept jd (rs_db s) d.
Proof.
  intros leaf' Hm Hj Hops Hnz (b0 & jb & Hjb & Hw & Hp & Hprep). pose proof (rm_registry _ _ _ Hm) as Hr.
  destruct (WriteSync_contents batch (rs_db s) Hw) as (d & E & Hd). rewrite Hp in Hd. exists d, jb.
  assert (forall k, last_change (pending b0 ++ [Put (makeJobKey jd) jb]) k =
    if decide (k = makeJobKey jd) then Some (Some jb) else last_change (pending b0) k) as Hl.
  { intros k. rewrite last_change_snoc. cbn. by destruct (decide _). }
  assert (overwritten s jd b0 d) as Ho.
  { intros k Hk Hne. rewrite Hd, apply_changes_lookup, Hl, decide_False; [done|]. intros E'.
      by apply Hne, key_bytes_inj. }
  split; [done|]. split; [by apply (overwritten_models s leaf idx ops jd s b0 d)|]. split; [done|].
  split; [by rewrite Hd, apply_changes_lookup, Hl, decide_True|]. split.
  2:{ intros key Hk Hne. rewrite Hd, apply_changes_lookup, Hl, decide_False by done.
      rewrite (pr_rest _ _ _ _ _ Hprep), (index_changes_jobs _ (depth (reg_tree s))); try done.
      intros l i Hli. apply not_eq_sym. by apply (job_prefix_other (LeafKey (reg_index s) l i)). }
  intros k Hk Hb. rewrite (Ho k Hk).
  - rewrite (pr_rest _ _ _ _ _ Hprep), (index_changes_other _ (depth (reg_tree s))); try done.
    + intros v ->. by apply Hb.
    + intros l i Hli E'. apply Hb. by rewrite (key_bytes_inj k (LeafKey (reg_index s) l i) Hk (conj Hr Hli) E').
  - intros ->. by apply Hb.
Qed.

(** * A range of blocks *)

Section Range.
Context (jd : JobDescriptor) (parser : BoundContract) (events : string -> gobytes) (chain : Z -> list Log).
Context (meta : Metadata) (leaf0 : Z -> Z) (idx0 : Z -> option Z) (first : Z).
Context (Hok : chain_ok jd parser events chain meta leaf0 first).

#[local] Abbreviation indexed_at n r := (indexed jd parser chain meta leaf0 idx0 first (rs_db r) n r).
#[local] Abbreviation leaves n := (leaves_after parser chain meta leaf0 first n).
#[local] Abbreviation operations a b := (chain_operations parser chain a b).

(** The job's records and its registry's, unchanged. *)
Lemma indexed_agree (n : Z) (s s' : registry_state) :
  object_of meta (rs_reg s') -> cache_ok (reg_tree s') ->
  (forall k, storage_key_ok k -> belongs_to (Meta_Index meta) jd k ->
     contents (rs_db s') !! key_bytes k = contents (rs_db s) !! key_bytes k) ->
  indexed_at n s -> indexed_at n s'.
Proof.
  intros Ho Hc Hd [Hm Ho1 Hrec _]. split; [|done| |done].
  - apply (models_agree meta s); [done|done| |done|done]. intros k Hk Hb. apply Hd; [done|]. by destruct k.
  - intros Hn. destruct (Hrec Hn) as (jb & E & Ej). exists jb. split; [done|].
    rewrite <- Ej. by apply (Hd (JobKey jd) (co_key _ _ _ _ _ _ _ Hok)).
Qed.

Lemma range_fill_ok (start n a b : Z) (r : registry_state) (p : option BoundContract) (bufs : list OperationsBuffer) :
  0 <= first <= a -> n = a \/ a = start /\ n = a + 1 -> a <= b < 2 ^ 64 -> p = None \/ p = Some parser ->
  indexed_at n r ->
  exists batch r' p' bufs', runs (in_run (range_fill jd (block_logs chain a b) b)) (mkJobState r p bufs) batch
      (mkJobState r' p' bufs') /\
    rs_db r' = rs_db r /\ same_registry (rs_reg r) (rs_reg r') /\ cache_ok (reg_tree r') /\
    (p' = None \/ p' = Some parser) /\ filled r' jd (leaves (n - 1)) (operations a b) b batch.
Proof.
  intros Hf Hn Hab Hp Hi.
  pose proof (registry_job_laws jd parser events chain meta leaf0 idx0 first (rs_db r) start Hok) as HL.
  assert (job_indexed jd parser chain meta leaf0 idx0 first (rs_db r) start "" a (mkJobState r p bufs)) as Hj.
  { split; [exists n; split; [lia|done]|]. split; [done|]. by split; [intros [[=]|[=]]|intros [=]]. }
  destruct (job_prepare _ _ _ _ _ _ _ _ _ _ _ _ Hj) as (c & j1 & R1 & J1).
  assert (js_registry j1 = r) as Er1 by (by injection R1 as _ <-).
  destruct (handle_each_ok (HL := HL) "" a c (block_logs chain a b) [] (new_run j1)) as (j2 & R2 & J2); [|done|].
  { intros log Hin. apply block_logs_in in Hin as (m & Hm & Hin). exists m. split; [lia|done]. }
  assert (js_registry j2 = r) as Er2.
  { rewrite <- Er1. pose proof (handle_each_registry jd c (block_logs chain a b) (new_run j1)) as E.
    unfold runs in R2. rewrite R2 in E. exact E. }
  destruct J2 as (((_ & _ & _ & _) & Hp2 & _) & k & buffer & -> & Hk & _ & Hops). cbn [app] in Hops.
  pose proof (indexed_depth jd parser chain meta leaf0 idx0 first (rs_db r) n r Hi) as (Ed & _).
  destruct (co_encode _ _ _ _ _ _ _ Hok b) as [jb Hjb]; [lia|].
  destruct (fill_batch_ok meta r (leaves (n - 1)) _ jd (operations a b) b jb (ind_object _ _ _ _ _ _ _ _ _ _ Hi)
    (ind_models _ _ _ _ _ _ _ _ _ _ Hi) (co_key _ _ _ _ _ _ _ Hok) Hjb) as (r' & batch & R & Hrest).
  { rewrite Ed. apply (chain_operations_ok jd parser events chain meta leaf0 first Hok). lia. }
  exists batch, r', (js_parser j2), (js_buffers j2). split.
  - unfold runs, in_run, range_fill. cbn [PrepareContext ZkCertificateRegistryJob_JobHandler].
    erewrite bind_runs; [|apply runs_wrap, on_job_runs, R1]. erewrite bind_runs; [|exact R2].
    unfold go_wrap, on_job, job_fill. cbn [OperationsBufferFromContext ix_job set_job]. unfold go_bind, get_buffer.
    rewrite Hk, Hops, Er2. unfold runs in R. unfold operations in R. unfold chain_operations in R. by rewrite R.
  - destruct Hrest as (H1 & H2 & H3 & H4). done.
Qed.

Lemma range_write_ok (n a b : Z) (r : registry_state) (p : option BoundContract) (bufs : list OperationsBuffer)
    (batch : Batch) :
  first <= a -> a <= n <= a + 1 -> a <= b ->
  indexed_at n r -> filled r jd (leaves (n - 1)) (operations a b) b batch ->
  exists d, let r' := mkRegistryState (rs_reg r) d (rs_world r) in
    runs (in_run (range_write batch)) (mkJobState r p bufs) tt (mkJobState r' p bufs) /\
    indexed_at (b + 1) r' /\ same_records (belongs_to (Meta_Index meta) jd) (rs_db r) d /\ jobs_kept jd (rs_db r) d.
Proof.
  intros Hf Hn Hab Hi Hfill. pose proof (indexed_depth _ _ _ _ _ _ _ _ _ _ Hi) as (Ed & Ee & Er & _).
  assert (forall i, leaves b i = abs_leaves (emtpyLeaf (reg_tree r)) (leaves (n - 1)) (operations a b) i) as El
    by (intros i; rewrite Ee; symmetry; apply leaves_step; lia).
  destruct (write_filled r _ _ jd (operations a b) b batch (ind_models _ _ _ _ _ _ _ _ _ _ Hi)
    (co_key _ _ _ _ _ _ _ Hok)) as (d & jb & E & Hm & Hjb & Hrec & Hrest & Hkept).
  { rewrite Ed. by apply (chain_operations_ok jd parser events chain meta leaf0 first Hok). }
  { rewrite Ed. apply (no_zero_node_ext _ _ _ El), (co_nodes _ _ _ _ _ _ _ Hok). lia. }
  { done. }
  exists d. rewrite Er in Hrest. split; [|split; [|done]].
  - unfold runs, in_run, range_write, go_wrap, on_job, job_write, on_job_registry, go_wrap.
    cbn [ix_job new_run js_registry]. by rewrite E.
  - split; cbn [rs_db rs_reg]; [|apply Hi| |done].
    + replace (b + 1 - 1) with b by lia. revert Hm. apply reg_models_ext; [done|]. intros v. apply indices_step; lia.
    + intros _. exists jb. by replace (b + 1 - 1) with b by lia.
Qed.

(** What a mode says about the head. *)
Definition mode_head (m : Mode) (head : bool) : bool :=
  if String.eqb m ModeWS || String.eqb m ModePoll then true
  else if String.eqb m ModeHistory then false else head.

Lemma mode_change_ok (m : Mode) (r : registry_state) (p : option BoundContract) (bufs : list OperationsBuffer) :
  exists pr, runs (job_OnIndexerModeChange m) (mkJobState r p bufs) tt
      (mkJobState (mkRegistryState (with_progress pr (rs_reg r)) (rs_db r) (rs_world r)) p bufs) /\
    IsOnHead pr = mode_head m (IsOnHead (reg_progressTracker (rs_reg r))).
Proof.
  destruct r as [[me t v pr0] d w]. unfold runs, job_OnIndexerModeChange, on_job_registry, mode_head, with_progress.
  cbn [js_registry js_parser js_buffers rs_reg rs_db rs_world reg_metadata reg_sparseTree reg_leafView
      reg_progressTracker].
  destruct (String.eqb m ModeWS || String.eqb m ModePoll); [|destruct (String.eqb m ModeHistory)].
  - destruct (IsOnHead pr0) eqn:E; cbn [negb]; [by exists pr0|by eexists].
  - destruct (IsOnHead pr0) eqn:E; [by eexists|by exists pr0].
  - by exists pr0.
Qed.
End Range.
End Frame.

(** * A query *)

Section Queries.
Context {U256 : Uint256} {UL : Uint256Laws U256} {PH : Poseidon} {PL : PoseidonLaws PH} {GE : GoEnv}.
Context {KV : KVDatabase} {KL : KVDatabaseLaws KV}.
Context {HA : HexAddress} {HL : HexAddressLaws HA} {UT : Uint256Text} {TL : Uint256TextLaws UT}.

(** What a query may wait with: an index that holds the value asked for, or an empty one, or the
    operations of a batch, whose values are field elements. *)
Definition opens (d e : Z) (leaf : Z -> Z) (h : nat) (q : query) (o : open_query) : Prop :=
  match q, o with
  | Query_Proof req, Open_Proof h' text i => h' = h /\ text = pb_QueryProofRequest_Leaf req /\
      exists v, uint256_FromDecimal text = inr v /\ 0 <= i < 2 ^ d /\ leaf i = v /\ v <> e
  | Query_GetEmptyLeafProof _, Open_EmptyLeaf h' i => h' = h /\ 0 <= i < 2 ^ d /\ leaf i = e
  | Query_GetBatchProofs req, Open_BatchProofs h' operations overtaken => h' = h /\ overtaken = false /\
      pb_QueryBatchProofsRequest_Operations req <> [] /\
      exists vs, parse_operations 0 (pb_QueryBatchProofsRequest_Operations req) = inr vs /\
        operations = go_operations vs /\ Forall (fun va => in_field (fst va)) vs
  | _, _ => False
  end.

Lemma begin_Proof_opens (s s' : service_state) (req : pb_QueryProofRequest) (h : nat) (reg : ZKCertificateRegistry)
    (leaf : Z -> Z) (idx : Z -> option Z) (o : open_query) :
  let t := reg_tree (registry_view s reg) in
  IsHexAddress (pb_QueryProofRequest_Registry req) = true ->
  serving s (HexToAddress (pb_QueryProofRequest_Registry req)) h reg leaf idx ->
  runs (begin_Proof req) s o s' -> sv_kept s s' /\ opens (depth t) (emtpyLeaf t) leaf h (Query_Proof req) o.
Proof.
  intros t Hr [Ho Hh Hm [Ha _]]. unfold begin_Proof, runs. rewrite Hr. cbn [negb].
  rewrite (bind_found s _ h reg _ Ho), (bind_head s _ h reg _ Ho), Hh. cbn [negb].
  destruct (uint256_FromDecimal (pb_QueryProofRequest_Leaf req)) as [e|v] eqn:Et; [done|].
  unfold go_bind, go_try.
  rewrite (on_registry_eq _ s h reg _ _ (op_object _ _ _ _ Ho)
    (CreateProof_lookup_ok (registry_view s reg) leaf idx v Hm (FromDecimal_fits _ _ Et))).
  rewrite (sv_after_same s h reg (op_object _ _ _ _ Ho)).
  destruct (idx v) as [i|] eqn:Ei; [|done]. intros [= <- <-]. split; [apply sv_kept_refl|].
  split; [done|]. split; [done|]. exists v. split; [done|]. split; [exact (rm_range _ _ _ Hm v i Ei)|]. by apply Ha.
Qed.

Lemma begin_EmptyLeaf_opens (s s' : service_state) (req : pb_GetEmptyLeafProofRequest) (h : nat)
    (reg : ZKCertificateRegistry) (leaf : Z -> Z) (idx : Z -> option Z) (o : open_query) :
  let t := reg_tree (registry_view s reg) in
  context_active -> IsHexAddress (pb_GetEmptyLeafProofRequest_Registry req) = true ->
  serving s (HexToAddress (pb_GetEmptyLeafProofRequest_Registry req)) h reg leaf idx ->
  runs (begin_GetEmptyLeafProof req) s o s' ->
  sv_kept s s' /\ opens (depth t) (emtpyLeaf t) leaf h (Query_GetEmptyLeafProof req) o.
Proof.
  intros t Hctx Hr [Ho Hh Hm _]. unfold begin_GetEmptyLeafProof, runs. rewrite Hr. cbn [negb].
  rewrite (bind_found s _ h reg _ Ho), (bind_head s _ h reg _ Ho), Hh. cbn [negb].
  destruct (draw_empty_ok (registry_view s reg) leaf idx Hctx Hm) as (rs & Hk & _ & E).
  unfold go_bind. destruct (find_free _ _ 10 _) as [i|]; [destruct E as (E & Hi & El)|];
    (destruct (try_on_registry (go_wrap "failed to get random empty leaf proof: %w" []
        (on_tree GetRandomEmptyLeafIndex))
      s h reg _ rs (op_object _ _ _ _ Ho) ltac:(unfold go_wrap; rewrite E; reflexivity) Hk) as (s1 & Hk' & ->);
     cbn [wrap_res]); [|done].
  intros [= <- <-]. by split.
Qed.

Lemma begin_Batch_opens (s s' : service_state) (req : pb_QueryBatchProofsRequest) (h : nat)
    (reg : ZKCertificateRegistry) (d e : Z) (leaf : Z -> Z) (o : open_query) :
  IsHexAddress (pb_QueryBatchProofsRequest_Registry req) = true -> query_ok (Query_GetBatchProofs req) ->
  opened s (HexToAddress (pb_QueryBatchProofsRequest_Registry req)) h reg ->
  IsOnHead (reg_progressTracker reg) = true -> runs (begin_GetBatchProofs req) s o s' ->
  sv_kept s s' /\ opens d e leaf h (Query_GetBatchProofs req) o.
Proof.
  intros Hr Hq Ho Hh. unfold begin_GetBatchProofs, runs. rewrite Hr. cbn [negb].
  rewrite (bind_found s _ h reg _ Ho), (bind_head s _ h reg _ Ho), Hh. cbn [negb].
  destruct (Nat.eqb_spec (length (pb_QueryBatchProofsRequest_Operations req)) 0) as [|Hl]; [done|].
  unfold go_bind, go_res. rewrite convert_operations_ok.
  destruct (parse_operations 0 (pb_QueryBatchProofsRequest_Operations req)) as [bad|vs] eqn:Ep; [done|].
  intros [= <- <-]. split; [apply sv_kept_refl|]. split; [done|]. split; [done|].
  split; [intros E; by rewrite E in
      Hl|]. exists vs. split; [done|]. split; [done|]. exact (parsed_in_field _ _ _ Hq Ep).
Qed.

Lemma answer_returns (M : gobytes -> registry_status) (q : query) : ~ answer_spec M q OutOfFuel.
Proof.
  unfold answer_spec. destruct (IsHexAddress _); [|done]. destruct (M _) as [| |d e leaf]; [done|done|].
  destruct q as [req|req|req]; cbn [serving_spec].
  - unfold proof_spec. destruct (uint256_FromDecimal _); [done|]. by intros [(i & p & _ & _ & _ & _ & [=])|[_ [=]]].
  - by intros [(i & p & _ & _ & _ & [=])|[=]].
  - unfold batch_spec. destruct (pb_QueryBatchProofsRequest_Operations req) as [|op ops]; [done|].
    destruct (parse_operations _ _) as [bad|vs]; [done|]. intros (leaf0 & k & _ & H).
    destruct (spec_batch _ _ _ _) as [[rs pl]|]; [done|]. by destruct H.
Qed.

Lemma begin_query_ok (s : service_state) (M : gobytes -> registry_status) (q : query) :
  context_active -> represents s M -> query_ok q ->
  exists c s', begin_query q s = (c, s') /\ sv_kept s s' /\
    match c with
    | Ok o => IsHexAddress (query_registry q) = true /\
        exists d e leaf h reg idx, M (HexToAddress (query_registry q)) = Serving d e leaf /\
          serving s (HexToAddress (query_registry q)) h reg leaf idx /\ opens d e leaf h q o
    | Throw err => answer_spec M q (Throw err)
    | OutOfFuel => False
    end.
Proof.
  intros Hctx H Hq. destruct (begin_query q s) as [c s'] eqn:E. exists c, s'. split; [done|].
  destruct (serve_ok s M q Hctx H Hq) as (c0 & s0 & E0 & K0 & A0). rewrite query_two_steps in E0.
  unfold go_bind in E0. rewrite E in E0. destruct c as [o|err|]; [|injection E0 as <- <-; done|].
  2:{ injection E0 as <- <-. by apply answer_returns in A0. }
  clear E0 A0. destruct (IsHexAddress (query_registry q)) eqn:Hr.
  2:{ exfalso. revert E. destruct q as [req|req|req]; cbn [begin_query query_registry] in *;
      unfold begin_Proof, begin_GetEmptyLeafProof, begin_GetBatchProofs; by rewrite Hr. }
  pose proof (H _ (HexToAddress_length _ Hr)) as Hs. destruct (M (HexToAddress (query_registry q))) as [| |d e leaf].
  - exfalso. destruct (unknown_not_found s _ (HexToAddress_length _ Hr) Hs) as [err Ef]. revert E.
    destruct q as [req|req|req]; cbn [begin_query query_registry] in *;
      unfold begin_Proof, begin_GetEmptyLeafProof, begin_GetBatchProofs; rewrite Hr; cbn [negb];
      unfold go_bind; by rewrite Ef.
  - exfalso. destruct Hs as (h & reg & Ho & Hh). revert E.
    pose proof (opened_found s _ h reg Ho) as Ef. pose proof (opened_head s _ h reg Ho) as Eh.
    destruct q as [req|req|req]; cbn [begin_query query_registry] in *;
      unfold begin_Proof, begin_GetEmptyLeafProof, begin_GetBatchProofs; rewrite Hr; cbn [negb];
      unfold go_bind; by rewrite Ef, Eh, Hh.
  - destruct Hs as (h & reg & idx & Hs & <- & <-).
    assert (sv_kept s s' /\ opens (depth (reg_tree (registry_view s reg)))
        (emtpyLeaf (reg_tree (registry_view s reg)))
      leaf h q o) as [K O].
    { destruct q as [req|req|req]; cbn [begin_query query_registry] in *.
      - by apply (begin_Proof_opens s s' req h reg leaf idx).
      - by apply (begin_EmptyLeaf_opens s s' req h reg leaf idx).
      - destruct Hs as [Ho Hh _ _]. by apply (begin_Batch_opens s s' req h reg). }
    split; [done|]. split; [done|]. by eexists _, _, leaf, h, reg, idx.
Qed.

(** The proof message is for the leaf as it is when the lock is held. *)
Lemma finish_query_ok (s : service_state) (o : open_query) (h : nat) (reg : ZKCertificateRegistry) (i : Z)
    (leaf : Z -> Z) (idx : Z -> option Z) :
  let d := depth (reg_tree (registry_view s reg)) in
  context_active -> sv_objects s !! h = Some reg -> reg_models (registry_view s reg) leaf idx -> 0 <= i < 2 ^ d ->
  (exists text, o = Open_Proof h text i) \/ o = Open_EmptyLeaf h i ->
  exists s' p, sv_kept s s' /\
    match o with
    | Open_Proof _ text _ => runs (finish_query o) s (Answer_Proof (mkpb_QueryProofResponse p)) s' /\
        proof_message d leaf i text p
    | Open_EmptyLeaf _ _ => runs (finish_query o) s (Answer_GetEmptyLeafProof (mkpb_GetEmptyLeafProofResponse
        p)) s' /\
        proof_message d leaf i (uint256_String (leaf i)) p
    | Open_BatchProofs _ _ _ => False
    end.
Proof.
  intros d Hctx Ho Hm Hi Hq.
  destruct (CreateProof_locked_ok (registry_view s reg) leaf idx i Hctx Hm Hi)
    as (rs & p & R & M & _ & _ & P1 & P2 & P3 & P4 & P5).
  destruct (try_on_registry (CreateProof_locked i) s h reg (Ok p) rs Ho R
    (CreateProof_locked_kept i _ _ p leaf idx R M)) as (s' & K & E).
  assert (u32 (Proof_Index p) = i) as Ei.
  { rewrite P2. unfold u32. apply Z.mod_small. pose proof (depth_range _ _ _ Hm) as Hd.
    fold d in Hd. pose proof (Z.pow_le_mono_r 2 d 32). lia. }
  assert (forall text, proof_message d leaf i text (mkpb_Proof text (map uint256_String (Proof_Path p))
      (u32 (Proof_Index p)) (uint256_String (Proof_Root p)))) as Hp.
  { intros text. exists (Proof_Path p). rewrite P4, Ei. unfold d. by rewrite P3. }
  exists s'. destruct Hq as [[text ->]| ->]; eexists; (split; [done|]); (split; [|apply Hp]);
    unfold runs, finish_query, finish_Proof, finish_GetEmptyLeafProof, go_bind; rewrite E; [done|]. by rewrite P1.
Qed.

(** The rest of a batch on a registry that does not change meanwhile. *)
Lemma finish_batch_ok (s : service_state) (h : nat) (reg : ZKCertificateRegistry) (leaf : Z -> Z) (idx : Z ->
    option Z)
    (ops : list pb_BatchOperation) (vs : list (Z * bool)) (overtaken : bool) :
  let t := reg_tree (registry_view s reg) in
  context_active -> sv_objects s !! h = Some reg -> reg_models (registry_view s reg) leaf idx ->
  Forall (fun va => in_field (fst va)) vs -> ops <> [] -> parse_operations 0 ops = inr vs ->
  exists c s', finish_query (Open_BatchProofs h (go_operations vs) overtaken) s = (c, s') /\ sv_kept s s' /\
    batch_spec (depth t) (emtpyLeaf t) leaf ops c.
Proof.
  intros t Hctx Ho Hm Hf Hne Ep.
  destruct (simulation_answers s h reg leaf idx ops vs Hctx Ho Hm Hf Hne Ep) as (r & s' & E & Hk & Hc).
  unfold finish_query, finish_GetBatchProofs, go_bind. rewrite E.
  destruct r as [err|[root proofs]]; (eexists _, s'; split; [reflexivity|by split]).
Qed.
End Queries.
