(* ===== verification/LiveTheorems.v ===== *)
(** The running service refines an abstract one, in every mode but the one with a subscription:
    every registry serves the leaves that the events up to some block make, whatever the
    interleaving of jobs and queries.  Only a batch that a write overtakes is left open. *)

From stdpp Require Import base list numbers strings gmap.
From Stdlib Require Import ZArith Lia.
From S2P Require Import Prelude GoBase MerkleSpec SparseTree SparseTreeFacts SparseTreeInsert SparseTreeProofs.
From S2P Require Import SparseTreeSimulation SparseTreeRuns Storage StorageFacts GoInstance.
From S2P Require Import Registry RegistryFacts RegistryRuns RegistryTheorems.
From S2P Require Import Service ServiceFacts Handlers HandlersFacts Jobs JobsFacts ServiceInstance ServiceTheorems.
From S2P Require Import HandlersTheorems Locks LocksTheorems Indexer IndexerFacts RegistryJob RegistryJobFacts.
From S2P Require Import IndexerTheorems Configurator JobStorageFacts ConfiguratorFacts ConfiguratorTheorems.
From S2P Require Import Live LiveFacts.
Local Open Scope Z_scope.

(** * The abstract service *)

(** Of a job: the first block of the next range, the first block that is not in the database,
    the last block of a batch that is filled, and whether the registry is on the head. *)
Record spec_job : Type := mkSpecJob {
  sj_next : Z;
  sj_done : Z;
  sj_filled : option Z;
  sj_head : bool
}.

(** A query that waits: for a leaf of a job's registry, or for the simulation of a batch, with
    whether the registry has changed meanwhile. *)
Inductive spec_open : Type :=
| Spec_Proof (job : nat) (text : string) (i : Z)
| Spec_EmptyLeaf (job : nat) (i : Z)
| Spec_BatchProofs (job : nat) (ops : list pb_BatchOperation) (overtaken : bool).

Definition spec_overtakes (k : nat) (o : spec_open) : spec_open :=
  match o with
  | Spec_BatchProofs k' ops overtaken => Spec_BatchProofs k' ops (overtaken || bool_decide (k' = k))
  | _ => o
  end.

Definition spec_overtaken (o : spec_open) : bool :=
  match o with Spec_BatchProofs _ _ overtaken => overtaken | _ => false end.

Record spec_state : Type := mkSpecState {
  sp_jobs : list spec_job;
  sp_open : list spec_open
}.

Section Theorems.
Context {U256 : Uint256} {UL : Uint256Laws U256} {PH : Poseidon} {PL : PoseidonLaws PH} {GE : GoEnv}.
Context {KV : KVDatabase} {KL : KVDatabaseLaws KV} {JC : JobCodec} {CE : ContractEvents}.
Context {HA : HexAddress} {HL : HexAddressLaws HA} {UT : Uint256Text} {TL : Uint256TextLaws UT} {MC : MetadataCodec}.

(** A job and its chain: the registry's metadata, its leaves and index before block [first],
    the block at which the job starts. *)
Record live_job : Type := mkLiveJob {
  lj_descriptor : JobDescriptor;
  lj_parser : BoundContract;
  lj_chain : Z -> list Log;
  lj_metadata : Metadata;
  lj_leaf0 : Z -> Z;
  lj_idx0 : Z -> option Z;
  lj_first : Z;
  lj_start : Z
}.

(** The leaves of the job's registry when the blocks before [n] are indexed. *)
Definition leaves_at (j : live_job) (n : Z) : Z -> Z :=
  leaves_after (lj_parser j) (lj_chain j) (lj_metadata j) (lj_leaf0 j) (lj_first j) (n - 1).

Fixpoint live_status (js : list live_job) (xs : list spec_job) (a : gobytes) : registry_status :=
  match js, xs with
  | j :: js', x :: xs' =>
      if decide (a = Meta_Address (lj_metadata j)) then
        if sj_head x then Serving (Meta_Depth (lj_metadata j)) (Meta_EmptyValue (lj_metadata j))
            (leaves_at j (sj_done x))
        else Behind
      else live_status js' xs' a
  | _, _ => Unknown
  end.

(** A query is opened on a registry on the head: with the index of the leaf that holds the
    value, or of an empty leaf, or with a batch of operations that can be read. *)
Definition spec_opens (js : list live_job) (xs : list spec_job) (q : query) (o : spec_open) : Prop :=
  IsHexAddress (query_registry q) = true /\
  exists k j x, js !! k = Some j /\ xs !! k = Some x /\
    HexToAddress (query_registry q) = Meta_Address (lj_metadata j) /\ sj_head x = true /\
    match q, o with
    | Query_Proof req, Spec_Proof k' text i => k' = k /\ text = pb_QueryProofRequest_Leaf req /\
        exists v, uint256_FromDecimal text = inr v /\ 0 <= i < 2 ^ Meta_Depth (lj_metadata j) /\
          leaves_at j (sj_done x) i = v /\ v <> Meta_EmptyValue (lj_metadata j)
    | Query_GetEmptyLeafProof _, Spec_EmptyLeaf k' i => k' = k /\ 0 <= i < 2 ^ Meta_Depth (lj_metadata j) /\
        leaves_at j (sj_done x) i = Meta_EmptyValue (lj_metadata j)
    | Query_GetBatchProofs req, Spec_BatchProofs k' ops overtaken => k' = k /\
        ops = pb_QueryBatchProofsRequest_Operations req /\ overtaken = false /\ ops <> [] /\
        exists vs, parse_operations 0 ops = inr vs
    | _, _ => False
    end.

(** A query that waited is answered with a proof for its index in the tree as it is now, a batch
    with the abstract batch on it. *)
Definition spec_answers (js : list live_job) (xs : list spec_job) (o : spec_open) (c : gores answer) : Prop :=
  match o with
  | Spec_Proof k text i => exists j x p, js !! k = Some j /\ xs !! k = Some x /\
      proof_message (Meta_Depth (lj_metadata j)) (leaves_at j (sj_done x)) i text p /\
      c = Ok (Answer_Proof (mkpb_QueryProofResponse p))
  | Spec_EmptyLeaf k i => exists j x p, js !! k = Some j /\ xs !! k = Some x /\
      proof_message (Meta_Depth (lj_metadata j)) (leaves_at j (sj_done x)) i
        (uint256_String (leaves_at j (sj_done x) i)) p /\
      c = Ok (Answer_GetEmptyLeafProof (mkpb_GetEmptyLeafProofResponse p))
  | Spec_BatchProofs k ops _ => exists j x, js !! k = Some j /\ xs !! k = Some x /\
      batch_spec (Meta_Depth (lj_metadata j)) (Meta_EmptyValue (lj_metadata j)) (leaves_at j (sj_done x)) ops c
  end.

Definition spec_skips (A : spec_state) (out : live_output) (A' : spec_state) : Prop := out = Skipped /\ A' = A.

Definition spec_moves (A : spec_state) (k : nat) (x : spec_job) (out : live_output) (A' : spec_state) : Prop :=
  out = Done (Ok tt) /\ A' = mkSpecState (<[k := x]> (sp_jobs A)) (sp_open A).

Definition spec_do (js : list live_job) (A : spec_state) (act : live_action) (out : live_output) (A' : spec_state)
    : Prop :=
  match act with
  | Fill k b =>
      match sp_jobs A !! k with
      | Some (mkSpecJob next don None head) =>
          if (next <=? b) && (b <? 2 ^ 64) then spec_moves A k (mkSpecJob next don (Some b) head) out A'
          else spec_skips A out A'
      | _ => spec_skips A out A'
      end
  | Sink k logs => spec_skips A out A'
  | WriteBatch k =>
      match sp_jobs A !! k with
      | Some (mkSpecJob _ _ (Some b) head) => out = Done (Ok tt) /\
          A' = mkSpecState (<[k := mkSpecJob (b + 1) (b + 1) None head]> (sp_jobs A))
                 (map (spec_overtakes k) (sp_open A))
      | _ => spec_skips A out A'
      end
  | ChangeMode k m =>
      match sp_jobs A !! k with
      | Some (mkSpecJob next don None head) => spec_moves A k (mkSpecJob next don None (mode_head m head)) out A'
      | _ => spec_skips A out A'
      end
  | Begin q =>
      (exists c, out = Answered c /\ answer_spec (live_status js (sp_jobs A)) q c /\ A' = A) \/
      (exists o o', out = Opened o /\ spec_opens js (sp_jobs A) q o' /\
         A' = mkSpecState (sp_jobs A) (sp_open A ++ [o']))
  | Finish n =>
      match sp_open A !! n with
      | Some o => A' = mkSpecState (sp_jobs A) (delete n (sp_open A)) /\
          if spec_overtaken o then out = Mixed
          else exists c, out = Answered c /\ spec_answers js (sp_jobs A) o c
      | None => spec_skips A out A'
      end
  end.

(** Runs of the abstract service, which has no subscription. *)
Inductive spec_run (js : list live_job) : spec_state -> list live_action -> list live_output -> spec_state -> Prop :=
| spec_run_nil A : spec_run js A [] [] A
| spec_run_cons A act out A1 acts outs A2 :
    spec_do js A act out A1 -> spec_run js A1 acts outs A2 -> spec_run js A (act :: acts) (out :: outs) A2.

(** * The invariant *)

Context (events : string -> gobytes).

(** What a job relies on: a chain of proper events, and an index that agrees with the leaves. *)
Record live_job_ok (j : live_job) : Prop := {
  lk_chain : chain_ok (lj_descriptor j) (lj_parser j) events (lj_chain j) (lj_metadata j) (lj_leaf0 j) (lj_first j);
  lk_first : 0 <= lj_first j;
  lk_address : address_ok (Meta_Address (lj_metadata j));
  lk_agrees : index_agrees (Meta_EmptyValue (lj_metadata j)) (Meta_Depth (lj_metadata j)) (lj_leaf0 j) (lj_idx0 j);
  lk_proper : forall n, proper_operations (Meta_EmptyValue (lj_metadata j)) (lj_leaf0 j) (lj_idx0 j)
                (chain_operations (lj_parser j) (lj_chain j) (lj_first j) n);
}.

#[local] Abbreviation job_indexed_at j d n r :=
  (indexed (lj_descriptor j) (lj_parser j) (lj_chain j) (lj_metadata j) (lj_leaf0 j) (lj_idx0 j) (lj_first j) d n r).

Definition phase_ok (j : live_job) (r : running_job) (x : spec_job) (v : registry_state) : Prop :=
  match jr_phase r, sj_filled x with
  | Waiting, None => True
  | Filled next b batch, Some b' => next = b + 1 /\ b' = b /\ sj_next x <= b < 2 ^ 64 /\
      filled v (lj_descriptor j) (leaves_at j (sj_done x))
        (chain_operations (lj_parser j) (lj_chain j) (sj_next x) b) b batch
  | _, _ => False
  end.

Record job_live (svc : service_state) (j : live_job) (r : running_job) (x : spec_job) : Prop := {
  jl_descriptor : jr_descriptor r = lj_descriptor j;
  jl_index : has_index (sv_db svc) (Meta_Address (lj_metadata j)) (Meta_Index (lj_metadata j));
  jl_registry : sv_registry svc !! Meta_Index (lj_metadata j) = Some (jr_registry r);
  jl_object : exists reg, sv_objects svc !! jr_registry r = Some reg /\
    job_indexed_at j (sv_db svc) (sj_done x) (registry_view svc reg) /\
    IsOnHead (reg_progressTracker reg) = sj_head x /\ phase_ok j r x (registry_view svc reg);
  jl_parser : jr_parser r = None \/ jr_parser r = Some (lj_parser j);
  jl_next : jr_next r = sj_next x;
  jl_first : lj_first j <= sj_next x;
  jl_done : sj_done x = sj_next x \/ sj_next x = lj_start j /\ sj_done x = sj_next x + 1;
  jl_metadata : has_metadata (sv_db svc) (Meta_Address (lj_metadata j)) (lj_metadata j);
}.

Definition open_ok (js : list live_job) (rs : list running_job) (o' : spec_open) (o : open_query) : Prop :=
  match o', o with
  | Spec_Proof k text i, Open_Proof h text' i' => text' = text /\ i' = i /\ exists j r, js !! k = Some j /\
      rs !! k = Some r /\ jr_registry r = h /\ 0 <= i < 2 ^ Meta_Depth (lj_metadata j)
  | Spec_EmptyLeaf k i, Open_EmptyLeaf h i' => i' = i /\ exists j r, js !! k = Some j /\
      rs !! k = Some r /\ jr_registry r = h /\ 0 <= i < 2 ^ Meta_Depth (lj_metadata j)
  | Spec_BatchProofs k ops b, Open_BatchProofs h operations b' => b' = b /\ ops <> [] /\ (exists vs,
      parse_operations 0 ops = inr vs /\ operations = go_operations vs /\ Forall (fun va => in_field (fst va)) vs) /\
      exists r, rs !! k = Some r /\ jr_registry r = h
  | _, _ => False
  end.

(** Jobs of different registries, of an address and a descriptor each. *)
Definition jobs_apart (js : list live_job) : Prop :=
  forall k k' j j', k <> k' -> js !! k = Some j -> js !! k' = Some j' ->
    Meta_Index (lj_metadata j) <> Meta_Index (lj_metadata j') /\
    Meta_Address (lj_metadata j) <> Meta_Address (lj_metadata j') /\ lj_descriptor j <> lj_descriptor j'.

(** The block that the job's record names, when there is one. *)
Definition last_block (j : live_job) (x : spec_job) : option Z :=
  if lj_first j <? sj_done x then Some (sj_done x - 1) else None.

(** The records under the prefix of jobs are those of a table with the blocks of the jobs. *)
Definition records_ok (js : list live_job) (d : DB) (xs : list spec_job) : Prop :=
  exists table, stores_jobs (contents d) table /\
    forall k j x, js !! k = Some j -> xs !! k = Some x -> table !! lj_descriptor j = last_block j x.

Record live_ok (js : list live_job) (s : live_state) (A : spec_state) : Prop := {
  lv_length : length (lv_jobs s) = length js /\ length (sp_jobs A) = length js;
  lv_each : forall k j r x, js !! k = Some j -> lv_jobs s !! k = Some r -> sp_jobs A !! k = Some x ->
    job_live (lv_service s) j r x;
  lv_unknown : forall a, address_ok a -> (forall k j, js !! k = Some j -> Meta_Address (lj_metadata j) <> a) ->
    status_ok (lv_service s) a Unknown;
  lv_queries : Forall2 (open_ok js (lv_jobs s)) (sp_open A) (lv_open s);
  lv_records : records_ok js (sv_db (lv_service s)) (sp_jobs A);
  lv_no_sink : lv_mode s <> ModeWS;
}.

(** ** Steps of others *)

(** The records that a job works on: its own, its registry's, and those of its address. *)
Definition relied_on (j : live_job) (k : storage_key) : Prop :=
  belongs_to (Meta_Index (lj_metadata j)) (lj_descriptor j) k \/
  k = RegistryIndexKey (Meta_Address (lj_metadata j)) \/ k = MetadataKey (Meta_Address (lj_metadata j)).

(** A step keeps what a job works on: the records, and its object. *)
Definition keeps_job (j : live_job) (r : running_job) (svc svc' : service_state) : Prop :=
  sv_registry svc' = sv_registry svc /\
  (forall k, storage_key_ok k -> relied_on j k -> contents (sv_db svc') !! key_bytes k = contents (sv_db svc)
      !! key_bytes k) /\
  forall reg, sv_objects svc !! jr_registry r = Some reg ->
      exists reg', sv_objects svc' !! jr_registry r = Some reg' /\
    same_registry reg reg' /\
    (cache_ok (reg_tree (registry_view svc reg)) -> cache_ok (reg_tree (registry_view svc' reg'))).

Lemma indexed_meta (j : live_job) (d : DB) (n : Z) (v : registry_state) :
  job_indexed_at j d n v -> cache_ok (reg_tree v) /\ 0 <= Meta_Index (lj_metadata j) < 2 ^ 8 /\
    1 <= Meta_Depth (lj_metadata j) <= 32 /\ depth (reg_tree v) = Meta_Depth (lj_metadata j) /\
    emtpyLeaf (reg_tree v) = Meta_EmptyValue (lj_metadata j).
Proof.
  intros Hi. destruct (indexed_depth _ _ _ _ _ _ _ _ _ _ Hi) as (Ed & Ee & Er & Hd).
  pose proof (ind_models _ _ _ _ _ _ _ _ _ _ Hi) as Hm. split; [apply (rm_tree _ _ _ Hm)|].
  split; [rewrite <- Er; apply Hm|]. done.
Qed.

Lemma job_kept (svc svc' : service_state) (j : live_job) (r : running_job) (x : spec_job) :
  live_job_ok j -> keeps_job j r svc svc' -> job_live svc j r x -> job_live svc' j r x.
Proof.
  intros Hj (Er & Ed & Ho) [H1 H2 H3 (reg & Eo & Hi & Hh & Hp) H5 H6 H7 H8 H9].
  destruct (Ho reg Eo) as (reg' & Eo' & Hsame & Hc). pose proof (indexed_meta _ _ _ _ Hi) as (Hc0 & Hr & Hd & _).
  specialize (Hc Hc0). pose proof (ind_object _ _ _ _ _ _ _ _ _ _ Hi) as Hobj.
  assert (object_of (lj_metadata j) reg') as Hobj' by (by apply (object_of_same _ reg)).
  split; try done.
  - unfold has_index in *. rewrite <- H2.
    apply (Ed (RegistryIndexKey (Meta_Address (lj_metadata j))) (lk_address j Hj)). by right; left.
  - by rewrite Er.
  - exists reg'. split; [done|]. split; [|split].
    + apply (indexed_agree _ _ _ _ _ _ _ _ (lk_chain j Hj) _ (registry_view svc reg) (registry_view svc' reg'));
        [done|done| |done].
      intros k Hk Hb. apply Ed; [done|by left].
    + destruct Hsame as [levels ->]. exact Hh.
    + unfold phase_ok in *. destruct (jr_phase r) as [|next b batch|e], (sj_filled x) as [b'|]; try done.
      destruct Hp as (-> & -> & Hb & Hf). do 3 (split; [done|]).
      apply (filled_agree (lj_metadata j) (registry_view svc reg)); [done|done|done|lia| |done|done].
      intros k Hk Hb'. apply Ed; [done|]. left. by destruct k.
  - destruct H9 as (bs & E & Hbs). exists bs. split; [|done]. rewrite <- E.
    apply (Ed (MetadataKey (Meta_Address (lj_metadata j))) (lk_address j Hj)). by right; right.
Qed.

(** The keys of the records of addresses are untouched by writes of registries. *)
Definition keeps_addresses (svc svc' : service_state) : Prop :=
  sv_registry svc' = sv_registry svc /\ forall a, address_ok a ->
    contents (sv_db svc') !! makeRegistryIndexKey a = contents (sv_db svc) !! makeRegistryIndexKey a.

Lemma unknown_kept (svc svc' : service_state) (a : gobytes) :
  keeps_addresses svc svc' -> address_ok a -> status_ok svc a Unknown -> status_ok svc' a Unknown.
Proof. intros [Er Ed] Ha. cbn [status_ok]. unfold has_index. by rewrite Er, Ed. Qed.

Lemma open_ok_jobs (js : list live_job) (rs rs' : list running_job) (o' : spec_open) (o : open_query) :
  (forall k r, rs !! k = Some r -> exists r', rs' !! k = Some r' /\ jr_registry r' = jr_registry r) ->
  open_ok js rs o' o -> open_ok js rs' o' o.
Proof.
  intros H. destruct o' as [k text i|k i|k ops b], o as [h text' i'|h i'|h operations b']; cbn [open_ok]; try done.
  - intros (-> & -> & j & r & Ej & Er & Eh & Hi). destruct (H k r Er) as (r' & Er' & Eh').
    split; [done|]. split; [done|]. exists j, r'. by rewrite Eh'.
  - intros (-> & j & r & Ej & Er & Eh & Hi). destruct (H k r Er) as (r' & Er' & Eh').
    split; [done|]. exists j, r'. by rewrite Eh'.
  - intros (-> & Hne & Hv & r & Er & Eh). destruct (H k r Er) as (r' & Er' & Eh').
    do 3 (split; [done|]). exists r'. by rewrite Eh'.
Qed.

(** The table of jobs after a step of the job [j]. *)
Definition table_step (j : live_job) (x x' : spec_job) (d d' : DB) : Prop :=
  forall table, stores_jobs (contents d) table -> table !! lj_descriptor j = last_block j x ->
  exists table', stores_jobs (contents d') table' /\ table' !! lj_descriptor j = last_block j x' /\
    forall jd, jd <> lj_descriptor j -> table' !! jd = table !! jd.

Lemma table_same (j : live_job) (x x' : spec_job) (d d' : DB) :
  contents d' = contents d -> sj_done x' = sj_done x -> table_step j x x' d d'.
Proof.
  intros E Ed table Hst Ht. exists table. rewrite E. split; [done|]. split; [|done]. rewrite Ht. unfold last_block.
  by rewrite Ed.
Qed.

(** A write of the job's record for the block before [n]. *)
Lemma table_written (j : live_job) (x x' : spec_job) (d d' : DB) (jb : gobytes) :
  storage_key_ok (JobKey (lj_descriptor j)) -> lj_first j < sj_done x' ->
  encode_job (mkJob (lj_descriptor j) (sj_done x' - 1)) = inr jb ->
  contents d' !! makeJobKey (lj_descriptor j) = Some jb -> jobs_kept (lj_descriptor j) d d' ->
  table_step j x x' d d'.
Proof.
  intros Hk Hlt Hjb Hrec Hkept table Hst _. set (jd := lj_descriptor j) in *.
  exists (<[jd := sj_done x' - 1]> table). split; [split|split].
  - intros key bs E Hp. destruct (decide (key = makeJobKey jd)) as [->|Hne].
    + exists jd, (sj_done x' - 1). rewrite lookup_insert_eq. split; [done|]. split; [done|]. congruence.
    + rewrite Hkept in E by done. destruct (st_records _ _ Hst key bs E Hp) as (jd' & b & -> & Et & Ee).
      exists jd', b. rewrite lookup_insert_ne by congruence. done.
  - intros jd' b [[<- <-]|[Hne Et]]%lookup_insert_Some; [split; [done|by exists jb]|].
    destruct (st_table _ _ Hst jd' b Et) as (Hok & bs & Ee & E). split; [done|]. exists bs. split; [done|].
    rewrite Hkept; [done|apply job_key_prefix|]. intros Ek. by apply Hne, job_key_inj.
  - rewrite lookup_insert_eq. unfold last_block. by rewrite (proj2 (Z.ltb_lt _ _) Hlt).
  - intros jd' Hne. by rewrite lookup_insert_ne.
Qed.

(** Queries wait on the same registries when the job [k] takes a step. *)
Lemma open_ok_step (js : list live_job) (rs : list running_job) (k : nat) (r r' : running_job) (o' : spec_open)
    (o : open_query) :
  rs !! k = Some r -> jr_registry r' = jr_registry r -> open_ok js rs o' o -> open_ok js (<[k := r']> rs) o' o.
Proof.
  intros Er Eh. apply open_ok_jobs. intros k' r0 E. destruct (decide (k' = k)) as [->|Hne].
  - exists r'. rewrite list_lookup_insert_eq by (by eapply lookup_lt_Some). rewrite Er in E. by injection E as <-.
  - exists r0. by rewrite list_lookup_insert_ne.
Qed.

(** A step of the job [k]. *)
Lemma live_job_step (js : list live_job) (s : live_state) (A : spec_state) (svc' : service_state) (k : nat)
    (j : live_job) (r r' : running_job) (x x' : spec_job) (os' : list spec_open) (os : list open_query) :
  (forall k j, js !! k = Some j -> live_job_ok j) -> jobs_apart js -> live_ok js s A ->
  js !! k = Some j -> lv_jobs s !! k = Some r -> sp_jobs A !! k = Some x -> jr_registry r' = jr_registry r ->
  table_step j x x' (sv_db (lv_service s)) (sv_db svc') -> job_live svc' j r' x' ->
      keeps_addresses (lv_service s) svc' ->
  (forall k' j' r', k' <> k -> js !! k' = Some j' -> lv_jobs s !! k' = Some r' ->
     keeps_job j' r' (lv_service s) svc') ->
  Forall2 (open_ok js (lv_jobs s)) os' os ->
  live_ok js (mkLiveState (lv_mode s) svc' (<[k := r']> (lv_jobs s)) os)
    (mkSpecState (<[k := x']> (sp_jobs A)) os').
Proof.
  intros Hjs Hap [[L1 L2] H2 H3 H4 (table & Hst & Htab) Hm] Ej Er Ex Eh Ht Hl Ha Hk Hos.
      pose proof (lookup_lt_Some _ _ _ Ej) as Hlt.
  split; cbn [lv_jobs sp_jobs lv_service sp_open lv_open lv_mode]; [..|done].
  - by rewrite !length_insert.
  - intros k' j' r'' x'' Ej' Er' Ex'. destruct (decide (k' = k)) as [->|Hne].
    + rewrite list_lookup_insert_eq in Er' by lia. rewrite list_lookup_insert_eq in Ex' by lia.
      rewrite Ej in Ej'. injection Ej' as <-. injection Er' as <-. injection Ex' as <-. done.
    + rewrite list_lookup_insert_ne in Er' by done. rewrite list_lookup_insert_ne in Ex' by done.
      apply (job_kept (lv_service s)); [by apply (Hjs k')|by apply (Hk k')|by apply (H2 k')].
  - intros a Haa Hn. apply (unknown_kept (lv_service s)); [done|done|by apply H3].
  - eapply Forall2_impl; [exact Hos|]. intros o' o. by apply (open_ok_step js _ k r).
  - destruct (Ht table Hst (Htab k j x Ej Ex)) as (table' & Hst' & Et & Eo). exists table'. split; [done|].
    intros k' j' x'' Ej' Ex'. destruct (decide (k' = k)) as [->|Hne].
    + rewrite list_lookup_insert_eq in Ex' by lia. rewrite Ej in Ej'. injection Ej' as <-. by injection Ex' as <-.
    + rewrite list_lookup_insert_ne in Ex' by done. rewrite Eo by (by apply (Hap k' k j' j)). by apply (Htab k').
Qed.

(** ** The steps of a job *)

Lemma registries_apart (js : list live_job) (s : live_state) (A : spec_state) (k k' : nat) (j j' : live_job)
    (r r' : running_job) :
  jobs_apart js -> live_ok js s A -> k' <> k -> js !! k = Some j -> js !! k' = Some j' ->
  lv_jobs s !! k = Some r -> lv_jobs s !! k' = Some r' -> jr_registry r' <> jr_registry r.
Proof.
  intros Ha [[L1 L2] H _ _ _ _] Hne Ej Ej' Er Er' Eh.
  destruct (lookup_lt_is_Some_2 (sp_jobs A) k) as [x Ex]; [rewrite L2; by eapply lookup_lt_Some|].
  destruct (lookup_lt_is_Some_2 (sp_jobs A) k') as [x' Ex']; [rewrite L2; by eapply lookup_lt_Some|].
  destruct (jl_object _ _ _ _ (H k j r x Ej Er Ex)) as (reg & Eo & Hi & _).
  destruct (jl_object _ _ _ _ (H k' j' r' x' Ej' Er' Ex')) as (reg' & Eo' & Hi' & _).
  rewrite Eh, Eo in Eo'. injection Eo' as <-.
  destruct (ind_object _ _ _ _ _ _ _ _ _ _ Hi) as (l & p & E), (ind_object _ _ _ _ _ _ _ _ _ _ Hi') as (l' & p' & E').
  cbn [registry_view rs_reg] in E, E'. rewrite E in E'. destruct (Ha k k' j j') as [H1 _]; [done..|].
  apply H1. by injection E' as ->.
Qed.

(** A step that works on another registry object and on records of another registry. *)
Lemma keeps_other (j' : live_job) (r' : running_job) (svc : service_state) (h : nat) (v : registry_state) :
  jr_registry r' <> h ->
  (forall k, storage_key_ok k -> relied_on j' k ->
     contents (rs_db v) !! key_bytes k = contents (sv_db svc) !! key_bytes k) ->
  keeps_job j' r' svc (sv_after svc h v).
Proof.
  intros Hne Hd. split; [done|]. split; [exact Hd|]. intros reg E. exists reg.
  split; [cbn [sv_objects sv_after]; by rewrite list_lookup_insert_ne|]. split; [|done].
  exists (obj_emptyBranchLevels (reg_sparseTree reg)). by destruct reg as [m [] w p].
Qed.

Lemma alter_insert_same {T : Type} (f : T -> T) (l : list T) (k : nat) (x : T) :
  alter f k (<[k := x]> l) = <[k := f x]> l.
Proof. revert k. induction l as [|y l IH]; intros [|k]; cbn; [done|done|done|]. f_equal. apply IH. Qed.

Lemma spec_lookup (js : list live_job) (s : live_state) (A : spec_state) (k : nat) (r : running_job) :
  live_ok js s A -> lv_jobs s !! k = Some r ->
  exists j x, js !! k = Some j /\ sp_jobs A !! k = Some x /\ job_live (lv_service s) j r x.
Proof.
  intros [[L1 L2] H _ _ _ _] Er. pose proof (lookup_lt_Some _ _ _ Er) as Hlt.
  destruct (lookup_lt_is_Some_2 js k) as [j Ej]; [lia|].
  destruct (lookup_lt_is_Some_2 (sp_jobs A) k) as [x Ex]; [lia|]. exists j, x. by split; [|split; [|apply (H k)]].
Qed.

Lemma no_job (js : list live_job) (s : live_state) (A : spec_state) (k : nat) :
  live_ok js s A -> lv_jobs s !! k = None -> sp_jobs A !! k = None.
Proof. intros [[L1 L2] _ _ _ _ _] E. apply lookup_ge_None in E. apply lookup_ge_None. lia. Qed.

(** A job that starts on a new registry. *)
Lemma new_job_indexed (svc : service_state) (j : live_job) :
  let m := lj_metadata j in
  let reg := new_registry_object m (Meta_Index m) in
  new_registry (registry_view svc reg) -> lj_leaf0 j = (fun _ => Meta_EmptyValue m) -> lj_idx0 j = (fun _ => None) ->
  job_indexed_at j (sv_db svc) (lj_first j) (registry_view svc reg).
Proof.
  intros m reg Hn Hl Hidx. split; [|apply object_of_new|lia|done].
  rewrite Hl, Hidx. unfold leaves_after, indices_after, chain_operations.
  rewrite block_logs_empty by (cbn; lia). exact (new_registry_models _ Hn).
Qed.

Lemma new_job_live (svc : service_state) (j : live_job) (h : nat) :
  let m := lj_metadata j in
  let reg := new_registry_object m (Meta_Index m) in
  new_registry (registry_view svc reg) -> registered (sv_db svc) (Meta_Address m) m ->
  sv_registry svc !! Meta_Index m = Some h -> sv_objects svc !! h = Some reg ->
  lj_leaf0 j = (fun _ => Meta_EmptyValue m) -> lj_idx0 j = (fun _ => None) ->
  job_live svc j (mkRunningJob (lj_descriptor j) h None [] (lj_first j) Waiting)
    (mkSpecJob (lj_first j) (lj_first j) None false).
Proof.
  intros m reg Hn [Hx Hm] Hr Ho Hl Hidx. split;
    cbn [jr_descriptor jr_registry jr_parser jr_next sj_next sj_done];
        [done|done|done| |by left|done|lia|by left|done].
  exists reg. split; [exact Ho|]. split; [by apply new_job_indexed|by split].
Qed.

Context (js : list live_job) (Hjs : forall k j, js !! k = Some j -> live_job_ok j) (Hapart : jobs_apart js).

Definition chains (k : nat) : Z -> list Log := match js !! k with Some j => lj_chain j | None => fun _ => [] end.

Lemma object_at (svc : service_state) (h : nat) (reg : ZKCertificateRegistry) (v : registry_state) :
  sv_objects svc !! h = Some reg -> sv_objects (sv_after svc h v) !! h = Some (rs_reg v).
Proof. intros E. cbn [sv_objects sv_after]. apply list_lookup_insert_eq. by eapply lookup_lt_Some. Qed.

Lemma fill_step (s : live_state) (A : spec_state) (k : nat) (b : Z) :
  live_ok js s A -> exists out s' A', live_fill chains k b s = (out, s') /\ spec_do js A (Fill k b) out A' /\
      live_ok js s' A'.
Proof.
  intros H. unfold live_fill, fill_logs. cbn [spec_do].
  destruct (lv_jobs s !! k) as [r|] eqn:Er; [|exists Skipped, s, A; by rewrite (no_job js s A k H Er)].
  destruct (spec_lookup js s A k r H Er) as (j & x & Ej & Ex & Hl). pose proof Hl as [H1 H2 H3 (reg & Eo & Hi &
      Hh & Hp) H5 H6 H7 H8 H9].
  rewrite Ex. destruct x as [next don fl head]. cbn [sj_next sj_done sj_filled sj_head] in *.
  unfold phase_ok in Hp. cbn [sj_filled sj_next sj_done] in Hp.
  destruct (jr_phase r) as [|n' b' batch|e] eqn:Ep, fl as [b''|]; try done; [|by exists Skipped, s, A].
  rewrite Eo, H6. destruct ((next <=? b) && (b <? 2 ^ 64)) eqn:Eb; [|by exists Skipped, s, A].
  apply andb_prop in Eb as [Eb1%Z.leb_le Eb2%Z.ltb_lt]. unfold on_live_job. rewrite H1. unfold chains at 1.
      rewrite Ej.
  destruct (range_fill_ok _ _ events _ _ _ (lj_idx0 j) _ (lk_chain j (Hjs k j Ej)) (lj_start j) don next b
    (registry_view (lv_service s) reg) (jr_parser r) (jr_buffers r)) as (batch & v & p & bufs & R & Ed &
        Hsame & Hc & Hp' & Hf);
    [pose proof (lk_first j (Hjs k j Ej)); lia|done|lia|done|done|].
  unfold runs in R. rewrite R. eexists _, _, _. split; [reflexivity|]. split; [done|].
  unfold job_goes. cbn [lv_mode lv_service lv_jobs lv_open js_registry js_parser js_buffers].
      rewrite alter_insert_same.
  apply (live_job_step js s A _ k j r _ (mkSpecJob next don None head)); [done..| | | | |apply H].
  - apply table_same; [cbn [sv_db sv_after]; by rewrite Ed|done].
  - assert (object_of (lj_metadata j) (rs_reg v)) as Hobj
      by (apply (object_of_same _ reg); [done|apply Hi]).
    assert (registry_view (sv_after (lv_service s) (jr_registry r) v) (rs_reg v) = v) as Ev by (by destruct v).
    split; cbn [jr_descriptor jr_registry jr_parser jr_next jr_phase sj_next sj_done sj_filled sj_head]; try done.
    + unfold has_index in *. cbn [sv_db sv_after]. by rewrite Ed.
    + exists (rs_reg v). split; [by apply (object_at _ _ reg)|]. rewrite Ev. split; [|split].
      * cbn [sv_db sv_after]. apply (indexed_agree _ _ _ _ _ _ _ _ (lk_chain j (Hjs k j Ej)) _
          (registry_view (lv_service s) reg) v); [done|done|by rewrite Ed|done].
      * destruct Hsame as [levels ->]. exact Hh.
      * unfold phase_ok. cbn [jr_phase sj_filled sj_next sj_done]. do 2 (split; [done|]). split; [lia|exact Hf].
    + unfold has_metadata in *. cbn [sv_db sv_after]. by rewrite Ed.
  - split; [done|]. intros a _. cbn [sv_db sv_after]. by rewrite Ed.
  - intros k' j' r' Hne Ej' Er'. apply keeps_other.
    + by apply (registries_apart js s A k k' j j').
    + intros key _ _. by rewrite Ed.
Qed.

(** What belongs to a registry and its job does not belong to another. *)
Lemma belongs_apart (k k' : nat) (j j' : live_job) (key : storage_key) :
  k' <> k -> js !! k = Some j -> js !! k' = Some j' ->
  relied_on j' key -> ~ belongs_to (Meta_Index (lj_metadata j)) (lj_descriptor j) key.
Proof.
  intros Hne Ej Ej' Hk Hb. destruct (Hapart k k' j j') as (H1 & _ & H2); [done..|].
  destruct Hk as [Hk|[-> | ->]]; [|done..]. destruct key; cbn [belongs_to] in *; congruence.
Qed.

(** A write of the job [k] overtakes the batches on its registry and no others. *)
Lemma write_overtakes (s : live_state) (A : spec_state) (k : nat) (r : running_job) :
  live_ok js s A -> lv_jobs s !! k = Some r ->
  Forall2 (open_ok js (lv_jobs s)) (map (spec_overtakes k) (sp_open A)) (map (overtaken_by (jr_registry r))
      (lv_open s)).
Proof.
  intros H Er. apply Forall2_fmap_2. eapply Forall2_impl; [exact (lv_queries _ _ _ H)|].
  intros [k' text i|k' i|k' ops b] [h text' i'|h i'|h operations b'];
      cbn [spec_overtakes overtaken_by open_ok]; try done.
  intros (-> & Hne & Hv & r' & Er' & <-). split; [|split; [done|split; [done|by exists r']]]. f_equal.
  apply bool_decide_ext. split; [|intros ->; rewrite Er in Er'; by injection Er' as <-].
  intros E. destruct (decide (k' = k)) as [|Hk]; [done|exfalso].
  destruct (spec_lookup js s A k r H Er) as (j & _ & Ej & _). destruct (spec_lookup js s A k' r' H Er')
      as (j' & _ & Ej' & _).
  by apply (registries_apart js s A k k' j j' r r').
Qed.

Lemma write_step (s : live_state) (A : spec_state) (k : nat) :
  live_ok js s A -> exists out s' A', live_write k s = (out, s') /\ spec_do js A (WriteBatch k) out A' /\
      live_ok js s' A'.
Proof.
  intros H. unfold live_write. cbn [spec_do].
  destruct (lv_jobs s !! k) as [r|] eqn:Er; [|exists Skipped, s, A; by rewrite (no_job js s A k H Er)].
  destruct (spec_lookup js s A k r H Er) as (j & x & Ej & Ex & Hl).
  pose proof Hl as [H1 H2 H3 (reg & Eo & Hi & Hh & Hp) H5 H6 H7 H8 H9].
  rewrite Ex, Eo. destruct x as [next don fl head]. cbn [sj_next sj_done sj_filled sj_head] in *.
  unfold phase_ok in Hp. cbn [sj_filled sj_next sj_done] in Hp.
  destruct (jr_phase r) as [|n' b batch|e] eqn:Ep, fl as [b'|]; try done; [by exists Skipped, s, A|].
  destruct Hp as (-> & -> & Hb & Hf). unfold on_live_job.
  destruct (range_write_ok _ _ events _ _ _ (lj_idx0 j) _ (lk_chain j (Hjs k j Ej)) don next b
    (registry_view (lv_service s) reg) (jr_parser r) (jr_buffers r) batch) as (d & R & Hi' & Hsr & Hkept);
    [done|lia|lia|exact Hi|exact Hf|].
  unfold runs in R. rewrite R. eexists _, _, _. split; [reflexivity|]. split; [done|].
  unfold job_goes. cbn [lv_mode lv_service lv_jobs lv_open js_registry js_parser js_buffers].
      rewrite alter_insert_same.
  cbn [registry_view rs_db rs_reg rs_world] in *.
  apply (live_job_step js s A _ k j r _ (mkSpecJob next don (Some b) head));
      [done..| | | | |by apply write_overtakes].
  - destruct (ind_record _ _ _ _ _ _ _ _ _ _ Hi') as (jb & Ee & Erec); [lia|].
    apply (table_written _ _ _ _ _ jb); cbn [sj_done]; [apply (lk_chain j (Hjs k j Ej))|lia|done|done|done].
  - split; cbn [jr_descriptor jr_registry jr_parser jr_next jr_phase sj_next sj_done sj_filled sj_head]; try done.
    + unfold has_index in *. rewrite <- H2.
      apply (Hsr (RegistryIndexKey (Meta_Address (lj_metadata j))) (lk_address j (Hjs k j Ej))). by intros [].
    + exists reg. split; [by rewrite (object_at _ _ reg)|]. by split.
    + lia.
    + by left.
    + destruct H9 as (bs & E & Hbs). exists bs. split; [|done]. rewrite <- E.
      apply (Hsr (MetadataKey (Meta_Address (lj_metadata j))) (lk_address j (Hjs k j Ej))). by intros [].
  - split; [done|]. intros a Ha. apply (Hsr (RegistryIndexKey a) Ha). by intros [].
  - intros k' j' r' Hne Ej' Er'. apply keeps_other; [by apply (registries_apart js s A k k' j j')|].
    intros key Hkey Hb'. apply (Hsr key Hkey). by apply (belongs_apart k k' j j').
Qed.

Lemma mode_step (s : live_state) (A : spec_state) (k : nat) (m : Mode) :
  live_ok js s A -> exists out s' A', live_mode k m s = (out, s') /\ spec_do js A (ChangeMode k m) out A' /\
      live_ok js s' A'.
Proof.
  intros H. unfold live_mode. cbn [spec_do].
  destruct (lv_jobs s !! k) as [r|] eqn:Er; [|exists Skipped, s, A; by rewrite (no_job js s A k H Er)].
  destruct (spec_lookup js s A k r H Er) as (j & x & Ej & Ex & Hl).
  pose proof Hl as [H1 H2 H3 (reg & Eo & Hi & Hh & Hp) H5 H6 H7 H8 H9].
  rewrite Ex, Eo. destruct x as [next don fl head]. cbn [sj_next sj_done sj_filled sj_head] in *.
  unfold phase_ok in Hp. cbn [sj_filled sj_next sj_done] in Hp.
  destruct (jr_phase r) as [|n' b batch|e] eqn:Ep, fl as [b'|]; try done; [|by exists Skipped, s, A].
  unfold on_live_job.
  destruct (mode_change_ok m (registry_view (lv_service s) reg) (jr_parser r) (jr_buffers r)) as (pr & R & Hpr).
  unfold runs in R. rewrite R. eexists _, _, _. split; [reflexivity|]. split; [done|].
  cbn [js_registry js_parser js_buffers]. cbn [registry_view rs_db rs_reg rs_world] in *. rewrite Hh in Hpr.
  apply (live_job_step js s A _ k j r _ (mkSpecJob next don None head)); [done..| | | | |apply H].
  - by apply table_same.
  - split; cbn [jr_descriptor jr_registry jr_parser jr_next jr_phase sj_next sj_done sj_filled sj_head]; try done.
    exists (with_progress pr reg). split; [by rewrite (object_at _ _ reg)|]. split; [|split; [exact Hpr|]].
    + exact (indexed_progress _ _ _ _ _ _ _ _ _ _ pr Hi).
    + unfold phase_ok. by rewrite Ep.
  - by split.
  - intros k' j' r' Hne Ej' Er'. apply keeps_other; [by apply (registries_apart js s A k k' j j')|done].
Qed.

(** Without a subscription no logs come from one. *)
Lemma sink_step (s : live_state) (A : spec_state) (k : nat) (logs : list Log) :
  live_ok js s A -> exists out s' A', live_sink k logs s = (out, s') /\ spec_do js A (Sink k logs) out A' /\
      live_ok js s' A'.
Proof.
  intros H. exists Skipped, s, A. split; [|by split]. unfold live_sink.
  rewrite (proj2 (String.eqb_neq _ _) (lv_no_sink _ _ _ H)).
  destruct (lv_jobs s !! k) as [r|], (last logs) as [log|]; try done. by destruct (jr_phase r).
Qed.

(** ** Queries *)

Lemma leaves_agree (j : live_job) (n : Z) :
  live_job_ok j -> index_agrees (Meta_EmptyValue (lj_metadata j)) (Meta_Depth (lj_metadata j)) (leaves_at j n)
    (indices_after (lj_parser j) (lj_chain j) (lj_idx0 j) (lj_first j) (n - 1)).
Proof. intros Hj. apply index_agrees_all; [apply (lk_proper j Hj)|apply (lk_agrees j Hj)]. Qed.

(** The status of an address is that of the first job with the address, or unknown. *)
Lemma live_status_cases (js' : list live_job) (xs : list spec_job) (a : gobytes) :
  length xs = length js' ->
  (exists k j x, js' !! k = Some j /\ xs !! k = Some x /\ a = Meta_Address (lj_metadata j) /\
     live_status js' xs a =
       if sj_head x then Serving (Meta_Depth (lj_metadata j)) (Meta_EmptyValue (lj_metadata j))
           (leaves_at j (sj_done x))
       else Behind) \/
  (forall k j, js' !! k = Some j -> Meta_Address (lj_metadata j) <> a) /\ live_status js' xs a = Unknown.
Proof.
  revert xs. induction js' as [|j js' IH]; intros [|x xs] Hlen; try done; [by right|]. cbn [live_status].
  destruct (decide (a = Meta_Address (lj_metadata j))) as [->|Hne]; [left; by exists 0%nat, j, x|].
  destruct (IH xs) as [(k & j' & x' & Ej & Ex & Ea & E)|[Hn E]]; [by injection Hlen| |].
  - left. by exists (Datatypes.S k), j', x'.
  - right. split; [|done]. intros [|k] j' Ej'; [|by apply (Hn k)]. injection Ej' as <-. by apply not_eq_sym.
Qed.

Lemma job_opened (svc : service_state) (j : live_job) (r : running_job) (x : spec_job) (reg : ZKCertificateRegistry) :
  live_job_ok j -> job_live svc j r x -> sv_objects svc !! jr_registry r = Some reg ->
  opened svc (Meta_Address (lj_metadata j)) (jr_registry r) reg.
Proof.
  intros Hj Hl Eo. split; [apply (lk_address j Hj)| |done]. exists (Meta_Index (lj_metadata j)). split; apply Hl.
Qed.

Lemma live_represents (s : live_state) (A : spec_state) :
  live_ok js s A -> represents (lv_service s) (live_status js (sp_jobs A)).
Proof.
  intros H a Ha. pose proof H as [[L1 L2] He Hu _ _ _].
  destruct (live_status_cases js (sp_jobs A) a L2) as [(k & j & x & Ej & Ex & -> & ->)|[Hn ->]]; [|by apply Hu].
  destruct (lookup_lt_is_Some_2 (lv_jobs s) k) as [r Er]; [rewrite L1; by eapply lookup_lt_Some|].
  pose proof (He k j r x Ej Er Ex) as Hl. destruct (jl_object _ _ _ _ Hl) as (reg & Eo & Hi & Hh & _).
  pose proof (job_opened _ _ _ _ _ (Hjs k j Ej) Hl Eo) as Ho. destruct (sj_head x).
  - destruct (indexed_meta _ _ _ _ Hi) as (_ & _ & _ & Ed & Ee).
    exists (jr_registry r), reg, (indices_after (lj_parser j) (lj_chain j) (lj_idx0 j) (lj_first j) (sj_done x - 1)).
    split; [|done]. split; [done|done|apply Hi|]. rewrite Ed, Ee. by apply leaves_agree, (Hjs k).
  - by exists (jr_registry r), reg.
Qed.

(** A step of a query keeps all jobs. *)
Lemma live_query_step (s : live_state) (A : spec_state) (svc' : service_state) (os : list open_query)
    (os' : list spec_open) :
  live_ok js s A -> sv_kept (lv_service s) svc' -> Forall2 (open_ok js (lv_jobs s)) os' os ->
  live_ok js (mkLiveState (lv_mode s) svc' (lv_jobs s) os) (mkSpecState (sp_jobs A) os').
Proof.
  intros [H1 H2 H3 _ H5 H6] (Ed & Er & Hk) Ho. split; [done| | |done|cbn [lv_service sp_jobs]; unfold records_ok;
      by rewrite Ed|done];
    cbn [lv_jobs sp_jobs lv_service].
  - intros k j r x Ej Ejr Ex. apply (job_kept (lv_service s)); [by apply (Hjs k)| |by apply (H2 k)].
    split; [done|]. split; [by rewrite Ed|]. intros reg Eo. destruct (Hk _ _ Eo) as (reg' & Eo' & _ & Hs & Hc).
    by exists reg'.
  - intros a Ha Hn. apply (unknown_kept (lv_service s)); [|done|by apply H3]. split; [done|]. by rewrite Ed.
Qed.

Lemma begin_step (s : live_state) (A : spec_state) (q : query) :
  context_active -> query_ok q -> live_ok js s A ->
  exists out s' A', live_begin q s = (out, s') /\ spec_do js A (Begin q) out A' /\ live_ok js s' A'.
Proof.
  intros Hctx Hq H. pose proof (live_represents s A H) as Hrep.
  destruct (begin_query_ok (lv_service s) _ q Hctx Hrep Hq) as (c & svc' & E & K & Hc). unfold live_begin. rewrite E.
  pose proof (lv_queries _ _ _ H) as Ho.
  destruct c as [o|e|]; [| |done].
  2:{ eexists _, _, A. split; [reflexivity|]. split; [left; by exists (Throw e)|]. destruct A as [xs os].
      by apply (live_query_step s (mkSpecState xs os)). }
  destruct Hc as (Hr & d & e & leaf & h & reg & idx & EM & Hs & Hop). pose proof H as [[L1 L2] He _ _ _ _].
  destruct (live_status_cases js (sp_jobs A) (HexToAddress (query_registry q)) L2)
    as [(k & j & x & Ej & Ex & Ea & E')|[_ E']]; rewrite E' in EM; [|done].
  destruct (sj_head x) eqn:Ehead; [|done]. injection EM as <- <- <-.
  destruct (lookup_lt_is_Some_2 (lv_jobs s) k) as [r Er]; [rewrite L1; by eapply lookup_lt_Some|].
  pose proof (He k j r x Ej Er Ex) as Hl.
  assert (h = jr_registry r) as ->.
  { destruct Hs as [[_ (i & Hi & Hh) _] _ _ _]. rewrite Ea in Hi. pose proof (jl_index _ _ _ _ Hl) as Hi'.
    unfold has_index in *. rewrite Hi' in
        Hi. injection Hi as <-. pose proof (eq_trans (eq_sym Hh) (jl_registry _ _ _ _ Hl)) as E2.
        by injection E2. }
  set (o' := match o with
             | Open_Proof _ text i => Spec_Proof k text i
             | Open_EmptyLeaf _ i => Spec_EmptyLeaf k i
             | Open_BatchProofs _ _ b => Spec_BatchProofs k
                 (match q with Query_GetBatchProofs req => pb_QueryBatchProofsRequest_Operations req | _ => [] end) b
             end).
  eexists _, _, (mkSpecState (sp_jobs A) (sp_open A ++ [o'])). split; [reflexivity|]. split.
  - right. exists o, o'. split; [done|]. split; [|done]. split; [done|]. exists k, j, x. split; [done|]. split;
      [done|].
    split; [done|]. split; [done|]. destruct q as [req|req|req], o as [h text i|h i|h ops b]; cbn [opens o'] in *;
      try done; [by destruct Hop..|]. destruct Hop as (_ & -> & Hne & vs & Ep & _). do 4 (split; [done|]).
          by exists vs.
  - apply live_query_step; [done|done|]. apply Forall2_app; [done|]. constructor; [|done].
    destruct q as [req|req|req], o as [h text i|h i|h ops b]; cbn [opens o' open_ok] in *; try done.
    + destruct Hop as (-> & _ & v & _ & Hi & _). split; [done|]. split; [done|]. by exists j, r.
    + destruct Hop as (-> & Hi & _). split; [done|]. by exists j, r.
    + destruct Hop as (-> & -> & Hne & Hv). do 3 (split; [done|]). by exists r.
Qed.

Lemma Forall2_delete {X Y : Type} (P : X -> Y -> Prop) (l : list X) (l' : list Y) (n : nat) :
  Forall2 P l l' -> Forall2 P (delete n l) (delete n l').
Proof.
  intros H. revert n. induction H as [|x y l l' Hxy Hl IH]; intros [|n]; cbn; [done|done|done|].
      by constructor; [|apply IH].
Qed.

(** The rest of a query, on the registry of the job [k]. *)
Lemma finish_answers (s : live_state) (A : spec_state) (o' : spec_open) (o : open_query) :
  context_active -> live_ok js s A -> open_ok js (lv_jobs s) o' o ->
  exists c svc', finish_query o (lv_service s) = (c, svc') /\ sv_kept (lv_service s) svc' /\
    spec_answers js (sp_jobs A) o' c.
Proof.
  intros Hctx H Hop.
  destruct o' as [k text i|k i|k ops b], o as [h text' i'|h i'|h operations b']; cbn [open_ok] in Hop; try done.
  3:{ destruct Hop as (-> & Hne & (vs & Ep & -> & Hf) & r & Er & <-).
      destruct (spec_lookup js s A k r H Er) as (j & x & Ej & Ex & Hl).
      destruct (jl_object _ _ _ _ Hl) as (reg & Ereg & Hind & _).
      destruct (indexed_meta _ _ _ _ Hind) as (_ & _ & _ & Ed & Ee).
      destruct (finish_batch_ok (lv_service s) (jr_registry r) reg _ _ ops vs b Hctx Ereg
        (ind_models _ _ _ _ _ _ _ _ _ _ Hind) Hf Hne Ep) as (c & svc' & E & K & Hc).
      exists c, svc'. split; [done|]. split; [done|]. rewrite Ed, Ee in Hc. by exists j, x. }
  1: destruct Hop as (-> & -> & j & r & Ej & Er & <- & Hi).
  2: destruct Hop as (-> & j & r & Ej & Er & <- & Hi).
  all: destruct (spec_lookup js s A k r H Er) as (j' & x & Ej' & Ex & Hl); rewrite Ej in Ej'; injection Ej' as <-;
    destruct (jl_object _ _ _ _ Hl) as (reg & Ereg & Hind & _);
    destruct (indexed_meta _ _ _ _ Hind) as (_ & _ & _ & Ed & _); rewrite <- Ed in Hi.
  - destruct (finish_query_ok (lv_service s) (Open_Proof (jr_registry r) text i) (jr_registry r) reg i _ _ Hctx Ereg
      (ind_models _ _ _ _ _ _ _ _ _ _ Hind) Hi) as (svc' & p & K & R & Hp); [left; by exists text|].
    rewrite Ed in Hp. exists (Ok (Answer_Proof (mkpb_QueryProofResponse p))), svc'. split; [exact R|].
    split; [done|]. by exists j, x, p.
  - destruct (finish_query_ok (lv_service s) (Open_EmptyLeaf (jr_registry r) i) (jr_registry r) reg i _ _ Hctx Ereg
      (ind_models _ _ _ _ _ _ _ _ _ _ Hind) Hi) as (svc' & p & K & R & Hp); [by right|].
    rewrite Ed in Hp. exists (Ok (Answer_GetEmptyLeafProof (mkpb_GetEmptyLeafProofResponse p))), svc'.
    split; [exact R|]. split; [done|]. by exists j, x, p.
Qed.

Lemma overtaken_same (rs : list running_job) (o' : spec_open) (o : open_query) :
  open_ok js rs o' o -> is_overtaken o = spec_overtaken o'.
Proof. destruct o' as [k text i|k i|k ops b], o as [h text' i'|h i'|h operations b']; try done. by intros (-> &
    _). Qed.

Lemma finish_step (s : live_state) (A : spec_state) (n : nat) :
  context_active -> live_ok js s A ->
  exists out s' A', live_finish n s = (out, s') /\ spec_do js A (Finish n) out A' /\ live_ok js s' A'.
Proof.
  intros Hctx H. pose proof (lv_queries _ _ _ H) as Ho. unfold live_finish. cbn [spec_do].
  destruct (lv_open s !! n) as [o|] eqn:Eo.
  2:{ exists Skipped, s, A. apply lookup_ge_None in Eo. rewrite <- (Forall2_length _ _ _ Ho) in Eo.
      by rewrite (lookup_ge_None_2 _ _ Eo). }
  destruct (Forall2_lookup_r _ _ _ _ _ Ho Eo) as (o' & Eo' & Hop). rewrite Eo'.
  destruct (finish_answers s A o' o Hctx H Hop) as (c & svc' & E & K & Hc). rewrite E.
  rewrite (overtaken_same _ _ _ Hop). eexists _, _, (mkSpecState (sp_jobs A) (delete n (sp_open A))).
  split; [reflexivity|]. split; [split; [done|]; destruct (spec_overtaken o'); [done|by exists c]|].
  apply live_query_step; [done|done|by apply Forall2_delete].
Qed.

(** * The theorem *)

Definition action_ok (act : live_action) : Prop := match act with Begin q => query_ok q | _ => True end.

(** Jobs stay, and the blocks that are indexed. *)
Definition forward (xs xs' : list spec_job) : Prop :=
  forall k x, xs !! k = Some x -> exists x', xs' !! k = Some x' /\ sj_done x <= sj_done x'.

Lemma forward_refl (xs : list spec_job) : forward xs xs.
Proof. intros k x E. exists x. split; [done|lia]. Qed.

Lemma forward_trans (xs1 xs2 xs3 : list spec_job) : forward xs1 xs2 -> forward xs2 xs3 -> forward xs1 xs3.
Proof.
  intros H1 H2 k x E. destruct (H1 k x E) as (x1 & E1 & Hle). destruct (H2 k x1 E1) as (x2 & E2 & Hle2).
  exists x2. split; [done|lia].
Qed.

Lemma forward_insert (xs : list spec_job) (k : nat) (x x' : spec_job) :
  xs !! k = Some x -> sj_done x <= sj_done x' -> forward xs (<[k := x']> xs).
Proof.
  intros E Hle k' y Ey. destruct (decide (k' = k)) as [->|Hne].
  - rewrite E in Ey. injection Ey as <-. exists x'. split; [|done]. apply list_lookup_insert_eq.
      by eapply lookup_lt_Some.
  - exists y. rewrite list_lookup_insert_ne by done. split; [done|lia].
Qed.

Lemma spec_forward (s : live_state) (A A' : spec_state) (act : live_action) (out : live_output) :
  live_ok js s A -> spec_do js A act out A' -> forward (sp_jobs A) (sp_jobs A').
Proof.
  intros H. destruct act as [k b|k logs|k|k m|q|n]; cbn [spec_do].
  - destruct (sp_jobs A !! k) as [[next don [b'|] head]|] eqn:E; [intros [_ ->];
      apply forward_refl| |intros [_ ->]; apply forward_refl].
    destruct (_ && _); intros [_ ->]; [|apply forward_refl]. apply (forward_insert _ _ _ _ E). cbn. lia.
  - intros [_ ->]. apply forward_refl.
  - destruct (sp_jobs A !! k) as [[next don [b|] head]|] eqn:E; [|intros [_ ->]; apply forward_refl..].
    intros [_ ->]. apply (forward_insert _ _ _ _ E). cbn [sj_done].
    pose proof H as [[L1 L2] He _ _ _ _].
    destruct (lookup_lt_is_Some_2 (lv_jobs s) k) as [r Er]; [rewrite L1, <- L2; by eapply lookup_lt_Some|].
    destruct (spec_lookup js s A k r H Er) as (j & x & Ej & Ex & Hl). rewrite E in Ex. injection Ex as <-.
    destruct (jl_object _ _ _ _ Hl) as (reg & _ & _ & _ & Hp). pose proof (jl_done _ _ _ _ Hl) as Hd.
    unfold phase_ok in Hp. cbn [sj_filled sj_next sj_done] in *. destruct (jr_phase r); try done.
    destruct Hp as (_ & -> & Hb & _). lia.
  - destruct (sp_jobs A !! k) as [[next don [b|] head]|] eqn:E; [intros [_ ->];
      apply forward_refl| |intros [_ ->]; apply forward_refl].
    intros [_ ->]. apply (forward_insert _ _ _ _ E). cbn. lia.
  - intros [(c & _ & _ & ->)|(o & o' & _ & _ & ->)]; apply forward_refl.
  - destruct (sp_open A !! n) as [o|]; [intros [-> _]|intros [_ ->]]; apply forward_refl.
Qed.

Lemma live_step (s : live_state) (A : spec_state) (act : live_action) :
  context_active -> action_ok act -> live_ok js s A ->
  exists out s' A', live_do chains act s = (out, s') /\ spec_do js A act out A' /\ live_ok js s' A'.
Proof.
  intros Hctx Hact H. destruct act as [k b|k logs|k|k m|q|n]; cbn [live_do].
  - by apply fill_step.
  - by apply sink_step.
  - by apply write_step.
  - by apply mode_step.
  - by apply begin_step.
  - by apply finish_step.
Qed.

Lemma live_run (acts : list live_action) (s : live_state) (A : spec_state) :
  context_active -> Forall action_ok acts -> live_ok js s A ->
  exists outs s' A', live_all chains acts s = (outs, s') /\ spec_run js A acts outs A' /\
    forward (sp_jobs A) (sp_jobs A') /\ live_ok js s' A'.
Proof.
  intros Hctx Hacts. revert s A. induction Hacts as [|act acts Hact _ IH]; intros s A H; cbn [live_all].
  { exists [], s, A. split; [done|]. split; [constructor|]. split; [apply forward_refl|done]. }
  destruct (live_step s A act Hctx Hact H) as (out & s1 & A1 & E & Hdo & H1). rewrite E.
  destruct (IH s1 A1 H1) as (outs & s2 & A2 & E2 & Hrun & Hf & H2). rewrite E2.
  exists (out :: outs), s2, A2. split; [done|]. split; [by econstructor|]. split; [|done].
  apply (forward_trans _ (sp_jobs A1)); [by apply (spec_forward s A A1 act out)|done].
Qed.

(** C4: the running service, in every mode but the one with a WebSocket subscription.  Jobs index
    their registries and handlers answer queries over one database, in any order of their
    steps: filling a batch with a range of blocks, writing it under the registry's lock, a
    change of mode, a query up to the lock or, for [GetBatchProofs], which takes none, up to
    the simulation, and the rest of a query.  Every such run is one of the abstract service.
    No step of a job fails, and blocks that are indexed stay so.  A query is answered by the
    abstract specification for the registries as they are: one that is not on the head is
    refused, one on the head serves exactly the leaves that the events before some block make.
    A proof that a commit overtakes before the lock is for the index that was found, in the
    tree of the later block.  A batch of field elements is answered by the specification when its
    registry is not written between its beginning and its end; of one that was overtaken nothing
    is said. *)
Theorem live_service_refines (s : live_state) (A : spec_state) (acts : list live_action) :
  context_active -> Forall action_ok acts -> live_ok js s A ->
  exists outs s' A', live_all chains acts s = (outs, s') /\ spec_run js A acts outs A' /\
    forward (sp_jobs A) (sp_jobs A') /\ live_ok js s' A'.
Proof. apply live_run. Qed.

(** ** A query that commits overtake *)

Lemma live_all_app (acts acts' : list live_action) (s : live_state) :
  live_all chains (acts ++ acts') s =
  (let (o, s1) := live_all chains acts s in let (o', s2) := live_all chains acts' s1 in (o ++ o', s2)).
Proof.
  revert s. induction acts as [|act acts IH]; intros s; cbn [live_all app]; [by destruct (live_all chains acts' s)|].
  destruct (live_do chains act s) as [o s1]. rewrite IH. destruct (live_all chains acts s1) as [os s2].
  by destruct (live_all chains acts' s2).
Qed.

Lemma spec_run_app (A1 A2 A3 : spec_state) (acts acts' : list live_action) (outs outs' : list live_output) :
  spec_run js A1 acts outs A2 -> spec_run js A2 acts' outs' A3 -> spec_run js A1 (acts ++ acts') (outs ++ outs') A3.
Proof. induction 1 as [|A act out A1 acts outs A2 Hdo _ IH]; intros H2; [done|]. cbn [app]. econstructor;
    [done|by apply IH]. Qed.

(** Of the queries that wait, only ones after the place [n] come to their end. *)
Definition keeps_place (n : nat) (act : live_action) : bool :=
  match act with Finish i => (n <? i)%nat | _ => true end.

(** [Proof] queries that wait go on to wait with their index. *)
Lemma spec_run_open (A A' : spec_state) (acts : list live_action) (outs : list live_output) (n k : nat)
    (text : string) (i : Z) :
  Forall (fun act => keeps_place n act = true) acts -> spec_run js A acts outs A' ->
  sp_open A !! n = Some (Spec_Proof k text i) -> sp_open A' !! n = Some (Spec_Proof k text i).
Proof.
  intros Hf Hrun. revert Hf. induction Hrun as [|A act out A1 acts outs A2 Hdo _ IH]; intros Hf Ho; [done|].
  apply Forall_cons in Hf as [Hact Hf]. apply (IH Hf). clear IH.
  destruct act as [k' b|k' logs|k'|k' m|q|i']; cbn [spec_do keeps_place] in *.
  - destruct (sp_jobs A !! k') as [[next don [b'|] head]|]; [by destruct Hdo as [_ ->]| |by destruct Hdo as [_ ->]].
    destruct (_ && _); by destruct Hdo as [_ ->].
  - by destruct Hdo as [_ ->].
  - destruct (sp_jobs A !! k') as [[next don [b'|] head]|]; destruct Hdo as [_ ->]; [|done..]. cbn [sp_open].
    apply list_lookup_fmap_Some. by exists (Spec_Proof k text i).
  - destruct (sp_jobs A !! k') as [[next don [b'|] head]|]; by destruct Hdo as [_ ->].
  - destruct Hdo as [(c & _ & _ & ->)|(o1 & o2 & _ & _ & ->)]; [done|]. cbn [sp_open]. by apply lookup_app_l_Some.
  - apply Nat.ltb_lt in Hact. destruct (sp_open A !! i') as [o|]; [destruct Hdo as [-> _]|by destruct Hdo as [_ ->]].
    cbn [sp_open]. by rewrite list_lookup_delete_lt.
Qed.

(** The answer for an index is right for the leaves exactly when the leaf there is the value. *)
Lemma message_right (d e v i : Z) (leaf : Z -> Z) (text : string) (p : pb_Proof) :
  uint256_FromDecimal text = inr v -> v <> e -> 0 <= i < 2 ^ d -> proof_message d leaf i text p ->
  proof_spec d e leaf text (Ok (Answer_Proof (mkpb_QueryProofResponse p))) <-> leaf i = v.
Proof.
  intros Et Hne Hi Hp. unfold proof_spec. rewrite Et. split.
  - intros [(i' & p' & Hi' & El & _ & Hp' & [= ->])|[_ [=]]]. destruct Hp as (path & _ & _ &
      E), Hp' as (path' & _ & _ & E').
    rewrite E in E'. injection E' as _ Eii. by rewrite Eii.
  - intros El. left. by exists i, p.
Qed.

(** C17: a [Proof] query and the commits between its lookup and its lock, in every mode but the one
    with a subscription.  The query is answered at once, as the specification says, or finds the
    index of the leaf that holds the value and waits; then, whatever jobs and queries that come
    later do in between, it is answered with a message for that index in the tree of the blocks
    indexed by then.  The answer is right for that tree
    exactly when the leaf still holds the value: without a commit of the registry, or when its
    commits left the leaf alone. *)
Theorem overtaken_proofs (s : live_state) (A : spec_state) (req : pb_QueryProofRequest) (acts : list live_action) :
  let q := Query_Proof req in
  let text := pb_QueryProofRequest_Leaf req in
  context_active -> Forall action_ok acts -> Forall (fun act => keeps_place (length (sp_open A)) act = true) acts ->
  live_ok js s A ->
  exists out mid last s' A', live_all chains (Begin q :: acts ++ [Finish (length (sp_open A))])
      s = (out :: mid ++ [last], s') /\
    spec_run js A (Begin q :: acts ++ [Finish (length (sp_open A))]) (out :: mid ++ [last]) A' /\
    ((exists c, out = Answered c /\ answer_spec (live_status js (sp_jobs A)) q c) \/
     exists k j x x' v i c, js !! k = Some j /\ HexToAddress (query_registry q) = Meta_Address (lj_metadata j) /\
       sp_jobs A !! k = Some x /\ sp_jobs A' !! k = Some x' /\ sj_done x <= sj_done x' /\
           uint256_FromDecimal text = inr v /\
       leaves_at j (sj_done x) i = v /\ last = Answered (Ok (Answer_Proof c)) /\
       (proof_spec (Meta_Depth (lj_metadata j)) (Meta_EmptyValue (lj_metadata j)) (leaves_at j (sj_done x')) text
          (Ok (Answer_Proof c)) <-> leaves_at j (sj_done x') i = v)).
Proof.
  intros q text Hctx Hacts Hnf H.
  destruct (live_step s A (Begin q) Hctx I H) as (out & s1 & A1 & E & Hdo & H1).
  destruct (live_run acts s1 A1 Hctx Hacts H1) as (mid & s2 & A2 & E2 & Hrun & Hf & H2).
  destruct (live_step s2 A2 (Finish (length (sp_open A))) Hctx I H2) as (last & s3 & A3 & E3 & Hfin & _).
  exists out, mid, last, s3, A3. split; [|split].
  { cbn [live_all]. rewrite E, live_all_app, E2. cbn [live_all]. by rewrite E3. }
  { econstructor; [exact Hdo|]. apply (spec_run_app _ A2); [exact Hrun|]. econstructor; [exact Hfin|constructor]. }
  cbn [spec_do] in Hdo. destruct Hdo as [(c & -> & Hc & _)|(o & o' & -> & Ho & ->)]; [left; by exists c|right].
  destruct Ho as (_ & k & j & x & Ej & Ex & Ea & _ & Ho). cbn [q] in Ho. destruct o' as [k' t' i| |]; [|done..].
  destruct Ho as (-> & -> & v & Et & Hi & El & Hne).
  assert (sp_open A2 !! length (sp_open A) = Some (Spec_Proof k text i)) as Eo.
  { apply (spec_run_open _ _ _ _ _ _ _ _ Hnf Hrun). cbn [sp_open]. by rewrite lookup_app_r, Nat.sub_diag by lia. }
  cbn [spec_do] in Hfin. rewrite Eo in Hfin. destruct Hfin as (-> & c & -> & j' & x' & p & Ej' & Ex' & Hp & ->).
  rewrite Ej in Ej'. injection Ej' as <-. destruct (Hf k x Ex) as (x'' & Ex'' & Hle). rewrite Ex' in
      Ex''. injection Ex'' as <-.
  exists k, j, x, x', v, i, (mkpb_QueryProofResponse p). do 8 (split; [done|]).
  by apply message_right.
Qed.
End Theorems.

(** * Witnesses: a registry with two certificates and one without *)

Definition other_job : JobDescriptor := mkJobDescriptor other_address 1 100.

Definition toy_live_job : live_job :=
  mkLiveJob toy_job toy_parser toy_chain (toy_fetched toy_address) (fun _ => 7) (fun _ => None) 100 100.
Definition other_live_job : live_job :=
  mkLiveJob other_job other_address (fun _ => []) (with_index 1 (toy_fetched other_address)) (fun _ => 7)
    (fun _ => None) 100 100.
Definition toy_jobs : list live_job := [toy_live_job; other_live_job].

Lemma quiet_operations (p : BoundContract) (a b : Z) : chain_operations p (fun _ => []) a b = [].
Proof.
  unfold chain_operations, block_logs. induction (seqZ a (b - a + 1)) as [|n l IH]; [done|]. exact IH.
Qed.

Lemma quiet_chain_ok : chain_ok other_job other_address (fun _ => [1]) (fun _ => [])
  (with_index 1 (toy_fetched other_address)) (fun _ => 7) 100.
Proof.
  split; [done|done|repeat split; try (cbn; lia)|by eexists|done|].
  - intros n _. unfold leaves_after. rewrite quiet_operations. apply no_zero_check_sound. vm_compute. reflexivity.
Qed.

Lemma toy_jobs_ok (k : nat) (j : live_job) : toy_jobs !! k = Some j -> live_job_ok (fun _ => [1]) j.
Proof.
  destruct k as [|[|k]]; [| |done]; intros [= <-].
  - split; [by apply toy_chain_for|cbn; lia|done| |].
    + split; [done|]. intros i _. by intros [].
    + intros n. cbn [lj_parser lj_chain lj_first lj_metadata lj_leaf0 lj_idx0 Meta_EmptyValue toy_fetched].
      destruct (Z.lt_ge_cases n 100) as [H|H].
      * unfold chain_operations. by rewrite block_logs_empty.
      * rewrite toy_chain_operations by done. destruct (n <? 101); [|destruct (n <? 103)]; repeat split; done.
  - split; [exact quiet_chain_ok|cbn; lia|done| |].
    + split; [done|]. intros i _. by intros [].
    + intros n. cbn [lj_parser lj_chain]. by rewrite quiet_operations.
Qed.

Lemma toy_jobs_apart : jobs_apart toy_jobs.
Proof. intros [|[|k]] [|[|k']] j j' Hne; try done; intros [= <-] [= <-]; repeat split; discriminate. Qed.

Definition toy_live : live_state :=
  mkLiveState ModePoll toy_service [mkRunningJob toy_job 0 None [] 100 Waiting; mkRunningJob other_job 1 None []
      100 Waiting] [].

Definition toy_spec : spec_state := mkSpecState [mkSpecJob 100 100 None false; mkSpecJob 100 100 None false] [].

(** Nothing is stored for a registry's number. *)
Lemma toy_unused (k : storage_key) :
  storage_key_ok k -> ~ registration_keys [toy_address; other_address] k -> contents (sv_db toy_service)
      !! key_bytes k = None.
Proof.
  intros Hk Hn. destruct toy_configured as (S & _). rewrite (S k Hk Hn).
  exact (lookup_empty (M := gmap gobytes) (A := gobytes) (key_bytes k)).
Qed.

Lemma toy_new_registry (m : Metadata) :
  Meta_Depth m = 3 -> Meta_EmptyValue m = 7 -> 0 <= Meta_Index m < 2 ^ 8 ->
  new_registry (registry_view toy_service (new_registry_object m (Meta_Index m))).
Proof.
  intros Hd He Hi. unfold new_registry, reg_index, registry_view, new_registry_object.
  cbn [rs_reg rs_db reg_metadata reg_sparseTree reg_leafView obj_view obj_depth obj_emtpyLeaf obj_emptyBranchLevels].
  rewrite Hd, He. repeat split; try lia.
  - intros l i Hk. apply (toy_unused (LeafKey (Meta_Index m) l i) (conj Hi Hk)). by intros (a & _ & [[=]|[[=]|[=]]]).
  - intros v Hv. apply (toy_unused (LeafIndexKey (Meta_Index m) v) (conj Hi Hv)). by intros (a & _ & [[=]|[[=]|[=]]]).
Qed.

Lemma toy_live_ok : live_ok toy_jobs toy_live toy_spec.
Proof.
  destruct toy_configured as (S & H1 & H2). split; [done| | |constructor| |done].
  - intros [|[|k]] j r x; [| |done]; intros [= <-] [= <-] [= <-].
    + apply (new_job_live toy_service toy_live_job 0%nat);
        [by apply toy_new_registry|exact H1|vm_compute; reflexivity..].
    + apply (new_job_live toy_service other_live_job 1%nat);
        [by apply toy_new_registry|exact H2|vm_compute; reflexivity..].
  - intros a Ha Hn. left. apply (toy_unused (RegistryIndexKey a) Ha). intros (b & Hb & [E|[E|E]]); [|done|done].
    injection E as <-. apply list_elem_of_In in Hb. destruct Hb as [Hb|[Hb|[]]]; [exact (Hn 0%nat _ eq_refl Hb)|
      exact (Hn 1%nat _ eq_refl Hb)].
  - exists ∅. split; [apply toy_service_no_jobs|]. intros [|[|k]] j x; [| |done]; by intros [= <-] [= <-].
Qed.

Definition other_address_text : string := "0x1212121212121212121212121212121212121212".

(** The first registry indexes its two certificates while queries come, the second one a quiet
    range.  Of two batches on the first registry the second is overtaken by a write; the logs
    of a subscription are skipped. *)
Definition toy_query : query := Query_Proof (mkpb_QueryProofRequest toy_address_text "20").
Definition toy_batch : query :=
  Query_GetBatchProofs (mkpb_QueryBatchProofsRequest toy_address_text [mkpb_BatchOperation "44" true]).

Definition toy_schedule : list live_action :=
  [ChangeMode 0 ModePoll; Fill 0 102; Begin toy_query; WriteBatch 0; Begin toy_query; Sink 0 (toy_chain 103);
   Begin toy_batch; Fill 1 101; Fill 0 103; WriteBatch 1; Finish 1; Begin toy_batch; WriteBatch 0; Finish 1; Finish 0;
   Begin (Query_Proof (mkpb_QueryProofRequest other_address_text "20"))].

Lemma toy_batch_ok : query_ok toy_batch.
Proof. constructor; [|constructor]. intros v. vm_compute. intros [= <-]. by split. Qed.

Lemma toy_schedule_ok : Forall action_ok toy_schedule.
Proof. repeat (constructor; [done || exact toy_batch_ok|]). constructor. Qed.

Lemma live_service_refines_witness :
  exists outs s' A', live_all (chains toy_jobs) toy_schedule toy_live = (outs, s') /\
    spec_run toy_jobs toy_spec toy_schedule outs A' /\ live_ok toy_jobs s' A' /\
    (exists res, outs !! 10%nat = Some (Answered (Ok (Answer_GetBatchProofs res)))) /\ outs !! 13%nat = Some Mixed.
Proof.
  destruct (live_service_refines (fun _ => [1]) toy_jobs toy_jobs_ok toy_jobs_apart toy_live toy_spec toy_schedule
    toy_active_context) as (outs & s' & A' & E & H & _ & Hok); [exact toy_schedule_ok|exact toy_live_ok|].
  exists outs, s', A'. split; [exact E|]. split; [exact H|]. split; [exact Hok|].
  change outs with (fst (outs, s')). rewrite <- E. split; [eexists|]; vm_compute; reflexivity.
Defined.

(** The first registry on the head, with its first certificate. *)
Definition toy_live_first : live_state :=
  snd (live_all (chains toy_jobs) [ChangeMode 0 ModePoll; Fill 0 102; WriteBatch 0] toy_live).

Lemma toy_first_live_ok : exists A, live_ok toy_jobs toy_live_first A.
Proof.
  destruct (live_run (fun _ => [1]) toy_jobs toy_jobs_ok toy_jobs_apart [ChangeMode 0 ModePoll; Fill 0 102;
      WriteBatch 0]
    toy_live toy_spec toy_active_context) as (outs & s' & A & E & _ & _ & H);
        [by repeat constructor|exact toy_live_ok|].
  exists A. unfold toy_live_first. by rewrite E.
Qed.

(** The query finds the index 1 and is answered when the second certificate is indexed. *)
Lemma overtaken_proofs_witness :
  let acts := [Fill 0 103; WriteBatch 0] in
  let q := Query_Proof (mkpb_QueryProofRequest toy_address_text "20") in
  exists A mid last s', live_ok toy_jobs toy_live_first A /\
    live_all (chains toy_jobs) (Begin q :: acts ++ [Finish (length (sp_open A))]) toy_live_first =
      (Opened (Open_Proof 0 "20" 1) :: mid ++ [last], s').
Proof.
  intros acts q. destruct toy_first_live_ok as (A & Hok).
  destruct (overtaken_proofs (fun _ => [1]) toy_jobs toy_jobs_ok toy_jobs_apart toy_live_first A
    (mkpb_QueryProofRequest toy_address_text "20") acts toy_active_context) as (out & mid & last & s' & A' & E & _);
    [by repeat constructor|by repeat constructor|exact Hok|].
  exists A, mid, last, s'. split; [exact Hok|]. fold q in E.
  assert (out = Opened (Open_Proof 0 "20" 1)) as <-; [|exact E].
  cbn [live_all] in E. destruct (live_do (chains toy_jobs) (Begin q) toy_live_first) as [o s1] eqn:E1.
  destruct (live_all _ _ s1) as [os s2]. injection E as <- _ _.
  assert (fst (live_do (chains toy_jobs) (Begin q) toy_live_first) = Opened (Open_Proof 0 "20" 1)) as E2
    by (vm_compute; reflexivity).
  rewrite E1 in E2. exact E2.
Defined.
