(* ===== verification/Recovery.v ===== *)
(** Starting and restarting the running service.  The jobs that the configurator starts
    ([internal/indexer/configurator.go], [pkg/indexer/application.go]) make up the running
    service of [Live]: on a new database, and on the one that a service left behind when it
    was stopped between any two of its steps. *)

From stdpp Require Import base list numbers strings gmap.
From Stdlib Require Import ZArith Lia.
From S2P Require Import Prelude GoBase MerkleSpec SparseTree SparseTreeFacts SparseTreeInsert SparseTreeProofs.
From S2P Require Import SparseTreeSimulation SparseTreeRuns Storage StorageFacts GoInstance.
From S2P Require Import Registry RegistryFacts RegistryRuns RegistryTheorems.
From S2P Require Import Service ServiceFacts Handlers HandlersFacts Jobs JobsFacts ServiceInstance ServiceTheorems.
From S2P Require Import HandlersTheorems Indexer IndexerFacts RegistryJob RegistryJobFacts IndexerTheorems.
From S2P Require Import Configurator JobStorageFacts ConfiguratorFacts ConfiguratorTheorems Live LiveFacts LiveTheorems.
Local Open Scope Z_scope.

(** A goroutine of the configurator as a job of the running service. *)
Definition job_started {U256 : Uint256} {PH : Poseidon} {KV : KVDatabase} {CE : ContractEvents} (job : started_job)
    : running_job :=
  mkRunningJob (sj_jobDescriptor job) (job_registry (sj_jobHandler job)) None [] (sj_startBlock job) Waiting.

Definition live_of {U256 : Uint256} {PH : Poseidon} {KV : KVDatabase} {CE : ContractEvents} (mode : Mode)
    (c : Configurator) : live_state :=
  mkLiveState mode (cf_service c) (map job_started (cf_started c)) [].

Section Recovery.
Context {U256 : Uint256} {UL : Uint256Laws U256} {PH : Poseidon} {PL : PoseidonLaws PH} {GE : GoEnv}.
Context {KV : KVDatabase} {KL : KVDatabaseLaws KV} {KI : KVIterator KV} {KIL : KVIteratorLaws KL KI}.
Context {JC : JobCodec} {JD : JobDecoder} {JL : JobCodecLaws JC JD}.
Context {MC : MetadataCodec} {ML : MetadataCodecLaws MC} {RC : RegistryContract}.
Context {CE : ContractEvents} {GS : GoScheduler} {GL : GoSchedulerLaws GS}.
Context {HA : HexAddress} {HL : HexAddressLaws HA} {UT : Uint256Text} {TL : Uint256TextLaws UT}.
Context (events : string -> gobytes) (topics : list (list gobytes)).
Context (Habi : GetAbi = inr events) (Htopics : MakeTopics [[events EventCertificateProcessed]] = inr topics).

(** * Jobs that start *)

(** A job starts at the block of its record, or at its first block. *)
Definition restart_block (j : live_job) (x : spec_job) : Z := default (lj_first j) (last_block j x).

Definition restarted (j : live_job) (x : spec_job) : live_job :=
  mkLiveJob (lj_descriptor j) (lj_parser j) (lj_chain j) (lj_metadata j) (lj_leaf0 j) (lj_idx0 j) (lj_first j)
    (restart_block j x).

(** What is indexed stays; what was filled is lost, and no registry is on the head. *)
Definition resumed (j : live_job) (x : spec_job) : spec_job := mkSpecJob (restart_block j x) (sj_done x) None false.

Definition addresses (js : list live_job) : list gobytes := map (fun j => Meta_Address (lj_metadata j)) js.

(** Jobs as a configuration makes them. *)
Definition configured (j : live_job) : Prop :=
  lj_descriptor j = job_of (Meta_Address (lj_metadata j)) (lj_metadata j) /\
  lj_first j = Job_StartBlock (lj_descriptor j).

(** The registry of a job, opened by a new service under the place of the job. *)
Record job_opens (v : service_state) (k : nat) (j : live_job) (x : spec_job) : Prop := {
  jo_registered : registered (sv_db v) (Meta_Address (lj_metadata j)) (lj_metadata j);
  jo_registry : sv_registry v !! Meta_Index (lj_metadata j) = Some k;
  jo_object : sv_objects v !! k = Some (new_registry_object (lj_metadata j) (Meta_Index (lj_metadata j)));
  jo_done : lj_first j <= sj_done x;
  jo_indexed : indexed (lj_descriptor j) (lj_parser j) (lj_chain j) (lj_metadata j) (lj_leaf0 j) (lj_idx0 j)
    (lj_first j) (sv_db v) (sj_done x)
    (registry_view v (new_registry_object (lj_metadata j) (Meta_Index (lj_metadata j))));
}.

Lemma restart_block_range (j : live_job) (x : spec_job) :
  lj_first j <= sj_done x -> lj_first j <= restart_block j x /\
    (sj_done x = restart_block j x \/ sj_done x = restart_block j x + 1).
Proof.
  intros H. unfold restart_block, last_block. destruct (Z.ltb_spec (lj_first j) (sj_done x)); cbn; lia.
Qed.

Lemma opened_live (v : service_state) (svc : service_state) (k : nat) (j : live_job) (x : spec_job) :
  live_job_ok events j -> job_opens v k j x -> contents (sv_db svc) = contents (sv_db v) ->
  sv_objects svc = sv_objects v -> sv_registry svc = sv_registry v ->
  job_live svc (restarted j x) (mkRunningJob (lj_descriptor j) k None [] (restart_block j x) Waiting) (resumed j x).
Proof.
  intros Hj [[Hi Hm] Hr Ho Hd Hx] Ed Eo Er. pose proof (restart_block_range j x Hd) as [Hb Hdone].
  split; cbn [restarted resumed jr_descriptor jr_registry jr_parser jr_next lj_descriptor lj_metadata lj_first
      lj_start
    sj_next sj_done]; try done.
  - unfold has_index in *. by rewrite Ed.
  - by rewrite Er.
  - eexists. split; [by rewrite Eo|]. split; [|done].
    set (reg := new_registry_object (lj_metadata j) (Meta_Index (lj_metadata j))) in *.
    apply (indexed_agree _ _ events _ _ _ (lj_idx0 j) _ (lk_chain events j Hj) (sj_done x) (registry_view v reg)
      (registry_view svc reg)); [| | |exact Hx].
    + apply object_of_new.
    + by left.
    + intros key _ _. cbn [registry_view rs_db]. by rewrite Ed.
  - by left.
  - destruct Hdone as [E|E]; [by left|right; by split].
  - unfold has_metadata in *. by rewrite Ed.
Qed.

Lemma restarted_ok (j : live_job) (x : spec_job) : live_job_ok events j -> live_job_ok events (restarted j x).
Proof. by intros [H1 H2 H3 H4 H5]. Qed.

(** ** The order in which the jobs start *)

(** The jobs with their places and what is indexed of them. *)
Definition placed (js : list live_job) (xs : list spec_job) : list (nat * (live_job * spec_job)) :=
  imap pair (zip js xs).

Lemma placed_elem (js : list live_job) (xs : list spec_job) (k : nat) (j : live_job) (x : spec_job) :
  (k, (j, x)) ∈ placed js xs <-> js !! k = Some j /\ xs !! k = Some x.
Proof.
  unfold placed. rewrite elem_of_lookup_imap. split.
  - intros (k' & p & [= <- <-] & Hk). by apply lookup_zip_with_Some in Hk as (j' & x' & [= <- <-] & Hj & Hx).
  - intros [Hj Hx]. exists k, (j, x). split; [done|]. apply lookup_zip_with_Some. by exists j, x.
Qed.

Lemma placed_NoDup (js : list live_job) (xs : list spec_job) : NoDup (map fst (placed js xs)).
Proof.
  unfold placed. replace (map fst (imap pair (zip js xs))) with (seq 0 (length (zip js xs))); [apply NoDup_seq|].
  apply list_eq. intros k. etransitivity; [|symmetry; exact (list_lookup_fmap fst _ k)]. rewrite list_lookup_imap.
  destruct (zip js xs !! k) as [p|] eqn:E; cbn.
  - apply lookup_seq. split; [done|]. by eapply lookup_lt_Some.
  - apply lookup_ge_None in E. apply lookup_ge_None. by rewrite length_seq.
Qed.

Definition start_of (p : nat * (live_job * spec_job)) : started_job :=
  let '(k, (j, x)) := p in
  mkStartedJob (lj_descriptor j) (restart_block j x) (mkFilterQuery [Job_Address (lj_descriptor j)] topics None None)
    (mkZkCertificateRegistryJob (lj_descriptor j) k).

Definition restarted_at (p : nat * (live_job * spec_job)) : live_job := restarted p.2.1 p.2.2.
Definition resumed_at (p : nat * (live_job * spec_job)) : spec_job := resumed p.2.1 p.2.2.

Lemma jobs_configured (js : list live_job) :
  Forall configured js -> zip_with job_of (addresses js) (map lj_metadata js) = map lj_descriptor js.
Proof. induction 1 as [|j js [Hj _] _ IH]; [done|]. cbn. f_equal; [by symmetry|exact IH]. Qed.

Lemma addresses_NoDup (js : list live_job) : jobs_apart js -> NoDup (addresses js).
Proof.
  intros Ha. apply NoDup_alt. intros k k' a Hk Hk'.
  apply list_lookup_fmap_Some in Hk as (j & -> & Ej). apply list_lookup_fmap_Some in Hk' as (j' & Ea & Ej').
  destruct (decide (k = k')) as [|Hne]; [done|]. by destruct (Ha k k' j j' Hne Ej Ej') as (_ & H & _).
Qed.

Lemma indices_NoDup (js : list live_job) : jobs_apart js -> NoDup (map Meta_Index (map lj_metadata js)).
Proof.
  intros Ha. rewrite map_map. apply NoDup_alt. intros k k' i Hk Hk'.
  apply list_lookup_fmap_Some in Hk as (j & -> & Ej). apply list_lookup_fmap_Some in Hk' as (j' & Ei & Ej').
  destruct (decide (k = k')) as [|Hne]; [done|]. by destruct (Ha k k' j j' Hne Ej Ej') as (Hi & _).
Qed.

(** The jobs that start are those of the configuration, each at the block of its record. *)
Lemma starts_placed (js : list live_job) (xs : list spec_job) (table : gmap JobDescriptor Z) :
  Forall configured js -> length xs = length js ->
  (forall k j x, js !! k = Some j -> xs !! k = Some x -> table !! lj_descriptor j = last_block j x) ->
  imap (fun k jd => mkStartedJob jd (first_block table jd) (mkFilterQuery [Job_Address jd] topics None None)
          (mkZkCertificateRegistryJob jd k)) (map lj_descriptor js) = map start_of (placed js xs).
Proof.
  intros Hcf Hlen Ht. apply list_eq. intros k. rewrite list_lookup_imap.
  etransitivity; [exact (f_equal (fmap _) (list_lookup_fmap lj_descriptor js k))|].
  etransitivity; [|symmetry; exact (list_lookup_fmap start_of _ k)]. unfold placed. rewrite list_lookup_imap.
  destruct (js !! k) as [j|] eqn:Ej.
  - destruct (lookup_lt_is_Some_2 xs k) as [x Ex]; [rewrite Hlen; by eapply lookup_lt_Some|].
    rewrite (proj2 (lookup_zip_with_Some pair js xs k (j, x))) by (by exists j, x). cbn. do 2 f_equal.
    unfold first_block. rewrite (Ht k j x Ej Ex). rewrite Forall_lookup in Hcf. destruct (Hcf k j Ej) as [_ Hf].
    by rewrite <- Hf.
  - destruct (zip js xs !! k) as [p|] eqn:E; [|done].
    apply lookup_zip_with_Some in E as (j & x & _ & Ej' & _). congruence.
Qed.

(** A service that is started on jobs: all of them run, in some order, and make up a running
    service that has indexed what the database says. *)
Lemma started_live (v : service_state) (js : list live_job) (xs : list spec_job) (mode : Mode) :
  mode <> ModeWS -> context_active -> (forall k j, js !! k = Some j -> live_job_ok events j) ->
      jobs_apart js -> Forall configured js ->
  length xs = length js ->
  (forall k j x, js !! k = Some j -> xs !! k = Some x -> job_opens v k j x) ->
  (forall a, address_ok a -> (forall k j, js !! k = Some j -> Meta_Address (lj_metadata j) <> a) ->
     status_ok v a Unknown) ->
  records_ok js (sv_db v) xs ->
  exists c ps, runs (RunIndexer_start (map lj_descriptor js)) (NewConfigurator v) tt c /\
    contents (sv_db (cf_service c)) = contents (sv_db v) /\ ps ≡ₚ placed js xs /\
    cf_started c = map start_of ps /\
    live_ok (map restarted_at ps) (live_of mode c) (mkSpecState (map resumed_at ps) []).
Proof.
  intros Hmode Hctx Hjs Hap Hcf Hlen Hop Hun (table & Hst & Ht).
  assert (forall k j, js !! k = Some j -> exists x, xs !! k = Some x /\ job_opens v k j x) as Hx.
  { intros k j Ej. destruct (lookup_lt_is_Some_2 xs k) as [x Ex]; [rewrite Hlen; by eapply lookup_lt_Some|].
    exists x. split; [done|by apply Hop]. }
  destruct (indexer_start v (addresses js) (map lj_metadata js) table events topics Hctx)
    as (c & R & Ed & Eo & Er & _ & Est); [| |by apply addresses_NoDup|done|done|done|].
  { apply Forall2_same_length_lookup. split; [unfold addresses; by rewrite !length_map|]. intros k a m Ha Hm.
    apply list_lookup_fmap_Some in Ha as (j & -> & Ej). apply list_lookup_fmap_Some in Hm as (j' & -> & Ej').
    rewrite Ej in Ej'. injection Ej' as <-. destruct (Hx k j Ej) as (x & Ex & Ho).
    split; [apply (lk_address events j (Hjs k j Ej))|apply (jo_registered _ _ _ _ Ho)]. }
  { intros k m Hm. apply list_lookup_fmap_Some in
      Hm as (j & -> & Ej). by destruct (Hx k j Ej) as (x & _ & [_ Hr _ _ _]). }
  rewrite (jobs_configured js Hcf) in R, Est. rewrite (starts_placed js xs table Hcf Hlen Ht) in Est.
  apply Permutation_map_inv in Est as (ps & Est & Hps). symmetry in Hps.
  exists c, ps. do 4 (split; [done|]).
  assert (forall k p, ps !! k = Some p -> exists k0 j x, p = (k0, (j, x)) /\ js !! k0 = Some j /\
      xs !! k0 = Some x) as Hp.
  { intros k [k0 [j x]] E. exists k0, j, x. split; [done|]. apply placed_elem. rewrite <- Hps.
      by eapply list_elem_of_lookup_2. }
  split; cbn [live_of lv_jobs lv_service lv_open lv_mode sp_jobs sp_open]; [..|done].
  - by rewrite Est, !length_map.
  - intros k j r x Ej Er' Ex. apply list_lookup_fmap_Some in Ej as (p & -> & Ep).
    rewrite Est, map_map in Er'. apply list_lookup_fmap_Some in Er' as (p' & -> & Ep').
    apply list_lookup_fmap_Some in Ex as (p'' & -> & Ep''). simplify_eq.
    destruct (Hp k p Ep) as (k0 & j & x & -> & Ej & Ex). cbn.
    apply (opened_live v); [by apply (Hjs k0)|by apply Hop|done..].
  - intros a Ha Hn. cbn [status_ok]. unfold has_index. rewrite Ed, Er. apply (Hun a Ha).
    intros k j Ej. destruct (Hx k j Ej) as (x & Ex & _).
    assert ((k, (j, x)) ∈ ps) as Hin by (rewrite Hps; by apply placed_elem).
    apply list_elem_of_lookup in Hin as [k' Ek']. apply (Hn k' (restarted j x)).
    apply list_lookup_fmap_Some. by exists (k, (j, x)).
  - constructor.
  - exists table. rewrite Ed. split; [done|]. intros k j x Ej Ex. apply list_lookup_fmap_Some in Ej as (p & -> & Ep).
    apply list_lookup_fmap_Some in Ex as (p'' & -> & Ep''). simplify_eq.
    destruct (Hp k p Ep) as (k0 & j & x & -> & Ej & Ex). exact (Ht k0 j x Ej Ex).
Qed.
(** ** The jobs that run are jobs of the running service *)

Lemma restarted_lookup (js : list live_job) (xs : list spec_job) (ps : list (nat * (live_job * spec_job))) (k : nat)
    (j' : live_job) :
  ps ≡ₚ placed js xs -> map restarted_at ps !! k = Some j' ->
  exists k0 j x, ps !! k = Some (k0, (j, x)) /\ js !! k0 = Some j /\ xs !! k0 = Some x /\ j' = restarted j x.
Proof.
  intros Hps E. apply list_lookup_fmap_Some in E as ([k0 [j x]] & -> & Ep). exists k0, j, x. split; [done|].
  assert ((k0, (j, x)) ∈ placed js xs) as Hin by (rewrite <- Hps; by eapply list_elem_of_lookup_2).
  by apply placed_elem in Hin as [? ?].
Qed.

Lemma restarted_jobs_ok (js : list live_job) (xs : list spec_job) (ps : list (nat * (live_job * spec_job))) :
  (forall k j, js !! k = Some j -> live_job_ok events j) -> ps ≡ₚ placed js xs ->
  forall k j, map restarted_at ps !! k = Some j -> live_job_ok events j.
Proof.
  intros Hjs Hps k j' E. destruct (restarted_lookup _ _ _ _ _ Hps E) as (k0 & j & x & _ & Ej & _ & ->).
  by apply restarted_ok, (Hjs k0).
Qed.

Lemma restarted_jobs_apart (js : list live_job) (xs : list spec_job) (ps : list (nat * (live_job * spec_job))) :
  jobs_apart js -> ps ≡ₚ placed js xs -> jobs_apart (map restarted_at ps).
Proof.
  intros Ha Hps k k' j1 j2 Hne E1 E2.
  destruct (restarted_lookup _ _ _ _ _ Hps E1) as (k1 & j & x & Ep & Ej & _ & ->).
  destruct (restarted_lookup _ _ _ _ _ Hps E2) as (k2 & j' & x' & Ep' & Ej' & _ & ->).
  apply (Ha k1 k2 j j'); [|done|done]. intros ->. apply Hne.
  pose proof (placed_NoDup js xs) as Hnd. rewrite <- Hps in Hnd. rewrite NoDup_alt in Hnd.
  apply (Hnd k k' k2); apply list_lookup_fmap_Some; eexists; (split; [|eassumption]); done.
Qed.

(** * A restart *)

Lemma zip_elem (js : list live_job) (xs : list spec_job) (j : live_job) (x : spec_job) :
  (j, x) ∈ zip js xs <-> exists k, js !! k = Some j /\ xs !! k = Some x.
Proof.
  rewrite list_elem_of_lookup. split.
  - intros [k Hk]. apply lookup_zip_with_Some in Hk as (j' & x' & [= <- <-] & Hj & Hx). by exists k.
  - intros (k & Hj & Hx). exists k. apply lookup_zip_with_Some. by exists j, x.
Qed.

Lemma live_elem (js : list live_job) (s : live_state) (A : spec_state) (j : live_job) (x : spec_job) :
  live_ok js s A -> (j, x) ∈ zip js (sp_jobs A) -> exists r, job_live (lv_service s) j r x.
Proof.
  intros [[L1 L2] He _ _ _ _] (k & Ej & Ex)%zip_elem.
  destruct (lookup_lt_is_Some_2 (lv_jobs s) k) as [r Er]; [rewrite L1; by eapply lookup_lt_Some|].
  exists r. by apply (He k).
Qed.

Lemma live_opens (svc v : service_state) (k : nat) (j : live_job) (r : running_job) (x : spec_job) :
  job_live svc j r x -> sv_db v = sv_db svc -> sv_registry v !! Meta_Index (lj_metadata j) = Some k ->
  sv_objects v !! k = Some (new_registry_object (lj_metadata j) (Meta_Index (lj_metadata j))) -> job_opens v k j x.
Proof.
  intros [_ H2 _ (reg & _ & Hi & _) _ _ H7 H8 H9] Ed Er Eo. split; [by rewrite Ed|done|done|lia|]. rewrite Ed.
  exact (indexed_reopened _ _ _ _ _ _ _ _ _ (registry_view svc reg) (sv_db v) (sv_world v) (f_equal contents Ed) Hi).
Qed.

(** A service that was stopped between any two steps, and starts again on a configuration of
    its jobs in some order.  What the contracts answer by then does not matter. *)
Lemma restart_live (js : list live_job) (s : live_state) (A : spec_state) (js1 : list live_job) (xs1 : list spec_job)
    (contract : RegistryContract) (mode : Mode) (w : world) :
  mode <> ModeWS -> context_active -> (forall k j, js1 !! k = Some j -> live_job_ok events j) -> jobs_apart js1 ->
  Forall configured js1 -> live_ok js s A -> length xs1 = length js1 -> zip js1 xs1 ≡ₚ zip js (sp_jobs A) ->
  exists v c ps, runs (configureZkCertificateRegistry (RC := contract) (addresses js1))
      (NewService (sv_db (lv_service s)) w) (map lj_descriptor js1) v /\
    runs (RunIndexer_start (map lj_descriptor js1)) (NewConfigurator v) tt c /\
    contents (sv_db (cf_service c)) = contents (sv_db (lv_service s)) /\ ps ≡ₚ placed js1 xs1 /\
    live_ok (map restarted_at ps) (live_of mode c) (mkSpecState (map resumed_at ps) []).
Proof.
  intros Hmode Hctx Hjs Hap Hcf H Hlen Hz. pose proof H as [[L1 L2] _ Hu _ (table & Hst & Ht) _].
  assert (forall k j x, js1 !! k = Some j -> xs1 !! k = Some x -> (j, x) ∈ zip js (sp_jobs A)) as Hin
    by (intros k j x Ej Ex; rewrite <- Hz; apply zip_elem; by exists k).
  assert (forall k j, js1 !! k = Some j -> exists r x, xs1 !! k = Some x /\ job_live (lv_service s) j r x) as Hx.
  { intros k j Ej. destruct (lookup_lt_is_Some_2 xs1 k) as [x Ex]; [rewrite Hlen; by eapply lookup_lt_Some|].
    destruct (live_elem js s A j x H (Hin k j x Ej Ex)) as [r Hl]. by exists r, x. }
  destruct (configure_known (RC := contract) (addresses js1) (map lj_metadata js1)
      (NewService (sv_db (lv_service s)) w) [])
    as (v & Rv & Edb & _ & Eo & Hnone & Hh).
  { apply Forall2_same_length_lookup. split; [unfold addresses; by rewrite !length_map|]. intros k a m Ha Hm.
    apply list_lookup_fmap_Some in Ha as (j & -> & Ej). apply list_lookup_fmap_Some in Hm as (j' & -> & Ej').
    rewrite Ej in Ej'. injection Ej' as <-. destruct (Hx k j Ej) as (r & x & _ & Hl).
    split; [apply (lk_address events j (Hjs k j Ej))|split; apply Hl]. }
  { by apply indices_NoDup. }
  rewrite (jobs_configured js1 Hcf) in Rv. cbn [app sv_objects NewService length Nat.add sv_db] in *.
  destruct (started_live v js1 xs1 mode Hmode Hctx Hjs Hap Hcf Hlen) as (c & ps & Rc & Ec & Hps & _ & Hlive).
  - intros k j x Ej Ex. destruct (live_elem js s A j x H (Hin k j x Ej Ex)) as [r Hl].
    apply (live_opens (lv_service s) v k j r); [done|done| |].
    + apply (Hh k). apply list_lookup_fmap_Some. by exists j.
    + rewrite Eo, map_map. apply list_lookup_fmap_Some. by exists j.
  - intros a Ha Hn. destruct (Hu a Ha) as [Hi|(i & Hi & Hr)]; [|left; by rewrite Edb|right].
    { intros k j Ej. destruct (lookup_lt_is_Some_2 (sp_jobs A) k) as [x Ex]; [rewrite L2; by eapply lookup_lt_Some|].
      assert ((j, x) ∈ zip js1 xs1) as (k1 & Ej1 & _)%zip_elem by (rewrite Hz; apply zip_elem; by exists k).
      by apply (Hn k1). }
    exists i. rewrite Edb. split; [done|]. rewrite Hnone; [apply lookup_empty|]. rewrite map_map.
    intros (j & -> & Hj)%list_elem_of_fmap. apply list_elem_of_lookup in Hj as [k Ej].
    destruct (Hx k j Ej) as (r & x & _ & Hl). by pose proof (eq_trans (eq_sym Hr) (jl_registry _ _ _ _ Hl)).
  - exists table. rewrite Edb. split; [done|]. intros k j x Ej Ex.
    destruct (proj1 (zip_elem _ _ _ _) (Hin k j x Ej Ex)) as (k' & Ej' & Ex'). by apply (Ht k').
  - exists v, c, ps. split; [exact Rv|]. split; [exact Rc|]. split; [by rewrite Ec, Edb|done].
Qed.
(** * The first start *)

(** A job of a configuration on a new database: its contract answers, its registry gets the
    number of its place, and nothing is indexed. *)
Record fresh_job (k : nat) (j : live_job) : Prop := {
  fj_fetched : fetchMetadataFromContract (Meta_Address (lj_metadata j)) = Ok (with_index 0 (lj_metadata j));
  fj_index : Meta_Index (lj_metadata j) = Z.of_nat k;
  fj_depth : 1 <= Meta_Depth (lj_metadata j) <= 32;
  fj_empty : in_field (Meta_EmptyValue (lj_metadata j));
  fj_leaves : lj_leaf0 j = (fun _ => Meta_EmptyValue (lj_metadata j));
  fj_indices : lj_idx0 j = (fun _ => None);
}.

Definition nothing_indexed (j : live_job) : spec_job := mkSpecJob (lj_first j) (lj_first j) None false.

Lemma fresh_jobs_apart (js : list live_job) :
  (forall k j, js !! k = Some j -> fresh_job k j) -> NoDup (addresses js) -> Forall configured js -> jobs_apart js.
Proof.
  intros Hf Hnd Hcf k k' j j' Hne Ej Ej'. rewrite Forall_lookup in Hcf.
  assert (Meta_Address (lj_metadata j) <> Meta_Address (lj_metadata j')) as Ha.
  { intros E. apply Hne. rewrite NoDup_alt in Hnd. apply (Hnd k k' (Meta_Address (lj_metadata j)));
      apply list_lookup_fmap_Some; [by exists j|by exists j']. }
  rewrite (fj_index k j (Hf k j Ej)), (fj_index k' j' (Hf k' j' Ej')). split; [lia|]. split; [done|].
  destruct (Hcf k j Ej) as [-> _], (Hcf k' j' Ej') as [-> _]. intros E. apply Ha. by injection E.
Qed.

Lemma unused_key (v : service_state) (js : list live_job) (d : DB) (key : storage_key) :
  contents d = ∅ -> same_records (registration_keys (addresses js)) d (sv_db v) -> storage_key_ok key ->
  ~ registration_keys (addresses js) key -> contents (sv_db v) !! key_bytes key = None.
Proof. intros He S Hk Hn. by rewrite (S key Hk Hn), He, lookup_empty. Qed.

(** Nothing is stored under the number of a registry that was configured on a new database. *)
Lemma fresh_registry (v : service_state) (js : list live_job) (k : nat) (j : live_job) (d : DB) :
  contents d = ∅ -> same_records (registration_keys (addresses js)) d (sv_db v) -> (k < 256)%nat -> fresh_job k j ->
  new_registry (registry_view v (new_registry_object (lj_metadata j) (Meta_Index (lj_metadata j)))).
Proof.
  intros He S Hk Hf. destruct Hf as [_ Ei Hd Hz _ _].
  unfold new_registry, reg_index, registry_view, new_registry_object.
  cbn [rs_reg rs_db reg_metadata reg_sparseTree reg_leafView obj_view obj_depth obj_emtpyLeaf obj_emptyBranchLevels].
  rewrite Ei. do 7 (split; [done || lia|]). split.
  - intros l i Hli. apply (unused_key v js d (LeafKey (Z.of_nat k) l i) He S); [split; [lia|done]|].
    by intros (a & _ & [[=]|[[=]|[=]]]).
  - intros u Hu. apply (unused_key v js d (LeafIndexKey (Z.of_nat k) u) He S); [split; [lia|done]|].
    by intros (a & _ & [[=]|[[=]|[=]]]).
Qed.
Lemma fresh_numbered (k : nat) (j : live_job) :
  fresh_job k j -> numbered_metadata 0 k (with_index 0 (lj_metadata j)) = lj_metadata j.
Proof. intros [_ Ei _ _ _ _]. unfold numbered_metadata, with_index. destruct (lj_metadata j). cbn in
    *. by rewrite Ei. Qed.

Lemma fresh_configured (js : list live_job) :
  Forall configured js ->
  zip_with job_of (addresses js) (map (fun j => with_index 0 (lj_metadata j)) js) = map lj_descriptor js.
Proof. induction 1 as [|j js [Hj _] _ IH]; [done|]. cbn. f_equal; [by symmetry|exact IH]. Qed.

Lemma fresh_opens (js : list live_job) (v : service_state) (d : DB) (k : nat) (j : live_job) :
  contents d = ∅ -> same_records (registration_keys (addresses js)) d (sv_db v) -> (k < 256)%nat -> fresh_job k j ->
  registered (sv_db v) (Meta_Address (lj_metadata j)) (lj_metadata j) ->
  sv_registry v !! Meta_Index (lj_metadata j) = Some k ->
  sv_objects v !! k = Some (new_registry_object (lj_metadata j) (Meta_Index (lj_metadata j))) ->
  job_opens v k j (nothing_indexed j).
Proof.
  intros He S Hk Hf Hr Hi Ho. split; [done..|done|].
  apply new_job_indexed; [by apply (fresh_registry v js k j d)|apply (fj_leaves k j Hf)|apply (fj_indices k j Hf)].
Qed.

Lemma first_start_live (js : list live_job) (d : DB) (mode : Mode) (w : world) :
  mode <> ModeWS -> context_active -> (forall k j, js !! k = Some j -> live_job_ok events j /\ fresh_job k j)
      -> NoDup (addresses js) ->
  Forall configured js -> (length js <= 256)%nat -> contents d = ∅ ->
  exists v c ps, runs (configureZkCertificateRegistry (addresses js)) (NewService d w) (map lj_descriptor js) v /\
    runs (RunIndexer_start (map lj_descriptor js)) (NewConfigurator v) tt c /\
    ps ≡ₚ placed js (map nothing_indexed js) /\
    live_ok (map restarted_at ps) (live_of mode c) (mkSpecState (map resumed_at ps) []).
Proof.
  intros Hmode Hctx Hj Hnd Hcf Hlen He. set (ms := map (fun j => with_index 0 (lj_metadata j)) js).
  destruct (configure_new (addresses js) ms (NewService d w) 0 []) as (v & Rv & [S U] & Eo & _ & Hk);
    [|done|unfold next_index; cbn [sv_db NewService]; by rewrite He, lookup_empty|unfold addresses;
        by rewrite length_map|].
  { apply Forall2_same_length_lookup. split; [unfold addresses, ms; by rewrite !length_map|]. intros k a m Ha Hm.
    apply list_lookup_fmap_Some in Ha as (j & -> & Ej). apply list_lookup_fmap_Some in Hm as (j' & -> & Ej').
    rewrite Ej in Ej'. injection Ej' as <-. destruct (Hj k j Ej) as [Hl Hf]. split; [apply (lk_address events j Hl)|].
    split; [|apply (fj_fetched k j Hf)]. unfold unregistered. cbn [sv_db NewService]. by rewrite He, !lookup_empty. }
  unfold ms in Rv. rewrite (fresh_configured js Hcf) in Rv. cbn [app sv_objects NewService length Nat.add sv_db] in *.
  destruct (started_live v js (map nothing_indexed js) mode Hmode Hctx) as (c & ps & Rc & _ & Hps & _ & Hlive);
    [intros k j Ej; apply (Hj k j Ej)|apply fresh_jobs_apart; [intros k j Ej; apply (Hj k j Ej)|done|done]|done|
     by rewrite length_map| | | |].
  - intros k j x Ej Ex. apply list_lookup_fmap_Some in Ex as (j' & -> & Ej'). rewrite Ej in Ej'. injection Ej' as <-.
    destruct (Hj k j Ej) as [Hl Hf]. pose proof (lookup_lt_Some _ _ _ Ej).
    assert (ms !! k = Some (with_index 0 (lj_metadata j))) as Em by (apply list_lookup_fmap_Some; by exists j).
    assert (addresses js !! k = Some (Meta_Address (lj_metadata j))) as Ea by (apply list_lookup_fmap_Some;
        by exists j).
    destruct (Hk k _ _ Ea Em) as [Hr Hreg]. rewrite (fresh_numbered k j Hf) in Hr.
    apply (fresh_opens js v d); [done|done|lia|done|done| |].
    + by rewrite (fj_index k j Hf).
    + rewrite Eo, list_lookup_imap, Em. cbn. by rewrite (fresh_numbered k j Hf), (fj_index k j Hf).
  - intros a Ha Hn. left. apply (unused_key v js d (RegistryIndexKey a) He S Ha).
    intros (b & Hb & [[= <-]|[[=]|[=]]]). apply list_elem_of_fmap in Hb as (j & -> & Hin).
    apply list_elem_of_lookup in Hin as [k Ej]. by apply (Hn k j Ej).
  - exists ∅. split; [|intros k j x Ej Ex; apply list_lookup_fmap_Some in Ex as (j' & -> & Ej'); rewrite Ej in Ej';
      injection Ej' as <-; unfold last_block, nothing_indexed; cbn; by rewrite Z.ltb_irrefl].
    split; [intros key bs E Hp; by rewrite (U key Hp), He, lookup_empty in
        E|intros jd b E; by rewrite lookup_empty in E].
  - by exists v, c, ps.
Qed.
(** * All histories of a service *)

(** What a start does not choose about a job. *)
Definition static (j : live_job) : live_job :=
  mkLiveJob (lj_descriptor j) (lj_parser j) (lj_chain j) (lj_metadata j) (lj_leaf0 j) (lj_idx0 j) (lj_first j)
      (lj_first j).

(** Of every job, the first block that is not indexed. *)
Definition indexed_blocks (js : list live_job) (A : spec_state) : list (JobDescriptor * Z) :=
  zip_with (fun j x => (lj_descriptor j, sj_done x)) js (sp_jobs A).

Lemma static_fields (j j' : live_job) :
  static j = static j' -> lj_descriptor j = lj_descriptor j' /\ lj_metadata j = lj_metadata j' /\
    lj_chain j = lj_chain j' /\ (live_job_ok events j -> live_job_ok events j') /\ (configured j -> configured j').
Proof.
  destruct j, j'. unfold static. cbn. intros [= -> -> -> -> -> -> ->]. do 3 (split; [done|]).
  split; [by intros [H1 H2 H3 H4 H5]|by intros [H1 H2]].
Qed.

Lemma static_lookup (js js' : list live_job) (k : nat) (j : live_job) :
  map static js = map static js' -> js !! k = Some j -> exists j', js' !! k = Some j' /\ static j = static j'.
Proof.
  intros E Ej. assert (map static js !! k = Some (static j)) as Es by (apply list_lookup_fmap_Some; by exists j).
  rewrite E in Es. apply list_lookup_fmap_Some in Es as (j' & Es & Ej'). by exists j'.
Qed.

Lemma static_apart (js js' : list live_job) : map static js = map static js' -> jobs_apart js' -> jobs_apart js.
Proof.
  intros E Ha k k' j j' Hne Ej Ej'. destruct (static_lookup _ _ _ _ E Ej) as (i & Ei & Es).
  destruct (static_lookup _ _ _ _ E Ej') as (i' & Ei' & Es').
  apply static_fields in Es as (-> & -> & _). apply static_fields in Es' as (-> & -> & _). by apply (Ha k k' i i').
Qed.

Lemma static_configuration (js js' : list live_job) :
  map static js = map static js' -> addresses js = addresses js' /\ map lj_descriptor js = map lj_descriptor js'.
Proof.
  intros E. split; [apply (f_equal (map (fun j => Meta_Address (lj_metadata j)))) in E|
    apply (f_equal (map lj_descriptor)) in E]; rewrite !map_map in E; exact E.
Qed.

Lemma placed_jobs (js : list live_job) (xs : list spec_job) : map snd (placed js xs) = zip js xs.
Proof.
  unfold placed. apply list_eq. intros k. etransitivity; [exact (list_lookup_fmap snd _ k)|].
  rewrite list_lookup_imap. by destruct (zip js xs !! k).
Qed.

Lemma zip_with_maps {T X Y Z : Type} (f : X -> Y -> Z) (g : T -> X) (h : T -> Y) (l : list T) :
  zip_with f (map g l) (map h l) = map (fun t => f (g t) (h t)) l.
Proof. induction l as [|t l IH]; [done|]. cbn. by f_equal. Qed.

Lemma zip_with_pairs {X Y Z : Type} (f : X -> Y -> Z) (l : list X) (l' : list Y) :
  zip_with f l l' = map (fun p => f p.1 p.2) (zip l l').
Proof. revert l'. induction l as [|x l IH]; intros [|y l']; [done..|]. cbn. by f_equal. Qed.

(** A start, whatever the order of the jobs, is on the configured jobs and keeps what is indexed. *)
Lemma restarted_static (js : list live_job) (xs : list spec_job) (ps : list (nat * (live_job * spec_job))) :
  length xs = length js -> ps ≡ₚ placed js xs ->
  map static (map restarted_at ps) ≡ₚ map static js /\
  indexed_blocks (map restarted_at ps) (mkSpecState (map resumed_at ps) []) ≡ₚ
    zip_with (fun j x => (lj_descriptor j, sj_done x)) js xs.
Proof.
  intros Hlen Hps. assert (map snd ps ≡ₚ zip js xs) as Hz by (rewrite <- placed_jobs; by apply Permutation_map).
  split.
  - rewrite map_map. transitivity (map (fun p => static p.1) (map snd ps)); [by rewrite map_map|].
    etransitivity; [apply Permutation_map, Hz|]. rewrite <- (map_map fst static). apply Permutation_refl'. f_equal.
    apply fst_zip. lia.
  - unfold indexed_blocks. cbn [sp_jobs]. rewrite zip_with_maps, (zip_with_pairs _ js xs).
    transitivity (map (fun p => (lj_descriptor p.1, sj_done p.2)) (map snd ps)); [by rewrite map_map|].
    by apply Permutation_map.
Qed.

Section Histories.
Context (js0 : list live_job) (network : JobDescriptor -> Z -> list Log).
Context (Hjobs : forall k j, js0 !! k = Some j -> live_job_ok events j /\ fresh_job k j).
Context (Hnd : NoDup (addresses js0)) (Hcf : Forall configured js0) (Hlen : (length js0 <= 256)%nat).
Context (Hnet : forall k j, js0 !! k = Some j -> network (lj_descriptor j) = lj_chain j).

(** The application starts on a database, in a mode. *)
Definition starts (contract : RegistryContract) (mode : Mode) (d : DB) (s : live_state) : Prop :=
  exists w v c, runs (configureZkCertificateRegistry (RC := contract) (addresses js0)) (NewService d w)
      (map lj_descriptor js0) v /\
    runs (RunIndexer_start (map lj_descriptor js0)) (NewConfigurator v) tt c /\ s = live_of mode c.

(** Every job gets the logs of its contract. *)
Definition seen_chains (s : live_state) (k : nat) : Z -> list Log :=
  match lv_jobs s !! k with Some r => network (jr_descriptor r) | None => fun _ => [] end.

(** The states that a service without a subscription gets to from a new database, when it may be
    stopped at any time and started again.  The contracts answer at the first start; what they
    answer later does not matter. *)
Inductive reachable : live_state -> Prop :=
| reach_first mode d s : mode <> ModeWS -> contents d = ∅ -> starts RC mode d s -> reachable s
| reach_step s act out s' : reachable s -> action_ok act -> live_do (seen_chains s) act s = (out, s') -> reachable s'
| reach_restart contract mode s s' :
    mode <> ModeWS -> reachable s -> starts contract mode (sv_db (lv_service s)) s' -> reachable s'.

Lemma live_do_chains (f g : nat -> Z -> list Log) (act : live_action) (s : live_state) :
  (forall k, f k = g k) -> live_do f act s = live_do g act s.
Proof.
  intros E. destruct act as [k b|k logs|k|k m|q|n]; cbn [live_do]; try done. unfold live_fill. by rewrite E.
Qed.

Lemma seen_chains_ok (js : list live_job) (s : live_state) (A : spec_state) (k : nat) :
  map static js ≡ₚ map static js0 -> live_ok js s A -> seen_chains s k = chains js k.
Proof.
  intros Hs H. unfold seen_chains, chains. destruct (lv_jobs s !! k) as [r|] eqn:Er.
  - destruct (spec_lookup js s A k r H Er) as (j & x & Ej & _ & Hl). rewrite Ej, (jl_descriptor _ _ _ _ Hl).
    assert (static j ∈ map static js0) as (j0 & E & Hin)%list_elem_of_fmap.
    { rewrite <- Hs. apply list_elem_of_fmap. exists j. split; [done|]. by eapply list_elem_of_lookup_2. }
    apply list_elem_of_lookup in Hin as [k0 Ej0]. apply static_fields in E as (-> & _ & -> & _). by apply (Hnet k0).
  - destruct (lv_length _ _ _ H) as [L1 _]. apply lookup_ge_None in Er. by rewrite (lookup_ge_None_2 js) by lia.
Qed.

(** The jobs of the service, in the order of the configuration. *)
Lemma configuration_order (js : list live_job) (A : spec_state) :
  map static js ≡ₚ map static js0 -> length (sp_jobs A) = length js ->
  exists js1 xs1, map static js1 = map static js0 /\ length xs1 = length js1 /\ zip js1 xs1 ≡ₚ zip js (sp_jobs A).
Proof.
  intros Hs Hl. assert (map static js0 ≡ₚ map (fun p => static p.1) (zip js (sp_jobs A))) as Hp.
  { rewrite <- Hs, <- (fst_zip js (sp_jobs A)) at 1 by lia. by rewrite map_map. }
  apply Permutation_map_inv in Hp as (ps & E & Hps). exists (map fst ps), (map snd ps).
  rewrite map_map, !length_map. split; [by symmetry|]. split; [done|].
  rewrite Hps. apply Permutation_refl'. etransitivity; [apply zip_with_maps|].
  rewrite <- (map_id ps) at 2. apply map_ext. by intros [].
Qed.

Lemma jobs0_apart : jobs_apart js0.
Proof. apply fresh_jobs_apart; [intros k j Ej; apply (Hjobs k j Ej)|done|done]. Qed.

Lemma configured_like (js1 : list live_job) :
  map static js1 = map static js0 ->
  (forall k j, js1 !! k = Some j -> live_job_ok events j) /\ jobs_apart js1 /\ Forall configured js1.
Proof.
  intros E. split; [|split; [by apply (static_apart _ js0), jobs0_apart|apply Forall_lookup]];
    intros k j Ej; destruct (static_lookup _ _ _ _ E Ej) as (j0 & Ej0 & Es); symmetry in Es;
    apply static_fields in Es as (_ & _ & _ & Ho & Hc).
  - apply Ho, (Hjobs k j0 Ej0).
  - apply Hc. rewrite Forall_lookup in Hcf. by apply (Hcf k).
Qed.
(** The service runs the configured jobs, in some order. *)
Definition serves (s : live_state) (js : list live_job) (A : spec_state) : Prop :=
  map static js ≡ₚ map static js0 /\ (forall k j, js !! k = Some j -> live_job_ok events j) /\ jobs_apart js /\
  live_ok js s A.

(** A start on a new database succeeds, and nothing is indexed. *)
Lemma first_start_serves (d : DB) (mode : Mode) (w : world) :
  mode <> ModeWS -> context_active -> contents d = ∅ ->
  exists v c js A, runs (configureZkCertificateRegistry (addresses js0)) (NewService d w) (map lj_descriptor js0) v /\
    runs (RunIndexer_start (map lj_descriptor js0)) (NewConfigurator v) tt c /\
    serves (live_of mode c) js A /\ indexed_blocks js A ≡ₚ map (fun j => (lj_descriptor j, lj_first j)) js0.
Proof.
  intros Hmode Hctx He.
  destruct (first_start_live js0 d mode w Hmode Hctx Hjobs Hnd Hcf Hlen He) as (v & c & ps & Rv & Rc & Hps & H).
  exists v, c, (map restarted_at ps), (mkSpecState (map resumed_at ps) []). split; [done|]. split; [done|].
  destruct (restarted_static js0 (map nothing_indexed js0) ps) as [Hs Hb]; [by rewrite length_map|done|]. split.
  - split; [done|]. split; [|split; [|done]].
    + apply (restarted_jobs_ok js0 (map nothing_indexed js0)); [|done]. intros k j Ej. apply (Hjobs k j Ej).
    + apply (restarted_jobs_apart js0 (map nothing_indexed js0)); [apply jobs0_apart|done].
  - rewrite Hb. apply Permutation_refl'. clear. induction js0 as [|j js IH]; [done|]. cbn. by f_equal.
Qed.

Lemma first_serves (mode : Mode) (d : DB) (s : live_state) :
  mode <> ModeWS -> context_active -> contents d = ∅ -> starts RC mode d s -> exists js A, serves s js A.
Proof.
  intros Hmode Hctx He (w & v & c & Rv & Rc & ->).
  destruct (first_start_serves d mode w Hmode Hctx He) as (v' & c' & js & A & Rv' & Rc' & H & _).
  unfold runs in *. rewrite Rv in Rv'. injection Rv' as <-. rewrite Rc in Rc'. injection Rc' as <-. by exists js, A.
Qed.

(** A restart succeeds and keeps what is indexed, whatever the contracts answer. *)
Lemma restart_serves (s : live_state) (js : list live_job) (A : spec_state) (contract : RegistryContract)
    (mode : Mode)
    (w : world) :
  mode <> ModeWS -> context_active -> serves s js A ->
  exists v c js' A', runs (configureZkCertificateRegistry (RC := contract) (addresses js0))
      (NewService (sv_db (lv_service s)) w) (map lj_descriptor js0) v /\
    runs (RunIndexer_start (map lj_descriptor js0)) (NewConfigurator v) tt c /\
    serves (live_of mode c) js' A' /\ indexed_blocks js' A' ≡ₚ indexed_blocks js A.
Proof.
  intros Hmode Hctx (Hs & _ & _ & H). pose proof (lv_length _ _ _ H) as [_ L2].
  destruct (configuration_order js A Hs L2) as (js1 & xs1 & E & L & Hz).
  destruct (configured_like js1 E) as (Hok & Hap & Hc). pose proof (static_configuration js1 js0 E) as [<- <-].
  destruct (restart_live js s A js1 xs1 contract mode w Hmode Hctx Hok Hap Hc H L Hz)
    as (v & c & ps & Rv & Rc & _ & Hps & H').
  destruct (restarted_static js1 xs1 ps L Hps) as [Hs' Hb].
  exists v, c, (map restarted_at ps), (mkSpecState (map resumed_at ps) []). split; [done|]. split; [done|]. split.
  - split; [by rewrite Hs', E|]. split; [by apply (restarted_jobs_ok js1 xs1)|]. split; [|done].
    by apply (restarted_jobs_apart js1 xs1).
  - rewrite Hb. unfold indexed_blocks. rewrite !(zip_with_pairs (fun j x => (lj_descriptor j, sj_done x))).
    by apply Permutation_map.
Qed.

Lemma step_serves (s : live_state) (js : list live_job) (A : spec_state) (act : live_action) :
  context_active -> action_ok act -> serves s js A ->
  exists out s' A', live_do (seen_chains s) act s = (out, s') /\ spec_do js A act out A' /\ serves s' js A'.
Proof.
  intros Hctx Hact (Hs & Hok & Hap & H).
  rewrite (live_do_chains _ (chains js) act s) by (intros k; by apply (seen_chains_ok js s A)).
  destruct (live_step events js Hok Hap s A act Hctx Hact H) as (out & s' & A' & E & Hdo & H').
  by exists out, s', A'.
Qed.

Lemma reachable_serves (s : live_state) : context_active -> reachable s -> exists js A, serves s js A.
Proof.
  intros Hctx. induction 1 as [mode d s Hm He Hst|s act out s' _ (js & A & IH) Hact E|
    contract mode s s' Hm _ (js & A & IH) Hst].
  - by apply (first_serves mode d).
  - destruct (step_serves s js A act Hctx Hact IH) as (out' & s'' & A' & E' & _ & H'). rewrite E in E'.
    injection E' as <- <-. by exists js, A'.
  - destruct Hst as (w & v & c & Rv & Rc & ->).
    destruct (restart_serves s js A contract mode w Hm Hctx IH) as (v' & c' & js' & A' & Rv' & Rc' & H' & _).
    unfold runs in *. rewrite Rv in Rv'. injection Rv' as <-. rewrite Rc in
        Rc'. injection Rc' as <-. by exists js', A'.
Qed.

(** C2: every history of the service, in every mode but the one with a WebSocket subscription.  A
    service that starts on a new database with contracts that answer, whose jobs and handlers
    take steps in any order, and that is stopped between any two steps, a start being one of
    them, and started again any number of times, always runs exactly the configured jobs and serves the
        registries of the
    abstract service.  Every further step is one of the abstract service, as it is in C4: a
    batch query is answered by its specification unless its registry is written while it runs.
    And stopping the service loses nothing that is indexed: a restart succeeds, whatever the
    contracts answer by then, and of every job the same blocks are indexed as before. *)
Theorem every_history_serves (s : live_state) :
  context_active -> reachable s ->
  exists js A, serves s js A /\
    (forall act, action_ok act -> exists out s' A', live_do (seen_chains s) act s = (out, s') /\
       spec_do js A act out A' /\ serves s' js A') /\
    forall contract mode w, mode <> ModeWS -> exists v c js' A',
      runs (configureZkCertificateRegistry (RC := contract) (addresses js0)) (NewService (sv_db (lv_service s)) w)
        (map lj_descriptor js0) v /\
      runs (RunIndexer_start (map lj_descriptor js0)) (NewConfigurator v) tt c /\
      serves (live_of mode c) js' A' /\ indexed_blocks js' A' ≡ₚ indexed_blocks js A.
Proof.
  intros Hctx Hs. destruct (reachable_serves s Hctx Hs) as (js & A & H). exists js, A. split; [done|]. split.
  - intros act Hact. by apply step_serves.
  - intros contract mode w Hm. by apply restart_serves.
Qed.
End Histories.
End Recovery.

(** * Witness: two registries, the first with two certificates *)

Lemma toy_chain_before (a b : Z) : b < 101 -> block_logs toy_chain a b = [].
Proof.
  intros Hb. destruct (block_logs toy_chain a b) as [|log logs] eqn:E; [done|].
  destruct (block_logs_in toy_chain a b log) as (n & Hn & Hin); [rewrite E; by left|].
  destruct (toy_chain_cases n) as [Hc|[[-> Hc]|[-> Hc]]]; [by rewrite Hc in Hin|lia|lia].
Qed.

Lemma first_chain_operations (n : Z) :
  chain_operations toy_parser toy_chain 16 n =
    if n <? 101 then [] else if n <? 103 then [toy_operation 1 20] else [toy_operation 1 20; toy_operation 6 30].
Proof.
  destruct (Z.ltb_spec n 101); [unfold chain_operations; by rewrite toy_chain_before|].
  rewrite (chain_operations_split _ _ 16 100) by lia. rewrite toy_chain_operations by lia.
  unfold chain_operations at 1. rewrite toy_chain_before by lia. by rewrite (proj2 (Z.ltb_ge n 101)) by lia.
Qed.

Definition first_live_job : live_job :=
  mkLiveJob first_job toy_parser toy_chain (toy_fetched toy_address) (fun _ => 7) (fun _ => None) 16 16.
Definition second_live_job : live_job :=
  mkLiveJob second_job other_address (fun _ => []) (with_index 1 (toy_fetched other_address)) (fun _ => 7)
    (fun _ => None) 17 17.
Definition toy_configuration : list live_job := [first_live_job; second_live_job].

Lemma flat_encodes (jd : JobDescriptor) (n : Z) :
  storage_key_ok (JobKey jd) -> 0 <= n < 2 ^ 64 -> exists jb, encode_job (JobCodec := flat_codec) (mkJob jd n)
      = inr jb.
Proof.
  intros (Ha & Hc & Hb) Hn. cbn [encode_job flat_codec]. unfold flat_encode, fits.
      cbn [Job_Descriptor Job_CurrentBlock].
  rewrite (proj2 (Nat.eqb_eq _ _) Ha). change (256 ^ Z.of_nat 8) with (2 ^ 64).
  rewrite !(proj2 (Z.leb_le _ _)), !(proj2 (Z.ltb_lt _ _)) by lia. by eexists.
Qed.

Lemma first_job_fits : storage_key_ok (JobKey first_job).
Proof. repeat split; cbn; lia. Qed.
Lemma second_job_fits : storage_key_ok (JobKey second_job).
Proof. repeat split; cbn; lia. Qed.

Lemma first_live_job_ok : live_job_ok (JC := flat_codec) (fun _ => [1]) first_live_job.
Proof.
  split; [|cbn; lia|done|split; [done|intros i _; by intros []]|].
  - split; [done|done|apply first_job_fits|intros n Hn; by apply flat_encodes; [apply first_job_fits|]| |].
    + intros n log _ Hin. right. cbn [lj_chain first_live_job] in Hin.
      destruct (toy_chain_cases n) as [Hc|[[-> Hc]|[-> Hc]]]; rewrite Hc in Hin; [done| |];
        destruct Hin as [<-|[]]; eexists _, []; repeat split; try (by left); cbn; lia.
    + intros n Hn. unfold leaves_after. cbn [lj_parser lj_chain lj_first lj_metadata lj_leaf0 first_live_job].
      rewrite first_chain_operations.
      destruct (n <? 101); [|destruct (n <? 103)]; apply no_zero_check_sound; vm_compute; reflexivity.
  - intros n. cbn [lj_parser lj_chain lj_first first_live_job]. rewrite first_chain_operations.
    destruct (n <? 101); [|destruct (n <? 103)]; repeat split; done.
Qed.

Lemma second_live_job_ok : live_job_ok (JC := flat_codec) (fun _ => [1]) second_live_job.
Proof.
  split; [|cbn; lia|done|split; [done|intros i _; by intros []]|intros n; cbn [lj_parser lj_chain second_live_job];
    by rewrite quiet_operations].
  split; [done|done|apply second_job_fits|intros n Hn; by apply flat_encodes; [apply second_job_fits|]|done|].
  intros n _. unfold leaves_after. cbn [lj_parser lj_chain second_live_job]. rewrite quiet_operations.
  apply no_zero_check_sound. vm_compute. reflexivity.
Qed.

Lemma toy_configuration_ok (k : nat) (j : live_job) :
  toy_configuration !! k = Some j -> live_job_ok (JC := flat_codec) (fun _ => [1]) j /\ fresh_job k j.
Proof.
  destruct k as [|[|k]]; [| |done]; intros [= <-].
  - split; [apply first_live_job_ok|]. split; [reflexivity|done|cbn; lia|cbn; unfold in_field; cbn; lia|done|done].
  - split; [apply second_live_job_ok|]. split; [reflexivity|done|cbn; lia|cbn; unfold in_field; cbn; lia|done|done].
Qed.

Definition toy_network (jd : JobDescriptor) : Z -> list Log := if decide (jd = first_job)
    then toy_chain else fun _ => [].

(** The service after its first start, and when the first job has indexed its first
    certificate and filled a batch with the second. *)
Definition toy_start : live_state :=
  live_of ModePoll (snd (RunIndexer_start (map lj_descriptor toy_configuration)
    (NewConfigurator (snd (configureZkCertificateRegistry (addresses toy_configuration)
        (NewService ∅ (mkWorld 0 0))))))).
Definition toy_act (act : live_action) (s : live_state) : live_state :=
  snd (live_do (JC := flat_codec) (seen_chains toy_network s) act s).
Definition toy_stopped : live_state :=
  toy_act (Fill 0 103) (toy_act (WriteBatch 0) (toy_act (Sink 0 (toy_chain 103)) (toy_act (Fill 0 102) toy_start))).

(** A contract that does not answer. *)
Definition silent_contract : RegistryContract := {|
  NewZkCertificateRegistryCaller _ := inr tt;
  contract_TreeDepth _ := inl (ExternalError 1);
  contract_ZEROVALUE _ := inl (ExternalError 1);
  contract_InitBlockHeight _ := inl (ExternalError 1);
  contract_Description _ := inl (ExternalError 1);
|}.

Lemma runs_result {S T : Type} (m : go S T) (s : S) (a : T) : fst (m s) = Ok a -> runs m s a (snd (m s)).
Proof. unfold runs. destruct (m s) as [c s']. by intros [= ->]. Qed.

Lemma result_of_runs {S T : Type} (m : go S T) (s s' : S) (a : T) : runs m s a s' -> s' = snd (m s).
Proof. unfold runs. by intros ->. Qed.

Lemma toy_start_reachable : reachable (JC := flat_codec) toy_configuration toy_network toy_start.
Proof.
  apply (reach_first _ _ ModePoll ∅); [discriminate|reflexivity|]. eexists (mkWorld 0 0), _, _. split; [|split;
      [|reflexivity]].
  - apply runs_result. vm_compute. reflexivity.
  - apply runs_result. vm_compute. reflexivity.
Qed.

Lemma toy_act_reachable (act : live_action) (s : live_state) :
  action_ok act -> reachable (JC := flat_codec) toy_configuration toy_network s ->
  reachable (JC := flat_codec) toy_configuration toy_network (toy_act act s).
Proof. intros Ha Hs. eapply (reach_step _ _ s act); [exact Hs|exact Ha|apply surjective_pairing]. Qed.

Lemma toy_stopped_reachable : reachable (JC := flat_codec) toy_configuration toy_network toy_stopped.
Proof. by repeat apply toy_act_reachable; [..|apply toy_start_reachable]. Qed.

(** The service is stopped with block 102 indexed and the batch up to block 103 not written;
    when it starts again, without an answer of the contracts, the first job goes on from block 102, the second
        from its first. *)
Lemma every_history_serves_witness :
  reachable (JC := flat_codec) toy_configuration toy_network toy_stopped /\
  exists js A, serves (JC := flat_codec) (fun _ => [1]) toy_configuration toy_stopped js A /\
    exists v c, runs (configureZkCertificateRegistry (RC := silent_contract) (addresses toy_configuration))
        (NewService (sv_db (lv_service toy_stopped)) (mkWorld 0 0)) (map lj_descriptor toy_configuration) v /\
      runs (RunIndexer_start (map lj_descriptor toy_configuration)) (NewConfigurator v) tt c /\
      map (fun job => (sj_jobDescriptor job, sj_startBlock job)) (cf_started c) = [(first_job, 102);
          (second_job, 17)].
Proof.
  split; [exact toy_stopped_reachable|].
  destruct (every_history_serves (JC := flat_codec) (CE := toy_events) (fun _ => [1]) [[[1]]]
      eq_refl eq_refl toy_configuration toy_network
    toy_configuration_ok) with (s := toy_stopped) as (js & A & Hs & _ & Hre).
  - by apply (bool_decide_eq_true_1 _); vm_compute.
  - repeat constructor.
  - cbn. lia.
  - intros [|[|k]] j; [| |done]; intros [= <-]; reflexivity.
  - exact toy_active_context.
  - exact toy_stopped_reachable.
  - exists js, A. split; [exact Hs|]. destruct (Hre silent_contract ModePoll (mkWorld 0 0) ltac:(discriminate))
      as (v & c & js' & A' & Rv & Rc & _ & _).
    exists v, c. split; [exact Rv|]. split; [exact Rc|].
    rewrite (result_of_runs _ _ _ _ Rc), (result_of_runs _ _ _ _ Rv). vm_compute. reflexivity.
Defined.
