(* ===== verification/Lifecycle.v ===== *)
(** The goroutines of a running application as a transition system: the three workers that
    [StartApplication] of [pkg/indexer/application.go] starts in a group, [RunIndexer] with its
    jobs ([internal/indexer/configurator.go]), and the two servers
    ([internal/query/server.go]); how they fail, how they are told to stop and what they wait
    for.  What jobs and handlers do to the database is in [Live].

    Contexts, groups and channels are as documented: the context of a group is done when its
    parent is or when a worker returned an error; [Wait] of a group returns when all workers
    have; a receive waits until there is a value or the channel is closed. *)

From stdpp Require Import base list numbers strings.
From Stdlib Require Import ZArith Lia.
From S2P Require Import Prelude GoBase GoLib Configurator.
Local Open Scope Z_scope.

(** The goroutine of a job, and whether the context of the job was cancelled by [CancelAll]. *)
Inductive goroutine_phase : Type := JobRuns | JobEnded (err : option go_error).

Record job_goroutine : Type := mkJobGoroutine { jg_phase : goroutine_phase; jg_cancelled : bool }.

(** [RunIndexer]: starting its jobs, some of which are still to be started; in the [select], or
    waiting after the context was done, where [order] is the order in which the goroutine of
    [Wait] visits the jobs; reporting; returned. *)
Inductive indexer_phase : Type :=
| IndexerStarts (left : nat)
| IndexerSelects (order : list nat)
| IndexerDrains (order : list nat)
| IndexerReports (jobErr : option go_error)
| IndexerReturned (err : option go_error).

Inductive grpc_phase : Type := GrpcStarts | GrpcServes | GrpcReturned (err : option go_error).

(** [listening] is whether the goroutine with [ListenAndServe] still serves. *)
Inductive gateway_phase : Type :=
| GatewayStarts
| GatewayServes (listening : bool)
| GatewayReturned (err : option go_error).

(** [wk_signal]: the context of the command is done.  [wk_error]: the first error in the group.
    [wk_jobs]: the jobs in the order of their start.  [wk_start_failed]: [RunIndexer] returned
    from the start of its jobs.  [wk_closed]: [StartApplication] closed the database. *)
Record workers : Type := mkWorkers {
  wk_signal : bool;
  wk_error : option go_error;
  wk_jobs : list job_goroutine;
  wk_start_failed : bool;
  wk_indexer : indexer_phase;
  wk_grpc : grpc_phase;
  wk_gateway : gateway_phase;
  wk_closed : bool
}.

(** [wgr.Go(...)] three times, with the number of jobs to start. *)
Definition start_workers (n : nat) : workers :=
  mkWorkers false None [] false (IndexerStarts n) GrpcStarts GatewayStarts false.

(** * Parts of the steps *)

(** The context of the group is done. *)
Definition group_done (s : workers) : bool := wk_signal s || if wk_error s is Some _ then true else false.

(** The context of a job is done. *)
Definition job_done (s : workers) (job : job_goroutine) : bool := group_done s || jg_cancelled job.

(** The first error is kept. *)
Definition group_error (s : workers) (err : option go_error) : option go_error :=
  match wk_error s with Some e => Some e | None => err end.

Definition set_signal (s : workers) : workers :=
  mkWorkers true (wk_error s) (wk_jobs s) (wk_start_failed s) (wk_indexer s) (wk_grpc s) (wk_gateway s) (wk_closed s).
Definition set_job_list (s : workers) (jobs : list job_goroutine) : workers :=
  mkWorkers (wk_signal s) (wk_error s) jobs (wk_start_failed s) (wk_indexer s) (wk_grpc s) (wk_gateway s)
      (wk_closed s).
Definition indexer_goes (s : workers) (p : indexer_phase) : workers :=
  mkWorkers (wk_signal s) (wk_error s) (wk_jobs s) (wk_start_failed s) p (wk_grpc s) (wk_gateway s) (wk_closed s).
Definition grpc_goes (s : workers) (p : grpc_phase) : workers :=
  mkWorkers (wk_signal s) (wk_error s) (wk_jobs s) (wk_start_failed s) (wk_indexer s) p (wk_gateway s) (wk_closed s).
Definition gateway_goes (s : workers) (p : gateway_phase) : workers :=
  mkWorkers (wk_signal s) (wk_error s) (wk_jobs s) (wk_start_failed s) (wk_indexer s) (wk_grpc s) p (wk_closed s).

(** A worker returns. *)
Definition indexer_returns (s : workers) (failed : bool) (err : option go_error) : workers :=
  mkWorkers (wk_signal s) (group_error s err) (wk_jobs s) (wk_start_failed s || failed) (IndexerReturned err)
      (wk_grpc s)
    (wk_gateway s) (wk_closed s).
Definition grpc_returns (s : workers) (err : option go_error) : workers :=
  mkWorkers (wk_signal s) (group_error s err) (wk_jobs s) (wk_start_failed s) (wk_indexer s) (GrpcReturned err)
    (wk_gateway s) (wk_closed s).
Definition gateway_returns (s : workers) (err : option go_error) : workers :=
  mkWorkers (wk_signal s) (group_error s err) (wk_jobs s) (wk_start_failed s) (wk_indexer s) (wk_grpc s)
    (GatewayReturned err) (wk_closed s).
Definition close_resources (s : workers) : workers :=
  mkWorkers (wk_signal s) (wk_error s) (wk_jobs s) (wk_start_failed s) (wk_indexer s) (wk_grpc s) (wk_gateway s) true.

(** [CancelAll]: the jobs that are in the map, which are those started so far. *)
Definition cancel_jobs (jobs : list job_goroutine) : list job_goroutine :=
  map (fun job => mkJobGoroutine (jg_phase job) true) jobs.

(** The goroutine of a job: [IndexEVMLogs] returned [err]; on an error all jobs are cancelled. *)
Definition index_error (err : go_error) : go_error := Errorf "index EVM logs: %w" [] (Some err).

Definition end_job (k : nat) (err : option go_error) (jobs : list job_goroutine) : list job_goroutine :=
  match jobs !! k with
  | None => jobs
  | Some job =>
      let jobs := match err with Some _ => cancel_jobs jobs | None => jobs end in
      <[k := mkJobGoroutine (JobEnded (index_error <$> err))
               (match err with Some _ => true | None => jg_cancelled job end)]> jobs
  end.

(** What the receive from [Wait] gets, [None] while it waits: the first error that is not a
    cancellation, or that the channel is closed after all jobs.  The goroutine that sends is not
    one of the system.  The channel has no buffer and each receiver takes one value: a goroutine
    of [Wait] with a further error to send, or whose channel nobody receives from any more,
    stays blocked in its send; nothing waits for it. *)
Fixpoint wait_receives (jobs : list job_goroutine) (order : list nat) : option (option go_error) :=
  match order with
  | [] => Some None
  | k :: order' =>
      match jg_phase <$> jobs !! k with
      | Some JobRuns => None
      | Some (JobEnded (Some err)) => if is_canceled err then wait_receives jobs order' else Some (Some err)
      | _ => wait_receives jobs order'
      end
  end.

(** [http.Serve] and [ListenAndServe] end with [http.ErrServerClosed] only after a call of
    [Shutdown] or [Close] of the server, which nothing does for the gRPC server: closing its
    listener ends [Serve] with the error of [Accept]. *)
Definition RunGRPC_served : option go_error := Some (Errorf "failed to serve: %v" [] None).

(** The default addresses. *)
Definition GrpcServerAddr : string := "localhost:50651".
Definition GatewayAddr : string := "localhost:8480".

(** * Steps *)

(** What happens to the application: a signal, a job that ends by itself, a server that fails. *)
Inductive happens (s : workers) : workers -> Prop :=
| happens_signal : wk_signal s = false -> happens s (set_signal s)
| happens_job k job err : wk_jobs s !! k = Some job -> jg_phase job = JobRuns ->
    happens s (set_job_list s (end_job k err (wk_jobs s)))
| happens_grpc : wk_grpc s = GrpcServes -> happens s (grpc_returns s RunGRPC_served)
(* the error of ListenAndServe is logged *)
| happens_gateway : wk_gateway s = GatewayServes true -> happens s (gateway_goes s (GatewayServes false)).

(** A job whose context is done returns from [IndexEVMLogs]. *)
Inductive job_reacts (s : workers) : workers -> Prop :=
| reacts_job k job err : wk_jobs s !! k = Some job -> jg_phase job = JobRuns -> job_done s job = true ->
    job_reacts s (set_job_list s (end_job k (Some err) (wk_jobs s))).

(** [RunIndexer] *)
Inductive indexer_reacts (s : workers) : workers -> Prop :=
(* StartJob: c.jobs[jobDescriptor] = JobContext{...}, wg.Go(...) *)
| reacts_start left : wk_indexer s = IndexerStarts (S left) ->
    indexer_reacts s
      (indexer_goes (set_job_list s (wk_jobs s ++ [mkJobGoroutine JobRuns false])) (IndexerStarts left))
(* InitConfiguratorFromStorage or ReloadConfig returns an error *)
| reacts_start_fails left err : wk_indexer s = IndexerStarts left ->
    indexer_reacts s (indexer_returns s true (Some err))
| reacts_select order : wk_indexer s = IndexerStarts 0 -> order ≡ₚ seq 0 (length (wk_jobs s)) ->
    indexer_reacts s (indexer_goes s (IndexerSelects order))
(* case <-ctx.Done(): then the receive from a second Wait *)
| reacts_done order order' : wk_indexer s = IndexerSelects order -> group_done s = true ->
    order' ≡ₚ seq 0 (length (wk_jobs s)) -> indexer_reacts s (indexer_goes s (IndexerDrains order'))
(* case err = <-app.configurator.Wait() *)
| reacts_received order jobErr : wk_indexer s = IndexerSelects order ->
    wait_receives (wk_jobs s) order = Some jobErr -> indexer_reacts s (indexer_goes s (IndexerReports jobErr))
| reacts_drained order jobErr : wk_indexer s = IndexerDrains order ->
    wait_receives (wk_jobs s) order = Some jobErr -> indexer_reacts s (indexer_goes s (IndexerReports None))
(* SelectAllJobs fails or not *)
| reacts_report jobErr : wk_indexer s = IndexerReports jobErr -> indexer_reacts s (indexer_returns s false jobErr)
| reacts_report_fails jobErr err : wk_indexer s = IndexerReports jobErr ->
    indexer_reacts s (indexer_returns s false (Some (Errorf "select all jobs: %w" [] (Some err)))).

(** [RunGRPC] *)
Inductive grpc_reacts (address : string) (s : workers) : workers -> Prop :=
| reacts_grpc_address err : wk_grpc s = GrpcStarts -> SplitHostPort address = inl err ->
    grpc_reacts address s (grpc_returns s (Some (Errorf "invalid address: %v" [] None)))
| reacts_grpc_listen hostport : wk_grpc s = GrpcStarts -> SplitHostPort address = inr hostport ->
    grpc_reacts address s (grpc_returns s (Some (Errorf "failed to listen: %v" [] None)))
| reacts_grpc_serve hostport : wk_grpc s = GrpcStarts -> SplitHostPort address = inr hostport ->
    grpc_reacts address s (grpc_goes s GrpcServes)
(* <-ctx.Done(); lis.Close() *)
| reacts_grpc_stop : wk_grpc s = GrpcServes -> group_done s = true ->
    grpc_reacts address s (grpc_returns s RunGRPC_served).

Definition gateway_formats : list string :=
  ["failed to register gRPC gateway: %v"; "failed to serve swagger.json: %v"; "failed to serve swagger UI: %v"].

(** [RunGateway] *)
Inductive gateway_reacts (address : string) (s : workers) : workers -> Prop :=
| reacts_gateway_address err : wk_gateway s = GatewayStarts -> SplitHostPort address = inl err ->
    gateway_reacts address s (gateway_returns s (Some (Errorf "invalid address: %v" [] None)))
| reacts_gateway_register format hostport : wk_gateway s = GatewayStarts -> SplitHostPort address = inr hostport ->
    format ∈ gateway_formats -> gateway_reacts address s (gateway_returns s (Some (Errorf format [] None)))
| reacts_gateway_serve hostport : wk_gateway s = GatewayStarts -> SplitHostPort address = inr hostport ->
    gateway_reacts address s (gateway_goes s (GatewayServes true))
(* <-ctx.Done(); gwServer.Shutdown(ctxTimeout) *)
| reacts_gateway_stop listening err : wk_gateway s = GatewayServes listening -> group_done s = true ->
    err = None \/ err = Some (Errorf "gateway server shutdown failed: %v" [] None) ->
    gateway_reacts address s (gateway_returns s err).

(** [wgr.Wait()] of [StartApplication] and its deferred calls *)
Inductive start_reacts (s : workers) : workers -> Prop :=
| reacts_close e1 e2 e3 : wk_indexer s = IndexerReturned e1 -> wk_grpc s = GrpcReturned e2 ->
    wk_gateway s = GatewayReturned e3 -> wk_closed s = false -> start_reacts s (close_resources s).

Section Steps.
Context (grpcAddress gatewayAddress : string).

(** What the goroutines do. *)
Inductive reacts (s s' : workers) : Prop :=
| by_job : job_reacts s s' -> reacts s s'
| by_indexer : indexer_reacts s s' -> reacts s s'
| by_grpc : grpc_reacts grpcAddress s s' -> reacts s s'
| by_gateway : gateway_reacts gatewayAddress s s' -> reacts s s'
| by_start : start_reacts s s' -> reacts s s'.

Definition worker_step (s s' : workers) : Prop := happens s s' \/ reacts s s'.

Inductive workers_reach (n : nat) : workers -> Prop :=
| workers_start : workers_reach n (start_workers n)
| workers_step s s' : workers_reach n s -> worker_step s s' -> workers_reach n s'.

(** Nothing moves until something happens. *)
Definition at_rest (s : workers) : Prop := forall s', ~ reacts s s'.
End Steps.
