(* ===== verification/LifecycleTheorems.v ===== *)
(** Theorems about the goroutines of the application: once a signal arrived, a worker failed or
    a running job failed, everything stops after a bounded number of steps; the database is
    closed after the jobs have ended, unless one of them failed; and two failures after which
    the application goes on. *)

From stdpp Require Import base list numbers strings relations gmap.
From Stdlib Require Import ZArith Lia.
From S2P Require Import Prelude GoBase GoLib SparseTree Storage.
From S2P Require Import Registry Service Jobs Indexer RegistryJob Configurator.
From S2P Require Import Lifecycle.
Local Open Scope Z_scope.

(** * Jobs *)

Definition job_failed (job : job_goroutine) : Prop :=
  exists err, jg_phase job = JobEnded (Some err) /\ is_canceled err = false.

Definition all_ended (jobs : list job_goroutine) : Prop :=
  forall k job, jobs !! k = Some job -> jg_phase job <> JobRuns.
Definition jobs_cancelled (jobs : list job_goroutine) : Prop :=
  forall k job, jobs !! k = Some job -> jg_cancelled job = true.
Definition some_failed (jobs : list job_goroutine) : Prop := exists k job, jobs !! k = Some job /\ job_failed job.

(** [end_job] changes the phase of one job, and cancels. *)
Lemma end_job_inv (k : nat) (err : option go_error) (jobs : list job_goroutine) (i : nat) (job' : job_goroutine) :
  end_job k err jobs !! i = Some job' -> exists job, jobs !! i = Some job /\
    jg_phase job' = (if decide (i = k) then JobEnded (index_error <$> err) else jg_phase job) /\
    (jg_cancelled job = true \/ is_Some err /\ is_Some (jobs !! k) -> jg_cancelled job' = true).
Proof.
  unfold end_job. destruct (jobs !! k) as [jk|] eqn:Ek.
  - set (l := match err with Some _ => cancel_jobs jobs | None => jobs end).
    assert (length l = length jobs) as Hl by (unfold l, cancel_jobs; destruct err; [apply length_map|done]).
    destruct (decide (i = k)) as [->|Hne].
    + rewrite list_lookup_insert_eq by (rewrite Hl; by eapply lookup_lt_Some). intros [= <-]. exists jk.
      split; [done|]. split; [done|]. cbn. destruct err; [done|]. by intros [?|[[e [=]] _]].
    + rewrite list_lookup_insert_ne by done. unfold l, cancel_jobs. destruct err as [e|].
      * intros (job & -> & Ej)%list_lookup_fmap_Some. exists job. by repeat split.
      * intros E. exists job'. repeat split; [done|]. by intros [?|[[e [=]] _]].
  - intros E. exists job'. split; [done|]. destruct (decide (i = k)) as [->|]; [congruence|]. split; [done|].
    by intros [?|[_ [x [=]]]].
Qed.

Lemma end_job_length (k : nat) (err : option go_error) (jobs : list job_goroutine) :
  length (end_job k err jobs) = length jobs.
Proof.
  unfold end_job. destruct (jobs !! k); [|done]. rewrite length_insert. destruct err; [apply length_map|done].
Qed.

Lemma end_job_lookup (k : nat) (err : option go_error) (jobs : list job_goroutine) (i : nat) (job : job_goroutine) :
  jobs !! i = Some job -> exists job', end_job k err jobs !! i = Some job' /\
    jg_phase job' = if decide (i = k) then JobEnded (index_error <$> err) else jg_phase job.
Proof.
  intros E. destruct (lookup_lt_is_Some_2 (end_job k err jobs) i) as [job' E'].
  { rewrite end_job_length. by eapply lookup_lt_Some. }
  exists job'. split; [done|]. destruct (end_job_inv _ _ _ _ _ E') as (job0 & E0 & -> & _).
  rewrite E in E0. by injection E0 as ->.
Qed.

(** A job that runs ends: those that ended before stay so. *)
Lemma end_job_ended (k : nat) (err : option go_error) (jobs : list job_goroutine) :
  all_ended jobs -> all_ended (end_job k err jobs).
Proof.
  intros H i job' E. destruct (end_job_inv _ _ _ _ _ E) as (job & Ej & -> & _). destruct (decide (i = k)); [done|].
  by apply (H i).
Qed.

Lemma end_job_failed (k : nat) (err : option go_error) (jobs : list job_goroutine) (job : job_goroutine) :
  jobs !! k = Some job -> jg_phase job = JobRuns -> some_failed jobs -> some_failed (end_job k err jobs).
Proof.
  intros Ek Hr (i & ji & Ei & e & He & Hc). destruct (end_job_lookup k err jobs i ji Ei) as (job' & E' & Hp).
  exists i, job'. split; [done|]. exists e. split; [|done]. rewrite Hp. destruct (decide (i = k)); [congruence|done].
Qed.

Lemma end_job_cancelled (k : nat) (err : option go_error) (jobs : list job_goroutine) :
  jobs_cancelled jobs -> jobs_cancelled (end_job k err jobs).
Proof.
  intros H i job' E. destruct (end_job_inv _ _ _ _ _ E) as (job & Ej & _ & Hc). apply Hc. left. by apply (H i).
Qed.

(** ** What [Wait] sends *)

Lemma wait_blocked (jobs : list job_goroutine) (order : list nat) :
  wait_receives jobs order = None -> exists k job, k ∈ order /\ jobs !! k = Some job /\ jg_phase job = JobRuns.
Proof.
  induction order as [|k order IH]; cbn; [done|].
  assert (wait_receives jobs order = None -> exists k0 job, k0 ∈ k :: order /\ jobs !! k0 = Some job /\
    jg_phase job = JobRuns) as Hrest.
  { intros H. destruct (IH H) as (i & job & Hi & Hj & Hp). exists i, job. split; [by right|done]. }
  destruct (jobs !! k) as [job|] eqn:Ek; cbn; [|done]. destruct (jg_phase job) as [|[err|]] eqn:Ep; [|case_match|];
    try done. intros _. exists k, job. split; [by left|done].
Qed.

Lemma wait_failed (jobs : list job_goroutine) (order : list nat) (err : go_error) :
  wait_receives jobs order = Some (Some err) -> some_failed jobs.
Proof.
  induction order as [|k order IH]; cbn; [done|]. destruct (jobs !! k) as [job|] eqn:Ek; cbn; [|done].
  destruct (jg_phase job) as [|[e|]] eqn:Ep; [done| |done]. destruct (is_canceled e) eqn:Ec; [done|].
  intros _. exists k, job. split; [done|]. by exists e.
Qed.

Lemma wait_closed (jobs : list job_goroutine) (order : list nat) :
  wait_receives jobs order = Some None -> forall k job, k ∈ order -> jobs !! k = Some job ->
    jg_phase job <> JobRuns /\ ~ job_failed job.
Proof.
  induction order as [|i order IH]; cbn; [by intros _ k job ?%not_elem_of_nil|]. intros H k job Hk Ej.
  assert (wait_receives jobs order = Some None -> k ∈ order -> jg_phase job <> JobRuns /\ ~ job_failed job) as Hrest
    by (intros; by apply IH with k).
  destruct (jobs !! i) as [ji|] eqn:Ei; cbn in H; apply elem_of_cons in Hk as [->|Hk]; try (by apply Hrest).
  - rewrite Ej in Ei. injection Ei as ->. destruct (jg_phase ji) as [|[e|]] eqn:Ep; [done| |].
    + destruct (is_canceled e) eqn:Ec; [|done]. split; [done|]. intros (e' & E & Hc). congruence.
    + split; [done|]. by intros (e' & E & _); rewrite Ep in E.
  - apply Hrest; [|done]. destruct (jg_phase ji) as [|[e|]]; [done|by destruct (is_canceled e)|done].
  - congruence.
Qed.

Lemma wait_closed_all (jobs : list job_goroutine) (order : list nat) :
  order ≡ₚ seq 0 (length jobs) -> wait_receives jobs order = Some None -> all_ended jobs /\ ~ some_failed jobs.
Proof.
  intros Hp H. assert (forall k job, jobs !! k = Some job -> k ∈ order) as Hin.
  { intros k job E. rewrite Hp. apply elem_of_seq. pose proof (lookup_lt_Some _ _ _ E). lia. }
  split; [intros k job E|intros (k & job & E & Hf)]; destruct (wait_closed _ _ H k job) as [? ?]; eauto.
Qed.

(** The jobs of the configurator, all of which have ended with their results: the receive gets
    the first of the errors that [Wait] of the configurator sends. *)
Lemma wait_receives_sent {U256 : Uint256} {PH : Poseidon} {KV : KVDatabase} {CE : ContractEvents} {GS : GoScheduler}
    (c : Configurator) (jobs : list job_goroutine) :
  (forall k job, jobs !! k = Some job -> jg_phase job = JobEnded (job_result k)) ->
  (forall jd k, cf_jobs c !! jd = Some k -> (k < length jobs)%nat) ->
  wait_receives jobs (omap (fun jd => cf_jobs c !! jd) (map_order (cf_jobs c))) = Some (head (Wait c)).
Proof.
  intros He Hk. unfold Wait. induction (map_order (cf_jobs c)) as [|jd order IH]; [done|]. cbn.
  destruct (cf_jobs c !! jd) as [k|] eqn:Ek; cbn; [|exact IH].
  destruct (lookup_lt_is_Some_2 jobs k (Hk jd k Ek)) as [job Ej]. rewrite Ej. cbn. rewrite (He k job Ej).
  destruct (job_result k) as [err|]; cbn; [|exact IH]. by destruct (is_canceled err).
Qed.

(** * Every step brings the end closer *)

Definition job_weight (job : job_goroutine) : nat := match jg_phase job with JobRuns => 1 | JobEnded _ => 0 end.

Definition indexer_weight (p : indexer_phase) : nat :=
  match p with
  | IndexerStarts n => 2 * n + 4
  | IndexerSelects _ => 3
  | IndexerDrains _ => 2
  | IndexerReports _ => 1
  | IndexerReturned _ => 0
  end.

Definition workers_measure (s : workers) : nat :=
  (if wk_signal s then 0 else 1) + sum_list_with job_weight (wk_jobs s) + indexer_weight (wk_indexer s) +
  (match wk_grpc s with GrpcStarts => 2 | GrpcServes => 1 | GrpcReturned _ => 0 end) +
  (match wk_gateway s with GatewayStarts => 3 | GatewayServes true => 2 | GatewayServes false => 1 |
      GatewayReturned _ => 0 end) +
  (if wk_closed s then 0 else 1).

Lemma cancel_jobs_weight (jobs : list job_goroutine) :
  sum_list_with job_weight (cancel_jobs jobs) = sum_list_with job_weight jobs.
Proof. unfold cancel_jobs. induction jobs as [|job jobs IH]; [done|]. cbn. by rewrite IH. Qed.

Lemma insert_weight (jobs : list job_goroutine) (k : nat) (job job' : job_goroutine) :
  jobs !! k = Some job ->
  (sum_list_with job_weight (<[k := job']> jobs) + job_weight job = sum_list_with job_weight jobs + job_weight
      job')%nat.
Proof.
  revert k. induction jobs as [|j jobs IH]; intros [|k]; [done..|intros [= <-]; cbn; lia|].
  intros E. specialize (IH k E). change (<[S k := job']> (j :: jobs)) with (j :: <[k := job']> jobs).
  cbn [sum_list_with]. lia.
Qed.

Lemma end_job_weight (jobs : list job_goroutine) (k : nat) (job : job_goroutine) (err : option go_error) :
  jobs !! k = Some job -> jg_phase job = JobRuns ->
  (sum_list_with job_weight (end_job k err jobs) < sum_list_with job_weight jobs)%nat.
Proof.
  intros Ek Hr. unfold end_job. rewrite Ek. destruct err as [e|]; cbn [fmap option_fmap option_map].
  - assert (cancel_jobs jobs !! k = Some (mkJobGoroutine JobRuns true)) as Ec
      by (apply list_lookup_fmap_Some; exists job; by rewrite Hr).
    pose proof (insert_weight _ k _ (mkJobGoroutine (JobEnded (Some (index_error e))) true) Ec) as H.
    rewrite cancel_jobs_weight in H. unfold job_weight at 2 4 in H. cbn [jg_phase] in H. lia.
  - pose proof (insert_weight jobs k job (mkJobGoroutine (JobEnded None) (jg_cancelled job)) Ek) as H.
    unfold job_weight at 2 4 in H. cbn [jg_phase] in H. rewrite Hr in H. lia.
Qed.

Lemma step_decreases (a1 a2 : string) (s s' : workers) :
  worker_step a1 a2 s s' -> (workers_measure s' < workers_measure s)%nat.
Proof.
  unfold workers_measure.
  intros [H|[H|H|H|H|H]]; destruct H; cbn; rewrite ?sum_list_with_app; cbn;
    repeat match goal with
    | E : wk_jobs s !! _ = Some _, R : jg_phase _ = JobRuns |- context [end_job ?k ?e _] =>
        pose proof (end_job_weight _ _ _ e E R); clear E
    | E : ?x s = _ |- context [?x s] => rewrite E
    end; cbn; try lia.
  destruct listening; lia.
Qed.

(** * The invariant *)

(** [RunIndexer] is over: it has its result. *)
Definition indexer_over (p : indexer_phase) : Prop :=
  match p with IndexerReports _ | IndexerReturned _ => True | _ => False end.

(** It ended without an error of a job. *)
Definition indexer_silent (p : indexer_phase) : Prop := p = IndexerReports None \/ p = IndexerReturned None.

Definition waits_in (p : indexer_phase) (order : list nat)
    : Prop := p = IndexerSelects order \/ p = IndexerDrains order.

Record workers_ok (s : workers) : Prop := {
  ok_grpc : forall e, wk_grpc s = GrpcReturned e -> is_Some e /\ is_Some (wk_error s);
  ok_gateway : forall e, wk_gateway s = GatewayReturned e -> group_done s = true;
  ok_indexer : forall e, wk_indexer s = IndexerReturned (Some e) -> group_done s = true;
  ok_drains : forall order, wk_indexer s = IndexerDrains order -> group_done s = true;
  ok_order : forall order, waits_in (wk_indexer s) order -> order ≡ₚ seq 0 (length (wk_jobs s));
  ok_over : indexer_over (wk_indexer s) -> wk_start_failed s = true \/ all_ended (wk_jobs s)
      \/ some_failed (wk_jobs s);
  ok_silent : indexer_silent (wk_indexer s) -> group_done s = true \/ all_ended (wk_jobs s) /\
      ~ some_failed (wk_jobs s);
  ok_closed : wk_closed s = true -> exists e1 e2 e3, wk_indexer s = IndexerReturned e1 /\
      wk_grpc s = GrpcReturned e2 /\
    wk_gateway s = GatewayReturned e3;
}.

Lemma start_ok (n : nat) : workers_ok (start_workers n).
Proof. by split; cbn; try (intros; done); [intros order [[=]|[=]]|intros [[=]|[=]]]. Qed.

Lemma group_error_some (s : workers) (err : option go_error) : is_Some err -> is_Some (group_error s err).
Proof. intros [e ->]. unfold group_error. destruct (wk_error s); by eexists. Qed.

Lemma group_error_keeps (s : workers) (err : option go_error) : is_Some (wk_error s) -> is_Some (group_error s err).
Proof. intros [e E]. unfold group_error. rewrite E. by eexists. Qed.

Lemma error_done (s : workers) : is_Some (wk_error s) -> group_done s = true.
Proof. intros [e E]. unfold group_done. rewrite E. apply orb_true_r. Qed.

(** The context of the group stays done. *)
Lemma done_stays (a1 a2 : string) (s s' : workers) :
  worker_step a1 a2 s s' -> group_done s = true -> group_done s' = true.
Proof.
  unfold group_done. intros [H|[H|H|H|H|H]]; destruct H; cbn; try done; unfold group_error;
      destruct (wk_signal s); cbn; try done;
    by destruct (wk_error s).
Qed.

(** ** Steps of jobs *)

Lemma job_step_ok (s : workers) (k : nat) (job : job_goroutine) (err : option go_error) :
  wk_jobs s !! k = Some job -> jg_phase job = JobRuns -> workers_ok s ->
  workers_ok (set_job_list s (end_job k err (wk_jobs s))).
Proof.
  intros Ek Hr [H1 H2 H3 H4 H5 H6 H7 H8]. split; cbn [set_job_list wk_grpc wk_gateway wk_indexer wk_error wk_jobs
    wk_start_failed wk_closed]; try done.
  - intros order Ho. rewrite end_job_length. by apply H5.
  - intros Ho. destruct (H6 Ho) as [?|[Ha|Hf]]; [by left|right; left; by apply end_job_ended|].
    right. right. by apply (end_job_failed k err _ job).
  - intros Hs. destruct (H7 Hs) as [?|[Ha _]]; [by left|]. by destruct (Ha k job Ek).
Qed.

(** ** Steps of the workers *)

Lemma returned_done (s : workers) (err : option go_error) :
  group_done s = true \/ is_Some err ->
  wk_signal s || (if group_error s err is Some _ then true else false) = true.
Proof.
  unfold group_done, group_error. intros [H|[e ->]]; destruct (wk_signal s); try done; by destruct (wk_error s).
Qed.

(** Before all workers have returned, nothing is closed. *)
Lemma not_closed (s : workers) :
  workers_ok s ->
  (forall e, wk_indexer s <> IndexerReturned e) \/ (forall e, wk_grpc s <> GrpcReturned e) \/
    (forall e, wk_gateway s <> GatewayReturned e) -> wk_closed s = false.
Proof.
  intros H Hn. destruct (wk_closed s) eqn:E; [|done].
  destruct (ok_closed s H E) as (e1 & e2 & e3 & E1 & E2 & E3).
  destruct Hn as [Hn|[Hn|Hn]]; [by destruct (Hn e1)|by destruct (Hn e2)|by destruct (Hn e3)].
Qed.

Lemma grpc_returns_ok (s : workers) (err : option go_error) :
  (forall e, wk_grpc s <> GrpcReturned e) -> is_Some err -> workers_ok s -> workers_ok (grpc_returns s err).
Proof.
  intros Hn He Hok. pose proof (not_closed s Hok (or_intror (or_introl Hn))) as Hc.
  destruct Hok as [H1 H2 H3 H4 H5 H6 H7 H8]. split; unfold group_done; cbn; try done; intros; try congruence;
    try (apply returned_done; by right).
  - split; [congruence|by apply group_error_some].
  - left. apply returned_done. by right.
Qed.

Lemma gateway_returns_ok (s : workers) (err : option go_error) :
  (forall e, wk_gateway s <> GatewayReturned e) -> group_done s = true \/ is_Some err -> workers_ok s ->
  workers_ok (gateway_returns s err).
Proof.
  intros Hn He Hok. pose proof (not_closed s Hok (or_intror (or_intror Hn))) as Hc.
  destruct Hok as [H1 H2 H3 H4 H5 H6 H7 H8]. split; unfold group_done; cbn; try done; intros; try congruence;
    try (apply returned_done; by eauto).
  - split; [by apply (H1 e)|by apply group_error_keeps, (H1 e)].
  - left. by apply returned_done.
Qed.

Lemma indexer_returns_ok (s : workers) (failed : bool) (err : option go_error) :
  (forall e, wk_indexer s <> IndexerReturned e) ->
  wk_start_failed s || failed = true \/ all_ended (wk_jobs s) \/ some_failed (wk_jobs s) ->
  (err = None -> group_done s = true \/ all_ended (wk_jobs s) /\ ~ some_failed (wk_jobs s)) ->
  workers_ok s -> workers_ok (indexer_returns s failed err).
Proof.
  intros Hn Ho Hs Hok. pose proof (not_closed s Hok (or_introl Hn)) as Hc.
  destruct Hok as [H1 H2 H3 H4 H5 H6 H7 H8]. split; unfold group_done; cbn; try done; intros; try congruence.
  - split; [by apply (H1 e)|by apply group_error_keeps, (H1 e)].
  - apply returned_done. left. by apply (H2 e).
  - apply returned_done. right. simplify_eq. by eexists.
  - unfold waits_in in *. destruct_or!; congruence.
  - assert (err = None) as Ee by (unfold indexer_silent in *; destruct_or!; congruence).
    destruct (Hs Ee); [left; apply returned_done; by left|by right].
Qed.

(** [RunIndexer] goes on. *)
Lemma indexer_goes_ok (s : workers) (p : indexer_phase) :
  (forall e, wk_indexer s <> IndexerReturned e) -> (forall e, p <> IndexerReturned e) ->
  (forall order, p = IndexerDrains order -> group_done s = true) ->
  (forall order, waits_in p order -> order ≡ₚ seq 0 (length (wk_jobs s))) ->
  (indexer_over p -> all_ended (wk_jobs s) \/ some_failed (wk_jobs s)) ->
  (indexer_silent p -> group_done s = true \/ all_ended (wk_jobs s) /\ ~ some_failed (wk_jobs s)) ->
  workers_ok s -> workers_ok (indexer_goes s p).
Proof.
  intros Hn Hp Hd Hw Ho Hs Hok. pose proof (not_closed s Hok (or_introl Hn)) as Hc.
  destruct Hok as [H1 H2 H3 H4 H5 H6 H7 H8]. split; unfold group_done; cbn; try done; intros; try congruence.
  right. by apply Ho.
Qed.

Lemma grpc_serves_ok (s : workers) : wk_grpc s = GrpcStarts -> workers_ok s -> workers_ok (grpc_goes s GrpcServes).
Proof.
  intros E Hok. assert (wk_closed s = false) as Hc
    by (apply not_closed; [done|right; left; intros e; by rewrite E]).
  destruct Hok as [H1 H2 H3 H4 H5 H6 H7 H8]. split; cbn; try done. intros. congruence.
Qed.

Lemma gateway_serves_ok (s : workers) (b : bool) :
  (forall e, wk_gateway s <> GatewayReturned e) -> workers_ok s -> workers_ok (gateway_goes s (GatewayServes b)).
Proof.
  intros E Hok. pose proof (not_closed s Hok (or_intror (or_intror E))) as Hc.
  destruct Hok as [H1 H2 H3 H4 H5 H6 H7 H8]. split; cbn; try done. intros. congruence.
Qed.

(** Jobs are started: the list of jobs grows. *)
Lemma start_job_ok (s : workers) (left : nat) :
  wk_indexer s = IndexerStarts (S left) -> workers_ok s ->
  workers_ok (indexer_goes (set_job_list s (wk_jobs s ++ [mkJobGoroutine JobRuns false])) (IndexerStarts left)).
Proof.
  intros E Hok. assert (wk_closed s = false) as Hc by (apply not_closed; [done|]; left; intros e; by rewrite E).
  destruct Hok as [H1 H2 H3 H4 H5 H6 H7 H8]. split; cbn; try done; try congruence.
  - by intros order [[=]|[=]].
  - by intros [[=]|[=]].
Qed.

(** The receive from [Wait] got a value. *)
Lemma received_ok (s : workers) (order : list nat) (jobErr result : option go_error) :
  waits_in (wk_indexer s) order -> wait_receives (wk_jobs s) order = Some jobErr ->
  (result = jobErr \/ group_done s = true) -> workers_ok s -> workers_ok (indexer_goes s (IndexerReports result)).
Proof.
  intros Hw Hr Hres Hok. pose proof (ok_order s Hok order Hw) as Ho.
  apply indexer_goes_ok; try done.
  - intros e E. rewrite E in Hw. by destruct Hw.
  - by intros o [[=]|[=]].
  - intros _. destruct jobErr as [err|]; [right; by apply wait_failed with order err|].
    left. by apply (wait_closed_all _ order).
  - intros [[= ->]|[=]]. destruct Hres as [<-|]; [right|by left]. by apply (wait_closed_all _ order).
Qed.

Lemma happens_ok (s s' : workers) : workers_ok s -> happens s s' -> workers_ok s'.
Proof.
  intros Hok [Hs|k job err Ek Hr|Hg|Hg].
  - destruct Hok as [H1 H2 H3 H4 H5 H6 H7 H8]. split; cbn; try done. intros _. by left.
  - by apply (job_step_ok s k job).
  - apply grpc_returns_ok; [intros e; by rewrite Hg|by eexists|done].
  - apply gateway_serves_ok; [intros e; by rewrite Hg|done].
Qed.

Lemma indexer_reacts_ok (s s' : workers) : workers_ok s -> indexer_reacts s s' -> workers_ok s'.
Proof.
  intros Hok Hs.
  destruct Hs as [left E|left err E|order E Ho|order order' E Hd Ho|order je E Hr|order je E Hr|je E|je err E].
  - by apply start_job_ok.
  - apply indexer_returns_ok; [intros e; by rewrite E|left; apply orb_true_r|done|done].
  - apply indexer_goes_ok; try done; [intros e; by rewrite E|by intros o [[= <-]|[=]]|by intros [[=]|[=]]].
  - apply indexer_goes_ok; try done; [intros e; by rewrite E|by intros o [[=]|[= <-]]|by intros [[=]|[=]]].
  - apply (received_ok s order je); [by left|done|by left|done].
  - apply (received_ok s order je); [by right|done|right; by apply (ok_drains s Hok order)|done].
  - apply indexer_returns_ok; [intros e; by rewrite E| | |done].
    + rewrite orb_false_r. apply (ok_over s Hok). by rewrite E.
    + intros ->. apply (ok_silent s Hok). by left.
  - apply indexer_returns_ok; [intros e; by rewrite E| |done|done].
    rewrite orb_false_r. apply (ok_over s Hok). by rewrite E.
Qed.

Lemma reacts_ok (a1 a2 : string) (s s' : workers) : workers_ok s -> reacts a1 a2 s s' -> workers_ok s'.
Proof.
  intros Hok [[k job err Ek Hr _]|Hs|[err E _|hp E _|hp E _|E Hd]|[err E _|format hp E _ _|hp E _|b err E Hd _]|
    [e1 e2 e3 E1 E2 E3 _]].
  - by apply (job_step_ok s k job).
  - by apply (indexer_reacts_ok s).
  - apply grpc_returns_ok; [intros e; by rewrite E|by eexists|done].
  - apply grpc_returns_ok; [intros e; by rewrite E|by eexists|done].
  - by apply grpc_serves_ok.
  - apply grpc_returns_ok; [intros e; by rewrite E|by eexists|done].
  - apply gateway_returns_ok; [intros e; by rewrite E|right; by eexists|done].
  - apply gateway_returns_ok; [intros e; by rewrite E|right; by eexists|done].
  - apply gateway_serves_ok; [intros e; by rewrite E|done].
  - apply gateway_returns_ok; [intros e; by rewrite E|by left|done].
  - destruct Hok as [H1 H2 H3 H4 H5 H6 H7 H8]. split; cbn; try done. intros _. by exists e1, e2, e3.
Qed.

Lemma workers_reach_ok (a1 a2 : string) (n : nat) (s : workers) : workers_reach a1 a2 n s -> workers_ok s.
Proof.
  induction 1 as [|s s' _ IH [H|H]]; [apply start_ok|by apply (happens_ok s)|by apply (reacts_ok a1 a2 s)].
Qed.

(** * Stopping *)

(** All jobs were started, one has failed, and all are cancelled. *)
Definition doomed (s : workers) : Prop :=
  (forall n, wk_indexer s <> IndexerStarts n) /\ jobs_cancelled (wk_jobs s) /\ some_failed (wk_jobs s).

Definition troubled (s : workers) : Prop := group_done s = true \/ doomed s.

Section Stopping.
Context (grpcAddress gatewayAddress : string).
#[local] Abbreviation reacts := (reacts grpcAddress gatewayAddress).
#[local] Abbreviation worker_step := (worker_step grpcAddress gatewayAddress).
#[local] Abbreviation workers_reach := (workers_reach grpcAddress gatewayAddress).

Lemma doomed_jobs (s : workers) (k : nat) (job : job_goroutine) (err : option go_error) :
  wk_jobs s !! k = Some job -> jg_phase job = JobRuns -> doomed s ->
  doomed (set_job_list s (end_job k err (wk_jobs s))).
Proof.
  intros Ek Hr (Hn & Hc & Hf). split; [done|]. cbn. split;
      [by apply end_job_cancelled|by apply (end_job_failed k err _ job)].
Qed.

Lemma trouble_stays (s s' : workers) : worker_step s s' -> troubled s -> troubled s'.
Proof.
  intros Hs [Hd|Hd]; [left; by apply (done_stays grpcAddress gatewayAddress s)|right].
  pose proof Hd as (Hn & Hc & Hf). unfold doomed. destruct Hs as [Hs|[Hs|Hs|Hs|Hs|Hs]]; destruct Hs; cbn; try done;
    by first [apply (doomed_jobs s k job)|edestruct Hn].
Qed.

(** A job that fails in the select dooms the application. *)
Lemma failed_job_troubles (s : workers) (order : list nat) (k : nat) (job : job_goroutine) (err : go_error) :
  wk_indexer s = IndexerSelects order -> wk_jobs s !! k = Some job -> is_canceled err = false ->
  troubled (set_job_list s (end_job k (Some err) (wk_jobs s))).
Proof.
  intros E Ek Hc. right. split; [cbn; by rewrite E|]. cbn. split.
  - intros i job' Ej. destruct (end_job_inv _ _ _ _ _ Ej) as (j0 & _ & _ & H). apply H. right.
    split; [by eexists|by rewrite Ek].
  - destruct (end_job_lookup k (Some err) (wk_jobs s) k job Ek) as (job' & E' & Hp). exists k, job'. split; [done|].
    exists (index_error err). split; [|done]. rewrite Hp. by rewrite decide_True.
Qed.

(** ** Progress *)

(** A job that is waited for and whose context is done can end. *)
Lemma waited_job_moves (s : workers) (order : list nat) :
  wait_receives (wk_jobs s) order = None -> group_done s = true \/ jobs_cancelled (wk_jobs s) ->
      exists s', reacts s s'.
Proof.
  intros Hw Hd. destruct (wait_blocked _ _ Hw) as (k & job & _ & Ek & Hr). eexists.
  apply by_job, (reacts_job s k job (ContextError 1) Ek Hr). unfold job_done.
  destruct Hd as [->|Hc]; [done|]. rewrite (Hc k job Ek). apply orb_true_r.
Qed.

Lemma indexer_moves (s : workers) :
  workers_ok s -> troubled s -> (forall e, wk_indexer s <> IndexerReturned e) -> exists s', reacts s s'.
Proof.
  intros Hok Ht Hn. destruct (wk_indexer s) as [[|n]|order|order|je|e] eqn:E.
  - eexists. by apply by_indexer, (reacts_select s (seq 0 (length (wk_jobs s)))).
  - eexists. by apply by_indexer, (reacts_start s n).
  - destruct (wait_receives (wk_jobs s) order) as [je|] eqn:Ew; [eexists;
      by apply by_indexer, (reacts_received s order je)|].
    apply (waited_job_moves s order Ew). destruct Ht as [?|(_ & Hc & _)]; [by left|by right].
  - destruct (wait_receives (wk_jobs s) order) as [je|] eqn:Ew; [eexists;
      by apply by_indexer, (reacts_drained s order je)|].
    apply (waited_job_moves s order Ew). left. by apply (ok_drains s Hok order).
  - eexists. by apply by_indexer, (reacts_report s je).
  - by destruct (Hn e).
Qed.

Lemma grpc_moves (s : workers) :
  group_done s = true -> (forall e, wk_grpc s <> GrpcReturned e) -> exists s', reacts s s'.
Proof.
  intros Hd Hn. destruct (wk_grpc s) as [| |e] eqn:E; [|eexists;
      by apply by_grpc, reacts_grpc_stop|by destruct (Hn e)].
  destruct (SplitHostPort grpcAddress) as [err|hp] eqn:Ea; eexists;
    [by apply by_grpc, (reacts_grpc_address _ s err)|by apply by_grpc, (reacts_grpc_serve _ s hp)].
Qed.

Lemma gateway_moves (s : workers) :
  group_done s = true -> (forall e, wk_gateway s <> GatewayReturned e) -> exists s', reacts s s'.
Proof.
  intros Hd Hn. destruct (wk_gateway s) as [|b|e] eqn:E; [| |by destruct (Hn e)].
  - destruct (SplitHostPort gatewayAddress) as [err|hp] eqn:Ea; eexists;
      [by apply by_gateway, (reacts_gateway_address _ s err)|by apply by_gateway, (reacts_gateway_serve _ s hp)].
  - eexists. apply by_gateway, (reacts_gateway_stop _ s b None E Hd). by left.
Qed.

(** A doomed [RunIndexer] returns an error, so that the context is done. *)
Lemma doomed_returns (s : workers) (e : option go_error) :
  workers_ok s -> troubled s -> wk_indexer s = IndexerReturned e -> group_done s = true.
Proof.
  intros Hok [?|(_ & _ & Hf)] E; [done|]. destruct e as [err|]; [by apply (ok_indexer s Hok err)|].
  destruct (ok_silent s Hok) as [?|[_ Hn]]; [by right|done|done].
Qed.

Lemma troubled_moves (s : workers) :
  workers_ok s -> troubled s -> wk_closed s = true \/ exists s', reacts s s'.
Proof.
  intros Hok Ht. destruct (wk_closed s) eqn:Ec; [by left|right].
  destruct (wk_indexer s) as [n|o|o|je|e1] eqn:E1; try (apply indexer_moves; [done|done|intros e; by rewrite E1]).
  pose proof (doomed_returns s e1 Hok Ht E1) as Hd.
  destruct (wk_grpc s) as [| |e2] eqn:E2; try (apply grpc_moves; [done|intros e; by rewrite E2]).
  destruct (wk_gateway s) as [|b|e3] eqn:E3; try (apply gateway_moves; [done|intros e; by rewrite E3]).
  eexists. by apply by_start, (reacts_close s e1 e2 e3).
Qed.

Lemma nsteps_reach (n k : nat) (s s' : workers) : nsteps worker_step k s s' -> workers_reach n s ->
    workers_reach n s'.
Proof. induction 1 as [|k s1 s2 s3 Hs _ IH]; [done|]. intros H. apply IH. by apply (workers_step _ _ n s1). Qed.

Lemma nsteps_measure (k : nat) (s s' : workers) :
  nsteps worker_step k s s' -> (k + workers_measure s' <= workers_measure s)%nat.
Proof. induction 1 as [|k s1 s2 s3 Hs _ IH]; [lia|]. apply step_decreases in Hs. lia. Qed.

Lemma nsteps_trouble (k : nat) (s s' : workers) : nsteps worker_step k s s' -> troubled s -> troubled s'.
Proof. induction 1 as [|k s1 s2 s3 Hs _ IH]; [done|]. intros H. by apply IH, (trouble_stays s1). Qed.

(** C12: the application stops.  After a signal, after a worker of the group failed, and after a
    job failed while [RunIndexer] waits for its jobs: whatever order the goroutines run in and
    whatever else happens, no run has more steps than [workers_measure] says, and as long as
    [StartApplication] has not closed the database and the connection, some goroutine can move
    on by itself.  So [StartApplication] returns.  The goroutine of [Wait] is not part of this:
    it may stay blocked in a send, which nothing waits for. *)
Theorem shutdown_completes (n : nat) (s : workers) :
  workers_reach n s ->
  (forall order k job err, wk_indexer s = IndexerSelects order -> wk_jobs s !! k = Some job ->
      is_canceled err = false ->
     troubled (set_job_list s (end_job k (Some err) (wk_jobs s)))) /\
  (troubled s -> forall k s', nsteps worker_step k s s' ->
     (k <= workers_measure s)%nat /\ (wk_closed s' = true \/ exists s'', reacts s' s'')).
Proof.
  intros Hr. split; [intros; by eapply failed_job_troubles|]. intros Ht k s' Hn. split.
  - pose proof (nsteps_measure k s s' Hn). lia.
  - apply troubled_moves; [|by apply (nsteps_trouble k s)].
    apply (workers_reach_ok grpcAddress gatewayAddress n). by apply (nsteps_reach n k s).
Qed.

(** * Closing the database *)

Lemma reach_reacts (n : nat) (s s' : workers) : workers_reach n s -> reacts s s' -> workers_reach n s'.
Proof. intros H Hs. apply (workers_step _ _ n s); [done|by right]. Qed.

Lemma reach_happens (n : nat) (s s' : workers) : workers_reach n s -> happens s s' -> workers_reach n s'.
Proof. intros H Hs. apply (workers_step _ _ n s); [done|by left]. Qed.

Lemma grpc_gives_up (s : workers) : wk_grpc s = GrpcStarts -> exists e, reacts s (grpc_returns s (Some e)).
Proof.
  intros E. destruct (SplitHostPort grpcAddress) as [err|hp] eqn:Ea; eexists;
    [by apply by_grpc, (reacts_grpc_address _ s err)|by apply by_grpc, (reacts_grpc_listen _ s hp)].
Qed.

Lemma gateway_gives_up (s : workers) : wk_gateway s = GatewayStarts ->
    exists e, reacts s (gateway_returns s (Some e)).
Proof.
  intros E. destruct (SplitHostPort gatewayAddress) as [err|hp] eqn:Ea; eexists;
    [by apply by_gateway, (reacts_gateway_address _ s err)|].
  apply by_gateway, (reacts_gateway_register _ s "failed to register gRPC gateway: %v" hp E Ea). by left.
Qed.

(** The next state of a run, by a step whose conditions hold by computation. *)
Ltac run_state R :=
  unfold start_workers, set_signal, set_job_list, indexer_goes, grpc_goes, gateway_goes, indexer_returns,
      grpc_returns,
    gateway_returns, close_resources, end_job, cancel_jobs in R; cbn in R.
Ltac reacts_by R tac := eapply reach_reacts in R; [|tac; try reflexivity]; run_state R.
Ltac happens_by R tac := eapply reach_happens in R; [|tac; try reflexivity]; run_state R.

(** Two jobs were started, and [RunIndexer] waits for the first one first. *)
Definition two_goroutines : list job_goroutine := [mkJobGoroutine JobRuns false; mkJobGoroutine JobRuns false].

Lemma two_jobs_started (order : list nat) :
  order ≡ₚ seq 0 2 ->
  workers_reach 2 (mkWorkers false None two_goroutines false (IndexerSelects order) GrpcStarts GatewayStarts false).
Proof.
  intros Ho. pose proof (workers_start grpcAddress gatewayAddress 2) as R.
  reacts_by R ltac:(eapply by_indexer, reacts_start). reacts_by R ltac:(eapply by_indexer, reacts_start).
  reacts_by R ltac:(eapply by_indexer; eapply reacts_select with (order := order)); [exact R|done].
Qed.

(** The first job fails: [RunIndexer] returns its error, the servers have failed as well, and
    the database is closed while the second job, though cancelled, still runs. *)
Lemma job_outlives_database :
  exists s, workers_reach 2 s /\ wk_closed s = true /\ wk_start_failed s = false /\
    wk_jobs s !! 1%nat = Some (mkJobGoroutine JobRuns true).
Proof.
  pose proof (two_jobs_started [0; 1]%nat (reflexivity _)) as R.
  happens_by R ltac:(eapply happens_job with (k := 0%nat) (err := Some (ExternalError 1))).
  reacts_by R ltac:(eapply by_indexer, reacts_received). reacts_by R ltac:(eapply by_indexer, reacts_report).
  match type of R with workers_reach _ ?s => destruct (grpc_gives_up s eq_refl) as [e1 H1] end.
  apply (reach_reacts _ _ _ R) in H1 as R1. cbn in R1.
  match type of R1 with workers_reach _ ?s => destruct (gateway_gives_up s eq_refl) as [e2 H2] end.
  apply (reach_reacts _ _ _ R1) in H2 as R2. cbn in R2. reacts_by R2 ltac:(eapply by_start, reacts_close).
  eexists. split; [exact R2|done].
Qed.

(** C14: closing the database.  When [StartApplication] closes the database, all jobs have
    ended, unless the start of the jobs failed or a job failed by itself: [Wait] is then left
    at the first error, and there is a run in which the database is closed under a job that
    still runs.  The gRPC server never ends without an error, so that every shutdown, also the
    regular one, logs an error of the workers. *)
Theorem database_closed_after_jobs (n : nat) (s : workers) :
  (workers_reach n s -> wk_closed s = true ->
     (wk_start_failed s = false -> ~ some_failed (wk_jobs s) -> all_ended (wk_jobs s)) /\
     (exists err, wk_grpc s = GrpcReturned (Some err)) /\ is_Some (wk_error s)) /\
  (exists s', workers_reach 2 s' /\ wk_closed s' = true /\ wk_start_failed s' = false /\
     wk_jobs s' !! 1%nat = Some (mkJobGoroutine JobRuns true)).
Proof.
  split; [|exact job_outlives_database]. intros Hr Hc. pose proof (workers_reach_ok _ _ n s Hr) as Hok.
  destruct (ok_closed s Hok Hc) as (e1 & e2 & e3 & E1 & E2 & E3). split; [|split].
  - intros Hs Hf. destruct (ok_over s Hok) as [?|[?|?]]; [by rewrite E1|congruence|done|done].
  - destruct (ok_grpc s Hok e2 E2) as [[err ->] _]. by exists err.
  - by apply (ok_grpc s Hok e2).
Qed.

(** * Failures that go unnoticed *)

Section Unnoticed.
Context (h1 h2 : string * string).
Context (Hgrpc : SplitHostPort grpcAddress = inr h1) (Hgateway : SplitHostPort gatewayAddress = inr h2).

(** The application serves. *)
Definition serving_workers (jobs : list job_goroutine) (order : list nat) (listening : bool) : workers :=
  mkWorkers false None jobs false (IndexerSelects order) GrpcServes (GatewayServes listening) false.

Lemma servers_start (n : nat) (jobs : list job_goroutine) (order : list nat) :
  workers_reach n (mkWorkers false None jobs false (IndexerSelects order) GrpcStarts GatewayStarts false) ->
  workers_reach n (serving_workers jobs order true).
Proof.
  intros R. reacts_by R ltac:(eapply by_grpc, reacts_grpc_serve); [|exact Hgrpc].
  reacts_by R ltac:(eapply by_gateway, reacts_gateway_serve); [exact R|exact Hgateway].
Qed.

(** It is at rest while [Wait] waits and no job that runs is cancelled. *)
Lemma serving_rests (jobs : list job_goroutine) (order : list nat) (listening : bool) :
  wait_receives jobs order = None ->
  (forall k job, jobs !! k = Some job -> jg_phase job = JobRuns -> jg_cancelled job = false) ->
  at_rest grpcAddress gatewayAddress (serving_workers jobs order listening).
Proof.
  intros Hw Hj s' [H|H|H|H|H]; inversion H; subst; cbn in *; try discriminate; simplify_eq.
  unfold job_done in *. cbn in *. erewrite Hj in *; done.
Qed.

(** C15: failures after which the application goes on as before.  A job that fails before the
    next job is started cancels only the jobs started so far; when [Wait] then visits a later
    job first, the application rests with the failed job, though [RunIndexer] is to return the
    error of a job.  And when the gateway cannot listen at its address, or stops listening, the
    error is logged and its worker waits on: the service runs without its HTTP interface. *)
Theorem unnoticed_failures :
  (exists s, workers_reach 2 s /\ at_rest grpcAddress gatewayAddress s /\ ~ troubled s /\ wk_closed s = false /\
     some_failed (wk_jobs s) /\ wk_jobs s !! 1%nat = Some (mkJobGoroutine JobRuns false)) /\
  (exists s, workers_reach 2 s /\ at_rest grpcAddress gatewayAddress s /\ ~ troubled s /\ wk_closed s = false /\
     wk_jobs s = two_goroutines /\ wk_gateway s = GatewayServes false).
Proof.
  split.
  - pose proof (workers_start grpcAddress gatewayAddress 2) as R.
    reacts_by R ltac:(eapply by_indexer, reacts_start).
    happens_by R ltac:(eapply happens_job with (k := 0%nat) (err := Some (ExternalError 1))).
    reacts_by R ltac:(eapply by_indexer, reacts_start).
    reacts_by R ltac:(eapply by_indexer; eapply reacts_select with (order := [1; 0]%nat)); [|apply perm_swap].
    apply servers_start in R. eexists. split; [exact R|]. split; [apply serving_rests|]; [done| |].
    + by intros [|[|k]] job; cbn; intros [= <-].
    + split; [|split; [done|split; [|done]]].
      * intros [[=]|(_ & Hc & _)]. by discriminate (Hc 1%nat _ eq_refl).
      * exists 0%nat. eexists. split; [reflexivity|]. by exists (index_error (ExternalError 1)).
  - pose proof (servers_start _ _ _ (two_jobs_started [0; 1]%nat (reflexivity _))) as R.
    happens_by R ltac:(eapply happens_gateway). eexists. split; [exact R|].
    split; [apply serving_rests; [done|by intros [|[|k]] job [= <-]]|]. split; [|done].
    intros [[=]|(_ & Hc & _)]. by discriminate (Hc 1%nat _ eq_refl).
Qed.
End Unnoticed.
End Stopping.

(** * Witnesses *)

(** Two jobs run, and a signal arrives. *)
Lemma shutdown_completes_witness :
  exists s, workers_reach GrpcServerAddr GatewayAddr 2 s /\ troubled s /\ wk_closed s = false /\
    forall k s', nsteps (worker_step GrpcServerAddr GatewayAddr) k s s' ->
      (k <= 11)%nat /\ (wk_closed s' = true \/ exists s'', reacts GrpcServerAddr GatewayAddr s' s'').
Proof.
  pose proof (two_jobs_started GrpcServerAddr GatewayAddr [0; 1]%nat (reflexivity _)) as R.
  eapply reach_happens in R; [|by apply happens_signal].
  eexists. split; [exact R|]. split; [by left|]. split; [done|].
  apply (shutdown_completes GrpcServerAddr GatewayAddr 2 _ R). by left.
Defined.

Lemma unnoticed_failures_witness :
  exists s, workers_reach GrpcServerAddr GatewayAddr 2 s /\ at_rest GrpcServerAddr GatewayAddr s /\
    wk_closed s = false /\ some_failed (wk_jobs s).
Proof.
  destruct (unnoticed_failures GrpcServerAddr GatewayAddr ("localhost", "50651") ("localhost", "8480")
      eq_refl eq_refl)
    as [(s & R & Hr & _ & Hc & Hf & _) _]. by exists s.
Defined.

Lemma database_closed_after_jobs_witness :
  exists s, workers_reach GrpcServerAddr GatewayAddr 2 s /\ wk_closed s = true /\
    exists err, wk_grpc s = GrpcReturned (Some err).
Proof.
  destruct (job_outlives_database GrpcServerAddr GatewayAddr) as (s & R & Hc & _). exists s. split; [exact R|].
  split; [exact Hc|]. apply (database_closed_after_jobs GrpcServerAddr GatewayAddr 2 s); [exact R|exact Hc].
Defined.
