(* ===== verification/Application.v ===== *)
(** The application and its command line ([pkg/indexer/application.go],
    [cmd/galacticad-merkle/cmd]): reading the configuration, connecting to the node, opening
    the database, configuring the registries, running the indexer, closing, and the loop of the
    start command that does all of this again until the process is told to stop.

    What one iteration of the loop meets is an [attempt]: the answers of the node and of the
    database package, the steps that jobs and handlers take while the application runs, and
    whether the process was told to stop.  The [host] is what outlives an iteration: the
    database files, whether the process has them open, and its open connections. *)

From stdpp Require Import base list numbers strings gmap.
From Stdlib Require Import ZArith Lia Ascii.
From S2P Require Import Prelude GoBase GoLib SparseTree Storage Registry Service Handlers Jobs Indexer RegistryJob.
From S2P Require Import Configurator Live Recovery Lifecycle.
Local Open Scope Z_scope.

(** * The configuration *)

(** Values by key (package [viper]), from flags, the environment and the configuration file. *)
Record viper : Type := mkViper {
  GetString : string -> string;
  GetStringSlice : string -> list string;
  GetDuration : string -> Z;
  GetUint64 : string -> Z;
  GetUint : string -> Z
}.

(** [viper.ReadInConfig] for a configuration file, [os.UserHomeDir]. *)
Class HostEnv := {
  ReadInConfig : string -> viper -> go_error + viper;
  UserHomeDir : go_error + string;
}.

Definition FlagHome : string := "home".
Definition FlagConfig : string := "config".
Definition ViperLogLevel : string := "log_level".
Definition ViperDBBackend : string := "db_backend".
Definition DefaultHomeSubDir : string := ".galacticad-merkle".
Definition DefaultConfigFileName : string := "merkle-41238.yaml".

Record root_Config : Type := mkRootConfig {
  Root_Home : string;
  Root_Config : string;
  Root_LogLevel : string;
  Root_DBBackend : string
}.

(** The names are the constants of package [cometbft-db]. *)
Definition availableDBBackends : list string :=
  ["goleveldb"; "cleveldb"; "memdb"; "boltdb"; "rocksdb"; "badgerdb"; "pebbledb"].

Definition dbBackendsString : string :=
  String.append "[" (String.append (filepath_Join availableDBBackends) "]").

(** [if home := viper.GetString(FlagHome); home != ""] *)
Definition home_dir {HE : HostEnv} (v : viper) : gores string :=
  let home := GetString v FlagHome in
  if String.eqb home "" then
    let* userHome := wrap_res "failed to get user home directory: %w" [] (lift UserHomeDir) in
    Ok (filepath_Join [userHome; DefaultHomeSubDir])
  else Ok home.

Definition config_file (v : viper) (home : string) : string :=
  let config := GetString v FlagConfig in
  if String.eqb config "" then filepath_Join [home; DefaultConfigFileName] else config.

(** The new configuration, and what viper holds after the file was read; that the file cannot
    be read is ignored, whatever the reason. *)
Definition initConfig {HE : HostEnv} (v : viper) : gores (root_Config * viper) :=
  let* home := home_dir v in
  let config := config_file v home in
  let v := match ReadInConfig config v with inr v' => v' | inl _ => v end in
  let backend := GetString v ViperDBBackend in
  if bool_decide (backend ∈ availableDBBackends)
  then Ok (mkRootConfig home config (GetString v ViperLogLevel) backend, v)
  else Throw (Errorf "invalid db backend %s, expected one of %s" (printed_text backend ++
      printed_text dbBackendsString)
         None).

(** ** The start command *)

Definition evmRpcViper : string := "evm_rpc".
Definition grpcAddressViper : string := "grpc.address".
Definition grpcGatewayAddressViper : string := "grpc_gateway.address".
Definition indexerMode : string := "indexer.mode".
Definition indexerPollingInterval : string := "indexer.polling_interval".
Definition indexerMaxBlocksDistanceFlag : string := "indexer.max_blocks_distance".
Definition indexerSinkChannelSizeFlag : string := "indexer.sink_channel_size".
Definition indexerSinkProgressTickFlag : string := "indexer.sink_progress_tick".
Definition zkCertificateRegistryViper : string := "zk_certificate_registry".
Definition dbFolder : string := "db".
Definition dbName : string := "merkle".

(** The flags of the command, which hold the values of the keys that nothing else sets. *)
Definition defaultEvmRpc : string := "ws://localhost:8546".

Definition flag_defaults : viper := {|
  GetString key :=
    if String.eqb key evmRpcViper then defaultEvmRpc
    else if String.eqb key grpcAddressViper then GrpcServerAddr
    else if String.eqb key grpcGatewayAddressViper then GatewayAddr
    else if String.eqb key indexerMode then ModePoll else "";
  GetStringSlice _ := [];
  GetDuration key :=
    if String.eqb key indexerPollingInterval then PollingInterval
    else if String.eqb key indexerSinkProgressTickFlag then SinkProgressTick else 0;
  GetUint64 key := if String.eqb key indexerMaxBlocksDistanceFlag then MaxBlocksDistance else 0;
  GetUint key := if String.eqb key indexerSinkChannelSizeFlag then SinkSize else 0
|}.

Record QueryServerConfig : Type := mkQueryServerConfig {
  GRPC_Address : string;
  GRPCGateway_Address : string
}.

Record ApplicationConfig : Type := mkApplicationConfig {
  App_EvmRpc : string;
  App_DbPath : string;
  App_DbBackend : string;
  App_ZkCertificateRegistry : list gobytes;
  App_QueryServer : QueryServerConfig;
  App_IndexerConfig : Config
}.

(** The values that [PersistentPreRun] puts into the context of a command. *)
Record cmd_context : Type := mkCmdContext {
  Ctx_Logger : bool;
  Ctx_HomeDir : option string;
  Ctx_DBBackend : option string
}.

Section Command.
Context {HA : HexAddress}.

(** [for _, address := range addresses] *)
Fixpoint getZkCertificateRegistry_loop (addresses : list string) (contractAddresses : list gobytes)
    : gores (list gobytes) :=
  match addresses with
  | [] => Ok contractAddresses
  | address :: addresses' =>
      if negb (IsHexAddress address) then Throw (Errorf "invalid address: %s" (printed_text address) None)
      else getZkCertificateRegistry_loop addresses' (contractAddresses ++ [HexToAddress address])
  end.

Definition getZkCertificateRegistry (v : viper) : gores (list gobytes) :=
  let addresses := GetStringSlice v zkCertificateRegistryViper in
  if (length addresses =? 0)%nat then Ok [] else getZkCertificateRegistry_loop addresses [].

Definition getQueryServerConfig (v : viper) : QueryServerConfig :=
  mkQueryServerConfig (GetString v grpcAddressViper) (GetString v grpcGatewayAddressViper).

Definition getIndexConfig (v : viper) : Config :=
  mkConfig (GetUint64 v indexerMaxBlocksDistanceFlag) (GetUint v indexerSinkChannelSizeFlag)
    (GetDuration v indexerSinkProgressTickFlag) (GetString v indexerMode) (GetDuration v indexerPollingInterval).

Definition with_mode (mode : Mode) (c : Config) : Config :=
  mkConfig (Config_MaxBlocksDistance c) (Config_SinkChannelSize c) (Config_SinkProgressTick c) mode
    (Config_PollingInterval c).

(** [RunE] up to its loop. *)
Definition start_config (v : viper) (cc : cmd_context) : gores ApplicationConfig :=
  let evmRpc := GetString v evmRpcViper in
  if String.eqb evmRpc "" then Throw (Errorf "EVM RPC endpoint is required" [] None)
  else if negb (Ctx_Logger cc) then Throw (Errorf "logger not found in context" [] None)
  else match Ctx_HomeDir cc with
  | None => Throw (Errorf "home dir not found in context" [] None)
  | Some homeDir =>
  match Ctx_DBBackend cc with
  | None => Throw (Errorf "db backend not found in context" [] None)
  | Some dbBackend =>
      let dbPath := filepath_Join [homeDir; dbFolder] in
      let* zkCertificateRegistry := wrap_res "zk certificate registry: %w" [] (getZkCertificateRegistry v) in
      let indexerConfig := getIndexConfig v in
      let indexerConfig := if String.eqb (Config_IndexerMode indexerConfig) ModeWS && negb (String.prefix "ws" evmRpc)
                           then with_mode ModePoll indexerConfig else indexerConfig in
      Ok (mkApplicationConfig evmRpc dbPath dbBackend zkCertificateRegistry (getQueryServerConfig v) indexerConfig)
  end end.
End Command.

(** * The version command *)

(** [debug.Module] of the build information, with the path and version that replace it. *)
Record buildDep : Type := mkBuildDep {
  Dep_Path : string;
  Dep_Version : string;
  Dep_Replace : option (string * string)
}.

Definition buildDep_String (d : buildDep) : string :=
  match Dep_Replace d with
  | Some (path, version) =>
      String.concat "" [Dep_Path d; "@"; Dep_Version d; " => "; path; "@"; version]
  | None => String.concat "" [Dep_Path d; "@"; Dep_Version d]
  end.

Definition AppName : string := "merkle-proof-service".

(** The version, the commit and the dependencies come from the build. *)
Definition fullVersion (Version GitCommit GoVersion : string) (BuildDeps : list buildDep) : string :=
  String.concat (String (Ascii.ascii_of_nat 10) "")
    ([String.concat "" [AppName; ": "; Version]; String.append "git commit: " GitCommit; GoVersion; "build deps:"] ++
     map (fun dep => String.append "  - " (buildDep_String dep)) BuildDeps).

Definition print_version (long : bool) (Version GitCommit GoVersion : string) (BuildDeps : list buildDep) : string :=
  if long then fullVersion Version GitCommit GoVersion BuildDeps else Version.

(** * The application *)

Section Application.
Context {U256 : Uint256} {PH : Poseidon} {GE : GoEnv} {KV : KVDatabase} {KI : KVIterator KV}.
Context {JC : JobCodec} {JD : JobDecoder} {MC : MetadataCodec} {CE : ContractEvents} {GS : GoScheduler}.
Context {HA : HexAddress} {UT : Uint256Text}.

(** The case of the [select] of [RunIndexer] that goes on. *)
Inductive wake : Type := WakeCtxDone | WakeJobs.

(** [at_Dial] is what [backoff.Retry] ends with; [at_NewDB name backend path opened files] is
    [db.NewDB], where [opened] says that the process has the files open. *)
Record attempt : Type := mkAttempt {
  at_Dial : string -> option go_error;
  at_BlockNumber : go_error + Z;
  at_NewDB : string -> string -> string -> bool -> DB -> go_error + DB;
  at_contract : RegistryContract;
  at_steps : list live_action;
  at_wake : wake;
  at_report : GoEnv;
  at_stop : bool
}.

Record host : Type := mkHost {
  ho_db : DB;
  ho_opened : bool;
  ho_clients : nat;
  ho_world : world
}.

(** Of the fields, those that [Init] and [RunIndexer] read.  The registry service is its
    objects and its map; its database is the one of the host. *)
Record Application : Type := mkApplication {
  app_config : ApplicationConfig;
  app_ethereumClient : bool;
  app_kvDB : bool;
  app_registryService : option (list ZKCertificateRegistry * gmap RegistryIndex nat);
  app_jobs : list JobDescriptor;
  app_evmIndexer : option Config
}.

Definition NewApplication (config : ApplicationConfig) : Application :=
  mkApplication config false false None [] None.

Definition app_state : Type := Application * host.

Definition the_config : go app_state ApplicationConfig := fun s => (Ok (app_config (fst s)), s).

(** [app.ethereumClient, err = ethclient.DialContext(...)] *)
Definition dial (a : attempt) : go app_state unit := fun '(app, h) =>
  match at_Dial a (App_EvmRpc (app_config app)) with
  | Some err => (Throw err, (app, h))
  | None => (Ok tt, (mkApplication (app_config app) true (app_kvDB app) (app_registryService app) (app_jobs app)
                       (app_evmIndexer app), mkHost (ho_db h) (ho_opened h) (S (ho_clients h)) (ho_world h)))
  end.

(** [app.kvDB, err = db.NewDB(dbName, app.config.DbBackend, app.config.DbPath)] *)
Definition open_db (a : attempt) : go app_state unit := fun '(app, h) =>
  match at_NewDB a dbName (App_DbBackend (app_config app)) (App_DbPath (app_config app)) (ho_opened h) (ho_db h) with
  | inl err => (Throw err, (app, h))
  | inr files => (Ok tt, (mkApplication (app_config app) (app_ethereumClient app) true (app_registryService app)
                            (app_jobs app) (app_evmIndexer app), mkHost files true (ho_clients h) (ho_world h)))
  end.

(** [app.registryService = zkregistry.InitializeService(app.kvDB, app.ethereumClient)] *)
Definition InitializeService : go app_state unit := fun '(app, h) =>
  let service := NewService (ho_db h) (ho_world h) in
  (Ok tt, (mkApplication (app_config app) (app_ethereumClient app) (app_kvDB app)
             (Some (sv_objects service, sv_registry service)) (app_jobs app) (app_evmIndexer app), h)).

(** A call of the registry service. *)
Definition on_registryService {A : Type} (m : go service_state A) : go app_state A := fun '(app, h) =>
  match app_registryService app with
  | None => (Throw (Panic "nil pointer dereference"), (app, h))
  | Some (objects, registry) =>
      let (r, v) := m (mkServiceState (ho_db h) objects registry (ho_world h)) in
      (r, (mkApplication (app_config app) (app_ethereumClient app) (app_kvDB app)
             (Some (sv_objects v, sv_registry v)) (app_jobs app) (app_evmIndexer app),
           mkHost (sv_db v) (ho_opened h) (ho_clients h) (sv_world v)))
  end.

Definition set_jobs (jobs : list JobDescriptor) : go app_state unit := fun '(app, h) =>
  (Ok tt, (mkApplication (app_config app) (app_ethereumClient app) (app_kvDB app) (app_registryService app) jobs
             (app_evmIndexer app), h)).

(** The storage of jobs, the factory and the query server keep nothing of their own. *)
Definition set_indexer : go app_state unit := fun '(app, h) =>
  (Ok tt, (mkApplication (app_config app) (app_ethereumClient app) (app_kvDB app) (app_registryService app)
             (app_jobs app) (Some (NewEVMIndexer (App_IndexerConfig (app_config app)))), h)).

Definition Init (a : attempt) : go app_state unit :=
  let! _ := go_wrap "connect via RPC: %w" [] (dial a) in
  let! latestBlock := go_wrap "get latest block: %w" [] (go_res (lift (at_BlockNumber a))) in
  let! _ := go_wrap "create storage DB: %w" [] (open_db a) in
  let! _ := InitializeService in
  let! config := the_config in
  let! jobs := go_wrap "configure zk certificate registry: %w" []
    (on_registryService (configureZkCertificateRegistry (RC := at_contract a) (App_ZkCertificateRegistry config))) in
  let! _ := set_jobs jobs in
  if (length jobs =? 0)%nat
  then go_throw (Errorf "no jobs to apply, please specify at least one zk certificate registry address" [] None)
  else set_indexer.

(** ** Running *)

Variable network : JobDescriptor -> Z -> list Log.

(** Jobs and handlers take steps. *)
Fixpoint live_steps (acts : list live_action) (s : live_state) : live_state :=
  match acts with
  | [] => s
  | act :: acts' => live_steps acts' (snd (live_do (seen_chains network s) act s))
  end.

(** The report of the last known blocks reads all jobs; its context is one of its own. *)
Definition RunIndexer_report (a : attempt) (database : DB) : gores unit :=
  let* _ := wrap_res "select all jobs: %w" [] (fst (SelectAllJobs (GE := at_report a) database (mkWorld 0 0))) in
  Ok tt.

(** [RunIndexer], with the configuration of [app.evmIndexer]: jobs that were started take steps
    also when starting the next one failed. *)
Definition RunIndexer_service (a : attempt) (config : Config) (jobs : list JobDescriptor)
    : go service_state unit := fun v =>
  let (r, c) := RunIndexer_start jobs (NewConfigurator v) in
  let v' := lv_service (live_steps (at_steps a) (live_of (Config_IndexerMode config) c)) in
  (let* _ := r in
   let jobErr := match at_wake a with WakeCtxDone => None | WakeJobs => head (Wait c) end in
   let* _ := RunIndexer_report a (sv_db v') in
   match jobErr with None => Ok tt | Some err => Throw err end, v').

Definition RunIndexer (a : attempt) : go app_state unit := fun s =>
  match app_evmIndexer (fst s) with
  | None => (Throw (Panic "nil pointer dereference"), s)
  | Some config => on_registryService (RunIndexer_service a config (app_jobs (fst s))) s
  end.

(** [app.kvDB.Close()], [app.ethereumClient.Close()] *)
Definition close_app (h : host) : host := mkHost (ho_db h) false (pred (ho_clients h)) (ho_world h).

(** The servers' workers change nothing but through the queries among the steps; how the three
    workers start and end is in [Lifecycle].  [wgr.Wait()]: the error of the workers is logged
    and dropped, a panic ends the process. *)
Definition StartApplication (config : ApplicationConfig) (a : attempt) : go host unit := fun h =>
  match Init a (NewApplication config, h) with
  | (Throw err, s) => (Throw (wrap_error "init application: %w" [] err), snd s)
  | (OutOfFuel, s) => (OutOfFuel, snd s)
  | (Ok _, s) =>
      match RunIndexer a s with
      | (Throw err, s') => if is_panic err then (Throw err, snd s') else (Ok tt, close_app (snd s'))
      | (_, s') => (Ok tt, close_app (snd s'))
      end
  end.

(** ** The loop of the start command *)

Definition panics {A : Type} (c : gores A) : bool := match c with Throw err => is_panic err | _ => false end.

(** After the attempts that are given the loop goes on; otherwise it has stopped, or the
    process panicked. *)
Inductive loop_end : Type := LoopRuns | LoopStops | LoopPanics.

Record loop_result : Type := mkLoopResult {
  lr_results : list (gores unit);
  lr_end : loop_end;
  lr_host : host
}.

Fixpoint start_loop (config : ApplicationConfig) (attempts : list attempt) (h : host) : loop_result :=
  match attempts with
  | [] => mkLoopResult [] LoopRuns h
  | a :: attempts' =>
      let (r, h') := StartApplication config a h in
      if panics r then mkLoopResult [r] LoopPanics h'
      else if at_stop a then mkLoopResult [r] LoopStops h'
      else let l := start_loop config attempts' h' in mkLoopResult (r :: lr_results l) (lr_end l) (lr_host l)
  end.

Definition start_RunE (v : viper) (cc : cmd_context) (attempts : list attempt) (h : host) : gores loop_result :=
  let* config := start_config v cc in Ok (start_loop config attempts h).

(** ** The process *)

(** [PersistentPreRun], of the command [indexer start], and [RunE]: a configuration that cannot
    be used ends the process with status 1, an error of the command is printed, and the status
    is 0. *)
Inductive process_end : Type :=
| ProcessRuns (l : loop_result)
| ProcessExits (code : Z) (printed : option go_error).

Definition Execute {HE : HostEnv} (v : viper) (attempts : list attempt) (h : host) : process_end :=
  match initConfig v with
  | Ok (cfg, v') =>
      match start_RunE v' (mkCmdContext true (Some (Root_Home cfg)) (Some (Root_DBBackend cfg))) attempts h with
      | Ok l => match lr_end l with
                | LoopRuns => ProcessRuns l
                | LoopStops => ProcessExits 0 None
                | LoopPanics => ProcessExits 2 None
                end
      | Throw err => ProcessExits 0 (Some err)
      | OutOfFuel => ProcessRuns (mkLoopResult [] LoopRuns h)
      end
  | Throw err => ProcessExits 1 (Some err)
  | OutOfFuel => ProcessRuns (mkLoopResult [] LoopRuns h)
  end.
End Application.
