(* ===== verification/ApplicationTheorems.v ===== *)
(** Theorems about the application and the loop that restarts it: what the command line hands
    to the application; that the loop, in every mode but the one with a subscription, over any
    failures to connect and any stops, serves the registries and loses nothing that is indexed,
    once a start on a new database found contracts that answer; and that a failure of [Init]
    after the database was opened makes all later iterations fail. *)

From stdpp Require Import base list numbers strings gmap.
From Stdlib Require Import ZArith Lia.
From S2P Require Import Prelude GoBase GoLib MerkleSpec.
From S2P Require Import SparseTree SparseTreeFacts SparseTreeProofs Storage StorageFacts.
From S2P Require Import GoInstance Registry RegistryTheorems Service.
From S2P Require Import ServiceFacts Handlers HandlersFacts Jobs JobsFacts.
From S2P Require Import ServiceInstance ServiceTheorems Indexer.
From S2P Require Import IndexerFacts RegistryJob RegistryJobFacts IndexerTheorems.
From S2P Require Import Configurator JobStorageFacts ConfiguratorFacts.
From S2P Require Import ConfiguratorTheorems Live LiveFacts LiveTheorems.
From S2P Require Import Recovery Application.
Local Open Scope Z_scope.

(** * The configuration *)

Section Command.
Context {HA : HexAddress} {HL : HexAddressLaws HA}.

Lemma getZkCertificateRegistry_loop_ok (addresses : list string) (acc : list gobytes) :
  getZkCertificateRegistry_loop addresses acc =
    match find (fun address => negb (IsHexAddress address)) addresses with
    | Some address => Throw (Errorf "invalid address: %s" (printed_text address) None)
    | None => Ok (acc ++ map HexToAddress addresses)
    end.
Proof.
  revert acc. induction addresses as [|a addresses IH]; intros acc; cbn [getZkCertificateRegistry_loop find map].
  { by rewrite app_nil_r. }
  destruct (IsHexAddress a); cbn [negb]; [|done]. rewrite IH. destruct (find _ addresses); [done|].
  by rewrite <- (assoc_L (++)).
Qed.

(** The addresses of the registries: all that are configured, in their order, or the first one
    that is none. *)
Lemma getZkCertificateRegistry_ok (v : viper) :
  getZkCertificateRegistry v =
    match find (fun address => negb (IsHexAddress address)) (GetStringSlice v zkCertificateRegistryViper) with
    | Some address => Throw (Errorf "invalid address: %s" (printed_text address) None)
    | None => Ok (map HexToAddress (GetStringSlice v zkCertificateRegistryViper))
    end.
Proof.
  unfold getZkCertificateRegistry. rewrite getZkCertificateRegistry_loop_ok.
  by destruct (GetStringSlice v zkCertificateRegistryViper).
Qed.

(** The mode of an indexer: polling when none is given. *)
Lemma indexer_mode (c : Config) :
  Config_IndexerMode (NewEVMIndexer c) =
    (if String.eqb (Config_IndexerMode c) "" then ModePoll else Config_IndexerMode c).
Proof. unfold NewEVMIndexer. repeat (case_match; cbn in *); congruence. Qed.

(** What the application gets from the command line: proper addresses, an endpoint, and the mode
    with a subscription only for an endpoint that starts with ws. *)
Lemma start_config_ok (v : viper) (cc : cmd_context) (config : ApplicationConfig) :
  start_config v cc = Ok config ->
  App_EvmRpc config <> "" /\ Forall address_ok (App_ZkCertificateRegistry config) /\
  App_ZkCertificateRegistry config = map HexToAddress (GetStringSlice v zkCertificateRegistryViper) /\
  (Config_IndexerMode (NewEVMIndexer (App_IndexerConfig config)) = ModeWS ->
     String.prefix "ws" (App_EvmRpc config) = true).
Proof.
  unfold start_config. destruct (String.eqb_spec (GetString v evmRpcViper) "") as [|He]; [done|].
  destruct (Ctx_Logger cc); [|done]. destruct (Ctx_HomeDir cc) as [home|]; [|done].
  destruct (Ctx_DBBackend cc) as [backend|]; [|done]. cbn [negb]. rewrite getZkCertificateRegistry_ok.
  destruct (find _ _) as [a|] eqn:Ef; [done|]. intros [= <-].
  cbn [App_EvmRpc App_ZkCertificateRegistry App_IndexerConfig]. split; [done|]. split; [|split; [done|]].
  - apply Forall_fmap, Forall_forall. intros a Ha. apply HexToAddress_length.
    apply list_elem_of_In in Ha. by pose proof (find_none _ _ Ef a Ha) as ->%negb_false_iff.
  - destruct (String.prefix "ws" _); [done|]. rewrite indexer_mode.
    destruct (String.eqb_spec (GetString v indexerMode) ModeWS) as [Hm|Hm]; cbn [negb andb]; [done|].
    cbn [getIndexConfig Config_IndexerMode]. by destruct (String.eqb (GetString v indexerMode) "").
Qed.
End Command.

(** Without a configuration the command starts an application that polls, and that has no
    registry to follow. *)
Example default_start {HA : HexAddress} :
  start_config flag_defaults (mkCmdContext true (Some "/home/user/.galacticad-merkle") (Some "goleveldb")) =
    Ok (mkApplicationConfig "ws://localhost:8546" "/home/user/.galacticad-merkle/db" "goleveldb" []
          (mkQueryServerConfig "localhost:50651" "localhost:8480") (mkConfig 10000 100 5 "poll" 1)).
Proof. reflexivity. Qed.

(** The backends are printed as one path. *)
Example backends_text :
  dbBackendsString = "[goleveldb/cleveldb/memdb/boltdb/rocksdb/badgerdb/pebbledb]".
Proof. reflexivity. Qed.

(** * [Init] on its branches *)

Section Init.
Context {U256 : Uint256} {PH : Poseidon} {GE : GoEnv} {KV : KVDatabase} {KI : KVIterator KV}.
Context {JC : JobCodec} {JD : JobDecoder} {MC : MetadataCodec} {CE : ContractEvents} {GS : GoScheduler}.
Context {HA : HexAddress} {UT : Uint256Text}.
Context (network : JobDescriptor -> Z -> list Log) (config : ApplicationConfig).

Definition dialled (a : attempt) : bool := if at_Dial a (App_EvmRpc config) is None then true else false.
Definition connects (a : attempt) : bool := dialled a && if at_BlockNumber a is inr _ then true else false.

(** Connecting does not panic. *)
Definition calm (a : attempt) : Prop :=
  (forall err, at_Dial a (App_EvmRpc config) = Some err -> is_panic err = false) /\
  (forall err, at_BlockNumber a = inl err -> is_panic err = false).

(** [db.NewDB] for the configured database. *)
Definition opens_db (a : attempt) (opened : bool) (files : DB) : go_error + DB :=
  at_NewDB a dbName (App_DbBackend config) (App_DbPath config) opened files.

(** The jobs of the configured registries, over a database that was just opened. *)
Definition configures (a : attempt) (files : DB) (w : world) : gores (list JobDescriptor) * service_state :=
  configureZkCertificateRegistry (RC := at_contract a) (App_ZkCertificateRegistry config) (NewService files w).

Definition with_client (h : host) : host := mkHost (ho_db h) (ho_opened h) (S (ho_clients h)) (ho_world h).
Definition opened_host (h : host) (v : service_state) : host := mkHost (sv_db v) true (S (ho_clients h)) (sv_world v).

(** Connecting or opening fails: the database is as it was, a connection may be left open. *)
Lemma init_unconnected (a : attempt) (h : host) :
  calm a -> connects a = false -> exists err s, Init a (NewApplication config, h) = (Throw err, s) /\
    is_panic err = false /\ snd s = (if dialled a then with_client h else h).
Proof.
  unfold calm, connects, dialled, Init, go_bind, go_wrap, dial. cbn [app_config NewApplication]. intros [Hd Hb].
  destruct (at_Dial a (App_EvmRpc config)) as [err|]; cbn.
  { intros _. eexists _, _. split; [done|]. unfold wrap_error. by rewrite (Hd err). }
  destruct (at_BlockNumber a) as [err|n]; cbn; [|done].
  intros _. eexists _, _. split; [done|]. unfold wrap_error. by rewrite (Hb err).
Qed.

Lemma init_not_opened (a : attempt) (h : host) (err : go_error) :
  connects a = true -> opens_db a (ho_opened h) (ho_db h) = inl err ->
  exists s, Init a (NewApplication config, h) = (Throw (wrap_error "create storage DB: %w" [] err), s) /\
    snd s = with_client h.
Proof.
  unfold connects, dialled, opens_db, Init, go_bind, go_wrap, dial, open_db. cbn [app_config NewApplication].
  destruct (at_Dial a (App_EvmRpc config)) as [e|]; cbn; [done|].
  destruct (at_BlockNumber a) as [e|n]; cbn; [done|]. intros _ ->. by eexists.
Qed.

(** The database is open: the result is that of the configuration. *)
Lemma init_opened (a : attempt) (h : host) (files : DB) (r : gores (list JobDescriptor)) (v : service_state) :
  connects a = true -> opens_db a (ho_opened h) (ho_db h) = inr files -> configures a files (ho_world h) = (r, v) ->
  exists app, Init a (NewApplication config, h) =
      (let* jobs := wrap_res "configure zk certificate registry: %w" [] r in
       if (length jobs =? 0)%nat
       then Throw (Errorf "no jobs to apply, please specify at least one zk certificate registry address" [] None)
       else Ok tt, (app, opened_host h v)) /\
    app_registryService app = Some (sv_objects v, sv_registry v) /\
    forall jobs, r = Ok jobs -> jobs <> [] ->
      app_jobs app = jobs /\ app_evmIndexer app = Some (NewEVMIndexer (App_IndexerConfig config)).
Proof.
  unfold connects, dialled, opens_db, configures, Init, go_bind, go_wrap, dial, open_db, on_registryService,
      NewService.
  cbn [app_config NewApplication].
  destruct (at_Dial a (App_EvmRpc config)) as [e|]; cbn; [done|].
  destruct (at_BlockNumber a) as [e|n]; cbn; [done|]. intros _ -> Hc. cbn. rewrite Hc. cbn.
  destruct r as [[|job jobs]|e|]; cbn; eexists; (split; [reflexivity|]); (split; [done|]); intros jobs' [= <-]
      Hne; done.
Qed.

(** [RunIndexer] over the service that [Init] made. *)
Lemma run_indexer_opened (a : attempt) (app : Application) (h : host) (v : service_state) (ix : Config) :
  app_registryService app = Some (sv_objects v, sv_registry v) -> app_evmIndexer app = Some ix ->
  exists app', RunIndexer network a (app, opened_host h v) =
    (fst (RunIndexer_service network a ix (app_jobs app) v),
     (app', opened_host h (snd (RunIndexer_service network a ix (app_jobs app) v)))).
Proof.
  intros E Ei. unfold RunIndexer, on_registryService. cbn [fst]. rewrite E, Ei. cbn [ho_db opened_host ho_world].
  destruct v as [d o r w]. cbn. destruct (RunIndexer_service network a ix (app_jobs app) _) as [res v'].
  by eexists.
Qed.

(** ** Failures that leave the database open *)

(** Files that the process has open cannot be opened again, as with the lock of a LevelDB
    database. *)
Definition locked (a : attempt) : Prop :=
  forall files, exists err, opens_db a true files = inl err /\ is_panic err = false.

(** The iterations of the loop: up to the first after which the process is to stop. *)
Fixpoint tried (attempts : list attempt) : list attempt :=
  match attempts with
  | [] => []
  | a :: attempts' => a :: if at_stop a then [] else tried attempts'
  end.

Definition count_dialled (l : list attempt) : nat := sum_list_with (fun a => if dialled a then 1 else 0)%nat l.

Lemma start_failed (a : attempt) (h : host) (err : go_error) (s : app_state) :
  Init a (NewApplication config, h) = (Throw err, s) ->
  StartApplication network config a h = (Throw (wrap_error "init application: %w" [] err), snd s).
Proof. unfold StartApplication. by intros ->. Qed.

Lemma wrapped_calm (format : string) (args : list Z) (err : go_error) :
  is_panic err = false -> is_panic (wrap_error format args err) = false.
Proof. unfold wrap_error. by intros ->. Qed.

Lemma unconnected_attempt (a : attempt) (h : host) :
  calm a -> connects a = false -> exists err, is_panic err = false /\
    StartApplication network config a h = (Throw err, if dialled a then with_client h else h).
Proof.
  intros Hc Hn. destruct (init_unconnected a h Hc Hn) as (err & s & E & Hp & <-).
  eexists. split; [|by apply start_failed]. by apply wrapped_calm.
Qed.

(** An iteration that finds the database open fails and changes nothing. *)
Lemma locked_attempt (a : attempt) (h : host) :
  calm a -> locked a -> ho_opened h = true -> exists err, is_panic err = false /\
    StartApplication network config a h = (Throw err, if dialled a then with_client h else h).
Proof.
  intros Hc Hl Ho. destruct (connects a) eqn:Hn; [|by apply unconnected_attempt].
  destruct (Hl (ho_db h)) as (e & He & Hp). rewrite <- Ho in He.
  destruct (init_not_opened a h e Hn He) as (s & E & Es).
  assert (dialled a = true) as -> by (unfold connects in Hn; by destruct (dialled a)). rewrite <- Es.
  eexists. split; [|by apply (start_failed a h _ _ E)]. by apply wrapped_calm, wrapped_calm.
Qed.

Lemma locked_loop (attempts : list attempt) (h : host) :
  Forall calm attempts -> Forall locked attempts -> ho_opened h = true ->
  exists l, start_loop network config attempts h = l /\
    Forall (fun r => exists err, r = Throw err /\ is_panic err = false) (lr_results l) /\
    length (lr_results l) = length (tried attempts) /\
    lr_end l = (if existsb at_stop attempts then LoopStops else LoopRuns) /\
    lr_host l = mkHost (ho_db h) true (ho_clients h + count_dialled (tried attempts)) (ho_world h).
Proof.
  intros Hc Hl Ho0. eexists. split; [done|]. revert h Ho0.
  induction Hc as [|a attempts Hca _ IH]; intros h Ho; cbn [start_loop tried existsb].
  { cbn. destruct h as [d o c w]. cbn in *. subst o. repeat split; [constructor|]. f_equal. lia. }
  apply Forall_cons_1 in Hl as [Hla Hl]. destruct (locked_attempt a h Hca Hla Ho) as (err & Hp & ->).
  cbn [panics]. rewrite Hp. set (h' := if dialled a then with_client h else h).
  assert (ho_opened h' = true /\ ho_db h' = ho_db h /\ ho_world h' = ho_world h /\
    ho_clients h' = (ho_clients h + if dialled a then 1 else 0)%nat) as (Ho' & Ed & Ew & Ec)
    by (unfold h'; destruct (dialled a); cbn; repeat split; done || lia).
  assert (h' = mkHost (ho_db h) true (ho_clients h + if dialled a then 1 else 0) (ho_world h)) as Eh
    by (destruct h' as [d o c w]; cbn in *; congruence).
  destruct (at_stop a) eqn:Es; cbn [lr_results lr_end lr_host length orb].
  - split; [repeat constructor; by exists err|]. repeat split. rewrite Eh. f_equal. unfold count_dialled. cbn. lia.
  - destruct (IH Hl h' Ho') as (I1 & I2 & I3 & I4). split; [constructor; [by exists err|done]|].
    split; [by rewrite I2|]. split; [done|]. rewrite I4, Ed, Ew, Ec. f_equal. unfold count_dialled. cbn. lia.
Qed.

(** C13: a start that fails after the database was opened.  When the contract of a registry
    does not answer, or no registry is configured, [Init] returns an error, and
    [StartApplication] returns it without closing the database.  The start command then tries
    again: every later iteration fails too, whatever node and contracts answer by then, since
    the process still has the database open.  The database stays as the failed start left it,
    every iteration that connects leaves another connection open, and the loop goes on until
    the process is told to stop. *)
Theorem failed_init_blocks_restarts (a : attempt) (rest : list attempt) (h : host) (files : DB)
    (r : gores (list JobDescriptor)) (v : service_state) :
  connects a = true -> opens_db a (ho_opened h) (ho_db h) = inr files -> configures a files (ho_world h) = (r, v) ->
  match r with Ok jobs => jobs = [] | Throw err => is_panic err = false | OutOfFuel => False end ->
  at_stop a = false -> Forall calm rest -> Forall locked rest ->
  exists l, start_loop network config (a :: rest) h = l /\
    Forall (fun r => exists err, r = Throw err) (lr_results l) /\
    length (lr_results l) = S (length (tried rest)) /\
    lr_end l = (if existsb at_stop rest then LoopStops else LoopRuns) /\
    lr_host l = mkHost (sv_db v) true (S (ho_clients h) + count_dialled (tried rest)) (sv_world v).
Proof.
  intros Hc Ho Hv Hr Hs Hcs Hls. destruct (init_opened a h files r v Hc Ho Hv) as (app & E & _).
  assert (exists err, is_panic err = false /\
    StartApplication network config a h = (Throw err, opened_host h v)) as (err & Hp & Ea).
  { destruct r as [jobs|e|]; [subst jobs| |done]; cbn in E; eexists; (split; [|exact (start_failed a h _ _ E)]);
      [done|by apply wrapped_calm, wrapped_calm]. }
  destruct (locked_loop rest (opened_host h v) Hcs Hls eq_refl) as (l & El & Hl & Hn & He & Hh).
  eexists. split; [done|]. cbn [start_loop]. rewrite Ea. cbn [panics]. rewrite Hp, Hs, El. cbn.
  split; [constructor; [by exists err|]|split; [by rewrite Hn|split; [done|exact Hh]]].
  eapply Forall_impl; [exact Hl|]. intros x (e & Ex & _). by exists e.
Qed.
End Init.

(** * The loop serves *)

Section Loop.
Context {U256 : Uint256} {UL : Uint256Laws U256} {PH : Poseidon} {PL : PoseidonLaws PH} {GE : GoEnv}.
Context {KV : KVDatabase} {KL : KVDatabaseLaws KV} {KI : KVIterator KV} {KIL : KVIteratorLaws KL KI}.
Context {JC : JobCodec} {JD : JobDecoder} {JL : JobCodecLaws JC JD}.
Context {MC : MetadataCodec} {ML : MetadataCodecLaws MC} {RC : RegistryContract}.
Context {CE : ContractEvents} {GS : GoScheduler} {GL : GoSchedulerLaws GS}.
Context {HA : HexAddress} {HL : HexAddressLaws HA} {UT : Uint256Text} {TL : Uint256TextLaws UT}.
Context (events : string -> gobytes) (topics : list (list gobytes)).
Context (Habi : GetAbi = inr events) (Htopics : MakeTopics [[events EventCertificateProcessed]] = inr topics).
Context (js0 : list live_job) (network : JobDescriptor -> Z -> list Log).
Context (Hjobs : forall k j, js0 !! k = Some j -> live_job_ok events j /\ fresh_job k j).
Context (Hnd : NoDup (addresses js0)) (Hcf : Forall configured js0) (Hlen : (length js0 <= 256)%nat).
Context (Hnet : forall k j, js0 !! k = Some j -> network (lj_descriptor j) = lj_chain j).

#[local] Abbreviation serves := (serves events js0).

(** Of every job, a first block that is not indexed, and a later one. *)
Definition progress (P P' : list (JobDescriptor * Z)) : Prop :=
  forall jd b, (jd, b) ∈ P -> exists b', (jd, b') ∈ P' /\ b <= b'.

#[local] Instance progress_preorder : PreOrder progress.
Proof.
  split.
  - intros P jd b H. by exists b.
  - intros P1 P2 P3 H1 H2 jd b H. destruct (H1 jd b H) as (b1 & Hin & Hle). destruct (H2 jd b1 Hin) as (b2 & ? & ?).
    exists b2. split; [done|lia].
Qed.

Lemma progress_perm (P P' : list (JobDescriptor * Z)) : P ≡ₚ P' -> progress P P'.
Proof. intros E jd b H. exists b. rewrite <- E. by split. Qed.

Lemma forward_progress (js : list live_job) (A A' : spec_state) :
  forward (sp_jobs A) (sp_jobs A') -> progress (indexed_blocks js A) (indexed_blocks js A').
Proof.
  intros Hf jd b H. apply list_elem_of_lookup in H as [k Hk]. unfold indexed_blocks in *.
  apply lookup_zip_with_Some in Hk as (j & x & [= -> ->] & Ej & Ex). destruct (Hf k x Ex) as (x' & Ex' & Hle).
  exists (sj_done x'). split; [|done]. apply list_elem_of_lookup. exists k. apply lookup_zip_with_Some.
      by exists j, x'.
Qed.

(** ** Databases of the service *)

(** The database of a service that serves the configured registries, or a new one; with the
    first block of every job that is not indexed. *)
Definition served (d : DB) (P : list (JobDescriptor * Z)) : Prop :=
  exists s js A, serves s js A /\ sv_db (lv_service s) = d /\ P = indexed_blocks js A.

Definition holds (d : DB) (P : list (JobDescriptor * Z)) : Prop :=
  (contents d = ∅ /\ P = map (fun j => (lj_descriptor j, lj_first j)) js0) \/ served d P.

(** The application starts on such a database, with all that is indexed: on a new one when the
    contracts answer, on another whatever they answer. *)
Lemma holds_starts (d : DB) (P : list (JobDescriptor * Z)) (contract : RegistryContract) (mode : Mode) (w : world) :
  mode <> ModeWS -> context_active -> holds d P -> served d P \/ contract = RC ->
  exists v c js A, runs (configureZkCertificateRegistry (RC := contract) (addresses js0)) (NewService d w)
      (map lj_descriptor js0) v /\
    runs (RunIndexer_start (map lj_descriptor js0)) (NewConfigurator v) tt c /\
    serves (live_of mode c) js A /\ progress P (indexed_blocks js A).
Proof.
  intros Hmode Hctx Hh Hc. assert (served d P \/ contract = RC /\ contents d = ∅ /\
    P = map (fun j => (lj_descriptor j, lj_first j)) js0) as [(s & js & A & Hs & <- & ->)|(-> & He & ->)]
    by (destruct Hh as [[? ?]|?], Hc as [?|?]; tauto).
  - destruct (restart_serves events topics Habi Htopics js0 Hjobs Hnd Hcf Hlen s js A contract mode w Hmode Hctx Hs)
      as (v & c & js' & A' & Rv & Rc & Hs' & Hb).
    exists v, c, js', A'. do 3 (split; [done|]). by apply progress_perm.
  - destruct (first_start_serves events topics Habi Htopics js0 Hjobs Hnd Hcf Hlen d mode w Hmode Hctx He)
      as (v & c & js & A & Rv & Rc & Hs & Hb).
    exists v, c, js, A. do 3 (split; [done|]). by apply progress_perm.
Qed.

(** While it runs, what is indexed stays. *)
Lemma live_steps_serve (acts : list live_action) (s : live_state) (js : list live_job) (A : spec_state) :
  context_active -> Forall action_ok acts -> serves s js A ->
  exists A', serves (live_steps network acts s) js A' /\ progress (indexed_blocks js A) (indexed_blocks js A').
Proof.
  intros Hctx Hacts. revert s A. induction Hacts as [|act acts Hact _ IH]; intros s A Hs; cbn [live_steps].
  { by exists A. }
  destruct (step_serves events js0 network Hlen Hnet s js A act Hctx Hact Hs) as (out & s1 & A1 & E & Hdo & H1).
  rewrite E. cbn [snd]. destruct (IH s1 A1 H1) as (A2 & H2 & Hp). exists A2. split; [done|].
  etransitivity; [|exact Hp]. apply forward_progress.
  destruct Hs as (_ & Hok & _ & Hl). by apply (spec_forward js s A A1 act out).
Qed.

(** ** Iterations *)

Context (config : ApplicationConfig) (Hconfig : App_ZkCertificateRegistry config = addresses js0) (Hsome : js0 <> []).
Context (Hends : forall k err, job_result k = Some err -> is_panic err = false).
Context (Hmode : Config_IndexerMode (NewEVMIndexer (App_IndexerConfig config)) <> ModeWS).

(** The package opens files that are not open and finds what was written to them; connecting
    does not panic; the report at the end is in time. *)
Record fair (a : attempt) : Prop := {
  fa_calm : calm config a;
  fa_opens : forall files, opens_db config a false files = inr files;
  fa_steps : Forall action_ok (at_steps a);
  fa_report : context_active (GE := at_report a);
}.

(** The first iteration that reaches the node finds contracts that answer. *)
Definition contracts_answer (attempts : list attempt) : Prop :=
  match find (connects config) (tried attempts) with Some a => at_contract a = RC | None => True end.

(** What [Wait] sends are errors of jobs. *)
Lemma wait_errors (c : Configurator) (err : go_error) : head (Wait c) = Some err -> is_panic err = false.
Proof.
  intros E. assert (err ∈ Wait c) as Hin by (destruct (Wait c); [done|injection E as ->; by left]).
  unfold Wait in Hin. apply list_elem_of_omap in Hin as (jd & _ & H).
  destruct (cf_jobs c !! jd) as [k|]; [|done]. cbn in H. destruct (job_result k) as [e|] eqn:Ek; [|done]. cbn in H.
  destruct (is_canceled e); [done|]. injection H as <-. by apply (Hends k).
Qed.

Lemma report_ok (a : attempt) (s : live_state) (js : list live_job) (A : spec_state) :
  fair a -> serves s js A -> RunIndexer_report a (sv_db (lv_service s)) = Ok tt.
Proof.
  intros Hf (_ & _ & _ & [_ _ _ _ (table & Hst & _) _]). unfold RunIndexer_report.
  by destruct (SelectAllJobs_ok (GE := at_report a) (sv_db (lv_service s)) table (mkWorld 0 0) (fa_report a Hf) Hst)
    as (jobs & w & -> & _).
Qed.

(** The application runs and ends: its database is that of the service after its last step. *)
Lemma connected_attempt (a : attempt) (h : host) (P : list (JobDescriptor * Z)) :
  context_active -> fair a -> connects config a = true -> ho_opened h = false -> holds (ho_db h) P ->
  served (ho_db h) P \/ at_contract a = RC ->
  exists s js A w, StartApplication network config a h = (Ok tt, mkHost (sv_db (lv_service s))
      false (ho_clients h) w) /\
    serves s js A /\ progress P (indexed_blocks js A).
Proof.
  intros Hctx Hf Hc Ho Hh Hans. set (ix := NewEVMIndexer (App_IndexerConfig config)) in *.
  destruct (holds_starts (ho_db h) P (at_contract a) (Config_IndexerMode ix) (ho_world h) Hmode Hctx Hh Hans)
    as (v & c & js & A & Rv & Rc & Hs & Hp).
  destruct (live_steps_serve (at_steps a) (live_of (Config_IndexerMode ix) c) js A Hctx (fa_steps a Hf) Hs)
    as (A' & Hs' & Hp').
  set (s := live_steps network (at_steps a) (live_of (Config_IndexerMode ix) c)) in *.
  exists s, js, A', (sv_world (lv_service s)). split; [|split; [done|by etransitivity]].
  destruct (init_opened config a h (ho_db h) (Ok (map lj_descriptor js0)) v Hc) as (app & E & Es & Ej).
  { rewrite Ho. apply (fa_opens a Hf). }
  { unfold configures. rewrite Hconfig. exact Rv. }
  assert (map lj_descriptor js0 <> []) as Hne by (by destruct js0). destruct (Ej _ eq_refl Hne) as [Ejobs Eix].
  assert ((length (map lj_descriptor js0) =? 0)%nat = false) as E0 by (by destruct js0).
  cbn [wrap_res res_bind] in E. rewrite E0 in E.
  unfold StartApplication. rewrite E. destruct (run_indexer_opened network a app h v ix Es Eix) as (app' & Er).
  rewrite Er, Ejobs. clear Er. unfold runs in Rc. unfold RunIndexer_service. rewrite !Rc. fold s. cbn [fst snd].
  rewrite !(report_ok a s js A' Hf Hs').
  destruct (at_wake a); [done|]. destruct (head (Wait c)) as [err|] eqn:Ew; [|done]. cbn.
  by rewrite (wait_errors c err Ew).
Qed.

(** The iterations that connect run the application, the others fail. *)
Definition runs_if_connected (a : attempt) (r : gores unit) : Prop :=
  if connects config a then r = Ok tt else exists err, r = Throw err.

(** The connections that are left open: a first request that failed. *)
Definition count_lost (l : list attempt) : nat :=
  sum_list_with (fun a => if dialled config a && negb (connects config a) then 1 else 0)%nat l.

Lemma attempt_holds (a : attempt) (h : host) (P : list (JobDescriptor * Z)) :
  context_active -> fair a -> ho_opened h = false -> holds (ho_db h) P ->
  (connects config a = true -> served (ho_db h) P \/ at_contract a = RC) ->
  exists r h' P', StartApplication network config a h = (r, h') /\ panics r = false /\ runs_if_connected a r /\
    ho_opened h' = false /\ ho_clients h' = (ho_clients h + count_lost [a])%nat /\
    holds (ho_db h') P' /\ progress P P' /\ (served (ho_db h) P \/ connects config a = true -> served (ho_db h') P').
Proof.
  intros Hctx Hf Ho Hh Hans. unfold runs_if_connected, count_lost. destruct (connects config a) eqn:Hc.
  - destruct (connected_attempt a h P Hctx Hf Hc Ho Hh (Hans eq_refl)) as (s & js & A & w & E & Hs & Hp).
    eexists _, _, (indexed_blocks js A). split; [exact E|]. cbn. rewrite Hc, andb_false_r. do 3 (split; [done|]).
    assert (served (sv_db (lv_service s)) (indexed_blocks js A)) as Hd by (by exists s, js, A).
    split; [lia|]. split; [by right|done].
  - destruct (unconnected_attempt network config a h (fa_calm a Hf) Hc) as (err & He & E).
    eexists _, _, P. split; [exact E|]. cbn. rewrite Hc, andb_true_r. split; [done|]. split; [by exists err|].
    destruct (dialled config a); cbn; (split; [done|]); (split; [lia|]); (split; [done|]); (split; [done|]);
      by intros [|].
Qed.

(** The contracts matter for the iterations up to the first that reaches the node. *)
Lemma contracts_cons (a : attempt) (attempts : list attempt) (d d' : DB) (P P' : list (JobDescriptor * Z)) :
  served d P \/ contracts_answer (a :: attempts) ->
  (connects config a = true -> served d P \/ at_contract a = RC) /\
  (at_stop a = false -> (served d P \/ connects config a = true -> served d' P') ->
     served d' P' \/ contracts_answer attempts).
Proof.
  unfold contracts_answer. cbn [tried find]. intros H. split.
  - intros E. by rewrite E in H.
  - intros E Hd. rewrite E in H. destruct (connects config a); [left; apply Hd; by right|].
    destruct H as [H|H]; [left; apply Hd; by left|by right].
Qed.

Lemma loop_holds (attempts : list attempt) (h : host) (P : list (JobDescriptor * Z)) :
  context_active -> Forall fair attempts -> ho_opened h = false -> holds (ho_db h) P ->
  served (ho_db h) P \/ contracts_answer attempts ->
  exists l P', start_loop network config attempts h = l /\
    Forall2 runs_if_connected (tried attempts) (lr_results l) /\
    lr_end l = (if existsb at_stop attempts then LoopStops else LoopRuns) /\
    ho_opened (lr_host l) = false /\ ho_clients (lr_host l) = (ho_clients h + count_lost (tried attempts))%nat /\
    holds (ho_db (lr_host l)) P' /\ progress P P' /\
    (served (ho_db h) P \/ existsb (connects config) (tried attempts) = true -> served (ho_db (lr_host l)) P').
Proof.
  intros Hctx Hf. revert h P.
  induction Hf as [|a attempts Ha _ IH]; intros h P Ho Hh Hans; cbn [start_loop tried existsb].
  { eexists _, P. split; [done|]. cbn. repeat split; [constructor|done|lia|done|done|by intros [|]]. }
  destruct (attempt_holds a h P Hctx Ha Ho Hh) as (r & h' & P1 & -> & -> & Hr & Ho' & Hc & Hh' & Hp & Hd).
  { by apply (contracts_cons a attempts _ (ho_db h) P P). }
  unfold count_lost in *. cbn [sum_list_with] in Hc.
  destruct (at_stop a) eqn:Es; cbn [orb].
  { eexists _, P1. split; [done|]. cbn [lr_results lr_end lr_host sum_list_with]. repeat split; try done.
    - by repeat constructor.
    - cbn [existsb]. by rewrite orb_false_r. }
  destruct (IH h' P1 Ho' Hh') as (l & P2 & -> & H1 & H2 & H3 & H4 & H5 & H6 & H7).
  { by apply (contracts_cons a attempts (ho_db h) _ P). }
  eexists _, P2. split; [done|].
  cbn [lr_results lr_end lr_host sum_list_with]. rewrite H4, Hc. repeat split; try done;
      [by constructor|lia|by etransitivity|].
  cbn [existsb]. rewrite orb_true_iff. tauto.
Qed.

(** C3: the loop of the start command, in every mode but the one with a WebSocket subscription.
    On a database that a service left behind, or on a new one when the contracts answer at the
    first start that reaches the node, however often the node cannot be reached or its first
    request fails, and whenever the application ends by itself or is stopped: every iteration
    that reaches the node starts the application and runs it; the others fail and leave the
    database alone.  The database is always closed in between, and it is one of a service that
    serves exactly the configured registries, in which every block that was indexed before
    still is.  The only connections left open are those whose first request failed.  A contract
    that does not answer at a first start is the case of C13; later the contracts are not
    asked.  Assumed of the database package: closed files can be opened and hold what was
    written ([fair]). *)
Theorem restart_loop_serves (attempts : list attempt) (h : host) (P : list (JobDescriptor * Z)) :
  context_active -> Forall fair attempts -> ho_opened h = false -> holds (ho_db h) P ->
  served (ho_db h) P \/ contracts_answer attempts ->
  exists l P', start_loop network config attempts h = l /\
    Forall2 runs_if_connected (tried attempts) (lr_results l) /\
    lr_end l = (if existsb at_stop attempts then LoopStops else LoopRuns) /\
    ho_opened (lr_host l) = false /\ ho_clients (lr_host l) = (ho_clients h + count_lost (tried attempts))%nat /\
    holds (ho_db (lr_host l)) P' /\ progress P P' /\
    (served (ho_db h) P \/ existsb (connects config) (tried attempts) = true -> served (ho_db (lr_host l)) P').
Proof. apply loop_holds. Qed.
End Loop.

(** * Witnesses *)

(** A database with a lock, and attempts. *)
Definition lock_NewDB (name backend path : string) (opened : bool) (files : DB) : go_error + DB :=
  if opened then inl (ExternalError 11) else inr files.

Definition toy_attempt (dials : option go_error) (block : go_error + Z) (contract : RegistryContract)
    (steps : list live_action) (stop : bool) : attempt :=
  mkAttempt (fun _ => dials) block lock_NewDB contract steps WakeCtxDone toy_active stop.

Definition toy_app_config : ApplicationConfig :=
  mkApplicationConfig "ws://localhost:8546" "/home/user/.galacticad-merkle/db" "goleveldb" (addresses
      toy_configuration)
    (mkQueryServerConfig "localhost:50651" "localhost:8480") (mkConfig 10000 100 5 ModePoll 1).

Definition new_host : host := mkHost ∅ false 0 (mkWorld 0 0).

Definition silent_attempt : attempt := toy_attempt None (inr 200) silent_contract [] false.
Definition later_attempts : list attempt :=
  [toy_attempt None (inr 200) toy_contract [] false; toy_attempt (Some (ExternalError 2)) (inr 200)
      toy_contract [] true].

Lemma toy_attempt_calm (config : ApplicationConfig) (dials : option go_error) (block : go_error + Z)
    (contract : RegistryContract) (steps : list live_action) (stop : bool) :
  match dials with Some err => is_panic err = false | None => True end ->
  match block with inl err => is_panic err = false | inr _ => True end ->
  calm config (toy_attempt dials block contract steps stop).
Proof. intros Hd Hb. split; cbn; intros err E; by rewrite E in *. Qed.

(** The contract does not answer at the first start, and does at the second: the database is
    still open, and the second start fails as well. *)
Lemma failed_init_blocks_restarts_witness :
  exists l, start_loop (JC := flat_codec) toy_network toy_app_config (silent_attempt :: later_attempts)
      new_host = l /\
    Forall (fun r => exists err, r = Throw err) (lr_results l) /\ length (lr_results l) = 3%nat /\
    lr_end l = LoopStops /\ ho_opened (lr_host l) = true /\ ho_clients (lr_host l) = 2%nat.
Proof.
  destruct (failed_init_blocks_restarts (JC := flat_codec) toy_network toy_app_config silent_attempt later_attempts
    new_host ∅ (fst (configures toy_app_config silent_attempt ∅ (mkWorld 0 0)))
    (snd (configures toy_app_config silent_attempt ∅ (mkWorld 0 0)))) as (l & El & Hr & Hl & He & Hh).
  - reflexivity.
  - reflexivity.
  - apply surjective_pairing.
  - vm_compute. reflexivity.
  - reflexivity.
  - repeat (constructor; [by apply toy_attempt_calm|]). constructor.
  - repeat constructor; intros files; by exists (ExternalError 11).
  - exists l. split; [exact El|]. split; [exact Hr|]. split; [exact Hl|]. split; [exact He|]. by rewrite Hh.
Defined.

(** The node cannot be reached, then the service runs and indexes a certificate, then the
    node does not answer, and then the service runs again, though the contracts do not answer,
    and is stopped. *)
Definition toy_attempts : list attempt :=
  [toy_attempt (Some (ExternalError 2)) (inr 200) toy_contract [] false;
   toy_attempt None (inr 200) toy_contract [Fill 0 102; WriteBatch 0; Fill 0 103] false;
   toy_attempt None (inl (ExternalError 3)) toy_contract [] false;
   toy_attempt None (inr 200) silent_contract [] true].

Lemma toy_attempts_fair : Forall (fair toy_app_config) toy_attempts.
Proof.
  repeat (constructor; [split; [by apply toy_attempt_calm|done|by repeat constructor|exact
      toy_active_context]|]).
  constructor.
Qed.

Lemma restart_loop_serves_witness :
  exists l P', start_loop (JC := flat_codec) toy_network toy_app_config toy_attempts new_host = l /\
    length (lr_results l) = 4%nat /\ lr_end l = LoopStops /\ ho_opened (lr_host l) = false /\
    ho_clients (lr_host l) = 1%nat /\
    served (JC := flat_codec) (fun _ => [1]) toy_configuration (ho_db (lr_host l)) P' /\
    progress [(first_job, 16); (second_job, 17)] P'.
Proof.
  destruct (restart_loop_serves (JC := flat_codec) (CE := toy_events) (fun _ => [1]) [[[1]]] eq_refl eq_refl
      toy_configuration toy_network toy_configuration_ok) with (config := toy_app_config) (attempts := toy_attempts)
      (h := new_host) (P := [(first_job, 16); (second_job, 17)])
    as (l & P' & El & Hr & He & Ho & Hc & _ & Hp & Hs).
  - by apply (bool_decide_eq_true_1 _); vm_compute.
  - repeat constructor.
  - cbn. lia.
  - intros [|[|k]] j; [| |done]; intros [= <-]; reflexivity.
  - reflexivity.
  - done.
  - intros k err E. by destruct k.
  - discriminate.
  - exact toy_active_context.
  - exact toy_attempts_fair.
  - reflexivity.
  - left. split; [reflexivity|reflexivity].
  - right. reflexivity.
  - exists l, P'. split; [exact El|]. apply Forall2_length in Hr. split; [by rewrite <- Hr|].
    split; [exact He|]. split; [exact Ho|]. split; [exact Hc|]. split; [|exact Hp]. apply Hs. by right.
Defined.
