(* ===== verification/JsNumber.v ===== *)
(** The JavaScript [string] and [number] types, as far as the TypeScript sources use
    them: UTF-16 strings, IEEE 754 binary64 numbers in a canonical form, [Number(s)] on
    strings (ECMA-262 StringToNumber), [String(n)] on numbers (Number::toString) and
    [Math.round]. *)

From stdpp Require Import base list numbers strings.
From Stdlib Require Import Ascii ZArith Lia.
From S2P Require Import Prelude.
Local Open Scope Z_scope.

(** * Strings: sequences of 16-bit code units *)
Abbreviation jsstring := (list Z).

(** A source literal; the sources only use ASCII ones. *)
Definition js (s : string) : jsstring :=
  map (fun a => Z.of_N (N_of_ascii a)) (String.list_ascii_of_string s).

(** [a === b] on strings. *)
Definition str_eqb (a b : jsstring) : bool := bool_decide (a = b).

Lemma str_eqb_refl (s : jsstring) : str_eqb s s = true.
Proof. by apply bool_decide_eq_true. Qed.

Lemma str_eqb_spec (a b : jsstring) : str_eqb a b = true <-> a = b.
Proof. apply bool_decide_eq_true. Qed.

Definition high_surrogate (c : Z) : bool := (0xD800 <=? c) && (c <=? 0xDBFF).
Definition low_surrogate (c : Z) : bool := (0xDC00 <=? c) && (c <=? 0xDFFF).

(** [String.prototype.isWellFormed]: every code unit is in range and surrogates pair up. *)
Fixpoint well_formed (s : jsstring) : bool :=
  match s with
  | [] => true
  | c :: s' =>
      (0 <=? c) && (c <=? 0xFFFF) && negb (low_surrogate c) &&
      (if high_surrogate c then
         match s' with
         | d :: s'' => low_surrogate d && well_formed s''
         | [] => false
         end
       else well_formed s')
  end.

(** * Numbers

    Every binary64 value has exactly one form: [Frac m k] is [m / 2^k] with [m] odd, so a
    value with an integral real part is [Int] (or [NegZero]). *)
Inductive number : Type :=
| NaN
| Infinity (negative : bool)
| NegZero
| Int (z : Z)
| Frac (m : Z) (k : positive).
Coercion Int : Z >-> number.

#[export] Instance number_eq_dec : EqDecision number.
Proof. solve_decision. Defined.

(** [a === b] on numbers: [NaN] differs from itself and the two zeros are equal. *)
Definition num_eqb (a b : number) : bool :=
  match a, b with
  | NaN, _ | _, NaN => false
  | NegZero, Int 0 | Int 0, NegZero => true
  | _, _ => bool_decide (a = b)
  end.

(** A finite number as a fraction [p / 2^k]. *)
Definition num_ratio (x : number) : option (Z * Z) :=
  match x with
  | NegZero => Some (0, 1)
  | Int z => Some (z, 1)
  | Frac m k => Some (m, 2 ^ Zpos k)
  | _ => None
  end.

(** [a < b] on numbers. *)
Definition num_ltb (a b : number) : bool :=
  match a, b with
  | NaN, _ | _, NaN => false
  | Infinity na, Infinity nb => na && negb nb
  | Infinity na, _ => na
  | _, Infinity nb => negb nb
  | _, _ =>
      match num_ratio a, num_ratio b with
      | Some (p, q), Some (p', q') => p * q' <? p' * q
      | _, _ => false
      end
  end.

(** [Math.round]: the nearest integer, ties towards plus infinity, keeping a zero's sign. *)
Definition math_round (x : number) : number :=
  match x with
  | Frac m k =>
      let r := (2 * m + 2 ^ Zpos k) / 2 ^ (Zpos k + 1) in
      if (r =? 0) && (m <? 0) then NegZero else Int r
  | _ => x
  end.

(** ** Rounding a non-negative fraction to binary64, ties to even *)

(** [m * 2^u] in canonical form, for [m > 0]. *)
Fixpoint strip_twos (m : positive) (k : positive) : number :=
  match m with
  | xO m' => match Pos.pred_N k with
             | N0 => Int (Zpos m')
             | Npos k' => strip_twos m' k'
             end
  | _ => Frac (Zpos m) k
  end.

Definition dyadic (m : positive) (u : Z) : number :=
  match u with
  | Zneg k => strip_twos m k
  | _ => Int (Zpos m * 2 ^ u)
  end.

Definition div_half_even (p q : Z) : Z :=
  let d := p / q in
  match 2 * (p mod q) ?= q with
  | Lt => d
  | Gt => d + 1
  | Eq => if Z.even d then d else d + 1
  end.

(** [floor (log2 (p / q))] for [p, q > 0]. *)
Definition log2_ratio (p q : Z) : Z :=
  let e := Z.log2 p - Z.log2 q in
  if (if 0 <=? e then q * 2 ^ e <=? p else q <=? p * 2 ^ (- e)) then e else e - 1.

(** The binary64 value nearest to [p / q], for [p >= 0] and [q > 0]. *)
Definition round_ratio (p q : Z) : number :=
  if p =? 0 then Int 0 else
  let u := Z.max (log2_ratio p q - 52) (-1074) in
  let m := if 0 <=? u then div_half_even p (q * 2 ^ u) else div_half_even (p * 2 ^ (- u)) q in
  if 2 ^ 53 * 2 ^ 971 <=? m * 2 ^ Z.max u 0 then Infinity false
  else match m with
       | Zpos m' => dyadic m' u
       | _ => Int 0
       end.

Definition num_neg (x : number) : number :=
  match x with
  | NaN => NaN
  | Infinity b => Infinity (negb b)
  | NegZero => Int 0
  | Int z => if z =? 0 then NegZero else Int (- z)
  | Frac m k => Frac (- m) k
  end.

(** The value of [digits * 10^e]. *)
Definition round_decimal (d e : Z) : number :=
  if 0 <=? e then round_ratio (d * 10 ^ e) 1 else round_ratio d (10 ^ (- e)).

(** ** Decimal digits *)

Definition is_digit (c : Z) : bool := (48 <=? c) && (c <=? 57).

(** The decimal digits of [n >= 0], most significant first, before [acc]. *)
Fixpoint dec_digits (fuel : nat) (n : Z) (acc : jsstring) : jsstring :=
  match fuel with
  | O => acc
  | S fuel' =>
      let acc' := 48 + n mod 10 :: acc in
      if n <? 10 then acc' else dec_digits fuel' (n / 10) acc'
  end.

(** [n] in decimal; a number has at most as many decimal digits as binary ones. *)
Definition dec_of_nonneg (n : Z) : jsstring := dec_digits (S (Z.to_nat (Z.log2 n))) n [].

(** [toString()] of an integer of any size (a [bigint]). *)
Definition dec_of_Z (z : Z) : jsstring :=
  if z <? 0 then 45 :: dec_of_nonneg (- z) else dec_of_nonneg z.

(** Reads the longest prefix of digits: their value, their number, and the rest. *)
Fixpoint read_digits (acc : Z) (n : nat) (s : jsstring) : Z * nat * jsstring :=
  match s with
  | c :: s' => if is_digit c then read_digits (10 * acc + (c - 48)) (S n) s' else (acc, n, s)
  | [] => (acc, n, [])
  end.

(** ** [Number(s)] on strings *)

Definition is_js_space (c : Z) : bool :=
  bool_decide (c ∈ [9; 10; 11; 12; 13; 32; 0xA0; 0x1680; 0x2000; 0x2001; 0x2002; 0x2003; 0x2004;
                    0x2005; 0x2006; 0x2007; 0x2008; 0x2009; 0x200A; 0x2028; 0x2029; 0x202F;
                    0x205F; 0x3000; 0xFEFF]).

Fixpoint trim_left (s : jsstring) : jsstring :=
  match s with
  | c :: s' => if is_js_space c then trim_left s' else s
  | [] => []
  end.

Definition trim (s : jsstring) : jsstring := rev (trim_left (rev (trim_left s))).

Definition digit_value (c : Z) : Z :=
  if is_digit c then c - 48
  else if (97 <=? c) && (c <=? 122) then c - 87
  else if (65 <=? c) && (c <=? 90) then c - 55
  else 99.

Fixpoint radix_value (radix : Z) (acc : Z) (s : jsstring) : option Z :=
  match s with
  | [] => Some acc
  | c :: s' => if digit_value c <? radix then radix_value radix (radix * acc + digit_value c) s'
               else None
  end.

(** A NonDecimalIntegerLiteral without its prefix. *)
Definition radix_number (radix : Z) (s : jsstring) : number :=
  match s, radix_value radix 0 s with
  | _ :: _, Some v => round_ratio v 1
  | _, _ => NaN
  end.

(** The optional exponent part; [None] when the text is malformed. *)
Definition read_exponent (s : jsstring) : option Z :=
  match s with
  | [] => Some 0
  | c :: s' =>
      if (c =? 101) || (c =? 69) then
        let '(neg, s'') := match s' with
                           | 45 :: t => (true, t)
                           | 43 :: t => (false, t)
                           | _ => (false, s')
                           end in
        match read_digits 0 0 s'' with
        | (v, S _, []) => Some (if neg then - v else v)
        | _ => None
        end
      else None
  end.

(** StrUnsignedDecimalLiteral. *)
Definition unsigned_decimal (s : jsstring) : number :=
  if str_eqb s (js "Infinity") then Infinity false else
  let '(ip, ni, s1) := read_digits 0 0 s in
  let '(m, nf, s2) := match s1 with
                      | 46 :: t => let '(m, n, t') := read_digits ip 0 t in (m, n, t')
                      | _ => (ip, O, s1)
                      end in
  if (ni + nf =? 0)%nat then NaN
  else match read_exponent s2 with
       | Some e => round_decimal m (e - Z.of_nat nf)
       | None => NaN
       end.

(** StringToNumber. *)
Definition string_to_number (s : jsstring) : number :=
  match trim s with
  | [] => Int 0
  | 48 :: 120 :: t | 48 :: 88 :: t => radix_number 16 t
  | 48 :: 111 :: t | 48 :: 79 :: t => radix_number 8 t
  | 48 :: 98 :: t | 48 :: 66 :: t => radix_number 2 t
  | 45 :: t => num_neg (unsigned_decimal t)
  | 43 :: t => unsigned_decimal t
  | t => unsigned_decimal t
  end.

(** ** [String(n)] on numbers *)

(** The least [n] with [p / q < 10^n], found from an estimate that is never too small. *)
Fixpoint dec_exponent (fuel : nat) (n p q : Z) : Z :=
  match fuel with
  | O => n
  | S fuel' =>
      let below := if 0 <=? n - 1 then p <? q * 10 ^ (n - 1) else p * 10 ^ (1 - n) <? q in
      if below then dec_exponent fuel' (n - 1) p q else n
  end.

(** Looks for the shortest decimal [s * 10^(n-k)] that reads back as [x = p / q]; 17 digits
    always suffice for binary64. *)
Fixpoint shortest (fuel : nat) (k : Z) (n p q : Z) (x : number) : Z * Z :=
  let sc := n - k in
  let a := if 0 <=? sc then p else p * 10 ^ (- sc) in
  let b := if 0 <=? sc then q * 10 ^ sc else q in
  let lo := a / b in
  let hi := lo + 1 in
  let ok s := bool_decide (round_decimal s sc = x) in
  let lo_closer := 2 * (a mod b) <=? b in
  let first := if lo_closer then lo else hi in
  let second := if lo_closer then hi else lo in
  if ok first then (first, k)
  else if ok second then (second, k)
  else match fuel with
       | O => (first, k)
       | S fuel' => shortest fuel' (k + 1) n p q x
       end.

(** The layout rules of Number::toString for digits [s] ([k] of them) and exponent [n]. *)
Definition layout (s k n : Z) : jsstring :=
  let ds := dec_of_nonneg s in
  if (k <=? n) && (n <=? 21) then ds ++ repeat 48 (Z.to_nat (n - k))
  else if (0 <? n) && (n <=? 21) then
    take (Z.to_nat n) ds ++ [46] ++ drop (Z.to_nat n) ds
  else if (-6 <? n) && (n <=? 0) then
    js "0." ++ repeat 48 (Z.to_nat (- n)) ++ ds
  else
    let e := (if 0 <? n then [43] else [45]) ++ dec_of_nonneg (Z.abs (n - 1)) in
    if k =? 1 then ds ++ [101] ++ e
    else take 1 ds ++ [46] ++ drop 1 ds ++ [101] ++ e.

Definition positive_to_string (p q : Z) (x : number) : jsstring :=
  let n := dec_exponent 1100 (if q <=? p then Z.log2 (p / q) + 1 else 1) p q in
  let '(s, k) := shortest 17 1 n p q x in
  if s =? 10 ^ k then layout 1 1 (n + 1) else layout s k n.

(** Number::toString.  Integers below [2^53] print exactly. *)
Definition number_to_string (x : number) : jsstring :=
  match x with
  | NaN => js "NaN"
  | Infinity false => js "Infinity"
  | Infinity true => js "-Infinity"
  | NegZero => js "0"
  | Int z =>
      if Z.abs z <? 2 ^ 53 then dec_of_Z z
      else if z <? 0 then 45 :: positive_to_string (- z) 1 (Int (- z))
      else positive_to_string z 1 x
  | Frac m k =>
      if m <? 0 then 45 :: positive_to_string (- m) (2 ^ Zpos k) (Frac (- m) k)
      else positive_to_string m (2 ^ Zpos k) x
  end.

(** * Facts *)

Lemma num_eqb_neq_zero (x : number) :
  num_eqb x (Int 0) = false -> x <> Int 0.
Proof. by intros H ->. Qed.

Lemma num_eqb_zero (x : number) :
  x <> NegZero -> num_eqb x (Int 0) = true -> x = Int 0.
Proof.
  destruct x as [| | |[]|]; cbn; try done; intros _ H%bool_decide_eq_true; done.
Qed.

Lemma dec_digits_acc (fuel : nat) (n : Z) (acc : jsstring) :
  dec_digits fuel n acc = dec_digits fuel n [] ++ acc.
Proof.
  revert n acc. induction fuel as [|fuel IH]; intros n acc; cbn [dec_digits]; [done|].
  destruct (n <? 10); [done|].
  rewrite (IH _ (_ :: acc)), (IH _ [_]), <- (assoc_L (++)). done.
Qed.

Lemma dec_digits_all (fuel : nat) (n : Z) (acc : jsstring) :
  Forall (fun c => is_digit c = true) acc ->
  Forall (fun c => is_digit c = true) (dec_digits fuel n acc).
Proof.
  revert n acc. induction fuel as [|fuel IH]; intros n acc Hacc; cbn [dec_digits]; [done|].
  assert (is_digit (48 + n mod 10) = true) as Hd.
  { unfold is_digit. pose proof (Z.mod_pos_bound n 10). lia. }
  destruct (n <? 10); [by constructor|]. apply IH. by constructor.
Qed.

Lemma read_digits_app (acc : Z) (k : nat) (s t : jsstring) :
  Forall (fun c => is_digit c = true) s ->
  read_digits acc k (s ++ t) =
    read_digits (fst (fst (read_digits acc k s))) (k + length s) t.
Proof.
  revert acc k. induction s as [|c s IH]; intros acc k Hs; cbn [app read_digits length].
  { cbn. by rewrite Nat.add_0_r. }
  apply Forall_cons in Hs as [Hc Hs]. rewrite Hc. rewrite IH by done.
  by rewrite Nat.add_succ_r.
Qed.

Lemma read_digits_all (acc : Z) (k : nat) (s : jsstring) :
  Forall (fun c => is_digit c = true) s ->
  read_digits acc k s = (fst (fst (read_digits acc k s)), (k + length s)%nat, []).
Proof.
  intros Hs. pose proof (read_digits_app acc k s [] Hs) as H. rewrite app_nil_r in H.
  rewrite H. done.
Qed.

(** Reading back the digits that were printed. *)
Lemma read_dec_digits (fuel : nat) (n : Z) (k : nat) :
  0 <= n < 2 ^ Z.of_nat fuel ->
  fst (fst (read_digits 0 k (dec_digits fuel n []))) = n.
Proof.
  revert n k. induction fuel as [|fuel IH]; intros n k Hn.
  { cbn in *. lia. }
  cbn [dec_digits]. destruct (Z.ltb_spec n 10) as [Hlt|Hge].
  - cbn [read_digits]. rewrite Z.mod_small by lia.
    replace (is_digit (48 + n)) with true by (unfold is_digit; lia). cbn. lia.
  - rewrite dec_digits_acc, read_digits_app by (apply dec_digits_all; constructor).
    rewrite IH.
    2:{ rewrite Nat2Z.inj_succ, Z.pow_succ_r in Hn by lia.
        split; [apply Z.div_pos; lia|apply Z.div_lt_upper_bound; lia]. }
    cbn [read_digits]. pose proof (Z.mod_pos_bound n 10).
    replace (is_digit (48 + n mod 10)) with true by (unfold is_digit; lia). cbn.
    pose proof (Z.div_mod n 10). lia.
Qed.

Lemma dec_of_nonneg_read (n : Z) :
  0 <= n -> fst (fst (read_digits 0 0 (dec_of_nonneg n))) = n.
Proof.
  intros Hn. apply read_dec_digits. split; [done|].
  rewrite Nat2Z.inj_succ, Z2Nat.id by apply Z.log2_nonneg.
  destruct (decide (n = 0)) as [->|]; [done|]. apply Z.log2_spec. lia.
Qed.

Lemma dec_of_nonneg_digits (n : Z) : Forall (fun c => is_digit c = true) (dec_of_nonneg n).
Proof. apply dec_digits_all. constructor. Qed.

Lemma dec_of_nonneg_nonempty (n : Z) : dec_of_nonneg n <> [].
Proof.
  unfold dec_of_nonneg. cbn [dec_digits]. destruct (n <? 10); [done|].
  rewrite dec_digits_acc. intros [_ [=]]%app_eq_nil.
Qed.

Lemma is_digit_cases (c : Z) :
  is_digit c = true ->
  c ∈ [48; 49; 50; 51; 52; 53; 54; 55; 56; 57].
Proof. unfold is_digit. intros H. rewrite !elem_of_cons. lia. Qed.

(** Case analysis on which digit a character is. *)
Ltac digit_cases H :=
  apply is_digit_cases in H; rewrite !elem_of_cons, elem_of_nil in H;
  repeat (destruct H as [->|H]); try (destruct H).

Lemma digit_not_space (c : Z) : is_digit c = true -> is_js_space c = false.
Proof. intros H. digit_cases H; done. Qed.

Lemma trim_left_nonspace (c : Z) (s : jsstring) :
  is_js_space c = false -> trim_left (c :: s) = c :: s.
Proof. intros H. cbn. by rewrite H. Qed.

(** A text whose first and last characters are not white space is already trimmed. *)
Lemma trim_nonspace (c d : Z) (s t : jsstring) :
  c :: s = t ++ [d] -> is_js_space c = false -> is_js_space d = false ->
  trim (c :: s) = c :: s.
Proof.
  intros E Hc Hd. unfold trim. rewrite trim_left_nonspace by done.
  rewrite E, rev_app_distr. cbn [rev app]. rewrite trim_left_nonspace by done.
  cbn [rev]. by rewrite rev_involutive.
Qed.

(** [Number] of a digit string is its value, rounded to binary64. *)
Lemma unsigned_decimal_digits (s : jsstring) :
  s <> [] -> Forall (fun c => is_digit c = true) s ->
  unsigned_decimal s = round_ratio (fst (fst (read_digits 0 0 s))) 1.
Proof.
  intros Hne Hs. unfold unsigned_decimal.
  destruct s as [|c s']; [done|].
  replace (str_eqb (c :: s') (js "Infinity")) with false.
  2:{ symmetry. apply bool_decide_eq_false. intros [= -> _].
      apply Forall_cons in Hs as [Hc _]. done. }
  rewrite read_digits_all by done. cbn [fst snd length Nat.add Nat.eqb read_exponent].
  unfold round_decimal. change (0 - Z.of_nat 0) with 0. change (10 ^ 0) with 1.
  cbn [Z.leb Z.compare]. by rewrite Z.mul_1_r.
Qed.

Lemma trim_digits (p s : jsstring) :
  s <> [] -> Forall (fun c => is_digit c = true) s -> p = [] \/ p = [45] ->
  trim (p ++ s) = p ++ s.
Proof.
  intros Hne Hs Hp. destruct (exists_last Hne) as (t & d & ->).
  apply Forall_app in Hs as [Ht Hd]. apply Forall_cons in Hd as [Hd%digit_not_space _].
  destruct Hp as [-> | ->].
  - destruct t as [|c t]; cbn [app].
    + by apply (trim_nonspace d d [] []).
    + apply Forall_cons in Ht as [Hc%digit_not_space _].
      by apply (trim_nonspace c d (t ++ [d]) (c :: t)).
  - by apply (trim_nonspace 45 d (t ++ [d]) (45 :: t)).
Qed.

Lemma string_to_number_digits (s : jsstring) :
  s <> [] -> Forall (fun c => is_digit c = true) s ->
  string_to_number s = unsigned_decimal s.
Proof.
  intros Hne Hs. unfold string_to_number.
  pose proof (trim_digits [] s Hne Hs (or_introl eq_refl)) as E. cbn [app] in E. rewrite E.
  destruct s as [|c [|d s]]; [done| |]; inversion_clear Hs as [|? ? Hc Hs'].
  - digit_cases Hc; done.
  - inversion_clear Hs' as [|? ? Hd Hs'']. digit_cases Hc; try done. digit_cases Hd; done.
Qed.

Lemma string_to_number_neg_digits (s : jsstring) :
  s <> [] -> Forall (fun c => is_digit c = true) s ->
  string_to_number (45 :: s) = num_neg (unsigned_decimal s).
Proof.
  intros Hne Hs. unfold string_to_number.
  pose proof (trim_digits [45] s Hne Hs (or_intror eq_refl)) as E. cbn [app] in E. by rewrite E.
Qed.

(** [Number(String(z))] for an integer [z] of any size is [z] rounded to binary64. *)
Lemma string_to_number_dec (z : Z) :
  string_to_number (dec_of_Z z) =
    if z <? 0 then num_neg (round_ratio (- z) 1) else round_ratio z 1.
Proof.
  unfold dec_of_Z. destruct (Z.ltb_spec z 0).
  - rewrite string_to_number_neg_digits, unsigned_decimal_digits, dec_of_nonneg_read;
      auto using dec_of_nonneg_nonempty, dec_of_nonneg_digits with lia.
  - rewrite string_to_number_digits, unsigned_decimal_digits, dec_of_nonneg_read;
      auto using dec_of_nonneg_nonempty, dec_of_nonneg_digits with lia.
Qed.

Lemma log2_ratio_int (z : Z) : 0 < z -> log2_ratio z 1 = Z.log2 z.
Proof.
  intros Hz. unfold log2_ratio. cbn [Z.log2]. rewrite Z.sub_0_r.
  pose proof (Z.log2_nonneg z). destruct (Z.leb_spec 0 (Z.log2 z)); [|lia].
  pose proof (Z.log2_spec z Hz) as [Hlo _].
  destruct (Z.leb_spec (1 * 2 ^ Z.log2 z) z); lia.
Qed.

Lemma strip_twos_shift (m k : positive) :
  strip_twos (Pos.iter xO m k) k = Int (Zpos m).
Proof.
  induction k as [|k IH] using Pos.peano_ind; [done|].
  rewrite Pos.iter_succ. cbn [strip_twos]. rewrite Pos.pred_N_succ. exact IH.
Qed.

Lemma div_half_even_1 (p : Z) : div_half_even p 1 = p.
Proof. unfold div_half_even. by rewrite Z.mod_1_r, Z.div_1_r. Qed.

Lemma div_half_even_ge (p q : Z) : p / q <= div_half_even p q.
Proof. unfold div_half_even. destruct (_ ?= _); [destruct (Z.even _)| |]; lia. Qed.

Lemma Zpos_iter_xO (m k : positive) : Zpos m * 2 ^ Zpos k = Zpos (Pos.iter xO m k).
Proof.
  induction k as [|k IH] using Pos.peano_ind; [cbn; lia|].
  rewrite Pos.iter_succ, Pos2Z.inj_succ, Z.pow_succ_r by lia.
  rewrite (Pos2Z.inj_xO (Pos.iter _ _ _)). lia.
Qed.

(** Integers below [2^53] are exact. *)
Lemma round_ratio_small (z : Z) : 0 <= z < 2 ^ 53 -> round_ratio z 1 = Int z.
Proof.
  intros Hz. unfold round_ratio. destruct (Z.eqb_spec z 0) as [->|Hnz]; [done|].
  rewrite log2_ratio_int by lia.
  assert (Hlog : 0 <= Z.log2 z <= 52).
  { split; [apply Z.log2_nonneg|]. apply Z.lt_succ_r, Z.log2_lt_pow2; lia. }
  rewrite Z.max_l by lia. rewrite (Z.max_r _ 0) by lia. rewrite Z.mul_1_r.
  destruct z as [|p|p]; try lia.
  destruct (Z.leb_spec 0 (Z.log2 (Zpos p) - 52)) as [Hu|Hu].
  - replace (Z.log2 (Zpos p) - 52) with 0 by lia. rewrite !Z.mul_1_l, Z.pow_0_r, div_half_even_1.
    destruct (Z.leb_spec (2 ^ 53 * 2 ^ 971) (Zpos p)) as [Hbig|_]; [|cbn; f_equal; lia].
    pose proof (Z.pow_pos_nonneg 2 971). nia.
  - rewrite div_half_even_1. destruct (Z.log2 (Zpos p) - 52) as [|k|k] eqn:Eu; try lia.
    change (- Zneg k) with (Zpos k). rewrite Zpos_iter_xO.
    destruct (Z.leb_spec (2 ^ 53 * 2 ^ 971) (Zpos (Pos.iter xO p k))) as [Hbig|_].
    + rewrite <- Zpos_iter_xO in Hbig.
      assert (2 ^ Zpos k <= 2 ^ 52) by (apply Z.pow_le_mono_r; lia).
      assert (2 ^ 53 <= 2 ^ 971) by (apply Z.pow_le_mono_r; lia).
      assert (2 ^ 52 < 2 ^ 53) by (apply Z.pow_lt_mono_r; lia). nia.
    + unfold dyadic. apply strip_twos_shift.
Qed.

(** Integers from [2^53] on never round below it. *)
Lemma round_ratio_large (z : Z) :
  2 ^ 53 <= z ->
  (exists v, round_ratio z 1 = Int v /\ 2 ^ 53 <= v) \/ round_ratio z 1 = Infinity false.
Proof.
  intros Hz. unfold round_ratio. destruct (Z.eqb_spec z 0) as [->|Hnz]; [lia|].
  rewrite log2_ratio_int by lia.
  assert (Hlog : 53 <= Z.log2 z) by (apply Z.log2_le_pow2; lia).
  rewrite Z.max_l by lia. rewrite (Z.max_l _ 0) by lia.
  set (u := Z.log2 z - 52). assert (0 < u) by lia.
  destruct (Z.leb_spec 0 u) as [_|]; [|lia]. rewrite Z.mul_1_l.
  set (m := div_half_even z (2 ^ u)).
  assert (Hm : 2 ^ 52 <= m).
  { transitivity (z / 2 ^ u); [|apply div_half_even_ge].
    apply Z.div_le_lower_bound; [apply Z.pow_pos_nonneg; lia|].
    rewrite <- Z.pow_add_r by lia. replace (u + 52) with (Z.log2 z) by lia.
    apply Z.log2_spec. lia. }
  destruct (_ <=? _); [by right|left].
  destruct m as [|p|p]; try lia. destruct u as [|k|k]; try lia.
  exists (Zpos p * 2 ^ Zpos k). split; [done|].
  assert (2 ^ 1 <= 2 ^ Zpos k) by (apply Z.pow_le_mono_r; lia).
  change (2 ^ 53) with (2 ^ 52 * 2 ^ 1). nia.
Qed.
