(* ===== verification/JsValue.v ===== *)
(** JavaScript values of type [any], as [JSON.parse] produces them and as the [fromJSON] and
    [toJSON] functions of the TypeScript sources read and build them: property access,
    [isSet], and the coercions [String(v)], [Number(v)] and [Boolean(v)] of ECMA-262. *)

From stdpp Require Import base list numbers strings.
From Stdlib Require Import ZArith Lia.
From S2P Require Import Prelude JsNumber.
Local Open Scope Z_scope.

(** * Exceptions *)
Inductive js_error : Type :=
| TypeError
| JsError (message : jsstring)
| HostError (message : jsstring).

Abbreviation jsres := (res js_error).

(** * Values

    An object is the list of its own properties in insertion order. *)
#[local] Set Warnings "-register-all".

Inductive value : Type :=
| VUndefined
| VNull
| VBool (b : bool)
| VNumber (n : number)
| VString (s : jsstring)
| VArray (l : list value)
| VObject (props : list (jsstring * value)).

Definition props := list (jsstring * value).

(** [v !== null && v !== undefined] *)
Definition isSet (v : value) : bool :=
  match v with
  | VUndefined | VNull => false
  | _ => true
  end.

Fixpoint get_own (k : jsstring) (ps : list (jsstring * value)) : value :=
  match ps with
  | [] => VUndefined
  | (k', v) :: ps' => if str_eqb k' k then v else get_own k ps'
  end.

(** [v.k] for a name [k] that no built-in prototype defines: reading a property of
    [undefined] or [null] throws, of any other non-object gives [undefined]. *)
Definition get_prop (v : value) (k : string) : jsres value :=
  match v with
  | VUndefined | VNull => Throw TypeError
  | VObject ps => Ok (get_own (js k) ps)
  | _ => Ok VUndefined
  end.

(** [v?.k] *)
Definition get_prop_opt (v : value) (k : string) : jsres value :=
  match v with
  | VUndefined | VNull => Ok VUndefined
  | _ => get_prop v k
  end.

(** [obj.k = v] on an object being built. *)
Fixpoint set_own (k : jsstring) (v : value) (ps : list (jsstring * value)) : props :=
  match ps with
  | [] => [(k, v)]
  | (k', v') :: ps' => if str_eqb k' k then (k', v) :: ps' else (k', v') :: set_own k v ps'
  end.

Definition set_prop (obj : props) (k : string) (v : value) : props := set_own (js k) v obj.

(** * Coercions *)

Fixpoint join (sep : jsstring) (l : list jsstring) : jsstring :=
  match l with
  | [] => []
  | [s] => s
  | s :: l' => s ++ sep ++ join sep l'
  end.

(** [String(v)].  An array is joined with commas, [null] and [undefined] elements being
    empty; a plain object prints as [[object Object]] unless it has an own [toString]
    property, which is never callable for parsed JSON, so that ToPrimitive fails. *)
Fixpoint to_string (v : value) : jsres jsstring :=
  match v with
  | VUndefined => Ok (js "undefined")
  | VNull => Ok (js "null")
  | VBool true => Ok (js "true")
  | VBool false => Ok (js "false")
  | VNumber n => Ok (number_to_string n)
  | VString s => Ok s
  | VArray l =>
      let* ss := res_map (fun e => if isSet e then to_string e else Ok []) l in
      Ok (join (js ",") ss)
  | VObject ps =>
      if bool_decide (js "toString" ∈ map fst ps)
      then Throw TypeError else Ok (js "[object Object]")
  end.

(** [Number(v)].  Objects and arrays go through their string form. *)
Definition to_number (v : value) : jsres number :=
  match v with
  | VUndefined => Ok NaN
  | VNull => Ok (Int 0)
  | VBool b => Ok (Int (if b then 1 else 0))
  | VNumber n => Ok n
  | VString s => Ok (string_to_number s)
  | _ => let* s := to_string v in Ok (string_to_number s)
  end.

(** [Boolean(v)] *)
Definition to_boolean (v : value) : bool :=
  match v with
  | VUndefined | VNull => false
  | VBool b => b
  | VNumber n => match n with NaN | NegZero | Int 0 => false | _ => true end
  | VString s => negb (str_eqb s [])
  | _ => true
  end.

(** [isSet(v) ? f(v) : d] *)
Definition if_set {A : Type} (v : value) (f : value -> jsres A) (d : A) : jsres A :=
  if isSet v then f v else Ok d.

(** [Array.isArray(v) ? v.map(f) : []] *)
Definition if_array {A : Type} (v : value) (f : value -> jsres A) : jsres (list A) :=
  match v with
  | VArray l => res_map f l
  | _ => Ok []
  end.

(** [isSet(object.k) ? f(object.k) : d] *)
Definition field {A : Type} (object : value) (k : string) (f : value -> jsres A) (d : A) : jsres A :=
  let* v := get_prop object k in if_set v f d.

(** [isSet(object.k) ? f(object.k) : undefined] *)
Definition opt_field {A : Type} (object : value) (k : string) (f : value -> jsres A)
    : jsres (option A) :=
  let* v := get_prop object k in
  if isSet v then let* x := f v in Ok (Some x) else Ok None.

(** [Array.isArray(object?.k) ? object.k.map(f) : []] *)
Definition array_field {A : Type} (object : value) (k : string) (f : value -> jsres A)
    : jsres (list A) :=
  let* v := get_prop_opt object k in if_array v f.

(** [Boolean(v)] as a conversion that may be passed to the above; it never throws. *)
Definition to_bool (v : value) : jsres bool := Ok (to_boolean v).

(** [xs?.length] used as a condition *)
Definition has_length {A : Type} (l : list A) : bool :=
  match l with [] => false | _ => true end.

(** [if (c) { obj.k = v; }] *)
Definition put_if (c : bool) (k : string) (v : value) (obj : props) : props :=
  if c then set_prop obj k v else obj.

(** [if (o !== undefined && c(o)) { obj.k = f(o); }] *)
Definition put_defined {A : Type} (o : option A) (c : A -> bool) (k : string) (f : A -> value)
    (obj : props) : props :=
  match o with
  | Some v => if c v then set_prop obj k (f v) else obj
  | None => obj
  end.

(** [x !== y] against an enum constant or a string in a [switch (object)]: strict equality
    between a value of type [any] and a number. *)
Definition is_num (v : value) (z : Z) : bool :=
  match v with VNumber n => num_eqb n (Int z) | _ => false end.
Definition is_str (v : value) (s : string) : bool :=
  match v with VString t => str_eqb t (js s) | _ => false end.

(** * Facts *)

Lemma get_set_eq (k : jsstring) (v : value) (ps : props) : get_own k (set_own k v ps) = v.
Proof.
  induction ps as [|[k' v'] ps IH]; cbn; [by rewrite str_eqb_refl|].
  destruct (str_eqb k' k) eqn:E; cbn; by rewrite E.
Qed.

Lemma get_set_ne (k k' : jsstring) (v : value) (ps : props) :
  str_eqb k' k = false -> get_own k (set_own k' v ps) = get_own k ps.
Proof.
  intros Hne. induction ps as [|[k'' v''] ps IH]; cbn; [by rewrite Hne|].
  destruct (str_eqb k'' k') eqn:E; cbn; [|by rewrite IH].
  apply str_eqb_spec in E as ->. by rewrite Hne.
Qed.

(** Reading back a property that was assigned under a condition. *)
Lemma get_put_if_eq (c : bool) (k : string) (v : value) (ps : props) :
  get_own (js k) (put_if c k v ps) = if c then v else get_own (js k) ps.
Proof. destruct c; [apply get_set_eq|done]. Qed.

Lemma get_put_if_ne (c : bool) (k k' : string) (v : value) (ps : props) :
  str_eqb (js k') (js k) = false -> get_own (js k) (put_if c k' v ps) = get_own (js k) ps.
Proof. intros. destruct c; [by apply get_set_ne|done]. Qed.

Lemma get_put_defined_eq {A : Type} (o : option A) (c : A -> bool) (k : string) (f : A -> value) (ps : props) :
  get_own (js k) (put_defined o c k f ps) =
    match o with Some v => if c v then f v else get_own (js k) ps | None => get_own (js k) ps end.
Proof. destruct o as [v|]; cbn; [|done]. destruct (c v); [apply get_set_eq|done]. Qed.

Lemma get_put_defined_ne {A : Type} (o : option A) (c : A -> bool) (k k' : string) (f : A -> value) (ps : props) :
  str_eqb (js k') (js k) = false ->
  get_own (js k) (put_defined o c k' f ps) = get_own (js k) ps.
Proof. intros. destruct o as [v|]; cbn; [|done]. destruct (c v); [by apply get_set_ne|done]. Qed.

(** ** Reading back what [toJSON] wrote

    Each lemma takes the property as the object holds it, which is absent when the field was
    at its default, and gives what [fromJSON] makes of it. *)

(** Numbers that [Math.round] leaves alone and that are not dropped as a zero. *)
Definition json_int (x : number) : Prop := math_round x = x /\ x <> NegZero.

Section JsonFields.
Context (ps : props) (k : string).

Lemma field_string (o : option jsstring) :
  get_own (js k) ps =
    match o with Some v => if negb (str_eqb v (js "")) then VString v else VUndefined
               | None => VUndefined end ->
  field (VObject ps) k to_string (js "") = Ok (default (js "") o).
Proof.
  intros H. unfold field, get_prop, if_set. cbn [res_bind]. rewrite H.
  destruct o as [v|]; [|done]. destruct (str_eqb v (js "")) eqn:E; [|done].
  by apply str_eqb_spec in E as ->.
Qed.

Lemma field_bool (d : bool) (o : option bool) :
  get_own (js k) ps =
    match o with Some v => if negb (Bool.eqb v d) then VBool v else VUndefined
               | None => VUndefined end ->
  field (VObject ps) k to_bool d = Ok (default d o).
Proof.
  intros H. unfold field, get_prop, if_set. cbn [res_bind]. rewrite H.
  destruct o as [v|]; [|done]. by destruct v, d.
Qed.

Lemma field_int (o : option number) :
  opt_all json_int o ->
  get_own (js k) ps =
    match o with
    | Some v => if negb (num_eqb v (Int 0)) then VNumber (math_round v) else VUndefined
    | None => VUndefined end ->
  field (VObject ps) k to_number (Int 0) = Ok (default (Int 0) o).
Proof.
  intros Ho H. unfold field, get_prop, if_set. cbn [res_bind]. rewrite H.
  destruct o as [v|]; [|done]. destruct Ho as [Hr Hz].
  destruct (num_eqb v (Int 0)) eqn:E; cbn; [|by rewrite Hr].
  by rewrite (num_eqb_zero v).
Qed.

Lemma field_double (o : option number) :
  opt_all (fun x => x <> NegZero) o ->
  get_own (js k) ps =
    match o with
    | Some v => if negb (num_eqb v (Int 0)) then VNumber v else VUndefined
    | None => VUndefined end ->
  field (VObject ps) k to_number (Int 0) = Ok (default (Int 0) o).
Proof.
  intros Ho H. unfold field, get_prop, if_set. cbn [res_bind]. rewrite H.
  destruct o as [v|]; [|done]. cbn in Ho.
  destruct (num_eqb v (Int 0)) eqn:E; cbn; [|done]. by rewrite (num_eqb_zero v).
Qed.

(** An enum field: [conv] reads back the name [name] gives to a known value. *)
Lemma field_enum (conv : value -> Z) (name : Z -> jsstring) (d : Z) (o : option Z) :
  opt_all (fun z => conv (VString (name z)) = z) o ->
  get_own (js k) ps =
    match o with Some v => if negb (v =? d) then VString (name v) else VUndefined
               | None => VUndefined end ->
  field (VObject ps) k (fun v => Ok (conv v)) d = Ok (default d o).
Proof.
  intros Ho H. unfold field, get_prop, if_set. cbn [res_bind]. rewrite H.
  destruct o as [v|]; [|done]. cbn in Ho.
  destruct (Z.eqb_spec v d) as [->|]; cbn; [done|]. by rewrite Ho.
Qed.

Lemma opt_field_string (o : option jsstring) :
  get_own (js k) ps = match o with Some v => VString v | None => VUndefined end ->
  opt_field (VObject ps) k to_string = Ok o.
Proof. intros H. unfold opt_field, get_prop. cbn [res_bind]. rewrite H. by destruct o. Qed.

(** An embedded message whose own conversions round-trip. *)
Lemma opt_field_message {A : Type} (to : A -> value) (from : value -> jsres A) (norm : A -> A)
    (ok : A -> Prop) (o : option A) :
  (forall x, ok x -> isSet (to x) = true /\ from (to x) = Ok (norm x)) ->
  opt_all ok o ->
  get_own (js k) ps = match o with Some v => to v | None => VUndefined end ->
  opt_field (VObject ps) k from = Ok (option_map norm o).
Proof.
  intros Hrt Ho H. unfold opt_field, get_prop. cbn [res_bind]. rewrite H.
  destruct o as [v|]; [|done]. destruct (Hrt v Ho) as [-> ->]. done.
Qed.

(** A repeated field. *)
Lemma array_field_map {A : Type} (to : A -> value) (from : value -> jsres A) (norm : A -> A)
    (ok : A -> Prop) (l : list A) :
  (forall x, ok x -> from (to x) = Ok (norm x)) ->
  Forall ok l ->
  get_own (js k) ps = (if has_length l then VArray (map to l) else VUndefined) ->
  array_field (VObject ps) k from = Ok (map norm l).
Proof.
  intros Hrt Hl H. unfold array_field, get_prop_opt, get_prop. cbn [res_bind]. rewrite H.
  destruct l as [|x l]; [done|]. cbn [has_length if_array]. rewrite res_map_map.
  apply res_map_ok. by eapply Forall_impl.
Qed.

Lemma array_field_id {A : Type} (to : A -> value) (from : value -> jsres A)
    (ok : A -> Prop) (l : list A) :
  (forall x, ok x -> from (to x) = Ok x) ->
  Forall ok l ->
  get_own (js k) ps = (if has_length l then VArray (map to l) else VUndefined) ->
  array_field (VObject ps) k from = Ok l.
Proof.
  intros Hrt Hl H. rewrite (array_field_map to from id ok l) by done. by rewrite map_id.
Qed.
End JsonFields.

(** [json_get] computes a property of an object built by conditional assignments. *)
Ltac json_get :=
  repeat first [ rewrite get_put_if_ne by (vm_compute; reflexivity)
               | rewrite get_put_defined_ne by (vm_compute; reflexivity) ];
  first [ rewrite get_put_if_eq | rewrite get_put_defined_eq ];
  repeat first [ rewrite get_put_if_ne by (vm_compute; reflexivity)
               | rewrite get_put_defined_ne by (vm_compute; reflexivity) ];
  reflexivity.

(** * Round trips *)

Definition json_inverse {M : Type} (toJSON : M -> value) (fromJSON : value -> jsres M)
    (ok : M -> Prop) : Prop :=
  forall m, ok m -> fromJSON (toJSON m) = Ok m.

Lemma json_identity {M : Type} (toJSON : M -> value) (fromJSON : value -> jsres M) (norm : M -> M)
    (ok : M -> Prop) :
  (forall m, ok m -> fromJSON (toJSON m) = Ok (norm m)) -> (forall m, norm m = m) ->
  json_inverse toJSON fromJSON ok.
Proof. intros H Hn m Hm. by rewrite H, Hn. Qed.

(** * Termination on arbitrary values

    [fromJSON] of a recursive message descends into the value it is given; the nesting of the
    value bounds how far. *)
Fixpoint value_depth (v : value) : nat :=
  match v with
  | VArray l => S (list_max (map value_depth l))
  | VObject ps => S (list_max (map (fun p => value_depth (snd p)) ps))
  | _ => 0
  end.

Lemma array_elem_depth (l : list value) (n : nat) :
  (value_depth (VArray l) <= n)%nat -> Forall (fun x => (value_depth x <= pred n)%nat) l.
Proof. cbn. intros H. apply list_max_elem. lia. Qed.

Lemma get_own_depth (k : jsstring) (ps : props) :
  (value_depth (get_own k ps) <= list_max (map (fun p => value_depth (snd p)) ps))%nat.
Proof.
  induction ps as [|[k' v] ps IH]; cbn [get_own]; [cbn; lia|].
  rewrite map_cons. change (list_max (?x :: ?l)) with (Nat.max x (list_max l)).
  destruct (str_eqb k' k); cbn [snd]; lia.
Qed.

Lemma get_prop_depth (v w : value) (k : string) :
  get_prop v k = Ok w -> isSet w = false \/ (value_depth w < value_depth v)%nat.
Proof.
  destruct v as [| | | | | |ps]; cbn [get_prop]; intros [= <-]; auto.
  right. cbn [value_depth]. pose proof (get_own_depth (js k) ps). lia.
Qed.

Lemma to_string_halts (v : value) : halts (to_string v).
Proof.
  induction v as [v IH] using (induction_ltof1 _ value_depth). unfold ltof in IH.
  destruct v as [| |[]| | |l|ps]; try done; cbn [to_string].
  - apply halts_bind; [|done]. apply halts_map.
    eapply Forall_impl; [apply (array_elem_depth l _ (Nat.le_refl _))|].
    intros x Hx. cbv beta. destruct (isSet x); [|done]. apply IH. cbn in *. lia.
  - by destruct (bool_decide _).
Qed.

Lemma to_number_halts (v : value) : halts (to_number v).
Proof.
  destruct v; try done; cbn [to_number]; (apply halts_bind; [apply to_string_halts|done]).
Qed.

(** A conversion that halts on values nested less than [n] deep. *)
Definition halts_below {A : Type} (n : nat) (f : value -> jsres A) : Prop :=
  forall v, (value_depth v < n)%nat -> halts (f v).

Section FieldsHalt.
Context {A : Type} (f : value -> jsres A) (n : nat) (object : value) (k : string).
Hypothesis Hf : halts_below n f.
Hypothesis Hobject : (value_depth object <= n)%nat.

Lemma get_prop_cases :
  get_prop object k = Throw TypeError \/
  exists w, get_prop object k = Ok w /\ (isSet w = false \/ (value_depth w < n)%nat).
Proof.
  destruct (get_prop object k) as [w|e|] eqn:E.
  - right. exists w. split; [done|]. apply get_prop_depth in E as [?|?]; [by left|right; lia].
  - left. destruct object; cbn in E; congruence.
  - destruct object; cbn in E; congruence.
Qed.

Lemma field_halts (d : A) : halts (field object k f d).
Proof.
  unfold field. destruct get_prop_cases as [-> |(w & -> & Hw)]; [done|]. cbn [res_bind].
  unfold if_set. destruct Hw as [-> |Hw]; [done|]. destruct (isSet w); [by apply Hf|done].
Qed.

Lemma opt_field_halts : halts (opt_field object k f).
Proof.
  unfold opt_field. destruct get_prop_cases as [-> |(w & -> & Hw)]; [done|]. cbn [res_bind].
  destruct Hw as [-> |Hw]; [done|]. destruct (isSet w); [|done]. apply halts_bind; [by apply Hf|done].
Qed.

Lemma array_field_halts : halts (array_field object k f).
Proof.
  unfold array_field.
  assert (get_prop_opt object k = Ok VUndefined \/ get_prop_opt object k = get_prop object k) as [-> | ->]
    by (destruct object; cbn; auto); [done|].
  destruct get_prop_cases as [-> |(w & -> & Hw)]; [done|]. cbn [res_bind].
  destruct w as [| | | | |l|]; try done. destruct Hw as [|Hw]; [done|]. cbn [if_array]. apply halts_map.
  eapply Forall_impl; [apply (array_elem_depth l _ (Nat.le_refl _))|].
  cbv beta. intros x Hx. apply Hf. cbn in *. lia.
Qed.
End FieldsHalt.

Lemma halts_to_string (n : nat) : halts_below n to_string.
Proof. intros v _. apply to_string_halts. Qed.

Lemma halts_to_number (n : nat) : halts_below n to_number.
Proof. intros v _. apply to_number_halts. Qed.

Lemma halts_to_bool (n : nat) : halts_below n to_bool.
Proof. by intros v _. Qed.

(** A conversion that halts on every value. *)
Lemma halts_everywhere {A : Type} (n : nat) (f : value -> jsres A) :
  (forall v, halts (f v)) -> halts_below n f.
Proof. intros H v _. apply H. Qed.

Create HintDb halting discriminated.
#[export] Hint Resolve halts_to_string halts_to_number halts_to_bool : halting.

(** A [fromJSON] that reads its fields one after the other; enum conversions cannot fail. *)
Ltac solve_halts_below := first [ solve [eauto with halting] | intros ? ?; exact I ].
Ltac solve_halts :=
  repeat first
    [ exact I
    | eapply field_halts; [solve_halts_below|eassumption]
    | eapply opt_field_halts; [solve_halts_below|eassumption]
    | eapply array_field_halts; [solve_halts_below|eassumption]
    | apply halts_bind; [|intros ?] ].
