(* ===== verification/Wire.v ===== *)
(** The interface to the protobuf wire runtime that the generated TypeScript imports
    ([BinaryReader] and [BinaryWriter] of [@bufbuild/protobuf/wire]), what the sources rely
    on about it, and the generic reasoning about the generated encoders and decoders: the
    decode loop that every [decode] repeats, what a statement of [encode] writes, and what
    an iteration of the loop reads. *)

From stdpp Require Import base list numbers strings.
From Stdlib Require Import Strings.Byte ZArith Lia.
From S2P Require Import Prelude JsNumber JsValue.
Local Open Scope Z_scope.

Abbreviation bytes := (list byte).

(** * The runtime

    The package is not part of the repository, so its operations are parameters.  Every
    operation returns or throws.  A writer or reader is an object the sources mutate and
    thread linearly, so each operation returns its next state. *)
Class WireRuntime := {
  writer : Type;
  new_writer : writer;
  wr_uint32 : number -> writer -> js_error + writer;
  wr_int32 : number -> writer -> js_error + writer;
  wr_uint64 : number -> writer -> js_error + writer;
  wr_int64 : number -> writer -> js_error + writer;
  wr_bool : bool -> writer -> js_error + writer;
  wr_double : number -> writer -> js_error + writer;
  wr_string : jsstring -> writer -> js_error + writer;
  wr_bytes : bytes -> writer -> js_error + writer;
  fork : writer -> writer;
  wr_join : writer -> js_error + writer;
  finish : writer -> bytes;
  reader : Type;
  new_reader : bytes -> reader;
  pos : reader -> Z;
  len : reader -> Z;
  rd_uint32 : reader -> js_error + Z * reader;
  rd_int32 : reader -> js_error + Z * reader;
  rd_uint64 : reader -> js_error + Z * reader;
  rd_int64 : reader -> js_error + Z * reader;
  rd_bool : reader -> js_error + bool * reader;
  rd_double : reader -> js_error + number * reader;
  rd_string : reader -> js_error + jsstring * reader;
  rd_bytes : reader -> js_error + bytes * reader;
  rd_skip : Z -> reader -> js_error + reader;
}.

(** A text that UTF-8 can carry in one length-delimited field: no lone surrogates, and at most
    three bytes per code unit stay below [2^32]. *)
Definition text_ok (s : jsstring) : Prop := well_formed s = true /\ 3 * Z.of_nat (length s) < 2 ^ 32.

(** A byte order mark at the start of a field is dropped by a [TextDecoder]. *)
Definition starts_with_mark (s : jsstring) : bool := match s with c :: _ => c =? 0xFEFF | [] => false end.

(** A string that is read as it was written. *)
Definition string_ok (s : jsstring) : Prop := text_ok s /\ starts_with_mark s = false.
Definition bytes_ok (b : bytes) : Prop := Z.of_nat (length b) < 2 ^ 32.
Definition uint32_ok (x : number) : Prop := exists n, x = Int n /\ 0 <= n < 2 ^ 32.
Definition int32_ok (x : number) : Prop := exists n, x = Int n /\ - 2 ^ 31 <= n < 2 ^ 31.
Definition uint64_safe (x : number) : Prop := exists n, x = Int n /\ 0 <= n < 2 ^ 53.
Definition int64_safe (x : number) : Prop := exists n, x = Int n /\ - 2 ^ 53 < n < 2 ^ 53.

(** A number that is an IEEE 754 binary64 value in canonical form. *)
Definition is_double (x : number) : Prop :=
  match x with
  | NaN | Infinity _ | NegZero => True
  | Int z => round_ratio (Z.abs z) 1 = Int (Z.abs z)
  | Frac m k => Z.odd m = true /\ round_ratio (Z.abs m) (2 ^ Zpos k) = Frac (Z.abs m) k
  end.

(** * What the sources rely on

    The wire format is given by one encoder per scalar type.  The writer appends what they
    produce to the innermost open buffer, [fork] opens a buffer, [join] closes it and
    appends its length and contents to the enclosing one.  The reader returns the value
    whose encoding lies ahead and moves past it; any successful read stays inside the
    input, and reading a varint consumes at least one byte. *)
Class WireLaws (RT : WireRuntime) := {
  enc_uint32 : Z -> bytes;
  enc_int32 : Z -> bytes;
  enc_uint64 : Z -> bytes;
  enc_int64 : Z -> bytes;
  enc_bool : bool -> bytes;
  enc_double : number -> bytes;
  enc_string : jsstring -> bytes;
  enc_bytes : bytes -> bytes;
  wview : writer -> bytes * list bytes;
  wview_new : wview new_writer = ([], []);
  finish_view : forall w b, wview w = (b, []) -> finish w = b;
  wr_uint32_ok : forall n w b st, wview w = (b, st) -> 0 <= n < 2 ^ 32 ->
    exists w', wr_uint32 (Int n) w = inr w' /\ wview w' = (b ++ enc_uint32 n, st);
  wr_int32_ok : forall n w b st, wview w = (b, st) -> - 2 ^ 31 <= n < 2 ^ 31 ->
    exists w', wr_int32 (Int n) w = inr w' /\ wview w' = (b ++ enc_int32 n, st);
  wr_uint64_ok : forall n w b st, wview w = (b, st) -> 0 <= n < 2 ^ 53 ->
    exists w', wr_uint64 (Int n) w = inr w' /\ wview w' = (b ++ enc_uint64 n, st);
  wr_int64_ok : forall n w b st, wview w = (b, st) -> - 2 ^ 53 < n < 2 ^ 53 ->
    exists w', wr_int64 (Int n) w = inr w' /\ wview w' = (b ++ enc_int64 n, st);
  wr_bool_ok : forall v w b st, wview w = (b, st) ->
    exists w', wr_bool v w = inr w' /\ wview w' = (b ++ enc_bool v, st);
  wr_double_ok : forall x w b st, wview w = (b, st) -> is_double x ->
    exists w', wr_double x w = inr w' /\ wview w' = (b ++ enc_double x, st);
  wr_string_ok : forall s w b st, wview w = (b, st) -> string_ok s ->
    exists w', wr_string s w = inr w' /\ wview w' = (b ++ enc_string s, st);
  wr_bytes_ok : forall s w b st, wview w = (b, st) -> bytes_ok s ->
    exists w', wr_bytes s w = inr w' /\ wview w' = (b ++ enc_bytes s, st);
  fork_view : forall w b st, wview w = (b, st) -> wview (fork w) = ([], b :: st);
  wr_join_ok : forall w b c st, wview w = (b, c :: st) -> bytes_ok b ->
    exists w', wr_join w = inr w' /\
      wview w' = (c ++ enc_uint32 (Z.of_nat (length b)) ++ b, st);
  rest : reader -> bytes;
  rest_new : forall b, rest (new_reader b) = b;
  pos_new : forall b, pos (new_reader b) = 0;
  len_rest : forall r, len r = pos r + Z.of_nat (length (rest r));
  rd_uint32_ok : forall n r tl, rest r = enc_uint32 n ++ tl -> 0 <= n < 2 ^ 32 ->
    exists r', rd_uint32 r = inr (n, r') /\ rest r' = tl;
  rd_int32_ok : forall n r tl, rest r = enc_int32 n ++ tl -> - 2 ^ 31 <= n < 2 ^ 31 ->
    exists r', rd_int32 r = inr (n, r') /\ rest r' = tl;
  rd_uint64_ok : forall n r tl, rest r = enc_uint64 n ++ tl -> 0 <= n < 2 ^ 64 ->
    exists r', rd_uint64 r = inr (n, r') /\ rest r' = tl;
  rd_int64_ok : forall n r tl, rest r = enc_int64 n ++ tl -> - 2 ^ 63 <= n < 2 ^ 63 ->
    exists r', rd_int64 r = inr (n, r') /\ rest r' = tl;
  rd_bool_ok : forall v r tl, rest r = enc_bool v ++ tl ->
    exists r', rd_bool r = inr (v, r') /\ rest r' = tl;
  rd_double_ok : forall x r tl, rest r = enc_double x ++ tl -> is_double x ->
    exists r', rd_double r = inr (x, r') /\ rest r' = tl;
  rd_string_ok : forall s r tl, rest r = enc_string s ++ tl -> string_ok s ->
    exists r', rd_string r = inr (s, r') /\ rest r' = tl;
  rd_bytes_ok : forall s r tl, rest r = enc_bytes s ++ tl -> bytes_ok s ->
    exists r', rd_bytes r = inr (s, r') /\ rest r' = tl;
  skip_varint : forall n r tl, rest r = enc_uint64 n ++ tl -> 0 <= n < 2 ^ 53 ->
    exists r', rd_skip 0 r = inr r' /\ rest r' = tl;
  skip_bytes : forall s r tl, rest r = enc_bytes s ++ tl -> bytes_ok s ->
    exists r', rd_skip 2 r = inr r' /\ rest r' = tl;
  rd_uint32_moves : forall r n r', rd_uint32 r = inr (n, r') ->
    len r' = len r /\ pos r < pos r' /\ 0 <= n < 2 ^ 32;
  rd_int32_moves : forall r n r', rd_int32 r = inr (n, r') ->
    len r' = len r /\ pos r < pos r' /\ - 2 ^ 31 <= n < 2 ^ 31;
  rd_uint64_moves : forall r n r', rd_uint64 r = inr (n, r') -> len r' = len r /\ pos r <= pos r';
  rd_int64_moves : forall r n r', rd_int64 r = inr (n, r') -> len r' = len r /\ pos r <= pos r';
  rd_bool_moves : forall r v r', rd_bool r = inr (v, r') -> len r' = len r /\ pos r <= pos r';
  rd_double_moves : forall r v r', rd_double r = inr (v, r') -> len r' = len r /\ pos r <= pos r';
  rd_string_moves : forall r v r', rd_string r = inr (v, r') -> len r' = len r /\ pos r <= pos r';
  rd_bytes_moves : forall r v r', rd_bytes r = inr (v, r') -> len r' = len r /\ pos r <= pos r';
  rd_skip_moves : forall t r r', rd_skip t r = inr r' -> len r' = len r /\ pos r <= pos r';
}.

Section Operations.
Context {RT : WireRuntime}.

(** * Operations as the sources call them *)

Definition w_uint32 (x : number) (w : writer) : jsres writer := lift (wr_uint32 x w).
Definition w_int32 (x : number) (w : writer) : jsres writer := lift (wr_int32 x w).
Definition w_uint64 (x : number) (w : writer) : jsres writer := lift (wr_uint64 x w).
Definition w_int64 (x : number) (w : writer) : jsres writer := lift (wr_int64 x w).
Definition w_bool (x : bool) (w : writer) : jsres writer := lift (wr_bool x w).
Definition w_double (x : number) (w : writer) : jsres writer := lift (wr_double x w).
Definition w_string (x : jsstring) (w : writer) : jsres writer := lift (wr_string x w).
Definition w_bytes (x : bytes) (w : writer) : jsres writer := lift (wr_bytes x w).
Definition w_join (w : writer) : jsres writer := lift (wr_join w).

(** An integer read from the wire is used in two ways: as a tag, a length or an enum value
    (an integer), or as the value of a [number] field. *)
Definition r_uint32 (r : reader) : jsres (Z * reader) := lift (rd_uint32 r).
Definition r_int32 (r : reader) : jsres (Z * reader) := lift (rd_int32 r).
Definition r_uint64 (r : reader) : jsres (Z * reader) := lift (rd_uint64 r).
Definition r_int64 (r : reader) : jsres (Z * reader) := lift (rd_int64 r).
Definition r_uint32_number (r : reader) : jsres (number * reader) :=
  let* (n, r') := r_uint32 r in Ok (Int n, r').
Definition r_int32_number (r : reader) : jsres (number * reader) :=
  let* (n, r') := r_int32 r in Ok (Int n, r').
Definition r_bool (r : reader) : jsres (bool * reader) := lift (rd_bool r).
Definition r_double (r : reader) : jsres (number * reader) := lift (rd_double r).
Definition r_string (r : reader) : jsres (jsstring * reader) := lift (rd_string r).
Definition r_bytes (r : reader) : jsres (bytes * reader) := lift (rd_bytes r).
Definition r_skip (t : Z) (r : reader) : jsres reader := lift (rd_skip t r).

(** The argument of [decode]: [BinaryReader | Uint8Array]. *)
Inductive input : Type :=
| InReader (r : reader)
| InBytes (b : bytes).

(** [input instanceof BinaryReader ? input : new BinaryReader(input)] *)
Definition reader_of (i : input) : reader :=
  match i with
  | InReader r => r
  | InBytes b => new_reader b
  end.

(** How a [switch] on the field number ends: [continue] with an updated message, or [break]
    out of the switch. *)
Inductive flow (M : Type) : Type :=
| Continue (m : M) (r : reader)
| Break.
Arguments Continue {M} _ _.
Arguments Break {M}.

(** [while (reader.pos < end) { const tag = reader.uint32(); switch (tag >>> 3) {...}
    if ((tag & 7) === 4 || tag === 0) { break; } reader.skip(tag & 7); }] *)
Fixpoint decode_loop {M : Type} (sw : Z -> M -> reader -> jsres (flow M))
    (fuel : nat) (end_ : Z) (m : M) (r : reader) : jsres (M * reader) :=
  if pos r <? end_ then
    match fuel with
    | O => OutOfFuel
    | S fuel' =>
        let* (tag, r1) := r_uint32 r in
        let* next := sw tag m r1 in
        match next with
        | Continue m' r2 => decode_loop sw fuel' end_ m' r2
        | Break =>
            if (Z.land tag 7 =? 4) || (tag =? 0) then Ok (m, r1)
            else let* r2 := r_skip (Z.land tag 7) r1 in decode_loop sw fuel' end_ m r2
        end
    end
  else Ok (m, r).

(** The body of every [decode], up to the message's own [switch] and its base object. *)
Definition decode_with {M : Type} (sw : Z -> M -> reader -> jsres (flow M)) (base : M)
    (fuel : nat) (i : input) (length : option Z) : jsres (M * reader) :=
  let r := reader_of i in
  let end_ := match length with None => len r | Some l => pos r + l end in
  decode_loop sw fuel end_ base r.

(** [while (reader.pos < end2) { xs.push(read()); }] *)
Fixpoint packed_loop {A : Type} (rd : reader -> jsres (A * reader))
    (fuel : nat) (end2 : Z) (xs : list A) (r : reader) : jsres (list A * reader) :=
  if pos r <? end2 then
    match fuel with
    | O => OutOfFuel
    | S fuel' => let* (v, r') := rd r in packed_loop rd fuel' end2 (xs ++ [v]) r'
    end
  else Ok (xs, r).

(** Enough fuel to decode what is left of a reader: one unit per byte, and one more. *)
Definition fuel_for (r : reader) : nat := S (Z.to_nat (len r - pos r)).
End Operations.
Arguments flow {RT} M.
Arguments Continue {RT M} _ _.
Arguments Break {RT M}.
