(* ===== verification/WireFacts.v ===== *)
(** Reasoning about generated encoders and decoders over the wire runtime's laws: [writes]
    says what a statement of [encode] appends, [eats] what iterations of the decode loop
    consume and how they change the message, [safe_switch] that a [switch] neither blocks
    nor moves the reader back.  [codec] is what a message promises to the messages that
    embed it. *)

From stdpp Require Import base list numbers strings.
From Stdlib Require Import Strings.Byte ZArith Lia.
From S2P Require Import Prelude JsNumber JsValue Wire.
Local Open Scope Z_scope.

Section Facts.
Context {RT : WireRuntime} {L : WireLaws RT}.

(** * Encoding *)

(** [f] appends exactly [b] to the innermost open buffer of any writer. *)
Definition writes (f : writer -> jsres writer) (b : bytes) : Prop :=
  forall w c st, wview w = (c, st) -> exists w', f w = Ok w' /\ wview w' = (c ++ b, st).

Lemma writes_ret : writes Ok [].
Proof. intros w c st Hw. exists w. by rewrite app_nil_r. Qed.

Lemma writes_seq (f g : writer -> jsres writer) (b1 b2 : bytes) :
  writes f b1 -> writes g b2 -> writes (fun w => let* w' := f w in g w') (b1 ++ b2).
Proof.
  intros Hf Hg w c st Hw. destruct (Hf w c st Hw) as (w1 & E1 & V1).
  destruct (Hg _ _ _ V1) as (w2 & E2 & V2). exists w2. rewrite E1. cbn.
  by rewrite E2, V2, (assoc_L (++)).
Qed.

Lemma writes_when (c : bool) (f : writer -> jsres writer) (b : bytes) :
  (c = true -> writes f b) -> writes (fun w => if c then f w else Ok w) (if c then b else []).
Proof. intros H. destruct c; [by apply H|apply writes_ret]. Qed.

Lemma writes_option {A : Type} (o : option A) (f : A -> writer -> jsres writer) (b : A -> bytes) :
  (forall v, o = Some v -> writes (f v) (b v)) ->
  writes (fun w => match o with Some v => f v w | None => Ok w end)
         (match o with Some v => b v | None => [] end).
Proof. intros H. destruct o; [by apply H|apply writes_ret]. Qed.

Lemma writes_each {A : Type} (P : A -> Prop) (f : A -> writer -> jsres writer) (b : A -> bytes)
    (l : list A) :
  Forall P l -> (forall x, P x -> writes (f x) (b x)) ->
  writes (for_each f l) (concat (map b l)).
Proof.
  intros Hl Hf. induction Hl as [|x l Hx Hl IH]; [apply writes_ret|].
  cbn. apply (writes_seq (f x)); auto.
Qed.

(** A tag is a small unsigned integer. *)
Definition tag_ok (T : Z) : bool := (0 <=? T) && (T <? 2 ^ 32).

Lemma writes_tag (T : Z) : tag_ok T = true -> writes (w_uint32 (Int T)) (enc_uint32 T).
Proof.
  unfold tag_ok. intros HT w c st Hw.
  destruct (wr_uint32_ok T w c st Hw) as (w' & E & V); [lia|].
  exists w'. unfold w_uint32. by rewrite E.
Qed.

Lemma writes_field (T : Z) (f : writer -> jsres writer) (b : bytes) :
  tag_ok T = true -> writes f b ->
  writes (fun w => let* w' := w_uint32 (Int T) w in f w') (enc_uint32 T ++ b).
Proof. intros HT Hf. apply writes_seq; [by apply writes_tag|done]. Qed.

(** The bytes of a length-delimited field with contents [b]. *)
Definition delimited (T : Z) (b : bytes) : bytes :=
  enc_uint32 T ++ enc_uint32 (Z.of_nat (length b)) ++ b.

(** [f(writer.uint32(T).fork()).join()] *)
Lemma writes_sub (T : Z) (f : writer -> jsres writer) (b : bytes) :
  tag_ok T = true -> writes f b -> bytes_ok b ->
  writes (fun w => let* w1 := w_uint32 (Int T) w in let* w2 := f (fork w1) in w_join w2)
         (delimited T b).
Proof.
  intros HT Hf Hb w c st Hw.
  destruct (writes_tag T HT w c st Hw) as (w1 & E1 & V1). rewrite E1. cbn.
  destruct (Hf _ _ _ (fork_view _ _ _ V1)) as (w2 & E2 & V2). rewrite E2. cbn.
  destruct (wr_join_ok _ _ _ _ V2 Hb) as (w3 & E3 & V3). exists w3.
  unfold w_join. rewrite E3. split; [done|]. rewrite V3. cbn [app]. unfold delimited.
  by rewrite <- !(assoc_L (++)).
Qed.

Lemma writes_finish (f : writer -> jsres writer) (b : bytes) :
  writes f b -> exists w, f new_writer = Ok w /\ finish w = b.
Proof.
  intros Hf. destruct (Hf _ _ _ wview_new) as (w & E & V). exists w.
  split; [done|]. by apply finish_view in V.
Qed.

(** * Scalars *)

(** A scalar type of the wire format: how it is written, read and encoded, and which values
    the format can carry. *)
Record scalar {A : Type} (wr : A -> writer -> jsres writer) (rd : reader -> jsres (A * reader))
    (enc : A -> bytes) (ok : A -> Prop) : Prop := {
  scalar_writes : forall x, ok x -> writes (wr x) (enc x);
  scalar_reads : forall x r tl, ok x -> rest r = enc x ++ tl ->
    exists r', rd r = Ok (x, r') /\ rest r' = tl /\ len r' = len r;
}.

Lemma string_scalar : scalar w_string r_string enc_string string_ok.
Proof.
  split.
  - intros x Hx w c st Hw. destruct (wr_string_ok x w c st Hw Hx) as (w' & E & V).
    exists w'. unfold w_string. by rewrite E.
  - intros x r tl Hx Hr. destruct (rd_string_ok x r tl Hr Hx) as (r' & E & V).
    exists r'. unfold r_string. rewrite E. by apply rd_string_moves in E as [? _].
Qed.

Lemma bytes_scalar : scalar w_bytes r_bytes enc_bytes bytes_ok.
Proof.
  split.
  - intros x Hx w c st Hw. destruct (wr_bytes_ok x w c st Hw Hx) as (w' & E & V).
    exists w'. unfold w_bytes. by rewrite E.
  - intros x r tl Hx Hr. destruct (rd_bytes_ok x r tl Hr Hx) as (r' & E & V).
    exists r'. unfold r_bytes. rewrite E. by apply rd_bytes_moves in E as [? _].
Qed.

Lemma bool_scalar : scalar w_bool r_bool enc_bool (fun _ => True).
Proof.
  split.
  - intros x _ w c st Hw. destruct (wr_bool_ok x w c st Hw) as (w' & E & V).
    exists w'. unfold w_bool. by rewrite E.
  - intros x r tl _ Hr. destruct (rd_bool_ok x r tl Hr) as (r' & E & V).
    exists r'. unfold r_bool. rewrite E. by apply rd_bool_moves in E as [? _].
Qed.

Lemma double_scalar : scalar w_double r_double enc_double is_double.
Proof.
  split.
  - intros x Hx w c st Hw. destruct (wr_double_ok x w c st Hw Hx) as (w' & E & V).
    exists w'. unfold w_double. by rewrite E.
  - intros x r tl Hx Hr. destruct (rd_double_ok x r tl Hr Hx) as (r' & E & V).
    exists r'. unfold r_double. rewrite E. by apply rd_double_moves in E as [? _].
Qed.

(** A [double] field: minus zero is dropped like zero, so the format cannot carry it. *)
Definition double_ok (x : number) : Prop := is_double x /\ x <> NegZero.

Lemma double_nz_scalar : scalar w_double r_double enc_double double_ok.
Proof.
  destruct double_scalar as [Hw Hr]. split.
  - intros x [Hx _]. by apply Hw.
  - intros x r tl [Hx _]. by apply Hr.
Qed.

(** Integers below are written from a [number] and read back as one. *)
Definition enc_number (enc : Z -> bytes) (x : number) : bytes :=
  match x with Int n => enc n | _ => [] end.

Lemma uint32_scalar : scalar w_uint32 r_uint32_number (enc_number enc_uint32) uint32_ok.
Proof.
  split.
  - intros x (n & -> & Hn) w c st Hw. destruct (wr_uint32_ok n w c st Hw Hn) as (w' & E & V).
    exists w'. unfold w_uint32. by rewrite E.
  - intros x r tl (n & -> & Hn) Hr. destruct (rd_uint32_ok n r tl Hr Hn) as (r' & E & V).
    exists r'. unfold r_uint32_number, r_uint32. rewrite E. by apply rd_uint32_moves in E as [? _].
Qed.

Lemma int32_scalar : scalar w_int32 r_int32_number (enc_number enc_int32) int32_ok.
Proof.
  split.
  - intros x (n & -> & Hn) w c st Hw. destruct (wr_int32_ok n w c st Hw Hn) as (w' & E & V).
    exists w'. unfold w_int32. by rewrite E.
  - intros x r tl (n & -> & Hn) Hr. destruct (rd_int32_ok n r tl Hr Hn) as (r' & E & V).
    exists r'. unfold r_int32_number, r_int32. rewrite E. by apply rd_int32_moves in E as [? _].
Qed.

(** An enum travels as an [int32]. *)
Definition enum_ok (z : Z) : Prop := - 2 ^ 31 <= z < 2 ^ 31.
Lemma enum_scalar : scalar (fun z => w_int32 (Int z)) r_int32 enc_int32 enum_ok.
Proof.
  split.
  - intros n Hn w c st Hw. destruct (wr_int32_ok n w c st Hw Hn) as (w' & E & V).
    exists w'. unfold w_int32. by rewrite E.
  - intros n r tl Hn Hr. destruct (rd_int32_ok n r tl Hr Hn) as (r' & E & V).
    exists r'. unfold r_int32. rewrite E. by apply rd_int32_moves in E as [? _].
Qed.

(** * Decoding *)

(** From [m], the iterations that consume [chunk] lead to [m'].  [F] bounds the bytes left,
    for the sake of nested decoders that are given fuel [F]. *)
Definition eats {M : Type} (sw : Z -> M -> reader -> jsres (flow M)) (F : nat)
    (chunk : bytes) (m m' : M) : Prop :=
  forall r tl e n,
    rest r = chunk ++ tl -> pos r + Z.of_nat (length chunk) <= e ->
    (length (rest r) <= F)%nat -> (length (rest r) < n)%nat ->
    exists r' n', decode_loop sw n e m r = decode_loop sw n' e m' r' /\
      rest r' = tl /\ len r' = len r /\ (length tl < n')%nat.

Lemma eats_nil {M : Type} (sw : Z -> M -> reader -> jsres (flow M)) (F : nat) (m : M) :
  eats sw F [] m m.
Proof. intros r tl e n Hr He HF Hn. exists r, n. rewrite Hr in *. by cbn in *. Qed.

Lemma eats_app {M : Type} (sw : Z -> M -> reader -> jsres (flow M)) (F : nat)
    (c1 c2 : bytes) (m1 m2 m3 : M) :
  eats sw F c1 m1 m2 -> eats sw F c2 m2 m3 -> eats sw F (c1 ++ c2) m1 m3.
Proof.
  intros H1 H2 r tl e n Hr He HF Hn. rewrite <- (assoc_L (++)) in Hr.
  rewrite Z_of_nat_length_app in He.
  destruct (H1 r (c2 ++ tl) e n Hr) as (r1 & n1 & E1 & R1 & L1 & N1); [lia|done|done|].
  pose proof (len_rest r) as Lr. pose proof (len_rest r1) as Lr1. rewrite R1 in Lr1.
  rewrite Hr, !Z_of_nat_length_app in Lr. rewrite !Z_of_nat_length_app in Lr1.
  assert (length (c2 ++ tl) <= length (rest r))%nat by (rewrite Hr, (length_app c1); lia).
  destruct (H2 r1 tl e n1 R1) as (r2 & n2 & E2 & R2 & L2 & N2); [lia|rewrite R1; lia|by rewrite R1|].
  exists r2, n2. rewrite E1, E2, R2, L2, L1. done.
Qed.

Lemma eats_when {M : Type} (sw : Z -> M -> reader -> jsres (flow M)) (F : nat)
    (c : bool) (chunk : bytes) (m m' : M) :
  (c = true -> eats sw F chunk m m') -> (c = false -> m' = m) ->
  eats sw F (if c then chunk else []) m m'.
Proof. intros H1 H0. destruct c; [by apply H1|rewrite H0 by done; apply eats_nil]. Qed.

(** One iteration: the tag selects a branch that reads a payload and continues. *)
Lemma eats_step {M : Type} (sw : Z -> M -> reader -> jsres (flow M)) (F : nat)
    (T : Z) (payload : bytes) (m m' : M) :
  tag_ok T = true ->
  (forall r tl, rest r = payload ++ tl -> (length (rest r) < F)%nat ->
    exists r', sw T m r = Ok (Continue m' r') /\ rest r' = tl /\ len r' = len r) ->
  eats sw F (enc_uint32 T ++ payload) m m'.
Proof.
  unfold tag_ok. intros HT Hsw r tl e n Hr He HF Hn. rewrite <- (assoc_L (++)) in Hr.
  destruct (rd_uint32_ok T r _ Hr) as (r1 & E1 & R1); [lia|].
  pose proof (rd_uint32_moves _ _ _ E1) as (L1 & P1 & _).
  pose proof (len_rest r) as Lr. pose proof (len_rest r1) as Lr1.
  assert (length (rest r1) < length (rest r))%nat as Hless by lia.
  destruct (Hsw r1 tl R1) as (r2 & E2 & R2 & L2); [lia|].
  destruct n as [|n]; [lia|]. exists r2, n. cbn [decode_loop].
  destruct (Z.ltb_spec (pos r) e) as [_|Hge].
  - unfold r_uint32. rewrite E1. cbn [lift res_bind]. rewrite E2. cbn [res_bind].
    assert (length tl <= length (rest r1))%nat by (rewrite R1, length_app; lia).
    repeat split; [done|by rewrite L2|lia].
  - rewrite Z_of_nat_length_app in He. rewrite Hr, R1, !length_app in Hless. lia.
Qed.

(** ** Field shapes

    [set v m] is the assignment [message.field = v]; the equations on [sw] are the branch of
    the message's switch for the field's tag. *)

Section Shapes.
Context {M : Type} (sw : Z -> M -> reader -> jsres (flow M)) (F : nat).

Lemma eats_scalar {A : Type} (wr : A -> writer -> jsres writer) (rd : reader -> jsres (A * reader))
    (enc : A -> bytes) (ok : A -> Prop) (HS : scalar wr rd enc ok)
    (T : Z) (m : M) (set : A -> M) (v : A) :
  tag_ok T = true -> ok v ->
  (forall r, sw T m r = let* (x, r') := rd r in Ok (Continue (set x) r')) ->
  eats sw F (enc_uint32 T ++ enc v) m (set v).
Proof.
  intros HT Hv Hsw. apply eats_step; [done|]. intros r tl Hr _. rewrite Hsw.
  destruct (scalar_reads _ _ _ _ HS v r tl Hv Hr) as (r' & E & R & Le).
  exists r'. by rewrite E.
Qed.

(** [for (const v of message.xs) { writer.uint32(T).k(v); }] read back by
    [message.xs.push(reader.k())]. *)
Lemma eats_each {A B : Type} (h : A -> B) (set : list B -> M) (b : A -> bytes) (ok : A -> Prop)
    (xs : list A) (acc : list B) :
  (forall v acc, ok v -> eats sw F (b v) (set acc) (set (acc ++ [h v]))) ->
  Forall ok xs ->
  eats sw F (concat (map b xs)) (set acc) (set (acc ++ map h xs)).
Proof.
  intros Hstep Hxs. revert acc. induction Hxs as [|x xs Hx Hxs IH]; intros acc; cbn.
  { rewrite app_nil_r. apply eats_nil. }
  eapply eats_app; [by apply Hstep|].
  replace (acc ++ h x :: map h xs) with ((acc ++ [h x]) ++ map h xs); [apply IH|].
  by rewrite <- (assoc_L (++)).
Qed.

(** [if (message.f !== d) { ... }]: a field left at its default is not written, and the
    base object already holds the default. *)
Lemma eats_scalar_when {A : Type} {wr : A -> writer -> jsres writer}
    {rd : reader -> jsres (A * reader)} {enc : A -> bytes} {ok : A -> Prop}
    (HS : scalar wr rd enc ok) (T : Z) (set : A -> M -> M) (d : A) (m : M) (v : A) (c : bool) :
  tag_ok T = true -> ok v -> (ok v -> c = false -> v = d) -> set d m = m ->
  (forall r, sw T m r = let* (x, r') := rd r in Ok (Continue (set x m) r')) ->
  eats sw F (if c then enc_uint32 T ++ enc v else []) m (set v m).
Proof.
  intros HT Hv Hd Hm Hsw. apply eats_when; intros Hc.
  - by apply (eats_scalar wr rd enc ok HS T m (fun x => set x m)).
  - by rewrite (Hd Hv Hc).
Qed.

(** [if (message.f !== undefined && message.f !== d) { ... }] *)
Lemma eats_scalar_opt {A : Type} {wr : A -> writer -> jsres writer}
    {rd : reader -> jsres (A * reader)} {enc : A -> bytes} {ok : A -> Prop}
    (HS : scalar wr rd enc ok) (T : Z) (set : option A -> M -> M) (d : A) (m : M) (o : option A)
    (c : A -> bool) :
  tag_ok T = true -> opt_all ok o -> (forall v, ok v -> c v = false -> v = d) ->
  set (Some d) m = m ->
  (forall r, sw T m r = let* (x, r') := rd r in Ok (Continue (set (Some x) m) r')) ->
  eats sw F (match o with Some v => if c v then enc_uint32 T ++ enc v else [] | None => [] end)
    m (set (Some (default d o)) m).
Proof.
  intros HT Ho Hd Hm Hsw. destruct o as [v|]; cbn in *.
  - apply (eats_scalar_when HS T (fun x => set (Some x)) d m v (c v)); auto.
  - rewrite Hm. apply eats_nil.
Qed.

(** [if (message.f !== undefined) { writer.uint32(T).k(message.f); }] *)
Lemma eats_scalar_always {A : Type} {wr : A -> writer -> jsres writer}
    {rd : reader -> jsres (A * reader)} {enc : A -> bytes} {ok : A -> Prop}
    (HS : scalar wr rd enc ok) (T : Z) (set : option A -> M -> M) (m : M) (o : option A) :
  tag_ok T = true -> opt_all ok o -> set None m = m ->
  (forall r, sw T m r = let* (x, r') := rd r in Ok (Continue (set (Some x) m) r')) ->
  eats sw F (match o with Some v => enc_uint32 T ++ enc v | None => [] end) m (set o m).
Proof.
  intros HT Ho Hm Hsw. destruct o as [v|]; cbn in *.
  - by apply (eats_scalar wr rd enc ok HS T m (fun x => set (Some x) m)).
  - rewrite Hm. apply eats_nil.
Qed.

(** A repeated scalar, one tag per element. *)
Lemma eats_repeated {A : Type} {wr : A -> writer -> jsres writer}
    {rd : reader -> jsres (A * reader)} {enc : A -> bytes} {ok : A -> Prop}
    (HS : scalar wr rd enc ok) (T : Z) (set : list A -> M -> M) (m : M) (xs : list A) :
  tag_ok T = true -> Forall ok xs -> set [] m = m ->
  (forall acc r, sw T (set acc m) r =
     let* (x, r') := rd r in Ok (Continue (set (acc ++ [x]) m) r')) ->
  eats sw F (concat (map (fun v => enc_uint32 T ++ enc v) xs)) m (set xs m).
Proof.
  intros HT Hxs Hm Hsw. rewrite <- Hm at 1.
  pose proof (eats_each id (fun x => set x m) (fun v => enc_uint32 T ++ enc v) ok xs []) as H.
  rewrite map_id in H. apply H; [|done]. intros v acc Hv.
  by apply (eats_scalar wr rd enc ok HS T (set acc m) (fun x => set (acc ++ [x]) m)).
Qed.
End Shapes.

(** ** Nested messages *)

(** The reader only moves forward, over the same input. *)
Definition moves (r r' : reader) : Prop := len r' = len r /\ pos r <= pos r'.

(** A decoder that terminates with one unit of fuel per byte and one more, and leaves the
    reader at or after where it found it. *)
Definition safe_decode_at {M : Type} (dec : nat -> input -> option Z -> jsres (M * reader))
    (f : nat) : Prop :=
  forall r l, (length (rest r) < f)%nat ->
    total (dec f (InReader r) l) (fun p => moves r (snd p)).

Definition safe_decode {M : Type} (dec : nat -> input -> option Z -> jsres (M * reader)) : Prop :=
  forall f, safe_decode_at dec f.

(** What a message type promises: encoding writes its image, decoding the image gives the
    normalised message, and decoding anything terminates. *)
Record codec {M : Type} (enc : M -> writer -> jsres writer)
    (dec : nat -> input -> option Z -> jsres (M * reader))
    (norm : M -> M) (image : M -> bytes) (ok : M -> Prop) : Prop := {
  codec_writes : forall m, ok m -> writes (enc m) (image m);
  codec_reads : forall m f r tl, ok m -> rest r = image m ++ tl -> (length (rest r) < f)%nat ->
    exists r', dec f (InReader r) (Some (Z.of_nat (length (image m)))) = Ok (norm m, r') /\
      rest r' = tl /\ len r' = len r;
}.

(** *** What the statements of [encode] write *)

Section WriteShapes.
Context {A : Type} {wr : A -> writer -> jsres writer} {rd : reader -> jsres (A * reader)}.
Context {enc : A -> bytes} {ok : A -> Prop} (HS : scalar wr rd enc ok) (T : Z).

Lemma writes_scalar (v : A) :
  tag_ok T = true -> ok v ->
  writes (fun w => let* w := w_uint32 (Int T) w in wr v w) (enc_uint32 T ++ enc v).
Proof. intros HT Hv. apply writes_field; [done|]. by apply (scalar_writes _ _ _ _ HS). Qed.

Lemma writes_scalar_when (c : bool) (v : A) :
  tag_ok T = true -> ok v ->
  writes (fun w => if c then let* w := w_uint32 (Int T) w in wr v w else Ok w)
         (if c then enc_uint32 T ++ enc v else []).
Proof. intros HT Hv. apply writes_when. intros _. by apply writes_scalar. Qed.

Lemma writes_scalar_opt (c : A -> bool) (o : option A) :
  tag_ok T = true -> opt_all ok o ->
  writes (fun w => match o with
                   | Some v => if c v then let* w := w_uint32 (Int T) w in wr v w else Ok w
                   | None => Ok w
                   end)
         (match o with Some v => if c v then enc_uint32 T ++ enc v else [] | None => [] end).
Proof. intros HT Ho. apply writes_option. intros v ->. by apply writes_scalar_when. Qed.

Lemma writes_scalar_always (o : option A) :
  tag_ok T = true -> opt_all ok o ->
  writes (fun w => match o with
                   | Some v => let* w := w_uint32 (Int T) w in wr v w
                   | None => Ok w
                   end)
         (match o with Some v => enc_uint32 T ++ enc v | None => [] end).
Proof. intros HT Ho. apply writes_option. intros v ->. by apply writes_scalar. Qed.

Lemma writes_repeated (xs : list A) :
  tag_ok T = true -> Forall ok xs ->
  writes (for_each (fun v w => let* w := w_uint32 (Int T) w in wr v w) xs)
         (concat (map (fun v => enc_uint32 T ++ enc v) xs)).
Proof.
  intros HT Hxs. apply (writes_each ok (fun v w => let* w := w_uint32 (Int T) w in wr v w)); [done|].
  intros v Hv. by apply writes_scalar.
Qed.

Lemma writes_packed (xs : list A) :
  tag_ok T = true -> Forall ok xs -> bytes_ok (concat (map enc xs)) ->
  writes (fun w => let* w := w_uint32 (Int T) w in
                   let* w := for_each (fun v w => wr v w) xs (fork w) in w_join w)
         (delimited T (concat (map enc xs))).
Proof.
  intros HT Hxs Hb. apply (writes_sub T (for_each wr xs)); [done| |done].
  apply (writes_each ok); [done|]. apply (scalar_writes _ _ _ _ HS).
Qed.
End WriteShapes.

Section WriteMessages.
Context {N : Type} {enc : N -> writer -> jsres writer}.
Context {dec : nat -> input -> option Z -> jsres (N * reader)}.
Context {norm : N -> N} {image : N -> bytes} {ok : N -> Prop}.
Context (HC : codec enc dec norm image ok) (T : Z).

Lemma writes_message_opt (o : option N) :
  tag_ok T = true -> opt_all (fun v => ok v /\ bytes_ok (image v)) o ->
  writes (fun w => match o with
                   | Some v => let* w := w_uint32 (Int T) w in
                               let* w := enc v (fork w) in w_join w
                   | None => Ok w
                   end)
         (match o with Some v => delimited T (image v) | None => [] end).
Proof.
  intros HT Ho.
  apply (writes_option o (fun v w => let* w := w_uint32 (Int T) w in
                                     let* w := enc v (fork w) in w_join w)).
  intros v ->. destruct Ho. apply (writes_sub T (enc v)); [done| |done].
  by apply (codec_writes _ _ _ _ _ HC).
Qed.

Lemma writes_message_rep (xs : list N) :
  tag_ok T = true -> Forall (fun v => ok v /\ bytes_ok (image v)) xs ->
  writes (for_each (fun v w => let* w := w_uint32 (Int T) w in
                               let* w := enc v (fork w) in w_join w) xs)
         (concat (map (fun v => delimited T (image v)) xs)).
Proof.
  intros HT Hxs.
  eapply (writes_each _ (fun v w => let* w := w_uint32 (Int T) w in
                                    let* w := enc v (fork w) in w_join w)); [done|].
  intros v [Hv Hb]. apply (writes_sub T (enc v)); [done| |done].
  by apply (codec_writes _ _ _ _ _ HC).
Qed.
End WriteMessages.

(** A decoder whose switch consumes the image chunk by chunk. *)
Lemma decode_with_reads {M : Type} (sw : Z -> M -> reader -> jsres (flow M)) (F n : nat)
    (base m : M) (image : bytes) (r : reader) (tl : bytes) :
  eats sw F image base m -> rest r = image ++ tl ->
  (length (rest r) <= F)%nat -> (length (rest r) < n)%nat ->
  exists r', decode_with sw base n (InReader r) (Some (Z.of_nat (length image))) = Ok (m, r') /\
    rest r' = tl /\ len r' = len r.
Proof.
  intros Heats Hr HF Hn. unfold decode_with. cbn [reader_of].
  destruct (Heats r tl _ n Hr (Z.le_refl _) HF Hn) as (r' & n' & E & R & Le & N).
  exists r'. rewrite E. split; [|done].
  pose proof (len_rest r) as Lr. pose proof (len_rest r') as Lr'.
  rewrite Hr, Z_of_nat_length_app in Lr. rewrite R in Lr'.
  destruct n' as [|n']; [lia|]. cbn [decode_loop].
  destruct (Z.ltb_spec (pos r') (pos r + Z.of_nat (length image))); [lia|done].
Qed.

Lemma eats_message {M N : Type} (sw : Z -> M -> reader -> jsres (flow M)) (F : nat)
    (enc : N -> writer -> jsres writer) (dec : nat -> input -> option Z -> jsres (N * reader))
    (norm : N -> N) (image : N -> bytes) (ok : N -> Prop) (HC : codec enc dec norm image ok)
    (T : Z) (m : M) (set : N -> M) (v : N) :
  tag_ok T = true -> ok v -> bytes_ok (image v) ->
  (forall r, sw T m r = let* (l, r1) := r_uint32 r in
                        let* (x, r2) := dec F (InReader r1) (Some l) in
                        Ok (Continue (set x) r2)) ->
  eats sw F (delimited T (image v)) m (set (norm v)).
Proof.
  intros HT Hv Hb Hsw. apply eats_step; [done|]. intros r tl Hr HF. rewrite Hsw.
  rewrite <- (assoc_L (++)) in Hr. unfold bytes_ok in Hb.
  destruct (rd_uint32_ok _ r _ Hr) as (r1 & E1 & R1); [lia|].
  pose proof (rd_uint32_moves _ _ _ E1) as (L1 & P1 & _).
  pose proof (len_rest r) as Lr. pose proof (len_rest r1) as Lr1.
  unfold r_uint32. rewrite E1. cbn [lift res_bind].
  destruct (codec_reads _ _ _ _ _ HC v F r1 tl Hv R1) as (r2 & E2 & R2 & L2); [lia|].
  rewrite E2. exists r2. cbn. by rewrite L2.
Qed.

(** An optional embedded message. *)
Lemma eats_message_opt {M N : Type} (sw : Z -> M -> reader -> jsres (flow M)) (F : nat)
    {enc : N -> writer -> jsres writer} {dec : nat -> input -> option Z -> jsres (N * reader)}
    {norm : N -> N} {image : N -> bytes} {ok : N -> Prop} (HC : codec enc dec norm image ok)
    (T : Z) (set : option N -> M -> M) (m : M) (o : option N) :
  tag_ok T = true -> opt_all (fun v => ok v /\ bytes_ok (image v)) o -> set None m = m ->
  (forall r, sw T m r = let* (l, r1) := r_uint32 r in
                        let* (x, r2) := dec F (InReader r1) (Some l) in
                        Ok (Continue (set (Some x) m) r2)) ->
  eats sw F (match o with Some v => delimited T (image v) | None => [] end) m
    (set (option_map norm o) m).
Proof.
  intros HT Ho Hm Hsw. destruct o as [v|]; cbn in *.
  - destruct Ho. by apply (eats_message sw F enc dec norm image ok HC T m (fun x => set (Some x) m)).
  - rewrite Hm. apply eats_nil.
Qed.

(** A repeated embedded message. *)
Lemma eats_message_rep {M N : Type} (sw : Z -> M -> reader -> jsres (flow M)) (F : nat)
    {enc : N -> writer -> jsres writer} {dec : nat -> input -> option Z -> jsres (N * reader)}
    {norm : N -> N} {image : N -> bytes} {ok : N -> Prop} (HC : codec enc dec norm image ok)
    (T : Z) (set : list N -> M -> M) (m : M) (xs : list N) :
  tag_ok T = true -> Forall (fun v => ok v /\ bytes_ok (image v)) xs -> set [] m = m ->
  (forall acc r, sw T (set acc m) r = let* (l, r1) := r_uint32 r in
                                      let* (x, r2) := dec F (InReader r1) (Some l) in
                                      Ok (Continue (set (acc ++ [x]) m) r2)) ->
  eats sw F (concat (map (fun v => delimited T (image v)) xs)) m (set (map norm xs) m).
Proof.
  intros HT Hxs Hm Hsw. rewrite <- Hm at 1.
  apply (eats_each sw F norm (fun x => set x m) (fun v => delimited T (image v)) _ xs [])
    with (2 := Hxs).
  intros v acc [Hv Hb].
  by apply (eats_message sw F enc dec norm image ok HC T (set acc m) (fun x => set (acc ++ [x]) m)).
Qed.

(** ** Packed fields *)

Lemma packed_loop_reads {A : Type} (wr : A -> writer -> jsres writer)
    (rd : reader -> jsres (A * reader)) (enc : A -> bytes) (ok : A -> Prop)
    (HS : scalar wr rd enc ok)
    (Hmoves : forall r v r', rd r = Ok (v, r') -> pos r < pos r')
    (xs acc : list A) (f : nat) (r : reader) (tl : bytes) :
  Forall ok xs -> rest r = concat (map enc xs) ++ tl -> (length (rest r) < f)%nat ->
  exists r', packed_loop rd f (pos r + Z.of_nat (length (concat (map enc xs)))) acc r =
      Ok (acc ++ xs, r') /\ rest r' = tl /\ len r' = len r.
Proof.
  intros Hxs. revert acc f r. induction Hxs as [|x xs Hx Hxs IH]; intros acc f r Hr Hf; cbn in *.
  { exists r. rewrite Z.add_0_r, app_nil_r. destruct f; [lia|]. cbn.
    by rewrite Z.ltb_irrefl. }
  rewrite <- (assoc_L (++)) in Hr. destruct f as [|f]; [lia|]. cbn [packed_loop].
  destruct (scalar_reads _ _ _ _ HS x r _ Hx Hr) as (r1 & E1 & R1 & L1). rewrite E1. cbn [res_bind].
  pose proof (Hmoves _ _ _ E1) as P1. pose proof (len_rest r) as Lr. pose proof (len_rest r1) as Lr1.
  assert (pos r1 = pos r + Z.of_nat (length (enc x))) as Epos.
  { rewrite Hr, Z_of_nat_length_app in Lr. rewrite R1 in Lr1. lia. }
  destruct (IH (acc ++ [x]) f r1 R1) as (r2 & E2 & R2 & L2); [lia|].
  exists r2. rewrite Z_of_nat_length_app.
  destruct (Z.ltb_spec (pos r) (pos r + (Z.of_nat (length (enc x)) +
    Z.of_nat (length (concat (map enc xs)))))); [|lia].
  rewrite Z.add_assoc, <- Epos, E2, <- (assoc_L (++)). by rewrite L2.
Qed.

Lemma eats_packed {M A : Type} (sw : Z -> M -> reader -> jsres (flow M)) (F : nat)
    {wr : A -> writer -> jsres writer} {rd : reader -> jsres (A * reader)} {enc : A -> bytes}
    {ok : A -> Prop} (HS : scalar wr rd enc ok)
    (Hmoves : forall r v r', rd r = Ok (v, r') -> pos r < pos r')
    (T : Z) (set : list A -> M -> M) (m : M) (xs : list A) :
  tag_ok T = true -> Forall ok xs -> bytes_ok (concat (map enc xs)) ->
  (forall r, sw T m r = let* (n, r1) := r_uint32 r in
                        let* (ys, r2) := packed_loop rd F (n + pos r1) [] r1 in
                        Ok (Continue (set ys m) r2)) ->
  eats sw F (delimited T (concat (map enc xs))) m (set xs m).
Proof.
  intros HT Hxs Hb Hsw. apply eats_step; [done|]. intros r tl Hr HF. rewrite Hsw.
  rewrite <- (assoc_L (++)) in Hr. unfold bytes_ok in Hb.
  destruct (rd_uint32_ok _ r _ Hr) as (r1 & E1 & R1); [lia|].
  pose proof (rd_uint32_moves _ _ _ E1) as (L1 & P1 & _).
  pose proof (len_rest r) as Lr. pose proof (len_rest r1) as Lr1.
  unfold r_uint32. rewrite E1. cbn [lift res_bind]. rewrite Z.add_comm.
  destruct (packed_loop_reads _ _ _ _ HS Hmoves xs [] F r1 tl Hxs R1) as (r2 & E2 & R2 & L2); [lia|].
  rewrite E2. exists r2. cbn. by rewrite L2.
Qed.

Lemma r_int32_forward (r : reader) (v : Z) (r' : reader) : r_int32 r = Ok (v, r') -> pos r < pos r'.
Proof.
  unfold r_int32. destruct (rd_int32 r) as [|[]] eqn:E; cbn; [done|]. intros [= -> ->].
  by apply rd_int32_moves in E as (_ & ? & _).
Qed.

Lemma r_int32_number_forward (r : reader) (v : number) (r' : reader) :
  r_int32_number r = Ok (v, r') -> pos r < pos r'.
Proof.
  unfold r_int32_number. intros H. inv_ok. by apply r_int32_forward in E.
Qed.

(** * Termination *)

#[local] Instance moves_preorder : PreOrder moves.
Proof. split; [intros r; split; [done|lia]|intros r1 r2 r3 [] []; split; [congruence|lia]]. Qed.

Lemma moves_rest (r r' : reader) : moves r r' -> (length (rest r') <= length (rest r))%nat.
Proof. intros [H1 H2]. pose proof (len_rest r). pose proof (len_rest r'). lia. Qed.

(** A scalar read finishes and moves forward. *)
Definition safe_read {A : Type} (rd : reader -> jsres (A * reader)) : Prop :=
  forall r, total (rd r) (fun p => moves r (snd p)).

Lemma safe_uint32 : safe_read r_uint32.
Proof.
  intros r. unfold r_uint32. destruct (rd_uint32 r) as [|[]] eqn:E; cbn; [done|].
  apply rd_uint32_moves in E as (? & ? & _). split; [done|lia].
Qed.

Lemma safe_int32 : safe_read r_int32.
Proof.
  intros r. unfold r_int32. destruct (rd_int32 r) as [|[]] eqn:E; cbn; [done|].
  apply rd_int32_moves in E as (? & ? & _). split; [done|lia].
Qed.

Lemma safe_uint32_number : safe_read r_uint32_number.
Proof. intros r. eapply total_bind; [apply safe_uint32|]. by intros []. Qed.

Lemma safe_int32_number : safe_read r_int32_number.
Proof. intros r. eapply total_bind; [apply safe_int32|]. by intros []. Qed.

Lemma safe_bool : safe_read r_bool.
Proof.
  intros r. unfold r_bool. destruct (rd_bool r) as [|[]] eqn:E; cbn; [done|].
  by apply rd_bool_moves in E.
Qed.

Lemma safe_double : safe_read r_double.
Proof.
  intros r. unfold r_double. destruct (rd_double r) as [|[]] eqn:E; cbn; [done|].
  by apply rd_double_moves in E.
Qed.

Lemma safe_string : safe_read r_string.
Proof.
  intros r. unfold r_string. destruct (rd_string r) as [|[]] eqn:E; cbn; [done|].
  by apply rd_string_moves in E.
Qed.

Lemma safe_bytes : safe_read r_bytes.
Proof.
  intros r. unfold r_bytes. destruct (rd_bytes r) as [|[]] eqn:E; cbn; [done|].
  by apply rd_bytes_moves in E.
Qed.

(** One execution of a switch finishes; if it continues, the reader moved forward. *)
Definition safe_step {M : Type} (r : reader) (c : jsres (flow M)) : Prop :=
  total c (fun n => match n with Continue _ r' => moves r r' | Break => True end).

Definition safe_switch {M : Type} (sw : Z -> M -> reader -> jsres (flow M)) (F : nat) : Prop :=
  forall tag m r, (length (rest r) < F)%nat -> safe_step r (sw tag m r).

Lemma safe_break {M : Type} (r : reader) : safe_step (M := M) r (Ok Break).
Proof. exact I. Qed.

Lemma safe_scalar {M A : Type} (rd : reader -> jsres (A * reader)) (k : A -> M) (r : reader) :
  safe_read rd -> safe_step r (let* (x, r') := rd r in Ok (Continue (k x) r')).
Proof. intros H. eapply total_bind; [apply H|]. by intros []. Qed.

Lemma safe_message {M N : Type} (dec : nat -> input -> option Z -> jsres (N * reader)) (F : nat)
    (k : N -> M) (r : reader) :
  safe_decode_at dec F -> (length (rest r) < F)%nat ->
  safe_step r (let* (l, r1) := r_uint32 r in
               let* (x, r2) := dec F (InReader r1) (Some l) in Ok (Continue (k x) r2)).
Proof.
  intros H HF. eapply total_bind; [apply safe_uint32|]. intros [l r1] H1. cbn in H1.
  pose proof (moves_rest _ _ H1). eapply total_bind; [apply H; lia|].
  intros [x r2] H2. cbn in *. by transitivity r1.
Qed.

Lemma packed_loop_safe {A : Type} (rd : reader -> jsres (A * reader)) :
  safe_read rd -> (forall r v r', rd r = Ok (v, r') -> pos r < pos r') ->
  forall f e xs r, (length (rest r) < f)%nat ->
    total (packed_loop rd f e xs r) (fun p => moves r (snd p)).
Proof.
  intros Hrd Hfw. induction f as [|f IH]; intros e xs r Hf; [lia|].
  cbn [packed_loop]. destruct (pos r <? e); [|cbn; reflexivity].
  pose proof (Hrd r) as Hr. destruct (rd r) as [[v r1]|er|] eqn:E; cbn in *; try done.
  pose proof (Hfw _ _ _ E). destruct Hr as [HL HP]. pose proof (len_rest r). pose proof (len_rest r1).
  eapply total_mono; [apply IH; lia|]. intros [ys r2] H2. cbn in *. transitivity r1; [by split|done].
Qed.

Lemma safe_packed {M A : Type} (rd : reader -> jsres (A * reader)) (F : nat)
    (acc : list A) (k : list A -> M) (r : reader) :
  safe_read rd -> (forall r v r', rd r = Ok (v, r') -> pos r < pos r') ->
  (length (rest r) < F)%nat ->
  safe_step r (let* (n, r1) := r_uint32 r in
               let* (ys, r2) := packed_loop rd F (n + pos r1) acc r1 in
               Ok (Continue (k ys) r2)).
Proof.
  intros Hrd Hfw HF. eapply total_bind; [apply safe_uint32|]. intros [l r1] H1. cbn in H1.
  pose proof (moves_rest _ _ H1).
  eapply total_bind; [by apply packed_loop_safe; [| |lia]|].
  intros [x r2] H2. cbn in *. by transitivity r1.
Qed.

(** The decode loop terminates: every iteration consumes at least the byte of a tag. *)
Lemma decode_loop_safe {M : Type} (sw : Z -> M -> reader -> jsres (flow M)) (F : nat) :
  safe_switch sw F ->
  forall n e m r, (length (rest r) <= F)%nat -> (length (rest r) < n)%nat ->
    total (decode_loop sw n e m r) (fun p => moves r (snd p)).
Proof.
  intros Hsw. induction n as [|n IH]; intros e m r HF Hn; [lia|].
  cbn [decode_loop]. destruct (pos r <? e); [|cbn; reflexivity].
  unfold r_uint32 at 1. destruct (rd_uint32 r) as [|[tag r1]] eqn:E; cbn [lift res_bind]; [done|].
  apply rd_uint32_moves in E as (L1 & P1 & _).
  pose proof (len_rest r). pose proof (len_rest r1).
  assert (moves r r1) as M1 by (split; [done|lia]).
  eapply total_bind; [apply Hsw; lia|]. intros [m' r2|] H2.
  - pose proof (moves_rest _ _ H2).
    eapply total_mono; [apply IH; lia|]. intros [? r3] H3. cbn in *.
    transitivity r1; [done|]. by transitivity r2.
  - destruct (_ || _); [done|]. unfold r_skip.
    destruct (rd_skip (Z.land tag 7) r1) as [|r2] eqn:E2; cbn [lift res_bind]; [done|].
    apply rd_skip_moves in E2. pose proof (moves_rest _ _ E2).
    eapply total_mono; [apply IH; lia|]. intros [? r3] H3. cbn in *.
    transitivity r1; [done|]. by transitivity r2.
Qed.

(** A recursive message type: decoding it with one unit of fuel more embeds a decoder with
    one unit less. *)
Lemma decode_rec_safe {M : Type} (dec : nat -> input -> option Z -> jsres (M * reader))
    (sw : (nat -> input -> option Z -> jsres (M * reader)) -> nat -> Z -> M -> reader -> jsres (flow M))
    (base : M) :
  (forall f i l, dec (S f) i l = decode_with (sw dec f) base (S f) i l) ->
  (forall F, safe_decode_at dec F -> safe_switch (sw dec F) F) ->
  safe_decode dec.
Proof.
  intros Hdec Hsw f. induction f as [|f IH]; intros r l Hf; [lia|].
  rewrite Hdec. apply (decode_loop_safe _ f); [by apply Hsw|lia|done].
Qed.

Lemma decode_with_safe {M : Type} (sw : nat -> Z -> M -> reader -> jsres (flow M)) (base : M) :
  (forall F, safe_switch (sw F) F) ->
  safe_decode (fun f i l => decode_with (sw f) base f i l).
Proof.
  intros Hsw f r l Hf. unfold decode_with. cbn [reader_of].
  apply (decode_loop_safe _ f); [done|lia|done].
Qed.

(** ** Defaults that are not written *)

Lemma str_default (v : jsstring) : negb (str_eqb v (js "")) = false -> v = js "".
Proof. rewrite negb_false_iff. apply str_eqb_spec. Qed.

Lemma bool_default (v d : bool) : negb (Bool.eqb v d) = false -> v = d.
Proof. rewrite negb_false_iff. apply Bool.eqb_prop. Qed.

Lemma enum_default (v d : Z) : negb (v =? d) = false -> v = d.
Proof. rewrite negb_false_iff. apply Z.eqb_eq. Qed.

Lemma num_default (v : number) :
  v <> NegZero -> negb (num_eqb v (Int 0)) = false -> v = Int 0.
Proof. rewrite negb_false_iff. apply num_eqb_zero. Qed.

Lemma bytes_default (v : bytes) : has_length v = false -> v = [].
Proof. by destruct v. Qed.

Lemma uint32_default (v : number) :
  uint32_ok v -> negb (num_eqb v (Int 0)) = false -> v = Int 0.
Proof. intros (n & -> & _). by apply num_default. Qed.

Lemma int32_default (v : number) :
  int32_ok v -> negb (num_eqb v (Int 0)) = false -> v = Int 0.
Proof. intros (n & -> & _). by apply num_default. Qed.

Lemma uint64_default (v : number) :
  uint64_safe v -> negb (num_eqb v (Int 0)) = false -> v = Int 0.
Proof. intros (n & -> & _). by apply num_default. Qed.

Lemma int64_default (v : number) :
  int64_safe v -> negb (num_eqb v (Int 0)) = false -> v = Int 0.
Proof. intros (n & -> & _). by apply num_default. Qed.

Lemma double_default (v : number) :
  double_ok v -> negb (num_eqb v (Int 0)) = false -> v = Int 0.
Proof. intros [_ Hz]. by apply num_default. Qed.

(** ** Decoding whole inputs *)

(** Without a length, [decode] runs to the end of the reader. *)
Lemma decode_with_none {M : Type} (sw : Z -> M -> reader -> jsres (flow M)) (base : M) (f : nat) (i : input) :
  decode_with sw base f i None =
  decode_with sw base f i (Some (len (reader_of i) - pos (reader_of i))).
Proof. unfold decode_with. f_equal. lia. Qed.

(** [decode] of a byte array is [decode] of a new reader over it, and without a length it
    runs to the end. *)
Definition decodes_whole {M : Type} (dec : nat -> input -> option Z -> jsres (M * reader)) : Prop :=
  forall f b, dec f (InBytes b) None = dec f (InReader (new_reader b)) (Some (Z.of_nat (length b))).

Lemma len_new (b : bytes) : len (new_reader b) = Z.of_nat (length b).
Proof. pose proof (len_rest (new_reader b)) as H. rewrite pos_new, rest_new in H. lia. Qed.

Lemma fuel_for_new (b : bytes) : fuel_for (new_reader b) = S (length b).
Proof. unfold fuel_for. rewrite len_new, pos_new. lia. Qed.

Lemma decode_with_whole {M : Type} (sw : nat -> Z -> M -> reader -> jsres (flow M)) (base : M) :
  decodes_whole (fun f i l => decode_with (sw f) base f i l).
Proof. intros f b. unfold decode_with. cbn [reader_of]. f_equal. rewrite len_new, pos_new. lia. Qed.

Lemma decode_with_reader {M : Type} (sw : Z -> M -> reader -> jsres (flow M)) (base : M) (f : nat)
    (b : bytes) (l : option Z) :
  decode_with sw base f (InReader (new_reader b)) l = decode_with sw base f (InBytes b) l.
Proof. done. Qed.

(** The bytes of a whole message: encoding it into a new writer and decoding the result. *)
Definition encoded {M : Type} (enc : M -> writer -> jsres writer) (m : M) : jsres bytes :=
  let* w := enc m new_writer in Ok (finish w).

Definition decoded {M : Type} (dec : nat -> input -> option Z -> jsres (M * reader)) (b : bytes)
    : jsres M :=
  let* (m, _) := dec (fuel_for (new_reader b)) (InBytes b) None in Ok m.

Lemma encoded_image {M : Type} {enc : M -> writer -> jsres writer}
    {dec : nat -> input -> option Z -> jsres (M * reader)} {norm : M -> M} {image : M -> bytes}
    {ok : M -> Prop} (HC : codec enc dec norm image ok) (m : M) :
  ok m -> encoded enc m = Ok (image m).
Proof.
  intros Hm. destruct (writes_finish _ _ (codec_writes _ _ _ _ _ HC m Hm)) as (w & E & Hw).
  unfold encoded. by rewrite E; cbn; rewrite Hw.
Qed.

Lemma decoded_image {M : Type} {enc : M -> writer -> jsres writer}
    {dec : nat -> input -> option Z -> jsres (M * reader)} {norm : M -> M} {image : M -> bytes}
    {ok : M -> Prop} (HC : codec enc dec norm image ok) (m : M) :
  decodes_whole dec -> ok m -> decoded dec (image m) = Ok (norm m).
Proof.
  intros Hdec Hm. unfold decoded. rewrite Hdec, fuel_for_new.
  destruct (codec_reads _ _ _ _ _ HC m (S (length (image m))) (new_reader (image m)) [] Hm)
    as (r & E & _).
  - by rewrite rest_new, app_nil_r.
  - rewrite rest_new. lia.
  - by rewrite E.
Qed.

(** Encoding and decoding a message gives its normal form. *)
Lemma codec_roundtrip {M : Type} {enc : M -> writer -> jsres writer}
    {dec : nat -> input -> option Z -> jsres (M * reader)} {norm : M -> M} {image : M -> bytes}
    {ok : M -> Prop} (HC : codec enc dec norm image ok) (m : M) :
  decodes_whole dec -> ok m -> (let* b := encoded enc m in decoded dec b) = Ok (norm m).
Proof. intros Hdec Hm. rewrite (encoded_image HC m Hm). by apply (decoded_image HC). Qed.

(** Decoding any bytes terminates. *)
Lemma decoded_total {M : Type} (dec : nat -> input -> option Z -> jsres (M * reader)) (b : bytes) :
  decodes_whole dec -> safe_decode dec -> decoded dec b <> OutOfFuel.
Proof.
  intros Hdec Hsafe. unfold decoded. rewrite Hdec, fuel_for_new.
  assert (length (rest (new_reader b)) < S (length b))%nat as Hb by (rewrite rest_new; lia).
  pose proof (Hsafe _ (new_reader b) (Some (Z.of_nat (length b))) Hb) as Ht.
  by destruct (dec _ _ _) as [[]| |].
Qed.

(** A message whose switch consumes given bytes decodes from them. *)
Lemma decoded_eats {M : Type} (sw : nat -> Z -> M -> reader -> jsres (flow M)) (base m : M) (b : bytes) :
  eats (sw (S (length b))) (S (length b)) b base m ->
  decoded (fun f i l => decode_with (sw f) base f i l) b = Ok m.
Proof.
  intros Heats. unfold decoded.
  rewrite (decode_with_whole sw base), fuel_for_new.
  destruct (decode_with_reads _ _ (S (length b)) _ _ _ (new_reader b) [] Heats) as (r & E & _).
  - by rewrite rest_new, app_nil_r.
  - rewrite rest_new. lia.
  - rewrite rest_new. lia.
  - by rewrite E.
Qed.

(** ** Unknown fields

    A field whose tag the switch leaves alone is skipped, whatever its number: a varint, or
    anything length-delimited. *)
Lemma eats_unknown {M : Type} (sw : Z -> M -> reader -> jsres (flow M)) (F : nat)
    (T : Z) (payload : bytes) (m : M) :
  tag_ok T = true -> T <> 0 -> Z.land T 7 <> 4 ->
  (forall r, sw T m r = Ok Break) ->
  (forall r tl, rest r = payload ++ tl -> exists r', rd_skip (Z.land T 7) r = inr r' /\ rest r' = tl) ->
  eats sw F (enc_uint32 T ++ payload) m m.
Proof.
  unfold tag_ok. intros HT HT0 HT4 Hsw Hskip r tl e n Hr He HF Hn. rewrite <- (assoc_L (++)) in Hr.
  destruct (rd_uint32_ok T r _ Hr) as (r1 & E1 & R1); [lia|].
  pose proof (rd_uint32_moves _ _ _ E1) as (L1 & P1 & _).
  pose proof (len_rest r) as Lr. pose proof (len_rest r1) as Lr1.
  destruct (Hskip r1 tl R1) as (r2 & E2 & R2).
  pose proof (rd_skip_moves _ _ _ E2) as [L2 P2]. pose proof (len_rest r2) as Lr2.
  destruct n as [|n]; [lia|]. exists r2, n. cbn [decode_loop].
  destruct (Z.ltb_spec (pos r) e) as [_|Hge].
  - unfold r_uint32. rewrite E1. cbn [lift res_bind]. rewrite Hsw. cbn [res_bind].
    rewrite (proj2 (Z.eqb_neq _ _) HT4), (proj2 (Z.eqb_neq _ _) HT0). cbn [orb].
    unfold r_skip. rewrite E2. cbn [lift res_bind].
    repeat split; [done|congruence|]. rewrite R2 in Lr2. lia.
  - rewrite Hr, Z_of_nat_length_app in Lr. rewrite Z_of_nat_length_app in He.
    rewrite R1 in Lr1. rewrite Z_of_nat_length_app in Lr1, Lr. lia.
Qed.

(** The bytes of a field that is not part of the message: a varint or a byte string. *)
Inductive unknown_field : Type :=
| UnknownVarint (number : Z) (n : Z)
| UnknownBytes (number : Z) (b : bytes).

Definition unknown_tag (u : unknown_field) : Z :=
  match u with
  | UnknownVarint k _ => 8 * k + 0
  | UnknownBytes k _ => 8 * k + 2
  end.

Definition unknown_bytes (u : unknown_field) : bytes :=
  enc_uint32 (unknown_tag u) ++
  match u with
  | UnknownVarint _ n => enc_uint64 n
  | UnknownBytes _ b => enc_bytes b
  end.

Definition unknown_ok (u : unknown_field) : Prop :=
  match u with
  | UnknownVarint k n => 0 < k < 2 ^ 29 /\ 0 <= n < 2 ^ 53
  | UnknownBytes k b => 0 < k < 2 ^ 29 /\ bytes_ok b
  end.

Lemma tag_wire_type (k t : Z) : 0 <= t < 8 -> Z.land (8 * k + t) 7 = t.
Proof.
  intros Ht. change 7 with (Z.ones 3). rewrite Z.land_ones by lia. change (2 ^ 3) with 8.
  rewrite Z.add_comm, Z.mul_comm, Z.mod_add by lia. by apply Z.mod_small.
Qed.

Lemma eats_unknown_field {M : Type} (sw : Z -> M -> reader -> jsres (flow M)) (F : nat)
    (u : unknown_field) (m : M) :
  unknown_ok u -> (forall r, sw (unknown_tag u) m r = Ok Break) ->
  eats sw F (unknown_bytes u) m m.
Proof.
  intros Hu Hsw. destruct u as [k n|k b]; destruct Hu as [Hk Hp]; unfold unknown_bytes;
    cbn [unknown_tag] in *; (apply eats_unknown; [unfold tag_ok; lia|lia| |done|]);
    rewrite tag_wire_type by lia.
  - done.
  - intros r tl Hr. by apply (skip_varint n).
  - done.
  - intros r tl Hr. by apply (skip_bytes b).
Qed.
End Facts.

Lemma safe_decode_all {RT : WireRuntime} {L : WireLaws RT} {M : Type}
    (dec : nat -> input -> option Z -> jsres (M * reader)) (f : nat) :
  safe_decode dec -> safe_decode_at dec f.
Proof. intros H. apply H. Qed.

#[export] Hint Resolve safe_decode_all safe_uint32 safe_int32 safe_uint32_number safe_int32_number safe_bool
  safe_double safe_string safe_bytes r_int32_forward r_int32_number_forward
  safe_break safe_scalar safe_message safe_packed : model.

(** * Tactics for message codecs

    The arguments name the field's scalar law (or the embedded message's codec), its tag, its
    assignment and its default; everything else is found by computation. *)
Ltac solve_default :=
  intros; first [ by apply str_default | by apply bool_default | by apply enum_default
                | by apply bytes_default | by apply uint32_default | by apply int32_default
                | by apply uint64_default | by apply int64_default | by apply double_default ].

Ltac eat tac := eapply eats_app; [tac|].

(** Puts the message reached so far into constructor form; [f] computes the assignments and
    projections of the message type. *)
Ltac settle f :=
  lazymatch goal with
  | |- eats ?sw ?F ?c ?m ?m' => let m1 := f m in change (eats sw F c m1 m')
  end.

Ltac eat_scalar HS T set d :=
  eat ltac:(apply (eats_scalar_when _ _ HS T set d);
            [reflexivity|assumption|solve_default|reflexivity|intros; reflexivity]).
Ltac eat_opt HS T set d :=
  eat ltac:(apply (eats_scalar_opt _ _ HS T set d);
            [reflexivity|assumption|solve_default|reflexivity|intros; reflexivity]).
Ltac eat_always HS T set :=
  eat ltac:(apply (eats_scalar_always _ _ HS T set);
            [reflexivity|assumption|reflexivity|intros; reflexivity]).
Ltac eat_repeated HS T set :=
  eat ltac:(apply (eats_repeated _ _ HS T set);
            [reflexivity|assumption|reflexivity|intros; reflexivity]).
Ltac eat_packed HS Hfw T set :=
  eat ltac:(apply (eats_packed _ _ HS Hfw T set);
            [reflexivity|assumption|assumption|intros; reflexivity]).
Ltac eat_message HC T set :=
  eat ltac:(apply (eats_message_opt _ _ HC T set);
            [reflexivity|assumption|reflexivity|intros; reflexivity]).
Ltac eat_messages HC T set :=
  eat ltac:(apply (eats_message_rep _ _ HC T set);
            [reflexivity|assumption|reflexivity|intros; reflexivity]).

(** The statements of an [encode], in order. *)
Ltac write_scalar_as HS :=
  first [ apply (writes_scalar_when HS) | apply (writes_scalar_opt HS)
        | apply (writes_scalar_always HS) | apply (writes_repeated HS) | apply (writes_packed HS) ];
  [reflexivity|assumption..].
Ltac write_message_as HC :=
  first [ apply (writes_message_opt HC) | apply (writes_message_rep HC) ];
  [reflexivity|assumption].
Ltac write tac := apply writes_seq; [tac|].

(** A switch all of whose branches are field reads. *)
Ltac solve_safe_switch :=
  repeat match goal with
  | |- safe_step _ (if ?c then _ else _) => destruct c
  | |- safe_step _ (let _ := _ in _) => cbv zeta
  end; eauto with model.
