(* ===== verification/DescriptorBase.v ===== *)
(** The helper functions of [gen/ts/google/protobuf/descriptor.ts]: conversion of 64-bit
    integers to JavaScript numbers and base64 conversion of [bytes] fields. *)

From stdpp Require Import base list numbers strings.
From Stdlib Require Import Strings.Byte ZArith Lia.
From S2P Require Import Prelude JsNumber JsValue Wire WireFacts.
Local Open Scope Z_scope.

(** * 64-bit integers *)

Definition MAX_SAFE_INTEGER : Z := 2 ^ 53 - 1.
Definition MIN_SAFE_INTEGER : Z := - (2 ^ 53 - 1).

(** The argument is a [bigint] or a decimal string; either way [toString()] is its decimal
    form. *)
Definition longToNumber (int64 : Z) : jsres number :=
  let num := string_to_number (dec_of_Z int64) in
  if num_ltb (Int MAX_SAFE_INTEGER) num then
    Throw (JsError (js "Value is larger than Number.MAX_SAFE_INTEGER"))
  else if num_ltb num (Int MIN_SAFE_INTEGER) then
    Throw (JsError (js "Value is smaller than Number.MIN_SAFE_INTEGER"))
  else Ok num.

(** [longToNumber(reader.k())] *)
Definition longToNumber_of {RT : WireRuntime} (rd : reader -> jsres (Z * reader)) (r : reader)
    : jsres (number * reader) :=
  let* (n, r') := rd r in
  let* x := longToNumber n in
  Ok (x, r').

(** * Base64

    The host environment provides either Node's [Buffer] or the [atob]/[btoa] functions. *)
Class JsHost := {
  has_Buffer : bool;
  Buffer_from_base64 : value -> js_error + bytes;
  Buffer_to_base64 : bytes -> jsstring;
  atob : value -> js_error + jsstring;
  btoa : jsstring -> jsstring;
}.

Definition code_of_byte (b : byte) : Z := Z.of_N (Byte.to_N b).

(** Storing a number in a [Uint8Array] keeps its low eight bits. *)
Definition byte_of_code (z : Z) : byte :=
  default Byte.x00 (Byte.of_N (Z.to_N (z mod 256))).

Section Base64.
Context {HO : JsHost}.

Definition bytesFromBase64 (b64 : value) : jsres bytes :=
  if has_Buffer then lift (Buffer_from_base64 b64)
  else
    let* bin := lift (atob b64) in
    Ok (map byte_of_code bin).

Definition base64FromBytes (arr : bytes) : jsstring :=
  if has_Buffer then Buffer_to_base64 arr
  else btoa (map code_of_byte arr).
End Base64.

(** What the sources rely on: the two directions of the host's base64 are inverse, on bytes
    and on strings of character codes below 256. *)
Class JsHostLaws (HO : JsHost) := {
  Buffer_base64_inverse : forall b, Buffer_from_base64 (VString (Buffer_to_base64 b)) = inr b;
  atob_btoa_inverse : forall s, Forall (fun c => 0 <= c < 256) s ->
    atob (VString (btoa s)) = inr s;
}.

(** * Facts *)

Lemma longToNumber_safe (n : Z) : - 2 ^ 53 < n < 2 ^ 53 -> longToNumber n = Ok (Int n).
Proof.
  intros Hn. unfold longToNumber. rewrite string_to_number_dec.
  replace (if n <? 0 then num_neg (round_ratio (- n) 1) else round_ratio n 1) with (Int n).
  2:{ destruct (Z.ltb_spec n 0); rewrite round_ratio_small by lia; [|done].
      cbn [num_neg]. destruct (Z.eqb_spec (- n) 0); [lia|f_equal; lia]. }
  unfold num_ltb, MAX_SAFE_INTEGER, MIN_SAFE_INTEGER. cbn [num_ratio].
  destruct (Z.ltb_spec ((2 ^ 53 - 1) * 1) (n * 1)); [lia|].
  destruct (Z.ltb_spec (n * 1) (- (2 ^ 53 - 1) * 1)); [lia|done].
Qed.

Lemma longToNumber_large (n : Z) :
  2 ^ 53 <= n ->
  longToNumber n = Throw (JsError (js "Value is larger than Number.MAX_SAFE_INTEGER")).
Proof.
  intros Hn. unfold longToNumber. rewrite string_to_number_dec.
  destruct (Z.ltb_spec n 0); [lia|].
  destruct (round_ratio_large n Hn) as [(v & -> & Hv)| ->]; [|done].
  unfold num_ltb, MAX_SAFE_INTEGER. cbn [num_ratio].
  destruct (Z.ltb_spec ((2 ^ 53 - 1) * 1) (v * 1)); [done|lia].
Qed.

Lemma longToNumber_small (n : Z) :
  n <= - 2 ^ 53 ->
  longToNumber n = Throw (JsError (js "Value is smaller than Number.MIN_SAFE_INTEGER")).
Proof.
  intros Hn. unfold longToNumber. rewrite string_to_number_dec.
  destruct (Z.ltb_spec n 0); [|lia].
  destruct (round_ratio_large (- n)) as [(v & -> & Hv)| ->]; [lia| |done].
  cbn [num_neg]. destruct (Z.eqb_spec v 0); [lia|].
  unfold num_ltb, MAX_SAFE_INTEGER, MIN_SAFE_INTEGER. cbn [num_ratio].
  destruct (Z.ltb_spec ((2 ^ 53 - 1) * 1) (- v * 1)); [lia|].
  destruct (Z.ltb_spec (- v * 1) (- (2 ^ 53 - 1) * 1)); [done|lia].
Qed.

Lemma longToNumber_total (n : Z) : longToNumber n <> OutOfFuel.
Proof. unfold longToNumber. by repeat destruct (num_ltb _ _). Qed.

Section LongScalars.
Context {RT : WireRuntime} {L : WireLaws RT}.

Lemma uint64_scalar :
  scalar w_uint64 (longToNumber_of r_uint64) (enc_number enc_uint64) uint64_safe.
Proof.
  split.
  - intros x (n & -> & Hn) w c st Hw. destruct (wr_uint64_ok n w c st Hw Hn) as (w' & E & V).
    exists w'. unfold w_uint64. by rewrite E.
  - intros x r tl (n & -> & Hn) Hr. destruct (rd_uint64_ok n r tl Hr) as (r' & E & V); [lia|].
    exists r'. unfold longToNumber_of, r_uint64. rewrite E. cbn [lift res_bind].
    rewrite longToNumber_safe by lia. by apply rd_uint64_moves in E as [? _].
Qed.

Lemma int64_scalar :
  scalar w_int64 (longToNumber_of r_int64) (enc_number enc_int64) int64_safe.
Proof.
  split.
  - intros x (n & -> & Hn) w c st Hw. destruct (wr_int64_ok n w c st Hw Hn) as (w' & E & V).
    exists w'. unfold w_int64. by rewrite E.
  - intros x r tl (n & -> & Hn) Hr. destruct (rd_int64_ok n r tl Hr) as (r' & E & V); [lia|].
    exists r'. unfold longToNumber_of, r_int64. rewrite E. cbn [lift res_bind].
    rewrite longToNumber_safe by lia. by apply rd_int64_moves in E as [? _].
Qed.

Lemma safe_long (rd : reader -> jsres (Z * reader)) :
  safe_read rd -> safe_read (longToNumber_of rd).
Proof.
  intros H r. eapply total_bind; [apply H|]. intros [n r'] Hm.
  pose proof (longToNumber_total n). by destruct (longToNumber n).
Qed.

Lemma safe_uint64 : safe_read r_uint64.
Proof.
  intros r. unfold r_uint64. destruct (rd_uint64 r) as [|[]] eqn:E; cbn; [done|].
  by apply rd_uint64_moves in E.
Qed.

Lemma safe_int64 : safe_read r_int64.
Proof.
  intros r. unfold r_int64. destruct (rd_int64 r) as [|[]] eqn:E; cbn; [done|].
  by apply rd_int64_moves in E.
Qed.
End LongScalars.
#[export] Hint Resolve safe_long safe_uint64 safe_int64 : model.

Lemma byte_of_code_of_byte (b : byte) : byte_of_code (code_of_byte b) = b.
Proof. by destruct b. Qed.

Lemma code_of_byte_range (b : byte) : 0 <= code_of_byte b < 256.
Proof. by destruct b. Qed.

Section Base64Facts.
Context {HO : JsHost} {HL : JsHostLaws HO}.

Lemma base64_inverse (b : bytes) : bytesFromBase64 (VString (base64FromBytes b)) = Ok b.
Proof.
  unfold bytesFromBase64, base64FromBytes. destruct has_Buffer.
  - by rewrite Buffer_base64_inverse.
  - rewrite atob_btoa_inverse.
    + cbn. rewrite map_map. f_equal. rewrite <- (map_id b) at 2. apply map_ext, byte_of_code_of_byte.
    + apply Forall_map, Forall_true. intros. apply code_of_byte_range.
Qed.

Lemma field_bytes (ps : props) (k : string) (o : option bytes) :
  get_own (js k) ps =
    match o with
    | Some v => if has_length v then VString (base64FromBytes v) else VUndefined
    | None => VUndefined
    end ->
  field (VObject ps) k bytesFromBase64 [] = Ok (default [] o).
Proof.
  intros H. unfold field, get_prop, if_set. cbn [res_bind]. rewrite H.
  destruct o as [[|x v]|]; [done| |done]. cbn [has_length isSet]. apply base64_inverse.
Qed.
End Base64Facts.
