(* ===== verification/WireInstance.v ===== *)
(** A concrete wire runtime that satisfies the laws of [Wire], and a concrete host for the
    base64 functions: they show that the hypotheses of the theorems about messages can hold,
    and evaluate the encoders and decoders on concrete messages.

    Integers, tags, lengths, embedded messages and byte strings are in the protobuf wire
    format (varints of seven bits per byte, least significant group first; negative numbers
    sign-extended to 64 bits).  Strings are length-delimited but carry two bytes per UTF-16
    code unit instead of UTF-8, and a [double] is carried as its canonical form. *)

From stdpp Require Import base list numbers strings.
From Stdlib Require Import Strings.Byte ZArith Lia.
From S2P Require Import Prelude JsNumber JsValue Wire WireFacts DescriptorBase.
Local Open Scope Z_scope.

(** * Parsers: functions that read a prefix of their input *)
Definition parser (A : Type) := bytes -> option (A * bytes).

Definition shrinks {A : Type} (p : parser A) : Prop :=
  forall b v tl, p b = Some (v, tl) -> (length tl <= length b)%nat.

Definition reads {A : Type} (p : parser A) (enc : bytes) (v : A) : Prop :=
  forall tl, p (enc ++ tl) = Some (v, tl).

Definition pbind {A B : Type} (p : parser A) (k : A -> parser B) : parser B :=
  fun b => match p b with Some (v, tl) => k v tl | None => None end.
Definition pret {A : Type} (v : A) : parser A := fun b => Some (v, b).

Lemma shrinks_bind {A B : Type} (p : parser A) (k : A -> parser B) :
  shrinks p -> (forall v, shrinks (k v)) -> shrinks (pbind p k).
Proof.
  intros Hp Hk b v tl. unfold pbind. destruct (p b) as [[x b']|] eqn:E; [|done].
  intros H. apply Hp in E. apply Hk in H. lia.
Qed.

Lemma shrinks_ret {A : Type} (v : A) : shrinks (pret v).
Proof. intros b x tl [= -> ->]. done. Qed.

Lemma reads_bind {A B : Type} (p : parser A) (k : A -> parser B) (e1 e2 : bytes) (v : A) (w : B) :
  reads p e1 v -> reads (k v) e2 w -> reads (pbind p k) (e1 ++ e2) w.
Proof. intros Hp Hk tl. unfold pbind. rewrite <- (assoc_L (++)), Hp. apply Hk. Qed.

Lemma reads_ret {A : Type} (v : A) : reads (pret v) [] v.
Proof. intros tl. done. Qed.

Lemma reads_map {A B : Type} (p : parser A) (f : A -> B) (e : bytes) (v : A) (w : B) :
  reads p e v -> f v = w -> reads (pbind p (fun x => pret (f x))) e w.
Proof. intros Hp <- tl. unfold pbind, pret. by rewrite Hp. Qed.

(** * Varints *)

Fixpoint varint_fuel (fuel : nat) (n : Z) : bytes :=
  match fuel with
  | O => []
  | S fuel' =>
      if n <? 128 then [byte_of_code n]
      else byte_of_code (128 + n mod 128) :: varint_fuel fuel' (n / 128)
  end.

Definition varint (n : Z) : bytes := varint_fuel (S (S (Z.to_nat (Z.log2 n)))) n.

Fixpoint read_varint (b : bytes) : option (Z * bytes) :=
  match b with
  | [] => None
  | c :: b' =>
      let v := code_of_byte c in
      if v <? 128 then Some (v, b')
      else match read_varint b' with
           | Some (w, tl) => Some (v - 128 + 128 * w, tl)
           | None => None
           end
  end.

Lemma code_of_byte_of_code (z : Z) : 0 <= z < 256 -> code_of_byte (byte_of_code z) = z.
Proof.
  intros Hz. unfold byte_of_code, code_of_byte. rewrite Z.mod_small by lia.
  destruct (Byte.of_N (Z.to_N z)) as [b|] eqn:E; cbn.
  - apply Byte.to_of_N in E. rewrite E. lia.
  - apply Byte.of_N_None_iff in E. lia.
Qed.

Lemma read_varint_fuel (fuel : nat) (n : Z) :
  0 <= n -> n + 1 < 2 ^ Z.of_nat fuel -> reads read_varint (varint_fuel fuel n) n.
Proof.
  revert n. induction fuel as [|fuel IH]; intros n Hn Hf tl; [cbn in Hf; lia|].
  cbn [varint_fuel]. destruct (Z.ltb_spec n 128) as [Hlt|Hge]; cbn [app read_varint].
  - rewrite code_of_byte_of_code by lia. by destruct (Z.ltb_spec n 128); [|lia].
  - pose proof (Z.mod_pos_bound n 128). rewrite code_of_byte_of_code by lia.
    destruct (Z.ltb_spec (128 + n mod 128) 128); [lia|].
    rewrite Nat2Z.inj_succ, Z.pow_succ_r in Hf by lia.
    pose proof (Z.div_mod n 128).
    rewrite IH by lia.
    do 2 f_equal. lia.
Qed.

Lemma read_varint_varint (n : Z) : 0 <= n -> reads read_varint (varint n) n.
Proof.
  intros Hn. apply read_varint_fuel; [done|].
  rewrite !Nat2Z.inj_succ, Z2Nat.id, Z.pow_succ_r by (pose proof (Z.log2_nonneg n); lia).
  destruct (decide (n = 0)) as [->|]; [done|]. pose proof (Z.log2_spec n). lia.
Qed.

Lemma read_varint_strict (b : bytes) (v : Z) (tl : bytes) :
  read_varint b = Some (v, tl) -> (length tl < length b)%nat.
Proof.
  revert v tl. induction b as [|c b IH]; intros v tl; cbn; [done|].
  destruct (code_of_byte c <? 128); [intros [= _ ->]; lia|].
  destruct (read_varint b) as [[w tl']|]; [|done]. intros [= _ ->]. specialize (IH w tl eq_refl). lia.
Qed.

Lemma shrinks_varint : shrinks read_varint.
Proof. intros b v tl H. apply read_varint_strict in H. lia. Qed.

(** Wrapping to a width, and sign extension to 64 bits. *)
Definition to_unsigned (w z : Z) : Z := z mod 2 ^ w.
Definition to_signed (w z : Z) : Z := (z + 2 ^ (w - 1)) mod 2 ^ w - 2 ^ (w - 1).
Definition sign_extend (z : Z) : Z := z mod 2 ^ 64.

Lemma to_signed_extend (w z : Z) :
  w = 32 \/ w = 64 -> - 2 ^ (w - 1) <= z < 2 ^ (w - 1) -> to_signed w (sign_extend z) = z.
Proof.
  intros Hw Hz. unfold to_signed, sign_extend.
  assert (Hm : z mod 2 ^ 64 = if z <? 0 then z + 2 ^ 64 else z).
  { destruct (Z.ltb_spec z 0).
    - symmetry. apply (Z.mod_unique z (2 ^ 64) (-1)); destruct Hw; subst; lia.
    - apply Z.mod_small; destruct Hw; subst; lia. }
  rewrite Hm. destruct (Z.ltb_spec z 0); destruct Hw as [-> | ->].
  - rewrite <- (Z.mod_unique (z + 2 ^ 64 + 2 ^ (32 - 1)) (2 ^ 32) (2 ^ 32) (z + 2 ^ (32 - 1))); lia.
  - rewrite <- (Z.mod_unique (z + 2 ^ 64 + 2 ^ (64 - 1)) (2 ^ 64) 1 (z + 2 ^ (64 - 1))); lia.
  - rewrite Z.mod_small; lia.
  - rewrite Z.mod_small; lia.
Qed.

(** * Byte strings and strings *)

Definition take_bytes (n : Z) : parser bytes :=
  fun b => if Z.of_nat (length b) <? n then None
           else Some (take (Z.to_nat n) b, drop (Z.to_nat n) b).

Definition read_delimited : parser bytes := pbind read_varint take_bytes.
Definition delimited_bytes (b : bytes) : bytes := varint (Z.of_nat (length b)) ++ b.

Lemma shrinks_take (n : Z) : shrinks (take_bytes n).
Proof.
  intros b v tl. unfold take_bytes. destruct (_ <? _); [done|]. intros [= _ <-].
  rewrite length_drop. lia.
Qed.

Lemma read_delimited_ok (b : bytes) : reads read_delimited (delimited_bytes b) b.
Proof.
  apply (reads_bind _ _ _ _ (Z.of_nat (length b))); [by apply read_varint_varint; lia|].
  intros tl. unfold take_bytes. rewrite Z_of_nat_length_app, Nat2Z.id.
  destruct (Z.ltb_spec (Z.of_nat (length b) + Z.of_nat (length tl)) (Z.of_nat (length b))); [lia|].
  by rewrite take_app_length, drop_app_length.
Qed.

Lemma shrinks_delimited : shrinks read_delimited.
Proof. apply shrinks_bind; [apply shrinks_varint|apply shrinks_take]. Qed.

Definition units_to_bytes (s : jsstring) : bytes :=
  concat (map (fun c => [byte_of_code (c / 256); byte_of_code (c mod 256)]) s).

Fixpoint bytes_to_units (b : bytes) : jsstring :=
  match b with
  | h :: l :: b' => 256 * code_of_byte h + code_of_byte l :: bytes_to_units b'
  | _ => []
  end.

Lemma bytes_to_units_ok (s : jsstring) :
  Forall (fun c => 0 <= c <= 0xFFFF) s -> bytes_to_units (units_to_bytes s) = s.
Proof.
  induction 1 as [|c s Hc _ IH]; [done|].
  cbn [units_to_bytes map concat app bytes_to_units]. fold (units_to_bytes s). rewrite IH. f_equal.
  pose proof (Z.mod_pos_bound c 256). pose proof (Z.div_mod c 256).
  assert (0 <= c / 256 < 256) by (split; [apply Z.div_pos; lia|apply Z.div_lt_upper_bound; lia]).
  rewrite !code_of_byte_of_code by lia. lia.
Qed.

Lemma well_formed_range (s : jsstring) :
  well_formed s = true -> Forall (fun c => 0 <= c <= 0xFFFF) s.
Proof.
  induction s as [s IH] using (induction_ltof1 _ (@length Z)). unfold ltof in IH.
  destruct s as [|c s]; [constructor|]. cbn [well_formed].
  destruct (high_surrogate c).
  - destruct s as [|d s]; rewrite !andb_true_iff; [by intros [_ ?]|].
    unfold low_surrogate. intros (((? & ?) & ?) & ? & ?).
    repeat constructor; [lia..|]. apply IH; [cbn; lia|done].
  - rewrite !andb_true_iff. intros (((? & ?) & ?) & ?). constructor; [lia|]. apply IH; [cbn; lia|done].
Qed.

(** Decoded text starts after a byte order mark and is well formed: anything else becomes
    replacement characters. *)
Definition drop_mark (s : jsstring) : jsstring := if starts_with_mark s then tail s else s.

Definition bytes_to_text (b : bytes) : jsstring :=
  let s := drop_mark (bytes_to_units b) in if well_formed s then s else map (fun _ => 0xFFFD) s.

Lemma bytes_to_text_ok (s : jsstring) :
  well_formed s = true -> starts_with_mark s = false -> bytes_to_text (units_to_bytes s) = s.
Proof.
  intros Hs Hm. unfold bytes_to_text, drop_mark. rewrite bytes_to_units_ok by (by apply well_formed_range).
  by rewrite Hm, Hs.
Qed.

Lemma bytes_to_text_typed (b : bytes) :
  well_formed (bytes_to_text b) = true /\ (length (bytes_to_text b) <= length b)%nat.
Proof.
  assert (length (bytes_to_units b) <= length b)%nat as Hb.
  { revert b. fix IH 1. intros [|h [|l b]]; cbn; [lia..|]. specialize (IH b). lia. }
  assert (length (drop_mark (bytes_to_units b)) <= length b)%nat as H.
  { unfold drop_mark. destruct (starts_with_mark _); [|done]. destruct (bytes_to_units b); cbn in *; lia. }
  unfold bytes_to_text. destruct (well_formed (drop_mark (bytes_to_units b))) eqn:E; [done|]. rewrite length_map.
  split; [|done]. clear H E. by induction (drop_mark (bytes_to_units b)).
Qed.

(** * Doubles: a kind, and the integers of the canonical form *)

Definition zigzag (z : Z) : Z := if z <? 0 then - 2 * z - 1 else 2 * z.
Definition unzigzag (n : Z) : Z := if Z.even n then n / 2 else - (n + 1) / 2.

Lemma unzigzag_zigzag (z : Z) : unzigzag (zigzag z) = z.
Proof.
  unfold unzigzag, zigzag. destruct (Z.ltb_spec z 0).
  - replace (Z.even (- 2 * z - 1)) with false.
    + replace (- (- 2 * z - 1 + 1)) with (z * 2) by lia. by apply Z.div_mul.
    + rewrite Z.even_sub, Z.even_mul. done.
  - rewrite Z.even_mul. cbn. rewrite Z.mul_comm. by apply Z.div_mul.
Qed.

Definition double_bytes (x : number) : bytes :=
  match x with
  | NaN => varint 0
  | Infinity false => varint 1
  | Infinity true => varint 2
  | NegZero => varint 3
  | Int z => varint 4 ++ varint (zigzag z)
  | Frac m k => varint 5 ++ varint (zigzag m) ++ varint (Zpos k)
  end.

Definition read_double : parser number :=
  pbind read_varint (fun t =>
    if t =? 0 then pret NaN
    else if t =? 1 then pret (Infinity false)
    else if t =? 2 then pret (Infinity true)
    else if t =? 3 then pret NegZero
    else if t =? 4 then pbind read_varint (fun z => pret (Int (unzigzag z)))
    else pbind read_varint (fun m => pbind read_varint (fun k => pret (Frac (unzigzag m) (Z.to_pos k))))).

Lemma zigzag_nonneg (z : Z) : 0 <= zigzag z.
Proof. unfold zigzag. destruct (Z.ltb_spec z 0); lia. Qed.

Lemma read_double_ok (x : number) : reads read_double (double_bytes x) x.
Proof.
  destruct x as [|[]| |z|m k]; [intros tl; reflexivity..| |].
  - apply (reads_bind _ _ _ _ 4); [by apply read_varint_varint|]. cbn [Z.eqb Pos.eqb].
    apply (reads_map _ _ _ (zigzag z)); [apply read_varint_varint, zigzag_nonneg|].
    by rewrite unzigzag_zigzag.
  - apply (reads_bind _ _ _ _ 5); [by apply read_varint_varint|]. cbn [Z.eqb Pos.eqb].
    apply (reads_bind _ _ _ _ (zigzag m)); [apply read_varint_varint, zigzag_nonneg|].
    apply (reads_map _ _ _ (Zpos k)); [by apply read_varint_varint|].
    by rewrite unzigzag_zigzag.
Qed.

Lemma shrinks_double : shrinks read_double.
Proof.
  apply shrinks_bind; [apply shrinks_varint|]. intros t.
  repeat (destruct (_ =? _); [by auto using shrinks_bind, shrinks_varint, shrinks_ret|]).
  apply shrinks_bind; [apply shrinks_varint|]. auto using shrinks_bind, shrinks_varint, shrinks_ret.
Qed.

(** * The runtime *)

(** A writer holds the open buffers, the innermost first; a reader its position and the bytes
    ahead of it. *)
Definition cwriter : Type := bytes * list bytes.
Record creader : Type := mkReader { rpos : nat; rrest : bytes }.

Definition append (b : bytes) (w : cwriter) : js_error + cwriter := inr (w.1 ++ b, w.2).

Definition append_int (f : Z -> Z) (x : number) (w : cwriter) : js_error + cwriter :=
  match x with
  | Int n => append (varint (f n)) w
  | _ => inl (JsError (js "invalid integer"))
  end.

Definition bytes_of_string (s : jsstring) : bytes := delimited_bytes (units_to_bytes s).

Definition join_writer (w : cwriter) : js_error + cwriter :=
  match w.2 with
  | c :: st => inr (c ++ varint (Z.of_nat (length w.1)) ++ w.1, st)
  | [] => inl (JsError (js "invalid state, fork stack empty"))
  end.

Definition run_parser {A B : Type} (p : parser A) (f : A -> B) (r : creader) : js_error + B * creader :=
  match p (rrest r) with
  | Some (v, tl) => inr (f v, mkReader (rpos r + (length (rrest r) - length tl)) tl)
  | None => inl (JsError (js "premature EOF"))
  end.

Definition skip_field (t : Z) (r : creader) : js_error + creader :=
  if t =? 0 then match run_parser read_varint (fun _ => tt) r with inl e => inl e | inr p => inr p.2 end
  else if t =? 1 then match run_parser (take_bytes 8) (fun _ => tt) r with inl e => inl e | inr p => inr p.2 end
  else if t =? 2 then match run_parser read_delimited (fun _ => tt) r with inl e => inl e | inr p => inr p.2 end
  else if t =? 5 then match run_parser (take_bytes 4) (fun _ => tt) r with inl e => inl e | inr p => inr p.2 end
  else inl (JsError (js "cant skip wire type")).

#[export, refine] Instance concrete_runtime : WireRuntime := {
  writer := cwriter;
  new_writer := ([], []);
  wr_uint32 := append_int (to_unsigned 32);
  wr_int32 := append_int sign_extend;
  wr_uint64 := append_int sign_extend;
  wr_int64 := append_int sign_extend;
  wr_bool := fun v => append (varint (if v then 1 else 0));
  wr_double := fun x => append (double_bytes x);
  wr_string := fun s => append (bytes_of_string s);
  wr_bytes := fun b => append (delimited_bytes b);
  fork := fun w => ([], w.1 :: w.2);
  wr_join := join_writer;
  finish := fun w => w.1;
  reader := creader;
  new_reader := mkReader 0;
  pos := fun r => Z.of_nat (rpos r);
  len := fun r => Z.of_nat (rpos r + length (rrest r));
  rd_uint32 := run_parser read_varint (to_unsigned 32);
  rd_int32 := run_parser read_varint (to_signed 32);
  rd_uint64 := run_parser read_varint (to_unsigned 64);
  rd_int64 := run_parser read_varint (to_signed 64);
  rd_bool := run_parser read_varint (fun n => negb (n =? 0));
  rd_double := run_parser read_double id;
  rd_string := run_parser read_delimited bytes_to_text;
  rd_bytes := run_parser read_delimited id;
  rd_skip := skip_field;
}.
Proof. Defined.

(** ** Its laws *)

Lemma run_parser_ok {A B : Type} (p : parser A) (f : A -> B) (e tl : bytes) (v : A) (w : B) (r : creader) :
  reads p e v -> f v = w -> rrest r = e ++ tl ->
  exists r', run_parser p f r = inr (w, r') /\ rrest r' = tl.
Proof. intros Hp <- Hr. unfold run_parser. rewrite Hr, Hp. by eexists. Qed.

Lemma run_parser_moves {A B : Type} (p : parser A) (f : A -> B) (r r' : creader) (w : B) :
  shrinks p -> run_parser p f r = inr (w, r') ->
  Z.of_nat (rpos r' + length (rrest r')) = Z.of_nat (rpos r + length (rrest r)) /\
  Z.of_nat (rpos r) <= Z.of_nat (rpos r').
Proof.
  intros Hp. unfold run_parser. destruct (p (rrest r)) as [[v tl]|] eqn:E; [|done].
  intros [= _ <-]. cbn. apply Hp in E. lia.
Qed.

Lemma varint_moves {B : Type} (f : Z -> B) (r r' : creader) (w : B) :
  run_parser read_varint f r = inr (w, r') ->
  Z.of_nat (rpos r' + length (rrest r')) = Z.of_nat (rpos r + length (rrest r)) /\
  Z.of_nat (rpos r) < Z.of_nat (rpos r') /\ exists v, w = f v.
Proof.
  unfold run_parser. destruct (read_varint (rrest r)) as [[v tl]|] eqn:E; [|done].
  intros [= <- <-]. cbn. apply read_varint_strict in E. repeat split; [lia..|by exists v].
Qed.

Lemma skip_field_moves (t : Z) (r r' : creader) :
  skip_field t r = inr r' ->
  Z.of_nat (rpos r' + length (rrest r')) = Z.of_nat (rpos r + length (rrest r)) /\
  Z.of_nat (rpos r) <= Z.of_nat (rpos r').
Proof.
  unfold skip_field.
  repeat destruct (t =? _); try done;
    match goal with |- context [run_parser ?p ?f ?r] => destruct (run_parser p f r) as [|[]] eqn:E end;
    try done; intros [= <-]; cbn;
    apply run_parser_moves in E; auto using shrinks_varint, shrinks_delimited, shrinks_take.
Qed.

Lemma to_unsigned_small (w z : Z) : 0 <= z < 2 ^ w -> to_unsigned w z = z.
Proof. apply Z.mod_small. Qed.

Lemma to_signed_range (w z : Z) : 0 < w -> - 2 ^ (w - 1) <= to_signed w z < 2 ^ (w - 1).
Proof.
  intros Hw. unfold to_signed. replace (2 ^ w) with (2 * 2 ^ (w - 1)).
  - pose proof (Z.mod_pos_bound (z + 2 ^ (w - 1)) (2 * 2 ^ (w - 1))). pose proof (Z.pow_pos_nonneg 2 (w - 1)). lia.
  - rewrite <- Z.pow_succ_r by lia. f_equal. lia.
Qed.

Lemma sign_extend_nonneg (z : Z) : 0 <= sign_extend z.
Proof. apply Z.mod_pos_bound. lia. Qed.

Lemma sign_extend_small (z : Z) : 0 <= z < 2 ^ 64 -> sign_extend z = z.
Proof. intros. apply Z.mod_small. lia. Qed.

Lemma read_int_field (f g : Z -> Z) (n : Z) (r : creader) (tl : bytes) :
  0 <= g n -> f (g n) = n -> rrest r = varint (g n) ++ tl ->
  exists r', run_parser read_varint f r = inr (n, r') /\ rrest r' = tl.
Proof. intros Hg Hf Hr. by apply (run_parser_ok _ _ (varint (g n)) tl (g n)); [apply read_varint_varint| |]. Qed.

#[export, refine] Instance concrete_laws : WireLaws concrete_runtime := {
  enc_uint32 := fun n => varint (to_unsigned 32 n);
  enc_int32 := fun n => varint (sign_extend n);
  enc_uint64 := fun n => varint (sign_extend n);
  enc_int64 := fun n => varint (sign_extend n);
  enc_bool := fun v => varint (if v then 1 else 0);
  enc_double := double_bytes;
  enc_string := bytes_of_string;
  enc_bytes := delimited_bytes;
  wview := fun w : cwriter => w;
  rest := rrest;
}.
Proof.
  - reflexivity.
  - by intros w b ->.
  - intros n w b st -> _. by eexists.
  - intros n w b st -> _. by eexists.
  - intros n w b st -> _. by eexists.
  - intros n w b st -> _. by eexists.
  - intros v w b st ->. by eexists.
  - intros x w b st -> _. by eexists.
  - intros s w b st -> _. by eexists.
  - intros s w b st -> _. by eexists.
  - by intros w b st ->.
  - intros w b c st -> Hb. eexists. split; [reflexivity|].
    cbn -[varint]. by rewrite to_unsigned_small by (unfold bytes_ok in Hb; lia).
  - reflexivity.
  - reflexivity.
  - intros r. cbn. lia.
  - intros n r tl Hr Hn. apply (read_int_field _ (to_unsigned 32) n r tl); [| |done].
    + rewrite to_unsigned_small; lia.
    + rewrite (to_unsigned_small 32 n) by lia. apply to_unsigned_small. lia.
  - intros n r tl Hr Hn. apply (read_int_field _ sign_extend n r tl); [apply sign_extend_nonneg| |done].
    apply to_signed_extend; [by left|cbn; lia].
  - intros n r tl Hr Hn. apply (read_int_field _ sign_extend n r tl); [apply sign_extend_nonneg| |done].
    rewrite (sign_extend_small n) by done. apply to_unsigned_small. lia.
  - intros n r tl Hr Hn. apply (read_int_field _ sign_extend n r tl); [apply sign_extend_nonneg| |done].
    apply to_signed_extend; [by right|cbn; lia].
  - intros v r tl Hr. destruct v.
    + by apply (run_parser_ok _ _ _ tl 1 _ r (read_varint_varint 1 ltac:(lia))).
    + by apply (run_parser_ok _ _ _ tl 0 _ r (read_varint_varint 0 ltac:(lia))).
  - intros x r tl Hr _. by eapply run_parser_ok; [apply read_double_ok| |exact Hr].
  - intros s r tl Hr [[Hs _] Hm]. eapply run_parser_ok; [apply read_delimited_ok| |exact Hr].
    by apply bytes_to_text_ok.
  - intros s r tl Hr _. by eapply run_parser_ok; [apply read_delimited_ok| |exact Hr].
  - intros n r tl Hr Hn.
    destruct (run_parser_ok _ (fun _ => tt) _ tl _ tt r
      (read_varint_varint (sign_extend n) (sign_extend_nonneg n)) eq_refl Hr) as (r' & E & R).
    exists r'. split; [|done]. cbn. unfold skip_field. by rewrite E.
  - intros s r tl Hr Hs.
    destruct (run_parser_ok _ (fun _ => tt) _ tl _ tt r (read_delimited_ok s) eq_refl Hr) as (r' & E & R).
    exists r'. split; [|done]. cbn. unfold skip_field. by rewrite E.
  - intros r n r' H. apply varint_moves in H as (? & ? & v & ->). repeat split; [done..| |];
      unfold to_unsigned; pose proof (Z.mod_pos_bound v (2 ^ 32)); lia.
  - intros r n r' H. apply varint_moves in H as (? & ? & v & ->). repeat split; [done..| |];
      pose proof (to_signed_range 32 v); lia.
  - intros r n r' H. by apply run_parser_moves in H; [|apply shrinks_varint].
  - intros r n r' H. by apply run_parser_moves in H; [|apply shrinks_varint].
  - intros r n r' H. by apply run_parser_moves in H; [|apply shrinks_varint].
  - intros r n r' H. by apply run_parser_moves in H; [|apply shrinks_double].
  - intros r n r' H. by apply run_parser_moves in H; [|apply shrinks_delimited].
  - intros r n r' H. by apply run_parser_moves in H; [|apply shrinks_delimited].
  - intros t r r' H. by apply skip_field_moves in H.
Defined.

(** * A host: base64 on character codes (RFC 4648, with padding) *)

Definition b64_char (s : Z) : Z :=
  if s <? 26 then 65 + s else if s <? 52 then 71 + s else if s <? 62 then s - 4
  else if s =? 62 then 43 else 47.

Definition b64_value (c : Z) : Z :=
  if c =? 43 then 62 else if c =? 47 then 63 else if c <? 58 then c + 4
  else if c <? 91 then c - 65 else c - 71.

Definition b64_pad : Z := 61.

Fixpoint b64_encode (s : list Z) : jsstring :=
  match s with
  | [] => []
  | [a] => [b64_char (a / 4); b64_char (a mod 4 * 16); b64_pad; b64_pad]
  | [a; b] => [b64_char (a / 4); b64_char (a mod 4 * 16 + b / 16); b64_char (b mod 16 * 4); b64_pad]
  | a :: b :: c :: s' =>
      b64_char (a / 4) :: b64_char (a mod 4 * 16 + b / 16) ::
      b64_char (b mod 16 * 4 + c / 64) :: b64_char (c mod 64) :: b64_encode s'
  end.

Fixpoint b64_decode (s : jsstring) : list Z :=
  match s with
  | a :: b :: c :: d :: s' =>
      let v := 262144 * b64_value a + 4096 * b64_value b in
      if c =? b64_pad then [v / 65536]
      else if d =? b64_pad then [v / 65536; (v + 64 * b64_value c) / 256 mod 256]
      else let v := v + 64 * b64_value c + b64_value d in
           v / 65536 :: v / 256 mod 256 :: v mod 256 :: b64_decode s'
  | _ => []
  end.

Definition b64_of_value (v : value) : js_error + list Z :=
  match v with
  | VString s => inr (b64_decode s)
  | _ => inl TypeError
  end.

#[local] Ltac Zify.zify_post_hook ::= Z.to_euclidean_division_equations.

Lemma b64_value_char (s : Z) : 0 <= s < 64 -> b64_value (b64_char s) = s /\ b64_char s <> b64_pad.
Proof.
  intros Hs. unfold b64_char, b64_value, b64_pad.
  repeat match goal with |- context [Z.ltb ?x ?y] => destruct (Z.ltb_spec x y) end;
  repeat match goal with |- context [Z.eqb ?x ?y] => destruct (Z.eqb_spec x y) end; lia.
Qed.

Lemma b64_decode_encode (n : nat) (s : list Z) :
  (length s <= n)%nat -> Forall (fun c => 0 <= c < 256) s -> b64_decode (b64_encode s) = s.
Proof.
  revert s. induction n as [|n IH]; intros s Hn Hs; [by destruct s; [|cbn in Hn; lia]|].
  destruct s as [|a [|b [|c s]]]; [done|..]; cbn [b64_encode b64_decode];
    repeat match goal with H : Forall _ (_ :: _) |- _ => apply Forall_cons in H as [? H] end;
    repeat match goal with
    | |- context [b64_value (b64_char ?x)] =>
        let H := fresh in assert (0 <= x < 64) as H by lia; rewrite (proj1 (b64_value_char x H))
    end;
    repeat match goal with
    | |- context [b64_char ?x =? b64_pad] =>
        let H := fresh in assert (0 <= x < 64) as H by lia;
        rewrite (proj2 (Z.eqb_neq _ _) (proj2 (b64_value_char x H)))
    end;
    change (b64_pad =? b64_pad) with true; cbv iota.
  - f_equal. lia.
  - f_equal; [lia|f_equal; lia].
  - cbn in Hn. rewrite IH by (done || lia). cbv zeta. f_equal; [lia|f_equal; [lia|f_equal; lia]].
Qed.

#[export] Instance concrete_host : JsHost := {
  has_Buffer := true;
  Buffer_from_base64 v := match b64_of_value v with inl e => inl e | inr s => inr (map byte_of_code s) end;
  Buffer_to_base64 b := b64_encode (map code_of_byte b);
  atob := b64_of_value;
  btoa := b64_encode;
}.

#[export, refine] Instance concrete_host_laws : JsHostLaws concrete_host := {}.
Proof.
  - intros b. cbn. rewrite (b64_decode_encode _ _ (Nat.le_refl _)), map_map.
    + f_equal. rewrite <- (map_id b) at 2. apply map_ext, byte_of_code_of_byte.
    + apply Forall_map, Forall_true. intros. apply code_of_byte_range.
  - intros s Hs. cbn. by rewrite (b64_decode_encode _ _ (Nat.le_refl _)).
Defined.

(** * Discharging what the format asks of a concrete message *)

Ltac concrete_ok :=
  repeat match goal with
  | |- _ /\ _ => split
  | |- True => exact I
  | |- @eq _ _ _ => vm_compute; reflexivity
  | |- exists n, _ = Int n /\ _ => eexists; split; [reflexivity|vm_compute; split; congruence]
  | |- exists e, _ = _ e => unshelve eexists; [constructor|vm_compute; reflexivity]
  | |- (_ <= _)%nat => vm_compute; lia
  | |- _ <> _ => discriminate
  | |- Forall ?P ?l => let l' := eval hnf in l in change (Forall P l'); constructor; cbv beta
  | |- bytes_ok _ => vm_compute; reflexivity
  | |- enum_ok _ => vm_compute; split; congruence
  | |- opt_all ?P ?o =>
      let o' := eval hnf in o in
      lazymatch o' with
      | Some ?x => change (P x); cbv beta
      | None => exact I
      end
  | |- _ => progress hnf
  end.
