(* ===== verification/Query.v ===== *)
(** The messages of the [galactica.merkle] API as the TypeScript client sees them
    ([gen/ts/galactica/merkle/query.ts]): for each message its data, its wire encoder and
    decoder, its JSON conversions and [fromPartial]/[create]; then the gRPC client.

    A message [M] is a record with the source's fields; [M_with_f] is the assignment
    [message.f = v]; [M_Partial] is [DeepPartial<M>] ([None] is [undefined] or [null]), and
    [M_toPartial] is the view of a message as a [DeepPartial] of itself.  [M_switch] is the
    [switch] of [M.decode].  The message called [Proof] in the source is [ProofMsg] here. *)

From stdpp Require Import base list numbers strings.
From Stdlib Require Import Strings.Byte ZArith Lia.
From S2P Require Import Prelude JsNumber JsValue Wire.
Local Open Scope Z_scope.

Section Query.
Context {RT : WireRuntime}.

(** ** [QueryProofRequest] *)

Record QueryProofRequest : Type := mkQueryProofRequest {
  QueryProofRequest_registry : jsstring;
  QueryProofRequest_leaf : jsstring
}.

Record QueryProofRequest_Partial : Type := mkQueryProofRequest_Partial {
  QueryProofRequest_p_registry : option jsstring;
  QueryProofRequest_p_leaf : option jsstring
}.

Definition QueryProofRequest_with_registry (v : jsstring) (m : QueryProofRequest)
    : QueryProofRequest :=
  mkQueryProofRequest v (QueryProofRequest_leaf m).

Definition QueryProofRequest_with_leaf (v : jsstring) (m : QueryProofRequest) : QueryProofRequest :=
  mkQueryProofRequest (QueryProofRequest_registry m) v.

Definition createBaseQueryProofRequest : QueryProofRequest :=
  {| QueryProofRequest_registry := (js "");
     QueryProofRequest_leaf := (js "") |}.

Definition QueryProofRequest_encode (message : QueryProofRequest) (w : writer) : jsres writer :=
  let* w := if negb (str_eqb (QueryProofRequest_registry message) (js "")) then
               let* w := w_uint32 (Int 10) w in w_string (QueryProofRequest_registry message) w
             else Ok w in
  let* w := if negb (str_eqb (QueryProofRequest_leaf message) (js "")) then
               let* w := w_uint32 (Int 18) w in w_string (QueryProofRequest_leaf message) w
             else Ok w in
  Ok w.

Definition QueryProofRequest_switch (fuel : nat) (tag : Z) (message : QueryProofRequest)
    (r : reader)
    : jsres (flow QueryProofRequest) :=
  let field := Z.shiftr tag 3 in
  if field =? 1 then
    if negb (tag =? 10) then Ok Break
    else
      let* (v, r) := r_string r in Ok (Continue (QueryProofRequest_with_registry v message) r)
  else if field =? 2 then
    if negb (tag =? 18) then Ok Break
    else
      let* (v, r) := r_string r in Ok (Continue (QueryProofRequest_with_leaf v message) r)
  else Ok Break.

Definition QueryProofRequest_decode (fuel : nat) (i : input) (length : option Z)
    : jsres (QueryProofRequest * reader) :=
  decode_with (QueryProofRequest_switch fuel) createBaseQueryProofRequest fuel i length.

Definition QueryProofRequest_fromJSON (object : value) : jsres QueryProofRequest :=
  let* registry_ := field object "registry" to_string (js "") in
  let* leaf_ := field object "leaf" to_string (js "") in
  Ok (mkQueryProofRequest registry_ leaf_).

Definition QueryProofRequest_toJSON (message : QueryProofRequest) : value :=
  let obj : props := [] in
  let obj := put_if (negb (str_eqb (QueryProofRequest_registry message) (js ""))) "registry"
    (VString (QueryProofRequest_registry message)) obj in
  let obj := put_if (negb (str_eqb (QueryProofRequest_leaf message) (js ""))) "leaf" (VString
    (QueryProofRequest_leaf message)) obj in
  VObject obj.

Definition QueryProofRequest_fromPartial (object : QueryProofRequest_Partial) : QueryProofRequest :=
  let message := createBaseQueryProofRequest in
  let message := QueryProofRequest_with_registry (nullish (QueryProofRequest_p_registry object)
      (js "")) message in
  let message := QueryProofRequest_with_leaf (nullish (QueryProofRequest_p_leaf object) (js ""))
      message in
  message.

Definition QueryProofRequest_create (base : option QueryProofRequest_Partial) : QueryProofRequest :=
  QueryProofRequest_fromPartial (nullish base (mkQueryProofRequest_Partial None None)).

Definition QueryProofRequest_toPartial (m : QueryProofRequest) : QueryProofRequest_Partial :=
  mkQueryProofRequest_Partial (Some (QueryProofRequest_registry m)) (Some (QueryProofRequest_leaf
    m)).

(** ** [Proof] *)

Record ProofMsg : Type := mkProofMsg {
  ProofMsg_leaf : jsstring;
  ProofMsg_path : list jsstring;
  ProofMsg_index : number;
  ProofMsg_root : jsstring
}.

Record ProofMsg_Partial : Type := mkProofMsg_Partial {
  ProofMsg_p_leaf : option jsstring;
  ProofMsg_p_path : option (list jsstring);
  ProofMsg_p_index : option number;
  ProofMsg_p_root : option jsstring
}.

Definition ProofMsg_with_leaf (v : jsstring) (m : ProofMsg) : ProofMsg :=
  mkProofMsg v (ProofMsg_path m) (ProofMsg_index m) (ProofMsg_root m).

Definition ProofMsg_with_path (v : list jsstring) (m : ProofMsg) : ProofMsg :=
  mkProofMsg (ProofMsg_leaf m) v (ProofMsg_index m) (ProofMsg_root m).

Definition ProofMsg_with_index (v : number) (m : ProofMsg) : ProofMsg :=
  mkProofMsg (ProofMsg_leaf m) (ProofMsg_path m) v (ProofMsg_root m).

Definition ProofMsg_with_root (v : jsstring) (m : ProofMsg) : ProofMsg :=
  mkProofMsg (ProofMsg_leaf m) (ProofMsg_path m) (ProofMsg_index m) v.

Definition createBaseProofMsg : ProofMsg :=
  {| ProofMsg_leaf := (js "");
     ProofMsg_path := [];
     ProofMsg_index := (Int 0);
     ProofMsg_root := (js "") |}.

Definition ProofMsg_encode (message : ProofMsg) (w : writer) : jsres writer :=
  let* w := if negb (str_eqb (ProofMsg_leaf message) (js "")) then
               let* w := w_uint32 (Int 10) w in w_string (ProofMsg_leaf message) w
             else Ok w in
  let* w := for_each (fun v w => let* w := w_uint32 (Int 18) w in w_string v w)
               (ProofMsg_path message) w in
  let* w := if negb (num_eqb (ProofMsg_index message) (Int 0)) then
               let* w := w_uint32 (Int 24) w in w_uint32 (ProofMsg_index message) w
             else Ok w in
  let* w := if negb (str_eqb (ProofMsg_root message) (js "")) then
               let* w := w_uint32 (Int 34) w in w_string (ProofMsg_root message) w
             else Ok w in
  Ok w.

Definition ProofMsg_switch (fuel : nat) (tag : Z) (message : ProofMsg) (r : reader)
    : jsres (flow ProofMsg) :=
  let field := Z.shiftr tag 3 in
  if field =? 1 then
    if negb (tag =? 10) then Ok Break
    else
      let* (v, r) := r_string r in Ok (Continue (ProofMsg_with_leaf v message) r)
  else if field =? 2 then
    if negb (tag =? 18) then Ok Break
    else
      let* (v, r) := r_string r in
      Ok (Continue (ProofMsg_with_path (ProofMsg_path message ++ [v]) message) r)
  else if field =? 3 then
    if negb (tag =? 24) then Ok Break
    else
      let* (v, r) := r_uint32_number r in Ok (Continue (ProofMsg_with_index v message) r)
  else if field =? 4 then
    if negb (tag =? 34) then Ok Break
    else
      let* (v, r) := r_string r in Ok (Continue (ProofMsg_with_root v message) r)
  else Ok Break.

Definition ProofMsg_decode (fuel : nat) (i : input) (length : option Z) : jsres (ProofMsg * reader)
    :=
  decode_with (ProofMsg_switch fuel) createBaseProofMsg fuel i length.

Definition ProofMsg_fromJSON (object : value) : jsres ProofMsg :=
  let* leaf_ := field object "leaf" to_string (js "") in
  let* path_ := array_field object "path" to_string in
  let* index_ := field object "index" to_number (Int 0) in
  let* root_ := field object "root" to_string (js "") in
  Ok (mkProofMsg leaf_ path_ index_ root_).

Definition ProofMsg_toJSON (message : ProofMsg) : value :=
  let obj : props := [] in
  let obj := put_if (negb (str_eqb (ProofMsg_leaf message) (js ""))) "leaf" (VString
    (ProofMsg_leaf message)) obj in
  let obj := put_if (has_length (ProofMsg_path message)) "path" (VArray (map VString
    (ProofMsg_path message))) obj in
  let obj := put_if (negb (num_eqb (ProofMsg_index message) (Int 0))) "index" (VNumber (math_round
    (ProofMsg_index message))) obj in
  let obj := put_if (negb (str_eqb (ProofMsg_root message) (js ""))) "root" (VString
    (ProofMsg_root message)) obj in
  VObject obj.

Definition ProofMsg_fromPartial (object : ProofMsg_Partial) : ProofMsg :=
  let message := createBaseProofMsg in
  let message := ProofMsg_with_leaf (nullish (ProofMsg_p_leaf object) (js "")) message in
  let message := ProofMsg_with_path (nullish (ProofMsg_p_path object) []) message in
  let message := ProofMsg_with_index (nullish (ProofMsg_p_index object) (Int 0)) message in
  let message := ProofMsg_with_root (nullish (ProofMsg_p_root object) (js "")) message in
  message.

Definition ProofMsg_create (base : option ProofMsg_Partial) : ProofMsg :=
  ProofMsg_fromPartial (nullish base (mkProofMsg_Partial None None None None)).

Definition ProofMsg_toPartial (m : ProofMsg) : ProofMsg_Partial :=
  mkProofMsg_Partial (Some (ProofMsg_leaf m)) (Some (ProofMsg_path m)) (Some (ProofMsg_index m))
    (Some (ProofMsg_root m)).

(** ** [QueryProofResponse] *)

Record QueryProofResponse : Type := mkQueryProofResponse {
  QueryProofResponse_proof : option ProofMsg
}.

Record QueryProofResponse_Partial : Type := mkQueryProofResponse_Partial {
  QueryProofResponse_p_proof : option ProofMsg_Partial
}.

Definition QueryProofResponse_with_proof (v : option ProofMsg) (m : QueryProofResponse)
    : QueryProofResponse :=
  mkQueryProofResponse v.

Definition createBaseQueryProofResponse : QueryProofResponse :=
  {| QueryProofResponse_proof := None |}.

Definition QueryProofResponse_encode (message : QueryProofResponse) (w : writer) : jsres writer :=
  let* w := match QueryProofResponse_proof message with
             | Some v => let* w := w_uint32 (Int 10) w in
                         let* w := ProofMsg_encode v (fork w) in w_join w
             | None => Ok w
             end in
  Ok w.

Definition QueryProofResponse_switch (fuel : nat) (tag : Z) (message : QueryProofResponse)
    (r : reader)
    : jsres (flow QueryProofResponse) :=
  let field := Z.shiftr tag 3 in
  if field =? 1 then
    if negb (tag =? 10) then Ok Break
    else
      let* (l, r) := r_uint32 r in
      let* (v, r) := ProofMsg_decode fuel (InReader r) (Some l) in
      Ok (Continue (QueryProofResponse_with_proof (Some v) message) r)
  else Ok Break.

Definition QueryProofResponse_decode (fuel : nat) (i : input) (length : option Z)
    : jsres (QueryProofResponse * reader) :=
  decode_with (QueryProofResponse_switch fuel) createBaseQueryProofResponse fuel i length.

Definition QueryProofResponse_fromJSON (object : value) : jsres QueryProofResponse :=
  let* proof_ := opt_field object "proof" ProofMsg_fromJSON in
  Ok (mkQueryProofResponse proof_).

Definition QueryProofResponse_toJSON (message : QueryProofResponse) : value :=
  let obj : props := [] in
  let obj := put_defined (QueryProofResponse_proof message) (fun _ => true) "proof" (fun v =>
    ProofMsg_toJSON v) obj in
  VObject obj.

Definition QueryProofResponse_fromPartial (object : QueryProofResponse_Partial)
    : QueryProofResponse :=
  let message := createBaseQueryProofResponse in
  let message := QueryProofResponse_with_proof (option_map ProofMsg_fromPartial
      (QueryProofResponse_p_proof object)) message in
  message.

Definition QueryProofResponse_create (base : option QueryProofResponse_Partial)
    : QueryProofResponse :=
  QueryProofResponse_fromPartial (nullish base (mkQueryProofResponse_Partial None)).

Definition QueryProofResponse_toPartial (m : QueryProofResponse) : QueryProofResponse_Partial :=
  mkQueryProofResponse_Partial (option_map ProofMsg_toPartial (QueryProofResponse_proof m)).

(** ** [GetEmptyLeafProofRequest] *)

Record GetEmptyLeafProofRequest : Type := mkGetEmptyLeafProofRequest {
  GetEmptyLeafProofRequest_registry : jsstring
}.

Record GetEmptyLeafProofRequest_Partial : Type := mkGetEmptyLeafProofRequest_Partial {
  GetEmptyLeafProofRequest_p_registry : option jsstring
}.

Definition GetEmptyLeafProofRequest_with_registry (v : jsstring) (m : GetEmptyLeafProofRequest)
    : GetEmptyLeafProofRequest :=
  mkGetEmptyLeafProofRequest v.

Definition createBaseGetEmptyLeafProofRequest : GetEmptyLeafProofRequest :=
  {| GetEmptyLeafProofRequest_registry := (js "") |}.

Definition GetEmptyLeafProofRequest_encode (message : GetEmptyLeafProofRequest) (w : writer)
    : jsres writer :=
  let* w := if negb (str_eqb (GetEmptyLeafProofRequest_registry message) (js "")) then
               let* w := w_uint32 (Int 10) w in
                   w_string (GetEmptyLeafProofRequest_registry message) w
             else Ok w in
  Ok w.

Definition GetEmptyLeafProofRequest_switch (fuel : nat) (tag : Z)
    (message : GetEmptyLeafProofRequest) (r : reader)
    : jsres (flow GetEmptyLeafProofRequest) :=
  let field := Z.shiftr tag 3 in
  if field =? 1 then
    if negb (tag =? 10) then Ok Break
    else
      let* (v, r) := r_string r in
          Ok (Continue (GetEmptyLeafProofRequest_with_registry v message) r)
  else Ok Break.

Definition GetEmptyLeafProofRequest_decode (fuel : nat) (i : input) (length : option Z)
    : jsres (GetEmptyLeafProofRequest * reader) :=
  decode_with (GetEmptyLeafProofRequest_switch fuel) createBaseGetEmptyLeafProofRequest fuel i
      length.

Definition GetEmptyLeafProofRequest_fromJSON (object : value) : jsres GetEmptyLeafProofRequest :=
  let* registry_ := field object "registry" to_string (js "") in
  Ok (mkGetEmptyLeafProofRequest registry_).

Definition GetEmptyLeafProofRequest_toJSON (message : GetEmptyLeafProofRequest) : value :=
  let obj : props := [] in
  let obj := put_if (negb (str_eqb (GetEmptyLeafProofRequest_registry message) (js "")))
    "registry" (VString (GetEmptyLeafProofRequest_registry message)) obj in
  VObject obj.

Definition GetEmptyLeafProofRequest_fromPartial (object : GetEmptyLeafProofRequest_Partial)
    : GetEmptyLeafProofRequest :=
  let message := createBaseGetEmptyLeafProofRequest in
  let message := GetEmptyLeafProofRequest_with_registry (nullish
      (GetEmptyLeafProofRequest_p_registry object) (js "")) message in
  message.

Definition GetEmptyLeafProofRequest_create (base : option GetEmptyLeafProofRequest_Partial)
    : GetEmptyLeafProofRequest :=
  GetEmptyLeafProofRequest_fromPartial (nullish base (mkGetEmptyLeafProofRequest_Partial None)).

Definition GetEmptyLeafProofRequest_toPartial (m : GetEmptyLeafProofRequest)
    : GetEmptyLeafProofRequest_Partial :=
  mkGetEmptyLeafProofRequest_Partial (Some (GetEmptyLeafProofRequest_registry m)).

(** ** [GetEmptyLeafProofResponse] *)

Record GetEmptyLeafProofResponse : Type := mkGetEmptyLeafProofResponse {
  GetEmptyLeafProofResponse_proof : option ProofMsg
}.

Record GetEmptyLeafProofResponse_Partial : Type := mkGetEmptyLeafProofResponse_Partial {
  GetEmptyLeafProofResponse_p_proof : option ProofMsg_Partial
}.

Definition GetEmptyLeafProofResponse_with_proof (v : option ProofMsg)
    (m : GetEmptyLeafProofResponse) : GetEmptyLeafProofResponse :=
  mkGetEmptyLeafProofResponse v.

Definition createBaseGetEmptyLeafProofResponse : GetEmptyLeafProofResponse :=
  {| GetEmptyLeafProofResponse_proof := None |}.

Definition GetEmptyLeafProofResponse_encode (message : GetEmptyLeafProofResponse) (w : writer)
    : jsres writer :=
  let* w := match GetEmptyLeafProofResponse_proof message with
             | Some v => let* w := w_uint32 (Int 10) w in
                         let* w := ProofMsg_encode v (fork w) in w_join w
             | None => Ok w
             end in
  Ok w.

Definition GetEmptyLeafProofResponse_switch (fuel : nat) (tag : Z)
    (message : GetEmptyLeafProofResponse) (r : reader)
    : jsres (flow GetEmptyLeafProofResponse) :=
  let field := Z.shiftr tag 3 in
  if field =? 1 then
    if negb (tag =? 10) then Ok Break
    else
      let* (l, r) := r_uint32 r in
      let* (v, r) := ProofMsg_decode fuel (InReader r) (Some l) in
      Ok (Continue (GetEmptyLeafProofResponse_with_proof (Some v) message) r)
  else Ok Break.

Definition GetEmptyLeafProofResponse_decode (fuel : nat) (i : input) (length : option Z)
    : jsres (GetEmptyLeafProofResponse * reader) :=
  decode_with (GetEmptyLeafProofResponse_switch fuel) createBaseGetEmptyLeafProofResponse fuel i
      length.

Definition GetEmptyLeafProofResponse_fromJSON (object : value) : jsres GetEmptyLeafProofResponse :=
  let* proof_ := opt_field object "proof" ProofMsg_fromJSON in
  Ok (mkGetEmptyLeafProofResponse proof_).

Definition GetEmptyLeafProofResponse_toJSON (message : GetEmptyLeafProofResponse) : value :=
  let obj : props := [] in
  let obj := put_defined (GetEmptyLeafProofResponse_proof message) (fun _ => true) "proof" (fun v
    => ProofMsg_toJSON v) obj in
  VObject obj.

Definition GetEmptyLeafProofResponse_fromPartial (object : GetEmptyLeafProofResponse_Partial)
    : GetEmptyLeafProofResponse :=
  let message := createBaseGetEmptyLeafProofResponse in
  let message := GetEmptyLeafProofResponse_with_proof (option_map ProofMsg_fromPartial
      (GetEmptyLeafProofResponse_p_proof object)) message in
  message.

Definition GetEmptyLeafProofResponse_create (base : option GetEmptyLeafProofResponse_Partial)
    : GetEmptyLeafProofResponse :=
  GetEmptyLeafProofResponse_fromPartial (nullish base (mkGetEmptyLeafProofResponse_Partial None)).

Definition GetEmptyLeafProofResponse_toPartial (m : GetEmptyLeafProofResponse)
    : GetEmptyLeafProofResponse_Partial :=
  mkGetEmptyLeafProofResponse_Partial (option_map ProofMsg_toPartial
    (GetEmptyLeafProofResponse_proof m)).

(** ** [BatchOperation] *)

Record BatchOperation : Type := mkBatchOperation {
  BatchOperation_leafHash : jsstring;
  BatchOperation_isAddition : bool
}.

Record BatchOperation_Partial : Type := mkBatchOperation_Partial {
  BatchOperation_p_leafHash : option jsstring;
  BatchOperation_p_isAddition : option bool
}.

Definition BatchOperation_with_leafHash (v : jsstring) (m : BatchOperation) : BatchOperation :=
  mkBatchOperation v (BatchOperation_isAddition m).

Definition BatchOperation_with_isAddition (v : bool) (m : BatchOperation) : BatchOperation :=
  mkBatchOperation (BatchOperation_leafHash m) v.

Definition createBaseBatchOperation : BatchOperation :=
  {| BatchOperation_leafHash := (js "");
     BatchOperation_isAddition := false |}.

Definition BatchOperation_encode (message : BatchOperation) (w : writer) : jsres writer :=
  let* w := if negb (str_eqb (BatchOperation_leafHash message) (js "")) then
               let* w := w_uint32 (Int 10) w in w_string (BatchOperation_leafHash message) w
             else Ok w in
  let* w := if negb (Bool.eqb (BatchOperation_isAddition message) false) then
               let* w := w_uint32 (Int 16) w in w_bool (BatchOperation_isAddition message) w
             else Ok w in
  Ok w.

Definition BatchOperation_switch (fuel : nat) (tag : Z) (message : BatchOperation) (r : reader)
    : jsres (flow BatchOperation) :=
  let field := Z.shiftr tag 3 in
  if field =? 1 then
    if negb (tag =? 10) then Ok Break
    else
      let* (v, r) := r_string r in Ok (Continue (BatchOperation_with_leafHash v message) r)
  else if field =? 2 then
    if negb (tag =? 16) then Ok Break
    else
      let* (v, r) := r_bool r in Ok (Continue (BatchOperation_with_isAddition v message) r)
  else Ok Break.

Definition BatchOperation_decode (fuel : nat) (i : input) (length : option Z)
    : jsres (BatchOperation * reader) :=
  decode_with (BatchOperation_switch fuel) createBaseBatchOperation fuel i length.

Definition BatchOperation_fromJSON (object : value) : jsres BatchOperation :=
  let* leafHash_ := field object "leafHash" to_string (js "") in
  let* isAddition_ := field object "isAddition" to_bool false in
  Ok (mkBatchOperation leafHash_ isAddition_).

Definition BatchOperation_toJSON (message : BatchOperation) : value :=
  let obj : props := [] in
  let obj := put_if (negb (str_eqb (BatchOperation_leafHash message) (js ""))) "leafHash" (VString
    (BatchOperation_leafHash message)) obj in
  let obj := put_if (negb (Bool.eqb (BatchOperation_isAddition message) false)) "isAddition"
    (VBool (BatchOperation_isAddition message)) obj in
  VObject obj.

Definition BatchOperation_fromPartial (object : BatchOperation_Partial) : BatchOperation :=
  let message := createBaseBatchOperation in
  let message := BatchOperation_with_leafHash (nullish (BatchOperation_p_leafHash object) (js ""))
      message in
  let message := BatchOperation_with_isAddition (nullish (BatchOperation_p_isAddition object)
      false) message in
  message.

Definition BatchOperation_create (base : option BatchOperation_Partial) : BatchOperation :=
  BatchOperation_fromPartial (nullish base (mkBatchOperation_Partial None None)).

Definition BatchOperation_toPartial (m : BatchOperation) : BatchOperation_Partial :=
  mkBatchOperation_Partial (Some (BatchOperation_leafHash m)) (Some (BatchOperation_isAddition m)).

(** ** [QueryBatchProofsRequest] *)

Record QueryBatchProofsRequest : Type := mkQueryBatchProofsRequest {
  QueryBatchProofsRequest_registry : jsstring;
  QueryBatchProofsRequest_operations : list BatchOperation
}.

Record QueryBatchProofsRequest_Partial : Type := mkQueryBatchProofsRequest_Partial {
  QueryBatchProofsRequest_p_registry : option jsstring;
  QueryBatchProofsRequest_p_operations : option (list BatchOperation_Partial)
}.

Definition QueryBatchProofsRequest_with_registry (v : jsstring) (m : QueryBatchProofsRequest)
    : QueryBatchProofsRequest :=
  mkQueryBatchProofsRequest v (QueryBatchProofsRequest_operations m).

Definition QueryBatchProofsRequest_with_operations (v : list BatchOperation)
    (m : QueryBatchProofsRequest) : QueryBatchProofsRequest :=
  mkQueryBatchProofsRequest (QueryBatchProofsRequest_registry m) v.

Definition createBaseQueryBatchProofsRequest : QueryBatchProofsRequest :=
  {| QueryBatchProofsRequest_registry := (js "");
     QueryBatchProofsRequest_operations := [] |}.

Definition QueryBatchProofsRequest_encode (message : QueryBatchProofsRequest) (w : writer)
    : jsres writer :=
  let* w := if negb (str_eqb (QueryBatchProofsRequest_registry message) (js "")) then
               let* w := w_uint32 (Int 10) w in
                   w_string (QueryBatchProofsRequest_registry message) w
             else Ok w in
  let* w := for_each (fun v w => let* w := w_uint32 (Int 18) w in
                               let* w := BatchOperation_encode v (fork w) in w_join w)
               (QueryBatchProofsRequest_operations message) w in
  Ok w.

Definition QueryBatchProofsRequest_switch (fuel : nat) (tag : Z)
    (message : QueryBatchProofsRequest) (r : reader)
    : jsres (flow QueryBatchProofsRequest) :=
  let field := Z.shiftr tag 3 in
  if field =? 1 then
    if negb (tag =? 10) then Ok Break
    else
      let* (v, r) := r_string r in Ok (Continue (QueryBatchProofsRequest_with_registry v message) r)
  else if field =? 2 then
    if negb (tag =? 18) then Ok Break
    else
      let* (l, r) := r_uint32 r in
      let* (v, r) := BatchOperation_decode fuel (InReader r) (Some l) in
      Ok (Continue (QueryBatchProofsRequest_with_operations (QueryBatchProofsRequest_operations
          message ++ [v]) message) r)
  else Ok Break.

Definition QueryBatchProofsRequest_decode (fuel : nat) (i : input) (length : option Z)
    : jsres (QueryBatchProofsRequest * reader) :=
  decode_with (QueryBatchProofsRequest_switch fuel) createBaseQueryBatchProofsRequest fuel i length.

Definition QueryBatchProofsRequest_fromJSON (object : value) : jsres QueryBatchProofsRequest :=
  let* registry_ := field object "registry" to_string (js "") in
  let* operations_ := array_field object "operations" BatchOperation_fromJSON in
  Ok (mkQueryBatchProofsRequest registry_ operations_).

Definition QueryBatchProofsRequest_toJSON (message : QueryBatchProofsRequest) : value :=
  let obj : props := [] in
  let obj := put_if (negb (str_eqb (QueryBatchProofsRequest_registry message) (js ""))) "registry"
    (VString (QueryBatchProofsRequest_registry message)) obj in
  let obj := put_if (has_length (QueryBatchProofsRequest_operations message)) "operations" (VArray
    (map BatchOperation_toJSON (QueryBatchProofsRequest_operations message))) obj in
  VObject obj.

Definition QueryBatchProofsRequest_fromPartial (object : QueryBatchProofsRequest_Partial)
    : QueryBatchProofsRequest :=
  let message := createBaseQueryBatchProofsRequest in
  let message := QueryBatchProofsRequest_with_registry (nullish (QueryBatchProofsRequest_p_registry
      object) (js "")) message in
  let message := QueryBatchProofsRequest_with_operations (nullish (option_map (map
      BatchOperation_fromPartial) (QueryBatchProofsRequest_p_operations object)) []) message in
  message.

Definition QueryBatchProofsRequest_create (base : option QueryBatchProofsRequest_Partial)
    : QueryBatchProofsRequest :=
  QueryBatchProofsRequest_fromPartial (nullish base (mkQueryBatchProofsRequest_Partial None None)).

Definition QueryBatchProofsRequest_toPartial (m : QueryBatchProofsRequest)
    : QueryBatchProofsRequest_Partial :=
  mkQueryBatchProofsRequest_Partial (Some (QueryBatchProofsRequest_registry m)) (Some (map
    BatchOperation_toPartial (QueryBatchProofsRequest_operations m))).

(** ** [BatchProof] *)

Record BatchProof : Type := mkBatchProof {
  BatchProof_index : number;
  BatchProof_path : list jsstring
}.

Record BatchProof_Partial : Type := mkBatchProof_Partial {
  BatchProof_p_index : option number;
  BatchProof_p_path : option (list jsstring)
}.

Definition BatchProof_with_index (v : number) (m : BatchProof) : BatchProof :=
  mkBatchProof v (BatchProof_path m).

Definition BatchProof_with_path (v : list jsstring) (m : BatchProof) : BatchProof :=
  mkBatchProof (BatchProof_index m) v.

Definition createBaseBatchProof : BatchProof :=
  {| BatchProof_index := (Int 0);
     BatchProof_path := [] |}.

Definition BatchProof_encode (message : BatchProof) (w : writer) : jsres writer :=
  let* w := if negb (num_eqb (BatchProof_index message) (Int 0)) then
               let* w := w_uint32 (Int 8) w in w_uint32 (BatchProof_index message) w
             else Ok w in
  let* w := for_each (fun v w => let* w := w_uint32 (Int 18) w in w_string v w)
               (BatchProof_path message) w in
  Ok w.

Definition BatchProof_switch (fuel : nat) (tag : Z) (message : BatchProof) (r : reader)
    : jsres (flow BatchProof) :=
  let field := Z.shiftr tag 3 in
  if field =? 1 then
    if negb (tag =? 8) then Ok Break
    else
      let* (v, r) := r_uint32_number r in Ok (Continue (BatchProof_with_index v message) r)
  else if field =? 2 then
    if negb (tag =? 18) then Ok Break
    else
      let* (v, r) := r_string r in
      Ok (Continue (BatchProof_with_path (BatchProof_path message ++ [v]) message) r)
  else Ok Break.

Definition BatchProof_decode (fuel : nat) (i : input) (length : option Z)
    : jsres (BatchProof * reader) :=
  decode_with (BatchProof_switch fuel) createBaseBatchProof fuel i length.

Definition BatchProof_fromJSON (object : value) : jsres BatchProof :=
  let* index_ := field object "index" to_number (Int 0) in
  let* path_ := array_field object "path" to_string in
  Ok (mkBatchProof index_ path_).

Definition BatchProof_toJSON (message : BatchProof) : value :=
  let obj : props := [] in
  let obj := put_if (negb (num_eqb (BatchProof_index message) (Int 0))) "index" (VNumber
    (math_round (BatchProof_index message))) obj in
  let obj := put_if (has_length (BatchProof_path message)) "path" (VArray (map VString
    (BatchProof_path message))) obj in
  VObject obj.

Definition BatchProof_fromPartial (object : BatchProof_Partial) : BatchProof :=
  let message := createBaseBatchProof in
  let message := BatchProof_with_index (nullish (BatchProof_p_index object) (Int 0)) message in
  let message := BatchProof_with_path (nullish (BatchProof_p_path object) []) message in
  message.

Definition BatchProof_create (base : option BatchProof_Partial) : BatchProof :=
  BatchProof_fromPartial (nullish base (mkBatchProof_Partial None None)).

Definition BatchProof_toPartial (m : BatchProof) : BatchProof_Partial :=
  mkBatchProof_Partial (Some (BatchProof_index m)) (Some (BatchProof_path m)).

(** ** [QueryBatchProofsResponse] *)

Record QueryBatchProofsResponse : Type := mkQueryBatchProofsResponse {
  QueryBatchProofsResponse_initialRoot : jsstring;
  QueryBatchProofsResponse_proofs : list BatchProof
}.

Record QueryBatchProofsResponse_Partial : Type := mkQueryBatchProofsResponse_Partial {
  QueryBatchProofsResponse_p_initialRoot : option jsstring;
  QueryBatchProofsResponse_p_proofs : option (list BatchProof_Partial)
}.

Definition QueryBatchProofsResponse_with_initialRoot (v : jsstring) (m : QueryBatchProofsResponse)
    : QueryBatchProofsResponse :=
  mkQueryBatchProofsResponse v (QueryBatchProofsResponse_proofs m).

Definition QueryBatchProofsResponse_with_proofs (v : list BatchProof)
    (m : QueryBatchProofsResponse) : QueryBatchProofsResponse :=
  mkQueryBatchProofsResponse (QueryBatchProofsResponse_initialRoot m) v.

Definition createBaseQueryBatchProofsResponse : QueryBatchProofsResponse :=
  {| QueryBatchProofsResponse_initialRoot := (js "");
     QueryBatchProofsResponse_proofs := [] |}.

Definition QueryBatchProofsResponse_encode (message : QueryBatchProofsResponse) (w : writer)
    : jsres writer :=
  let* w := if negb (str_eqb (QueryBatchProofsResponse_initialRoot message) (js "")) then
               let* w := w_uint32 (Int 10) w in
                   w_string (QueryBatchProofsResponse_initialRoot message) w
             else Ok w in
  let* w := for_each (fun v w => let* w := w_uint32 (Int 18) w in
                               let* w := BatchProof_encode v (fork w) in w_join w)
               (QueryBatchProofsResponse_proofs message) w in
  Ok w.

Definition QueryBatchProofsResponse_switch (fuel : nat) (tag : Z)
    (message : QueryBatchProofsResponse) (r : reader)
    : jsres (flow QueryBatchProofsResponse) :=
  let field := Z.shiftr tag 3 in
  if field =? 1 then
    if negb (tag =? 10) then Ok Break
    else
      let* (v, r) := r_string r in
          Ok (Continue (QueryBatchProofsResponse_with_initialRoot v message) r)
  else if field =? 2 then
    if negb (tag =? 18) then Ok Break
    else
      let* (l, r) := r_uint32 r in
      let* (v, r) := BatchProof_decode fuel (InReader r) (Some l) in
      Ok (Continue (QueryBatchProofsResponse_with_proofs (QueryBatchProofsResponse_proofs message
          ++ [v]) message) r)
  else Ok Break.

Definition QueryBatchProofsResponse_decode (fuel : nat) (i : input) (length : option Z)
    : jsres (QueryBatchProofsResponse * reader) :=
  decode_with (QueryBatchProofsResponse_switch fuel) createBaseQueryBatchProofsResponse fuel i
      length.

Definition QueryBatchProofsResponse_fromJSON (object : value) : jsres QueryBatchProofsResponse :=
  let* initialRoot_ := field object "initialRoot" to_string (js "") in
  let* proofs_ := array_field object "proofs" BatchProof_fromJSON in
  Ok (mkQueryBatchProofsResponse initialRoot_ proofs_).

Definition QueryBatchProofsResponse_toJSON (message : QueryBatchProofsResponse) : value :=
  let obj : props := [] in
  let obj := put_if (negb (str_eqb (QueryBatchProofsResponse_initialRoot message) (js "")))
    "initialRoot" (VString (QueryBatchProofsResponse_initialRoot message)) obj in
  let obj := put_if (has_length (QueryBatchProofsResponse_proofs message)) "proofs" (VArray (map
    BatchProof_toJSON (QueryBatchProofsResponse_proofs message))) obj in
  VObject obj.

Definition QueryBatchProofsResponse_fromPartial (object : QueryBatchProofsResponse_Partial)
    : QueryBatchProofsResponse :=
  let message := createBaseQueryBatchProofsResponse in
  let message := QueryBatchProofsResponse_with_initialRoot (nullish
      (QueryBatchProofsResponse_p_initialRoot object) (js "")) message in
  let message := QueryBatchProofsResponse_with_proofs (nullish (option_map (map
      BatchProof_fromPartial) (QueryBatchProofsResponse_p_proofs object)) []) message in
  message.

Definition QueryBatchProofsResponse_create (base : option QueryBatchProofsResponse_Partial)
    : QueryBatchProofsResponse :=
  QueryBatchProofsResponse_fromPartial (nullish base (mkQueryBatchProofsResponse_Partial None
      None)).

Definition QueryBatchProofsResponse_toPartial (m : QueryBatchProofsResponse)
    : QueryBatchProofsResponse_Partial :=
  mkQueryBatchProofsResponse_Partial (Some (QueryBatchProofsResponse_initialRoot m)) (Some (map
    BatchProof_toPartial (QueryBatchProofsResponse_proofs m))).

(** ** The service interface: what each method's promise resolves to, or rejects with *)
Record QueryService : Type := mkQueryService {
  QueryService_Proof : QueryProofRequest -> js_error + QueryProofResponse;
  QueryService_GetEmptyLeafProof : GetEmptyLeafProofRequest -> js_error + GetEmptyLeafProofResponse;
  QueryService_GetBatchProofs : QueryBatchProofsRequest -> js_error + QueryBatchProofsResponse
}.

(** ** The client

    [Rpc.request] is given by the user of the client: it sends a method's request bytes and
    resolves to the response bytes or rejects. *)
Record Rpc : Type := mkRpc {
  Rpc_request : jsstring -> jsstring -> bytes -> js_error + bytes
}.

Record QueryClientImpl : Type := mkQueryClientImpl {
  QueryClientImpl_rpc : Rpc;
  QueryClientImpl_service : jsstring
}.

Definition QueryServiceName : jsstring := js "galactica.merkle.Query".

(** [new QueryClientImpl(rpc, opts)], where [opts?.service || QueryServiceName] falls back
    for a missing and for an empty service name. *)
Definition new_QueryClientImpl (rpc : Rpc) (service : option jsstring) : QueryClientImpl :=
  mkQueryClientImpl rpc
    (match service with
     | Some s => if str_eqb s [] then QueryServiceName else s
     | None => QueryServiceName
     end).

Definition QueryClientImpl_Proof (this : QueryClientImpl) (request : QueryProofRequest)
    : jsres QueryProofResponse :=
  let* w := QueryProofRequest_encode request new_writer in
  let data := finish w in
  let* data := lift (Rpc_request (QueryClientImpl_rpc this) (QueryClientImpl_service this)
                       (js "Proof") data) in
  let reader := new_reader data in
  let* (response, _) := QueryProofResponse_decode (fuel_for reader) (InReader reader) None in
  Ok response.

Definition QueryClientImpl_GetEmptyLeafProof (this : QueryClientImpl)
    (request : GetEmptyLeafProofRequest) : jsres GetEmptyLeafProofResponse :=
  let* w := GetEmptyLeafProofRequest_encode request new_writer in
  let data := finish w in
  let* data := lift (Rpc_request (QueryClientImpl_rpc this) (QueryClientImpl_service this)
                       (js "GetEmptyLeafProof") data) in
  let reader := new_reader data in
  let* (response, _) := GetEmptyLeafProofResponse_decode (fuel_for reader) (InReader reader) None in
  Ok response.

Definition QueryClientImpl_GetBatchProofs (this : QueryClientImpl)
    (request : QueryBatchProofsRequest) : jsres QueryBatchProofsResponse :=
  let* w := QueryBatchProofsRequest_encode request new_writer in
  let data := finish w in
  let* data := lift (Rpc_request (QueryClientImpl_rpc this) (QueryClientImpl_service this)
                       (js "GetBatchProofs") data) in
  let reader := new_reader data in
  let* (response, _) := QueryBatchProofsResponse_decode (fuel_for reader) (InReader reader) None in
  Ok response.
End Query.
