(* ===== verification/QueryFacts.v ===== *)
(** The wire format of the [galactica.merkle] messages: what each encoder writes
    ([M_image]), which messages the format can carry ([M_ok]), and that decoding gives the
    message back and always terminates. *)

From stdpp Require Import base list numbers strings.
From Stdlib Require Import Strings.Byte ZArith Lia.
From S2P Require Import Prelude JsNumber JsValue Wire WireFacts Query.
Local Open Scope Z_scope.

(** * Normal forms

    [M_norm m] is [M.fromPartial(m)]: every optional field with a default gets it. *)

Definition QueryProofRequest_norm (m : QueryProofRequest) : QueryProofRequest :=
  mkQueryProofRequest (QueryProofRequest_registry m) (QueryProofRequest_leaf m).

Lemma QueryProofRequest_fromPartial_toPartial :
  forall m, QueryProofRequest_fromPartial (QueryProofRequest_toPartial m)
      = QueryProofRequest_norm m.
Proof. solve_fromPartial QueryProofRequest_fromPartial QueryProofRequest_toPartial
    QueryProofRequest_norm. Qed.
#[export] Hint Rewrite QueryProofRequest_fromPartial_toPartial : partials.

Definition ProofMsg_norm (m : ProofMsg) : ProofMsg :=
  mkProofMsg (ProofMsg_leaf m) (ProofMsg_path m) (ProofMsg_index m) (ProofMsg_root m).

Lemma ProofMsg_fromPartial_toPartial :
  forall m, ProofMsg_fromPartial (ProofMsg_toPartial m) = ProofMsg_norm m.
Proof. solve_fromPartial ProofMsg_fromPartial ProofMsg_toPartial ProofMsg_norm. Qed.
#[export] Hint Rewrite ProofMsg_fromPartial_toPartial : partials.

Definition QueryProofResponse_norm (m : QueryProofResponse) : QueryProofResponse :=
  mkQueryProofResponse (option_map ProofMsg_norm (QueryProofResponse_proof m)).

Lemma QueryProofResponse_fromPartial_toPartial :
  forall m, QueryProofResponse_fromPartial (QueryProofResponse_toPartial m)
      = QueryProofResponse_norm m.
Proof. solve_fromPartial QueryProofResponse_fromPartial QueryProofResponse_toPartial
    QueryProofResponse_norm. Qed.
#[export] Hint Rewrite QueryProofResponse_fromPartial_toPartial : partials.

Definition GetEmptyLeafProofRequest_norm (m : GetEmptyLeafProofRequest)
    : GetEmptyLeafProofRequest :=
  mkGetEmptyLeafProofRequest (GetEmptyLeafProofRequest_registry m).

Lemma GetEmptyLeafProofRequest_fromPartial_toPartial :
  forall m, GetEmptyLeafProofRequest_fromPartial (GetEmptyLeafProofRequest_toPartial m)
      = GetEmptyLeafProofRequest_norm m.
Proof. solve_fromPartial GetEmptyLeafProofRequest_fromPartial GetEmptyLeafProofRequest_toPartial
    GetEmptyLeafProofRequest_norm. Qed.
#[export] Hint Rewrite GetEmptyLeafProofRequest_fromPartial_toPartial : partials.

Definition GetEmptyLeafProofResponse_norm (m : GetEmptyLeafProofResponse)
    : GetEmptyLeafProofResponse :=
  mkGetEmptyLeafProofResponse (option_map ProofMsg_norm (GetEmptyLeafProofResponse_proof m)).

Lemma GetEmptyLeafProofResponse_fromPartial_toPartial :
  forall m, GetEmptyLeafProofResponse_fromPartial (GetEmptyLeafProofResponse_toPartial m)
      = GetEmptyLeafProofResponse_norm m.
Proof. solve_fromPartial GetEmptyLeafProofResponse_fromPartial GetEmptyLeafProofResponse_toPartial
    GetEmptyLeafProofResponse_norm. Qed.
#[export] Hint Rewrite GetEmptyLeafProofResponse_fromPartial_toPartial : partials.

Definition BatchOperation_norm (m : BatchOperation) : BatchOperation :=
  mkBatchOperation (BatchOperation_leafHash m) (BatchOperation_isAddition m).

Lemma BatchOperation_fromPartial_toPartial :
  forall m, BatchOperation_fromPartial (BatchOperation_toPartial m) = BatchOperation_norm m.
Proof. solve_fromPartial BatchOperation_fromPartial BatchOperation_toPartial BatchOperation_norm.
    Qed.
#[export] Hint Rewrite BatchOperation_fromPartial_toPartial : partials.

Definition QueryBatchProofsRequest_norm (m : QueryBatchProofsRequest) : QueryBatchProofsRequest :=
  mkQueryBatchProofsRequest (QueryBatchProofsRequest_registry m) (map BatchOperation_norm
    (QueryBatchProofsRequest_operations m)).

Lemma QueryBatchProofsRequest_fromPartial_toPartial :
  forall m, QueryBatchProofsRequest_fromPartial (QueryBatchProofsRequest_toPartial m)
      = QueryBatchProofsRequest_norm m.
Proof. solve_fromPartial QueryBatchProofsRequest_fromPartial QueryBatchProofsRequest_toPartial
    QueryBatchProofsRequest_norm. Qed.
#[export] Hint Rewrite QueryBatchProofsRequest_fromPartial_toPartial : partials.

Definition BatchProof_norm (m : BatchProof) : BatchProof :=
  mkBatchProof (BatchProof_index m) (BatchProof_path m).

Lemma BatchProof_fromPartial_toPartial :
  forall m, BatchProof_fromPartial (BatchProof_toPartial m) = BatchProof_norm m.
Proof. solve_fromPartial BatchProof_fromPartial BatchProof_toPartial BatchProof_norm. Qed.
#[export] Hint Rewrite BatchProof_fromPartial_toPartial : partials.

Definition QueryBatchProofsResponse_norm (m : QueryBatchProofsResponse)
    : QueryBatchProofsResponse :=
  mkQueryBatchProofsResponse (QueryBatchProofsResponse_initialRoot m) (map BatchProof_norm
    (QueryBatchProofsResponse_proofs m)).

Lemma QueryBatchProofsResponse_fromPartial_toPartial :
  forall m, QueryBatchProofsResponse_fromPartial (QueryBatchProofsResponse_toPartial m)
      = QueryBatchProofsResponse_norm m.
Proof. solve_fromPartial QueryBatchProofsResponse_fromPartial QueryBatchProofsResponse_toPartial
    QueryBatchProofsResponse_norm. Qed.
#[export] Hint Rewrite QueryBatchProofsResponse_fromPartial_toPartial : partials.

(** * Encoding and decoding *)

Section QueryWire.
Context {RT : WireRuntime} {L : WireLaws RT}.

Ltac QueryProofRequest_settle m :=
  eval cbv beta iota delta
    [createBaseQueryProofRequest QueryProofRequest_with_registry QueryProofRequest_with_leaf
      QueryProofRequest_registry QueryProofRequest_leaf] in m.

Definition QueryProofRequest_image (m : QueryProofRequest) : bytes :=
  (if negb (str_eqb (QueryProofRequest_registry m) (js "")) then enc_uint32 10 ++
      enc_string (QueryProofRequest_registry m) else []) ++
  (if negb (str_eqb (QueryProofRequest_leaf m) (js "")) then enc_uint32 18 ++
      enc_string (QueryProofRequest_leaf m) else []) ++
  [].

Definition QueryProofRequest_ok (m : QueryProofRequest) : Prop :=
  string_ok (QueryProofRequest_registry m) /\
  string_ok (QueryProofRequest_leaf m).

Lemma QueryProofRequest_eats (F : nat) (m : QueryProofRequest) :
  QueryProofRequest_ok m -> eats (QueryProofRequest_switch F) F (QueryProofRequest_image m)
      createBaseQueryProofRequest (QueryProofRequest_norm m).
Proof.
  intros (H_registry & H_leaf). unfold QueryProofRequest_image.
  settle QueryProofRequest_settle.
  eat_scalar string_scalar 10 QueryProofRequest_with_registry (js "");
      settle QueryProofRequest_settle.
  eat_scalar string_scalar 18 QueryProofRequest_with_leaf (js ""); settle QueryProofRequest_settle.
  apply eats_nil.
Qed.

Lemma QueryProofRequest_codec : codec QueryProofRequest_encode QueryProofRequest_decode
    QueryProofRequest_norm QueryProofRequest_image QueryProofRequest_ok.
Proof.
  split.
  - intros m (H_registry & H_leaf). unfold QueryProofRequest_encode, QueryProofRequest_image.
    write ltac:(write_scalar_as string_scalar). write ltac:(write_scalar_as string_scalar).
    apply writes_ret.
  - intros m f r tl Hm Hr Hf. apply (decode_with_reads _ f);
      [by apply QueryProofRequest_eats|done|lia|done].
Qed.

Lemma QueryProofRequest_safe : safe_decode QueryProofRequest_decode.
Proof.
  apply (decode_with_safe QueryProofRequest_switch createBaseQueryProofRequest).
      intros F tag m r Hr. unfold QueryProofRequest_switch.
  solve_safe_switch.
Qed.
#[local] Hint Resolve QueryProofRequest_safe : model.

Ltac ProofMsg_settle m :=
  eval cbv beta iota delta
    [createBaseProofMsg ProofMsg_with_leaf ProofMsg_with_path ProofMsg_with_index
      ProofMsg_with_root ProofMsg_leaf ProofMsg_path ProofMsg_index ProofMsg_root] in m.

Definition ProofMsg_image (m : ProofMsg) : bytes :=
  (if negb (str_eqb (ProofMsg_leaf m) (js "")) then enc_uint32 10 ++ enc_string (ProofMsg_leaf m)
      else []) ++
  concat (map (fun v => enc_uint32 18 ++ enc_string v) (ProofMsg_path m)) ++
  (if negb (num_eqb (ProofMsg_index m) (Int 0)) then enc_uint32 24 ++
      enc_number enc_uint32 (ProofMsg_index m) else []) ++
  (if negb (str_eqb (ProofMsg_root m) (js "")) then enc_uint32 34 ++ enc_string (ProofMsg_root m)
      else []) ++
  [].

Definition ProofMsg_ok (m : ProofMsg) : Prop :=
  string_ok (ProofMsg_leaf m) /\
  Forall string_ok (ProofMsg_path m) /\
  uint32_ok (ProofMsg_index m) /\
  string_ok (ProofMsg_root m).

Lemma ProofMsg_eats (F : nat) (m : ProofMsg) :
  ProofMsg_ok m -> eats (ProofMsg_switch F) F (ProofMsg_image m)
      createBaseProofMsg (ProofMsg_norm m).
Proof.
  intros (H_leaf & H_path & H_index & H_root). unfold ProofMsg_image.
  settle ProofMsg_settle.
  eat_scalar string_scalar 10 ProofMsg_with_leaf (js ""); settle ProofMsg_settle.
  eat_repeated string_scalar 18 ProofMsg_with_path; settle ProofMsg_settle.
  eat_scalar uint32_scalar 24 ProofMsg_with_index (Int 0); settle ProofMsg_settle.
  eat_scalar string_scalar 34 ProofMsg_with_root (js ""); settle ProofMsg_settle.
  apply eats_nil.
Qed.

Lemma ProofMsg_codec : codec ProofMsg_encode ProofMsg_decode ProofMsg_norm ProofMsg_image
    ProofMsg_ok.
Proof.
  split.
  - intros m (H_leaf & H_path & H_index & H_root). unfold ProofMsg_encode, ProofMsg_image.
    write ltac:(write_scalar_as string_scalar). write ltac:(write_scalar_as string_scalar).
        write ltac:(write_scalar_as uint32_scalar). write ltac:(write_scalar_as string_scalar).
    apply writes_ret.
  - intros m f r tl Hm Hr Hf. apply (decode_with_reads _ f); [by apply ProofMsg_eats|done|lia|done].
Qed.

Lemma ProofMsg_safe : safe_decode ProofMsg_decode.
Proof.
  apply (decode_with_safe ProofMsg_switch createBaseProofMsg). intros F tag m r Hr.
      unfold ProofMsg_switch.
  solve_safe_switch.
Qed.
#[local] Hint Resolve ProofMsg_safe : model.

Ltac QueryProofResponse_settle m :=
  eval cbv beta iota delta
    [createBaseQueryProofResponse QueryProofResponse_with_proof QueryProofResponse_proof] in m.

Definition QueryProofResponse_image (m : QueryProofResponse) : bytes :=
  match QueryProofResponse_proof m with Some v => delimited 10 (ProofMsg_image v) | None => []
      end ++
  [].

Definition QueryProofResponse_ok (m : QueryProofResponse) : Prop :=
  opt_all (fun v => ProofMsg_ok v /\ bytes_ok (ProofMsg_image v)) (QueryProofResponse_proof m).

Lemma QueryProofResponse_eats (F : nat) (m : QueryProofResponse) :
  QueryProofResponse_ok m -> eats (QueryProofResponse_switch F) F (QueryProofResponse_image m)
      createBaseQueryProofResponse (QueryProofResponse_norm m).
Proof.
  intros H_proof. unfold QueryProofResponse_image.
  settle QueryProofResponse_settle.
  eat_message ProofMsg_codec 10 QueryProofResponse_with_proof; settle QueryProofResponse_settle.
  apply eats_nil.
Qed.

Lemma QueryProofResponse_codec : codec QueryProofResponse_encode QueryProofResponse_decode
    QueryProofResponse_norm QueryProofResponse_image QueryProofResponse_ok.
Proof.
  split.
  - intros m H_proof. unfold QueryProofResponse_encode, QueryProofResponse_image.
    write ltac:(write_message_as ProofMsg_codec).
    apply writes_ret.
  - intros m f r tl Hm Hr Hf. apply (decode_with_reads _ f);
      [by apply QueryProofResponse_eats|done|lia|done].
Qed.

Lemma QueryProofResponse_safe : safe_decode QueryProofResponse_decode.
Proof.
  apply (decode_with_safe QueryProofResponse_switch createBaseQueryProofResponse).
      intros F tag m r Hr. unfold QueryProofResponse_switch.
  solve_safe_switch.
Qed.
#[local] Hint Resolve QueryProofResponse_safe : model.

Ltac GetEmptyLeafProofRequest_settle m :=
  eval cbv beta iota delta
    [createBaseGetEmptyLeafProofRequest GetEmptyLeafProofRequest_with_registry
      GetEmptyLeafProofRequest_registry] in m.

Definition GetEmptyLeafProofRequest_image (m : GetEmptyLeafProofRequest) : bytes :=
  (if negb (str_eqb (GetEmptyLeafProofRequest_registry m) (js "")) then enc_uint32 10 ++
      enc_string (GetEmptyLeafProofRequest_registry m) else []) ++
  [].

Definition GetEmptyLeafProofRequest_ok (m : GetEmptyLeafProofRequest) : Prop :=
  string_ok (GetEmptyLeafProofRequest_registry m).

Lemma GetEmptyLeafProofRequest_eats (F : nat) (m : GetEmptyLeafProofRequest) :
  GetEmptyLeafProofRequest_ok m -> eats (GetEmptyLeafProofRequest_switch F)
      F (GetEmptyLeafProofRequest_image m) createBaseGetEmptyLeafProofRequest
      (GetEmptyLeafProofRequest_norm m).
Proof.
  intros H_registry. unfold GetEmptyLeafProofRequest_image.
  settle GetEmptyLeafProofRequest_settle.
  eat_scalar string_scalar 10 GetEmptyLeafProofRequest_with_registry (js "");
      settle GetEmptyLeafProofRequest_settle.
  apply eats_nil.
Qed.

Lemma GetEmptyLeafProofRequest_codec : codec GetEmptyLeafProofRequest_encode
    GetEmptyLeafProofRequest_decode GetEmptyLeafProofRequest_norm GetEmptyLeafProofRequest_image
    GetEmptyLeafProofRequest_ok.
Proof.
  split.
  - intros m H_registry. unfold GetEmptyLeafProofRequest_encode, GetEmptyLeafProofRequest_image.
    write ltac:(write_scalar_as string_scalar).
    apply writes_ret.
  - intros m f r tl Hm Hr Hf. apply (decode_with_reads _ f);
      [by apply GetEmptyLeafProofRequest_eats|done|lia|done].
Qed.

Lemma GetEmptyLeafProofRequest_safe : safe_decode GetEmptyLeafProofRequest_decode.
Proof.
  apply (decode_with_safe GetEmptyLeafProofRequest_switch createBaseGetEmptyLeafProofRequest).
      intros F tag m r Hr. unfold GetEmptyLeafProofRequest_switch.
  solve_safe_switch.
Qed.
#[local] Hint Resolve GetEmptyLeafProofRequest_safe : model.

Ltac GetEmptyLeafProofResponse_settle m :=
  eval cbv beta iota delta
    [createBaseGetEmptyLeafProofResponse GetEmptyLeafProofResponse_with_proof
      GetEmptyLeafProofResponse_proof] in m.

Definition GetEmptyLeafProofResponse_image (m : GetEmptyLeafProofResponse) : bytes :=
  match GetEmptyLeafProofResponse_proof m with Some v => delimited 10 (ProofMsg_image v)
      | None => [] end ++
  [].

Definition GetEmptyLeafProofResponse_ok (m : GetEmptyLeafProofResponse) : Prop :=
  opt_all (fun v => ProofMsg_ok v /\ bytes_ok (ProofMsg_image v))
      (GetEmptyLeafProofResponse_proof m).

Lemma GetEmptyLeafProofResponse_eats (F : nat) (m : GetEmptyLeafProofResponse) :
  GetEmptyLeafProofResponse_ok m -> eats (GetEmptyLeafProofResponse_switch F)
      F (GetEmptyLeafProofResponse_image m) createBaseGetEmptyLeafProofResponse
      (GetEmptyLeafProofResponse_norm m).
Proof.
  intros H_proof. unfold GetEmptyLeafProofResponse_image.
  settle GetEmptyLeafProofResponse_settle.
  eat_message ProofMsg_codec 10 GetEmptyLeafProofResponse_with_proof;
      settle GetEmptyLeafProofResponse_settle.
  apply eats_nil.
Qed.

Lemma GetEmptyLeafProofResponse_codec : codec GetEmptyLeafProofResponse_encode
    GetEmptyLeafProofResponse_decode GetEmptyLeafProofResponse_norm GetEmptyLeafProofResponse_image
    GetEmptyLeafProofResponse_ok.
Proof.
  split.
  - intros m H_proof. unfold GetEmptyLeafProofResponse_encode, GetEmptyLeafProofResponse_image.
    write ltac:(write_message_as ProofMsg_codec).
    apply writes_ret.
  - intros m f r tl Hm Hr Hf. apply (decode_with_reads _ f);
      [by apply GetEmptyLeafProofResponse_eats|done|lia|done].
Qed.

Lemma GetEmptyLeafProofResponse_safe : safe_decode GetEmptyLeafProofResponse_decode.
Proof.
  apply (decode_with_safe GetEmptyLeafProofResponse_switch createBaseGetEmptyLeafProofResponse).
      intros F tag m r Hr. unfold GetEmptyLeafProofResponse_switch.
  solve_safe_switch.
Qed.
#[local] Hint Resolve GetEmptyLeafProofResponse_safe : model.

Ltac BatchOperation_settle m :=
  eval cbv beta iota delta
    [createBaseBatchOperation BatchOperation_with_leafHash BatchOperation_with_isAddition
      BatchOperation_leafHash BatchOperation_isAddition] in m.

Definition BatchOperation_image (m : BatchOperation) : bytes :=
  (if negb (str_eqb (BatchOperation_leafHash m) (js "")) then enc_uint32 10 ++
      enc_string (BatchOperation_leafHash m) else []) ++
  (if negb (Bool.eqb (BatchOperation_isAddition m) false) then enc_uint32 16 ++
      enc_bool (BatchOperation_isAddition m) else []) ++
  [].

Definition BatchOperation_ok (m : BatchOperation) : Prop :=
  string_ok (BatchOperation_leafHash m) /\
  (fun _ : bool => True) (BatchOperation_isAddition m).

Lemma BatchOperation_eats (F : nat) (m : BatchOperation) :
  BatchOperation_ok m -> eats (BatchOperation_switch F) F (BatchOperation_image m)
      createBaseBatchOperation (BatchOperation_norm m).
Proof.
  intros (H_leafHash & H_isAddition). unfold BatchOperation_image.
  settle BatchOperation_settle.
  eat_scalar string_scalar 10 BatchOperation_with_leafHash (js ""); settle BatchOperation_settle.
  eat_scalar bool_scalar 16 BatchOperation_with_isAddition false; settle BatchOperation_settle.
  apply eats_nil.
Qed.

Lemma BatchOperation_codec : codec BatchOperation_encode BatchOperation_decode BatchOperation_norm
    BatchOperation_image BatchOperation_ok.
Proof.
  split.
  - intros m (H_leafHash & H_isAddition). unfold BatchOperation_encode, BatchOperation_image.
    write ltac:(write_scalar_as string_scalar). write ltac:(write_scalar_as bool_scalar).
    apply writes_ret.
  - intros m f r tl Hm Hr Hf. apply (decode_with_reads _ f);
      [by apply BatchOperation_eats|done|lia|done].
Qed.

Lemma BatchOperation_safe : safe_decode BatchOperation_decode.
Proof.
  apply (decode_with_safe BatchOperation_switch createBaseBatchOperation). intros F tag m r Hr.
      unfold BatchOperation_switch.
  solve_safe_switch.
Qed.
#[local] Hint Resolve BatchOperation_safe : model.

Ltac QueryBatchProofsRequest_settle m :=
  eval cbv beta iota delta
    [createBaseQueryBatchProofsRequest QueryBatchProofsRequest_with_registry
      QueryBatchProofsRequest_with_operations QueryBatchProofsRequest_registry
      QueryBatchProofsRequest_operations] in m.

Definition QueryBatchProofsRequest_image (m : QueryBatchProofsRequest) : bytes :=
  (if negb (str_eqb (QueryBatchProofsRequest_registry m) (js "")) then enc_uint32 10 ++
      enc_string (QueryBatchProofsRequest_registry m) else []) ++
  concat (map (fun v => delimited 18 (BatchOperation_image v))
      (QueryBatchProofsRequest_operations m)) ++
  [].

Definition QueryBatchProofsRequest_ok (m : QueryBatchProofsRequest) : Prop :=
  string_ok (QueryBatchProofsRequest_registry m) /\
  Forall (fun v => BatchOperation_ok v /\ bytes_ok (BatchOperation_image v))
      (QueryBatchProofsRequest_operations m).

Lemma QueryBatchProofsRequest_eats (F : nat) (m : QueryBatchProofsRequest) :
  QueryBatchProofsRequest_ok m -> eats (QueryBatchProofsRequest_switch F)
      F (QueryBatchProofsRequest_image m) createBaseQueryBatchProofsRequest
      (QueryBatchProofsRequest_norm m).
Proof.
  intros (H_registry & H_operations). unfold QueryBatchProofsRequest_image.
  settle QueryBatchProofsRequest_settle.
  eat_scalar string_scalar 10 QueryBatchProofsRequest_with_registry (js "");
      settle QueryBatchProofsRequest_settle.
  eat_messages BatchOperation_codec 18 QueryBatchProofsRequest_with_operations;
      settle QueryBatchProofsRequest_settle.
  apply eats_nil.
Qed.

Lemma QueryBatchProofsRequest_codec : codec QueryBatchProofsRequest_encode
    QueryBatchProofsRequest_decode QueryBatchProofsRequest_norm QueryBatchProofsRequest_image
    QueryBatchProofsRequest_ok.
Proof.
  split.
  - intros m (H_registry & H_operations). unfold QueryBatchProofsRequest_encode,
      QueryBatchProofsRequest_image.
    write ltac:(write_scalar_as string_scalar). write ltac:(write_message_as BatchOperation_codec).
    apply writes_ret.
  - intros m f r tl Hm Hr Hf. apply (decode_with_reads _ f);
      [by apply QueryBatchProofsRequest_eats|done|lia|done].
Qed.

Lemma QueryBatchProofsRequest_safe : safe_decode QueryBatchProofsRequest_decode.
Proof.
  apply (decode_with_safe QueryBatchProofsRequest_switch createBaseQueryBatchProofsRequest).
      intros F tag m r Hr. unfold QueryBatchProofsRequest_switch.
  solve_safe_switch.
Qed.
#[local] Hint Resolve QueryBatchProofsRequest_safe : model.

Ltac BatchProof_settle m :=
  eval cbv beta iota delta
    [createBaseBatchProof BatchProof_with_index BatchProof_with_path BatchProof_index
      BatchProof_path] in m.

Definition BatchProof_image (m : BatchProof) : bytes :=
  (if negb (num_eqb (BatchProof_index m) (Int 0)) then enc_uint32 8 ++
      enc_number enc_uint32 (BatchProof_index m) else []) ++
  concat (map (fun v => enc_uint32 18 ++ enc_string v) (BatchProof_path m)) ++
  [].

Definition BatchProof_ok (m : BatchProof) : Prop :=
  uint32_ok (BatchProof_index m) /\
  Forall string_ok (BatchProof_path m).

Lemma BatchProof_eats (F : nat) (m : BatchProof) :
  BatchProof_ok m -> eats (BatchProof_switch F) F (BatchProof_image m)
      createBaseBatchProof (BatchProof_norm m).
Proof.
  intros (H_index & H_path). unfold BatchProof_image.
  settle BatchProof_settle.
  eat_scalar uint32_scalar 8 BatchProof_with_index (Int 0); settle BatchProof_settle.
  eat_repeated string_scalar 18 BatchProof_with_path; settle BatchProof_settle.
  apply eats_nil.
Qed.

Lemma BatchProof_codec : codec BatchProof_encode BatchProof_decode BatchProof_norm BatchProof_image
    BatchProof_ok.
Proof.
  split.
  - intros m (H_index & H_path). unfold BatchProof_encode, BatchProof_image.
    write ltac:(write_scalar_as uint32_scalar). write ltac:(write_scalar_as string_scalar).
    apply writes_ret.
  - intros m f r tl Hm Hr Hf. apply (decode_with_reads _ f);
      [by apply BatchProof_eats|done|lia|done].
Qed.

Lemma BatchProof_safe : safe_decode BatchProof_decode.
Proof.
  apply (decode_with_safe BatchProof_switch createBaseBatchProof). intros F tag m r Hr.
      unfold BatchProof_switch.
  solve_safe_switch.
Qed.
#[local] Hint Resolve BatchProof_safe : model.

Ltac QueryBatchProofsResponse_settle m :=
  eval cbv beta iota delta
    [createBaseQueryBatchProofsResponse QueryBatchProofsResponse_with_initialRoot
      QueryBatchProofsResponse_with_proofs QueryBatchProofsResponse_initialRoot
      QueryBatchProofsResponse_proofs] in m.

Definition QueryBatchProofsResponse_image (m : QueryBatchProofsResponse) : bytes :=
  (if negb (str_eqb (QueryBatchProofsResponse_initialRoot m) (js "")) then enc_uint32 10 ++
      enc_string (QueryBatchProofsResponse_initialRoot m) else []) ++
  concat (map (fun v => delimited 18 (BatchProof_image v)) (QueryBatchProofsResponse_proofs m)) ++
  [].

Definition QueryBatchProofsResponse_ok (m : QueryBatchProofsResponse) : Prop :=
  string_ok (QueryBatchProofsResponse_initialRoot m) /\
  Forall (fun v => BatchProof_ok v /\ bytes_ok (BatchProof_image v))
      (QueryBatchProofsResponse_proofs m).

Lemma QueryBatchProofsResponse_eats (F : nat) (m : QueryBatchProofsResponse) :
  QueryBatchProofsResponse_ok m -> eats (QueryBatchProofsResponse_switch F)
      F (QueryBatchProofsResponse_image m) createBaseQueryBatchProofsResponse
      (QueryBatchProofsResponse_norm m).
Proof.
  intros (H_initialRoot & H_proofs). unfold QueryBatchProofsResponse_image.
  settle QueryBatchProofsResponse_settle.
  eat_scalar string_scalar 10 QueryBatchProofsResponse_with_initialRoot (js "");
      settle QueryBatchProofsResponse_settle.
  eat_messages BatchProof_codec 18 QueryBatchProofsResponse_with_proofs;
      settle QueryBatchProofsResponse_settle.
  apply eats_nil.
Qed.

Lemma QueryBatchProofsResponse_codec : codec QueryBatchProofsResponse_encode
    QueryBatchProofsResponse_decode QueryBatchProofsResponse_norm QueryBatchProofsResponse_image
    QueryBatchProofsResponse_ok.
Proof.
  split.
  - intros m (H_initialRoot & H_proofs). unfold QueryBatchProofsResponse_encode,
      QueryBatchProofsResponse_image.
    write ltac:(write_scalar_as string_scalar). write ltac:(write_message_as BatchProof_codec).
    apply writes_ret.
  - intros m f r tl Hm Hr Hf. apply (decode_with_reads _ f);
      [by apply QueryBatchProofsResponse_eats|done|lia|done].
Qed.

Lemma QueryBatchProofsResponse_safe : safe_decode QueryBatchProofsResponse_decode.
Proof.
  apply (decode_with_safe QueryBatchProofsResponse_switch createBaseQueryBatchProofsResponse).
      intros F tag m r Hr. unfold QueryBatchProofsResponse_switch.
  solve_safe_switch.
Qed.
#[local] Hint Resolve QueryBatchProofsResponse_safe : model.
End QueryWire.
