(* ===== verification/QueryJson.v ===== *)
(** The JSON form of the [galactica.merkle] messages: which messages it can carry
    ([M_json_ok]), and that [fromJSON] reads back what [toJSON] wrote. *)

From stdpp Require Import base list numbers strings.
From Stdlib Require Import ZArith Lia.
From S2P Require Import Prelude JsNumber JsValue Wire Query QueryFacts.
Local Open Scope Z_scope.

Definition QueryProofRequest_json_ok (_ : QueryProofRequest) : Prop :=
  True.

Lemma QueryProofRequest_json (m : QueryProofRequest) :
  QueryProofRequest_json_ok m -> QueryProofRequest_fromJSON (QueryProofRequest_toJSON m)
      = Ok (QueryProofRequest_norm m).
Proof.
  intros _. unfold QueryProofRequest_fromJSON, QueryProofRequest_toJSON. cbv zeta.
  erewrite (field_string _ _ (Some (QueryProofRequest_registry m))) by json_get; cbn [res_bind].
  erewrite (field_string _ _ (Some (QueryProofRequest_leaf m))) by json_get; cbn [res_bind].
  reflexivity.
Qed.

Definition ProofMsg_json_ok (m : ProofMsg) : Prop :=
  opt_all json_int (Some (ProofMsg_index m)).

Lemma ProofMsg_json (m : ProofMsg) :
  ProofMsg_json_ok m -> ProofMsg_fromJSON (ProofMsg_toJSON m) = Ok (ProofMsg_norm m).
Proof.
  intros H_index. unfold ProofMsg_fromJSON, ProofMsg_toJSON. cbv zeta.
  erewrite (field_string _ _ (Some (ProofMsg_leaf m))) by json_get; cbn [res_bind].
  erewrite (array_field_id _ _ VString _ (fun _ => True) (ProofMsg_path m));
      [cbn [res_bind]|done|by apply Forall_true|json_get].
  erewrite (field_int _ _ (Some (ProofMsg_index m))); [cbn [res_bind]|assumption|json_get].
  erewrite (field_string _ _ (Some (ProofMsg_root m))) by json_get; cbn [res_bind].
  reflexivity.
Qed.

Definition QueryProofResponse_json_ok (m : QueryProofResponse) : Prop :=
  opt_all ProofMsg_json_ok (QueryProofResponse_proof m).

Lemma QueryProofResponse_json (m : QueryProofResponse) :
  QueryProofResponse_json_ok m -> QueryProofResponse_fromJSON (QueryProofResponse_toJSON m)
      = Ok (QueryProofResponse_norm m).
Proof.
  intros H_proof. unfold QueryProofResponse_fromJSON, QueryProofResponse_toJSON. cbv zeta.
  erewrite (opt_field_message _ _ ProofMsg_toJSON _ ProofMsg_norm ProofMsg_json_ok
      (QueryProofResponse_proof m)); [cbn [res_bind]|intros; split;
      [reflexivity|by apply ProofMsg_json]|assumption|json_get].
  reflexivity.
Qed.

Definition GetEmptyLeafProofRequest_json_ok (_ : GetEmptyLeafProofRequest) : Prop :=
  True.

Lemma GetEmptyLeafProofRequest_json (m : GetEmptyLeafProofRequest) :
  GetEmptyLeafProofRequest_json_ok m -> GetEmptyLeafProofRequest_fromJSON
      (GetEmptyLeafProofRequest_toJSON m) = Ok (GetEmptyLeafProofRequest_norm m).
Proof.
  intros _. unfold GetEmptyLeafProofRequest_fromJSON, GetEmptyLeafProofRequest_toJSON. cbv zeta.
  erewrite (field_string _ _ (Some (GetEmptyLeafProofRequest_registry m))) by json_get;
      cbn [res_bind].
  reflexivity.
Qed.

Definition GetEmptyLeafProofResponse_json_ok (m : GetEmptyLeafProofResponse) : Prop :=
  opt_all ProofMsg_json_ok (GetEmptyLeafProofResponse_proof m).

Lemma GetEmptyLeafProofResponse_json (m : GetEmptyLeafProofResponse) :
  GetEmptyLeafProofResponse_json_ok m -> GetEmptyLeafProofResponse_fromJSON
      (GetEmptyLeafProofResponse_toJSON m) = Ok (GetEmptyLeafProofResponse_norm m).
Proof.
  intros H_proof. unfold GetEmptyLeafProofResponse_fromJSON, GetEmptyLeafProofResponse_toJSON.
      cbv zeta.
  erewrite (opt_field_message _ _ ProofMsg_toJSON _ ProofMsg_norm ProofMsg_json_ok
      (GetEmptyLeafProofResponse_proof m)); [cbn [res_bind]|intros; split;
      [reflexivity|by apply ProofMsg_json]|assumption|json_get].
  reflexivity.
Qed.

Definition BatchOperation_json_ok (_ : BatchOperation) : Prop :=
  True.

Lemma BatchOperation_json (m : BatchOperation) :
  BatchOperation_json_ok m -> BatchOperation_fromJSON (BatchOperation_toJSON m)
      = Ok (BatchOperation_norm m).
Proof.
  intros _. unfold BatchOperation_fromJSON, BatchOperation_toJSON. cbv zeta.
  erewrite (field_string _ _ (Some (BatchOperation_leafHash m))) by json_get; cbn [res_bind].
  erewrite (field_bool _ _ false (Some (BatchOperation_isAddition m))) by json_get; cbn [res_bind].
  reflexivity.
Qed.

Definition QueryBatchProofsRequest_json_ok (m : QueryBatchProofsRequest) : Prop :=
  Forall BatchOperation_json_ok (QueryBatchProofsRequest_operations m).

Lemma QueryBatchProofsRequest_json (m : QueryBatchProofsRequest) :
  QueryBatchProofsRequest_json_ok m -> QueryBatchProofsRequest_fromJSON
      (QueryBatchProofsRequest_toJSON m) = Ok (QueryBatchProofsRequest_norm m).
Proof.
  intros H_operations. unfold QueryBatchProofsRequest_fromJSON, QueryBatchProofsRequest_toJSON.
      cbv zeta.
  erewrite (field_string _ _ (Some (QueryBatchProofsRequest_registry m))) by json_get;
      cbn [res_bind].
  erewrite (array_field_map _ _ BatchOperation_toJSON _ BatchOperation_norm BatchOperation_json_ok
      (QueryBatchProofsRequest_operations m)); [cbn [res_bind]|by apply
      BatchOperation_json|assumption|json_get].
  reflexivity.
Qed.

Definition BatchProof_json_ok (m : BatchProof) : Prop :=
  opt_all json_int (Some (BatchProof_index m)).

Lemma BatchProof_json (m : BatchProof) :
  BatchProof_json_ok m -> BatchProof_fromJSON (BatchProof_toJSON m) = Ok (BatchProof_norm m).
Proof.
  intros H_index. unfold BatchProof_fromJSON, BatchProof_toJSON. cbv zeta.
  erewrite (field_int _ _ (Some (BatchProof_index m))); [cbn [res_bind]|assumption|json_get].
  erewrite (array_field_id _ _ VString _ (fun _ => True) (BatchProof_path m));
      [cbn [res_bind]|done|by apply Forall_true|json_get].
  reflexivity.
Qed.

Definition QueryBatchProofsResponse_json_ok (m : QueryBatchProofsResponse) : Prop :=
  Forall BatchProof_json_ok (QueryBatchProofsResponse_proofs m).

Lemma QueryBatchProofsResponse_json (m : QueryBatchProofsResponse) :
  QueryBatchProofsResponse_json_ok m -> QueryBatchProofsResponse_fromJSON
      (QueryBatchProofsResponse_toJSON m) = Ok (QueryBatchProofsResponse_norm m).
Proof.
  intros H_proofs. unfold QueryBatchProofsResponse_fromJSON, QueryBatchProofsResponse_toJSON.
      cbv zeta.
  erewrite (field_string _ _ (Some (QueryBatchProofsResponse_initialRoot m))) by json_get;
      cbn [res_bind].
  erewrite (array_field_map _ _ BatchProof_toJSON _ BatchProof_norm BatchProof_json_ok
      (QueryBatchProofsResponse_proofs m)); [cbn [res_bind]|by apply
      BatchProof_json|assumption|json_get].
  reflexivity.
Qed.
