(* ===== verification/QueryTheorems.v ===== *)
(** Theorems about [gen/ts/galactica/merkle/query.ts]: the client over a transport that
    carries wire-format messages is the service behind it; encoding and decoding, in binary
    and in JSON, are inverse; decoding any bytes terminates, ignores fields it does not know
    and merges concatenated messages. *)

From stdpp Require Import base list numbers strings.
From Stdlib Require Import Strings.Byte ZArith Lia.
From S2P Require Import Prelude JsNumber JsValue Wire WireFacts DescriptorBase WireInstance.
From S2P Require Import Query QueryFacts QueryJson.
Local Open Scope Z_scope.

(** * Messages without optional scalar fields are their own normal form *)

Lemma QueryProofRequest_normal (m : QueryProofRequest) : QueryProofRequest_norm m = m.
Proof. by destruct m. Qed.

Lemma ProofMsg_normal (m : ProofMsg) : ProofMsg_norm m = m.
Proof. by destruct m. Qed.

Lemma QueryProofResponse_normal (m : QueryProofResponse) : QueryProofResponse_norm m = m.
Proof.
  destruct m. unfold QueryProofResponse_norm. cbn. by rewrite (option_map_fixed _ _ ProofMsg_normal).
Qed.

Lemma GetEmptyLeafProofRequest_normal (m : GetEmptyLeafProofRequest) : GetEmptyLeafProofRequest_norm m = m.
Proof. by destruct m. Qed.

Lemma GetEmptyLeafProofResponse_normal (m : GetEmptyLeafProofResponse) :
  GetEmptyLeafProofResponse_norm m = m.
Proof.
  destruct m. unfold GetEmptyLeafProofResponse_norm. cbn.
  by rewrite (option_map_fixed _ _ ProofMsg_normal).
Qed.

Lemma BatchOperation_normal (m : BatchOperation) : BatchOperation_norm m = m.
Proof. by destruct m. Qed.

Lemma QueryBatchProofsRequest_normal (m : QueryBatchProofsRequest) : QueryBatchProofsRequest_norm m = m.
Proof.
  destruct m. unfold QueryBatchProofsRequest_norm. cbn. by rewrite (map_fixed _ _ BatchOperation_normal).
Qed.

Lemma BatchProof_normal (m : BatchProof) : BatchProof_norm m = m.
Proof. by destruct m. Qed.

Lemma QueryBatchProofsResponse_normal (m : QueryBatchProofsResponse) : QueryBatchProofsResponse_norm m = m.
Proof.
  destruct m. unfold QueryBatchProofsResponse_norm. cbn. by rewrite (map_fixed _ _ BatchProof_normal).
Qed.

Section Theorems.
Context {RT : WireRuntime} {L : WireLaws RT}.

(** A codec whose messages are normal: the round trip is the identity. *)
Lemma codec_identity {M : Type} {enc : M -> writer -> jsres writer}
    {dec : nat -> input -> option Z -> jsres (M * reader)} {norm : M -> M} {image : M -> bytes}
    {ok : M -> Prop} (HC : codec enc dec norm image ok) (m : M) :
  decodes_whole dec -> (forall m, norm m = m) -> ok m ->
  (let* b := encoded enc m in decoded dec b) = Ok m.
Proof. intros Hd Hn Hm. by rewrite (codec_roundtrip HC m Hd Hm), Hn. Qed.

Lemma QueryProofRequest_whole : decodes_whole QueryProofRequest_decode.
Proof. apply (decode_with_whole QueryProofRequest_switch). Qed.

Lemma QueryProofResponse_whole : decodes_whole QueryProofResponse_decode.
Proof. apply (decode_with_whole QueryProofResponse_switch). Qed.

Lemma GetEmptyLeafProofRequest_whole : decodes_whole GetEmptyLeafProofRequest_decode.
Proof. apply (decode_with_whole GetEmptyLeafProofRequest_switch). Qed.

Lemma GetEmptyLeafProofResponse_whole : decodes_whole GetEmptyLeafProofResponse_decode.
Proof. apply (decode_with_whole GetEmptyLeafProofResponse_switch). Qed.

Lemma QueryBatchProofsRequest_whole : decodes_whole QueryBatchProofsRequest_decode.
Proof. apply (decode_with_whole QueryBatchProofsRequest_switch). Qed.

Lemma QueryBatchProofsResponse_whole : decodes_whole QueryBatchProofsResponse_decode.
Proof. apply (decode_with_whole QueryBatchProofsResponse_switch). Qed.

#[local] Hint Resolve QueryProofRequest_whole QueryProofResponse_whole GetEmptyLeafProofRequest_whole
  GetEmptyLeafProofResponse_whole QueryBatchProofsRequest_whole QueryBatchProofsResponse_whole : model.
#[local] Hint Resolve QueryProofRequest_normal QueryProofResponse_normal GetEmptyLeafProofRequest_normal
  GetEmptyLeafProofResponse_normal QueryBatchProofsRequest_normal QueryBatchProofsResponse_normal : model.

(** * The client and the service *)

(** A method of a server: it decodes the request, runs the handler, encodes the response. *)
Definition serve {A B : Type} (dec : nat -> input -> option Z -> jsres (A * reader))
    (enc : B -> writer -> jsres writer) (handler : A -> js_error + B) (data : bytes)
    : js_error + bytes :=
  match (let* req := decoded dec data in let* resp := lift (handler req) in encoded enc resp) with
  | Ok b => inr b
  | Throw e => inl e
  | OutOfFuel => inl (HostError (js "not reached"))
  end.

(** The transport to a server of [svc]: it dispatches on the service and the method name. *)
Definition transport (svc : QueryService) : Rpc :=
  mkRpc (fun service method data =>
    if negb (str_eqb service QueryServiceName) then inl (HostError (js "unknown service"))
    else if str_eqb method (js "Proof") then
      serve QueryProofRequest_decode QueryProofResponse_encode (QueryService_Proof svc) data
    else if str_eqb method (js "GetEmptyLeafProof") then
      serve GetEmptyLeafProofRequest_decode GetEmptyLeafProofResponse_encode
        (QueryService_GetEmptyLeafProof svc) data
    else if str_eqb method (js "GetBatchProofs") then
      serve QueryBatchProofsRequest_decode QueryBatchProofsResponse_encode
        (QueryService_GetBatchProofs svc) data
    else inl (HostError (js "unknown method"))).

Definition right_all {A B : Type} (P : B -> Prop) (s : A + B) : Prop :=
  match s with inl _ => True | inr b => P b end.

Lemma serve_image {A B : Type} {encA : A -> writer -> jsres writer}
    {decA : nat -> input -> option Z -> jsres (A * reader)} {normA : A -> A} {imageA : A -> bytes}
    {okA : A -> Prop} (HA : codec encA decA normA imageA okA)
    {encB : B -> writer -> jsres writer}
    {decB : nat -> input -> option Z -> jsres (B * reader)} {normB : B -> B} {imageB : B -> bytes}
    {okB : B -> Prop} (HB : codec encB decB normB imageB okB)
    (handler : A -> js_error + B) (req : A) :
  decodes_whole decA -> okA req -> normA req = req -> right_all okB (handler req) ->
  serve decA encB handler (imageA req) =
    match handler req with inl e => inl e | inr resp => inr (imageB resp) end.
Proof.
  intros Hd Hreq Hn Hresp. unfold serve. rewrite (decoded_image HA _ Hd Hreq), Hn. cbn [res_bind].
  destruct (handler req) as [e|resp]; cbn [lift res_bind]; [done|].
  by rewrite (encoded_image HB _ Hresp).
Qed.

(** A client method: encode, request, decode. *)
Definition call {A B : Type} (enc : A -> writer -> jsres writer)
    (dec : nat -> input -> option Z -> jsres (B * reader)) (request : bytes -> js_error + bytes)
    (req : A) : jsres B :=
  let* b := encoded enc req in let* data := lift (request b) in decoded dec data.

Lemma call_serve {A B : Type} {encA : A -> writer -> jsres writer}
    {decA : nat -> input -> option Z -> jsres (A * reader)} {normA : A -> A} {imageA : A -> bytes}
    {okA : A -> Prop} (HA : codec encA decA normA imageA okA)
    {encB : B -> writer -> jsres writer}
    {decB : nat -> input -> option Z -> jsres (B * reader)} {normB : B -> B} {imageB : B -> bytes}
    {okB : B -> Prop} (HB : codec encB decB normB imageB okB)
    (handler : A -> js_error + B) (req : A) :
  decodes_whole decA -> decodes_whole decB -> (forall m, normA m = m) -> (forall m, normB m = m) ->
  okA req -> right_all okB (handler req) ->
  call encA decB (serve decA encB handler) req = lift (handler req).
Proof.
  intros HdA HdB HnA HnB Hreq Hresp. unfold call. rewrite (encoded_image HA _ Hreq). cbn [res_bind].
  rewrite (serve_image HA HB) by done. destruct (handler req) as [e|resp]; cbn in *; [done|].
  by rewrite (decoded_image HB _ HdB Hresp), HnB.
Qed.

Lemma call_bind {A B : Type} (enc : A -> writer -> jsres writer)
    (sw : nat -> Z -> B -> reader -> jsres (flow B)) (base : B)
    (request : bytes -> js_error + bytes) (req : A) :
  (let* w := enc req new_writer in
   let data := finish w in
   let* data := lift (request data) in
   let reader := new_reader data in
   let* (response, _) := decode_with (sw (fuel_for reader)) base (fuel_for reader) (InReader reader) None in
   Ok response) =
  call enc (fun f i l => decode_with (sw f) base f i l) request req.
Proof. unfold call, encoded. by rewrite res_bind_assoc. Qed.

Lemma Proof_call (c : QueryClientImpl) (req : QueryProofRequest) :
  QueryClientImpl_Proof c req =
  call QueryProofRequest_encode QueryProofResponse_decode
    (Rpc_request (QueryClientImpl_rpc c) (QueryClientImpl_service c) (js "Proof")) req.
Proof. apply (call_bind _ QueryProofResponse_switch). Qed.

Lemma GetEmptyLeafProof_call (c : QueryClientImpl) (req : GetEmptyLeafProofRequest) :
  QueryClientImpl_GetEmptyLeafProof c req =
  call GetEmptyLeafProofRequest_encode GetEmptyLeafProofResponse_decode
    (Rpc_request (QueryClientImpl_rpc c) (QueryClientImpl_service c) (js "GetEmptyLeafProof")) req.
Proof. apply (call_bind _ GetEmptyLeafProofResponse_switch). Qed.

Lemma GetBatchProofs_call (c : QueryClientImpl) (req : QueryBatchProofsRequest) :
  QueryClientImpl_GetBatchProofs c req =
  call QueryBatchProofsRequest_encode QueryBatchProofsResponse_decode
    (Rpc_request (QueryClientImpl_rpc c) (QueryClientImpl_service c) (js "GetBatchProofs")) req.
Proof. apply (call_bind _ QueryBatchProofsResponse_switch). Qed.

(** Encoding has no loop that could run out of fuel: it returns or throws. *)
Definition finishes (f : writer -> jsres writer) : Prop := forall w, halts (f w).

Lemma lift_finishes (f : writer -> js_error + writer) : finishes (fun w => lift (f w)).
Proof. intros w. by destruct (f w). Qed.

Lemma for_each_finishes {A : Type} (f : A -> writer -> jsres writer) (l : list A) :
  (forall x, finishes (f x)) -> finishes (for_each f l).
Proof. intros Hf. induction l as [|x l IH]; intros w; [done|]. apply halts_bind; [apply Hf|done]. Qed.

Ltac finish_encode :=
  repeat match goal with
  | |- finishes _ => intro
  | |- halts (res_bind _ _) => apply halts_bind; [|intros ?]
  | |- halts (if ?c then _ else _) => destruct c
  | |- halts (Ok _) => exact I
  | |- halts (for_each _ _ _) => apply for_each_finishes; intros ?
  | |- halts _ => apply lift_finishes
  end.

Lemma BatchOperation_finishes (m : BatchOperation) : finishes (BatchOperation_encode m).
Proof. intros w. unfold BatchOperation_encode. finish_encode. Qed.

Lemma call_total {A B : Type} (enc : A -> writer -> jsres writer)
    (dec : nat -> input -> option Z -> jsres (B * reader)) (request : bytes -> js_error + bytes)
    (req : A) :
  finishes (enc req) -> decodes_whole dec -> safe_decode dec -> call enc dec request req <> OutOfFuel.
Proof.
  intros He Hd Hs. unfold call, encoded. pose proof (He new_writer) as Ht.
  destruct (enc req new_writer) as [w|e|]; cbn; [|done|done].
  destruct (request (finish w)) as [e|data]; cbn; [done|]. by apply decoded_total.
Qed.

Lemma client_Proof (svc : QueryService) (req : QueryProofRequest) :
  QueryProofRequest_ok req -> right_all QueryProofResponse_ok (QueryService_Proof svc req) ->
  QueryClientImpl_Proof (new_QueryClientImpl (transport svc) None) req = lift (QueryService_Proof svc req).
Proof.
  intros Hreq Hresp. rewrite Proof_call.
  apply (call_serve QueryProofRequest_codec QueryProofResponse_codec); auto with model.
Qed.

Lemma client_GetEmptyLeafProof (svc : QueryService) (req : GetEmptyLeafProofRequest) :
  GetEmptyLeafProofRequest_ok req -> right_all GetEmptyLeafProofResponse_ok (QueryService_GetEmptyLeafProof svc req) ->
  QueryClientImpl_GetEmptyLeafProof (new_QueryClientImpl (transport svc) None) req =
    lift (QueryService_GetEmptyLeafProof svc req).
Proof.
  intros Hreq Hresp. rewrite GetEmptyLeafProof_call.
  apply (call_serve GetEmptyLeafProofRequest_codec GetEmptyLeafProofResponse_codec); auto with model.
Qed.

Lemma client_GetBatchProofs (svc : QueryService) (req : QueryBatchProofsRequest) :
  QueryBatchProofsRequest_ok req -> right_all QueryBatchProofsResponse_ok (QueryService_GetBatchProofs svc req) ->
  QueryClientImpl_GetBatchProofs (new_QueryClientImpl (transport svc) None) req =
    lift (QueryService_GetBatchProofs svc req).
Proof.
  intros Hreq Hresp. rewrite GetBatchProofs_call.
  apply (call_serve QueryBatchProofsRequest_codec QueryBatchProofsResponse_codec); auto with model.
Qed.

(** C33: a client over a transport to a server of [svc] is the service: every method resolves
    to what the handler of the same name answers to the same request, and rejects with the
    handler's error, for all requests and answers that the wire format can carry. *)
Theorem client_refines_service (svc : QueryService) :
  let client := new_QueryClientImpl (transport svc) None in
  (forall req, QueryProofRequest_ok req -> right_all QueryProofResponse_ok (QueryService_Proof svc req) ->
     QueryClientImpl_Proof client req = lift (QueryService_Proof svc req)) /\
  (forall req, GetEmptyLeafProofRequest_ok req ->
     right_all GetEmptyLeafProofResponse_ok (QueryService_GetEmptyLeafProof svc req) ->
     QueryClientImpl_GetEmptyLeafProof client req = lift (QueryService_GetEmptyLeafProof svc req)) /\
  (forall req, QueryBatchProofsRequest_ok req ->
     right_all QueryBatchProofsResponse_ok (QueryService_GetBatchProofs svc req) ->
     QueryClientImpl_GetBatchProofs client req = lift (QueryService_GetBatchProofs svc req)).
Proof.
  intros client. split; [|split].
  - apply client_Proof.
  - apply client_GetEmptyLeafProof.
  - apply client_GetBatchProofs.
Qed.

(** C37: whatever bytes the transport resolves to, every client method finishes: it returns a
    message or throws. *)
Theorem client_terminates (client : QueryClientImpl) :
  (forall req, QueryClientImpl_Proof client req <> OutOfFuel) /\
  (forall req, QueryClientImpl_GetEmptyLeafProof client req <> OutOfFuel) /\
  (forall req, QueryClientImpl_GetBatchProofs client req <> OutOfFuel).
Proof.
  repeat split; intros req.
  - rewrite Proof_call. apply call_total; [|apply QueryProofResponse_whole|apply QueryProofResponse_safe].
    intros w. unfold QueryProofRequest_encode. finish_encode.
  - rewrite GetEmptyLeafProof_call.
    apply call_total; [|apply GetEmptyLeafProofResponse_whole|apply GetEmptyLeafProofResponse_safe].
    intros w. unfold GetEmptyLeafProofRequest_encode. finish_encode.
  - rewrite GetBatchProofs_call.
    apply call_total; [|apply QueryBatchProofsResponse_whole|apply QueryBatchProofsResponse_safe].
    intros w. unfold QueryBatchProofsRequest_encode. finish_encode. apply BatchOperation_finishes.
Qed.

(** * Round trips *)

Definition wire_inverse {M : Type} (enc : M -> writer -> jsres writer)
    (dec : nat -> input -> option Z -> jsres (M * reader)) (ok : M -> Prop) : Prop :=
  forall m, ok m -> (let* b := encoded enc m in decoded dec b) = Ok m.

(** C34: for each of the nine messages, [decode(encode(m).finish())] is [m], whenever the
    format can carry [m]: its strings are well-formed and do not start with a byte order mark,
    its indices are 32-bit, and embedded messages are shorter than 2^32 bytes. *)
Theorem query_wire_roundtrip :
  wire_inverse QueryProofRequest_encode QueryProofRequest_decode QueryProofRequest_ok /\
  wire_inverse ProofMsg_encode ProofMsg_decode ProofMsg_ok /\
  wire_inverse QueryProofResponse_encode QueryProofResponse_decode QueryProofResponse_ok /\
  wire_inverse GetEmptyLeafProofRequest_encode GetEmptyLeafProofRequest_decode
    GetEmptyLeafProofRequest_ok /\
  wire_inverse GetEmptyLeafProofResponse_encode GetEmptyLeafProofResponse_decode
    GetEmptyLeafProofResponse_ok /\
  wire_inverse BatchOperation_encode BatchOperation_decode BatchOperation_ok /\
  wire_inverse QueryBatchProofsRequest_encode QueryBatchProofsRequest_decode
    QueryBatchProofsRequest_ok /\
  wire_inverse BatchProof_encode BatchProof_decode BatchProof_ok /\
  wire_inverse QueryBatchProofsResponse_encode QueryBatchProofsResponse_decode
    QueryBatchProofsResponse_ok.
Proof.
  repeat split; intros m Hm.
  - apply (codec_identity QueryProofRequest_codec); auto with model.
  - apply (codec_identity ProofMsg_codec); auto using ProofMsg_normal.
    apply (decode_with_whole ProofMsg_switch).
  - apply (codec_identity QueryProofResponse_codec); auto with model.
  - apply (codec_identity GetEmptyLeafProofRequest_codec); auto with model.
  - apply (codec_identity GetEmptyLeafProofResponse_codec); auto with model.
  - apply (codec_identity BatchOperation_codec); auto using BatchOperation_normal.
    apply (decode_with_whole BatchOperation_switch).
  - apply (codec_identity QueryBatchProofsRequest_codec); auto with model.
  - apply (codec_identity BatchProof_codec); auto using BatchProof_normal.
    apply (decode_with_whole BatchProof_switch).
  - apply (codec_identity QueryBatchProofsResponse_codec); auto with model.
Qed.

(** * Fields of newer servers, and concatenated messages *)

Lemma eats_unknown_fields {M : Type} (sw : Z -> M -> reader -> jsres (flow M)) (F : nat)
    (known : list Z) (us : list unknown_field) (m : M) :
  (forall T r, ~ In T known -> sw T m r = Ok Break) ->
  Forall (fun u => unknown_ok u /\ ~ In (unknown_tag u) known) us ->
  eats sw F (concat (map unknown_bytes us)) m m.
Proof.
  intros Hsw Hus. induction Hus as [|u us [Hu Hk] _ IH]; [apply eats_nil|].
  cbn. eapply eats_app; [|exact IH]. apply eats_unknown_field; auto.
Qed.

Ltac solve_unknown :=
  intros T r Hin; cbv beta zeta;
  repeat match goal with
  | |- context [Z.shiftr T 3 =? ?k] => destruct (Z.shiftr T 3 =? k)
  | |- context [T =? ?k] => destruct (Z.eqb_spec T k); [exfalso; apply Hin; subst; cbn; tauto|]
  end; reflexivity.

Lemma QueryProofResponse_unknown (F : nat) (m : QueryProofResponse) (T : Z) (r : reader) :
  ~ In T [10] -> QueryProofResponse_switch F T m r = Ok Break.
Proof. unfold QueryProofResponse_switch. revert T r. solve_unknown. Qed.

Lemma GetEmptyLeafProofResponse_unknown (F : nat) (m : GetEmptyLeafProofResponse) (T : Z) (r : reader) :
  ~ In T [10] -> GetEmptyLeafProofResponse_switch F T m r = Ok Break.
Proof. unfold GetEmptyLeafProofResponse_switch. revert T r. solve_unknown. Qed.

Lemma QueryBatchProofsResponse_unknown (F : nat) (m : QueryBatchProofsResponse) (T : Z) (r : reader) :
  ~ In T [10; 18] -> QueryBatchProofsResponse_switch F T m r = Ok Break.
Proof. unfold QueryBatchProofsResponse_switch. revert T r. solve_unknown. Qed.

(** Bytes that a newer server may send for [m]: its encoding, followed by fields that the
    client does not know, or knows with another wire type. *)
Definition newer (image : bytes) (us : list unknown_field) : bytes :=
  image ++ concat (map unknown_bytes us).

Definition foreign (known : list Z) (us : list unknown_field) : Prop :=
  Forall (fun u => unknown_ok u /\ ~ In (unknown_tag u) known) us.

Lemma decoded_newer {M : Type} {enc : M -> writer -> jsres writer}
    {dec : nat -> input -> option Z -> jsres (M * reader)} {norm : M -> M} {image : M -> bytes}
    {ok : M -> Prop} (HC : codec enc dec norm image ok)
    (sw : nat -> Z -> M -> reader -> jsres (flow M)) (base : M) (known : list Z)
    (m : M) (b : bytes) (us : list unknown_field) :
  (forall F, eats (sw F) F (image m) base (norm m)) -> norm m = m ->
  (forall F T r, ~ In T known -> sw F T m r = Ok Break) ->
  ok m -> encoded enc m = Ok b -> foreign known us ->
  decoded (fun f i l => decode_with (sw f) base f i l) (newer b us) = Ok m.
Proof.
  intros Heats Hn Hsw Hm Hb Hus. rewrite (encoded_image HC m Hm) in Hb. injection Hb as <-.
  apply decoded_eats. eapply eats_app; [apply Heats|]. rewrite Hn.
  apply (eats_unknown_fields _ _ known); [apply Hsw|exact Hus].
Qed.

(** A client reads a response as before when the server appends fields that the client
    does not know, or sends a known field number with another wire type. *)
Theorem responses_skip_unknown_fields (us : list unknown_field) :
  (forall m b, QueryProofResponse_ok m -> encoded QueryProofResponse_encode m = Ok b ->
     foreign [10] us -> decoded QueryProofResponse_decode (newer b us) = Ok m) /\
  (forall m b, GetEmptyLeafProofResponse_ok m -> encoded GetEmptyLeafProofResponse_encode m = Ok b ->
     foreign [10] us -> decoded GetEmptyLeafProofResponse_decode (newer b us) = Ok m) /\
  (forall m b, QueryBatchProofsResponse_ok m -> encoded QueryBatchProofsResponse_encode m = Ok b ->
     foreign [10; 18] us -> decoded QueryBatchProofsResponse_decode (newer b us) = Ok m).
Proof.
  repeat split; intros m b Hm Hb Hus.
  - apply (decoded_newer QueryProofResponse_codec QueryProofResponse_switch _ [10]);
      auto using QueryProofResponse_eats, QueryProofResponse_unknown with model.
  - apply (decoded_newer GetEmptyLeafProofResponse_codec GetEmptyLeafProofResponse_switch _ [10]);
      auto using GetEmptyLeafProofResponse_eats, GetEmptyLeafProofResponse_unknown with model.
  - apply (decoded_newer QueryBatchProofsResponse_codec QueryBatchProofsResponse_switch _ [10; 18]);
      auto using QueryBatchProofsResponse_eats, QueryBatchProofsResponse_unknown with model.
Qed.

(** The message that two concatenated requests stand for: the last registry that is not empty,
    and all operations in order. *)
Definition merge_requests (m1 m2 : QueryBatchProofsRequest) : QueryBatchProofsRequest :=
  mkQueryBatchProofsRequest
    (if str_eqb (QueryBatchProofsRequest_registry m2) (js "") then QueryBatchProofsRequest_registry m1
     else QueryBatchProofsRequest_registry m2)
    (QueryBatchProofsRequest_operations m1 ++ QueryBatchProofsRequest_operations m2).

Lemma QueryBatchProofsRequest_eats_more (F : nat) (m1 m2 : QueryBatchProofsRequest) :
  QueryBatchProofsRequest_ok m2 ->
  eats (QueryBatchProofsRequest_switch F) F (QueryBatchProofsRequest_image m2) m1 (merge_requests m1 m2).
Proof.
  intros [Hr Ho]. destruct m1 as [r1 ops1], m2 as [r2 ops2]. unfold QueryBatchProofsRequest_image, merge_requests.
  cbn [QueryBatchProofsRequest_registry QueryBatchProofsRequest_operations] in *.
  apply (eats_app _ _ _ _ _ (mkQueryBatchProofsRequest (if str_eqb r2 (js "") then r1 else r2) ops1)).
  - destruct (str_eqb r2 (js "")); cbn [negb]; [apply eats_nil|].
    by apply (eats_scalar _ F _ _ _ _ string_scalar 10 _ (fun v => mkQueryBatchProofsRequest v ops1)).
  - rewrite app_nil_r. rewrite <- (map_fixed _ ops2 BatchOperation_normal) at 2.
    set (r := if str_eqb r2 (js "") then r1 else r2).
    eapply (eats_each _ F _ (mkQueryBatchProofsRequest r) (fun v => delimited 18 (BatchOperation_image v)));
      [|exact Ho].
    intros v acc [Hv Hb].
    by apply (eats_message _ F _ _ _ _ _ BatchOperation_codec 18 _
      (fun x => mkQueryBatchProofsRequest r (acc ++ [x]))).
Qed.

(** Decoding two encoded batch requests written one after the other gives the merged
    request: operations are appended, and the last registry that is not empty wins. *)
Theorem batch_requests_concatenate (m1 m2 : QueryBatchProofsRequest) (b1 b2 : bytes) :
  QueryBatchProofsRequest_ok m1 -> QueryBatchProofsRequest_ok m2 ->
  encoded QueryBatchProofsRequest_encode m1 = Ok b1 -> encoded QueryBatchProofsRequest_encode m2 = Ok b2 ->
  decoded QueryBatchProofsRequest_decode (b1 ++ b2) = Ok (merge_requests m1 m2).
Proof.
  intros H1 H2. rewrite (encoded_image QueryBatchProofsRequest_codec m1 H1),
    (encoded_image QueryBatchProofsRequest_codec m2 H2). intros [= <-] [= <-].
  apply (decoded_eats QueryBatchProofsRequest_switch).
  eapply eats_app; [by apply QueryBatchProofsRequest_eats|].
  rewrite QueryBatchProofsRequest_normal. by apply QueryBatchProofsRequest_eats_more.
Qed.
End Theorems.

(** * JSON *)

(** C38: for each of the nine messages [fromJSON(toJSON(m))] is [m]; the messages with an index
    need it to be an integer other than minus zero. *)
Theorem query_json_roundtrip :
  json_inverse QueryProofRequest_toJSON QueryProofRequest_fromJSON (fun _ => True) /\
  json_inverse ProofMsg_toJSON ProofMsg_fromJSON ProofMsg_json_ok /\
  json_inverse QueryProofResponse_toJSON QueryProofResponse_fromJSON QueryProofResponse_json_ok /\
  json_inverse GetEmptyLeafProofRequest_toJSON GetEmptyLeafProofRequest_fromJSON (fun _ => True) /\
  json_inverse GetEmptyLeafProofResponse_toJSON GetEmptyLeafProofResponse_fromJSON
    GetEmptyLeafProofResponse_json_ok /\
  json_inverse BatchOperation_toJSON BatchOperation_fromJSON (fun _ => True) /\
  json_inverse QueryBatchProofsRequest_toJSON QueryBatchProofsRequest_fromJSON (fun _ => True) /\
  json_inverse BatchProof_toJSON BatchProof_fromJSON BatchProof_json_ok /\
  json_inverse QueryBatchProofsResponse_toJSON QueryBatchProofsResponse_fromJSON
    QueryBatchProofsResponse_json_ok.
Proof.
  repeat split; eapply json_identity.
  - apply QueryProofRequest_json.
  - apply QueryProofRequest_normal.
  - apply ProofMsg_json.
  - apply ProofMsg_normal.
  - apply QueryProofResponse_json.
  - apply QueryProofResponse_normal.
  - apply GetEmptyLeafProofRequest_json.
  - apply GetEmptyLeafProofRequest_normal.
  - apply GetEmptyLeafProofResponse_json.
  - apply GetEmptyLeafProofResponse_normal.
  - apply BatchOperation_json.
  - apply BatchOperation_normal.
  - intros m _. apply QueryBatchProofsRequest_json. unfold QueryBatchProofsRequest_json_ok.
    by apply Forall_true.
  - apply QueryBatchProofsRequest_normal.
  - apply BatchProof_json.
  - apply BatchProof_normal.
  - apply QueryBatchProofsResponse_json.
  - apply QueryBatchProofsResponse_normal.
Qed.

(** How [fromJSON] treats values that hold no field: reading a property of [null] or
    [undefined] throws, an empty object is the default message, and so is any other value
    that is not an object. *)
Definition json_empty {M : Type} (fromJSON : value -> jsres M) (default_message : M) : Prop :=
  forall v,
    match v with
    | VUndefined | VNull => fromJSON v = Throw TypeError
    | VObject [] | VBool _ | VNumber _ | VString _ | VArray _ => fromJSON v = Ok default_message
    | VObject _ => True
    end.

(** Every [fromJSON] rejects [null] and [undefined] with a [TypeError], and reads a value
    without fields as the message [create()] makes. *)
Theorem query_json_without_fields :
  json_empty QueryProofRequest_fromJSON (QueryProofRequest_create None) /\
  json_empty ProofMsg_fromJSON (ProofMsg_create None) /\
  json_empty QueryProofResponse_fromJSON (QueryProofResponse_create None) /\
  json_empty GetEmptyLeafProofRequest_fromJSON (GetEmptyLeafProofRequest_create None) /\
  json_empty GetEmptyLeafProofResponse_fromJSON (GetEmptyLeafProofResponse_create None) /\
  json_empty BatchOperation_fromJSON (BatchOperation_create None) /\
  json_empty QueryBatchProofsRequest_fromJSON (QueryBatchProofsRequest_create None) /\
  json_empty BatchProof_fromJSON (BatchProof_create None) /\
  json_empty QueryBatchProofsResponse_fromJSON (QueryBatchProofsResponse_create None).
Proof. repeat split; intros [| | | | | |[|]]; reflexivity. Qed.

(** * Witnesses: a service with concrete answers over the concrete runtime *)

Definition demo_proof : ProofMsg :=
  mkProofMsg (js "0x11") [js "0xaa"; js "0xbb"] (Int 300) (js "0xcc").
Definition demo_batch_request : QueryBatchProofsRequest :=
  mkQueryBatchProofsRequest (js "0xreg") [mkBatchOperation (js "0x01") true; mkBatchOperation (js "0x02") false].
Definition demo_batch_response : QueryBatchProofsResponse :=
  mkQueryBatchProofsResponse (js "0xroot") [mkBatchProof (Int 5) [js "0xaa"; js ""]; mkBatchProof (Int 0) []].
Definition demo_service : QueryService :=
  mkQueryService (fun _ => inr (mkQueryProofResponse (Some demo_proof)))
    (fun _ => inl (HostError (js "no empty leaf"))) (fun _ => inr demo_batch_response).

Lemma client_refines_service_witness :
  QueryClientImpl_GetBatchProofs (new_QueryClientImpl (transport demo_service) None) demo_batch_request
  = Ok demo_batch_response.
Proof. apply (client_refines_service demo_service); concrete_ok. Defined.

Lemma client_terminates_witness :
  QueryClientImpl_Proof (new_QueryClientImpl (mkRpc (fun _ _ _ => inr [x0a; xff])) None)
    (mkQueryProofRequest (js "a") (js "b")) <> OutOfFuel.
Proof. apply (client_terminates (new_QueryClientImpl (mkRpc (fun _ _ _ => inr [x0a; xff])) None)). Defined.

Lemma query_wire_roundtrip_witness :
  (let* b := encoded QueryBatchProofsResponse_encode demo_batch_response in
   decoded QueryBatchProofsResponse_decode b) = Ok demo_batch_response.
Proof. apply query_wire_roundtrip. concrete_ok. Defined.

Lemma responses_skip_unknown_fields_witness :
  decoded QueryBatchProofsResponse_decode
    (newer (QueryBatchProofsResponse_image demo_batch_response)
       [UnknownVarint 1 7; UnknownBytes 99 [x01; x02]]) = Ok demo_batch_response.
Proof.
  apply (responses_skip_unknown_fields [UnknownVarint 1 7; UnknownBytes 99 [x01; x02]]).
  - concrete_ok.
  - vm_compute. reflexivity.
  - repeat constructor; vm_compute; try congruence; intros H; repeat destruct H as [H|H]; congruence.
Defined.

Lemma batch_requests_concatenate_witness :
  decoded QueryBatchProofsRequest_decode
    (QueryBatchProofsRequest_image demo_batch_request ++ QueryBatchProofsRequest_image demo_batch_request)
  = Ok (merge_requests demo_batch_request demo_batch_request).
Proof.
  apply batch_requests_concatenate; [concrete_ok..| |]; vm_compute; reflexivity.
Defined.

Lemma query_json_roundtrip_witness :
  QueryBatchProofsResponse_fromJSON (QueryBatchProofsResponse_toJSON demo_batch_response)
  = Ok demo_batch_response.
Proof.
  apply query_json_roundtrip. repeat constructor; vm_compute; congruence.
Defined.
