(* ===== verification/QueryTypes.v ===== *)
(** What the decoders of [gen/ts/galactica/merkle/query.ts] accept has the declared types:
    strings are well-formed text and indices are unsigned 32-bit integers, whatever bytes
    came in.  [typed_switch] says that one execution of a [switch] keeps a property of the
    message; the decode loop then keeps it, nested messages included. *)

From stdpp Require Import base list numbers strings.
From Stdlib Require Import Strings.Byte ZArith Lia.
From S2P Require Import Prelude JsNumber JsValue Wire WireFacts DescriptorBase WireInstance.
From S2P Require Import Query QueryFacts QueryJson QueryTheorems.
Local Open Scope Z_scope.

(** The runtime reads strings with a [TextDecoder], which yields well-formed text of at most
    one code unit per byte. *)
Class TextLaws (RT : WireRuntime) (L : WireLaws RT) : Prop :=
  rd_string_text : forall r s r', rd_string r = inr (s, r') ->
    well_formed s = true /\ (length s <= length (rest r))%nat.

#[export] Instance concrete_text : TextLaws concrete_runtime concrete_laws.
Proof.
  intros r s r'. cbn. unfold run_parser, read_delimited, pbind.
  destruct (read_varint (rrest r)) as [[n b]|] eqn:E; [|done]. apply read_varint_strict in E.
  unfold take_bytes. destruct (_ <? _); [done|]. intros [= <- <-].
  pose proof (bytes_to_text_typed (take (Z.to_nat n) b)) as [Hw Hl]. split; [done|].
  rewrite length_take in Hl. lia.
Qed.

Section Typed.
Context {RT : WireRuntime} {L : WireLaws RT} {TL : TextLaws RT L}.

(** The input has at most [N] bytes, so that every string in it can be written again. *)
Context (N : nat) (small : 3 * Z.of_nat N < 2 ^ 32).

(** * Decoding keeps a property of the message *)

Definition typed_read {A : Type} (rd : reader -> jsres (A * reader)) (P : A -> Prop) : Prop :=
  forall r x r', (length (rest r) <= N)%nat -> rd r = Ok (x, r') -> P x.

Definition typed_decode {M : Type} (dec : nat -> input -> option Z -> jsres (M * reader)) (P : M -> Prop) : Prop :=
  forall f r l m r', (length (rest r) < f)%nat -> (length (rest r) <= N)%nat ->
    dec f (InReader r) l = Ok (m, r') -> P m.

Definition typed_step {M : Type} (P : M -> Prop) (c : jsres (flow M)) : Prop :=
  match c with Ok (Continue m _) => P m | _ => True end.

Definition typed_switch {M : Type} (sw : Z -> M -> reader -> jsres (flow M)) (F : nat) (P : M -> Prop) : Prop :=
  forall tag m r, (length (rest r) < F)%nat -> (length (rest r) <= N)%nat -> P m -> typed_step P (sw tag m r).

Lemma typed_string : typed_read r_string text_ok.
Proof.
  intros r s r' Hr. unfold r_string. destruct (rd_string r) as [|[s0 r0]] eqn:E; [done|]. intros [= -> ->].
  apply rd_string_text in E as [? ?]. split; [done|lia].
Qed.

Lemma typed_uint32 : typed_read r_uint32_number uint32_ok.
Proof.
  intros r x r' Hr. unfold r_uint32_number, r_uint32. destruct (rd_uint32 r) as [|[n r0]] eqn:E; [done|].
  intros [= <- ->]. apply rd_uint32_moves in E as (_ & _ & Hn). by exists n.
Qed.

Lemma typed_bool : typed_read r_bool (fun _ => True).
Proof. by intros r x r' _ _. Qed.

Lemma typed_break {M : Type} (P : M -> Prop) : typed_step P (Ok Break).
Proof. exact I. Qed.

Lemma typed_scalar {M A : Type} (P : M -> Prop) (Q : A -> Prop) (rd : reader -> jsres (A * reader)) (k : A -> M)
    (r : reader) :
  typed_read rd Q -> (length (rest r) <= N)%nat -> (forall x, Q x -> P (k x)) ->
  typed_step P (let* (x, r') := rd r in Ok (Continue (k x) r')).
Proof.
  intros Hrd Hr Hk. destruct (rd r) as [[x r']| |] eqn:E; cbn; [|done..]. by apply Hk, (Hrd r x r').
Qed.

Lemma typed_message {M A : Type} (P : M -> Prop) (Q : A -> Prop)
    (dec : nat -> input -> option Z -> jsres (A * reader)) (F : nat) (k : A -> M) (r : reader) :
  typed_decode dec Q -> (length (rest r) < F)%nat -> (length (rest r) <= N)%nat -> (forall x, Q x -> P (k x)) ->
  typed_step P (let* (l, r1) := r_uint32 r in
                let* (x, r2) := dec F (InReader r1) (Some l) in Ok (Continue (k x) r2)).
Proof.
  intros Hd HF HN Hk. unfold r_uint32. destruct (rd_uint32 r) as [|[l r1]] eqn:E; cbn [lift res_bind]; [done|].
  apply rd_uint32_moves in E as (L1 & P1 & _). assert (moves r r1) as Hm by (split; [done|lia]).
  apply moves_rest in Hm. destruct (dec F (InReader r1) (Some l)) as [[x r2]| |] eqn:E; cbn; [|done..].
  by apply Hk, (Hd F r1 (Some l) x r2); [lia..|].
Qed.

Lemma decode_loop_typed {M : Type} (sw : Z -> M -> reader -> jsres (flow M)) (F : nat) (P : M -> Prop) :
  safe_switch sw F -> typed_switch sw F P ->
  forall n e m r m' r', (length (rest r) <= F)%nat -> (length (rest r) <= N)%nat -> P m ->
    decode_loop sw n e m r = Ok (m', r') -> P m'.
Proof.
  intros Hsafe Hsw. induction n as [|n IH]; intros e m r m' r' HF HN Hm; cbn [decode_loop];
    (destruct (pos r <? e); [|by intros [= <- _]]); [done|].
  unfold r_uint32 at 1. destruct (rd_uint32 r) as [|[tag r1]] eqn:E; cbn [lift res_bind]; [done|].
  apply rd_uint32_moves in E as (L1 & P1 & _). pose proof (len_rest r). pose proof (len_rest r1).
  pose proof (Hsw tag m r1 ltac:(lia) ltac:(lia) Hm) as Ht. pose proof (Hsafe tag m r1 ltac:(lia)) as Hs.
  destruct (sw tag m r1) as [[m1 r2|]| |]; cbn [typed_step res_bind] in *; [| |done..].
  - apply moves_rest in Hs. by apply IH; [lia..|].
  - destruct (_ || _); [by intros [= <- _]|]. unfold r_skip.
    destruct (rd_skip (Z.land tag 7) r1) as [|r2] eqn:E2; cbn [lift res_bind]; [done|].
    apply rd_skip_moves, moves_rest in E2. by apply IH; [lia..|].
Qed.

Lemma decode_with_typed {M : Type} (sw : nat -> Z -> M -> reader -> jsres (flow M)) (base : M) (P : M -> Prop) :
  (forall F, safe_switch (sw F) F) -> (forall F, typed_switch (sw F) F P) -> P base ->
  typed_decode (fun f i l => decode_with (sw f) base f i l) P.
Proof.
  intros Hs Ht Hb f r l m r' HF HN. unfold decode_with. cbn [reader_of].
  apply (decode_loop_typed (sw f) f P); [done..|lia|done|done].
Qed.

Lemma decoded_typed {M : Type} (dec : nat -> input -> option Z -> jsres (M * reader)) (P : M -> Prop) (b : bytes)
    (m : M) :
  decodes_whole dec -> typed_decode dec P -> (length b <= N)%nat -> decoded dec b = Ok m -> P m.
Proof.
  intros Hw Ht Hb. unfold decoded. rewrite Hw, fuel_for_new.
  destruct (dec _ _ _) as [[m0 r0]| |] eqn:E; cbn; [|done..]. intros [= <-].
  by eapply Ht; [| |exact E]; rewrite rest_new; lia.
Qed.
End Typed.

Create HintDb typed discriminated.
#[export] Hint Resolve typed_string typed_uint32 typed_bool typed_break typed_scalar typed_message : typed.

Lemma Forall_snoc {A : Type} (P : A -> Prop) (l : list A) (x : A) : Forall P l -> P x -> Forall P (l ++ [x]).
Proof. intros Hl Hx. by apply Forall_app_2; [|constructor]. Qed.

(** One execution of a message's [switch]: each branch breaks, or sets a field to something
    typed and leaves the others alone. *)
Ltac typed_fields :=
  repeat match goal with
  | |- typed_step _ (if ?c then _ else _) => destruct c
  | |- typed_step _ (let _ := _ in _) => cbv zeta
  end;
  first
  [ apply typed_break
  | eapply typed_scalar; [eauto with typed|eassumption|intros x Hx]
  | eapply typed_message; [eauto with typed|eassumption|eassumption|intros x Hx] ];
  cbn; repeat first [exact I | assumption | apply Forall_snoc | split].

Section Messages.
Context {RT : WireRuntime} {L : WireLaws RT} {TL : TextLaws RT L}.
Context (N : nat) (small : 3 * Z.of_nat N < 2 ^ 32).
#[local] Hint Resolve BatchOperation_safe BatchProof_safe ProofMsg_safe : model.

Lemma empty_text_ok : text_ok (js "").
Proof. by split. Qed.

Lemma zero_uint32_ok : uint32_ok (Int 0).
Proof. by exists 0. Qed.
#[local] Hint Resolve empty_text_ok zero_uint32_ok Forall_nil_2 : model.

Ltac unfold_switch := match goal with |- _ (?f _ _ _ _) => match f with ?g _ => unfold g end end.

Tactic Notation "typed_message_by" constr(H) simple_intropattern(fields) :=
  apply H;
  [ intros F tag m r Hr; unfold_switch; solve_safe_switch
  | intros F tag m r HF HN fields; unfold_switch; typed_fields
  | repeat split; auto with model ].

(** The declared types of the messages. *)
Definition ProofMsg_typed (m : ProofMsg) : Prop :=
  text_ok (ProofMsg_leaf m) /\ Forall text_ok (ProofMsg_path m) /\ uint32_ok (ProofMsg_index m) /\
  text_ok (ProofMsg_root m).
Definition BatchOperation_typed (m : BatchOperation) : Prop := text_ok (BatchOperation_leafHash m).
Definition BatchProof_typed (m : BatchProof) : Prop :=
  uint32_ok (BatchProof_index m) /\ Forall text_ok (BatchProof_path m).
Definition QueryProofRequest_typed (m : QueryProofRequest) : Prop :=
  text_ok (QueryProofRequest_registry m) /\ text_ok (QueryProofRequest_leaf m).
Definition GetEmptyLeafProofRequest_typed (m : GetEmptyLeafProofRequest) : Prop :=
  text_ok (GetEmptyLeafProofRequest_registry m).
Definition QueryProofResponse_typed (m : QueryProofResponse)
    : Prop := opt_all ProofMsg_typed (QueryProofResponse_proof m).
Definition GetEmptyLeafProofResponse_typed (m : GetEmptyLeafProofResponse) : Prop :=
  opt_all ProofMsg_typed (GetEmptyLeafProofResponse_proof m).
Definition QueryBatchProofsRequest_typed (m : QueryBatchProofsRequest) : Prop :=
  text_ok (QueryBatchProofsRequest_registry m) /\ Forall BatchOperation_typed (QueryBatchProofsRequest_operations m).
Definition QueryBatchProofsResponse_typed (m : QueryBatchProofsResponse) : Prop :=
  text_ok (QueryBatchProofsResponse_initialRoot m) /\ Forall BatchProof_typed (QueryBatchProofsResponse_proofs m).

Lemma ProofMsg_decode_typed : typed_decode N ProofMsg_decode ProofMsg_typed.
Proof. typed_message_by (decode_with_typed N ProofMsg_switch createBaseProofMsg) (? & ? & ? & ?). Qed.
#[local] Hint Resolve ProofMsg_decode_typed : typed.

Lemma BatchOperation_decode_typed : typed_decode N BatchOperation_decode BatchOperation_typed.
Proof. typed_message_by (decode_with_typed N BatchOperation_switch createBaseBatchOperation) ?. Qed.
#[local] Hint Resolve BatchOperation_decode_typed : typed.

Lemma BatchProof_decode_typed : typed_decode N BatchProof_decode BatchProof_typed.
Proof. typed_message_by (decode_with_typed N BatchProof_switch createBaseBatchProof) (? & ?). Qed.
#[local] Hint Resolve BatchProof_decode_typed : typed.

Lemma QueryProofRequest_decode_typed : typed_decode N QueryProofRequest_decode QueryProofRequest_typed.
Proof. typed_message_by (decode_with_typed N QueryProofRequest_switch createBaseQueryProofRequest) (? & ?). Qed.

Lemma GetEmptyLeafProofRequest_decode_typed : typed_decode N GetEmptyLeafProofRequest_decode
    GetEmptyLeafProofRequest_typed.
Proof. typed_message_by (decode_with_typed N GetEmptyLeafProofRequest_switch
    createBaseGetEmptyLeafProofRequest) ?. Qed.

Lemma QueryProofResponse_decode_typed : typed_decode N QueryProofResponse_decode QueryProofResponse_typed.
Proof. typed_message_by (decode_with_typed N QueryProofResponse_switch createBaseQueryProofResponse) ?. Qed.

Lemma GetEmptyLeafProofResponse_decode_typed : typed_decode N GetEmptyLeafProofResponse_decode
    GetEmptyLeafProofResponse_typed.
Proof. typed_message_by (decode_with_typed N GetEmptyLeafProofResponse_switch
    createBaseGetEmptyLeafProofResponse) ?. Qed.

Lemma QueryBatchProofsRequest_decode_typed : typed_decode N QueryBatchProofsRequest_decode
    QueryBatchProofsRequest_typed.
Proof. typed_message_by (decode_with_typed N QueryBatchProofsRequest_switch createBaseQueryBatchProofsRequest)
    (? & ?). Qed.

Lemma QueryBatchProofsResponse_decode_typed : typed_decode N QueryBatchProofsResponse_decode
    QueryBatchProofsResponse_typed.
Proof. typed_message_by (decode_with_typed N QueryBatchProofsResponse_switch
    createBaseQueryBatchProofsResponse) (? & ?). Qed.

End Messages.

Section Theorems.
Context {RT : WireRuntime} {L : WireLaws RT} {TL : TextLaws RT L}.

Definition small_answer (b : bytes) : Prop := 3 * Z.of_nat (length b) < 2 ^ 32.

Definition answers_small (client : QueryClientImpl) : Prop :=
  forall service method data answer,
    Rpc_request (QueryClientImpl_rpc client) service method data = inr answer -> small_answer answer.

(** A client method gives what its decoder accepts. *)
Lemma call_typed {A B : Type} {enc : A -> writer -> jsres writer}
    {dec : nat -> input -> option Z -> jsres (B * reader)} {P : B -> Prop} (request : bytes -> js_error + bytes)
    (req : A) (m : B) :
  decodes_whole dec -> (forall N, 3 * Z.of_nat N < 2 ^ 32 -> typed_decode N dec P) ->
  (forall data answer, request data = inr answer -> small_answer answer) ->
  call enc dec request req = Ok m -> P m.
Proof.
  intros Hw Hd Hs. unfold call. destruct (encoded enc req) as [b| |]; cbn [res_bind]; [|done..].
  destruct (request b) as [e|answer] eqn:E; cbn [lift res_bind]; [done|]. specialize (Hs _ _ E).
  by apply (decoded_typed (length answer)); [|apply Hd|].
Qed.

Lemma uint32_json (x : number) : uint32_ok x -> json_int x.
Proof. by intros (n & -> & _). Qed.

Lemma ProofMsg_typed_json (p : ProofMsg) : ProofMsg_typed p -> ProofMsg_json_ok p.
Proof. intros (_ & _ & H & _). by apply uint32_json. Qed.

Lemma BatchProof_typed_json (p : BatchProof) : BatchProof_typed p -> BatchProof_json_ok p.
Proof. intros [H _]. by apply uint32_json. Qed.

Lemma QueryProofResponse_typed_json (m : QueryProofResponse) :
  QueryProofResponse_typed m -> QueryProofResponse_fromJSON (QueryProofResponse_toJSON m) = Ok m.
Proof.
  intros Hm. rewrite QueryProofResponse_json, QueryProofResponse_normal; [done|].
  by eapply opt_all_impl; [apply ProofMsg_typed_json|].
Qed.

Lemma GetEmptyLeafProofResponse_typed_json (m : GetEmptyLeafProofResponse) :
  GetEmptyLeafProofResponse_typed m -> GetEmptyLeafProofResponse_fromJSON (GetEmptyLeafProofResponse_toJSON m) = Ok m.
Proof.
  intros Hm. rewrite GetEmptyLeafProofResponse_json, GetEmptyLeafProofResponse_normal; [done|].
  by eapply opt_all_impl; [apply ProofMsg_typed_json|].
Qed.

Lemma QueryBatchProofsResponse_typed_json (m : QueryBatchProofsResponse) :
  QueryBatchProofsResponse_typed m -> QueryBatchProofsResponse_fromJSON (QueryBatchProofsResponse_toJSON m) = Ok m.
Proof.
  intros [_ Hm]. rewrite QueryBatchProofsResponse_json, QueryBatchProofsResponse_normal; [done|].
  by eapply Forall_impl; [exact Hm|apply BatchProof_typed_json].
Qed.

(** A message that is read back as it was written. *)
Definition carried {M : Type} (enc : M -> writer -> jsres writer)
    (dec : nat -> input -> option Z -> jsres (M * reader)) (m : M) : Prop :=
  (let* b := encoded enc m in decoded dec b) = Ok m.

(** Texts that do not start with a byte order mark. *)
Definition plain (s : jsstring) : Prop := starts_with_mark s = false.
Definition ProofMsg_plain (m : ProofMsg) : Prop :=
  plain (ProofMsg_leaf m) /\ Forall plain (ProofMsg_path m) /\ plain (ProofMsg_root m).
Definition BatchProof_plain (m : BatchProof) : Prop := Forall plain (BatchProof_path m).

Lemma plain_strings (l : list jsstring) : Forall text_ok l -> Forall plain l -> Forall string_ok l.
Proof. intros H1 H2. by apply Forall_and. Qed.

Lemma ProofMsg_carried (p : ProofMsg) :
  ProofMsg_typed p -> ProofMsg_plain p -> carried ProofMsg_encode ProofMsg_decode p.
Proof.
  intros (H1 & H2 & H3 & H4) (P1 & P2 & P4).
  apply (codec_identity ProofMsg_codec); [apply (decode_with_whole ProofMsg_switch)|apply ProofMsg_normal|].
  split; [by split|]. split; [by apply plain_strings|]. split; [done|by split].
Qed.

Lemma BatchProof_carried (p : BatchProof) :
  BatchProof_typed p -> BatchProof_plain p -> carried BatchProof_encode BatchProof_decode p.
Proof.
  intros [H1 H2] P. apply (codec_identity BatchProof_codec); [apply (decode_with_whole BatchProof_switch)|
    apply BatchProof_normal|]. split; [done|by apply plain_strings].
Qed.

(** C40: whatever bytes a transport answers with, fewer than [2^32 / 3] of them, every message a
    client method returns has the declared types - well-formed texts, unsigned 32-bit indices -,
    the message survives the way through its JSON form, and its proofs can be encoded and
    decoded again when no text in them starts with a byte order mark, which decoding would
    drop. *)
Theorem client_results_typed (client : QueryClientImpl) :
  answers_small client ->
  (forall req m, QueryClientImpl_Proof client req = Ok m ->
     QueryProofResponse_typed m /\
     opt_all (fun p => ProofMsg_plain p -> carried ProofMsg_encode ProofMsg_decode p) (QueryProofResponse_proof m) /\
     QueryProofResponse_fromJSON (QueryProofResponse_toJSON m) = Ok m) /\
  (forall req m, QueryClientImpl_GetEmptyLeafProof client req = Ok m ->
     GetEmptyLeafProofResponse_typed m /\
     opt_all (fun p => ProofMsg_plain p -> carried ProofMsg_encode ProofMsg_decode p)
       (GetEmptyLeafProofResponse_proof m) /\
     GetEmptyLeafProofResponse_fromJSON (GetEmptyLeafProofResponse_toJSON m) = Ok m) /\
  (forall req m, QueryClientImpl_GetBatchProofs client req = Ok m ->
     QueryBatchProofsResponse_typed m /\
     Forall (fun p => BatchProof_plain p -> carried BatchProof_encode BatchProof_decode p)
       (QueryBatchProofsResponse_proofs m) /\
     QueryBatchProofsResponse_fromJSON (QueryBatchProofsResponse_toJSON m) = Ok m).
Proof.
  intros Hs. split; [|split]; intros req m; rewrite ?Proof_call, ?GetEmptyLeafProof_call, ?GetBatchProofs_call;
    intros Hc.
  - assert (QueryProofResponse_typed m) as Hm
      by (eapply call_typed; eauto using QueryProofResponse_whole, QueryProofResponse_decode_typed).
    split; [done|]. split; [by eapply opt_all_impl; [apply ProofMsg_carried|]|by apply QueryProofResponse_typed_json].
  - assert (GetEmptyLeafProofResponse_typed m) as Hm
      by (eapply call_typed; eauto using GetEmptyLeafProofResponse_whole, GetEmptyLeafProofResponse_decode_typed).
    split; [done|].
    split; [by eapply opt_all_impl; [apply ProofMsg_carried|]|by apply GetEmptyLeafProofResponse_typed_json].
  - assert (QueryBatchProofsResponse_typed m) as Hm
      by (eapply call_typed; eauto using QueryBatchProofsResponse_whole, QueryBatchProofsResponse_decode_typed).
    split; [done|]. split; [|by apply QueryBatchProofsResponse_typed_json].
    destruct Hm as [_ Hm]. by eapply Forall_impl; [exact Hm|apply BatchProof_carried].
Qed.

(** What a server decodes as a request has the declared types, too. *)
Theorem decoded_requests_typed (b : bytes) :
  small_answer b ->
  (forall m, decoded QueryProofRequest_decode b = Ok m -> QueryProofRequest_typed m) /\
  (forall m, decoded GetEmptyLeafProofRequest_decode b = Ok m -> GetEmptyLeafProofRequest_typed m) /\
  (forall m, decoded QueryBatchProofsRequest_decode b = Ok m -> QueryBatchProofsRequest_typed m).
Proof.
  intros Hb. split; [|split]; intros m; apply (decoded_typed (length b)); auto using QueryProofRequest_whole,
    GetEmptyLeafProofRequest_whole, QueryBatchProofsRequest_whole, QueryProofRequest_decode_typed,
    GetEmptyLeafProofRequest_decode_typed, QueryBatchProofsRequest_decode_typed.
Qed.
End Theorems.

(** An answer whose index takes more than 32 bits on the wire and whose root is no text. *)
Definition odd_answer : bytes :=
  [x0a; x0d; x18; xff; xff; xff; xff; xff; x01; x22; x04; xd8; x00; xd8; x00].
Definition odd_client : QueryClientImpl := new_QueryClientImpl (mkRpc (fun _ _ _ => inr odd_answer)) None.

Lemma client_results_typed_witness :
  exists m p, QueryClientImpl_Proof odd_client (mkQueryProofRequest (js "0xreg") (js "5")) = Ok m /\
    QueryProofResponse_proof m = Some p /\ QueryProofResponse_typed m /\
    carried ProofMsg_encode ProofMsg_decode p /\
    QueryProofResponse_fromJSON (QueryProofResponse_toJSON m) = Ok m.
Proof.
  eexists _, _. split; [vm_compute; reflexivity|]. split; [reflexivity|].
  destruct (client_results_typed odd_client ltac:(by intros service method data answer [= <-])) as [H _].
  destruct (H (mkQueryProofRequest (js "0xreg") (js "5")) _ ltac:(vm_compute; reflexivity)) as (Ht & Hc & Hj).
  split; [exact Ht|]. split; [|exact Hj]. apply Hc. repeat constructor.
Defined.
