(* ===== verification/Http.v ===== *)
(** The HTTP annotation messages ([gen/ts/google/api/http.ts]), in the conventions of
    [Query].  [HttpRule] embeds a list of itself: its decoder recurses on fuel, and its
    [fromJSON] on fuel that bounds the nesting of the JSON value. *)

From stdpp Require Import base list numbers strings.
From Stdlib Require Import Strings.Byte ZArith Lia.
From S2P Require Import Prelude JsNumber JsValue Wire.
Local Open Scope Z_scope.
#[local] Set Warnings "-register-all".

Section Http.
Context {RT : WireRuntime}.

(** ** [CustomHttpPattern] *)

Record CustomHttpPattern : Type := mkCustomHttpPattern {
  CustomHttpPattern_kind : jsstring;
  CustomHttpPattern_path : jsstring
}.

Record CustomHttpPattern_Partial : Type := mkCustomHttpPattern_Partial {
  CustomHttpPattern_p_kind : option jsstring;
  CustomHttpPattern_p_path : option jsstring
}.

Definition CustomHttpPattern_with_kind (v : jsstring) (m : CustomHttpPattern) : CustomHttpPattern :=
  mkCustomHttpPattern v (CustomHttpPattern_path m).

Definition CustomHttpPattern_with_path (v : jsstring) (m : CustomHttpPattern) : CustomHttpPattern :=
  mkCustomHttpPattern (CustomHttpPattern_kind m) v.

Definition createBaseCustomHttpPattern : CustomHttpPattern :=
  {| CustomHttpPattern_kind := (js "");
     CustomHttpPattern_path := (js "") |}.

Definition CustomHttpPattern_encode (message : CustomHttpPattern) (w : writer) : jsres writer :=
  let* w := if negb (str_eqb (CustomHttpPattern_kind message) (js "")) then
               let* w := w_uint32 (Int 10) w in w_string (CustomHttpPattern_kind message) w
             else Ok w in
  let* w := if negb (str_eqb (CustomHttpPattern_path message) (js "")) then
               let* w := w_uint32 (Int 18) w in w_string (CustomHttpPattern_path message) w
             else Ok w in
  Ok w.

Definition CustomHttpPattern_switch (fuel : nat) (tag : Z) (message : CustomHttpPattern)
    (r : reader)
    : jsres (flow CustomHttpPattern) :=
  let field := Z.shiftr tag 3 in
  if field =? 1 then
    if negb (tag =? 10) then Ok Break
    else
      let* (v, r) := r_string r in Ok (Continue (CustomHttpPattern_with_kind v message) r)
  else if field =? 2 then
    if negb (tag =? 18) then Ok Break
    else
      let* (v, r) := r_string r in Ok (Continue (CustomHttpPattern_with_path v message) r)
  else Ok Break.

Definition CustomHttpPattern_decode (fuel : nat) (i : input) (length : option Z)
    : jsres (CustomHttpPattern * reader) :=
  decode_with (CustomHttpPattern_switch fuel) createBaseCustomHttpPattern fuel i length.

Definition CustomHttpPattern_fromJSON (object : value) : jsres CustomHttpPattern :=
  let* kind_ := field object "kind" to_string (js "") in
  let* path_ := field object "path" to_string (js "") in
  Ok (mkCustomHttpPattern kind_ path_).

Definition CustomHttpPattern_toJSON (message : CustomHttpPattern) : value :=
  let obj : props := [] in
  let obj := put_if (negb (str_eqb (CustomHttpPattern_kind message) (js ""))) "kind" (VString
    (CustomHttpPattern_kind message)) obj in
  let obj := put_if (negb (str_eqb (CustomHttpPattern_path message) (js ""))) "path" (VString
    (CustomHttpPattern_path message)) obj in
  VObject obj.

Definition CustomHttpPattern_fromPartial (object : CustomHttpPattern_Partial) : CustomHttpPattern :=
  let message := createBaseCustomHttpPattern in
  let message := CustomHttpPattern_with_kind (nullish (CustomHttpPattern_p_kind object) (js ""))
      message in
  let message := CustomHttpPattern_with_path (nullish (CustomHttpPattern_p_path object) (js ""))
      message in
  message.

Definition CustomHttpPattern_create (base : option CustomHttpPattern_Partial) : CustomHttpPattern :=
  CustomHttpPattern_fromPartial (nullish base (mkCustomHttpPattern_Partial None None)).

Definition CustomHttpPattern_toPartial (m : CustomHttpPattern) : CustomHttpPattern_Partial :=
  mkCustomHttpPattern_Partial (Some (CustomHttpPattern_kind m)) (Some (CustomHttpPattern_path m)).

(** ** [HttpRule] *)

Inductive HttpRule : Type := mkHttpRule {
  HttpRule_selector : jsstring;
  HttpRule_get : option jsstring;
  HttpRule_put : option jsstring;
  HttpRule_post : option jsstring;
  HttpRule_delete : option jsstring;
  HttpRule_patch : option jsstring;
  HttpRule_custom : option CustomHttpPattern;
  HttpRule_body : jsstring;
  HttpRule_responseBody : jsstring;
  HttpRule_additionalBindings : list HttpRule
}.

Inductive HttpRule_Partial : Type := mkHttpRule_Partial {
  HttpRule_p_selector : option jsstring;
  HttpRule_p_get : option jsstring;
  HttpRule_p_put : option jsstring;
  HttpRule_p_post : option jsstring;
  HttpRule_p_delete : option jsstring;
  HttpRule_p_patch : option jsstring;
  HttpRule_p_custom : option CustomHttpPattern_Partial;
  HttpRule_p_body : option jsstring;
  HttpRule_p_responseBody : option jsstring;
  HttpRule_p_additionalBindings : option (list HttpRule_Partial)
}.

Definition HttpRule_with_selector (v : jsstring) (m : HttpRule) : HttpRule :=
  mkHttpRule v (HttpRule_get m) (HttpRule_put m) (HttpRule_post m) (HttpRule_delete m)
    (HttpRule_patch m) (HttpRule_custom m) (HttpRule_body m) (HttpRule_responseBody m)
    (HttpRule_additionalBindings m).

Definition HttpRule_with_get (v : option jsstring) (m : HttpRule) : HttpRule :=
  mkHttpRule (HttpRule_selector m) v (HttpRule_put m) (HttpRule_post m) (HttpRule_delete m)
    (HttpRule_patch m) (HttpRule_custom m) (HttpRule_body m) (HttpRule_responseBody m)
    (HttpRule_additionalBindings m).

Definition HttpRule_with_put (v : option jsstring) (m : HttpRule) : HttpRule :=
  mkHttpRule (HttpRule_selector m) (HttpRule_get m) v (HttpRule_post m) (HttpRule_delete m)
    (HttpRule_patch m) (HttpRule_custom m) (HttpRule_body m) (HttpRule_responseBody m)
    (HttpRule_additionalBindings m).

Definition HttpRule_with_post (v : option jsstring) (m : HttpRule) : HttpRule :=
  mkHttpRule (HttpRule_selector m) (HttpRule_get m) (HttpRule_put m) v (HttpRule_delete m)
    (HttpRule_patch m) (HttpRule_custom m) (HttpRule_body m) (HttpRule_responseBody m)
    (HttpRule_additionalBindings m).

Definition HttpRule_with_delete (v : option jsstring) (m : HttpRule) : HttpRule :=
  mkHttpRule (HttpRule_selector m) (HttpRule_get m) (HttpRule_put m) (HttpRule_post m) v
    (HttpRule_patch m) (HttpRule_custom m) (HttpRule_body m) (HttpRule_responseBody m)
    (HttpRule_additionalBindings m).

Definition HttpRule_with_patch (v : option jsstring) (m : HttpRule) : HttpRule :=
  mkHttpRule (HttpRule_selector m) (HttpRule_get m) (HttpRule_put m) (HttpRule_post m)
    (HttpRule_delete m) v (HttpRule_custom m) (HttpRule_body m) (HttpRule_responseBody m)
    (HttpRule_additionalBindings m).

Definition HttpRule_with_custom (v : option CustomHttpPattern) (m : HttpRule) : HttpRule :=
  mkHttpRule (HttpRule_selector m) (HttpRule_get m) (HttpRule_put m) (HttpRule_post m)
    (HttpRule_delete m) (HttpRule_patch m) v (HttpRule_body m) (HttpRule_responseBody m)
    (HttpRule_additionalBindings m).

Definition HttpRule_with_body (v : jsstring) (m : HttpRule) : HttpRule :=
  mkHttpRule (HttpRule_selector m) (HttpRule_get m) (HttpRule_put m) (HttpRule_post m)
    (HttpRule_delete m) (HttpRule_patch m) (HttpRule_custom m) v (HttpRule_responseBody m)
    (HttpRule_additionalBindings m).

Definition HttpRule_with_responseBody (v : jsstring) (m : HttpRule) : HttpRule :=
  mkHttpRule (HttpRule_selector m) (HttpRule_get m) (HttpRule_put m) (HttpRule_post m)
    (HttpRule_delete m) (HttpRule_patch m) (HttpRule_custom m) (HttpRule_body m) v
    (HttpRule_additionalBindings m).

Definition HttpRule_with_additionalBindings (v : list HttpRule) (m : HttpRule) : HttpRule :=
  mkHttpRule (HttpRule_selector m) (HttpRule_get m) (HttpRule_put m) (HttpRule_post m)
    (HttpRule_delete m) (HttpRule_patch m) (HttpRule_custom m) (HttpRule_body m)
    (HttpRule_responseBody m) v.

Definition createBaseHttpRule : HttpRule :=
  {| HttpRule_selector := (js "");
     HttpRule_get := None;
     HttpRule_put := None;
     HttpRule_post := None;
     HttpRule_delete := None;
     HttpRule_patch := None;
     HttpRule_custom := None;
     HttpRule_body := (js "");
     HttpRule_responseBody := (js "");
     HttpRule_additionalBindings := [] |}.

Fixpoint HttpRule_encode (message : HttpRule) (w : writer) : jsres writer :=
  let* w := if negb (str_eqb (HttpRule_selector message) (js "")) then
               let* w := w_uint32 (Int 10) w in w_string (HttpRule_selector message) w
             else Ok w in
  let* w := match HttpRule_get message with
             | Some v => let* w := w_uint32 (Int 18) w in w_string v w
             | None => Ok w
             end in
  let* w := match HttpRule_put message with
             | Some v => let* w := w_uint32 (Int 26) w in w_string v w
             | None => Ok w
             end in
  let* w := match HttpRule_post message with
             | Some v => let* w := w_uint32 (Int 34) w in w_string v w
             | None => Ok w
             end in
  let* w := match HttpRule_delete message with
             | Some v => let* w := w_uint32 (Int 42) w in w_string v w
             | None => Ok w
             end in
  let* w := match HttpRule_patch message with
             | Some v => let* w := w_uint32 (Int 50) w in w_string v w
             | None => Ok w
             end in
  let* w := match HttpRule_custom message with
             | Some v => let* w := w_uint32 (Int 66) w in
                         let* w := CustomHttpPattern_encode v (fork w) in w_join w
             | None => Ok w
             end in
  let* w := if negb (str_eqb (HttpRule_body message) (js "")) then
               let* w := w_uint32 (Int 58) w in w_string (HttpRule_body message) w
             else Ok w in
  let* w := if negb (str_eqb (HttpRule_responseBody message) (js "")) then
               let* w := w_uint32 (Int 98) w in w_string (HttpRule_responseBody message) w
             else Ok w in
  let* w := for_each (fun v w => let* w := w_uint32 (Int 90) w in
                               let* w := HttpRule_encode v (fork w) in w_join w)
               (HttpRule_additionalBindings message) w in
  Ok w.

Definition HttpRule_switch
    (decode : nat -> input -> option Z -> jsres (HttpRule * reader)) (fuel : nat) (tag : Z)
        (message : HttpRule) (r : reader)
    : jsres (flow HttpRule) :=
  let field := Z.shiftr tag 3 in
  if field =? 1 then
    if negb (tag =? 10) then Ok Break
    else
      let* (v, r) := r_string r in Ok (Continue (HttpRule_with_selector v message) r)
  else if field =? 2 then
    if negb (tag =? 18) then Ok Break
    else
      let* (v, r) := r_string r in Ok (Continue (HttpRule_with_get (Some v) message) r)
  else if field =? 3 then
    if negb (tag =? 26) then Ok Break
    else
      let* (v, r) := r_string r in Ok (Continue (HttpRule_with_put (Some v) message) r)
  else if field =? 4 then
    if negb (tag =? 34) then Ok Break
    else
      let* (v, r) := r_string r in Ok (Continue (HttpRule_with_post (Some v) message) r)
  else if field =? 5 then
    if negb (tag =? 42) then Ok Break
    else
      let* (v, r) := r_string r in Ok (Continue (HttpRule_with_delete (Some v) message) r)
  else if field =? 6 then
    if negb (tag =? 50) then Ok Break
    else
      let* (v, r) := r_string r in Ok (Continue (HttpRule_with_patch (Some v) message) r)
  else if field =? 8 then
    if negb (tag =? 66) then Ok Break
    else
      let* (l, r) := r_uint32 r in
      let* (v, r) := CustomHttpPattern_decode fuel (InReader r) (Some l) in
      Ok (Continue (HttpRule_with_custom (Some v) message) r)
  else if field =? 7 then
    if negb (tag =? 58) then Ok Break
    else
      let* (v, r) := r_string r in Ok (Continue (HttpRule_with_body v message) r)
  else if field =? 12 then
    if negb (tag =? 98) then Ok Break
    else
      let* (v, r) := r_string r in Ok (Continue (HttpRule_with_responseBody v message) r)
  else if field =? 11 then
    if negb (tag =? 90) then Ok Break
    else
      let* (l, r) := r_uint32 r in
      let* (v, r) := decode fuel (InReader r) (Some l) in
      Ok (Continue (HttpRule_with_additionalBindings (HttpRule_additionalBindings message ++ [v])
          message) r)
  else Ok Break.

Fixpoint HttpRule_decode (fuel : nat) (i : input) (length : option Z) : jsres (HttpRule * reader) :=
  match fuel with
  | O => OutOfFuel
  | S fuel' => decode_with (HttpRule_switch HttpRule_decode fuel') createBaseHttpRule fuel i length
  end.

Fixpoint HttpRule_fromJSON (fuel : nat) (object : value) : jsres HttpRule :=
  match fuel with
  | O => OutOfFuel
  | S fuel =>
      let* selector_ := field object "selector" to_string (js "") in
      let* get_ := opt_field object "get" to_string in
      let* put_ := opt_field object "put" to_string in
      let* post_ := opt_field object "post" to_string in
      let* delete_ := opt_field object "delete" to_string in
      let* patch_ := opt_field object "patch" to_string in
      let* custom_ := opt_field object "custom" CustomHttpPattern_fromJSON in
      let* body_ := field object "body" to_string (js "") in
      let* responseBody_ := field object "responseBody" to_string (js "") in
      let* additionalBindings_ := array_field object "additionalBindings" (HttpRule_fromJSON fuel)
          in
      Ok (mkHttpRule selector_ get_ put_ post_ delete_ patch_ custom_ body_ responseBody_
        additionalBindings_)
  end.

Fixpoint HttpRule_toJSON (message : HttpRule) : value :=
  let obj : props := [] in
  let obj := put_if (negb (str_eqb (HttpRule_selector message) (js ""))) "selector" (VString
    (HttpRule_selector message)) obj in
  let obj := put_defined (HttpRule_get message) (fun _ => true) "get" (fun v => VString v) obj in
  let obj := put_defined (HttpRule_put message) (fun _ => true) "put" (fun v => VString v) obj in
  let obj := put_defined (HttpRule_post message) (fun _ => true) "post" (fun v => VString v) obj
    in
  let obj := put_defined (HttpRule_delete message) (fun _ => true) "delete" (fun v => VString v)
    obj in
  let obj := put_defined (HttpRule_patch message) (fun _ => true) "patch" (fun v => VString v) obj
    in
  let obj := put_defined (HttpRule_custom message) (fun _ => true) "custom" (fun v =>
    CustomHttpPattern_toJSON v) obj in
  let obj := put_if (negb (str_eqb (HttpRule_body message) (js ""))) "body" (VString
    (HttpRule_body message)) obj in
  let obj := put_if (negb (str_eqb (HttpRule_responseBody message) (js ""))) "responseBody"
    (VString (HttpRule_responseBody message)) obj in
  let obj := put_if (has_length (HttpRule_additionalBindings message)) "additionalBindings"
    (VArray (map HttpRule_toJSON (HttpRule_additionalBindings message))) obj in
  VObject obj.

Fixpoint HttpRule_fromPartial (object : HttpRule_Partial) : HttpRule :=
  let message := createBaseHttpRule in
  let message := HttpRule_with_selector (nullish (HttpRule_p_selector object) (js "")) message in
  let message := HttpRule_with_get (HttpRule_p_get object) message in
  let message := HttpRule_with_put (HttpRule_p_put object) message in
  let message := HttpRule_with_post (HttpRule_p_post object) message in
  let message := HttpRule_with_delete (HttpRule_p_delete object) message in
  let message := HttpRule_with_patch (HttpRule_p_patch object) message in
  let message := HttpRule_with_custom (option_map CustomHttpPattern_fromPartial (HttpRule_p_custom
      object)) message in
  let message := HttpRule_with_body (nullish (HttpRule_p_body object) (js "")) message in
  let message := HttpRule_with_responseBody (nullish (HttpRule_p_responseBody object) (js ""))
      message in
  let message := HttpRule_with_additionalBindings (nullish (option_map (map HttpRule_fromPartial)
      (HttpRule_p_additionalBindings object)) []) message in
  message.

Definition HttpRule_create (base : option HttpRule_Partial) : HttpRule :=
  HttpRule_fromPartial (nullish base (mkHttpRule_Partial None None None None None None None None
      None None)).

Fixpoint HttpRule_toPartial (m : HttpRule) : HttpRule_Partial :=
  mkHttpRule_Partial (Some (HttpRule_selector m)) (HttpRule_get m) (HttpRule_put m) (HttpRule_post
    m) (HttpRule_delete m) (HttpRule_patch m) (option_map CustomHttpPattern_toPartial
    (HttpRule_custom m)) (Some (HttpRule_body m)) (Some (HttpRule_responseBody m)) (Some (map
    HttpRule_toPartial (HttpRule_additionalBindings m))).

(** ** [Http] *)

Record Http : Type := mkHttp {
  Http_rules : list HttpRule;
  Http_fullyDecodeReservedExpansion : bool
}.

Record Http_Partial : Type := mkHttp_Partial {
  Http_p_rules : option (list HttpRule_Partial);
  Http_p_fullyDecodeReservedExpansion : option bool
}.

Definition Http_with_rules (v : list HttpRule) (m : Http) : Http :=
  mkHttp v (Http_fullyDecodeReservedExpansion m).

Definition Http_with_fullyDecodeReservedExpansion (v : bool) (m : Http) : Http :=
  mkHttp (Http_rules m) v.

Definition createBaseHttp : Http :=
  {| Http_rules := [];
     Http_fullyDecodeReservedExpansion := false |}.

Definition Http_encode (message : Http) (w : writer) : jsres writer :=
  let* w := for_each (fun v w => let* w := w_uint32 (Int 10) w in
                               let* w := HttpRule_encode v (fork w) in w_join w)
               (Http_rules message) w in
  let* w := if negb (Bool.eqb (Http_fullyDecodeReservedExpansion message) false) then
               let* w := w_uint32 (Int 16) w in w_bool (Http_fullyDecodeReservedExpansion message) w
             else Ok w in
  Ok w.

Definition Http_switch (fuel : nat) (tag : Z) (message : Http) (r : reader)
    : jsres (flow Http) :=
  let field := Z.shiftr tag 3 in
  if field =? 1 then
    if negb (tag =? 10) then Ok Break
    else
      let* (l, r) := r_uint32 r in
      let* (v, r) := HttpRule_decode fuel (InReader r) (Some l) in
      Ok (Continue (Http_with_rules (Http_rules message ++ [v]) message) r)
  else if field =? 2 then
    if negb (tag =? 16) then Ok Break
    else
      let* (v, r) := r_bool r in Ok (Continue (Http_with_fullyDecodeReservedExpansion v message) r)
  else Ok Break.

Definition Http_decode (fuel : nat) (i : input) (length : option Z) : jsres (Http * reader) :=
  decode_with (Http_switch fuel) createBaseHttp fuel i length.

Definition Http_fromJSON (fuel : nat) (object : value) : jsres Http :=
  let* rules_ := array_field object "rules" (HttpRule_fromJSON fuel) in
  let* fullyDecodeReservedExpansion_ := field object "fullyDecodeReservedExpansion" to_bool false in
  Ok (mkHttp rules_ fullyDecodeReservedExpansion_).

Definition Http_toJSON (message : Http) : value :=
  let obj : props := [] in
  let obj := put_if (has_length (Http_rules message)) "rules" (VArray (map HttpRule_toJSON
    (Http_rules message))) obj in
  let obj := put_if (negb (Bool.eqb (Http_fullyDecodeReservedExpansion message) false))
    "fullyDecodeReservedExpansion" (VBool (Http_fullyDecodeReservedExpansion message)) obj in
  VObject obj.

Definition Http_fromPartial (object : Http_Partial) : Http :=
  let message := createBaseHttp in
  let message := Http_with_rules (nullish (option_map (map HttpRule_fromPartial)
      (Http_p_rules object)) []) message in
  let message := Http_with_fullyDecodeReservedExpansion (nullish
      (Http_p_fullyDecodeReservedExpansion object) false) message in
  message.

Definition Http_create (base : option Http_Partial) : Http :=
  Http_fromPartial (nullish base (mkHttp_Partial None None)).

Definition Http_toPartial (m : Http) : Http_Partial :=
  mkHttp_Partial (Some (map HttpRule_toPartial (Http_rules m))) (Some
    (Http_fullyDecodeReservedExpansion m)).
End Http.
