(* ===== verification/HttpFacts.v ===== *)
(** The wire format of the HTTP annotation messages: images, normal forms, and that decoding
    inverts encoding and terminates, nested rules included. *)

From stdpp Require Import base list numbers strings.
From Stdlib Require Import Strings.Byte ZArith Lia.
From S2P Require Import Prelude JsNumber JsValue Wire WireFacts Http.
Local Open Scope Z_scope.

Definition CustomHttpPattern_norm (m : CustomHttpPattern) : CustomHttpPattern :=
  mkCustomHttpPattern (CustomHttpPattern_kind m) (CustomHttpPattern_path m).

Lemma CustomHttpPattern_fromPartial_toPartial :
  forall m, CustomHttpPattern_fromPartial (CustomHttpPattern_toPartial m)
      = CustomHttpPattern_norm m.
Proof. solve_fromPartial CustomHttpPattern_fromPartial CustomHttpPattern_toPartial
    CustomHttpPattern_norm. Qed.
#[export] Hint Rewrite CustomHttpPattern_fromPartial_toPartial : partials.

Fixpoint HttpRule_norm (m : HttpRule) : HttpRule :=
  mkHttpRule (HttpRule_selector m) (HttpRule_get m) (HttpRule_put m) (HttpRule_post m)
    (HttpRule_delete m) (HttpRule_patch m) (option_map CustomHttpPattern_norm (HttpRule_custom m))
    (HttpRule_body m) (HttpRule_responseBody m) (map HttpRule_norm (HttpRule_additionalBindings
    m)).

(** Induction on the nesting of messages. *)
Lemma HttpRule_nested_ind (P : HttpRule -> Prop) :
  (forall m, Forall P (HttpRule_additionalBindings m) -> P m) -> forall m, P m.
Proof.
  intros H. fix IH 1. intros m. apply H. destruct m as [selector get put post delete patch custom
      body responseBody additionalBindings]. cbn [HttpRule_additionalBindings].
  induction additionalBindings as [|x l IHl]; constructor; [apply IH|apply IHl].
Qed.

Lemma HttpRule_fromPartial_toPartial :
  forall m, HttpRule_fromPartial (HttpRule_toPartial m) = HttpRule_norm m.
Proof.
  apply HttpRule_nested_ind. intros [selector get put post delete patch custom body responseBody
      additionalBindings] IH. cbn [HttpRule_additionalBindings] in IH.
  cbn [HttpRule_fromPartial HttpRule_toPartial HttpRule_norm]. cbn. rewrite ?map_map.
  assert (map (fun x => HttpRule_fromPartial (HttpRule_toPartial x))
      additionalBindings = map HttpRule_norm additionalBindings) as ->
    by (by apply map_ext_Forall).
  solve_nested_partials.
Qed.
#[export] Hint Rewrite HttpRule_fromPartial_toPartial : partials.

Definition Http_norm (m : Http) : Http :=
  mkHttp (map HttpRule_norm (Http_rules m)) (Http_fullyDecodeReservedExpansion m).

Lemma Http_fromPartial_toPartial :
  forall m, Http_fromPartial (Http_toPartial m) = Http_norm m.
Proof. solve_fromPartial Http_fromPartial Http_toPartial Http_norm. Qed.
#[export] Hint Rewrite Http_fromPartial_toPartial : partials.

Section HttpWire.
Context {RT : WireRuntime} {L : WireLaws RT}.

Ltac CustomHttpPattern_settle m :=
  eval cbv beta iota delta
    [createBaseCustomHttpPattern CustomHttpPattern_with_kind CustomHttpPattern_with_path
      CustomHttpPattern_kind CustomHttpPattern_path] in m.

Definition CustomHttpPattern_image (m : CustomHttpPattern) : bytes :=
  (if negb (str_eqb (CustomHttpPattern_kind m) (js "")) then enc_uint32 10 ++
      enc_string (CustomHttpPattern_kind m) else []) ++
  (if negb (str_eqb (CustomHttpPattern_path m) (js "")) then enc_uint32 18 ++
      enc_string (CustomHttpPattern_path m) else []) ++
  [].

Definition CustomHttpPattern_ok (m : CustomHttpPattern) : Prop :=
  string_ok (CustomHttpPattern_kind m) /\
  string_ok (CustomHttpPattern_path m).

Lemma CustomHttpPattern_eats (F : nat) (m : CustomHttpPattern) :
  CustomHttpPattern_ok m -> eats (CustomHttpPattern_switch F) F (CustomHttpPattern_image m)
      createBaseCustomHttpPattern (CustomHttpPattern_norm m).
Proof.
  intros (H_kind & H_path). unfold CustomHttpPattern_image.
  settle CustomHttpPattern_settle.
  eat_scalar string_scalar 10 CustomHttpPattern_with_kind (js ""); settle CustomHttpPattern_settle.
  eat_scalar string_scalar 18 CustomHttpPattern_with_path (js ""); settle CustomHttpPattern_settle.
  apply eats_nil.
Qed.

Lemma CustomHttpPattern_codec : codec CustomHttpPattern_encode CustomHttpPattern_decode
    CustomHttpPattern_norm CustomHttpPattern_image CustomHttpPattern_ok.
Proof.
  split.
  - intros m (H_kind & H_path). unfold CustomHttpPattern_encode, CustomHttpPattern_image.
    write ltac:(write_scalar_as string_scalar). write ltac:(write_scalar_as string_scalar).
    apply writes_ret.
  - intros m f r tl Hm Hr Hf. apply (decode_with_reads _ f);
      [by apply CustomHttpPattern_eats|done|lia|done].
Qed.

Lemma CustomHttpPattern_safe : safe_decode CustomHttpPattern_decode.
Proof.
  apply (decode_with_safe CustomHttpPattern_switch createBaseCustomHttpPattern).
      intros F tag m r Hr. unfold CustomHttpPattern_switch.
  solve_safe_switch.
Qed.
#[local] Hint Resolve CustomHttpPattern_safe : model.

Ltac HttpRule_settle m :=
  eval cbv beta iota delta
    [createBaseHttpRule HttpRule_with_selector HttpRule_with_get HttpRule_with_put
      HttpRule_with_post HttpRule_with_delete HttpRule_with_patch HttpRule_with_custom
      HttpRule_with_body HttpRule_with_responseBody HttpRule_with_additionalBindings
      HttpRule_selector HttpRule_get HttpRule_put HttpRule_post HttpRule_delete HttpRule_patch
      HttpRule_custom HttpRule_body HttpRule_responseBody HttpRule_additionalBindings] in m.

Fixpoint HttpRule_image (m : HttpRule) : bytes :=
  (if negb (str_eqb (HttpRule_selector m) (js "")) then enc_uint32 10 ++
      enc_string (HttpRule_selector m) else []) ++
  match HttpRule_get m with Some v => enc_uint32 18 ++ enc_string v | None => [] end ++
  match HttpRule_put m with Some v => enc_uint32 26 ++ enc_string v | None => [] end ++
  match HttpRule_post m with Some v => enc_uint32 34 ++ enc_string v | None => [] end ++
  match HttpRule_delete m with Some v => enc_uint32 42 ++ enc_string v | None => [] end ++
  match HttpRule_patch m with Some v => enc_uint32 50 ++ enc_string v | None => [] end ++
  match HttpRule_custom m with Some v => delimited 66 (CustomHttpPattern_image v) | None => []
      end ++
  (if negb (str_eqb (HttpRule_body m) (js "")) then enc_uint32 58 ++ enc_string (HttpRule_body m)
      else []) ++
  (if negb (str_eqb (HttpRule_responseBody m) (js "")) then enc_uint32 98 ++
      enc_string (HttpRule_responseBody m) else []) ++
  concat (map (fun v => delimited 90 (HttpRule_image v)) (HttpRule_additionalBindings m)) ++
  [].

Fixpoint HttpRule_ok (m : HttpRule) : Prop :=
  string_ok (HttpRule_selector m) /\
  opt_all string_ok (HttpRule_get m) /\
  opt_all string_ok (HttpRule_put m) /\
  opt_all string_ok (HttpRule_post m) /\
  opt_all string_ok (HttpRule_delete m) /\
  opt_all string_ok (HttpRule_patch m) /\
  opt_all (fun v => CustomHttpPattern_ok v /\ bytes_ok (CustomHttpPattern_image v))
      (HttpRule_custom m) /\
  string_ok (HttpRule_body m) /\
  string_ok (HttpRule_responseBody m) /\
  all_of (fun v => HttpRule_ok v /\ bytes_ok (HttpRule_image v)) (HttpRule_additionalBindings m).

(** The nesting depth of a message. *)
Fixpoint HttpRule_depth (m : HttpRule) : nat := S (list_max (map HttpRule_depth
    (HttpRule_additionalBindings m))).

Definition HttpRule_ok_to (k : nat) (m : HttpRule) : Prop := HttpRule_ok m /\
    (HttpRule_depth m <= k)%nat.

Lemma HttpRule_ok_nested (k : nat) (m : HttpRule) :
  HttpRule_ok_to (S k) m ->
  Forall (fun v => HttpRule_ok_to k v /\ bytes_ok (HttpRule_image v))
      (HttpRule_additionalBindings m).
Proof.
  intros [Hok Hd]. destruct m as [selector get put post delete patch custom body responseBody
      additionalBindings].
  cbn [HttpRule_depth HttpRule_additionalBindings] in *. apply le_S_n, list_max_elem in Hd.
  destruct Hok as (H_selector & H_get & H_put & H_post & H_delete & H_patch & H_custom & H_body &
      H_responseBody & H_additionalBindings). rewrite all_of_Forall in H_additionalBindings.
  apply Forall_forall. intros x Hx. rewrite Forall_forall in Hd, H_additionalBindings.
  destruct (H_additionalBindings x Hx). split; [split|]; auto.
Qed.

Lemma HttpRule_codec_to (k : nat) :
  codec HttpRule_encode HttpRule_decode HttpRule_norm HttpRule_image (HttpRule_ok_to k).
Proof.
  induction k as [|k IH].
  { split; intros [] *; intros [_ Hd]; cbn in Hd; lia. }
  split.
  - intros m Hm. pose proof (HttpRule_ok_nested k m Hm) as Hn. destruct Hm as [Hok _].
    destruct m as [selector get put post delete patch custom body responseBody additionalBindings].
        destruct Hok as (H_selector & H_get & H_put & H_post & H_delete & H_patch & H_custom &
        H_body & H_responseBody & H_additionalBindings).
    cbn [HttpRule_encode HttpRule_image].
    write ltac:(write_scalar_as string_scalar). write ltac:(write_scalar_as string_scalar).
        write ltac:(write_scalar_as string_scalar). write ltac:(write_scalar_as string_scalar).
        write ltac:(write_scalar_as string_scalar). write ltac:(write_scalar_as string_scalar).
        write ltac:(write_message_as CustomHttpPattern_codec).
        write ltac:(write_scalar_as string_scalar). write ltac:(write_scalar_as string_scalar).
        write ltac:(write_message_as IH).
    apply writes_ret.
  - intros m f r tl Hm Hr Hf. pose proof (HttpRule_ok_nested k m Hm) as Hn. destruct Hm as [Hok _].
    destruct f as [|f]; [lia|]. cbn [HttpRule_decode].
    apply (decode_with_reads _ f); [|done|lia|done].
    destruct m as [selector get put post delete patch custom body responseBody additionalBindings].
        destruct Hok as (H_selector & H_get & H_put & H_post & H_delete & H_patch & H_custom &
        H_body & H_responseBody & H_additionalBindings).
    cbn [HttpRule_image HttpRule_norm].
    settle HttpRule_settle.
    eat_scalar string_scalar 10 HttpRule_with_selector (js ""); settle HttpRule_settle.
    eat_always string_scalar 18 HttpRule_with_get; settle HttpRule_settle.
    eat_always string_scalar 26 HttpRule_with_put; settle HttpRule_settle.
    eat_always string_scalar 34 HttpRule_with_post; settle HttpRule_settle.
    eat_always string_scalar 42 HttpRule_with_delete; settle HttpRule_settle.
    eat_always string_scalar 50 HttpRule_with_patch; settle HttpRule_settle.
    eat_message CustomHttpPattern_codec 66 HttpRule_with_custom; settle HttpRule_settle.
    eat_scalar string_scalar 58 HttpRule_with_body (js ""); settle HttpRule_settle.
    eat_scalar string_scalar 98 HttpRule_with_responseBody (js ""); settle HttpRule_settle.
    eat_messages IH 90 HttpRule_with_additionalBindings; settle HttpRule_settle.
    apply eats_nil.
Qed.

Lemma HttpRule_codec : codec HttpRule_encode HttpRule_decode HttpRule_norm HttpRule_image
    HttpRule_ok.
Proof.
  split; intros m.
  - intros Hm. apply (codec_writes _ _ _ _ _ (HttpRule_codec_to (HttpRule_depth m))). by split.
  - intros f r tl Hm. apply (codec_reads _ _ _ _ _ (HttpRule_codec_to (HttpRule_depth m))).
      by split.
Qed.

Lemma HttpRule_safe : safe_decode HttpRule_decode.
Proof.
  apply (decode_rec_safe _ HttpRule_switch createBaseHttpRule); [done|].
  intros F HF tag m r Hr. unfold HttpRule_switch. solve_safe_switch.
Qed.
#[local] Hint Resolve HttpRule_safe : model.

Ltac Http_settle m :=
  eval cbv beta iota delta
    [createBaseHttp Http_with_rules Http_with_fullyDecodeReservedExpansion Http_rules
      Http_fullyDecodeReservedExpansion] in m.

Definition Http_image (m : Http) : bytes :=
  concat (map (fun v => delimited 10 (HttpRule_image v)) (Http_rules m)) ++
  (if negb (Bool.eqb (Http_fullyDecodeReservedExpansion m) false) then enc_uint32 16 ++
      enc_bool (Http_fullyDecodeReservedExpansion m) else []) ++
  [].

Definition Http_ok (m : Http) : Prop :=
  Forall (fun v => HttpRule_ok v /\ bytes_ok (HttpRule_image v)) (Http_rules m) /\
  (fun _ : bool => True) (Http_fullyDecodeReservedExpansion m).

Lemma Http_eats (F : nat) (m : Http) :
  Http_ok m -> eats (Http_switch F) F (Http_image m) createBaseHttp (Http_norm m).
Proof.
  intros (H_rules & H_fullyDecodeReservedExpansion). unfold Http_image.
  settle Http_settle.
  eat_messages HttpRule_codec 10 Http_with_rules; settle Http_settle.
  eat_scalar bool_scalar 16 Http_with_fullyDecodeReservedExpansion false; settle Http_settle.
  apply eats_nil.
Qed.

Lemma Http_codec : codec Http_encode Http_decode Http_norm Http_image Http_ok.
Proof.
  split.
  - intros m (H_rules & H_fullyDecodeReservedExpansion). unfold Http_encode, Http_image.
    write ltac:(write_message_as HttpRule_codec). write ltac:(write_scalar_as bool_scalar).
    apply writes_ret.
  - intros m f r tl Hm Hr Hf. apply (decode_with_reads _ f); [by apply Http_eats|done|lia|done].
Qed.

Lemma Http_safe : safe_decode Http_decode.
Proof.
  apply (decode_with_safe Http_switch createBaseHttp). intros F tag m r Hr. unfold Http_switch.
  solve_safe_switch.
Qed.
#[local] Hint Resolve Http_safe : model.
End HttpWire.
