(* ===== verification/HttpJson.v ===== *)
(** The JSON form of the HTTP annotation messages: [fromJSON] reads back what [toJSON]
    wrote, given fuel for the nesting of rules. *)

From stdpp Require Import base list numbers strings.
From Stdlib Require Import Strings.Byte ZArith Lia.
From S2P Require Import Prelude JsNumber JsValue Wire Http HttpFacts.
Local Open Scope Z_scope.

Definition CustomHttpPattern_json_ok (_ : CustomHttpPattern) : Prop :=
  True.

Lemma CustomHttpPattern_json (m : CustomHttpPattern) :
  CustomHttpPattern_json_ok m -> CustomHttpPattern_fromJSON (CustomHttpPattern_toJSON m)
      = Ok (CustomHttpPattern_norm m).
Proof.
  intros _. unfold CustomHttpPattern_fromJSON, CustomHttpPattern_toJSON. cbv zeta.
  erewrite (field_string _ _ (Some (CustomHttpPattern_kind m))) by json_get; cbn [res_bind].
  erewrite (field_string _ _ (Some (CustomHttpPattern_path m))) by json_get; cbn [res_bind].
  reflexivity.
Qed.

Fixpoint HttpRule_json_ok (m : HttpRule) : Prop :=
  opt_all CustomHttpPattern_json_ok (HttpRule_custom m) /\
  all_of HttpRule_json_ok (HttpRule_additionalBindings m).

Lemma HttpRule_json (fuel : nat) (m : HttpRule) :
  HttpRule_json_ok m -> (HttpRule_depth m <= fuel)%nat ->
  HttpRule_fromJSON fuel (HttpRule_toJSON m) = Ok (HttpRule_norm m).
Proof.
  revert m. induction fuel as [|fuel IH]; intros [selector get put post delete patch custom body
      responseBody additionalBindings] Hok Hd.
  { cbn in Hd. lia. }
  destruct Hok as (H_custom & H_additionalBindings).
  cbn [HttpRule_depth HttpRule_additionalBindings] in *. apply le_S_n, list_max_elem in Hd.
  rewrite all_of_Forall in H_additionalBindings.
  assert (Forall (fun v => HttpRule_json_ok v /\ (HttpRule_depth v <= fuel)%nat)
      additionalBindings) as H_nested
    by (rewrite Forall_forall in *; auto).
  cbn [HttpRule_fromJSON HttpRule_toJSON HttpRule_norm].
  erewrite (field_string _ _ (Some selector)) by json_get; cbn [res_bind].
  erewrite (opt_field_string _ _ get) by json_get; cbn [res_bind].
  erewrite (opt_field_string _ _ put) by json_get; cbn [res_bind].
  erewrite (opt_field_string _ _ post) by json_get; cbn [res_bind].
  erewrite (opt_field_string _ _ delete) by json_get; cbn [res_bind].
  erewrite (opt_field_string _ _ patch) by json_get; cbn [res_bind].
  erewrite (opt_field_message _ _ CustomHttpPattern_toJSON _ CustomHttpPattern_norm
      CustomHttpPattern_json_ok custom); [cbn [res_bind]|intros; split;
      [reflexivity|by apply CustomHttpPattern_json]|assumption|json_get].
  erewrite (field_string _ _ (Some body)) by json_get; cbn [res_bind].
  erewrite (field_string _ _ (Some responseBody)) by json_get; cbn [res_bind].
  erewrite (array_field_map _ _ HttpRule_toJSON _ HttpRule_norm (fun v => HttpRule_json_ok v /\
      (HttpRule_depth v <= fuel)%nat) additionalBindings); [cbn [res_bind]|by intros ? [];
      apply IH|assumption|json_get].
  reflexivity.
Qed.

Definition Http_json_ok (fuel : nat) (m : Http) : Prop :=
  Forall (fun v => HttpRule_json_ok v /\ (HttpRule_depth v <= fuel)%nat) (Http_rules m).

Lemma Http_json (fuel : nat) (m : Http) :
  Http_json_ok fuel m -> Http_fromJSON fuel (Http_toJSON m) = Ok (Http_norm m).
Proof.
  intros H_rules. unfold Http_fromJSON, Http_toJSON. cbv zeta.
  erewrite (array_field_map _ _ HttpRule_toJSON _ HttpRule_norm (fun v => HttpRule_json_ok v /\
      (HttpRule_depth v <= fuel)%nat) (Http_rules m)); [cbn [res_bind]|by intros ? [];
      apply HttpRule_json|assumption|json_get].
  erewrite (field_bool _ _ false (Some (Http_fullyDecodeReservedExpansion m))) by json_get;
      cbn [res_bind].
  reflexivity.
Qed.
