(* ===== verification/HttpTheorems.v ===== *)
(** Theorems about [gen/ts/google/api/http.ts], whose [HttpRule] embeds a list of itself:
    binary and JSON round trips at any nesting, and termination of decoding and of [fromJSON]
    on arbitrary input. *)

From stdpp Require Import base list numbers strings.
From Stdlib Require Import Strings.Byte ZArith Lia.
From S2P Require Import Prelude JsNumber JsValue Wire WireFacts DescriptorBase WireInstance.
From S2P Require Import Http HttpFacts HttpJson.
Local Open Scope Z_scope.

Lemma CustomHttpPattern_normal (m : CustomHttpPattern) : CustomHttpPattern_norm m = m.
Proof. by destruct m. Qed.

Lemma HttpRule_normal (m : HttpRule) : HttpRule_norm m = m.
Proof.
  revert m. apply HttpRule_nested_ind.
  intros [selector get put post delete patch custom body responseBody bindings] IH.
  cbn [HttpRule_norm HttpRule_additionalBindings HttpRule_custom] in *. cbn.
  rewrite (option_map_fixed _ custom CustomHttpPattern_normal).
  assert (map HttpRule_norm bindings = bindings) as ->; [|done].
  rewrite <- (map_id bindings) at 2. by apply map_ext_Forall.
Qed.

Lemma Http_normal (m : Http) : Http_norm m = m.
Proof. destruct m. unfold Http_norm. cbn. by rewrite (map_fixed _ _ HttpRule_normal). Qed.

Section Theorems.
Context {RT : WireRuntime} {L : WireLaws RT}.

Lemma HttpRule_whole : decodes_whole HttpRule_decode.
Proof.
  intros [|f] b; [done|]. cbn [HttpRule_decode].
  apply (decode_with_whole (fun f => HttpRule_switch HttpRule_decode (pred f)) _ (S f)).
Qed.

Lemma Http_whole : decodes_whole Http_decode.
Proof. apply (decode_with_whole Http_switch). Qed.

(** C36: [decode(encode(m).finish())] is [m] for HTTP rules with additional bindings nested to
    any depth and for the [Http] message that lists rules, when the format can carry them:
    strings are well-formed and do not start with a byte order mark, and embedded messages are
    shorter than 2^32 bytes. *)
Theorem http_wire_roundtrip :
  (forall m, HttpRule_ok m ->
     (let* b := encoded HttpRule_encode m in decoded HttpRule_decode b) = Ok m) /\
  (forall m, Http_ok m -> (let* b := encoded Http_encode m in decoded Http_decode b) = Ok m).
Proof.
  split; intros m Hm.
  - by rewrite (codec_roundtrip HttpRule_codec m HttpRule_whole Hm), HttpRule_normal.
  - by rewrite (codec_roundtrip Http_codec m Http_whole Hm), Http_normal.
Qed.

(** Decoding any byte sequence as an HTTP rule or as an [Http] message finishes, however
    the bytes nest: it returns a message or throws. *)
Theorem http_decode_terminates (b : bytes) :
  decoded HttpRule_decode b <> OutOfFuel /\ decoded Http_decode b <> OutOfFuel.
Proof.
  split; apply decoded_total; auto using HttpRule_whole, Http_whole, HttpRule_safe, Http_safe.
Qed.
End Theorems.

(** * JSON *)

Lemma CustomHttpPattern_halts (n : nat) : halts_below n CustomHttpPattern_fromJSON.
Proof.
  intros v _. pose proof (Nat.le_refl (value_depth v)). unfold CustomHttpPattern_fromJSON. solve_halts.
Qed.
#[local] Hint Resolve CustomHttpPattern_halts : halting.

Lemma HttpRule_halts (fuel : nat) : halts_below fuel (HttpRule_fromJSON fuel).
Proof.
  induction fuel as [|fuel IH]; intros v Hv; [lia|]. apply le_S_n in Hv.
  cbn [HttpRule_fromJSON]. solve_halts.
Qed.
#[local] Hint Resolve HttpRule_halts : halting.

Lemma Http_halts (fuel : nat) (v : value) :
  (value_depth v <= fuel)%nat -> halts (Http_fromJSON fuel v).
Proof. intros Hv. unfold Http_fromJSON. solve_halts. Qed.

(** [fromJSON(toJSON(m))] is [m] for every HTTP rule and every [Http] message, at any
    nesting: fuel for the depth of the message is enough. *)
Theorem http_json_roundtrip :
  (forall m fuel, (HttpRule_depth m <= fuel)%nat -> HttpRule_fromJSON fuel (HttpRule_toJSON m) = Ok m) /\
  (forall m fuel, Forall (fun rule => (HttpRule_depth rule <= fuel)%nat) (Http_rules m) ->
     Http_fromJSON fuel (Http_toJSON m) = Ok m).
Proof.
  assert (forall m, HttpRule_json_ok m) as Hok.
  { apply HttpRule_nested_ind. intros [????????? bindings] IH. cbn in *. split.
    - by destruct HttpRule_custom.
    - by apply all_of_Forall. }
  split; intros m fuel Hd.
  - by rewrite HttpRule_json, HttpRule_normal.
  - rewrite Http_json, Http_normal; [done|]. unfold Http_json_ok. by eapply Forall_impl.
Qed.

(** Reading an HTTP rule from an arbitrary JSON value finishes: more fuel than the value
    nests is enough. *)
Theorem http_json_terminates (v : value) (fuel : nat) :
  (value_depth v < fuel)%nat ->
  HttpRule_fromJSON fuel v <> OutOfFuel /\ Http_fromJSON fuel v <> OutOfFuel.
Proof.
  intros Hv. split.
  - by eapply total_not_fuel, HttpRule_halts.
  - eapply total_not_fuel, Http_halts. lia.
Qed.

(** Reading an HTTP rule or an [Http] message finishes.  Decoding any byte sequence, however it
    nests, returns a message or throws; so does reading an arbitrary JSON value, for which
    more fuel than the value nests is enough. *)
Theorem http_reading_terminates {RT : WireRuntime} {L : WireLaws RT} (b : bytes) (v : value) (fuel : nat) :
  (decoded HttpRule_decode b <> OutOfFuel /\ decoded Http_decode b <> OutOfFuel) /\
  ((value_depth v < fuel)%nat -> HttpRule_fromJSON fuel v <> OutOfFuel /\ Http_fromJSON fuel v <> OutOfFuel).
Proof. split; [apply http_decode_terminates|apply http_json_terminates]. Qed.

(** * Witnesses *)

Definition demo_binding : HttpRule :=
  mkHttpRule (js "") (Some (js "/v2/proof")) None None None None
    (Some (mkCustomHttpPattern (js "HEAD") (js "/v2"))) (js "") (js "") [].
Definition demo_rule : HttpRule :=
  mkHttpRule (js "Query.Proof") (Some (js "/v1/proof/{leaf}")) None (Some (js "")) None None None
    (js "*") (js "proof") [demo_binding; demo_binding].

Lemma http_wire_roundtrip_witness :
  (let* b := encoded HttpRule_encode demo_rule in decoded HttpRule_decode b) = Ok demo_rule.
Proof. apply http_wire_roundtrip. concrete_ok. Defined.

Lemma http_json_roundtrip_witness : HttpRule_fromJSON 2 (HttpRule_toJSON demo_rule) = Ok demo_rule.
Proof. apply http_json_roundtrip. vm_compute. reflexivity. Defined.

Lemma http_reading_terminates_witness :
  decoded HttpRule_decode [x5a; x02; x5a; x00; x0a] <> OutOfFuel /\
  HttpRule_fromJSON 3 (VObject [(js "additionalBindings", VArray [VNull])]) <> OutOfFuel.
Proof.
  destruct (http_reading_terminates [x5a; x02; x5a; x00; x0a] (VObject [(js "additionalBindings", VArray [VNull])]) 3)
    as [[Hd _] Hj].
  split; [exact Hd|]. destruct Hj as [Hj _]; [vm_compute; lia|exact Hj].
Defined.
