(* ===== verification/DescriptorEnums.v ===== *)
(** The enums of [gen/ts/google/protobuf/descriptor.ts].  An enum field holds an integer,
    because [decode] keeps values it does not know; [E_num] gives each constructor's number,
    [E_known] says that a number is one of them.  The [FromJSON] functions accept a number or a
    name and map everything else to [UNRECOGNIZED]. *)

From stdpp Require Import base list numbers strings.
From Stdlib Require Import Strings.Byte ZArith Lia.
From S2P Require Import Prelude JsNumber JsValue.
Local Open Scope Z_scope.

(** ** [Edition] *)

Inductive Edition : Type :=
| Edition_EDITION_UNKNOWN
| Edition_EDITION_LEGACY
| Edition_EDITION_PROTO2
| Edition_EDITION_PROTO3
| Edition_EDITION_2023
| Edition_EDITION_2024
| Edition_EDITION_1_TEST_ONLY
| Edition_EDITION_2_TEST_ONLY
| Edition_EDITION_99997_TEST_ONLY
| Edition_EDITION_99998_TEST_ONLY
| Edition_EDITION_99999_TEST_ONLY
| Edition_EDITION_MAX
| Edition_UNRECOGNIZED.

Definition Edition_num (e : Edition) : Z :=
  match e with
  | Edition_EDITION_UNKNOWN => 0
  | Edition_EDITION_LEGACY => 900
  | Edition_EDITION_PROTO2 => 998
  | Edition_EDITION_PROTO3 => 999
  | Edition_EDITION_2023 => 1000
  | Edition_EDITION_2024 => 1001
  | Edition_EDITION_1_TEST_ONLY => 1
  | Edition_EDITION_2_TEST_ONLY => 2
  | Edition_EDITION_99997_TEST_ONLY => 99997
  | Edition_EDITION_99998_TEST_ONLY => 99998
  | Edition_EDITION_99999_TEST_ONLY => 99999
  | Edition_EDITION_MAX => 2147483647
  | Edition_UNRECOGNIZED => -1
  end.

Definition editionFromJSON (object : value) : Edition :=
  if is_num object 0 || is_str object "EDITION_UNKNOWN" then Edition_EDITION_UNKNOWN
  else if is_num object 900 || is_str object "EDITION_LEGACY" then Edition_EDITION_LEGACY
  else if is_num object 998 || is_str object "EDITION_PROTO2" then Edition_EDITION_PROTO2
  else if is_num object 999 || is_str object "EDITION_PROTO3" then Edition_EDITION_PROTO3
  else if is_num object 1000 || is_str object "EDITION_2023" then Edition_EDITION_2023
  else if is_num object 1001 || is_str object "EDITION_2024" then Edition_EDITION_2024
  else if is_num object 1 || is_str object "EDITION_1_TEST_ONLY" then Edition_EDITION_1_TEST_ONLY
  else if is_num object 2 || is_str object "EDITION_2_TEST_ONLY" then Edition_EDITION_2_TEST_ONLY
  else if is_num object 99997 || is_str object "EDITION_99997_TEST_ONLY" then
      Edition_EDITION_99997_TEST_ONLY
  else if is_num object 99998 || is_str object "EDITION_99998_TEST_ONLY" then
      Edition_EDITION_99998_TEST_ONLY
  else if is_num object 99999 || is_str object "EDITION_99999_TEST_ONLY" then
      Edition_EDITION_99999_TEST_ONLY
  else if is_num object 2147483647 || is_str object "EDITION_MAX" then Edition_EDITION_MAX
  else Edition_UNRECOGNIZED.

Definition editionToJSON (object : Z) : jsstring :=
  if object =? Edition_num Edition_EDITION_UNKNOWN then js "EDITION_UNKNOWN"
  else if object =? Edition_num Edition_EDITION_LEGACY then js "EDITION_LEGACY"
  else if object =? Edition_num Edition_EDITION_PROTO2 then js "EDITION_PROTO2"
  else if object =? Edition_num Edition_EDITION_PROTO3 then js "EDITION_PROTO3"
  else if object =? Edition_num Edition_EDITION_2023 then js "EDITION_2023"
  else if object =? Edition_num Edition_EDITION_2024 then js "EDITION_2024"
  else if object =? Edition_num Edition_EDITION_1_TEST_ONLY then js "EDITION_1_TEST_ONLY"
  else if object =? Edition_num Edition_EDITION_2_TEST_ONLY then js "EDITION_2_TEST_ONLY"
  else if object =? Edition_num Edition_EDITION_99997_TEST_ONLY then js "EDITION_99997_TEST_ONLY"
  else if object =? Edition_num Edition_EDITION_99998_TEST_ONLY then js "EDITION_99998_TEST_ONLY"
  else if object =? Edition_num Edition_EDITION_99999_TEST_ONLY then js "EDITION_99999_TEST_ONLY"
  else if object =? Edition_num Edition_EDITION_MAX then js "EDITION_MAX"
  else js "UNRECOGNIZED".

Definition Edition_known (z : Z) : Prop := exists e, z = Edition_num e.

Lemma Edition_json (e : Edition) : editionFromJSON (VString (editionToJSON (Edition_num e))) = e.
Proof. by destruct e. Qed.

Lemma Edition_known_json (z : Z) :
  Edition_known z -> Edition_num (editionFromJSON (VString (editionToJSON z))) = z.
Proof. intros [e ->]. by rewrite Edition_json. Qed.

(** ** [SymbolVisibility] *)

Inductive SymbolVisibility : Type :=
| SymbolVisibility_VISIBILITY_UNSET
| SymbolVisibility_VISIBILITY_LOCAL
| SymbolVisibility_VISIBILITY_EXPORT
| SymbolVisibility_UNRECOGNIZED.

Definition SymbolVisibility_num (e : SymbolVisibility) : Z :=
  match e with
  | SymbolVisibility_VISIBILITY_UNSET => 0
  | SymbolVisibility_VISIBILITY_LOCAL => 1
  | SymbolVisibility_VISIBILITY_EXPORT => 2
  | SymbolVisibility_UNRECOGNIZED => -1
  end.

Definition symbolVisibilityFromJSON (object : value) : SymbolVisibility :=
  if is_num object 0 || is_str object "VISIBILITY_UNSET" then SymbolVisibility_VISIBILITY_UNSET
  else if is_num object 1 || is_str object "VISIBILITY_LOCAL" then SymbolVisibility_VISIBILITY_LOCAL
  else if is_num object 2 || is_str object "VISIBILITY_EXPORT" then
      SymbolVisibility_VISIBILITY_EXPORT
  else SymbolVisibility_UNRECOGNIZED.

Definition symbolVisibilityToJSON (object : Z) : jsstring :=
  if object =? SymbolVisibility_num SymbolVisibility_VISIBILITY_UNSET then js "VISIBILITY_UNSET"
  else if object =? SymbolVisibility_num SymbolVisibility_VISIBILITY_LOCAL then js
      "VISIBILITY_LOCAL"
  else if object =? SymbolVisibility_num SymbolVisibility_VISIBILITY_EXPORT then js
      "VISIBILITY_EXPORT"
  else js "UNRECOGNIZED".

Definition SymbolVisibility_known (z : Z) : Prop := exists e, z = SymbolVisibility_num e.

Lemma SymbolVisibility_json (e : SymbolVisibility) : symbolVisibilityFromJSON (VString
    (symbolVisibilityToJSON (SymbolVisibility_num e))) = e.
Proof. by destruct e. Qed.

Lemma SymbolVisibility_known_json (z : Z) :
  SymbolVisibility_known z -> SymbolVisibility_num (symbolVisibilityFromJSON (VString
      (symbolVisibilityToJSON z))) = z.
Proof. intros [e ->]. by rewrite SymbolVisibility_json. Qed.

(** ** [ExtensionRangeOptions_VerificationState] *)

Inductive ExtensionRangeOptions_VerificationState : Type :=
| ExtensionRangeOptions_VerificationState_DECLARATION
| ExtensionRangeOptions_VerificationState_UNVERIFIED
| ExtensionRangeOptions_VerificationState_UNRECOGNIZED.

Definition ExtensionRangeOptions_VerificationState_num (e :
    ExtensionRangeOptions_VerificationState) : Z :=
  match e with
  | ExtensionRangeOptions_VerificationState_DECLARATION => 0
  | ExtensionRangeOptions_VerificationState_UNVERIFIED => 1
  | ExtensionRangeOptions_VerificationState_UNRECOGNIZED => -1
  end.

Definition extensionRangeOptions_VerificationStateFromJSON (object : value)
    : ExtensionRangeOptions_VerificationState :=
  if is_num object 0 || is_str object "DECLARATION" then
      ExtensionRangeOptions_VerificationState_DECLARATION
  else if is_num object 1 || is_str object "UNVERIFIED" then
      ExtensionRangeOptions_VerificationState_UNVERIFIED
  else ExtensionRangeOptions_VerificationState_UNRECOGNIZED.

Definition extensionRangeOptions_VerificationStateToJSON (object : Z) : jsstring :=
  if object =? ExtensionRangeOptions_VerificationState_num
      ExtensionRangeOptions_VerificationState_DECLARATION then js "DECLARATION"
  else if object =? ExtensionRangeOptions_VerificationState_num
      ExtensionRangeOptions_VerificationState_UNVERIFIED then js "UNVERIFIED"
  else js "UNRECOGNIZED".

Definition ExtensionRangeOptions_VerificationState_known (z : Z)
    : Prop := exists e, z = ExtensionRangeOptions_VerificationState_num e.

Lemma ExtensionRangeOptions_VerificationState_json (e : ExtensionRangeOptions_VerificationState)
    : extensionRangeOptions_VerificationStateFromJSON (VString
    (extensionRangeOptions_VerificationStateToJSON (ExtensionRangeOptions_VerificationState_num
    e))) = e.
Proof. by destruct e. Qed.

Lemma ExtensionRangeOptions_VerificationState_known_json (z : Z) :
  ExtensionRangeOptions_VerificationState_known z -> ExtensionRangeOptions_VerificationState_num
      (extensionRangeOptions_VerificationStateFromJSON (VString
      (extensionRangeOptions_VerificationStateToJSON z))) = z.
Proof. intros [e ->]. by rewrite ExtensionRangeOptions_VerificationState_json. Qed.

(** ** [FieldDescriptorProto_Type] *)

Inductive FieldDescriptorProto_Type : Type :=
| FieldDescriptorProto_Type_TYPE_DOUBLE
| FieldDescriptorProto_Type_TYPE_FLOAT
| FieldDescriptorProto_Type_TYPE_INT64
| FieldDescriptorProto_Type_TYPE_UINT64
| FieldDescriptorProto_Type_TYPE_INT32
| FieldDescriptorProto_Type_TYPE_FIXED64
| FieldDescriptorProto_Type_TYPE_FIXED32
| FieldDescriptorProto_Type_TYPE_BOOL
| FieldDescriptorProto_Type_TYPE_STRING
| FieldDescriptorProto_Type_TYPE_GROUP
| FieldDescriptorProto_Type_TYPE_MESSAGE
| FieldDescriptorProto_Type_TYPE_BYTES
| FieldDescriptorProto_Type_TYPE_UINT32
| FieldDescriptorProto_Type_TYPE_ENUM
| FieldDescriptorProto_Type_TYPE_SFIXED32
| FieldDescriptorProto_Type_TYPE_SFIXED64
| FieldDescriptorProto_Type_TYPE_SINT32
| FieldDescriptorProto_Type_TYPE_SINT64
| FieldDescriptorProto_Type_UNRECOGNIZED.

Definition FieldDescriptorProto_Type_num (e : FieldDescriptorProto_Type) : Z :=
  match e with
  | FieldDescriptorProto_Type_TYPE_DOUBLE => 1
  | FieldDescriptorProto_Type_TYPE_FLOAT => 2
  | FieldDescriptorProto_Type_TYPE_INT64 => 3
  | FieldDescriptorProto_Type_TYPE_UINT64 => 4
  | FieldDescriptorProto_Type_TYPE_INT32 => 5
  | FieldDescriptorProto_Type_TYPE_FIXED64 => 6
  | FieldDescriptorProto_Type_TYPE_FIXED32 => 7
  | FieldDescriptorProto_Type_TYPE_BOOL => 8
  | FieldDescriptorProto_Type_TYPE_STRING => 9
  | FieldDescriptorProto_Type_TYPE_GROUP => 10
  | FieldDescriptorProto_Type_TYPE_MESSAGE => 11
  | FieldDescriptorProto_Type_TYPE_BYTES => 12
  | FieldDescriptorProto_Type_TYPE_UINT32 => 13
  | FieldDescriptorProto_Type_TYPE_ENUM => 14
  | FieldDescriptorProto_Type_TYPE_SFIXED32 => 15
  | FieldDescriptorProto_Type_TYPE_SFIXED64 => 16
  | FieldDescriptorProto_Type_TYPE_SINT32 => 17
  | FieldDescriptorProto_Type_TYPE_SINT64 => 18
  | FieldDescriptorProto_Type_UNRECOGNIZED => -1
  end.

Definition fieldDescriptorProto_TypeFromJSON (object : value) : FieldDescriptorProto_Type :=
  if is_num object 1 || is_str object "TYPE_DOUBLE" then FieldDescriptorProto_Type_TYPE_DOUBLE
  else if is_num object 2 || is_str object "TYPE_FLOAT" then FieldDescriptorProto_Type_TYPE_FLOAT
  else if is_num object 3 || is_str object "TYPE_INT64" then FieldDescriptorProto_Type_TYPE_INT64
  else if is_num object 4 || is_str object "TYPE_UINT64" then FieldDescriptorProto_Type_TYPE_UINT64
  else if is_num object 5 || is_str object "TYPE_INT32" then FieldDescriptorProto_Type_TYPE_INT32
  else if is_num object 6 || is_str object "TYPE_FIXED64" then
      FieldDescriptorProto_Type_TYPE_FIXED64
  else if is_num object 7 || is_str object "TYPE_FIXED32" then
      FieldDescriptorProto_Type_TYPE_FIXED32
  else if is_num object 8 || is_str object "TYPE_BOOL" then FieldDescriptorProto_Type_TYPE_BOOL
  else if is_num object 9 || is_str object "TYPE_STRING" then FieldDescriptorProto_Type_TYPE_STRING
  else if is_num object 10 || is_str object "TYPE_GROUP" then FieldDescriptorProto_Type_TYPE_GROUP
  else if is_num object 11 || is_str object "TYPE_MESSAGE" then
      FieldDescriptorProto_Type_TYPE_MESSAGE
  else if is_num object 12 || is_str object "TYPE_BYTES" then FieldDescriptorProto_Type_TYPE_BYTES
  else if is_num object 13 || is_str object "TYPE_UINT32" then FieldDescriptorProto_Type_TYPE_UINT32
  else if is_num object 14 || is_str object "TYPE_ENUM" then FieldDescriptorProto_Type_TYPE_ENUM
  else if is_num object 15 || is_str object "TYPE_SFIXED32" then
      FieldDescriptorProto_Type_TYPE_SFIXED32
  else if is_num object 16 || is_str object "TYPE_SFIXED64" then
      FieldDescriptorProto_Type_TYPE_SFIXED64
  else if is_num object 17 || is_str object "TYPE_SINT32" then FieldDescriptorProto_Type_TYPE_SINT32
  else if is_num object 18 || is_str object "TYPE_SINT64" then FieldDescriptorProto_Type_TYPE_SINT64
  else FieldDescriptorProto_Type_UNRECOGNIZED.

Definition fieldDescriptorProto_TypeToJSON (object : Z) : jsstring :=
  if object =? FieldDescriptorProto_Type_num FieldDescriptorProto_Type_TYPE_DOUBLE then js
      "TYPE_DOUBLE"
  else if object =? FieldDescriptorProto_Type_num FieldDescriptorProto_Type_TYPE_FLOAT then js
      "TYPE_FLOAT"
  else if object =? FieldDescriptorProto_Type_num FieldDescriptorProto_Type_TYPE_INT64 then js
      "TYPE_INT64"
  else if object =? FieldDescriptorProto_Type_num FieldDescriptorProto_Type_TYPE_UINT64 then js
      "TYPE_UINT64"
  else if object =? FieldDescriptorProto_Type_num FieldDescriptorProto_Type_TYPE_INT32 then js
      "TYPE_INT32"
  else if object =? FieldDescriptorProto_Type_num FieldDescriptorProto_Type_TYPE_FIXED64 then js
      "TYPE_FIXED64"
  else if object =? FieldDescriptorProto_Type_num FieldDescriptorProto_Type_TYPE_FIXED32 then js
      "TYPE_FIXED32"
  else if object =? FieldDescriptorProto_Type_num FieldDescriptorProto_Type_TYPE_BOOL then js
      "TYPE_BOOL"
  else if object =? FieldDescriptorProto_Type_num FieldDescriptorProto_Type_TYPE_STRING then js
      "TYPE_STRING"
  else if object =? FieldDescriptorProto_Type_num FieldDescriptorProto_Type_TYPE_GROUP then js
      "TYPE_GROUP"
  else if object =? FieldDescriptorProto_Type_num FieldDescriptorProto_Type_TYPE_MESSAGE then js
      "TYPE_MESSAGE"
  else if object =? FieldDescriptorProto_Type_num FieldDescriptorProto_Type_TYPE_BYTES then js
      "TYPE_BYTES"
  else if object =? FieldDescriptorProto_Type_num FieldDescriptorProto_Type_TYPE_UINT32 then js
      "TYPE_UINT32"
  else if object =? FieldDescriptorProto_Type_num FieldDescriptorProto_Type_TYPE_ENUM then js
      "TYPE_ENUM"
  else if object =? FieldDescriptorProto_Type_num FieldDescriptorProto_Type_TYPE_SFIXED32 then js
      "TYPE_SFIXED32"
  else if object =? FieldDescriptorProto_Type_num FieldDescriptorProto_Type_TYPE_SFIXED64 then js
      "TYPE_SFIXED64"
  else if object =? FieldDescriptorProto_Type_num FieldDescriptorProto_Type_TYPE_SINT32 then js
      "TYPE_SINT32"
  else if object =? FieldDescriptorProto_Type_num FieldDescriptorProto_Type_TYPE_SINT64 then js
      "TYPE_SINT64"
  else js "UNRECOGNIZED".

Definition FieldDescriptorProto_Type_known (z : Z) : Prop := exists e, z =
    FieldDescriptorProto_Type_num e.

Lemma FieldDescriptorProto_Type_json (e : FieldDescriptorProto_Type)
    : fieldDescriptorProto_TypeFromJSON (VString (fieldDescriptorProto_TypeToJSON
    (FieldDescriptorProto_Type_num e))) = e.
Proof. by destruct e. Qed.

Lemma FieldDescriptorProto_Type_known_json (z : Z) :
  FieldDescriptorProto_Type_known z -> FieldDescriptorProto_Type_num
      (fieldDescriptorProto_TypeFromJSON (VString (fieldDescriptorProto_TypeToJSON z))) = z.
Proof. intros [e ->]. by rewrite FieldDescriptorProto_Type_json. Qed.

(** ** [FieldDescriptorProto_Label] *)

Inductive FieldDescriptorProto_Label : Type :=
| FieldDescriptorProto_Label_LABEL_OPTIONAL
| FieldDescriptorProto_Label_LABEL_REPEATED
| FieldDescriptorProto_Label_LABEL_REQUIRED
| FieldDescriptorProto_Label_UNRECOGNIZED.

Definition FieldDescriptorProto_Label_num (e : FieldDescriptorProto_Label) : Z :=
  match e with
  | FieldDescriptorProto_Label_LABEL_OPTIONAL => 1
  | FieldDescriptorProto_Label_LABEL_REPEATED => 3
  | FieldDescriptorProto_Label_LABEL_REQUIRED => 2
  | FieldDescriptorProto_Label_UNRECOGNIZED => -1
  end.

Definition fieldDescriptorProto_LabelFromJSON (object : value) : FieldDescriptorProto_Label :=
  if is_num object 1 || is_str object "LABEL_OPTIONAL" then
      FieldDescriptorProto_Label_LABEL_OPTIONAL
  else if is_num object 3 || is_str object "LABEL_REPEATED" then
      FieldDescriptorProto_Label_LABEL_REPEATED
  else if is_num object 2 || is_str object "LABEL_REQUIRED" then
      FieldDescriptorProto_Label_LABEL_REQUIRED
  else FieldDescriptorProto_Label_UNRECOGNIZED.

Definition fieldDescriptorProto_LabelToJSON (object : Z) : jsstring :=
  if object =? FieldDescriptorProto_Label_num FieldDescriptorProto_Label_LABEL_OPTIONAL then js
      "LABEL_OPTIONAL"
  else if object =? FieldDescriptorProto_Label_num FieldDescriptorProto_Label_LABEL_REPEATED then
      js "LABEL_REPEATED"
  else if object =? FieldDescriptorProto_Label_num FieldDescriptorProto_Label_LABEL_REQUIRED then
      js "LABEL_REQUIRED"
  else js "UNRECOGNIZED".

Definition FieldDescriptorProto_Label_known (z : Z) : Prop := exists e, z =
    FieldDescriptorProto_Label_num e.

Lemma FieldDescriptorProto_Label_json (e : FieldDescriptorProto_Label)
    : fieldDescriptorProto_LabelFromJSON (VString (fieldDescriptorProto_LabelToJSON
    (FieldDescriptorProto_Label_num e))) = e.
Proof. by destruct e. Qed.

Lemma FieldDescriptorProto_Label_known_json (z : Z) :
  FieldDescriptorProto_Label_known z -> FieldDescriptorProto_Label_num
      (fieldDescriptorProto_LabelFromJSON (VString (fieldDescriptorProto_LabelToJSON z))) = z.
Proof. intros [e ->]. by rewrite FieldDescriptorProto_Label_json. Qed.

(** ** [FileOptions_OptimizeMode] *)

Inductive FileOptions_OptimizeMode : Type :=
| FileOptions_OptimizeMode_SPEED
| FileOptions_OptimizeMode_CODE_SIZE
| FileOptions_OptimizeMode_LITE_RUNTIME
| FileOptions_OptimizeMode_UNRECOGNIZED.

Definition FileOptions_OptimizeMode_num (e : FileOptions_OptimizeMode) : Z :=
  match e with
  | FileOptions_OptimizeMode_SPEED => 1
  | FileOptions_OptimizeMode_CODE_SIZE => 2
  | FileOptions_OptimizeMode_LITE_RUNTIME => 3
  | FileOptions_OptimizeMode_UNRECOGNIZED => -1
  end.

Definition fileOptions_OptimizeModeFromJSON (object : value) : FileOptions_OptimizeMode :=
  if is_num object 1 || is_str object "SPEED" then FileOptions_OptimizeMode_SPEED
  else if is_num object 2 || is_str object "CODE_SIZE" then FileOptions_OptimizeMode_CODE_SIZE
  else if is_num object 3 || is_str object "LITE_RUNTIME" then FileOptions_OptimizeMode_LITE_RUNTIME
  else FileOptions_OptimizeMode_UNRECOGNIZED.

Definition fileOptions_OptimizeModeToJSON (object : Z) : jsstring :=
  if object =? FileOptions_OptimizeMode_num FileOptions_OptimizeMode_SPEED then js "SPEED"
  else if object =? FileOptions_OptimizeMode_num FileOptions_OptimizeMode_CODE_SIZE then js
      "CODE_SIZE"
  else if object =? FileOptions_OptimizeMode_num FileOptions_OptimizeMode_LITE_RUNTIME then js
      "LITE_RUNTIME"
  else js "UNRECOGNIZED".

Definition FileOptions_OptimizeMode_known (z : Z) : Prop := exists e, z =
    FileOptions_OptimizeMode_num e.

Lemma FileOptions_OptimizeMode_json (e : FileOptions_OptimizeMode)
    : fileOptions_OptimizeModeFromJSON (VString (fileOptions_OptimizeModeToJSON
    (FileOptions_OptimizeMode_num e))) = e.
Proof. by destruct e. Qed.

Lemma FileOptions_OptimizeMode_known_json (z : Z) :
  FileOptions_OptimizeMode_known z -> FileOptions_OptimizeMode_num
      (fileOptions_OptimizeModeFromJSON (VString (fileOptions_OptimizeModeToJSON z))) = z.
Proof. intros [e ->]. by rewrite FileOptions_OptimizeMode_json. Qed.

(** ** [FieldOptions_CType] *)

Inductive FieldOptions_CType : Type :=
| FieldOptions_CType_STRING
| FieldOptions_CType_CORD
| FieldOptions_CType_STRING_PIECE
| FieldOptions_CType_UNRECOGNIZED.

Definition FieldOptions_CType_num (e : FieldOptions_CType) : Z :=
  match e with
  | FieldOptions_CType_STRING => 0
  | FieldOptions_CType_CORD => 1
  | FieldOptions_CType_STRING_PIECE => 2
  | FieldOptions_CType_UNRECOGNIZED => -1
  end.

Definition fieldOptions_CTypeFromJSON (object : value) : FieldOptions_CType :=
  if is_num object 0 || is_str object "STRING" then FieldOptions_CType_STRING
  else if is_num object 1 || is_str object "CORD" then FieldOptions_CType_CORD
  else if is_num object 2 || is_str object "STRING_PIECE" then FieldOptions_CType_STRING_PIECE
  else FieldOptions_CType_UNRECOGNIZED.

Definition fieldOptions_CTypeToJSON (object : Z) : jsstring :=
  if object =? FieldOptions_CType_num FieldOptions_CType_STRING then js "STRING"
  else if object =? FieldOptions_CType_num FieldOptions_CType_CORD then js "CORD"
  else if object =? FieldOptions_CType_num FieldOptions_CType_STRING_PIECE then js "STRING_PIECE"
  else js "UNRECOGNIZED".

Definition FieldOptions_CType_known (z : Z) : Prop := exists e, z = FieldOptions_CType_num e.

Lemma FieldOptions_CType_json (e : FieldOptions_CType) : fieldOptions_CTypeFromJSON (VString
    (fieldOptions_CTypeToJSON (FieldOptions_CType_num e))) = e.
Proof. by destruct e. Qed.

Lemma FieldOptions_CType_known_json (z : Z) :
  FieldOptions_CType_known z -> FieldOptions_CType_num (fieldOptions_CTypeFromJSON (VString
      (fieldOptions_CTypeToJSON z))) = z.
Proof. intros [e ->]. by rewrite FieldOptions_CType_json. Qed.

(** ** [FieldOptions_JSType] *)

Inductive FieldOptions_JSType : Type :=
| FieldOptions_JSType_JS_NORMAL
| FieldOptions_JSType_JS_STRING
| FieldOptions_JSType_JS_NUMBER
| FieldOptions_JSType_UNRECOGNIZED.

Definition FieldOptions_JSType_num (e : FieldOptions_JSType) : Z :=
  match e with
  | FieldOptions_JSType_JS_NORMAL => 0
  | FieldOptions_JSType_JS_STRING => 1
  | FieldOptions_JSType_JS_NUMBER => 2
  | FieldOptions_JSType_UNRECOGNIZED => -1
  end.

Definition fieldOptions_JSTypeFromJSON (object : value) : FieldOptions_JSType :=
  if is_num object 0 || is_str object "JS_NORMAL" then FieldOptions_JSType_JS_NORMAL
  else if is_num object 1 || is_str object "JS_STRING" then FieldOptions_JSType_JS_STRING
  else if is_num object 2 || is_str object "JS_NUMBER" then FieldOptions_JSType_JS_NUMBER
  else FieldOptions_JSType_UNRECOGNIZED.

Definition fieldOptions_JSTypeToJSON (object : Z) : jsstring :=
  if object =? FieldOptions_JSType_num FieldOptions_JSType_JS_NORMAL then js "JS_NORMAL"
  else if object =? FieldOptions_JSType_num FieldOptions_JSType_JS_STRING then js "JS_STRING"
  else if object =? FieldOptions_JSType_num FieldOptions_JSType_JS_NUMBER then js "JS_NUMBER"
  else js "UNRECOGNIZED".

Definition FieldOptions_JSType_known (z : Z) : Prop := exists e, z = FieldOptions_JSType_num e.

Lemma FieldOptions_JSType_json (e : FieldOptions_JSType)
    : fieldOptions_JSTypeFromJSON (VString (fieldOptions_JSTypeToJSON (FieldOptions_JSType_num e)))
    = e.
Proof. by destruct e. Qed.

Lemma FieldOptions_JSType_known_json (z : Z) :
  FieldOptions_JSType_known z -> FieldOptions_JSType_num (fieldOptions_JSTypeFromJSON (VString
      (fieldOptions_JSTypeToJSON z))) = z.
Proof. intros [e ->]. by rewrite FieldOptions_JSType_json. Qed.

(** ** [FieldOptions_OptionRetention] *)

Inductive FieldOptions_OptionRetention : Type :=
| FieldOptions_OptionRetention_RETENTION_UNKNOWN
| FieldOptions_OptionRetention_RETENTION_RUNTIME
| FieldOptions_OptionRetention_RETENTION_SOURCE
| FieldOptions_OptionRetention_UNRECOGNIZED.

Definition FieldOptions_OptionRetention_num (e : FieldOptions_OptionRetention) : Z :=
  match e with
  | FieldOptions_OptionRetention_RETENTION_UNKNOWN => 0
  | FieldOptions_OptionRetention_RETENTION_RUNTIME => 1
  | FieldOptions_OptionRetention_RETENTION_SOURCE => 2
  | FieldOptions_OptionRetention_UNRECOGNIZED => -1
  end.

Definition fieldOptions_OptionRetentionFromJSON (object : value) : FieldOptions_OptionRetention :=
  if is_num object 0 || is_str object "RETENTION_UNKNOWN" then
      FieldOptions_OptionRetention_RETENTION_UNKNOWN
  else if is_num object 1 || is_str object "RETENTION_RUNTIME" then
      FieldOptions_OptionRetention_RETENTION_RUNTIME
  else if is_num object 2 || is_str object "RETENTION_SOURCE" then
      FieldOptions_OptionRetention_RETENTION_SOURCE
  else FieldOptions_OptionRetention_UNRECOGNIZED.

Definition fieldOptions_OptionRetentionToJSON (object : Z) : jsstring :=
  if object =? FieldOptions_OptionRetention_num FieldOptions_OptionRetention_RETENTION_UNKNOWN then
      js "RETENTION_UNKNOWN"
  else if object =? FieldOptions_OptionRetention_num FieldOptions_OptionRetention_RETENTION_RUNTIME
      then js "RETENTION_RUNTIME"
  else if object =? FieldOptions_OptionRetention_num FieldOptions_OptionRetention_RETENTION_SOURCE
      then js "RETENTION_SOURCE"
  else js "UNRECOGNIZED".

Definition FieldOptions_OptionRetention_known (z : Z) : Prop := exists e, z =
    FieldOptions_OptionRetention_num e.

Lemma FieldOptions_OptionRetention_json (e : FieldOptions_OptionRetention)
    : fieldOptions_OptionRetentionFromJSON (VString (fieldOptions_OptionRetentionToJSON
    (FieldOptions_OptionRetention_num e))) = e.
Proof. by destruct e. Qed.

Lemma FieldOptions_OptionRetention_known_json (z : Z) :
  FieldOptions_OptionRetention_known z -> FieldOptions_OptionRetention_num
      (fieldOptions_OptionRetentionFromJSON (VString (fieldOptions_OptionRetentionToJSON z))) = z.
Proof. intros [e ->]. by rewrite FieldOptions_OptionRetention_json. Qed.

(** ** [FieldOptions_OptionTargetType] *)

Inductive FieldOptions_OptionTargetType : Type :=
| FieldOptions_OptionTargetType_TARGET_TYPE_UNKNOWN
| FieldOptions_OptionTargetType_TARGET_TYPE_FILE
| FieldOptions_OptionTargetType_TARGET_TYPE_EXTENSION_RANGE
| FieldOptions_OptionTargetType_TARGET_TYPE_MESSAGE
| FieldOptions_OptionTargetType_TARGET_TYPE_FIELD
| FieldOptions_OptionTargetType_TARGET_TYPE_ONEOF
| FieldOptions_OptionTargetType_TARGET_TYPE_ENUM
| FieldOptions_OptionTargetType_TARGET_TYPE_ENUM_ENTRY
| FieldOptions_OptionTargetType_TARGET_TYPE_SERVICE
| FieldOptions_OptionTargetType_TARGET_TYPE_METHOD
| FieldOptions_OptionTargetType_UNRECOGNIZED.

Definition FieldOptions_OptionTargetType_num (e : FieldOptions_OptionTargetType) : Z :=
  match e with
  | FieldOptions_OptionTargetType_TARGET_TYPE_UNKNOWN => 0
  | FieldOptions_OptionTargetType_TARGET_TYPE_FILE => 1
  | FieldOptions_OptionTargetType_TARGET_TYPE_EXTENSION_RANGE => 2
  | FieldOptions_OptionTargetType_TARGET_TYPE_MESSAGE => 3
  | FieldOptions_OptionTargetType_TARGET_TYPE_FIELD => 4
  | FieldOptions_OptionTargetType_TARGET_TYPE_ONEOF => 5
  | FieldOptions_OptionTargetType_TARGET_TYPE_ENUM => 6
  | FieldOptions_OptionTargetType_TARGET_TYPE_ENUM_ENTRY => 7
  | FieldOptions_OptionTargetType_TARGET_TYPE_SERVICE => 8
  | FieldOptions_OptionTargetType_TARGET_TYPE_METHOD => 9
  | FieldOptions_OptionTargetType_UNRECOGNIZED => -1
  end.

Definition fieldOptions_OptionTargetTypeFromJSON (object : value) : FieldOptions_OptionTargetType :=
  if is_num object 0 || is_str object "TARGET_TYPE_UNKNOWN" then
      FieldOptions_OptionTargetType_TARGET_TYPE_UNKNOWN
  else if is_num object 1 || is_str object "TARGET_TYPE_FILE" then
      FieldOptions_OptionTargetType_TARGET_TYPE_FILE
  else if is_num object 2 || is_str object "TARGET_TYPE_EXTENSION_RANGE" then
      FieldOptions_OptionTargetType_TARGET_TYPE_EXTENSION_RANGE
  else if is_num object 3 || is_str object "TARGET_TYPE_MESSAGE" then
      FieldOptions_OptionTargetType_TARGET_TYPE_MESSAGE
  else if is_num object 4 || is_str object "TARGET_TYPE_FIELD" then
      FieldOptions_OptionTargetType_TARGET_TYPE_FIELD
  else if is_num object 5 || is_str object "TARGET_TYPE_ONEOF" then
      FieldOptions_OptionTargetType_TARGET_TYPE_ONEOF
  else if is_num object 6 || is_str object "TARGET_TYPE_ENUM" then
      FieldOptions_OptionTargetType_TARGET_TYPE_ENUM
  else if is_num object 7 || is_str object "TARGET_TYPE_ENUM_ENTRY" then
      FieldOptions_OptionTargetType_TARGET_TYPE_ENUM_ENTRY
  else if is_num object 8 || is_str object "TARGET_TYPE_SERVICE" then
      FieldOptions_OptionTargetType_TARGET_TYPE_SERVICE
  else if is_num object 9 || is_str object "TARGET_TYPE_METHOD" then
      FieldOptions_OptionTargetType_TARGET_TYPE_METHOD
  else FieldOptions_OptionTargetType_UNRECOGNIZED.

Definition fieldOptions_OptionTargetTypeToJSON (object : Z) : jsstring :=
  if object =? FieldOptions_OptionTargetType_num FieldOptions_OptionTargetType_TARGET_TYPE_UNKNOWN
      then js "TARGET_TYPE_UNKNOWN"
  else if object =? FieldOptions_OptionTargetType_num
      FieldOptions_OptionTargetType_TARGET_TYPE_FILE then js "TARGET_TYPE_FILE"
  else if object =? FieldOptions_OptionTargetType_num
      FieldOptions_OptionTargetType_TARGET_TYPE_EXTENSION_RANGE then js
      "TARGET_TYPE_EXTENSION_RANGE"
  else if object =? FieldOptions_OptionTargetType_num
      FieldOptions_OptionTargetType_TARGET_TYPE_MESSAGE then js "TARGET_TYPE_MESSAGE"
  else if object =? FieldOptions_OptionTargetType_num
      FieldOptions_OptionTargetType_TARGET_TYPE_FIELD then js "TARGET_TYPE_FIELD"
  else if object =? FieldOptions_OptionTargetType_num
      FieldOptions_OptionTargetType_TARGET_TYPE_ONEOF then js "TARGET_TYPE_ONEOF"
  else if object =? FieldOptions_OptionTargetType_num
      FieldOptions_OptionTargetType_TARGET_TYPE_ENUM then js "TARGET_TYPE_ENUM"
  else if object =? FieldOptions_OptionTargetType_num
      FieldOptions_OptionTargetType_TARGET_TYPE_ENUM_ENTRY then js "TARGET_TYPE_ENUM_ENTRY"
  else if object =? FieldOptions_OptionTargetType_num
      FieldOptions_OptionTargetType_TARGET_TYPE_SERVICE then js "TARGET_TYPE_SERVICE"
  else if object =? FieldOptions_OptionTargetType_num
      FieldOptions_OptionTargetType_TARGET_TYPE_METHOD then js "TARGET_TYPE_METHOD"
  else js "UNRECOGNIZED".

Definition FieldOptions_OptionTargetType_known (z : Z) : Prop := exists e, z =
    FieldOptions_OptionTargetType_num e.

Lemma FieldOptions_OptionTargetType_json (e : FieldOptions_OptionTargetType)
    : fieldOptions_OptionTargetTypeFromJSON (VString (fieldOptions_OptionTargetTypeToJSON
    (FieldOptions_OptionTargetType_num e))) = e.
Proof. by destruct e. Qed.

Lemma FieldOptions_OptionTargetType_known_json (z : Z) :
  FieldOptions_OptionTargetType_known z -> FieldOptions_OptionTargetType_num
      (fieldOptions_OptionTargetTypeFromJSON (VString (fieldOptions_OptionTargetTypeToJSON z))) = z.
Proof. intros [e ->]. by rewrite FieldOptions_OptionTargetType_json. Qed.

(** ** [MethodOptions_IdempotencyLevel] *)

Inductive MethodOptions_IdempotencyLevel : Type :=
| MethodOptions_IdempotencyLevel_IDEMPOTENCY_UNKNOWN
| MethodOptions_IdempotencyLevel_NO_SIDE_EFFECTS
| MethodOptions_IdempotencyLevel_IDEMPOTENT
| MethodOptions_IdempotencyLevel_UNRECOGNIZED.

Definition MethodOptions_IdempotencyLevel_num (e : MethodOptions_IdempotencyLevel) : Z :=
  match e with
  | MethodOptions_IdempotencyLevel_IDEMPOTENCY_UNKNOWN => 0
  | MethodOptions_IdempotencyLevel_NO_SIDE_EFFECTS => 1
  | MethodOptions_IdempotencyLevel_IDEMPOTENT => 2
  | MethodOptions_IdempotencyLevel_UNRECOGNIZED => -1
  end.

Definition methodOptions_IdempotencyLevelFromJSON (object : value)
    : MethodOptions_IdempotencyLevel :=
  if is_num object 0 || is_str object "IDEMPOTENCY_UNKNOWN" then
      MethodOptions_IdempotencyLevel_IDEMPOTENCY_UNKNOWN
  else if is_num object 1 || is_str object "NO_SIDE_EFFECTS" then
      MethodOptions_IdempotencyLevel_NO_SIDE_EFFECTS
  else if is_num object 2 || is_str object "IDEMPOTENT" then
      MethodOptions_IdempotencyLevel_IDEMPOTENT
  else MethodOptions_IdempotencyLevel_UNRECOGNIZED.

Definition methodOptions_IdempotencyLevelToJSON (object : Z) : jsstring :=
  if object =? MethodOptions_IdempotencyLevel_num
      MethodOptions_IdempotencyLevel_IDEMPOTENCY_UNKNOWN then js "IDEMPOTENCY_UNKNOWN"
  else if object =? MethodOptions_IdempotencyLevel_num
      MethodOptions_IdempotencyLevel_NO_SIDE_EFFECTS then js "NO_SIDE_EFFECTS"
  else if object =? MethodOptions_IdempotencyLevel_num MethodOptions_IdempotencyLevel_IDEMPOTENT
      then js "IDEMPOTENT"
  else js "UNRECOGNIZED".

Definition MethodOptions_IdempotencyLevel_known (z : Z) : Prop := exists e, z =
    MethodOptions_IdempotencyLevel_num e.

Lemma MethodOptions_IdempotencyLevel_json (e : MethodOptions_IdempotencyLevel)
    : methodOptions_IdempotencyLevelFromJSON (VString (methodOptions_IdempotencyLevelToJSON
    (MethodOptions_IdempotencyLevel_num e))) = e.
Proof. by destruct e. Qed.

Lemma MethodOptions_IdempotencyLevel_known_json (z : Z) :
  MethodOptions_IdempotencyLevel_known z -> MethodOptions_IdempotencyLevel_num
      (methodOptions_IdempotencyLevelFromJSON (VString (methodOptions_IdempotencyLevelToJSON z)))
      = z.
Proof. intros [e ->]. by rewrite MethodOptions_IdempotencyLevel_json. Qed.

(** ** [FeatureSet_FieldPresence] *)

Inductive FeatureSet_FieldPresence : Type :=
| FeatureSet_FieldPresence_FIELD_PRESENCE_UNKNOWN
| FeatureSet_FieldPresence_EXPLICIT
| FeatureSet_FieldPresence_IMPLICIT
| FeatureSet_FieldPresence_LEGACY_REQUIRED
| FeatureSet_FieldPresence_UNRECOGNIZED.

Definition FeatureSet_FieldPresence_num (e : FeatureSet_FieldPresence) : Z :=
  match e with
  | FeatureSet_FieldPresence_FIELD_PRESENCE_UNKNOWN => 0
  | FeatureSet_FieldPresence_EXPLICIT => 1
  | FeatureSet_FieldPresence_IMPLICIT => 2
  | FeatureSet_FieldPresence_LEGACY_REQUIRED => 3
  | FeatureSet_FieldPresence_UNRECOGNIZED => -1
  end.

Definition featureSet_FieldPresenceFromJSON (object : value) : FeatureSet_FieldPresence :=
  if is_num object 0 || is_str object "FIELD_PRESENCE_UNKNOWN" then
      FeatureSet_FieldPresence_FIELD_PRESENCE_UNKNOWN
  else if is_num object 1 || is_str object "EXPLICIT" then FeatureSet_FieldPresence_EXPLICIT
  else if is_num object 2 || is_str object "IMPLICIT" then FeatureSet_FieldPresence_IMPLICIT
  else if is_num object 3 || is_str object "LEGACY_REQUIRED" then
      FeatureSet_FieldPresence_LEGACY_REQUIRED
  else FeatureSet_FieldPresence_UNRECOGNIZED.

Definition featureSet_FieldPresenceToJSON (object : Z) : jsstring :=
  if object =? FeatureSet_FieldPresence_num FeatureSet_FieldPresence_FIELD_PRESENCE_UNKNOWN then js
      "FIELD_PRESENCE_UNKNOWN"
  else if object =? FeatureSet_FieldPresence_num FeatureSet_FieldPresence_EXPLICIT then js
      "EXPLICIT"
  else if object =? FeatureSet_FieldPresence_num FeatureSet_FieldPresence_IMPLICIT then js
      "IMPLICIT"
  else if object =? FeatureSet_FieldPresence_num FeatureSet_FieldPresence_LEGACY_REQUIRED then js
      "LEGACY_REQUIRED"
  else js "UNRECOGNIZED".

Definition FeatureSet_FieldPresence_known (z : Z) : Prop := exists e, z =
    FeatureSet_FieldPresence_num e.

Lemma FeatureSet_FieldPresence_json (e : FeatureSet_FieldPresence)
    : featureSet_FieldPresenceFromJSON (VString (featureSet_FieldPresenceToJSON
    (FeatureSet_FieldPresence_num e))) = e.
Proof. by destruct e. Qed.

Lemma FeatureSet_FieldPresence_known_json (z : Z) :
  FeatureSet_FieldPresence_known z -> FeatureSet_FieldPresence_num
      (featureSet_FieldPresenceFromJSON (VString (featureSet_FieldPresenceToJSON z))) = z.
Proof. intros [e ->]. by rewrite FeatureSet_FieldPresence_json. Qed.

(** ** [FeatureSet_EnumType] *)

Inductive FeatureSet_EnumType : Type :=
| FeatureSet_EnumType_ENUM_TYPE_UNKNOWN
| FeatureSet_EnumType_OPEN
| FeatureSet_EnumType_CLOSED
| FeatureSet_EnumType_UNRECOGNIZED.

Definition FeatureSet_EnumType_num (e : FeatureSet_EnumType) : Z :=
  match e with
  | FeatureSet_EnumType_ENUM_TYPE_UNKNOWN => 0
  | FeatureSet_EnumType_OPEN => 1
  | FeatureSet_EnumType_CLOSED => 2
  | FeatureSet_EnumType_UNRECOGNIZED => -1
  end.

Definition featureSet_EnumTypeFromJSON (object : value) : FeatureSet_EnumType :=
  if is_num object 0 || is_str object "ENUM_TYPE_UNKNOWN" then FeatureSet_EnumType_ENUM_TYPE_UNKNOWN
  else if is_num object 1 || is_str object "OPEN" then FeatureSet_EnumType_OPEN
  else if is_num object 2 || is_str object "CLOSED" then FeatureSet_EnumType_CLOSED
  else FeatureSet_EnumType_UNRECOGNIZED.

Definition featureSet_EnumTypeToJSON (object : Z) : jsstring :=
  if object =? FeatureSet_EnumType_num FeatureSet_EnumType_ENUM_TYPE_UNKNOWN then js
      "ENUM_TYPE_UNKNOWN"
  else if object =? FeatureSet_EnumType_num FeatureSet_EnumType_OPEN then js "OPEN"
  else if object =? FeatureSet_EnumType_num FeatureSet_EnumType_CLOSED then js "CLOSED"
  else js "UNRECOGNIZED".

Definition FeatureSet_EnumType_known (z : Z) : Prop := exists e, z = FeatureSet_EnumType_num e.

Lemma FeatureSet_EnumType_json (e : FeatureSet_EnumType)
    : featureSet_EnumTypeFromJSON (VString (featureSet_EnumTypeToJSON (FeatureSet_EnumType_num e)))
    = e.
Proof. by destruct e. Qed.

Lemma FeatureSet_EnumType_known_json (z : Z) :
  FeatureSet_EnumType_known z -> FeatureSet_EnumType_num (featureSet_EnumTypeFromJSON (VString
      (featureSet_EnumTypeToJSON z))) = z.
Proof. intros [e ->]. by rewrite FeatureSet_EnumType_json. Qed.

(** ** [FeatureSet_RepeatedFieldEncoding] *)

Inductive FeatureSet_RepeatedFieldEncoding : Type :=
| FeatureSet_RepeatedFieldEncoding_REPEATED_FIELD_ENCODING_UNKNOWN
| FeatureSet_RepeatedFieldEncoding_PACKED
| FeatureSet_RepeatedFieldEncoding_EXPANDED
| FeatureSet_RepeatedFieldEncoding_UNRECOGNIZED.

Definition FeatureSet_RepeatedFieldEncoding_num (e : FeatureSet_RepeatedFieldEncoding) : Z :=
  match e with
  | FeatureSet_RepeatedFieldEncoding_REPEATED_FIELD_ENCODING_UNKNOWN => 0
  | FeatureSet_RepeatedFieldEncoding_PACKED => 1
  | FeatureSet_RepeatedFieldEncoding_EXPANDED => 2
  | FeatureSet_RepeatedFieldEncoding_UNRECOGNIZED => -1
  end.

Definition featureSet_RepeatedFieldEncodingFromJSON (object : value)
    : FeatureSet_RepeatedFieldEncoding :=
  if is_num object 0 || is_str object "REPEATED_FIELD_ENCODING_UNKNOWN" then
      FeatureSet_RepeatedFieldEncoding_REPEATED_FIELD_ENCODING_UNKNOWN
  else if is_num object 1 || is_str object "PACKED" then FeatureSet_RepeatedFieldEncoding_PACKED
  else if is_num object 2 || is_str object "EXPANDED" then FeatureSet_RepeatedFieldEncoding_EXPANDED
  else FeatureSet_RepeatedFieldEncoding_UNRECOGNIZED.

Definition featureSet_RepeatedFieldEncodingToJSON (object : Z) : jsstring :=
  if object =? FeatureSet_RepeatedFieldEncoding_num
      FeatureSet_RepeatedFieldEncoding_REPEATED_FIELD_ENCODING_UNKNOWN then js
      "REPEATED_FIELD_ENCODING_UNKNOWN"
  else if object =? FeatureSet_RepeatedFieldEncoding_num FeatureSet_RepeatedFieldEncoding_PACKED
      then js "PACKED"
  else if object =? FeatureSet_RepeatedFieldEncoding_num FeatureSet_RepeatedFieldEncoding_EXPANDED
      then js "EXPANDED"
  else js "UNRECOGNIZED".

Definition FeatureSet_RepeatedFieldEncoding_known (z : Z)
    : Prop := exists e, z = FeatureSet_RepeatedFieldEncoding_num e.

Lemma FeatureSet_RepeatedFieldEncoding_json (e : FeatureSet_RepeatedFieldEncoding)
    : featureSet_RepeatedFieldEncodingFromJSON (VString (featureSet_RepeatedFieldEncodingToJSON
    (FeatureSet_RepeatedFieldEncoding_num e))) = e.
Proof. by destruct e. Qed.

Lemma FeatureSet_RepeatedFieldEncoding_known_json (z : Z) :
  FeatureSet_RepeatedFieldEncoding_known z -> FeatureSet_RepeatedFieldEncoding_num
      (featureSet_RepeatedFieldEncodingFromJSON (VString (featureSet_RepeatedFieldEncodingToJSON
      z))) = z.
Proof. intros [e ->]. by rewrite FeatureSet_RepeatedFieldEncoding_json. Qed.

(** ** [FeatureSet_Utf8Validation] *)

Inductive FeatureSet_Utf8Validation : Type :=
| FeatureSet_Utf8Validation_UTF8_VALIDATION_UNKNOWN
| FeatureSet_Utf8Validation_VERIFY
| FeatureSet_Utf8Validation_NONE
| FeatureSet_Utf8Validation_UNRECOGNIZED.

Definition FeatureSet_Utf8Validation_num (e : FeatureSet_Utf8Validation) : Z :=
  match e with
  | FeatureSet_Utf8Validation_UTF8_VALIDATION_UNKNOWN => 0
  | FeatureSet_Utf8Validation_VERIFY => 2
  | FeatureSet_Utf8Validation_NONE => 3
  | FeatureSet_Utf8Validation_UNRECOGNIZED => -1
  end.

Definition featureSet_Utf8ValidationFromJSON (object : value) : FeatureSet_Utf8Validation :=
  if is_num object 0 || is_str object "UTF8_VALIDATION_UNKNOWN" then
      FeatureSet_Utf8Validation_UTF8_VALIDATION_UNKNOWN
  else if is_num object 2 || is_str object "VERIFY" then FeatureSet_Utf8Validation_VERIFY
  else if is_num object 3 || is_str object "NONE" then FeatureSet_Utf8Validation_NONE
  else FeatureSet_Utf8Validation_UNRECOGNIZED.

Definition featureSet_Utf8ValidationToJSON (object : Z) : jsstring :=
  if object =? FeatureSet_Utf8Validation_num FeatureSet_Utf8Validation_UTF8_VALIDATION_UNKNOWN then
      js "UTF8_VALIDATION_UNKNOWN"
  else if object =? FeatureSet_Utf8Validation_num FeatureSet_Utf8Validation_VERIFY then js "VERIFY"
  else if object =? FeatureSet_Utf8Validation_num FeatureSet_Utf8Validation_NONE then js "NONE"
  else js "UNRECOGNIZED".

Definition FeatureSet_Utf8Validation_known (z : Z) : Prop := exists e, z =
    FeatureSet_Utf8Validation_num e.

Lemma FeatureSet_Utf8Validation_json (e : FeatureSet_Utf8Validation)
    : featureSet_Utf8ValidationFromJSON (VString (featureSet_Utf8ValidationToJSON
    (FeatureSet_Utf8Validation_num e))) = e.
Proof. by destruct e. Qed.

Lemma FeatureSet_Utf8Validation_known_json (z : Z) :
  FeatureSet_Utf8Validation_known z -> FeatureSet_Utf8Validation_num
      (featureSet_Utf8ValidationFromJSON (VString (featureSet_Utf8ValidationToJSON z))) = z.
Proof. intros [e ->]. by rewrite FeatureSet_Utf8Validation_json. Qed.

(** ** [FeatureSet_MessageEncoding] *)

Inductive FeatureSet_MessageEncoding : Type :=
| FeatureSet_MessageEncoding_MESSAGE_ENCODING_UNKNOWN
| FeatureSet_MessageEncoding_LENGTH_PREFIXED
| FeatureSet_MessageEncoding_DELIMITED
| FeatureSet_MessageEncoding_UNRECOGNIZED.

Definition FeatureSet_MessageEncoding_num (e : FeatureSet_MessageEncoding) : Z :=
  match e with
  | FeatureSet_MessageEncoding_MESSAGE_ENCODING_UNKNOWN => 0
  | FeatureSet_MessageEncoding_LENGTH_PREFIXED => 1
  | FeatureSet_MessageEncoding_DELIMITED => 2
  | FeatureSet_MessageEncoding_UNRECOGNIZED => -1
  end.

Definition featureSet_MessageEncodingFromJSON (object : value) : FeatureSet_MessageEncoding :=
  if is_num object 0 || is_str object "MESSAGE_ENCODING_UNKNOWN" then
      FeatureSet_MessageEncoding_MESSAGE_ENCODING_UNKNOWN
  else if is_num object 1 || is_str object "LENGTH_PREFIXED" then
      FeatureSet_MessageEncoding_LENGTH_PREFIXED
  else if is_num object 2 || is_str object "DELIMITED" then FeatureSet_MessageEncoding_DELIMITED
  else FeatureSet_MessageEncoding_UNRECOGNIZED.

Definition featureSet_MessageEncodingToJSON (object : Z) : jsstring :=
  if object =? FeatureSet_MessageEncoding_num FeatureSet_MessageEncoding_MESSAGE_ENCODING_UNKNOWN
      then js "MESSAGE_ENCODING_UNKNOWN"
  else if object =? FeatureSet_MessageEncoding_num FeatureSet_MessageEncoding_LENGTH_PREFIXED then
      js "LENGTH_PREFIXED"
  else if object =? FeatureSet_MessageEncoding_num FeatureSet_MessageEncoding_DELIMITED then js
      "DELIMITED"
  else js "UNRECOGNIZED".

Definition FeatureSet_MessageEncoding_known (z : Z) : Prop := exists e, z =
    FeatureSet_MessageEncoding_num e.

Lemma FeatureSet_MessageEncoding_json (e : FeatureSet_MessageEncoding)
    : featureSet_MessageEncodingFromJSON (VString (featureSet_MessageEncodingToJSON
    (FeatureSet_MessageEncoding_num e))) = e.
Proof. by destruct e. Qed.

Lemma FeatureSet_MessageEncoding_known_json (z : Z) :
  FeatureSet_MessageEncoding_known z -> FeatureSet_MessageEncoding_num
      (featureSet_MessageEncodingFromJSON (VString (featureSet_MessageEncodingToJSON z))) = z.
Proof. intros [e ->]. by rewrite FeatureSet_MessageEncoding_json. Qed.

(** ** [FeatureSet_JsonFormat] *)

Inductive FeatureSet_JsonFormat : Type :=
| FeatureSet_JsonFormat_JSON_FORMAT_UNKNOWN
| FeatureSet_JsonFormat_ALLOW
| FeatureSet_JsonFormat_LEGACY_BEST_EFFORT
| FeatureSet_JsonFormat_UNRECOGNIZED.

Definition FeatureSet_JsonFormat_num (e : FeatureSet_JsonFormat) : Z :=
  match e with
  | FeatureSet_JsonFormat_JSON_FORMAT_UNKNOWN => 0
  | FeatureSet_JsonFormat_ALLOW => 1
  | FeatureSet_JsonFormat_LEGACY_BEST_EFFORT => 2
  | FeatureSet_JsonFormat_UNRECOGNIZED => -1
  end.

Definition featureSet_JsonFormatFromJSON (object : value) : FeatureSet_JsonFormat :=
  if is_num object 0 || is_str object "JSON_FORMAT_UNKNOWN" then
      FeatureSet_JsonFormat_JSON_FORMAT_UNKNOWN
  else if is_num object 1 || is_str object "ALLOW" then FeatureSet_JsonFormat_ALLOW
  else if is_num object 2 || is_str object "LEGACY_BEST_EFFORT" then
      FeatureSet_JsonFormat_LEGACY_BEST_EFFORT
  else FeatureSet_JsonFormat_UNRECOGNIZED.

Definition featureSet_JsonFormatToJSON (object : Z) : jsstring :=
  if object =? FeatureSet_JsonFormat_num FeatureSet_JsonFormat_JSON_FORMAT_UNKNOWN then js
      "JSON_FORMAT_UNKNOWN"
  else if object =? FeatureSet_JsonFormat_num FeatureSet_JsonFormat_ALLOW then js "ALLOW"
  else if object =? FeatureSet_JsonFormat_num FeatureSet_JsonFormat_LEGACY_BEST_EFFORT then js
      "LEGACY_BEST_EFFORT"
  else js "UNRECOGNIZED".

Definition FeatureSet_JsonFormat_known (z : Z) : Prop := exists e, z = FeatureSet_JsonFormat_num e.

Lemma FeatureSet_JsonFormat_json (e : FeatureSet_JsonFormat)
    : featureSet_JsonFormatFromJSON (VString (featureSet_JsonFormatToJSON
    (FeatureSet_JsonFormat_num e))) = e.
Proof. by destruct e. Qed.

Lemma FeatureSet_JsonFormat_known_json (z : Z) :
  FeatureSet_JsonFormat_known z -> FeatureSet_JsonFormat_num (featureSet_JsonFormatFromJSON
      (VString (featureSet_JsonFormatToJSON z))) = z.
Proof. intros [e ->]. by rewrite FeatureSet_JsonFormat_json. Qed.

(** ** [FeatureSet_EnforceNamingStyle] *)

Inductive FeatureSet_EnforceNamingStyle : Type :=
| FeatureSet_EnforceNamingStyle_ENFORCE_NAMING_STYLE_UNKNOWN
| FeatureSet_EnforceNamingStyle_STYLE2024
| FeatureSet_EnforceNamingStyle_STYLE_LEGACY
| FeatureSet_EnforceNamingStyle_UNRECOGNIZED.

Definition FeatureSet_EnforceNamingStyle_num (e : FeatureSet_EnforceNamingStyle) : Z :=
  match e with
  | FeatureSet_EnforceNamingStyle_ENFORCE_NAMING_STYLE_UNKNOWN => 0
  | FeatureSet_EnforceNamingStyle_STYLE2024 => 1
  | FeatureSet_EnforceNamingStyle_STYLE_LEGACY => 2
  | FeatureSet_EnforceNamingStyle_UNRECOGNIZED => -1
  end.

Definition featureSet_EnforceNamingStyleFromJSON (object : value) : FeatureSet_EnforceNamingStyle :=
  if is_num object 0 || is_str object "ENFORCE_NAMING_STYLE_UNKNOWN" then
      FeatureSet_EnforceNamingStyle_ENFORCE_NAMING_STYLE_UNKNOWN
  else if is_num object 1 || is_str object "STYLE2024" then FeatureSet_EnforceNamingStyle_STYLE2024
  else if is_num object 2 || is_str object "STYLE_LEGACY" then
      FeatureSet_EnforceNamingStyle_STYLE_LEGACY
  else FeatureSet_EnforceNamingStyle_UNRECOGNIZED.

Definition featureSet_EnforceNamingStyleToJSON (object : Z) : jsstring :=
  if object =? FeatureSet_EnforceNamingStyle_num
      FeatureSet_EnforceNamingStyle_ENFORCE_NAMING_STYLE_UNKNOWN then js
      "ENFORCE_NAMING_STYLE_UNKNOWN"
  else if object =? FeatureSet_EnforceNamingStyle_num FeatureSet_EnforceNamingStyle_STYLE2024 then
      js "STYLE2024"
  else if object =? FeatureSet_EnforceNamingStyle_num FeatureSet_EnforceNamingStyle_STYLE_LEGACY
      then js "STYLE_LEGACY"
  else js "UNRECOGNIZED".

Definition FeatureSet_EnforceNamingStyle_known (z : Z) : Prop := exists e, z =
    FeatureSet_EnforceNamingStyle_num e.

Lemma FeatureSet_EnforceNamingStyle_json (e : FeatureSet_EnforceNamingStyle)
    : featureSet_EnforceNamingStyleFromJSON (VString (featureSet_EnforceNamingStyleToJSON
    (FeatureSet_EnforceNamingStyle_num e))) = e.
Proof. by destruct e. Qed.

Lemma FeatureSet_EnforceNamingStyle_known_json (z : Z) :
  FeatureSet_EnforceNamingStyle_known z -> FeatureSet_EnforceNamingStyle_num
      (featureSet_EnforceNamingStyleFromJSON (VString (featureSet_EnforceNamingStyleToJSON z))) = z.
Proof. intros [e ->]. by rewrite FeatureSet_EnforceNamingStyle_json. Qed.

(** ** [FeatureSet_VisibilityFeature_DefaultSymbolVisibility] *)

Inductive FeatureSet_VisibilityFeature_DefaultSymbolVisibility : Type :=
| FeatureSet_VisibilityFeature_DefaultSymbolVisibility_DEFAULT_SYMBOL_VISIBILITY_UNKNOWN
| FeatureSet_VisibilityFeature_DefaultSymbolVisibility_EXPORT_ALL
| FeatureSet_VisibilityFeature_DefaultSymbolVisibility_EXPORT_TOP_LEVEL
| FeatureSet_VisibilityFeature_DefaultSymbolVisibility_LOCAL_ALL
| FeatureSet_VisibilityFeature_DefaultSymbolVisibility_STRICT
| FeatureSet_VisibilityFeature_DefaultSymbolVisibility_UNRECOGNIZED.

Definition FeatureSet_VisibilityFeature_DefaultSymbolVisibility_num (e :
    FeatureSet_VisibilityFeature_DefaultSymbolVisibility) : Z :=
  match e with
  | FeatureSet_VisibilityFeature_DefaultSymbolVisibility_DEFAULT_SYMBOL_VISIBILITY_UNKNOWN => 0
  | FeatureSet_VisibilityFeature_DefaultSymbolVisibility_EXPORT_ALL => 1
  | FeatureSet_VisibilityFeature_DefaultSymbolVisibility_EXPORT_TOP_LEVEL => 2
  | FeatureSet_VisibilityFeature_DefaultSymbolVisibility_LOCAL_ALL => 3
  | FeatureSet_VisibilityFeature_DefaultSymbolVisibility_STRICT => 4
  | FeatureSet_VisibilityFeature_DefaultSymbolVisibility_UNRECOGNIZED => -1
  end.

Definition featureSet_VisibilityFeature_DefaultSymbolVisibilityFromJSON (object : value)
    : FeatureSet_VisibilityFeature_DefaultSymbolVisibility :=
  if is_num object 0 || is_str object "DEFAULT_SYMBOL_VISIBILITY_UNKNOWN" then
      FeatureSet_VisibilityFeature_DefaultSymbolVisibility_DEFAULT_SYMBOL_VISIBILITY_UNKNOWN
  else if is_num object 1 || is_str object "EXPORT_ALL" then
      FeatureSet_VisibilityFeature_DefaultSymbolVisibility_EXPORT_ALL
  else if is_num object 2 || is_str object "EXPORT_TOP_LEVEL" then
      FeatureSet_VisibilityFeature_DefaultSymbolVisibility_EXPORT_TOP_LEVEL
  else if is_num object 3 || is_str object "LOCAL_ALL" then
      FeatureSet_VisibilityFeature_DefaultSymbolVisibility_LOCAL_ALL
  else if is_num object 4 || is_str object "STRICT" then
      FeatureSet_VisibilityFeature_DefaultSymbolVisibility_STRICT
  else FeatureSet_VisibilityFeature_DefaultSymbolVisibility_UNRECOGNIZED.

Definition featureSet_VisibilityFeature_DefaultSymbolVisibilityToJSON (object : Z) : jsstring :=
  if object =? FeatureSet_VisibilityFeature_DefaultSymbolVisibility_num
      FeatureSet_VisibilityFeature_DefaultSymbolVisibility_DEFAULT_SYMBOL_VISIBILITY_UNKNOWN then
      js "DEFAULT_SYMBOL_VISIBILITY_UNKNOWN"
  else if object =? FeatureSet_VisibilityFeature_DefaultSymbolVisibility_num
      FeatureSet_VisibilityFeature_DefaultSymbolVisibility_EXPORT_ALL then js "EXPORT_ALL"
  else if object =? FeatureSet_VisibilityFeature_DefaultSymbolVisibility_num
      FeatureSet_VisibilityFeature_DefaultSymbolVisibility_EXPORT_TOP_LEVEL then js
      "EXPORT_TOP_LEVEL"
  else if object =? FeatureSet_VisibilityFeature_DefaultSymbolVisibility_num
      FeatureSet_VisibilityFeature_DefaultSymbolVisibility_LOCAL_ALL then js "LOCAL_ALL"
  else if object =? FeatureSet_VisibilityFeature_DefaultSymbolVisibility_num
      FeatureSet_VisibilityFeature_DefaultSymbolVisibility_STRICT then js "STRICT"
  else js "UNRECOGNIZED".

Definition FeatureSet_VisibilityFeature_DefaultSymbolVisibility_known (z : Z)
    : Prop := exists e, z = FeatureSet_VisibilityFeature_DefaultSymbolVisibility_num e.

Lemma FeatureSet_VisibilityFeature_DefaultSymbolVisibility_json (e :
    FeatureSet_VisibilityFeature_DefaultSymbolVisibility)
    : featureSet_VisibilityFeature_DefaultSymbolVisibilityFromJSON (VString
    (featureSet_VisibilityFeature_DefaultSymbolVisibilityToJSON
    (FeatureSet_VisibilityFeature_DefaultSymbolVisibility_num e))) = e.
Proof. by destruct e. Qed.

Lemma FeatureSet_VisibilityFeature_DefaultSymbolVisibility_known_json (z : Z) :
  FeatureSet_VisibilityFeature_DefaultSymbolVisibility_known z ->
      FeatureSet_VisibilityFeature_DefaultSymbolVisibility_num
      (featureSet_VisibilityFeature_DefaultSymbolVisibilityFromJSON (VString
      (featureSet_VisibilityFeature_DefaultSymbolVisibilityToJSON z))) = z.
Proof. intros [e ->]. by rewrite FeatureSet_VisibilityFeature_DefaultSymbolVisibility_json. Qed.

(** ** [GeneratedCodeInfo_Annotation_Semantic] *)

Inductive GeneratedCodeInfo_Annotation_Semantic : Type :=
| GeneratedCodeInfo_Annotation_Semantic_NONE
| GeneratedCodeInfo_Annotation_Semantic_SET
| GeneratedCodeInfo_Annotation_Semantic_ALIAS
| GeneratedCodeInfo_Annotation_Semantic_UNRECOGNIZED.

Definition GeneratedCodeInfo_Annotation_Semantic_num (e : GeneratedCodeInfo_Annotation_Semantic)
    : Z :=
  match e with
  | GeneratedCodeInfo_Annotation_Semantic_NONE => 0
  | GeneratedCodeInfo_Annotation_Semantic_SET => 1
  | GeneratedCodeInfo_Annotation_Semantic_ALIAS => 2
  | GeneratedCodeInfo_Annotation_Semantic_UNRECOGNIZED => -1
  end.

Definition generatedCodeInfo_Annotation_SemanticFromJSON (object : value)
    : GeneratedCodeInfo_Annotation_Semantic :=
  if is_num object 0 || is_str object "NONE" then GeneratedCodeInfo_Annotation_Semantic_NONE
  else if is_num object 1 || is_str object "SET" then GeneratedCodeInfo_Annotation_Semantic_SET
  else if is_num object 2 || is_str object "ALIAS" then GeneratedCodeInfo_Annotation_Semantic_ALIAS
  else GeneratedCodeInfo_Annotation_Semantic_UNRECOGNIZED.

Definition generatedCodeInfo_Annotation_SemanticToJSON (object : Z) : jsstring :=
  if object =? GeneratedCodeInfo_Annotation_Semantic_num GeneratedCodeInfo_Annotation_Semantic_NONE
      then js "NONE"
  else if object =? GeneratedCodeInfo_Annotation_Semantic_num
      GeneratedCodeInfo_Annotation_Semantic_SET then js "SET"
  else if object =? GeneratedCodeInfo_Annotation_Semantic_num
      GeneratedCodeInfo_Annotation_Semantic_ALIAS then js "ALIAS"
  else js "UNRECOGNIZED".

Definition GeneratedCodeInfo_Annotation_Semantic_known (z : Z)
    : Prop := exists e, z = GeneratedCodeInfo_Annotation_Semantic_num e.

Lemma GeneratedCodeInfo_Annotation_Semantic_json (e : GeneratedCodeInfo_Annotation_Semantic)
    : generatedCodeInfo_Annotation_SemanticFromJSON (VString
    (generatedCodeInfo_Annotation_SemanticToJSON (GeneratedCodeInfo_Annotation_Semantic_num e)))
    = e.
Proof. by destruct e. Qed.

Lemma GeneratedCodeInfo_Annotation_Semantic_known_json (z : Z) :
  GeneratedCodeInfo_Annotation_Semantic_known z -> GeneratedCodeInfo_Annotation_Semantic_num
      (generatedCodeInfo_Annotation_SemanticFromJSON (VString
      (generatedCodeInfo_Annotation_SemanticToJSON z))) = z.
Proof. intros [e ->]. by rewrite GeneratedCodeInfo_Annotation_Semantic_json. Qed.
