(* ===== verification/DescriptorOptions.v ===== *)
(** The option messages of [gen/ts/google/protobuf/descriptor.ts] that describe fields:
    [FeatureSet], [UninterpretedOption], [FieldOptions] and what they embed, in the conventions
    of [Query]. *)

From stdpp Require Import base list numbers strings.
From Stdlib Require Import Strings.Byte ZArith Lia.
From S2P Require Import Prelude JsNumber JsValue Wire DescriptorBase DescriptorEnums.
Local Open Scope Z_scope.
#[local] Set Warnings "-register-all".

Section DescriptorOptions.
Context {RT : WireRuntime} {HO : JsHost}.

(** ** [FieldOptions_EditionDefault] *)

Record FieldOptions_EditionDefault : Type := mkFieldOptions_EditionDefault {
  FieldOptions_EditionDefault_edition : option Z;
  FieldOptions_EditionDefault_value : option jsstring
}.

Record FieldOptions_EditionDefault_Partial : Type := mkFieldOptions_EditionDefault_Partial {
  FieldOptions_EditionDefault_p_edition : option Z;
  FieldOptions_EditionDefault_p_value : option jsstring
}.

Definition FieldOptions_EditionDefault_with_edition (v : option Z)
    (m : FieldOptions_EditionDefault) : FieldOptions_EditionDefault :=
  mkFieldOptions_EditionDefault v (FieldOptions_EditionDefault_value m).

Definition FieldOptions_EditionDefault_with_value (v : option jsstring)
    (m : FieldOptions_EditionDefault) : FieldOptions_EditionDefault :=
  mkFieldOptions_EditionDefault (FieldOptions_EditionDefault_edition m) v.

Definition createBaseFieldOptions_EditionDefault : FieldOptions_EditionDefault :=
  {| FieldOptions_EditionDefault_edition := (Some 0);
     FieldOptions_EditionDefault_value := (Some (js "")) |}.

Definition FieldOptions_EditionDefault_encode (message : FieldOptions_EditionDefault) (w : writer)
    : jsres writer :=
  let* w := match FieldOptions_EditionDefault_edition message with
             | Some v => if negb (v =? 0) then
                           let* w := w_uint32 (Int 24) w in w_int32 (Int v) w
                         else Ok w
             | None => Ok w
             end in
  let* w := match FieldOptions_EditionDefault_value message with
             | Some v => if negb (str_eqb v (js "")) then
                           let* w := w_uint32 (Int 18) w in w_string v w
                         else Ok w
             | None => Ok w
             end in
  Ok w.

Definition FieldOptions_EditionDefault_switch (fuel : nat) (tag : Z)
    (message : FieldOptions_EditionDefault) (r : reader)
    : jsres (flow FieldOptions_EditionDefault) :=
  let field := Z.shiftr tag 3 in
  if field =? 3 then
    if negb (tag =? 24) then Ok Break
    else
      let* (v, r) := r_int32 r in
          Ok (Continue (FieldOptions_EditionDefault_with_edition (Some v) message) r)
  else if field =? 2 then
    if negb (tag =? 18) then Ok Break
    else
      let* (v, r) := r_string r in
          Ok (Continue (FieldOptions_EditionDefault_with_value (Some v) message) r)
  else Ok Break.

Definition FieldOptions_EditionDefault_decode (fuel : nat) (i : input) (length : option Z)
    : jsres (FieldOptions_EditionDefault * reader) :=
  decode_with (FieldOptions_EditionDefault_switch fuel) createBaseFieldOptions_EditionDefault fuel
      i length.

Definition FieldOptions_EditionDefault_fromJSON (object : value)
    : jsres FieldOptions_EditionDefault :=
  let* edition_ := field object "edition" (fun v => Ok (Edition_num (editionFromJSON v))) 0 in
  let* value_ := field object "value" to_string (js "") in
  Ok (mkFieldOptions_EditionDefault (Some edition_) (Some value_)).

Definition FieldOptions_EditionDefault_toJSON (message : FieldOptions_EditionDefault) : value :=
  let obj : props := [] in
  let obj := put_defined (FieldOptions_EditionDefault_edition message) (fun v => negb (v =? 0))
    "edition" (fun v => VString (editionToJSON v)) obj in
  let obj := put_defined (FieldOptions_EditionDefault_value message) (fun v => negb (str_eqb v (js
    ""))) "value" (fun v => VString v) obj in
  VObject obj.

Definition FieldOptions_EditionDefault_fromPartial (object : FieldOptions_EditionDefault_Partial)
    : FieldOptions_EditionDefault :=
  let message := createBaseFieldOptions_EditionDefault in
  let message := FieldOptions_EditionDefault_with_edition (Some (nullish
      (FieldOptions_EditionDefault_p_edition object) 0)) message in
  let message := FieldOptions_EditionDefault_with_value (Some (nullish
      (FieldOptions_EditionDefault_p_value object) (js ""))) message in
  message.

Definition FieldOptions_EditionDefault_create (base : option FieldOptions_EditionDefault_Partial)
    : FieldOptions_EditionDefault :=
  FieldOptions_EditionDefault_fromPartial (nullish base (mkFieldOptions_EditionDefault_Partial None
      None)).

Definition FieldOptions_EditionDefault_toPartial (m : FieldOptions_EditionDefault)
    : FieldOptions_EditionDefault_Partial :=
  mkFieldOptions_EditionDefault_Partial (FieldOptions_EditionDefault_edition m)
    (FieldOptions_EditionDefault_value m).

(** ** [FeatureSet] *)

Record FeatureSet : Type := mkFeatureSet {
  FeatureSet_fieldPresence : option Z;
  FeatureSet_enumType : option Z;
  FeatureSet_repeatedFieldEncoding : option Z;
  FeatureSet_utf8Validation : option Z;
  FeatureSet_messageEncoding : option Z;
  FeatureSet_jsonFormat : option Z;
  FeatureSet_enforceNamingStyle : option Z;
  FeatureSet_defaultSymbolVisibility : option Z
}.

Record FeatureSet_Partial : Type := mkFeatureSet_Partial {
  FeatureSet_p_fieldPresence : option Z;
  FeatureSet_p_enumType : option Z;
  FeatureSet_p_repeatedFieldEncoding : option Z;
  FeatureSet_p_utf8Validation : option Z;
  FeatureSet_p_messageEncoding : option Z;
  FeatureSet_p_jsonFormat : option Z;
  FeatureSet_p_enforceNamingStyle : option Z;
  FeatureSet_p_defaultSymbolVisibility : option Z
}.

Definition FeatureSet_with_fieldPresence (v : option Z) (m : FeatureSet) : FeatureSet :=
  mkFeatureSet v (FeatureSet_enumType m) (FeatureSet_repeatedFieldEncoding m)
    (FeatureSet_utf8Validation m) (FeatureSet_messageEncoding m) (FeatureSet_jsonFormat m)
    (FeatureSet_enforceNamingStyle m) (FeatureSet_defaultSymbolVisibility m).

Definition FeatureSet_with_enumType (v : option Z) (m : FeatureSet) : FeatureSet :=
  mkFeatureSet (FeatureSet_fieldPresence m) v (FeatureSet_repeatedFieldEncoding m)
    (FeatureSet_utf8Validation m) (FeatureSet_messageEncoding m) (FeatureSet_jsonFormat m)
    (FeatureSet_enforceNamingStyle m) (FeatureSet_defaultSymbolVisibility m).

Definition FeatureSet_with_repeatedFieldEncoding (v : option Z) (m : FeatureSet) : FeatureSet :=
  mkFeatureSet (FeatureSet_fieldPresence m) (FeatureSet_enumType m) v (FeatureSet_utf8Validation
    m) (FeatureSet_messageEncoding m) (FeatureSet_jsonFormat m) (FeatureSet_enforceNamingStyle m)
    (FeatureSet_defaultSymbolVisibility m).

Definition FeatureSet_with_utf8Validation (v : option Z) (m : FeatureSet) : FeatureSet :=
  mkFeatureSet (FeatureSet_fieldPresence m) (FeatureSet_enumType m)
    (FeatureSet_repeatedFieldEncoding m) v (FeatureSet_messageEncoding m) (FeatureSet_jsonFormat
    m) (FeatureSet_enforceNamingStyle m) (FeatureSet_defaultSymbolVisibility m).

Definition FeatureSet_with_messageEncoding (v : option Z) (m : FeatureSet) : FeatureSet :=
  mkFeatureSet (FeatureSet_fieldPresence m) (FeatureSet_enumType m)
    (FeatureSet_repeatedFieldEncoding m) (FeatureSet_utf8Validation m) v (FeatureSet_jsonFormat m)
    (FeatureSet_enforceNamingStyle m) (FeatureSet_defaultSymbolVisibility m).

Definition FeatureSet_with_jsonFormat (v : option Z) (m : FeatureSet) : FeatureSet :=
  mkFeatureSet (FeatureSet_fieldPresence m) (FeatureSet_enumType m)
    (FeatureSet_repeatedFieldEncoding m) (FeatureSet_utf8Validation m) (FeatureSet_messageEncoding
    m) v (FeatureSet_enforceNamingStyle m) (FeatureSet_defaultSymbolVisibility m).

Definition FeatureSet_with_enforceNamingStyle (v : option Z) (m : FeatureSet) : FeatureSet :=
  mkFeatureSet (FeatureSet_fieldPresence m) (FeatureSet_enumType m)
    (FeatureSet_repeatedFieldEncoding m) (FeatureSet_utf8Validation m) (FeatureSet_messageEncoding
    m) (FeatureSet_jsonFormat m) v (FeatureSet_defaultSymbolVisibility m).

Definition FeatureSet_with_defaultSymbolVisibility (v : option Z) (m : FeatureSet) : FeatureSet :=
  mkFeatureSet (FeatureSet_fieldPresence m) (FeatureSet_enumType m)
    (FeatureSet_repeatedFieldEncoding m) (FeatureSet_utf8Validation m) (FeatureSet_messageEncoding
    m) (FeatureSet_jsonFormat m) (FeatureSet_enforceNamingStyle m) v.

Definition createBaseFeatureSet : FeatureSet :=
  {| FeatureSet_fieldPresence := (Some 0);
     FeatureSet_enumType := (Some 0);
     FeatureSet_repeatedFieldEncoding := (Some 0);
     FeatureSet_utf8Validation := (Some 0);
     FeatureSet_messageEncoding := (Some 0);
     FeatureSet_jsonFormat := (Some 0);
     FeatureSet_enforceNamingStyle := (Some 0);
     FeatureSet_defaultSymbolVisibility := (Some 0) |}.

Definition FeatureSet_encode (message : FeatureSet) (w : writer) : jsres writer :=
  let* w := match FeatureSet_fieldPresence message with
             | Some v => if negb (v =? 0) then
                           let* w := w_uint32 (Int 8) w in w_int32 (Int v) w
                         else Ok w
             | None => Ok w
             end in
  let* w := match FeatureSet_enumType message with
             | Some v => if negb (v =? 0) then
                           let* w := w_uint32 (Int 16) w in w_int32 (Int v) w
                         else Ok w
             | None => Ok w
             end in
  let* w := match FeatureSet_repeatedFieldEncoding message with
             | Some v => if negb (v =? 0) then
                           let* w := w_uint32 (Int 24) w in w_int32 (Int v) w
                         else Ok w
             | None => Ok w
             end in
  let* w := match FeatureSet_utf8Validation message with
             | Some v => if negb (v =? 0) then
                           let* w := w_uint32 (Int 32) w in w_int32 (Int v) w
                         else Ok w
             | None => Ok w
             end in
  let* w := match FeatureSet_messageEncoding message with
             | Some v => if negb (v =? 0) then
                           let* w := w_uint32 (Int 40) w in w_int32 (Int v) w
                         else Ok w
             | None => Ok w
             end in
  let* w := match FeatureSet_jsonFormat message with
             | Some v => if negb (v =? 0) then
                           let* w := w_uint32 (Int 48) w in w_int32 (Int v) w
                         else Ok w
             | None => Ok w
             end in
  let* w := match FeatureSet_enforceNamingStyle message with
             | Some v => if negb (v =? 0) then
                           let* w := w_uint32 (Int 56) w in w_int32 (Int v) w
                         else Ok w
             | None => Ok w
             end in
  let* w := match FeatureSet_defaultSymbolVisibility message with
             | Some v => if negb (v =? 0) then
                           let* w := w_uint32 (Int 64) w in w_int32 (Int v) w
                         else Ok w
             | None => Ok w
             end in
  Ok w.

Definition FeatureSet_switch (fuel : nat) (tag : Z) (message : FeatureSet) (r : reader)
    : jsres (flow FeatureSet) :=
  let field := Z.shiftr tag 3 in
  if field =? 1 then
    if negb (tag =? 8) then Ok Break
    else
      let* (v, r) := r_int32 r in Ok (Continue (FeatureSet_with_fieldPresence (Some v) message) r)
  else if field =? 2 then
    if negb (tag =? 16) then Ok Break
    else
      let* (v, r) := r_int32 r in Ok (Continue (FeatureSet_with_enumType (Some v) message) r)
  else if field =? 3 then
    if negb (tag =? 24) then Ok Break
    else
      let* (v, r) := r_int32 r in
          Ok (Continue (FeatureSet_with_repeatedFieldEncoding (Some v) message) r)
  else if field =? 4 then
    if negb (tag =? 32) then Ok Break
    else
      let* (v, r) := r_int32 r in Ok (Continue (FeatureSet_with_utf8Validation (Some v) message) r)
  else if field =? 5 then
    if negb (tag =? 40) then Ok Break
    else
      let* (v, r) := r_int32 r in Ok (Continue (FeatureSet_with_messageEncoding (Some v) message) r)
  else if field =? 6 then
    if negb (tag =? 48) then Ok Break
    else
      let* (v, r) := r_int32 r in Ok (Continue (FeatureSet_with_jsonFormat (Some v) message) r)
  else if field =? 7 then
    if negb (tag =? 56) then Ok Break
    else
      let* (v, r) := r_int32 r in
          Ok (Continue (FeatureSet_with_enforceNamingStyle (Some v) message) r)
  else if field =? 8 then
    if negb (tag =? 64) then Ok Break
    else
      let* (v, r) := r_int32 r in
          Ok (Continue (FeatureSet_with_defaultSymbolVisibility (Some v) message) r)
  else Ok Break.

Definition FeatureSet_decode (fuel : nat) (i : input) (length : option Z)
    : jsres (FeatureSet * reader) :=
  decode_with (FeatureSet_switch fuel) createBaseFeatureSet fuel i length.

Definition FeatureSet_fromJSON (object : value) : jsres FeatureSet :=
  let* fieldPresence_ := field object "fieldPresence" (fun v => Ok (FeatureSet_FieldPresence_num
      (featureSet_FieldPresenceFromJSON v))) 0 in
  let* enumType_ := field object "enumType" (fun v => Ok (FeatureSet_EnumType_num
      (featureSet_EnumTypeFromJSON v))) 0 in
  let* repeatedFieldEncoding_ := field object "repeatedFieldEncoding" (fun v => Ok
      (FeatureSet_RepeatedFieldEncoding_num (featureSet_RepeatedFieldEncodingFromJSON v))) 0 in
  let* utf8Validation_ := field object "utf8Validation" (fun v => Ok (FeatureSet_Utf8Validation_num
      (featureSet_Utf8ValidationFromJSON v))) 0 in
  let* messageEncoding_ := field object "messageEncoding" (fun v => Ok
      (FeatureSet_MessageEncoding_num (featureSet_MessageEncodingFromJSON v))) 0 in
  let* jsonFormat_ := field object "jsonFormat" (fun v => Ok (FeatureSet_JsonFormat_num
      (featureSet_JsonFormatFromJSON v))) 0 in
  let* enforceNamingStyle_ := field object "enforceNamingStyle" (fun v => Ok
      (FeatureSet_EnforceNamingStyle_num (featureSet_EnforceNamingStyleFromJSON v))) 0 in
  let* defaultSymbolVisibility_ := field object "defaultSymbolVisibility" (fun v => Ok
      (FeatureSet_VisibilityFeature_DefaultSymbolVisibility_num
      (featureSet_VisibilityFeature_DefaultSymbolVisibilityFromJSON v))) 0 in
  Ok (mkFeatureSet (Some fieldPresence_) (Some enumType_) (Some repeatedFieldEncoding_) (Some
    utf8Validation_) (Some messageEncoding_) (Some jsonFormat_) (Some enforceNamingStyle_) (Some
    defaultSymbolVisibility_)).

Definition FeatureSet_toJSON (message : FeatureSet) : value :=
  let obj : props := [] in
  let obj := put_defined (FeatureSet_fieldPresence message) (fun v => negb (v =? 0))
    "fieldPresence" (fun v => VString (featureSet_FieldPresenceToJSON v)) obj in
  let obj := put_defined (FeatureSet_enumType message) (fun v => negb (v =? 0)) "enumType" (fun v
    => VString (featureSet_EnumTypeToJSON v)) obj in
  let obj := put_defined (FeatureSet_repeatedFieldEncoding message) (fun v => negb (v =? 0))
    "repeatedFieldEncoding" (fun v => VString (featureSet_RepeatedFieldEncodingToJSON v)) obj in
  let obj := put_defined (FeatureSet_utf8Validation message) (fun v => negb (v =? 0))
    "utf8Validation" (fun v => VString (featureSet_Utf8ValidationToJSON v)) obj in
  let obj := put_defined (FeatureSet_messageEncoding message) (fun v => negb (v =? 0))
    "messageEncoding" (fun v => VString (featureSet_MessageEncodingToJSON v)) obj in
  let obj := put_defined (FeatureSet_jsonFormat message) (fun v => negb (v =? 0)) "jsonFormat"
    (fun v => VString (featureSet_JsonFormatToJSON v)) obj in
  let obj := put_defined (FeatureSet_enforceNamingStyle message) (fun v => negb (v =? 0))
    "enforceNamingStyle" (fun v => VString (featureSet_EnforceNamingStyleToJSON v)) obj in
  let obj := put_defined (FeatureSet_defaultSymbolVisibility message) (fun v => negb (v =? 0))
    "defaultSymbolVisibility" (fun v => VString
    (featureSet_VisibilityFeature_DefaultSymbolVisibilityToJSON v)) obj in
  VObject obj.

Definition FeatureSet_fromPartial (object : FeatureSet_Partial) : FeatureSet :=
  let message := createBaseFeatureSet in
  let message := FeatureSet_with_fieldPresence (Some (nullish (FeatureSet_p_fieldPresence object)
      0)) message in
  let message := FeatureSet_with_enumType (Some (nullish (FeatureSet_p_enumType object) 0))
      message in
  let message := FeatureSet_with_repeatedFieldEncoding (Some (nullish
      (FeatureSet_p_repeatedFieldEncoding object) 0)) message in
  let message := FeatureSet_with_utf8Validation (Some (nullish (FeatureSet_p_utf8Validation object)
      0)) message in
  let message := FeatureSet_with_messageEncoding (Some (nullish (FeatureSet_p_messageEncoding
      object) 0)) message in
  let message := FeatureSet_with_jsonFormat (Some (nullish (FeatureSet_p_jsonFormat object) 0))
      message in
  let message := FeatureSet_with_enforceNamingStyle (Some (nullish (FeatureSet_p_enforceNamingStyle
      object) 0)) message in
  let message := FeatureSet_with_defaultSymbolVisibility (Some (nullish
      (FeatureSet_p_defaultSymbolVisibility object) 0)) message in
  message.

Definition FeatureSet_create (base : option FeatureSet_Partial) : FeatureSet :=
  FeatureSet_fromPartial (nullish base (mkFeatureSet_Partial None None None None None None None
      None)).

Definition FeatureSet_toPartial (m : FeatureSet) : FeatureSet_Partial :=
  mkFeatureSet_Partial (FeatureSet_fieldPresence m) (FeatureSet_enumType m)
    (FeatureSet_repeatedFieldEncoding m) (FeatureSet_utf8Validation m) (FeatureSet_messageEncoding
    m) (FeatureSet_jsonFormat m) (FeatureSet_enforceNamingStyle m)
    (FeatureSet_defaultSymbolVisibility m).

(** ** [FieldOptions_FeatureSupport] *)

Record FieldOptions_FeatureSupport : Type := mkFieldOptions_FeatureSupport {
  FieldOptions_FeatureSupport_editionIntroduced : option Z;
  FieldOptions_FeatureSupport_editionDeprecated : option Z;
  FieldOptions_FeatureSupport_deprecationWarning : option jsstring;
  FieldOptions_FeatureSupport_editionRemoved : option Z
}.

Record FieldOptions_FeatureSupport_Partial : Type := mkFieldOptions_FeatureSupport_Partial {
  FieldOptions_FeatureSupport_p_editionIntroduced : option Z;
  FieldOptions_FeatureSupport_p_editionDeprecated : option Z;
  FieldOptions_FeatureSupport_p_deprecationWarning : option jsstring;
  FieldOptions_FeatureSupport_p_editionRemoved : option Z
}.

Definition FieldOptions_FeatureSupport_with_editionIntroduced (v : option Z)
    (m : FieldOptions_FeatureSupport) : FieldOptions_FeatureSupport :=
  mkFieldOptions_FeatureSupport v (FieldOptions_FeatureSupport_editionDeprecated m)
    (FieldOptions_FeatureSupport_deprecationWarning m) (FieldOptions_FeatureSupport_editionRemoved
    m).

Definition FieldOptions_FeatureSupport_with_editionDeprecated (v : option Z)
    (m : FieldOptions_FeatureSupport) : FieldOptions_FeatureSupport :=
  mkFieldOptions_FeatureSupport (FieldOptions_FeatureSupport_editionIntroduced m) v
    (FieldOptions_FeatureSupport_deprecationWarning m) (FieldOptions_FeatureSupport_editionRemoved
    m).

Definition FieldOptions_FeatureSupport_with_deprecationWarning (v : option jsstring)
    (m : FieldOptions_FeatureSupport) : FieldOptions_FeatureSupport :=
  mkFieldOptions_FeatureSupport (FieldOptions_FeatureSupport_editionIntroduced m)
    (FieldOptions_FeatureSupport_editionDeprecated m) v
    (FieldOptions_FeatureSupport_editionRemoved m).

Definition FieldOptions_FeatureSupport_with_editionRemoved (v : option Z)
    (m : FieldOptions_FeatureSupport) : FieldOptions_FeatureSupport :=
  mkFieldOptions_FeatureSupport (FieldOptions_FeatureSupport_editionIntroduced m)
    (FieldOptions_FeatureSupport_editionDeprecated m)
    (FieldOptions_FeatureSupport_deprecationWarning m) v.

Definition createBaseFieldOptions_FeatureSupport : FieldOptions_FeatureSupport :=
  {| FieldOptions_FeatureSupport_editionIntroduced := (Some 0);
     FieldOptions_FeatureSupport_editionDeprecated := (Some 0);
     FieldOptions_FeatureSupport_deprecationWarning := (Some (js ""));
     FieldOptions_FeatureSupport_editionRemoved := (Some 0) |}.

Definition FieldOptions_FeatureSupport_encode (message : FieldOptions_FeatureSupport) (w : writer)
    : jsres writer :=
  let* w := match FieldOptions_FeatureSupport_editionIntroduced message with
             | Some v => if negb (v =? 0) then
                           let* w := w_uint32 (Int 8) w in w_int32 (Int v) w
                         else Ok w
             | None => Ok w
             end in
  let* w := match FieldOptions_FeatureSupport_editionDeprecated message with
             | Some v => if negb (v =? 0) then
                           let* w := w_uint32 (Int 16) w in w_int32 (Int v) w
                         else Ok w
             | None => Ok w
             end in
  let* w := match FieldOptions_FeatureSupport_deprecationWarning message with
             | Some v => if negb (str_eqb v (js "")) then
                           let* w := w_uint32 (Int 26) w in w_string v w
                         else Ok w
             | None => Ok w
             end in
  let* w := match FieldOptions_FeatureSupport_editionRemoved message with
             | Some v => if negb (v =? 0) then
                           let* w := w_uint32 (Int 32) w in w_int32 (Int v) w
                         else Ok w
             | None => Ok w
             end in
  Ok w.

Definition FieldOptions_FeatureSupport_switch (fuel : nat) (tag : Z)
    (message : FieldOptions_FeatureSupport) (r : reader)
    : jsres (flow FieldOptions_FeatureSupport) :=
  let field := Z.shiftr tag 3 in
  if field =? 1 then
    if negb (tag =? 8) then Ok Break
    else
      let* (v, r) := r_int32 r in
          Ok (Continue (FieldOptions_FeatureSupport_with_editionIntroduced (Some v) message) r)
  else if field =? 2 then
    if negb (tag =? 16) then Ok Break
    else
      let* (v, r) := r_int32 r in
          Ok (Continue (FieldOptions_FeatureSupport_with_editionDeprecated (Some v) message) r)
  else if field =? 3 then
    if negb (tag =? 26) then Ok Break
    else
      let* (v, r) := r_string r in
          Ok (Continue (FieldOptions_FeatureSupport_with_deprecationWarning (Some v) message) r)
  else if field =? 4 then
    if negb (tag =? 32) then Ok Break
    else
      let* (v, r) := r_int32 r in
          Ok (Continue (FieldOptions_FeatureSupport_with_editionRemoved (Some v) message) r)
  else Ok Break.

Definition FieldOptions_FeatureSupport_decode (fuel : nat) (i : input) (length : option Z)
    : jsres (FieldOptions_FeatureSupport * reader) :=
  decode_with (FieldOptions_FeatureSupport_switch fuel) createBaseFieldOptions_FeatureSupport fuel
      i length.

Definition FieldOptions_FeatureSupport_fromJSON (object : value)
    : jsres FieldOptions_FeatureSupport :=
  let* editionIntroduced_ := field object "editionIntroduced" (fun v => Ok (Edition_num
      (editionFromJSON v))) 0 in
  let* editionDeprecated_ := field object "editionDeprecated" (fun v => Ok (Edition_num
      (editionFromJSON v))) 0 in
  let* deprecationWarning_ := field object "deprecationWarning" to_string (js "") in
  let* editionRemoved_ := field object "editionRemoved" (fun v => Ok (Edition_num (editionFromJSON
      v))) 0 in
  Ok (mkFieldOptions_FeatureSupport (Some editionIntroduced_) (Some editionDeprecated_) (Some
    deprecationWarning_) (Some editionRemoved_)).

Definition FieldOptions_FeatureSupport_toJSON (message : FieldOptions_FeatureSupport) : value :=
  let obj : props := [] in
  let obj := put_defined (FieldOptions_FeatureSupport_editionIntroduced message) (fun v => negb (v
    =? 0)) "editionIntroduced" (fun v => VString (editionToJSON v)) obj in
  let obj := put_defined (FieldOptions_FeatureSupport_editionDeprecated message) (fun v => negb (v
    =? 0)) "editionDeprecated" (fun v => VString (editionToJSON v)) obj in
  let obj := put_defined (FieldOptions_FeatureSupport_deprecationWarning message) (fun v => negb
    (str_eqb v (js ""))) "deprecationWarning" (fun v => VString v) obj in
  let obj := put_defined (FieldOptions_FeatureSupport_editionRemoved message) (fun v => negb (v =?
    0)) "editionRemoved" (fun v => VString (editionToJSON v)) obj in
  VObject obj.

Definition FieldOptions_FeatureSupport_fromPartial (object : FieldOptions_FeatureSupport_Partial)
    : FieldOptions_FeatureSupport :=
  let message := createBaseFieldOptions_FeatureSupport in
  let message := FieldOptions_FeatureSupport_with_editionIntroduced (Some (nullish
      (FieldOptions_FeatureSupport_p_editionIntroduced object) 0)) message in
  let message := FieldOptions_FeatureSupport_with_editionDeprecated (Some (nullish
      (FieldOptions_FeatureSupport_p_editionDeprecated object) 0)) message in
  let message := FieldOptions_FeatureSupport_with_deprecationWarning (Some (nullish
      (FieldOptions_FeatureSupport_p_deprecationWarning object) (js ""))) message in
  let message := FieldOptions_FeatureSupport_with_editionRemoved (Some (nullish
      (FieldOptions_FeatureSupport_p_editionRemoved object) 0)) message in
  message.

Definition FieldOptions_FeatureSupport_create (base : option FieldOptions_FeatureSupport_Partial)
    : FieldOptions_FeatureSupport :=
  FieldOptions_FeatureSupport_fromPartial (nullish base (mkFieldOptions_FeatureSupport_Partial None
      None None None)).

Definition FieldOptions_FeatureSupport_toPartial (m : FieldOptions_FeatureSupport)
    : FieldOptions_FeatureSupport_Partial :=
  mkFieldOptions_FeatureSupport_Partial (FieldOptions_FeatureSupport_editionIntroduced m)
    (FieldOptions_FeatureSupport_editionDeprecated m)
    (FieldOptions_FeatureSupport_deprecationWarning m) (FieldOptions_FeatureSupport_editionRemoved
    m).

(** ** [UninterpretedOption_NamePart] *)

Record UninterpretedOption_NamePart : Type := mkUninterpretedOption_NamePart {
  UninterpretedOption_NamePart_namePart : jsstring;
  UninterpretedOption_NamePart_isExtension : bool
}.

Record UninterpretedOption_NamePart_Partial : Type := mkUninterpretedOption_NamePart_Partial {
  UninterpretedOption_NamePart_p_namePart : option jsstring;
  UninterpretedOption_NamePart_p_isExtension : option bool
}.

Definition UninterpretedOption_NamePart_with_namePart (v : jsstring)
    (m : UninterpretedOption_NamePart) : UninterpretedOption_NamePart :=
  mkUninterpretedOption_NamePart v (UninterpretedOption_NamePart_isExtension m).

Definition UninterpretedOption_NamePart_with_isExtension (v : bool)
    (m : UninterpretedOption_NamePart) : UninterpretedOption_NamePart :=
  mkUninterpretedOption_NamePart (UninterpretedOption_NamePart_namePart m) v.

Definition createBaseUninterpretedOption_NamePart : UninterpretedOption_NamePart :=
  {| UninterpretedOption_NamePart_namePart := (js "");
     UninterpretedOption_NamePart_isExtension := false |}.

Definition UninterpretedOption_NamePart_encode (message : UninterpretedOption_NamePart)
    (w : writer) : jsres writer :=
  let* w := if negb (str_eqb (UninterpretedOption_NamePart_namePart message) (js "")) then
               let* w := w_uint32 (Int 10) w in
                   w_string (UninterpretedOption_NamePart_namePart message) w
             else Ok w in
  let* w := if negb (Bool.eqb (UninterpretedOption_NamePart_isExtension message) false) then
               let* w := w_uint32 (Int 16) w in
                   w_bool (UninterpretedOption_NamePart_isExtension message) w
             else Ok w in
  Ok w.

Definition UninterpretedOption_NamePart_switch (fuel : nat) (tag : Z)
    (message : UninterpretedOption_NamePart) (r : reader)
    : jsres (flow UninterpretedOption_NamePart) :=
  let field := Z.shiftr tag 3 in
  if field =? 1 then
    if negb (tag =? 10) then Ok Break
    else
      let* (v, r) := r_string r in
          Ok (Continue (UninterpretedOption_NamePart_with_namePart v message) r)
  else if field =? 2 then
    if negb (tag =? 16) then Ok Break
    else
      let* (v, r) := r_bool r in
          Ok (Continue (UninterpretedOption_NamePart_with_isExtension v message) r)
  else Ok Break.

Definition UninterpretedOption_NamePart_decode (fuel : nat) (i : input) (length : option Z)
    : jsres (UninterpretedOption_NamePart * reader) :=
  decode_with (UninterpretedOption_NamePart_switch fuel)
      createBaseUninterpretedOption_NamePart fuel i length.

Definition UninterpretedOption_NamePart_fromJSON (object : value)
    : jsres UninterpretedOption_NamePart :=
  let* namePart_ := field object "namePart" to_string (js "") in
  let* isExtension_ := field object "isExtension" to_bool false in
  Ok (mkUninterpretedOption_NamePart namePart_ isExtension_).

Definition UninterpretedOption_NamePart_toJSON (message : UninterpretedOption_NamePart) : value :=
  let obj : props := [] in
  let obj := put_if (negb (str_eqb (UninterpretedOption_NamePart_namePart message) (js "")))
    "namePart" (VString (UninterpretedOption_NamePart_namePart message)) obj in
  let obj := put_if (negb (Bool.eqb (UninterpretedOption_NamePart_isExtension message) false))
    "isExtension" (VBool (UninterpretedOption_NamePart_isExtension message)) obj in
  VObject obj.

Definition UninterpretedOption_NamePart_fromPartial (object : UninterpretedOption_NamePart_Partial)
    : UninterpretedOption_NamePart :=
  let message := createBaseUninterpretedOption_NamePart in
  let message := UninterpretedOption_NamePart_with_namePart (nullish
      (UninterpretedOption_NamePart_p_namePart object) (js "")) message in
  let message := UninterpretedOption_NamePart_with_isExtension (nullish
      (UninterpretedOption_NamePart_p_isExtension object) false) message in
  message.

Definition UninterpretedOption_NamePart_create (base : option UninterpretedOption_NamePart_Partial)
    : UninterpretedOption_NamePart :=
  UninterpretedOption_NamePart_fromPartial (nullish base (mkUninterpretedOption_NamePart_Partial
      None None)).

Definition UninterpretedOption_NamePart_toPartial (m : UninterpretedOption_NamePart)
    : UninterpretedOption_NamePart_Partial :=
  mkUninterpretedOption_NamePart_Partial (Some (UninterpretedOption_NamePart_namePart m)) (Some
    (UninterpretedOption_NamePart_isExtension m)).

(** ** [UninterpretedOption] *)

Record UninterpretedOption : Type := mkUninterpretedOption {
  UninterpretedOption_name : list UninterpretedOption_NamePart;
  UninterpretedOption_identifierValue : option jsstring;
  UninterpretedOption_positiveIntValue : option number;
  UninterpretedOption_negativeIntValue : option number;
  UninterpretedOption_doubleValue : option number;
  UninterpretedOption_stringValue : option bytes;
  UninterpretedOption_aggregateValue : option jsstring
}.

Record UninterpretedOption_Partial : Type := mkUninterpretedOption_Partial {
  UninterpretedOption_p_name : option (list UninterpretedOption_NamePart_Partial);
  UninterpretedOption_p_identifierValue : option jsstring;
  UninterpretedOption_p_positiveIntValue : option number;
  UninterpretedOption_p_negativeIntValue : option number;
  UninterpretedOption_p_doubleValue : option number;
  UninterpretedOption_p_stringValue : option bytes;
  UninterpretedOption_p_aggregateValue : option jsstring
}.

Definition UninterpretedOption_with_name (v : list UninterpretedOption_NamePart)
    (m : UninterpretedOption) : UninterpretedOption :=
  mkUninterpretedOption v (UninterpretedOption_identifierValue m)
    (UninterpretedOption_positiveIntValue m) (UninterpretedOption_negativeIntValue m)
    (UninterpretedOption_doubleValue m) (UninterpretedOption_stringValue m)
    (UninterpretedOption_aggregateValue m).

Definition UninterpretedOption_with_identifierValue (v : option jsstring) (m : UninterpretedOption)
    : UninterpretedOption :=
  mkUninterpretedOption (UninterpretedOption_name m) v (UninterpretedOption_positiveIntValue m)
    (UninterpretedOption_negativeIntValue m) (UninterpretedOption_doubleValue m)
    (UninterpretedOption_stringValue m) (UninterpretedOption_aggregateValue m).

Definition UninterpretedOption_with_positiveIntValue (v : option number) (m : UninterpretedOption)
    : UninterpretedOption :=
  mkUninterpretedOption (UninterpretedOption_name m) (UninterpretedOption_identifierValue m) v
    (UninterpretedOption_negativeIntValue m) (UninterpretedOption_doubleValue m)
    (UninterpretedOption_stringValue m) (UninterpretedOption_aggregateValue m).

Definition UninterpretedOption_with_negativeIntValue (v : option number) (m : UninterpretedOption)
    : UninterpretedOption :=
  mkUninterpretedOption (UninterpretedOption_name m) (UninterpretedOption_identifierValue m)
    (UninterpretedOption_positiveIntValue m) v (UninterpretedOption_doubleValue m)
    (UninterpretedOption_stringValue m) (UninterpretedOption_aggregateValue m).

Definition UninterpretedOption_with_doubleValue (v : option number) (m : UninterpretedOption)
    : UninterpretedOption :=
  mkUninterpretedOption (UninterpretedOption_name m) (UninterpretedOption_identifierValue m)
    (UninterpretedOption_positiveIntValue m) (UninterpretedOption_negativeIntValue m) v
    (UninterpretedOption_stringValue m) (UninterpretedOption_aggregateValue m).

Definition UninterpretedOption_with_stringValue (v : option bytes) (m : UninterpretedOption)
    : UninterpretedOption :=
  mkUninterpretedOption (UninterpretedOption_name m) (UninterpretedOption_identifierValue m)
    (UninterpretedOption_positiveIntValue m) (UninterpretedOption_negativeIntValue m)
    (UninterpretedOption_doubleValue m) v (UninterpretedOption_aggregateValue m).

Definition UninterpretedOption_with_aggregateValue (v : option jsstring) (m : UninterpretedOption)
    : UninterpretedOption :=
  mkUninterpretedOption (UninterpretedOption_name m) (UninterpretedOption_identifierValue m)
    (UninterpretedOption_positiveIntValue m) (UninterpretedOption_negativeIntValue m)
    (UninterpretedOption_doubleValue m) (UninterpretedOption_stringValue m) v.

Definition createBaseUninterpretedOption : UninterpretedOption :=
  {| UninterpretedOption_name := [];
     UninterpretedOption_identifierValue := (Some (js ""));
     UninterpretedOption_positiveIntValue := (Some (Int 0));
     UninterpretedOption_negativeIntValue := (Some (Int 0));
     UninterpretedOption_doubleValue := (Some (Int 0));
     UninterpretedOption_stringValue := (Some []);
     UninterpretedOption_aggregateValue := (Some (js "")) |}.

Definition UninterpretedOption_encode (message : UninterpretedOption) (w : writer) : jsres writer :=
  let* w := for_each (fun v w => let* w := w_uint32 (Int 18) w in
                               let* w := UninterpretedOption_NamePart_encode v (fork w) in w_join w)
               (UninterpretedOption_name message) w in
  let* w := match UninterpretedOption_identifierValue message with
             | Some v => if negb (str_eqb v (js "")) then
                           let* w := w_uint32 (Int 26) w in w_string v w
                         else Ok w
             | None => Ok w
             end in
  let* w := match UninterpretedOption_positiveIntValue message with
             | Some v => if negb (num_eqb v (Int 0)) then
                           let* w := w_uint32 (Int 32) w in w_uint64 v w
                         else Ok w
             | None => Ok w
             end in
  let* w := match UninterpretedOption_negativeIntValue message with
             | Some v => if negb (num_eqb v (Int 0)) then
                           let* w := w_uint32 (Int 40) w in w_int64 v w
                         else Ok w
             | None => Ok w
             end in
  let* w := match UninterpretedOption_doubleValue message with
             | Some v => if negb (num_eqb v (Int 0)) then
                           let* w := w_uint32 (Int 49) w in w_double v w
                         else Ok w
             | None => Ok w
             end in
  let* w := match UninterpretedOption_stringValue message with
             | Some v => if has_length v then
                           let* w := w_uint32 (Int 58) w in w_bytes v w
                         else Ok w
             | None => Ok w
             end in
  let* w := match UninterpretedOption_aggregateValue message with
             | Some v => if negb (str_eqb v (js "")) then
                           let* w := w_uint32 (Int 66) w in w_string v w
                         else Ok w
             | None => Ok w
             end in
  Ok w.

Definition UninterpretedOption_switch (fuel : nat) (tag : Z) (message : UninterpretedOption)
    (r : reader)
    : jsres (flow UninterpretedOption) :=
  let field := Z.shiftr tag 3 in
  if field =? 2 then
    if negb (tag =? 18) then Ok Break
    else
      let* (l, r) := r_uint32 r in
      let* (v, r) := UninterpretedOption_NamePart_decode fuel (InReader r) (Some l) in
      Ok (Continue (UninterpretedOption_with_name (UninterpretedOption_name message ++ [v])
          message) r)
  else if field =? 3 then
    if negb (tag =? 26) then Ok Break
    else
      let* (v, r) := r_string r in
          Ok (Continue (UninterpretedOption_with_identifierValue (Some v) message) r)
  else if field =? 4 then
    if negb (tag =? 32) then Ok Break
    else
      let* (v, r) := longToNumber_of r_uint64 r in
          Ok (Continue (UninterpretedOption_with_positiveIntValue (Some v) message) r)
  else if field =? 5 then
    if negb (tag =? 40) then Ok Break
    else
      let* (v, r) := longToNumber_of r_int64 r in
          Ok (Continue (UninterpretedOption_with_negativeIntValue (Some v) message) r)
  else if field =? 6 then
    if negb (tag =? 49) then Ok Break
    else
      let* (v, r) := r_double r in
          Ok (Continue (UninterpretedOption_with_doubleValue (Some v) message) r)
  else if field =? 7 then
    if negb (tag =? 58) then Ok Break
    else
      let* (v, r) := r_bytes r in
          Ok (Continue (UninterpretedOption_with_stringValue (Some v) message) r)
  else if field =? 8 then
    if negb (tag =? 66) then Ok Break
    else
      let* (v, r) := r_string r in
          Ok (Continue (UninterpretedOption_with_aggregateValue (Some v) message) r)
  else Ok Break.

Definition UninterpretedOption_decode (fuel : nat) (i : input) (length : option Z)
    : jsres (UninterpretedOption * reader) :=
  decode_with (UninterpretedOption_switch fuel) createBaseUninterpretedOption fuel i length.

Definition UninterpretedOption_fromJSON (object : value) : jsres UninterpretedOption :=
  let* name_ := array_field object "name" UninterpretedOption_NamePart_fromJSON in
  let* identifierValue_ := field object "identifierValue" to_string (js "") in
  let* positiveIntValue_ := field object "positiveIntValue" to_number (Int 0) in
  let* negativeIntValue_ := field object "negativeIntValue" to_number (Int 0) in
  let* doubleValue_ := field object "doubleValue" to_number (Int 0) in
  let* stringValue_ := field object "stringValue" bytesFromBase64 [] in
  let* aggregateValue_ := field object "aggregateValue" to_string (js "") in
  Ok (mkUninterpretedOption name_ (Some identifierValue_) (Some positiveIntValue_) (Some
    negativeIntValue_) (Some doubleValue_) (Some stringValue_) (Some aggregateValue_)).

Definition UninterpretedOption_toJSON (message : UninterpretedOption) : value :=
  let obj : props := [] in
  let obj := put_if (has_length (UninterpretedOption_name message)) "name" (VArray (map
    UninterpretedOption_NamePart_toJSON (UninterpretedOption_name message))) obj in
  let obj := put_defined (UninterpretedOption_identifierValue message) (fun v => negb (str_eqb v
    (js ""))) "identifierValue" (fun v => VString v) obj in
  let obj := put_defined (UninterpretedOption_positiveIntValue message) (fun v => negb (num_eqb v
    (Int 0))) "positiveIntValue" (fun v => VNumber (math_round v)) obj in
  let obj := put_defined (UninterpretedOption_negativeIntValue message) (fun v => negb (num_eqb v
    (Int 0))) "negativeIntValue" (fun v => VNumber (math_round v)) obj in
  let obj := put_defined (UninterpretedOption_doubleValue message) (fun v => negb (num_eqb v (Int
    0))) "doubleValue" (fun v => VNumber v) obj in
  let obj := put_defined (UninterpretedOption_stringValue message) has_length "stringValue" (fun v
    => VString (base64FromBytes v)) obj in
  let obj := put_defined (UninterpretedOption_aggregateValue message) (fun v => negb (str_eqb v
    (js ""))) "aggregateValue" (fun v => VString v) obj in
  VObject obj.

Definition UninterpretedOption_fromPartial (object : UninterpretedOption_Partial)
    : UninterpretedOption :=
  let message := createBaseUninterpretedOption in
  let message := UninterpretedOption_with_name (nullish (option_map (map
      UninterpretedOption_NamePart_fromPartial) (UninterpretedOption_p_name object)) []) message in
  let message := UninterpretedOption_with_identifierValue (Some (nullish
      (UninterpretedOption_p_identifierValue object) (js ""))) message in
  let message := UninterpretedOption_with_positiveIntValue (Some (nullish
      (UninterpretedOption_p_positiveIntValue object) (Int 0))) message in
  let message := UninterpretedOption_with_negativeIntValue (Some (nullish
      (UninterpretedOption_p_negativeIntValue object) (Int 0))) message in
  let message := UninterpretedOption_with_doubleValue (Some (nullish
      (UninterpretedOption_p_doubleValue object) (Int 0))) message in
  let message := UninterpretedOption_with_stringValue (Some (nullish
      (UninterpretedOption_p_stringValue object) [])) message in
  let message := UninterpretedOption_with_aggregateValue (Some (nullish
      (UninterpretedOption_p_aggregateValue object) (js ""))) message in
  message.

Definition UninterpretedOption_create (base : option UninterpretedOption_Partial)
    : UninterpretedOption :=
  UninterpretedOption_fromPartial (nullish base (mkUninterpretedOption_Partial None None None None
      None None None)).

Definition UninterpretedOption_toPartial (m : UninterpretedOption) : UninterpretedOption_Partial :=
  mkUninterpretedOption_Partial (Some (map UninterpretedOption_NamePart_toPartial
    (UninterpretedOption_name m))) (UninterpretedOption_identifierValue m)
    (UninterpretedOption_positiveIntValue m) (UninterpretedOption_negativeIntValue m)
    (UninterpretedOption_doubleValue m) (UninterpretedOption_stringValue m)
    (UninterpretedOption_aggregateValue m).

(** ** [FieldOptions] *)

Record FieldOptions : Type := mkFieldOptions {
  FieldOptions_ctype : option Z;
  FieldOptions_packed : option bool;
  FieldOptions_jstype : option Z;
  FieldOptions_lazy : option bool;
  FieldOptions_unverifiedLazy : option bool;
  FieldOptions_deprecated : option bool;
  FieldOptions_weak : option bool;
  FieldOptions_debugRedact : option bool;
  FieldOptions_retention : option Z;
  FieldOptions_targets : list Z;
  FieldOptions_editionDefaults : list FieldOptions_EditionDefault;
  FieldOptions_features : option FeatureSet;
  FieldOptions_featureSupport : option FieldOptions_FeatureSupport;
  FieldOptions_uninterpretedOption : list UninterpretedOption
}.

Record FieldOptions_Partial : Type := mkFieldOptions_Partial {
  FieldOptions_p_ctype : option Z;
  FieldOptions_p_packed : option bool;
  FieldOptions_p_jstype : option Z;
  FieldOptions_p_lazy : option bool;
  FieldOptions_p_unverifiedLazy : option bool;
  FieldOptions_p_deprecated : option bool;
  FieldOptions_p_weak : option bool;
  FieldOptions_p_debugRedact : option bool;
  FieldOptions_p_retention : option Z;
  FieldOptions_p_targets : option (list Z);
  FieldOptions_p_editionDefaults : option (list FieldOptions_EditionDefault_Partial);
  FieldOptions_p_features : option FeatureSet_Partial;
  FieldOptions_p_featureSupport : option FieldOptions_FeatureSupport_Partial;
  FieldOptions_p_uninterpretedOption : option (list UninterpretedOption_Partial)
}.

Definition FieldOptions_with_ctype (v : option Z) (m : FieldOptions) : FieldOptions :=
  mkFieldOptions v (FieldOptions_packed m) (FieldOptions_jstype m) (FieldOptions_lazy m)
    (FieldOptions_unverifiedLazy m) (FieldOptions_deprecated m) (FieldOptions_weak m)
    (FieldOptions_debugRedact m) (FieldOptions_retention m) (FieldOptions_targets m)
    (FieldOptions_editionDefaults m) (FieldOptions_features m) (FieldOptions_featureSupport m)
    (FieldOptions_uninterpretedOption m).

Definition FieldOptions_with_packed (v : option bool) (m : FieldOptions) : FieldOptions :=
  mkFieldOptions (FieldOptions_ctype m) v (FieldOptions_jstype m) (FieldOptions_lazy m)
    (FieldOptions_unverifiedLazy m) (FieldOptions_deprecated m) (FieldOptions_weak m)
    (FieldOptions_debugRedact m) (FieldOptions_retention m) (FieldOptions_targets m)
    (FieldOptions_editionDefaults m) (FieldOptions_features m) (FieldOptions_featureSupport m)
    (FieldOptions_uninterpretedOption m).

Definition FieldOptions_with_jstype (v : option Z) (m : FieldOptions) : FieldOptions :=
  mkFieldOptions (FieldOptions_ctype m) (FieldOptions_packed m) v (FieldOptions_lazy m)
    (FieldOptions_unverifiedLazy m) (FieldOptions_deprecated m) (FieldOptions_weak m)
    (FieldOptions_debugRedact m) (FieldOptions_retention m) (FieldOptions_targets m)
    (FieldOptions_editionDefaults m) (FieldOptions_features m) (FieldOptions_featureSupport m)
    (FieldOptions_uninterpretedOption m).

Definition FieldOptions_with_lazy (v : option bool) (m : FieldOptions) : FieldOptions :=
  mkFieldOptions (FieldOptions_ctype m) (FieldOptions_packed m) (FieldOptions_jstype m) v
    (FieldOptions_unverifiedLazy m) (FieldOptions_deprecated m) (FieldOptions_weak m)
    (FieldOptions_debugRedact m) (FieldOptions_retention m) (FieldOptions_targets m)
    (FieldOptions_editionDefaults m) (FieldOptions_features m) (FieldOptions_featureSupport m)
    (FieldOptions_uninterpretedOption m).

Definition FieldOptions_with_unverifiedLazy (v : option bool) (m : FieldOptions) : FieldOptions :=
  mkFieldOptions (FieldOptions_ctype m) (FieldOptions_packed m) (FieldOptions_jstype m)
    (FieldOptions_lazy m) v (FieldOptions_deprecated m) (FieldOptions_weak m)
    (FieldOptions_debugRedact m) (FieldOptions_retention m) (FieldOptions_targets m)
    (FieldOptions_editionDefaults m) (FieldOptions_features m) (FieldOptions_featureSupport m)
    (FieldOptions_uninterpretedOption m).

Definition FieldOptions_with_deprecated (v : option bool) (m : FieldOptions) : FieldOptions :=
  mkFieldOptions (FieldOptions_ctype m) (FieldOptions_packed m) (FieldOptions_jstype m)
    (FieldOptions_lazy m) (FieldOptions_unverifiedLazy m) v (FieldOptions_weak m)
    (FieldOptions_debugRedact m) (FieldOptions_retention m) (FieldOptions_targets m)
    (FieldOptions_editionDefaults m) (FieldOptions_features m) (FieldOptions_featureSupport m)
    (FieldOptions_uninterpretedOption m).

Definition FieldOptions_with_weak (v : option bool) (m : FieldOptions) : FieldOptions :=
  mkFieldOptions (FieldOptions_ctype m) (FieldOptions_packed m) (FieldOptions_jstype m)
    (FieldOptions_lazy m) (FieldOptions_unverifiedLazy m) (FieldOptions_deprecated m) v
    (FieldOptions_debugRedact m) (FieldOptions_retention m) (FieldOptions_targets m)
    (FieldOptions_editionDefaults m) (FieldOptions_features m) (FieldOptions_featureSupport m)
    (FieldOptions_uninterpretedOption m).

Definition FieldOptions_with_debugRedact (v : option bool) (m : FieldOptions) : FieldOptions :=
  mkFieldOptions (FieldOptions_ctype m) (FieldOptions_packed m) (FieldOptions_jstype m)
    (FieldOptions_lazy m) (FieldOptions_unverifiedLazy m) (FieldOptions_deprecated m)
    (FieldOptions_weak m) v (FieldOptions_retention m) (FieldOptions_targets m)
    (FieldOptions_editionDefaults m) (FieldOptions_features m) (FieldOptions_featureSupport m)
    (FieldOptions_uninterpretedOption m).

Definition FieldOptions_with_retention (v : option Z) (m : FieldOptions) : FieldOptions :=
  mkFieldOptions (FieldOptions_ctype m) (FieldOptions_packed m) (FieldOptions_jstype m)
    (FieldOptions_lazy m) (FieldOptions_unverifiedLazy m) (FieldOptions_deprecated m)
    (FieldOptions_weak m) (FieldOptions_debugRedact m) v (FieldOptions_targets m)
    (FieldOptions_editionDefaults m) (FieldOptions_features m) (FieldOptions_featureSupport m)
    (FieldOptions_uninterpretedOption m).

Definition FieldOptions_with_targets (v : list Z) (m : FieldOptions) : FieldOptions :=
  mkFieldOptions (FieldOptions_ctype m) (FieldOptions_packed m) (FieldOptions_jstype m)
    (FieldOptions_lazy m) (FieldOptions_unverifiedLazy m) (FieldOptions_deprecated m)
    (FieldOptions_weak m) (FieldOptions_debugRedact m) (FieldOptions_retention m) v
    (FieldOptions_editionDefaults m) (FieldOptions_features m) (FieldOptions_featureSupport m)
    (FieldOptions_uninterpretedOption m).

Definition FieldOptions_with_editionDefaults (v : list FieldOptions_EditionDefault)
    (m : FieldOptions) : FieldOptions :=
  mkFieldOptions (FieldOptions_ctype m) (FieldOptions_packed m) (FieldOptions_jstype m)
    (FieldOptions_lazy m) (FieldOptions_unverifiedLazy m) (FieldOptions_deprecated m)
    (FieldOptions_weak m) (FieldOptions_debugRedact m) (FieldOptions_retention m)
    (FieldOptions_targets m) v (FieldOptions_features m) (FieldOptions_featureSupport m)
    (FieldOptions_uninterpretedOption m).

Definition FieldOptions_with_features (v : option FeatureSet) (m : FieldOptions) : FieldOptions :=
  mkFieldOptions (FieldOptions_ctype m) (FieldOptions_packed m) (FieldOptions_jstype m)
    (FieldOptions_lazy m) (FieldOptions_unverifiedLazy m) (FieldOptions_deprecated m)
    (FieldOptions_weak m) (FieldOptions_debugRedact m) (FieldOptions_retention m)
    (FieldOptions_targets m) (FieldOptions_editionDefaults m) v (FieldOptions_featureSupport m)
    (FieldOptions_uninterpretedOption m).

Definition FieldOptions_with_featureSupport (v : option FieldOptions_FeatureSupport)
    (m : FieldOptions) : FieldOptions :=
  mkFieldOptions (FieldOptions_ctype m) (FieldOptions_packed m) (FieldOptions_jstype m)
    (FieldOptions_lazy m) (FieldOptions_unverifiedLazy m) (FieldOptions_deprecated m)
    (FieldOptions_weak m) (FieldOptions_debugRedact m) (FieldOptions_retention m)
    (FieldOptions_targets m) (FieldOptions_editionDefaults m) (FieldOptions_features m) v
    (FieldOptions_uninterpretedOption m).

Definition FieldOptions_with_uninterpretedOption (v : list UninterpretedOption) (m : FieldOptions)
    : FieldOptions :=
  mkFieldOptions (FieldOptions_ctype m) (FieldOptions_packed m) (FieldOptions_jstype m)
    (FieldOptions_lazy m) (FieldOptions_unverifiedLazy m) (FieldOptions_deprecated m)
    (FieldOptions_weak m) (FieldOptions_debugRedact m) (FieldOptions_retention m)
    (FieldOptions_targets m) (FieldOptions_editionDefaults m) (FieldOptions_features m)
    (FieldOptions_featureSupport m) v.

Definition createBaseFieldOptions : FieldOptions :=
  {| FieldOptions_ctype := (Some 0);
     FieldOptions_packed := (Some false);
     FieldOptions_jstype := (Some 0);
     FieldOptions_lazy := (Some false);
     FieldOptions_unverifiedLazy := (Some false);
     FieldOptions_deprecated := (Some false);
     FieldOptions_weak := (Some false);
     FieldOptions_debugRedact := (Some false);
     FieldOptions_retention := (Some 0);
     FieldOptions_targets := [];
     FieldOptions_editionDefaults := [];
     FieldOptions_features := None;
     FieldOptions_featureSupport := None;
     FieldOptions_uninterpretedOption := [] |}.

Definition FieldOptions_encode (message : FieldOptions) (w : writer) : jsres writer :=
  let* w := match FieldOptions_ctype message with
             | Some v => if negb (v =? 0) then
                           let* w := w_uint32 (Int 8) w in w_int32 (Int v) w
                         else Ok w
             | None => Ok w
             end in
  let* w := match FieldOptions_packed message with
             | Some v => if negb (Bool.eqb v false) then
                           let* w := w_uint32 (Int 16) w in w_bool v w
                         else Ok w
             | None => Ok w
             end in
  let* w := match FieldOptions_jstype message with
             | Some v => if negb (v =? 0) then
                           let* w := w_uint32 (Int 48) w in w_int32 (Int v) w
                         else Ok w
             | None => Ok w
             end in
  let* w := match FieldOptions_lazy message with
             | Some v => if negb (Bool.eqb v false) then
                           let* w := w_uint32 (Int 40) w in w_bool v w
                         else Ok w
             | None => Ok w
             end in
  let* w := match FieldOptions_unverifiedLazy message with
             | Some v => if negb (Bool.eqb v false) then
                           let* w := w_uint32 (Int 120) w in w_bool v w
                         else Ok w
             | None => Ok w
             end in
  let* w := match FieldOptions_deprecated message with
             | Some v => if negb (Bool.eqb v false) then
                           let* w := w_uint32 (Int 24) w in w_bool v w
                         else Ok w
             | None => Ok w
             end in
  let* w := match FieldOptions_weak message with
             | Some v => if negb (Bool.eqb v false) then
                           let* w := w_uint32 (Int 80) w in w_bool v w
                         else Ok w
             | None => Ok w
             end in
  let* w := match FieldOptions_debugRedact message with
             | Some v => if negb (Bool.eqb v false) then
                           let* w := w_uint32 (Int 128) w in w_bool v w
                         else Ok w
             | None => Ok w
             end in
  let* w := match FieldOptions_retention message with
             | Some v => if negb (v =? 0) then
                           let* w := w_uint32 (Int 136) w in w_int32 (Int v) w
                         else Ok w
             | None => Ok w
             end in
  let* w := (let* w := w_uint32 (Int 154) w in
              let* w := for_each (fun v w => w_int32 (Int v) w) (FieldOptions_targets message)
                  (fork w) in
              w_join w) in
  let* w := for_each (fun v w => let* w := w_uint32 (Int 162) w in
                               let* w := FieldOptions_EditionDefault_encode v (fork w) in w_join w)
               (FieldOptions_editionDefaults message) w in
  let* w := match FieldOptions_features message with
             | Some v => let* w := w_uint32 (Int 170) w in
                         let* w := FeatureSet_encode v (fork w) in w_join w
             | None => Ok w
             end in
  let* w := match FieldOptions_featureSupport message with
             | Some v => let* w := w_uint32 (Int 178) w in
                         let* w := FieldOptions_FeatureSupport_encode v (fork w) in w_join w
             | None => Ok w
             end in
  let* w := for_each (fun v w => let* w := w_uint32 (Int 7994) w in
                               let* w := UninterpretedOption_encode v (fork w) in w_join w)
               (FieldOptions_uninterpretedOption message) w in
  Ok w.

Definition FieldOptions_switch (fuel : nat) (tag : Z) (message : FieldOptions) (r : reader)
    : jsres (flow FieldOptions) :=
  let field := Z.shiftr tag 3 in
  if field =? 1 then
    if negb (tag =? 8) then Ok Break
    else
      let* (v, r) := r_int32 r in Ok (Continue (FieldOptions_with_ctype (Some v) message) r)
  else if field =? 2 then
    if negb (tag =? 16) then Ok Break
    else
      let* (v, r) := r_bool r in Ok (Continue (FieldOptions_with_packed (Some v) message) r)
  else if field =? 6 then
    if negb (tag =? 48) then Ok Break
    else
      let* (v, r) := r_int32 r in Ok (Continue (FieldOptions_with_jstype (Some v) message) r)
  else if field =? 5 then
    if negb (tag =? 40) then Ok Break
    else
      let* (v, r) := r_bool r in Ok (Continue (FieldOptions_with_lazy (Some v) message) r)
  else if field =? 15 then
    if negb (tag =? 120) then Ok Break
    else
      let* (v, r) := r_bool r in Ok (Continue (FieldOptions_with_unverifiedLazy (Some v) message) r)
  else if field =? 3 then
    if negb (tag =? 24) then Ok Break
    else
      let* (v, r) := r_bool r in Ok (Continue (FieldOptions_with_deprecated (Some v) message) r)
  else if field =? 10 then
    if negb (tag =? 80) then Ok Break
    else
      let* (v, r) := r_bool r in Ok (Continue (FieldOptions_with_weak (Some v) message) r)
  else if field =? 16 then
    if negb (tag =? 128) then Ok Break
    else
      let* (v, r) := r_bool r in Ok (Continue (FieldOptions_with_debugRedact (Some v) message) r)
  else if field =? 17 then
    if negb (tag =? 136) then Ok Break
    else
      let* (v, r) := r_int32 r in Ok (Continue (FieldOptions_with_retention (Some v) message) r)
  else if field =? 19 then
    if tag =? 152 then
      let* (v, r) := r_int32 r in
      Ok (Continue (FieldOptions_with_targets (FieldOptions_targets message ++ [v]) message) r)
    else if tag =? 154 then
      let* (n, r) := r_uint32 r in
      let* (xs, r) := packed_loop r_int32 fuel (n + pos r) (FieldOptions_targets message) r in
      Ok (Continue (FieldOptions_with_targets xs message) r)
    else Ok Break
  else if field =? 20 then
    if negb (tag =? 162) then Ok Break
    else
      let* (l, r) := r_uint32 r in
      let* (v, r) := FieldOptions_EditionDefault_decode fuel (InReader r) (Some l) in
      Ok (Continue (FieldOptions_with_editionDefaults (FieldOptions_editionDefaults message ++ [v])
          message) r)
  else if field =? 21 then
    if negb (tag =? 170) then Ok Break
    else
      let* (l, r) := r_uint32 r in
      let* (v, r) := FeatureSet_decode fuel (InReader r) (Some l) in
      Ok (Continue (FieldOptions_with_features (Some v) message) r)
  else if field =? 22 then
    if negb (tag =? 178) then Ok Break
    else
      let* (l, r) := r_uint32 r in
      let* (v, r) := FieldOptions_FeatureSupport_decode fuel (InReader r) (Some l) in
      Ok (Continue (FieldOptions_with_featureSupport (Some v) message) r)
  else if field =? 999 then
    if negb (tag =? 7994) then Ok Break
    else
      let* (l, r) := r_uint32 r in
      let* (v, r) := UninterpretedOption_decode fuel (InReader r) (Some l) in
      Ok (Continue (FieldOptions_with_uninterpretedOption (FieldOptions_uninterpretedOption message
          ++ [v]) message) r)
  else Ok Break.

Definition FieldOptions_decode (fuel : nat) (i : input) (length : option Z)
    : jsres (FieldOptions * reader) :=
  decode_with (FieldOptions_switch fuel) createBaseFieldOptions fuel i length.

Definition FieldOptions_fromJSON (object : value) : jsres FieldOptions :=
  let* ctype_ := field object "ctype" (fun v => Ok (FieldOptions_CType_num
      (fieldOptions_CTypeFromJSON v))) 0 in
  let* packed_ := field object "packed" to_bool false in
  let* jstype_ := field object "jstype" (fun v => Ok (FieldOptions_JSType_num
      (fieldOptions_JSTypeFromJSON v))) 0 in
  let* lazy_ := field object "lazy" to_bool false in
  let* unverifiedLazy_ := field object "unverifiedLazy" to_bool false in
  let* deprecated_ := field object "deprecated" to_bool false in
  let* weak_ := field object "weak" to_bool false in
  let* debugRedact_ := field object "debugRedact" to_bool false in
  let* retention_ := field object "retention" (fun v => Ok (FieldOptions_OptionRetention_num
      (fieldOptions_OptionRetentionFromJSON v))) 0 in
  let* targets_ := array_field object "targets" (fun v => Ok (FieldOptions_OptionTargetType_num
      (fieldOptions_OptionTargetTypeFromJSON v))) in
  let* editionDefaults_ := array_field object "editionDefaults"
      FieldOptions_EditionDefault_fromJSON in
  let* features_ := opt_field object "features" FeatureSet_fromJSON in
  let* featureSupport_ := opt_field object "featureSupport" FieldOptions_FeatureSupport_fromJSON in
  let* uninterpretedOption_ := array_field object "uninterpretedOption"
      UninterpretedOption_fromJSON in
  Ok (mkFieldOptions (Some ctype_) (Some packed_) (Some jstype_) (Some lazy_) (Some
    unverifiedLazy_) (Some deprecated_) (Some weak_) (Some debugRedact_) (Some retention_)
    targets_ editionDefaults_ features_ featureSupport_ uninterpretedOption_).

Definition FieldOptions_toJSON (message : FieldOptions) : value :=
  let obj : props := [] in
  let obj := put_defined (FieldOptions_ctype message) (fun v => negb (v =? 0)) "ctype" (fun v =>
    VString (fieldOptions_CTypeToJSON v)) obj in
  let obj := put_defined (FieldOptions_packed message) (fun v => negb (Bool.eqb v false)) "packed"
    (fun v => VBool v) obj in
  let obj := put_defined (FieldOptions_jstype message) (fun v => negb (v =? 0)) "jstype" (fun v =>
    VString (fieldOptions_JSTypeToJSON v)) obj in
  let obj := put_defined (FieldOptions_lazy message) (fun v => negb (Bool.eqb v false)) "lazy"
    (fun v => VBool v) obj in
  let obj := put_defined (FieldOptions_unverifiedLazy message) (fun v => negb (Bool.eqb v false))
    "unverifiedLazy" (fun v => VBool v) obj in
  let obj := put_defined (FieldOptions_deprecated message) (fun v => negb (Bool.eqb v false))
    "deprecated" (fun v => VBool v) obj in
  let obj := put_defined (FieldOptions_weak message) (fun v => negb (Bool.eqb v false)) "weak"
    (fun v => VBool v) obj in
  let obj := put_defined (FieldOptions_debugRedact message) (fun v => negb (Bool.eqb v false))
    "debugRedact" (fun v => VBool v) obj in
  let obj := put_defined (FieldOptions_retention message) (fun v => negb (v =? 0)) "retention"
    (fun v => VString (fieldOptions_OptionRetentionToJSON v)) obj in
  let obj := put_if (has_length (FieldOptions_targets message)) "targets" (VArray (map (fun e =>
    VString (fieldOptions_OptionTargetTypeToJSON e)) (FieldOptions_targets message))) obj in
  let obj := put_if (has_length (FieldOptions_editionDefaults message)) "editionDefaults" (VArray
    (map FieldOptions_EditionDefault_toJSON (FieldOptions_editionDefaults message))) obj in
  let obj := put_defined (FieldOptions_features message) (fun _ => true) "features" (fun v =>
    FeatureSet_toJSON v) obj in
  let obj := put_defined (FieldOptions_featureSupport message) (fun _ => true) "featureSupport"
    (fun v => FieldOptions_FeatureSupport_toJSON v) obj in
  let obj := put_if (has_length (FieldOptions_uninterpretedOption message)) "uninterpretedOption"
    (VArray (map UninterpretedOption_toJSON (FieldOptions_uninterpretedOption message))) obj in
  VObject obj.

Definition FieldOptions_fromPartial (object : FieldOptions_Partial) : FieldOptions :=
  let message := createBaseFieldOptions in
  let message := FieldOptions_with_ctype (Some (nullish (FieldOptions_p_ctype object) 0)) message in
  let message := FieldOptions_with_packed (Some (nullish (FieldOptions_p_packed object) false))
      message in
  let message := FieldOptions_with_jstype (Some (nullish (FieldOptions_p_jstype object) 0))
      message in
  let message := FieldOptions_with_lazy (Some (nullish (FieldOptions_p_lazy object) false))
      message in
  let message := FieldOptions_with_unverifiedLazy (Some (nullish (FieldOptions_p_unverifiedLazy
      object) false)) message in
  let message := FieldOptions_with_deprecated (Some (nullish (FieldOptions_p_deprecated object)
      false)) message in
  let message := FieldOptions_with_weak (Some (nullish (FieldOptions_p_weak object) false))
      message in
  let message := FieldOptions_with_debugRedact (Some (nullish (FieldOptions_p_debugRedact object)
      false)) message in
  let message := FieldOptions_with_retention (Some (nullish (FieldOptions_p_retention object) 0))
      message in
  let message := FieldOptions_with_targets (nullish (FieldOptions_p_targets object) []) message in
  let message := FieldOptions_with_editionDefaults (nullish (option_map (map
      FieldOptions_EditionDefault_fromPartial) (FieldOptions_p_editionDefaults object)) [])
      message in
  let message := FieldOptions_with_features (option_map FeatureSet_fromPartial
      (FieldOptions_p_features object)) message in
  let message := FieldOptions_with_featureSupport (option_map
      FieldOptions_FeatureSupport_fromPartial (FieldOptions_p_featureSupport object)) message in
  let message := FieldOptions_with_uninterpretedOption (nullish (option_map (map
      UninterpretedOption_fromPartial) (FieldOptions_p_uninterpretedOption object)) []) message in
  message.

Definition FieldOptions_create (base : option FieldOptions_Partial) : FieldOptions :=
  FieldOptions_fromPartial (nullish base (mkFieldOptions_Partial None None None None None None None
      None None None None None None None)).

Definition FieldOptions_toPartial (m : FieldOptions) : FieldOptions_Partial :=
  mkFieldOptions_Partial (FieldOptions_ctype m) (FieldOptions_packed m) (FieldOptions_jstype m)
    (FieldOptions_lazy m) (FieldOptions_unverifiedLazy m) (FieldOptions_deprecated m)
    (FieldOptions_weak m) (FieldOptions_debugRedact m) (FieldOptions_retention m) (Some
    (FieldOptions_targets m)) (Some (map FieldOptions_EditionDefault_toPartial
    (FieldOptions_editionDefaults m))) (option_map FeatureSet_toPartial (FieldOptions_features m))
    (option_map FieldOptions_FeatureSupport_toPartial (FieldOptions_featureSupport m)) (Some (map
    UninterpretedOption_toPartial (FieldOptions_uninterpretedOption m))).
End DescriptorOptions.
