(* ===== verification/DescriptorOptions2.v ===== *)
(** The remaining option messages of [gen/ts/google/protobuf/descriptor.ts]: those of enums,
    enum values, extension ranges, oneofs, messages, methods, services and files, and the
    feature-set defaults. *)

From stdpp Require Import base list numbers strings.
From Stdlib Require Import Strings.Byte ZArith Lia.
From S2P Require Import Prelude JsNumber JsValue Wire DescriptorBase DescriptorEnums.
From S2P Require Import DescriptorOptions.
Local Open Scope Z_scope.
#[local] Set Warnings "-register-all".

Section DescriptorOptions2.
Context {RT : WireRuntime} {HO : JsHost}.

(** ** [EnumValueOptions] *)

Record EnumValueOptions : Type := mkEnumValueOptions {
  EnumValueOptions_deprecated : option bool;
  EnumValueOptions_features : option FeatureSet;
  EnumValueOptions_debugRedact : option bool;
  EnumValueOptions_featureSupport : option FieldOptions_FeatureSupport;
  EnumValueOptions_uninterpretedOption : list UninterpretedOption
}.

Record EnumValueOptions_Partial : Type := mkEnumValueOptions_Partial {
  EnumValueOptions_p_deprecated : option bool;
  EnumValueOptions_p_features : option FeatureSet_Partial;
  EnumValueOptions_p_debugRedact : option bool;
  EnumValueOptions_p_featureSupport : option FieldOptions_FeatureSupport_Partial;
  EnumValueOptions_p_uninterpretedOption : option (list UninterpretedOption_Partial)
}.

Definition EnumValueOptions_with_deprecated (v : option bool) (m : EnumValueOptions)
    : EnumValueOptions :=
  mkEnumValueOptions v (EnumValueOptions_features m) (EnumValueOptions_debugRedact m)
    (EnumValueOptions_featureSupport m) (EnumValueOptions_uninterpretedOption m).

Definition EnumValueOptions_with_features (v : option FeatureSet) (m : EnumValueOptions)
    : EnumValueOptions :=
  mkEnumValueOptions (EnumValueOptions_deprecated m) v (EnumValueOptions_debugRedact m)
    (EnumValueOptions_featureSupport m) (EnumValueOptions_uninterpretedOption m).

Definition EnumValueOptions_with_debugRedact (v : option bool) (m : EnumValueOptions)
    : EnumValueOptions :=
  mkEnumValueOptions (EnumValueOptions_deprecated m) (EnumValueOptions_features m) v
    (EnumValueOptions_featureSupport m) (EnumValueOptions_uninterpretedOption m).

Definition EnumValueOptions_with_featureSupport (v : option FieldOptions_FeatureSupport)
    (m : EnumValueOptions) : EnumValueOptions :=
  mkEnumValueOptions (EnumValueOptions_deprecated m) (EnumValueOptions_features m)
    (EnumValueOptions_debugRedact m) v (EnumValueOptions_uninterpretedOption m).

Definition EnumValueOptions_with_uninterpretedOption (v : list UninterpretedOption)
    (m : EnumValueOptions) : EnumValueOptions :=
  mkEnumValueOptions (EnumValueOptions_deprecated m) (EnumValueOptions_features m)
    (EnumValueOptions_debugRedact m) (EnumValueOptions_featureSupport m) v.

Definition createBaseEnumValueOptions : EnumValueOptions :=
  {| EnumValueOptions_deprecated := (Some false);
     EnumValueOptions_features := None;
     EnumValueOptions_debugRedact := (Some false);
     EnumValueOptions_featureSupport := None;
     EnumValueOptions_uninterpretedOption := [] |}.

Definition EnumValueOptions_encode (message : EnumValueOptions) (w : writer) : jsres writer :=
  let* w := match EnumValueOptions_deprecated message with
             | Some v => if negb (Bool.eqb v false) then
                           let* w := w_uint32 (Int 8) w in w_bool v w
                         else Ok w
             | None => Ok w
             end in
  let* w := match EnumValueOptions_features message with
             | Some v => let* w := w_uint32 (Int 18) w in
                         let* w := FeatureSet_encode v (fork w) in w_join w
             | None => Ok w
             end in
  let* w := match EnumValueOptions_debugRedact message with
             | Some v => if negb (Bool.eqb v false) then
                           let* w := w_uint32 (Int 24) w in w_bool v w
                         else Ok w
             | None => Ok w
             end in
  let* w := match EnumValueOptions_featureSupport message with
             | Some v => let* w := w_uint32 (Int 34) w in
                         let* w := FieldOptions_FeatureSupport_encode v (fork w) in w_join w
             | None => Ok w
             end in
  let* w := for_each (fun v w => let* w := w_uint32 (Int 7994) w in
                               let* w := UninterpretedOption_encode v (fork w) in w_join w)
               (EnumValueOptions_uninterpretedOption message) w in
  Ok w.

Definition EnumValueOptions_switch (fuel : nat) (tag : Z) (message : EnumValueOptions) (r : reader)
    : jsres (flow EnumValueOptions) :=
  let field := Z.shiftr tag 3 in
  if field =? 1 then
    if negb (tag =? 8) then Ok Break
    else
      let* (v, r) := r_bool r in Ok (Continue (EnumValueOptions_with_deprecated (Some v) message) r)
  else if field =? 2 then
    if negb (tag =? 18) then Ok Break
    else
      let* (l, r) := r_uint32 r in
      let* (v, r) := FeatureSet_decode fuel (InReader r) (Some l) in
      Ok (Continue (EnumValueOptions_with_features (Some v) message) r)
  else if field =? 3 then
    if negb (tag =? 24) then Ok Break
    else
      let* (v, r) := r_bool r in
          Ok (Continue (EnumValueOptions_with_debugRedact (Some v) message) r)
  else if field =? 4 then
    if negb (tag =? 34) then Ok Break
    else
      let* (l, r) := r_uint32 r in
      let* (v, r) := FieldOptions_FeatureSupport_decode fuel (InReader r) (Some l) in
      Ok (Continue (EnumValueOptions_with_featureSupport (Some v) message) r)
  else if field =? 999 then
    if negb (tag =? 7994) then Ok Break
    else
      let* (l, r) := r_uint32 r in
      let* (v, r) := UninterpretedOption_decode fuel (InReader r) (Some l) in
      Ok (Continue (EnumValueOptions_with_uninterpretedOption (EnumValueOptions_uninterpretedOption
          message ++ [v]) message) r)
  else Ok Break.

Definition EnumValueOptions_decode (fuel : nat) (i : input) (length : option Z)
    : jsres (EnumValueOptions * reader) :=
  decode_with (EnumValueOptions_switch fuel) createBaseEnumValueOptions fuel i length.

Definition EnumValueOptions_fromJSON (object : value) : jsres EnumValueOptions :=
  let* deprecated_ := field object "deprecated" to_bool false in
  let* features_ := opt_field object "features" FeatureSet_fromJSON in
  let* debugRedact_ := field object "debugRedact" to_bool false in
  let* featureSupport_ := opt_field object "featureSupport" FieldOptions_FeatureSupport_fromJSON in
  let* uninterpretedOption_ := array_field object "uninterpretedOption"
      UninterpretedOption_fromJSON in
  Ok (mkEnumValueOptions (Some deprecated_) features_ (Some debugRedact_) featureSupport_
    uninterpretedOption_).

Definition EnumValueOptions_toJSON (message : EnumValueOptions) : value :=
  let obj : props := [] in
  let obj := put_defined (EnumValueOptions_deprecated message) (fun v => negb (Bool.eqb v false))
    "deprecated" (fun v => VBool v) obj in
  let obj := put_defined (EnumValueOptions_features message) (fun _ => true) "features" (fun v =>
    FeatureSet_toJSON v) obj in
  let obj := put_defined (EnumValueOptions_debugRedact message) (fun v => negb (Bool.eqb v false))
    "debugRedact" (fun v => VBool v) obj in
  let obj := put_defined (EnumValueOptions_featureSupport message) (fun _ => true)
    "featureSupport" (fun v => FieldOptions_FeatureSupport_toJSON v) obj in
  let obj := put_if (has_length (EnumValueOptions_uninterpretedOption message))
    "uninterpretedOption" (VArray (map UninterpretedOption_toJSON
    (EnumValueOptions_uninterpretedOption message))) obj in
  VObject obj.

Definition EnumValueOptions_fromPartial (object : EnumValueOptions_Partial) : EnumValueOptions :=
  let message := createBaseEnumValueOptions in
  let message := EnumValueOptions_with_deprecated (Some (nullish (EnumValueOptions_p_deprecated
      object) false)) message in
  let message := EnumValueOptions_with_features (option_map FeatureSet_fromPartial
      (EnumValueOptions_p_features object)) message in
  let message := EnumValueOptions_with_debugRedact (Some (nullish (EnumValueOptions_p_debugRedact
      object) false)) message in
  let message := EnumValueOptions_with_featureSupport (option_map
      FieldOptions_FeatureSupport_fromPartial (EnumValueOptions_p_featureSupport object)) message in
  let message := EnumValueOptions_with_uninterpretedOption (nullish (option_map (map
      UninterpretedOption_fromPartial) (EnumValueOptions_p_uninterpretedOption object)) [])
      message in
  message.

Definition EnumValueOptions_create (base : option EnumValueOptions_Partial) : EnumValueOptions :=
  EnumValueOptions_fromPartial (nullish base (mkEnumValueOptions_Partial None None None None None)).

Definition EnumValueOptions_toPartial (m : EnumValueOptions) : EnumValueOptions_Partial :=
  mkEnumValueOptions_Partial (EnumValueOptions_deprecated m) (option_map FeatureSet_toPartial
    (EnumValueOptions_features m)) (EnumValueOptions_debugRedact m) (option_map
    FieldOptions_FeatureSupport_toPartial (EnumValueOptions_featureSupport m)) (Some (map
    UninterpretedOption_toPartial (EnumValueOptions_uninterpretedOption m))).

(** ** [EnumOptions] *)

Record EnumOptions : Type := mkEnumOptions {
  EnumOptions_allowAlias : option bool;
  EnumOptions_deprecated : option bool;
  EnumOptions_deprecatedLegacyJsonFieldConflicts : option bool;
  EnumOptions_features : option FeatureSet;
  EnumOptions_uninterpretedOption : list UninterpretedOption
}.

Record EnumOptions_Partial : Type := mkEnumOptions_Partial {
  EnumOptions_p_allowAlias : option bool;
  EnumOptions_p_deprecated : option bool;
  EnumOptions_p_deprecatedLegacyJsonFieldConflicts : option bool;
  EnumOptions_p_features : option FeatureSet_Partial;
  EnumOptions_p_uninterpretedOption : option (list UninterpretedOption_Partial)
}.

Definition EnumOptions_with_allowAlias (v : option bool) (m : EnumOptions) : EnumOptions :=
  mkEnumOptions v (EnumOptions_deprecated m) (EnumOptions_deprecatedLegacyJsonFieldConflicts m)
    (EnumOptions_features m) (EnumOptions_uninterpretedOption m).

Definition EnumOptions_with_deprecated (v : option bool) (m : EnumOptions) : EnumOptions :=
  mkEnumOptions (EnumOptions_allowAlias m) v (EnumOptions_deprecatedLegacyJsonFieldConflicts m)
    (EnumOptions_features m) (EnumOptions_uninterpretedOption m).

Definition EnumOptions_with_deprecatedLegacyJsonFieldConflicts (v : option bool) (m : EnumOptions)
    : EnumOptions :=
  mkEnumOptions (EnumOptions_allowAlias m) (EnumOptions_deprecated m) v (EnumOptions_features m)
    (EnumOptions_uninterpretedOption m).

Definition EnumOptions_with_features (v : option FeatureSet) (m : EnumOptions) : EnumOptions :=
  mkEnumOptions (EnumOptions_allowAlias m) (EnumOptions_deprecated m)
    (EnumOptions_deprecatedLegacyJsonFieldConflicts m) v (EnumOptions_uninterpretedOption m).

Definition EnumOptions_with_uninterpretedOption (v : list UninterpretedOption) (m : EnumOptions)
    : EnumOptions :=
  mkEnumOptions (EnumOptions_allowAlias m) (EnumOptions_deprecated m)
    (EnumOptions_deprecatedLegacyJsonFieldConflicts m) (EnumOptions_features m) v.

Definition createBaseEnumOptions : EnumOptions :=
  {| EnumOptions_allowAlias := (Some false);
     EnumOptions_deprecated := (Some false);
     EnumOptions_deprecatedLegacyJsonFieldConflicts := (Some false);
     EnumOptions_features := None;
     EnumOptions_uninterpretedOption := [] |}.

Definition EnumOptions_encode (message : EnumOptions) (w : writer) : jsres writer :=
  let* w := match EnumOptions_allowAlias message with
             | Some v => if negb (Bool.eqb v false) then
                           let* w := w_uint32 (Int 16) w in w_bool v w
                         else Ok w
             | None => Ok w
             end in
  let* w := match EnumOptions_deprecated message with
             | Some v => if negb (Bool.eqb v false) then
                           let* w := w_uint32 (Int 24) w in w_bool v w
                         else Ok w
             | None => Ok w
             end in
  let* w := match EnumOptions_deprecatedLegacyJsonFieldConflicts message with
             | Some v => if negb (Bool.eqb v false) then
                           let* w := w_uint32 (Int 48) w in w_bool v w
                         else Ok w
             | None => Ok w
             end in
  let* w := match EnumOptions_features message with
             | Some v => let* w := w_uint32 (Int 58) w in
                         let* w := FeatureSet_encode v (fork w) in w_join w
             | None => Ok w
             end in
  let* w := for_each (fun v w => let* w := w_uint32 (Int 7994) w in
                               let* w := UninterpretedOption_encode v (fork w) in w_join w)
               (EnumOptions_uninterpretedOption message) w in
  Ok w.

Definition EnumOptions_switch (fuel : nat) (tag : Z) (message : EnumOptions) (r : reader)
    : jsres (flow EnumOptions) :=
  let field := Z.shiftr tag 3 in
  if field =? 2 then
    if negb (tag =? 16) then Ok Break
    else
      let* (v, r) := r_bool r in Ok (Continue (EnumOptions_with_allowAlias (Some v) message) r)
  else if field =? 3 then
    if negb (tag =? 24) then Ok Break
    else
      let* (v, r) := r_bool r in Ok (Continue (EnumOptions_with_deprecated (Some v) message) r)
  else if field =? 6 then
    if negb (tag =? 48) then Ok Break
    else
      let* (v, r) := r_bool r in
          Ok (Continue (EnumOptions_with_deprecatedLegacyJsonFieldConflicts (Some v) message) r)
  else if field =? 7 then
    if negb (tag =? 58) then Ok Break
    else
      let* (l, r) := r_uint32 r in
      let* (v, r) := FeatureSet_decode fuel (InReader r) (Some l) in
      Ok (Continue (EnumOptions_with_features (Some v) message) r)
  else if field =? 999 then
    if negb (tag =? 7994) then Ok Break
    else
      let* (l, r) := r_uint32 r in
      let* (v, r) := UninterpretedOption_decode fuel (InReader r) (Some l) in
      Ok (Continue (EnumOptions_with_uninterpretedOption (EnumOptions_uninterpretedOption message
          ++ [v]) message) r)
  else Ok Break.

Definition EnumOptions_decode (fuel : nat) (i : input) (length : option Z)
    : jsres (EnumOptions * reader) :=
  decode_with (EnumOptions_switch fuel) createBaseEnumOptions fuel i length.

Definition EnumOptions_fromJSON (object : value) : jsres EnumOptions :=
  let* allowAlias_ := field object "allowAlias" to_bool false in
  let* deprecated_ := field object "deprecated" to_bool false in
  let* deprecatedLegacyJsonFieldConflicts_ := field object "deprecatedLegacyJsonFieldConflicts"
      to_bool false in
  let* features_ := opt_field object "features" FeatureSet_fromJSON in
  let* uninterpretedOption_ := array_field object "uninterpretedOption"
      UninterpretedOption_fromJSON in
  Ok (mkEnumOptions (Some allowAlias_) (Some deprecated_) (Some
    deprecatedLegacyJsonFieldConflicts_) features_ uninterpretedOption_).

Definition EnumOptions_toJSON (message : EnumOptions) : value :=
  let obj : props := [] in
  let obj := put_defined (EnumOptions_allowAlias message) (fun v => negb (Bool.eqb v false))
    "allowAlias" (fun v => VBool v) obj in
  let obj := put_defined (EnumOptions_deprecated message) (fun v => negb (Bool.eqb v false))
    "deprecated" (fun v => VBool v) obj in
  let obj := put_defined (EnumOptions_deprecatedLegacyJsonFieldConflicts message) (fun v => negb
    (Bool.eqb v false)) "deprecatedLegacyJsonFieldConflicts" (fun v => VBool v) obj in
  let obj := put_defined (EnumOptions_features message) (fun _ => true) "features" (fun v =>
    FeatureSet_toJSON v) obj in
  let obj := put_if (has_length (EnumOptions_uninterpretedOption message)) "uninterpretedOption"
    (VArray (map UninterpretedOption_toJSON (EnumOptions_uninterpretedOption message))) obj in
  VObject obj.

Definition EnumOptions_fromPartial (object : EnumOptions_Partial) : EnumOptions :=
  let message := createBaseEnumOptions in
  let message := EnumOptions_with_allowAlias (Some (nullish (EnumOptions_p_allowAlias object)
      false)) message in
  let message := EnumOptions_with_deprecated (Some (nullish (EnumOptions_p_deprecated object)
      false)) message in
  let message := EnumOptions_with_deprecatedLegacyJsonFieldConflicts (Some (nullish
      (EnumOptions_p_deprecatedLegacyJsonFieldConflicts object) false)) message in
  let message := EnumOptions_with_features (option_map FeatureSet_fromPartial
      (EnumOptions_p_features object)) message in
  let message := EnumOptions_with_uninterpretedOption (nullish (option_map (map
      UninterpretedOption_fromPartial) (EnumOptions_p_uninterpretedOption object)) []) message in
  message.

Definition EnumOptions_create (base : option EnumOptions_Partial) : EnumOptions :=
  EnumOptions_fromPartial (nullish base (mkEnumOptions_Partial None None None None None)).

Definition EnumOptions_toPartial (m : EnumOptions) : EnumOptions_Partial :=
  mkEnumOptions_Partial (EnumOptions_allowAlias m) (EnumOptions_deprecated m)
    (EnumOptions_deprecatedLegacyJsonFieldConflicts m) (option_map FeatureSet_toPartial
    (EnumOptions_features m)) (Some (map UninterpretedOption_toPartial
    (EnumOptions_uninterpretedOption m))).

(** ** [ExtensionRangeOptions_Declaration] *)

Record ExtensionRangeOptions_Declaration : Type := mkExtensionRangeOptions_Declaration {
  ExtensionRangeOptions_Declaration_number : option number;
  ExtensionRangeOptions_Declaration_fullName : option jsstring;
  ExtensionRangeOptions_Declaration_type : option jsstring;
  ExtensionRangeOptions_Declaration_reserved : option bool;
  ExtensionRangeOptions_Declaration_repeated : option bool
}.

Record ExtensionRangeOptions_Declaration_Partial : Type :=
    mkExtensionRangeOptions_Declaration_Partial {
  ExtensionRangeOptions_Declaration_p_number : option number;
  ExtensionRangeOptions_Declaration_p_fullName : option jsstring;
  ExtensionRangeOptions_Declaration_p_type : option jsstring;
  ExtensionRangeOptions_Declaration_p_reserved : option bool;
  ExtensionRangeOptions_Declaration_p_repeated : option bool
}.

Definition ExtensionRangeOptions_Declaration_with_number (v : option number)
    (m : ExtensionRangeOptions_Declaration) : ExtensionRangeOptions_Declaration :=
  mkExtensionRangeOptions_Declaration v (ExtensionRangeOptions_Declaration_fullName m)
    (ExtensionRangeOptions_Declaration_type m) (ExtensionRangeOptions_Declaration_reserved m)
    (ExtensionRangeOptions_Declaration_repeated m).

Definition ExtensionRangeOptions_Declaration_with_fullName (v : option jsstring)
    (m : ExtensionRangeOptions_Declaration) : ExtensionRangeOptions_Declaration :=
  mkExtensionRangeOptions_Declaration (ExtensionRangeOptions_Declaration_number m) v
    (ExtensionRangeOptions_Declaration_type m) (ExtensionRangeOptions_Declaration_reserved m)
    (ExtensionRangeOptions_Declaration_repeated m).

Definition ExtensionRangeOptions_Declaration_with_type (v : option jsstring)
    (m : ExtensionRangeOptions_Declaration) : ExtensionRangeOptions_Declaration :=
  mkExtensionRangeOptions_Declaration (ExtensionRangeOptions_Declaration_number m)
    (ExtensionRangeOptions_Declaration_fullName m) v (ExtensionRangeOptions_Declaration_reserved
    m) (ExtensionRangeOptions_Declaration_repeated m).

Definition ExtensionRangeOptions_Declaration_with_reserved (v : option bool)
    (m : ExtensionRangeOptions_Declaration) : ExtensionRangeOptions_Declaration :=
  mkExtensionRangeOptions_Declaration (ExtensionRangeOptions_Declaration_number m)
    (ExtensionRangeOptions_Declaration_fullName m) (ExtensionRangeOptions_Declaration_type m) v
    (ExtensionRangeOptions_Declaration_repeated m).

Definition ExtensionRangeOptions_Declaration_with_repeated (v : option bool)
    (m : ExtensionRangeOptions_Declaration) : ExtensionRangeOptions_Declaration :=
  mkExtensionRangeOptions_Declaration (ExtensionRangeOptions_Declaration_number m)
    (ExtensionRangeOptions_Declaration_fullName m) (ExtensionRangeOptions_Declaration_type m)
    (ExtensionRangeOptions_Declaration_reserved m) v.

Definition createBaseExtensionRangeOptions_Declaration : ExtensionRangeOptions_Declaration :=
  {| ExtensionRangeOptions_Declaration_number := (Some (Int 0));
     ExtensionRangeOptions_Declaration_fullName := (Some (js ""));
     ExtensionRangeOptions_Declaration_type := (Some (js ""));
     ExtensionRangeOptions_Declaration_reserved := (Some false);
     ExtensionRangeOptions_Declaration_repeated := (Some false) |}.

Definition ExtensionRangeOptions_Declaration_encode (message : ExtensionRangeOptions_Declaration)
    (w : writer) : jsres writer :=
  let* w := match ExtensionRangeOptions_Declaration_number message with
             | Some v => if negb (num_eqb v (Int 0)) then
                           let* w := w_uint32 (Int 8) w in w_int32 v w
                         else Ok w
             | None => Ok w
             end in
  let* w := match ExtensionRangeOptions_Declaration_fullName message with
             | Some v => if negb (str_eqb v (js "")) then
                           let* w := w_uint32 (Int 18) w in w_string v w
                         else Ok w
             | None => Ok w
             end in
  let* w := match ExtensionRangeOptions_Declaration_type message with
             | Some v => if negb (str_eqb v (js "")) then
                           let* w := w_uint32 (Int 26) w in w_string v w
                         else Ok w
             | None => Ok w
             end in
  let* w := match ExtensionRangeOptions_Declaration_reserved message with
             | Some v => if negb (Bool.eqb v false) then
                           let* w := w_uint32 (Int 40) w in w_bool v w
                         else Ok w
             | None => Ok w
             end in
  let* w := match ExtensionRangeOptions_Declaration_repeated message with
             | Some v => if negb (Bool.eqb v false) then
                           let* w := w_uint32 (Int 48) w in w_bool v w
                         else Ok w
             | None => Ok w
             end in
  Ok w.

Definition ExtensionRangeOptions_Declaration_switch (fuel : nat) (tag : Z)
    (message : ExtensionRangeOptions_Declaration) (r : reader)
    : jsres (flow ExtensionRangeOptions_Declaration) :=
  let field := Z.shiftr tag 3 in
  if field =? 1 then
    if negb (tag =? 8) then Ok Break
    else
      let* (v, r) := r_int32_number r in
          Ok (Continue (ExtensionRangeOptions_Declaration_with_number (Some v) message) r)
  else if field =? 2 then
    if negb (tag =? 18) then Ok Break
    else
      let* (v, r) := r_string r in
          Ok (Continue (ExtensionRangeOptions_Declaration_with_fullName (Some v) message) r)
  else if field =? 3 then
    if negb (tag =? 26) then Ok Break
    else
      let* (v, r) := r_string r in
          Ok (Continue (ExtensionRangeOptions_Declaration_with_type (Some v) message) r)
  else if field =? 5 then
    if negb (tag =? 40) then Ok Break
    else
      let* (v, r) := r_bool r in
          Ok (Continue (ExtensionRangeOptions_Declaration_with_reserved (Some v) message) r)
  else if field =? 6 then
    if negb (tag =? 48) then Ok Break
    else
      let* (v, r) := r_bool r in
          Ok (Continue (ExtensionRangeOptions_Declaration_with_repeated (Some v) message) r)
  else Ok Break.

Definition ExtensionRangeOptions_Declaration_decode (fuel : nat) (i : input) (length : option Z)
    : jsres (ExtensionRangeOptions_Declaration * reader) :=
  decode_with (ExtensionRangeOptions_Declaration_switch fuel)
      createBaseExtensionRangeOptions_Declaration fuel i length.

Definition ExtensionRangeOptions_Declaration_fromJSON (object : value)
    : jsres ExtensionRangeOptions_Declaration :=
  let* number_ := field object "number" to_number (Int 0) in
  let* fullName_ := field object "fullName" to_string (js "") in
  let* type_ := field object "type" to_string (js "") in
  let* reserved_ := field object "reserved" to_bool false in
  let* repeated_ := field object "repeated" to_bool false in
  Ok (mkExtensionRangeOptions_Declaration (Some number_) (Some fullName_) (Some type_) (Some
    reserved_) (Some repeated_)).

Definition ExtensionRangeOptions_Declaration_toJSON (message : ExtensionRangeOptions_Declaration)
    : value :=
  let obj : props := [] in
  let obj := put_defined (ExtensionRangeOptions_Declaration_number message) (fun v => negb
    (num_eqb v (Int 0))) "number" (fun v => VNumber (math_round v)) obj in
  let obj := put_defined (ExtensionRangeOptions_Declaration_fullName message) (fun v => negb
    (str_eqb v (js ""))) "fullName" (fun v => VString v) obj in
  let obj := put_defined (ExtensionRangeOptions_Declaration_type message) (fun v => negb (str_eqb
    v (js ""))) "type" (fun v => VString v) obj in
  let obj := put_defined (ExtensionRangeOptions_Declaration_reserved message) (fun v => negb
    (Bool.eqb v false)) "reserved" (fun v => VBool v) obj in
  let obj := put_defined (ExtensionRangeOptions_Declaration_repeated message) (fun v => negb
    (Bool.eqb v false)) "repeated" (fun v => VBool v) obj in
  VObject obj.

Definition ExtensionRangeOptions_Declaration_fromPartial (object :
    ExtensionRangeOptions_Declaration_Partial) : ExtensionRangeOptions_Declaration :=
  let message := createBaseExtensionRangeOptions_Declaration in
  let message := ExtensionRangeOptions_Declaration_with_number (Some (nullish
      (ExtensionRangeOptions_Declaration_p_number object) (Int 0))) message in
  let message := ExtensionRangeOptions_Declaration_with_fullName (Some (nullish
      (ExtensionRangeOptions_Declaration_p_fullName object) (js ""))) message in
  let message := ExtensionRangeOptions_Declaration_with_type (Some (nullish
      (ExtensionRangeOptions_Declaration_p_type object) (js ""))) message in
  let message := ExtensionRangeOptions_Declaration_with_reserved (Some (nullish
      (ExtensionRangeOptions_Declaration_p_reserved object) false)) message in
  let message := ExtensionRangeOptions_Declaration_with_repeated (Some (nullish
      (ExtensionRangeOptions_Declaration_p_repeated object) false)) message in
  message.

Definition ExtensionRangeOptions_Declaration_create (base : option
    ExtensionRangeOptions_Declaration_Partial) : ExtensionRangeOptions_Declaration :=
  ExtensionRangeOptions_Declaration_fromPartial (nullish base
      (mkExtensionRangeOptions_Declaration_Partial None None None None None)).

Definition ExtensionRangeOptions_Declaration_toPartial (m : ExtensionRangeOptions_Declaration)
    : ExtensionRangeOptions_Declaration_Partial :=
  mkExtensionRangeOptions_Declaration_Partial (ExtensionRangeOptions_Declaration_number m)
    (ExtensionRangeOptions_Declaration_fullName m) (ExtensionRangeOptions_Declaration_type m)
    (ExtensionRangeOptions_Declaration_reserved m) (ExtensionRangeOptions_Declaration_repeated m).

(** ** [ExtensionRangeOptions] *)

Record ExtensionRangeOptions : Type := mkExtensionRangeOptions {
  ExtensionRangeOptions_uninterpretedOption : list UninterpretedOption;
  ExtensionRangeOptions_declaration : list ExtensionRangeOptions_Declaration;
  ExtensionRangeOptions_features : option FeatureSet;
  ExtensionRangeOptions_verification : option Z
}.

Record ExtensionRangeOptions_Partial : Type := mkExtensionRangeOptions_Partial {
  ExtensionRangeOptions_p_uninterpretedOption : option (list UninterpretedOption_Partial);
  ExtensionRangeOptions_p_declaration : option (list ExtensionRangeOptions_Declaration_Partial);
  ExtensionRangeOptions_p_features : option FeatureSet_Partial;
  ExtensionRangeOptions_p_verification : option Z
}.

Definition ExtensionRangeOptions_with_uninterpretedOption (v : list UninterpretedOption)
    (m : ExtensionRangeOptions) : ExtensionRangeOptions :=
  mkExtensionRangeOptions v (ExtensionRangeOptions_declaration m) (ExtensionRangeOptions_features
    m) (ExtensionRangeOptions_verification m).

Definition ExtensionRangeOptions_with_declaration (v : list ExtensionRangeOptions_Declaration)
    (m : ExtensionRangeOptions) : ExtensionRangeOptions :=
  mkExtensionRangeOptions (ExtensionRangeOptions_uninterpretedOption m) v
    (ExtensionRangeOptions_features m) (ExtensionRangeOptions_verification m).

Definition ExtensionRangeOptions_with_features (v : option FeatureSet) (m : ExtensionRangeOptions)
    : ExtensionRangeOptions :=
  mkExtensionRangeOptions (ExtensionRangeOptions_uninterpretedOption m)
    (ExtensionRangeOptions_declaration m) v (ExtensionRangeOptions_verification m).

Definition ExtensionRangeOptions_with_verification (v : option Z) (m : ExtensionRangeOptions)
    : ExtensionRangeOptions :=
  mkExtensionRangeOptions (ExtensionRangeOptions_uninterpretedOption m)
    (ExtensionRangeOptions_declaration m) (ExtensionRangeOptions_features m) v.

Definition createBaseExtensionRangeOptions : ExtensionRangeOptions :=
  {| ExtensionRangeOptions_uninterpretedOption := [];
     ExtensionRangeOptions_declaration := [];
     ExtensionRangeOptions_features := None;
     ExtensionRangeOptions_verification := (Some 1) |}.

Definition ExtensionRangeOptions_encode (message : ExtensionRangeOptions) (w : writer)
    : jsres writer :=
  let* w := for_each (fun v w => let* w := w_uint32 (Int 7994) w in
                               let* w := UninterpretedOption_encode v (fork w) in w_join w)
               (ExtensionRangeOptions_uninterpretedOption message) w in
  let* w := for_each (fun v w => let* w := w_uint32 (Int 18) w in
                               let* w := ExtensionRangeOptions_Declaration_encode v (fork w) in
                                   w_join w)
               (ExtensionRangeOptions_declaration message) w in
  let* w := match ExtensionRangeOptions_features message with
             | Some v => let* w := w_uint32 (Int 402) w in
                         let* w := FeatureSet_encode v (fork w) in w_join w
             | None => Ok w
             end in
  let* w := match ExtensionRangeOptions_verification message with
             | Some v => if negb (v =? 1) then
                           let* w := w_uint32 (Int 24) w in w_int32 (Int v) w
                         else Ok w
             | None => Ok w
             end in
  Ok w.

Definition ExtensionRangeOptions_switch (fuel : nat) (tag : Z) (message : ExtensionRangeOptions)
    (r : reader)
    : jsres (flow ExtensionRangeOptions) :=
  let field := Z.shiftr tag 3 in
  if field =? 999 then
    if negb (tag =? 7994) then Ok Break
    else
      let* (l, r) := r_uint32 r in
      let* (v, r) := UninterpretedOption_decode fuel (InReader r) (Some l) in
      Ok (Continue (ExtensionRangeOptions_with_uninterpretedOption
          (ExtensionRangeOptions_uninterpretedOption message ++ [v]) message) r)
  else if field =? 2 then
    if negb (tag =? 18) then Ok Break
    else
      let* (l, r) := r_uint32 r in
      let* (v, r) := ExtensionRangeOptions_Declaration_decode fuel (InReader r) (Some l) in
      Ok (Continue (ExtensionRangeOptions_with_declaration (ExtensionRangeOptions_declaration
          message ++ [v]) message) r)
  else if field =? 50 then
    if negb (tag =? 402) then Ok Break
    else
      let* (l, r) := r_uint32 r in
      let* (v, r) := FeatureSet_decode fuel (InReader r) (Some l) in
      Ok (Continue (ExtensionRangeOptions_with_features (Some v) message) r)
  else if field =? 3 then
    if negb (tag =? 24) then Ok Break
    else
      let* (v, r) := r_int32 r in
          Ok (Continue (ExtensionRangeOptions_with_verification (Some v) message) r)
  else Ok Break.

Definition ExtensionRangeOptions_decode (fuel : nat) (i : input) (length : option Z)
    : jsres (ExtensionRangeOptions * reader) :=
  decode_with (ExtensionRangeOptions_switch fuel) createBaseExtensionRangeOptions fuel i length.

Definition ExtensionRangeOptions_fromJSON (object : value) : jsres ExtensionRangeOptions :=
  let* uninterpretedOption_ := array_field object "uninterpretedOption"
      UninterpretedOption_fromJSON in
  let* declaration_ := array_field object "declaration" ExtensionRangeOptions_Declaration_fromJSON
      in
  let* features_ := opt_field object "features" FeatureSet_fromJSON in
  let* verification_ := field object "verification" (fun v => Ok
      (ExtensionRangeOptions_VerificationState_num (extensionRangeOptions_VerificationStateFromJSON
      v))) 1 in
  Ok (mkExtensionRangeOptions uninterpretedOption_ declaration_ features_ (Some verification_)).

Definition ExtensionRangeOptions_toJSON (message : ExtensionRangeOptions) : value :=
  let obj : props := [] in
  let obj := put_if (has_length (ExtensionRangeOptions_uninterpretedOption message))
    "uninterpretedOption" (VArray (map UninterpretedOption_toJSON
    (ExtensionRangeOptions_uninterpretedOption message))) obj in
  let obj := put_if (has_length (ExtensionRangeOptions_declaration message)) "declaration" (VArray
    (map ExtensionRangeOptions_Declaration_toJSON (ExtensionRangeOptions_declaration message)))
    obj in
  let obj := put_defined (ExtensionRangeOptions_features message) (fun _ => true) "features" (fun
    v => FeatureSet_toJSON v) obj in
  let obj := put_defined (ExtensionRangeOptions_verification message) (fun v => negb (v =? 1))
    "verification" (fun v => VString (extensionRangeOptions_VerificationStateToJSON v)) obj in
  VObject obj.

Definition ExtensionRangeOptions_fromPartial (object : ExtensionRangeOptions_Partial)
    : ExtensionRangeOptions :=
  let message := createBaseExtensionRangeOptions in
  let message := ExtensionRangeOptions_with_uninterpretedOption (nullish (option_map (map
      UninterpretedOption_fromPartial) (ExtensionRangeOptions_p_uninterpretedOption object)) [])
      message in
  let message := ExtensionRangeOptions_with_declaration (nullish (option_map (map
      ExtensionRangeOptions_Declaration_fromPartial) (ExtensionRangeOptions_p_declaration object))
      []) message in
  let message := ExtensionRangeOptions_with_features (option_map FeatureSet_fromPartial
      (ExtensionRangeOptions_p_features object)) message in
  let message := ExtensionRangeOptions_with_verification (Some (nullish
      (ExtensionRangeOptions_p_verification object) 1)) message in
  message.

Definition ExtensionRangeOptions_create (base : option ExtensionRangeOptions_Partial)
    : ExtensionRangeOptions :=
  ExtensionRangeOptions_fromPartial (nullish base (mkExtensionRangeOptions_Partial None None None
      None)).

Definition ExtensionRangeOptions_toPartial (m : ExtensionRangeOptions)
    : ExtensionRangeOptions_Partial :=
  mkExtensionRangeOptions_Partial (Some (map UninterpretedOption_toPartial
    (ExtensionRangeOptions_uninterpretedOption m))) (Some (map
    ExtensionRangeOptions_Declaration_toPartial (ExtensionRangeOptions_declaration m)))
    (option_map FeatureSet_toPartial (ExtensionRangeOptions_features m))
    (ExtensionRangeOptions_verification m).

(** ** [OneofOptions] *)

Record OneofOptions : Type := mkOneofOptions {
  OneofOptions_features : option FeatureSet;
  OneofOptions_uninterpretedOption : list UninterpretedOption
}.

Record OneofOptions_Partial : Type := mkOneofOptions_Partial {
  OneofOptions_p_features : option FeatureSet_Partial;
  OneofOptions_p_uninterpretedOption : option (list UninterpretedOption_Partial)
}.

Definition OneofOptions_with_features (v : option FeatureSet) (m : OneofOptions) : OneofOptions :=
  mkOneofOptions v (OneofOptions_uninterpretedOption m).

Definition OneofOptions_with_uninterpretedOption (v : list UninterpretedOption) (m : OneofOptions)
    : OneofOptions :=
  mkOneofOptions (OneofOptions_features m) v.

Definition createBaseOneofOptions : OneofOptions :=
  {| OneofOptions_features := None;
     OneofOptions_uninterpretedOption := [] |}.

Definition OneofOptions_encode (message : OneofOptions) (w : writer) : jsres writer :=
  let* w := match OneofOptions_features message with
             | Some v => let* w := w_uint32 (Int 10) w in
                         let* w := FeatureSet_encode v (fork w) in w_join w
             | None => Ok w
             end in
  let* w := for_each (fun v w => let* w := w_uint32 (Int 7994) w in
                               let* w := UninterpretedOption_encode v (fork w) in w_join w)
               (OneofOptions_uninterpretedOption message) w in
  Ok w.

Definition OneofOptions_switch (fuel : nat) (tag : Z) (message : OneofOptions) (r : reader)
    : jsres (flow OneofOptions) :=
  let field := Z.shiftr tag 3 in
  if field =? 1 then
    if negb (tag =? 10) then Ok Break
    else
      let* (l, r) := r_uint32 r in
      let* (v, r) := FeatureSet_decode fuel (InReader r) (Some l) in
      Ok (Continue (OneofOptions_with_features (Some v) message) r)
  else if field =? 999 then
    if negb (tag =? 7994) then Ok Break
    else
      let* (l, r) := r_uint32 r in
      let* (v, r) := UninterpretedOption_decode fuel (InReader r) (Some l) in
      Ok (Continue (OneofOptions_with_uninterpretedOption (OneofOptions_uninterpretedOption message
          ++ [v]) message) r)
  else Ok Break.

Definition OneofOptions_decode (fuel : nat) (i : input) (length : option Z)
    : jsres (OneofOptions * reader) :=
  decode_with (OneofOptions_switch fuel) createBaseOneofOptions fuel i length.

Definition OneofOptions_fromJSON (object : value) : jsres OneofOptions :=
  let* features_ := opt_field object "features" FeatureSet_fromJSON in
  let* uninterpretedOption_ := array_field object "uninterpretedOption"
      UninterpretedOption_fromJSON in
  Ok (mkOneofOptions features_ uninterpretedOption_).

Definition OneofOptions_toJSON (message : OneofOptions) : value :=
  let obj : props := [] in
  let obj := put_defined (OneofOptions_features message) (fun _ => true) "features" (fun v =>
    FeatureSet_toJSON v) obj in
  let obj := put_if (has_length (OneofOptions_uninterpretedOption message)) "uninterpretedOption"
    (VArray (map UninterpretedOption_toJSON (OneofOptions_uninterpretedOption message))) obj in
  VObject obj.

Definition OneofOptions_fromPartial (object : OneofOptions_Partial) : OneofOptions :=
  let message := createBaseOneofOptions in
  let message := OneofOptions_with_features (option_map FeatureSet_fromPartial
      (OneofOptions_p_features object)) message in
  let message := OneofOptions_with_uninterpretedOption (nullish (option_map (map
      UninterpretedOption_fromPartial) (OneofOptions_p_uninterpretedOption object)) []) message in
  message.

Definition OneofOptions_create (base : option OneofOptions_Partial) : OneofOptions :=
  OneofOptions_fromPartial (nullish base (mkOneofOptions_Partial None None)).

Definition OneofOptions_toPartial (m : OneofOptions) : OneofOptions_Partial :=
  mkOneofOptions_Partial (option_map FeatureSet_toPartial (OneofOptions_features m)) (Some (map
    UninterpretedOption_toPartial (OneofOptions_uninterpretedOption m))).

(** ** [MessageOptions] *)

Record MessageOptions : Type := mkMessageOptions {
  MessageOptions_messageSetWireFormat : option bool;
  MessageOptions_noStandardDescriptorAccessor : option bool;
  MessageOptions_deprecated : option bool;
  MessageOptions_mapEntry : option bool;
  MessageOptions_deprecatedLegacyJsonFieldConflicts : option bool;
  MessageOptions_features : option FeatureSet;
  MessageOptions_uninterpretedOption : list UninterpretedOption
}.

Record MessageOptions_Partial : Type := mkMessageOptions_Partial {
  MessageOptions_p_messageSetWireFormat : option bool;
  MessageOptions_p_noStandardDescriptorAccessor : option bool;
  MessageOptions_p_deprecated : option bool;
  MessageOptions_p_mapEntry : option bool;
  MessageOptions_p_deprecatedLegacyJsonFieldConflicts : option bool;
  MessageOptions_p_features : option FeatureSet_Partial;
  MessageOptions_p_uninterpretedOption : option (list UninterpretedOption_Partial)
}.

Definition MessageOptions_with_messageSetWireFormat (v : option bool) (m : MessageOptions)
    : MessageOptions :=
  mkMessageOptions v (MessageOptions_noStandardDescriptorAccessor m) (MessageOptions_deprecated m)
    (MessageOptions_mapEntry m) (MessageOptions_deprecatedLegacyJsonFieldConflicts m)
    (MessageOptions_features m) (MessageOptions_uninterpretedOption m).

Definition MessageOptions_with_noStandardDescriptorAccessor (v : option bool) (m : MessageOptions)
    : MessageOptions :=
  mkMessageOptions (MessageOptions_messageSetWireFormat m) v (MessageOptions_deprecated m)
    (MessageOptions_mapEntry m) (MessageOptions_deprecatedLegacyJsonFieldConflicts m)
    (MessageOptions_features m) (MessageOptions_uninterpretedOption m).

Definition MessageOptions_with_deprecated (v : option bool) (m : MessageOptions) : MessageOptions :=
  mkMessageOptions (MessageOptions_messageSetWireFormat m)
    (MessageOptions_noStandardDescriptorAccessor m) v (MessageOptions_mapEntry m)
    (MessageOptions_deprecatedLegacyJsonFieldConflicts m) (MessageOptions_features m)
    (MessageOptions_uninterpretedOption m).

Definition MessageOptions_with_mapEntry (v : option bool) (m : MessageOptions) : MessageOptions :=
  mkMessageOptions (MessageOptions_messageSetWireFormat m)
    (MessageOptions_noStandardDescriptorAccessor m) (MessageOptions_deprecated m) v
    (MessageOptions_deprecatedLegacyJsonFieldConflicts m) (MessageOptions_features m)
    (MessageOptions_uninterpretedOption m).

Definition MessageOptions_with_deprecatedLegacyJsonFieldConflicts (v : option bool)
    (m : MessageOptions) : MessageOptions :=
  mkMessageOptions (MessageOptions_messageSetWireFormat m)
    (MessageOptions_noStandardDescriptorAccessor m) (MessageOptions_deprecated m)
    (MessageOptions_mapEntry m) v (MessageOptions_features m) (MessageOptions_uninterpretedOption
    m).

Definition MessageOptions_with_features (v : option FeatureSet) (m : MessageOptions)
    : MessageOptions :=
  mkMessageOptions (MessageOptions_messageSetWireFormat m)
    (MessageOptions_noStandardDescriptorAccessor m) (MessageOptions_deprecated m)
    (MessageOptions_mapEntry m) (MessageOptions_deprecatedLegacyJsonFieldConflicts m) v
    (MessageOptions_uninterpretedOption m).

Definition MessageOptions_with_uninterpretedOption (v : list UninterpretedOption)
    (m : MessageOptions) : MessageOptions :=
  mkMessageOptions (MessageOptions_messageSetWireFormat m)
    (MessageOptions_noStandardDescriptorAccessor m) (MessageOptions_deprecated m)
    (MessageOptions_mapEntry m) (MessageOptions_deprecatedLegacyJsonFieldConflicts m)
    (MessageOptions_features m) v.

Definition createBaseMessageOptions : MessageOptions :=
  {| MessageOptions_messageSetWireFormat := (Some false);
     MessageOptions_noStandardDescriptorAccessor := (Some false);
     MessageOptions_deprecated := (Some false);
     MessageOptions_mapEntry := (Some false);
     MessageOptions_deprecatedLegacyJsonFieldConflicts := (Some false);
     MessageOptions_features := None;
     MessageOptions_uninterpretedOption := [] |}.

Definition MessageOptions_encode (message : MessageOptions) (w : writer) : jsres writer :=
  let* w := match MessageOptions_messageSetWireFormat message with
             | Some v => if negb (Bool.eqb v false) then
                           let* w := w_uint32 (Int 8) w in w_bool v w
                         else Ok w
             | None => Ok w
             end in
  let* w := match MessageOptions_noStandardDescriptorAccessor message with
             | Some v => if negb (Bool.eqb v false) then
                           let* w := w_uint32 (Int 16) w in w_bool v w
                         else Ok w
             | None => Ok w
             end in
  let* w := match MessageOptions_deprecated message with
             | Some v => if negb (Bool.eqb v false) then
                           let* w := w_uint32 (Int 24) w in w_bool v w
                         else Ok w
             | None => Ok w
             end in
  let* w := match MessageOptions_mapEntry message with
             | Some v => if negb (Bool.eqb v false) then
                           let* w := w_uint32 (Int 56) w in w_bool v w
                         else Ok w
             | None => Ok w
             end in
  let* w := match MessageOptions_deprecatedLegacyJsonFieldConflicts message with
             | Some v => if negb (Bool.eqb v false) then
                           let* w := w_uint32 (Int 88) w in w_bool v w
                         else Ok w
             | None => Ok w
             end in
  let* w := match MessageOptions_features message with
             | Some v => let* w := w_uint32 (Int 98) w in
                         let* w := FeatureSet_encode v (fork w) in w_join w
             | None => Ok w
             end in
  let* w := for_each (fun v w => let* w := w_uint32 (Int 7994) w in
                               let* w := UninterpretedOption_encode v (fork w) in w_join w)
               (MessageOptions_uninterpretedOption message) w in
  Ok w.

Definition MessageOptions_switch (fuel : nat) (tag : Z) (message : MessageOptions) (r : reader)
    : jsres (flow MessageOptions) :=
  let field := Z.shiftr tag 3 in
  if field =? 1 then
    if negb (tag =? 8) then Ok Break
    else
      let* (v, r) := r_bool r in
          Ok (Continue (MessageOptions_with_messageSetWireFormat (Some v) message) r)
  else if field =? 2 then
    if negb (tag =? 16) then Ok Break
    else
      let* (v, r) := r_bool r in
          Ok (Continue (MessageOptions_with_noStandardDescriptorAccessor (Some v) message) r)
  else if field =? 3 then
    if negb (tag =? 24) then Ok Break
    else
      let* (v, r) := r_bool r in Ok (Continue (MessageOptions_with_deprecated (Some v) message) r)
  else if field =? 7 then
    if negb (tag =? 56) then Ok Break
    else
      let* (v, r) := r_bool r in Ok (Continue (MessageOptions_with_mapEntry (Some v) message) r)
  else if field =? 11 then
    if negb (tag =? 88) then Ok Break
    else
      let* (v, r) := r_bool r in
          Ok (Continue (MessageOptions_with_deprecatedLegacyJsonFieldConflicts (Some v) message) r)
  else if field =? 12 then
    if negb (tag =? 98) then Ok Break
    else
      let* (l, r) := r_uint32 r in
      let* (v, r) := FeatureSet_decode fuel (InReader r) (Some l) in
      Ok (Continue (MessageOptions_with_features (Some v) message) r)
  else if field =? 999 then
    if negb (tag =? 7994) then Ok Break
    else
      let* (l, r) := r_uint32 r in
      let* (v, r) := UninterpretedOption_decode fuel (InReader r) (Some l) in
      Ok (Continue (MessageOptions_with_uninterpretedOption (MessageOptions_uninterpretedOption
          message ++ [v]) message) r)
  else Ok Break.

Definition MessageOptions_decode (fuel : nat) (i : input) (length : option Z)
    : jsres (MessageOptions * reader) :=
  decode_with (MessageOptions_switch fuel) createBaseMessageOptions fuel i length.

Definition MessageOptions_fromJSON (object : value) : jsres MessageOptions :=
  let* messageSetWireFormat_ := field object "messageSetWireFormat" to_bool false in
  let* noStandardDescriptorAccessor_ := field object "noStandardDescriptorAccessor" to_bool false in
  let* deprecated_ := field object "deprecated" to_bool false in
  let* mapEntry_ := field object "mapEntry" to_bool false in
  let* deprecatedLegacyJsonFieldConflicts_ := field object "deprecatedLegacyJsonFieldConflicts"
      to_bool false in
  let* features_ := opt_field object "features" FeatureSet_fromJSON in
  let* uninterpretedOption_ := array_field object "uninterpretedOption"
      UninterpretedOption_fromJSON in
  Ok (mkMessageOptions (Some messageSetWireFormat_) (Some noStandardDescriptorAccessor_) (Some
    deprecated_) (Some mapEntry_) (Some deprecatedLegacyJsonFieldConflicts_) features_
    uninterpretedOption_).

Definition MessageOptions_toJSON (message : MessageOptions) : value :=
  let obj : props := [] in
  let obj := put_defined (MessageOptions_messageSetWireFormat message) (fun v => negb (Bool.eqb v
    false)) "messageSetWireFormat" (fun v => VBool v) obj in
  let obj := put_defined (MessageOptions_noStandardDescriptorAccessor message) (fun v => negb
    (Bool.eqb v false)) "noStandardDescriptorAccessor" (fun v => VBool v) obj in
  let obj := put_defined (MessageOptions_deprecated message) (fun v => negb (Bool.eqb v false))
    "deprecated" (fun v => VBool v) obj in
  let obj := put_defined (MessageOptions_mapEntry message) (fun v => negb (Bool.eqb v false))
    "mapEntry" (fun v => VBool v) obj in
  let obj := put_defined (MessageOptions_deprecatedLegacyJsonFieldConflicts message) (fun v =>
    negb (Bool.eqb v false)) "deprecatedLegacyJsonFieldConflicts" (fun v => VBool v) obj in
  let obj := put_defined (MessageOptions_features message) (fun _ => true) "features" (fun v =>
    FeatureSet_toJSON v) obj in
  let obj := put_if (has_length (MessageOptions_uninterpretedOption message))
    "uninterpretedOption" (VArray (map UninterpretedOption_toJSON
    (MessageOptions_uninterpretedOption message))) obj in
  VObject obj.

Definition MessageOptions_fromPartial (object : MessageOptions_Partial) : MessageOptions :=
  let message := createBaseMessageOptions in
  let message := MessageOptions_with_messageSetWireFormat (Some (nullish
      (MessageOptions_p_messageSetWireFormat object) false)) message in
  let message := MessageOptions_with_noStandardDescriptorAccessor (Some (nullish
      (MessageOptions_p_noStandardDescriptorAccessor object) false)) message in
  let message := MessageOptions_with_deprecated (Some (nullish (MessageOptions_p_deprecated object)
      false)) message in
  let message := MessageOptions_with_mapEntry (Some (nullish (MessageOptions_p_mapEntry object)
      false)) message in
  let message := MessageOptions_with_deprecatedLegacyJsonFieldConflicts (Some (nullish
      (MessageOptions_p_deprecatedLegacyJsonFieldConflicts object) false)) message in
  let message := MessageOptions_with_features (option_map FeatureSet_fromPartial
      (MessageOptions_p_features object)) message in
  let message := MessageOptions_with_uninterpretedOption (nullish (option_map (map
      UninterpretedOption_fromPartial) (MessageOptions_p_uninterpretedOption object)) []) message in
  message.

Definition MessageOptions_create (base : option MessageOptions_Partial) : MessageOptions :=
  MessageOptions_fromPartial (nullish base (mkMessageOptions_Partial None None None None None None
      None)).

Definition MessageOptions_toPartial (m : MessageOptions) : MessageOptions_Partial :=
  mkMessageOptions_Partial (MessageOptions_messageSetWireFormat m)
    (MessageOptions_noStandardDescriptorAccessor m) (MessageOptions_deprecated m)
    (MessageOptions_mapEntry m) (MessageOptions_deprecatedLegacyJsonFieldConflicts m) (option_map
    FeatureSet_toPartial (MessageOptions_features m)) (Some (map UninterpretedOption_toPartial
    (MessageOptions_uninterpretedOption m))).

(** ** [MethodOptions] *)

Record MethodOptions : Type := mkMethodOptions {
  MethodOptions_deprecated : option bool;
  MethodOptions_idempotencyLevel : option Z;
  MethodOptions_features : option FeatureSet;
  MethodOptions_uninterpretedOption : list UninterpretedOption
}.

Record MethodOptions_Partial : Type := mkMethodOptions_Partial {
  MethodOptions_p_deprecated : option bool;
  MethodOptions_p_idempotencyLevel : option Z;
  MethodOptions_p_features : option FeatureSet_Partial;
  MethodOptions_p_uninterpretedOption : option (list UninterpretedOption_Partial)
}.

Definition MethodOptions_with_deprecated (v : option bool) (m : MethodOptions) : MethodOptions :=
  mkMethodOptions v (MethodOptions_idempotencyLevel m) (MethodOptions_features m)
    (MethodOptions_uninterpretedOption m).

Definition MethodOptions_with_idempotencyLevel (v : option Z) (m : MethodOptions) : MethodOptions :=
  mkMethodOptions (MethodOptions_deprecated m) v (MethodOptions_features m)
    (MethodOptions_uninterpretedOption m).

Definition MethodOptions_with_features (v : option FeatureSet) (m : MethodOptions)
    : MethodOptions :=
  mkMethodOptions (MethodOptions_deprecated m) (MethodOptions_idempotencyLevel m) v
    (MethodOptions_uninterpretedOption m).

Definition MethodOptions_with_uninterpretedOption (v : list UninterpretedOption)
    (m : MethodOptions) : MethodOptions :=
  mkMethodOptions (MethodOptions_deprecated m) (MethodOptions_idempotencyLevel m)
    (MethodOptions_features m) v.

Definition createBaseMethodOptions : MethodOptions :=
  {| MethodOptions_deprecated := (Some false);
     MethodOptions_idempotencyLevel := (Some 0);
     MethodOptions_features := None;
     MethodOptions_uninterpretedOption := [] |}.

Definition MethodOptions_encode (message : MethodOptions) (w : writer) : jsres writer :=
  let* w := match MethodOptions_deprecated message with
             | Some v => if negb (Bool.eqb v false) then
                           let* w := w_uint32 (Int 264) w in w_bool v w
                         else Ok w
             | None => Ok w
             end in
  let* w := match MethodOptions_idempotencyLevel message with
             | Some v => if negb (v =? 0) then
                           let* w := w_uint32 (Int 272) w in w_int32 (Int v) w
                         else Ok w
             | None => Ok w
             end in
  let* w := match MethodOptions_features message with
             | Some v => let* w := w_uint32 (Int 282) w in
                         let* w := FeatureSet_encode v (fork w) in w_join w
             | None => Ok w
             end in
  let* w := for_each (fun v w => let* w := w_uint32 (Int 7994) w in
                               let* w := UninterpretedOption_encode v (fork w) in w_join w)
               (MethodOptions_uninterpretedOption message) w in
  Ok w.

Definition MethodOptions_switch (fuel : nat) (tag : Z) (message : MethodOptions) (r : reader)
    : jsres (flow MethodOptions) :=
  let field := Z.shiftr tag 3 in
  if field =? 33 then
    if negb (tag =? 264) then Ok Break
    else
      let* (v, r) := r_bool r in Ok (Continue (MethodOptions_with_deprecated (Some v) message) r)
  else if field =? 34 then
    if negb (tag =? 272) then Ok Break
    else
      let* (v, r) := r_int32 r in
          Ok (Continue (MethodOptions_with_idempotencyLevel (Some v) message) r)
  else if field =? 35 then
    if negb (tag =? 282) then Ok Break
    else
      let* (l, r) := r_uint32 r in
      let* (v, r) := FeatureSet_decode fuel (InReader r) (Some l) in
      Ok (Continue (MethodOptions_with_features (Some v) message) r)
  else if field =? 999 then
    if negb (tag =? 7994) then Ok Break
    else
      let* (l, r) := r_uint32 r in
      let* (v, r) := UninterpretedOption_decode fuel (InReader r) (Some l) in
      Ok (Continue (MethodOptions_with_uninterpretedOption (MethodOptions_uninterpretedOption
          message ++ [v]) message) r)
  else Ok Break.

Definition MethodOptions_decode (fuel : nat) (i : input) (length : option Z)
    : jsres (MethodOptions * reader) :=
  decode_with (MethodOptions_switch fuel) createBaseMethodOptions fuel i length.

Definition MethodOptions_fromJSON (object : value) : jsres MethodOptions :=
  let* deprecated_ := field object "deprecated" to_bool false in
  let* idempotencyLevel_ := field object "idempotencyLevel" (fun v => Ok
      (MethodOptions_IdempotencyLevel_num (methodOptions_IdempotencyLevelFromJSON v))) 0 in
  let* features_ := opt_field object "features" FeatureSet_fromJSON in
  let* uninterpretedOption_ := array_field object "uninterpretedOption"
      UninterpretedOption_fromJSON in
  Ok (mkMethodOptions (Some deprecated_) (Some idempotencyLevel_) features_ uninterpretedOption_).

Definition MethodOptions_toJSON (message : MethodOptions) : value :=
  let obj : props := [] in
  let obj := put_defined (MethodOptions_deprecated message) (fun v => negb (Bool.eqb v false))
    "deprecated" (fun v => VBool v) obj in
  let obj := put_defined (MethodOptions_idempotencyLevel message) (fun v => negb (v =? 0))
    "idempotencyLevel" (fun v => VString (methodOptions_IdempotencyLevelToJSON v)) obj in
  let obj := put_defined (MethodOptions_features message) (fun _ => true) "features" (fun v =>
    FeatureSet_toJSON v) obj in
  let obj := put_if (has_length (MethodOptions_uninterpretedOption message)) "uninterpretedOption"
    (VArray (map UninterpretedOption_toJSON (MethodOptions_uninterpretedOption message))) obj in
  VObject obj.

Definition MethodOptions_fromPartial (object : MethodOptions_Partial) : MethodOptions :=
  let message := createBaseMethodOptions in
  let message := MethodOptions_with_deprecated (Some (nullish (MethodOptions_p_deprecated object)
      false)) message in
  let message := MethodOptions_with_idempotencyLevel (Some (nullish
      (MethodOptions_p_idempotencyLevel object) 0)) message in
  let message := MethodOptions_with_features (option_map FeatureSet_fromPartial
      (MethodOptions_p_features object)) message in
  let message := MethodOptions_with_uninterpretedOption (nullish (option_map (map
      UninterpretedOption_fromPartial) (MethodOptions_p_uninterpretedOption object)) []) message in
  message.

Definition MethodOptions_create (base : option MethodOptions_Partial) : MethodOptions :=
  MethodOptions_fromPartial (nullish base (mkMethodOptions_Partial None None None None)).

Definition MethodOptions_toPartial (m : MethodOptions) : MethodOptions_Partial :=
  mkMethodOptions_Partial (MethodOptions_deprecated m) (MethodOptions_idempotencyLevel m)
    (option_map FeatureSet_toPartial (MethodOptions_features m)) (Some (map
    UninterpretedOption_toPartial (MethodOptions_uninterpretedOption m))).

(** ** [ServiceOptions] *)

Record ServiceOptions : Type := mkServiceOptions {
  ServiceOptions_features : option FeatureSet;
  ServiceOptions_deprecated : option bool;
  ServiceOptions_uninterpretedOption : list UninterpretedOption
}.

Record ServiceOptions_Partial : Type := mkServiceOptions_Partial {
  ServiceOptions_p_features : option FeatureSet_Partial;
  ServiceOptions_p_deprecated : option bool;
  ServiceOptions_p_uninterpretedOption : option (list UninterpretedOption_Partial)
}.

Definition ServiceOptions_with_features (v : option FeatureSet) (m : ServiceOptions)
    : ServiceOptions :=
  mkServiceOptions v (ServiceOptions_deprecated m) (ServiceOptions_uninterpretedOption m).

Definition ServiceOptions_with_deprecated (v : option bool) (m : ServiceOptions) : ServiceOptions :=
  mkServiceOptions (ServiceOptions_features m) v (ServiceOptions_uninterpretedOption m).

Definition ServiceOptions_with_uninterpretedOption (v : list UninterpretedOption)
    (m : ServiceOptions) : ServiceOptions :=
  mkServiceOptions (ServiceOptions_features m) (ServiceOptions_deprecated m) v.

Definition createBaseServiceOptions : ServiceOptions :=
  {| ServiceOptions_features := None;
     ServiceOptions_deprecated := (Some false);
     ServiceOptions_uninterpretedOption := [] |}.

Definition ServiceOptions_encode (message : ServiceOptions) (w : writer) : jsres writer :=
  let* w := match ServiceOptions_features message with
             | Some v => let* w := w_uint32 (Int 274) w in
                         let* w := FeatureSet_encode v (fork w) in w_join w
             | None => Ok w
             end in
  let* w := match ServiceOptions_deprecated message with
             | Some v => if negb (Bool.eqb v false) then
                           let* w := w_uint32 (Int 264) w in w_bool v w
                         else Ok w
             | None => Ok w
             end in
  let* w := for_each (fun v w => let* w := w_uint32 (Int 7994) w in
                               let* w := UninterpretedOption_encode v (fork w) in w_join w)
               (ServiceOptions_uninterpretedOption message) w in
  Ok w.

Definition ServiceOptions_switch (fuel : nat) (tag : Z) (message : ServiceOptions) (r : reader)
    : jsres (flow ServiceOptions) :=
  let field := Z.shiftr tag 3 in
  if field =? 34 then
    if negb (tag =? 274) then Ok Break
    else
      let* (l, r) := r_uint32 r in
      let* (v, r) := FeatureSet_decode fuel (InReader r) (Some l) in
      Ok (Continue (ServiceOptions_with_features (Some v) message) r)
  else if field =? 33 then
    if negb (tag =? 264) then Ok Break
    else
      let* (v, r) := r_bool r in Ok (Continue (ServiceOptions_with_deprecated (Some v) message) r)
  else if field =? 999 then
    if negb (tag =? 7994) then Ok Break
    else
      let* (l, r) := r_uint32 r in
      let* (v, r) := UninterpretedOption_decode fuel (InReader r) (Some l) in
      Ok (Continue (ServiceOptions_with_uninterpretedOption (ServiceOptions_uninterpretedOption
          message ++ [v]) message) r)
  else Ok Break.

Definition ServiceOptions_decode (fuel : nat) (i : input) (length : option Z)
    : jsres (ServiceOptions * reader) :=
  decode_with (ServiceOptions_switch fuel) createBaseServiceOptions fuel i length.

Definition ServiceOptions_fromJSON (object : value) : jsres ServiceOptions :=
  let* features_ := opt_field object "features" FeatureSet_fromJSON in
  let* deprecated_ := field object "deprecated" to_bool false in
  let* uninterpretedOption_ := array_field object "uninterpretedOption"
      UninterpretedOption_fromJSON in
  Ok (mkServiceOptions features_ (Some deprecated_) uninterpretedOption_).

Definition ServiceOptions_toJSON (message : ServiceOptions) : value :=
  let obj : props := [] in
  let obj := put_defined (ServiceOptions_features message) (fun _ => true) "features" (fun v =>
    FeatureSet_toJSON v) obj in
  let obj := put_defined (ServiceOptions_deprecated message) (fun v => negb (Bool.eqb v false))
    "deprecated" (fun v => VBool v) obj in
  let obj := put_if (has_length (ServiceOptions_uninterpretedOption message))
    "uninterpretedOption" (VArray (map UninterpretedOption_toJSON
    (ServiceOptions_uninterpretedOption message))) obj in
  VObject obj.

Definition ServiceOptions_fromPartial (object : ServiceOptions_Partial) : ServiceOptions :=
  let message := createBaseServiceOptions in
  let message := ServiceOptions_with_features (option_map FeatureSet_fromPartial
      (ServiceOptions_p_features object)) message in
  let message := ServiceOptions_with_deprecated (Some (nullish (ServiceOptions_p_deprecated object)
      false)) message in
  let message := ServiceOptions_with_uninterpretedOption (nullish (option_map (map
      UninterpretedOption_fromPartial) (ServiceOptions_p_uninterpretedOption object)) []) message in
  message.

Definition ServiceOptions_create (base : option ServiceOptions_Partial) : ServiceOptions :=
  ServiceOptions_fromPartial (nullish base (mkServiceOptions_Partial None None None)).

Definition ServiceOptions_toPartial (m : ServiceOptions) : ServiceOptions_Partial :=
  mkServiceOptions_Partial (option_map FeatureSet_toPartial (ServiceOptions_features m))
    (ServiceOptions_deprecated m) (Some (map UninterpretedOption_toPartial
    (ServiceOptions_uninterpretedOption m))).

(** ** [FileOptions] *)

Record FileOptions : Type := mkFileOptions {
  FileOptions_javaPackage : option jsstring;
  FileOptions_javaOuterClassname : option jsstring;
  FileOptions_javaMultipleFiles : option bool;
  FileOptions_javaGenerateEqualsAndHash : option bool;
  FileOptions_javaStringCheckUtf8 : option bool;
  FileOptions_optimizeFor : option Z;
  FileOptions_goPackage : option jsstring;
  FileOptions_ccGenericServices : option bool;
  FileOptions_javaGenericServices : option bool;
  FileOptions_pyGenericServices : option bool;
  FileOptions_deprecated : option bool;
  FileOptions_ccEnableArenas : option bool;
  FileOptions_objcClassPrefix : option jsstring;
  FileOptions_csharpNamespace : option jsstring;
  FileOptions_swiftPrefix : option jsstring;
  FileOptions_phpClassPrefix : option jsstring;
  FileOptions_phpNamespace : option jsstring;
  FileOptions_phpMetadataNamespace : option jsstring;
  FileOptions_rubyPackage : option jsstring;
  FileOptions_features : option FeatureSet;
  FileOptions_uninterpretedOption : list UninterpretedOption
}.

Record FileOptions_Partial : Type := mkFileOptions_Partial {
  FileOptions_p_javaPackage : option jsstring;
  FileOptions_p_javaOuterClassname : option jsstring;
  FileOptions_p_javaMultipleFiles : option bool;
  FileOptions_p_javaGenerateEqualsAndHash : option bool;
  FileOptions_p_javaStringCheckUtf8 : option bool;
  FileOptions_p_optimizeFor : option Z;
  FileOptions_p_goPackage : option jsstring;
  FileOptions_p_ccGenericServices : option bool;
  FileOptions_p_javaGenericServices : option bool;
  FileOptions_p_pyGenericServices : option bool;
  FileOptions_p_deprecated : option bool;
  FileOptions_p_ccEnableArenas : option bool;
  FileOptions_p_objcClassPrefix : option jsstring;
  FileOptions_p_csharpNamespace : option jsstring;
  FileOptions_p_swiftPrefix : option jsstring;
  FileOptions_p_phpClassPrefix : option jsstring;
  FileOptions_p_phpNamespace : option jsstring;
  FileOptions_p_phpMetadataNamespace : option jsstring;
  FileOptions_p_rubyPackage : option jsstring;
  FileOptions_p_features : option FeatureSet_Partial;
  FileOptions_p_uninterpretedOption : option (list UninterpretedOption_Partial)
}.

Definition FileOptions_with_javaPackage (v : option jsstring) (m : FileOptions) : FileOptions :=
  mkFileOptions v (FileOptions_javaOuterClassname m) (FileOptions_javaMultipleFiles m)
    (FileOptions_javaGenerateEqualsAndHash m) (FileOptions_javaStringCheckUtf8 m)
    (FileOptions_optimizeFor m) (FileOptions_goPackage m) (FileOptions_ccGenericServices m)
    (FileOptions_javaGenericServices m) (FileOptions_pyGenericServices m) (FileOptions_deprecated
    m) (FileOptions_ccEnableArenas m) (FileOptions_objcClassPrefix m) (FileOptions_csharpNamespace
    m) (FileOptions_swiftPrefix m) (FileOptions_phpClassPrefix m) (FileOptions_phpNamespace m)
    (FileOptions_phpMetadataNamespace m) (FileOptions_rubyPackage m) (FileOptions_features m)
    (FileOptions_uninterpretedOption m).

Definition FileOptions_with_javaOuterClassname (v : option jsstring) (m : FileOptions)
    : FileOptions :=
  mkFileOptions (FileOptions_javaPackage m) v (FileOptions_javaMultipleFiles m)
    (FileOptions_javaGenerateEqualsAndHash m) (FileOptions_javaStringCheckUtf8 m)
    (FileOptions_optimizeFor m) (FileOptions_goPackage m) (FileOptions_ccGenericServices m)
    (FileOptions_javaGenericServices m) (FileOptions_pyGenericServices m) (FileOptions_deprecated
    m) (FileOptions_ccEnableArenas m) (FileOptions_objcClassPrefix m) (FileOptions_csharpNamespace
    m) (FileOptions_swiftPrefix m) (FileOptions_phpClassPrefix m) (FileOptions_phpNamespace m)
    (FileOptions_phpMetadataNamespace m) (FileOptions_rubyPackage m) (FileOptions_features m)
    (FileOptions_uninterpretedOption m).

Definition FileOptions_with_javaMultipleFiles (v : option bool) (m : FileOptions) : FileOptions :=
  mkFileOptions (FileOptions_javaPackage m) (FileOptions_javaOuterClassname m) v
    (FileOptions_javaGenerateEqualsAndHash m) (FileOptions_javaStringCheckUtf8 m)
    (FileOptions_optimizeFor m) (FileOptions_goPackage m) (FileOptions_ccGenericServices m)
    (FileOptions_javaGenericServices m) (FileOptions_pyGenericServices m) (FileOptions_deprecated
    m) (FileOptions_ccEnableArenas m) (FileOptions_objcClassPrefix m) (FileOptions_csharpNamespace
    m) (FileOptions_swiftPrefix m) (FileOptions_phpClassPrefix m) (FileOptions_phpNamespace m)
    (FileOptions_phpMetadataNamespace m) (FileOptions_rubyPackage m) (FileOptions_features m)
    (FileOptions_uninterpretedOption m).

Definition FileOptions_with_javaGenerateEqualsAndHash (v : option bool) (m : FileOptions)
    : FileOptions :=
  mkFileOptions (FileOptions_javaPackage m) (FileOptions_javaOuterClassname m)
    (FileOptions_javaMultipleFiles m) v (FileOptions_javaStringCheckUtf8 m)
    (FileOptions_optimizeFor m) (FileOptions_goPackage m) (FileOptions_ccGenericServices m)
    (FileOptions_javaGenericServices m) (FileOptions_pyGenericServices m) (FileOptions_deprecated
    m) (FileOptions_ccEnableArenas m) (FileOptions_objcClassPrefix m) (FileOptions_csharpNamespace
    m) (FileOptions_swiftPrefix m) (FileOptions_phpClassPrefix m) (FileOptions_phpNamespace m)
    (FileOptions_phpMetadataNamespace m) (FileOptions_rubyPackage m) (FileOptions_features m)
    (FileOptions_uninterpretedOption m).

Definition FileOptions_with_javaStringCheckUtf8 (v : option bool) (m : FileOptions) : FileOptions :=
  mkFileOptions (FileOptions_javaPackage m) (FileOptions_javaOuterClassname m)
    (FileOptions_javaMultipleFiles m) (FileOptions_javaGenerateEqualsAndHash m) v
    (FileOptions_optimizeFor m) (FileOptions_goPackage m) (FileOptions_ccGenericServices m)
    (FileOptions_javaGenericServices m) (FileOptions_pyGenericServices m) (FileOptions_deprecated
    m) (FileOptions_ccEnableArenas m) (FileOptions_objcClassPrefix m) (FileOptions_csharpNamespace
    m) (FileOptions_swiftPrefix m) (FileOptions_phpClassPrefix m) (FileOptions_phpNamespace m)
    (FileOptions_phpMetadataNamespace m) (FileOptions_rubyPackage m) (FileOptions_features m)
    (FileOptions_uninterpretedOption m).

Definition FileOptions_with_optimizeFor (v : option Z) (m : FileOptions) : FileOptions :=
  mkFileOptions (FileOptions_javaPackage m) (FileOptions_javaOuterClassname m)
    (FileOptions_javaMultipleFiles m) (FileOptions_javaGenerateEqualsAndHash m)
    (FileOptions_javaStringCheckUtf8 m) v (FileOptions_goPackage m) (FileOptions_ccGenericServices
    m) (FileOptions_javaGenericServices m) (FileOptions_pyGenericServices m)
    (FileOptions_deprecated m) (FileOptions_ccEnableArenas m) (FileOptions_objcClassPrefix m)
    (FileOptions_csharpNamespace m) (FileOptions_swiftPrefix m) (FileOptions_phpClassPrefix m)
    (FileOptions_phpNamespace m) (FileOptions_phpMetadataNamespace m) (FileOptions_rubyPackage m)
    (FileOptions_features m) (FileOptions_uninterpretedOption m).

Definition FileOptions_with_goPackage (v : option jsstring) (m : FileOptions) : FileOptions :=
  mkFileOptions (FileOptions_javaPackage m) (FileOptions_javaOuterClassname m)
    (FileOptions_javaMultipleFiles m) (FileOptions_javaGenerateEqualsAndHash m)
    (FileOptions_javaStringCheckUtf8 m) (FileOptions_optimizeFor m) v
    (FileOptions_ccGenericServices m) (FileOptions_javaGenericServices m)
    (FileOptions_pyGenericServices m) (FileOptions_deprecated m) (FileOptions_ccEnableArenas m)
    (FileOptions_objcClassPrefix m) (FileOptions_csharpNamespace m) (FileOptions_swiftPrefix m)
    (FileOptions_phpClassPrefix m) (FileOptions_phpNamespace m) (FileOptions_phpMetadataNamespace
    m) (FileOptions_rubyPackage m) (FileOptions_features m) (FileOptions_uninterpretedOption m).

Definition FileOptions_with_ccGenericServices (v : option bool) (m : FileOptions) : FileOptions :=
  mkFileOptions (FileOptions_javaPackage m) (FileOptions_javaOuterClassname m)
    (FileOptions_javaMultipleFiles m) (FileOptions_javaGenerateEqualsAndHash m)
    (FileOptions_javaStringCheckUtf8 m) (FileOptions_optimizeFor m) (FileOptions_goPackage m) v
    (FileOptions_javaGenericServices m) (FileOptions_pyGenericServices m) (FileOptions_deprecated
    m) (FileOptions_ccEnableArenas m) (FileOptions_objcClassPrefix m) (FileOptions_csharpNamespace
    m) (FileOptions_swiftPrefix m) (FileOptions_phpClassPrefix m) (FileOptions_phpNamespace m)
    (FileOptions_phpMetadataNamespace m) (FileOptions_rubyPackage m) (FileOptions_features m)
    (FileOptions_uninterpretedOption m).

Definition FileOptions_with_javaGenericServices (v : option bool) (m : FileOptions) : FileOptions :=
  mkFileOptions (FileOptions_javaPackage m) (FileOptions_javaOuterClassname m)
    (FileOptions_javaMultipleFiles m) (FileOptions_javaGenerateEqualsAndHash m)
    (FileOptions_javaStringCheckUtf8 m) (FileOptions_optimizeFor m) (FileOptions_goPackage m)
    (FileOptions_ccGenericServices m) v (FileOptions_pyGenericServices m) (FileOptions_deprecated
    m) (FileOptions_ccEnableArenas m) (FileOptions_objcClassPrefix m) (FileOptions_csharpNamespace
    m) (FileOptions_swiftPrefix m) (FileOptions_phpClassPrefix m) (FileOptions_phpNamespace m)
    (FileOptions_phpMetadataNamespace m) (FileOptions_rubyPackage m) (FileOptions_features m)
    (FileOptions_uninterpretedOption m).

Definition FileOptions_with_pyGenericServices (v : option bool) (m : FileOptions) : FileOptions :=
  mkFileOptions (FileOptions_javaPackage m) (FileOptions_javaOuterClassname m)
    (FileOptions_javaMultipleFiles m) (FileOptions_javaGenerateEqualsAndHash m)
    (FileOptions_javaStringCheckUtf8 m) (FileOptions_optimizeFor m) (FileOptions_goPackage m)
    (FileOptions_ccGenericServices m) (FileOptions_javaGenericServices m) v
    (FileOptions_deprecated m) (FileOptions_ccEnableArenas m) (FileOptions_objcClassPrefix m)
    (FileOptions_csharpNamespace m) (FileOptions_swiftPrefix m) (FileOptions_phpClassPrefix m)
    (FileOptions_phpNamespace m) (FileOptions_phpMetadataNamespace m) (FileOptions_rubyPackage m)
    (FileOptions_features m) (FileOptions_uninterpretedOption m).

Definition FileOptions_with_deprecated (v : option bool) (m : FileOptions) : FileOptions :=
  mkFileOptions (FileOptions_javaPackage m) (FileOptions_javaOuterClassname m)
    (FileOptions_javaMultipleFiles m) (FileOptions_javaGenerateEqualsAndHash m)
    (FileOptions_javaStringCheckUtf8 m) (FileOptions_optimizeFor m) (FileOptions_goPackage m)
    (FileOptions_ccGenericServices m) (FileOptions_javaGenericServices m)
    (FileOptions_pyGenericServices m) v (FileOptions_ccEnableArenas m)
    (FileOptions_objcClassPrefix m) (FileOptions_csharpNamespace m) (FileOptions_swiftPrefix m)
    (FileOptions_phpClassPrefix m) (FileOptions_phpNamespace m) (FileOptions_phpMetadataNamespace
    m) (FileOptions_rubyPackage m) (FileOptions_features m) (FileOptions_uninterpretedOption m).

Definition FileOptions_with_ccEnableArenas (v : option bool) (m : FileOptions) : FileOptions :=
  mkFileOptions (FileOptions_javaPackage m) (FileOptions_javaOuterClassname m)
    (FileOptions_javaMultipleFiles m) (FileOptions_javaGenerateEqualsAndHash m)
    (FileOptions_javaStringCheckUtf8 m) (FileOptions_optimizeFor m) (FileOptions_goPackage m)
    (FileOptions_ccGenericServices m) (FileOptions_javaGenericServices m)
    (FileOptions_pyGenericServices m) (FileOptions_deprecated m) v (FileOptions_objcClassPrefix m)
    (FileOptions_csharpNamespace m) (FileOptions_swiftPrefix m) (FileOptions_phpClassPrefix m)
    (FileOptions_phpNamespace m) (FileOptions_phpMetadataNamespace m) (FileOptions_rubyPackage m)
    (FileOptions_features m) (FileOptions_uninterpretedOption m).

Definition FileOptions_with_objcClassPrefix (v : option jsstring) (m : FileOptions) : FileOptions :=
  mkFileOptions (FileOptions_javaPackage m) (FileOptions_javaOuterClassname m)
    (FileOptions_javaMultipleFiles m) (FileOptions_javaGenerateEqualsAndHash m)
    (FileOptions_javaStringCheckUtf8 m) (FileOptions_optimizeFor m) (FileOptions_goPackage m)
    (FileOptions_ccGenericServices m) (FileOptions_javaGenericServices m)
    (FileOptions_pyGenericServices m) (FileOptions_deprecated m) (FileOptions_ccEnableArenas m) v
    (FileOptions_csharpNamespace m) (FileOptions_swiftPrefix m) (FileOptions_phpClassPrefix m)
    (FileOptions_phpNamespace m) (FileOptions_phpMetadataNamespace m) (FileOptions_rubyPackage m)
    (FileOptions_features m) (FileOptions_uninterpretedOption m).

Definition FileOptions_with_csharpNamespace (v : option jsstring) (m : FileOptions) : FileOptions :=
  mkFileOptions (FileOptions_javaPackage m) (FileOptions_javaOuterClassname m)
    (FileOptions_javaMultipleFiles m) (FileOptions_javaGenerateEqualsAndHash m)
    (FileOptions_javaStringCheckUtf8 m) (FileOptions_optimizeFor m) (FileOptions_goPackage m)
    (FileOptions_ccGenericServices m) (FileOptions_javaGenericServices m)
    (FileOptions_pyGenericServices m) (FileOptions_deprecated m) (FileOptions_ccEnableArenas m)
    (FileOptions_objcClassPrefix m) v (FileOptions_swiftPrefix m) (FileOptions_phpClassPrefix m)
    (FileOptions_phpNamespace m) (FileOptions_phpMetadataNamespace m) (FileOptions_rubyPackage m)
    (FileOptions_features m) (FileOptions_uninterpretedOption m).

Definition FileOptions_with_swiftPrefix (v : option jsstring) (m : FileOptions) : FileOptions :=
  mkFileOptions (FileOptions_javaPackage m) (FileOptions_javaOuterClassname m)
    (FileOptions_javaMultipleFiles m) (FileOptions_javaGenerateEqualsAndHash m)
    (FileOptions_javaStringCheckUtf8 m) (FileOptions_optimizeFor m) (FileOptions_goPackage m)
    (FileOptions_ccGenericServices m) (FileOptions_javaGenericServices m)
    (FileOptions_pyGenericServices m) (FileOptions_deprecated m) (FileOptions_ccEnableArenas m)
    (FileOptions_objcClassPrefix m) (FileOptions_csharpNamespace m) v (FileOptions_phpClassPrefix
    m) (FileOptions_phpNamespace m) (FileOptions_phpMetadataNamespace m) (FileOptions_rubyPackage
    m) (FileOptions_features m) (FileOptions_uninterpretedOption m).

Definition FileOptions_with_phpClassPrefix (v : option jsstring) (m : FileOptions) : FileOptions :=
  mkFileOptions (FileOptions_javaPackage m) (FileOptions_javaOuterClassname m)
    (FileOptions_javaMultipleFiles m) (FileOptions_javaGenerateEqualsAndHash m)
    (FileOptions_javaStringCheckUtf8 m) (FileOptions_optimizeFor m) (FileOptions_goPackage m)
    (FileOptions_ccGenericServices m) (FileOptions_javaGenericServices m)
    (FileOptions_pyGenericServices m) (FileOptions_deprecated m) (FileOptions_ccEnableArenas m)
    (FileOptions_objcClassPrefix m) (FileOptions_csharpNamespace m) (FileOptions_swiftPrefix m) v
    (FileOptions_phpNamespace m) (FileOptions_phpMetadataNamespace m) (FileOptions_rubyPackage m)
    (FileOptions_features m) (FileOptions_uninterpretedOption m).

Definition FileOptions_with_phpNamespace (v : option jsstring) (m : FileOptions) : FileOptions :=
  mkFileOptions (FileOptions_javaPackage m) (FileOptions_javaOuterClassname m)
    (FileOptions_javaMultipleFiles m) (FileOptions_javaGenerateEqualsAndHash m)
    (FileOptions_javaStringCheckUtf8 m) (FileOptions_optimizeFor m) (FileOptions_goPackage m)
    (FileOptions_ccGenericServices m) (FileOptions_javaGenericServices m)
    (FileOptions_pyGenericServices m) (FileOptions_deprecated m) (FileOptions_ccEnableArenas m)
    (FileOptions_objcClassPrefix m) (FileOptions_csharpNamespace m) (FileOptions_swiftPrefix m)
    (FileOptions_phpClassPrefix m) v (FileOptions_phpMetadataNamespace m) (FileOptions_rubyPackage
    m) (FileOptions_features m) (FileOptions_uninterpretedOption m).

Definition FileOptions_with_phpMetadataNamespace (v : option jsstring) (m : FileOptions)
    : FileOptions :=
  mkFileOptions (FileOptions_javaPackage m) (FileOptions_javaOuterClassname m)
    (FileOptions_javaMultipleFiles m) (FileOptions_javaGenerateEqualsAndHash m)
    (FileOptions_javaStringCheckUtf8 m) (FileOptions_optimizeFor m) (FileOptions_goPackage m)
    (FileOptions_ccGenericServices m) (FileOptions_javaGenericServices m)
    (FileOptions_pyGenericServices m) (FileOptions_deprecated m) (FileOptions_ccEnableArenas m)
    (FileOptions_objcClassPrefix m) (FileOptions_csharpNamespace m) (FileOptions_swiftPrefix m)
    (FileOptions_phpClassPrefix m) (FileOptions_phpNamespace m) v (FileOptions_rubyPackage m)
    (FileOptions_features m) (FileOptions_uninterpretedOption m).

Definition FileOptions_with_rubyPackage (v : option jsstring) (m : FileOptions) : FileOptions :=
  mkFileOptions (FileOptions_javaPackage m) (FileOptions_javaOuterClassname m)
    (FileOptions_javaMultipleFiles m) (FileOptions_javaGenerateEqualsAndHash m)
    (FileOptions_javaStringCheckUtf8 m) (FileOptions_optimizeFor m) (FileOptions_goPackage m)
    (FileOptions_ccGenericServices m) (FileOptions_javaGenericServices m)
    (FileOptions_pyGenericServices m) (FileOptions_deprecated m) (FileOptions_ccEnableArenas m)
    (FileOptions_objcClassPrefix m) (FileOptions_csharpNamespace m) (FileOptions_swiftPrefix m)
    (FileOptions_phpClassPrefix m) (FileOptions_phpNamespace m) (FileOptions_phpMetadataNamespace
    m) v (FileOptions_features m) (FileOptions_uninterpretedOption m).

Definition FileOptions_with_features (v : option FeatureSet) (m : FileOptions) : FileOptions :=
  mkFileOptions (FileOptions_javaPackage m) (FileOptions_javaOuterClassname m)
    (FileOptions_javaMultipleFiles m) (FileOptions_javaGenerateEqualsAndHash m)
    (FileOptions_javaStringCheckUtf8 m) (FileOptions_optimizeFor m) (FileOptions_goPackage m)
    (FileOptions_ccGenericServices m) (FileOptions_javaGenericServices m)
    (FileOptions_pyGenericServices m) (FileOptions_deprecated m) (FileOptions_ccEnableArenas m)
    (FileOptions_objcClassPrefix m) (FileOptions_csharpNamespace m) (FileOptions_swiftPrefix m)
    (FileOptions_phpClassPrefix m) (FileOptions_phpNamespace m) (FileOptions_phpMetadataNamespace
    m) (FileOptions_rubyPackage m) v (FileOptions_uninterpretedOption m).

Definition FileOptions_with_uninterpretedOption (v : list UninterpretedOption) (m : FileOptions)
    : FileOptions :=
  mkFileOptions (FileOptions_javaPackage m) (FileOptions_javaOuterClassname m)
    (FileOptions_javaMultipleFiles m) (FileOptions_javaGenerateEqualsAndHash m)
    (FileOptions_javaStringCheckUtf8 m) (FileOptions_optimizeFor m) (FileOptions_goPackage m)
    (FileOptions_ccGenericServices m) (FileOptions_javaGenericServices m)
    (FileOptions_pyGenericServices m) (FileOptions_deprecated m) (FileOptions_ccEnableArenas m)
    (FileOptions_objcClassPrefix m) (FileOptions_csharpNamespace m) (FileOptions_swiftPrefix m)
    (FileOptions_phpClassPrefix m) (FileOptions_phpNamespace m) (FileOptions_phpMetadataNamespace
    m) (FileOptions_rubyPackage m) (FileOptions_features m) v.

Definition createBaseFileOptions : FileOptions :=
  {| FileOptions_javaPackage := (Some (js ""));
     FileOptions_javaOuterClassname := (Some (js ""));
     FileOptions_javaMultipleFiles := (Some false);
     FileOptions_javaGenerateEqualsAndHash := (Some false);
     FileOptions_javaStringCheckUtf8 := (Some false);
     FileOptions_optimizeFor := (Some 1);
     FileOptions_goPackage := (Some (js ""));
     FileOptions_ccGenericServices := (Some false);
     FileOptions_javaGenericServices := (Some false);
     FileOptions_pyGenericServices := (Some false);
     FileOptions_deprecated := (Some false);
     FileOptions_ccEnableArenas := (Some true);
     FileOptions_objcClassPrefix := (Some (js ""));
     FileOptions_csharpNamespace := (Some (js ""));
     FileOptions_swiftPrefix := (Some (js ""));
     FileOptions_phpClassPrefix := (Some (js ""));
     FileOptions_phpNamespace := (Some (js ""));
     FileOptions_phpMetadataNamespace := (Some (js ""));
     FileOptions_rubyPackage := (Some (js ""));
     FileOptions_features := None;
     FileOptions_uninterpretedOption := [] |}.

Definition FileOptions_encode (message : FileOptions) (w : writer) : jsres writer :=
  let* w := match FileOptions_javaPackage message with
             | Some v => if negb (str_eqb v (js "")) then
                           let* w := w_uint32 (Int 10) w in w_string v w
                         else Ok w
             | None => Ok w
             end in
  let* w := match FileOptions_javaOuterClassname message with
             | Some v => if negb (str_eqb v (js "")) then
                           let* w := w_uint32 (Int 66) w in w_string v w
                         else Ok w
             | None => Ok w
             end in
  let* w := match FileOptions_javaMultipleFiles message with
             | Some v => if negb (Bool.eqb v false) then
                           let* w := w_uint32 (Int 80) w in w_bool v w
                         else Ok w
             | None => Ok w
             end in
  let* w := match FileOptions_javaGenerateEqualsAndHash message with
             | Some v => if negb (Bool.eqb v false) then
                           let* w := w_uint32 (Int 160) w in w_bool v w
                         else Ok w
             | None => Ok w
             end in
  let* w := match FileOptions_javaStringCheckUtf8 message with
             | Some v => if negb (Bool.eqb v false) then
                           let* w := w_uint32 (Int 216) w in w_bool v w
                         else Ok w
             | None => Ok w
             end in
  let* w := match FileOptions_optimizeFor message with
             | Some v => if negb (v =? 1) then
                           let* w := w_uint32 (Int 72) w in w_int32 (Int v) w
                         else Ok w
             | None => Ok w
             end in
  let* w := match FileOptions_goPackage message with
             | Some v => if negb (str_eqb v (js "")) then
                           let* w := w_uint32 (Int 90) w in w_string v w
                         else Ok w
             | None => Ok w
             end in
  let* w := match FileOptions_ccGenericServices message with
             | Some v => if negb (Bool.eqb v false) then
                           let* w := w_uint32 (Int 128) w in w_bool v w
                         else Ok w
             | None => Ok w
             end in
  let* w := match FileOptions_javaGenericServices message with
             | Some v => if negb (Bool.eqb v false) then
                           let* w := w_uint32 (Int 136) w in w_bool v w
                         else Ok w
             | None => Ok w
             end in
  let* w := match FileOptions_pyGenericServices message with
             | Some v => if negb (Bool.eqb v false) then
                           let* w := w_uint32 (Int 144) w in w_bool v w
                         else Ok w
             | None => Ok w
             end in
  let* w := match FileOptions_deprecated message with
             | Some v => if negb (Bool.eqb v false) then
                           let* w := w_uint32 (Int 184) w in w_bool v w
                         else Ok w
             | None => Ok w
             end in
  let* w := match FileOptions_ccEnableArenas message with
             | Some v => if negb (Bool.eqb v true) then
                           let* w := w_uint32 (Int 248) w in w_bool v w
                         else Ok w
             | None => Ok w
             end in
  let* w := match FileOptions_objcClassPrefix message with
             | Some v => if negb (str_eqb v (js "")) then
                           let* w := w_uint32 (Int 290) w in w_string v w
                         else Ok w
             | None => Ok w
             end in
  let* w := match FileOptions_csharpNamespace message with
             | Some v => if negb (str_eqb v (js "")) then
                           let* w := w_uint32 (Int 298) w in w_string v w
                         else Ok w
             | None => Ok w
             end in
  let* w := match FileOptions_swiftPrefix message with
             | Some v => if negb (str_eqb v (js "")) then
                           let* w := w_uint32 (Int 314) w in w_string v w
                         else Ok w
             | None => Ok w
             end in
  let* w := match FileOptions_phpClassPrefix message with
             | Some v => if negb (str_eqb v (js "")) then
                           let* w := w_uint32 (Int 322) w in w_string v w
                         else Ok w
             | None => Ok w
             end in
  let* w := match FileOptions_phpNamespace message with
             | Some v => if negb (str_eqb v (js "")) then
                           let* w := w_uint32 (Int 330) w in w_string v w
                         else Ok w
             | None => Ok w
             end in
  let* w := match FileOptions_phpMetadataNamespace message with
             | Some v => if negb (str_eqb v (js "")) then
                           let* w := w_uint32 (Int 354) w in w_string v w
                         else Ok w
             | None => Ok w
             end in
  let* w := match FileOptions_rubyPackage message with
             | Some v => if negb (str_eqb v (js "")) then
                           let* w := w_uint32 (Int 362) w in w_string v w
                         else Ok w
             | None => Ok w
             end in
  let* w := match FileOptions_features message with
             | Some v => let* w := w_uint32 (Int 402) w in
                         let* w := FeatureSet_encode v (fork w) in w_join w
             | None => Ok w
             end in
  let* w := for_each (fun v w => let* w := w_uint32 (Int 7994) w in
                               let* w := UninterpretedOption_encode v (fork w) in w_join w)
               (FileOptions_uninterpretedOption message) w in
  Ok w.

Definition FileOptions_switch (fuel : nat) (tag : Z) (message : FileOptions) (r : reader)
    : jsres (flow FileOptions) :=
  let field := Z.shiftr tag 3 in
  if field =? 1 then
    if negb (tag =? 10) then Ok Break
    else
      let* (v, r) := r_string r in Ok (Continue (FileOptions_with_javaPackage (Some v) message) r)
  else if field =? 8 then
    if negb (tag =? 66) then Ok Break
    else
      let* (v, r) := r_string r in
          Ok (Continue (FileOptions_with_javaOuterClassname (Some v) message) r)
  else if field =? 10 then
    if negb (tag =? 80) then Ok Break
    else
      let* (v, r) := r_bool r in
          Ok (Continue (FileOptions_with_javaMultipleFiles (Some v) message) r)
  else if field =? 20 then
    if negb (tag =? 160) then Ok Break
    else
      let* (v, r) := r_bool r in
          Ok (Continue (FileOptions_with_javaGenerateEqualsAndHash (Some v) message) r)
  else if field =? 27 then
    if negb (tag =? 216) then Ok Break
    else
      let* (v, r) := r_bool r in
          Ok (Continue (FileOptions_with_javaStringCheckUtf8 (Some v) message) r)
  else if field =? 9 then
    if negb (tag =? 72) then Ok Break
    else
      let* (v, r) := r_int32 r in Ok (Continue (FileOptions_with_optimizeFor (Some v) message) r)
  else if field =? 11 then
    if negb (tag =? 90) then Ok Break
    else
      let* (v, r) := r_string r in Ok (Continue (FileOptions_with_goPackage (Some v) message) r)
  else if field =? 16 then
    if negb (tag =? 128) then Ok Break
    else
      let* (v, r) := r_bool r in
          Ok (Continue (FileOptions_with_ccGenericServices (Some v) message) r)
  else if field =? 17 then
    if negb (tag =? 136) then Ok Break
    else
      let* (v, r) := r_bool r in
          Ok (Continue (FileOptions_with_javaGenericServices (Some v) message) r)
  else if field =? 18 then
    if negb (tag =? 144) then Ok Break
    else
      let* (v, r) := r_bool r in
          Ok (Continue (FileOptions_with_pyGenericServices (Some v) message) r)
  else if field =? 23 then
    if negb (tag =? 184) then Ok Break
    else
      let* (v, r) := r_bool r in Ok (Continue (FileOptions_with_deprecated (Some v) message) r)
  else if field =? 31 then
    if negb (tag =? 248) then Ok Break
    else
      let* (v, r) := r_bool r in Ok (Continue (FileOptions_with_ccEnableArenas (Some v) message) r)
  else if field =? 36 then
    if negb (tag =? 290) then Ok Break
    else
      let* (v, r) := r_string r in
          Ok (Continue (FileOptions_with_objcClassPrefix (Some v) message) r)
  else if field =? 37 then
    if negb (tag =? 298) then Ok Break
    else
      let* (v, r) := r_string r in
          Ok (Continue (FileOptions_with_csharpNamespace (Some v) message) r)
  else if field =? 39 then
    if negb (tag =? 314) then Ok Break
    else
      let* (v, r) := r_string r in Ok (Continue (FileOptions_with_swiftPrefix (Some v) message) r)
  else if field =? 40 then
    if negb (tag =? 322) then Ok Break
    else
      let* (v, r) := r_string r in
          Ok (Continue (FileOptions_with_phpClassPrefix (Some v) message) r)
  else if field =? 41 then
    if negb (tag =? 330) then Ok Break
    else
      let* (v, r) := r_string r in Ok (Continue (FileOptions_with_phpNamespace (Some v) message) r)
  else if field =? 44 then
    if negb (tag =? 354) then Ok Break
    else
      let* (v, r) := r_string r in
          Ok (Continue (FileOptions_with_phpMetadataNamespace (Some v) message) r)
  else if field =? 45 then
    if negb (tag =? 362) then Ok Break
    else
      let* (v, r) := r_string r in Ok (Continue (FileOptions_with_rubyPackage (Some v) message) r)
  else if field =? 50 then
    if negb (tag =? 402) then Ok Break
    else
      let* (l, r) := r_uint32 r in
      let* (v, r) := FeatureSet_decode fuel (InReader r) (Some l) in
      Ok (Continue (FileOptions_with_features (Some v) message) r)
  else if field =? 999 then
    if negb (tag =? 7994) then Ok Break
    else
      let* (l, r) := r_uint32 r in
      let* (v, r) := UninterpretedOption_decode fuel (InReader r) (Some l) in
      Ok (Continue (FileOptions_with_uninterpretedOption (FileOptions_uninterpretedOption message
          ++ [v]) message) r)
  else Ok Break.

Definition FileOptions_decode (fuel : nat) (i : input) (length : option Z)
    : jsres (FileOptions * reader) :=
  decode_with (FileOptions_switch fuel) createBaseFileOptions fuel i length.

Definition FileOptions_fromJSON (object : value) : jsres FileOptions :=
  let* javaPackage_ := field object "javaPackage" to_string (js "") in
  let* javaOuterClassname_ := field object "javaOuterClassname" to_string (js "") in
  let* javaMultipleFiles_ := field object "javaMultipleFiles" to_bool false in
  let* javaGenerateEqualsAndHash_ := field object "javaGenerateEqualsAndHash" to_bool false in
  let* javaStringCheckUtf8_ := field object "javaStringCheckUtf8" to_bool false in
  let* optimizeFor_ := field object "optimizeFor" (fun v => Ok (FileOptions_OptimizeMode_num
      (fileOptions_OptimizeModeFromJSON v))) 1 in
  let* goPackage_ := field object "goPackage" to_string (js "") in
  let* ccGenericServices_ := field object "ccGenericServices" to_bool false in
  let* javaGenericServices_ := field object "javaGenericServices" to_bool false in
  let* pyGenericServices_ := field object "pyGenericServices" to_bool false in
  let* deprecated_ := field object "deprecated" to_bool false in
  let* ccEnableArenas_ := field object "ccEnableArenas" to_bool true in
  let* objcClassPrefix_ := field object "objcClassPrefix" to_string (js "") in
  let* csharpNamespace_ := field object "csharpNamespace" to_string (js "") in
  let* swiftPrefix_ := field object "swiftPrefix" to_string (js "") in
  let* phpClassPrefix_ := field object "phpClassPrefix" to_string (js "") in
  let* phpNamespace_ := field object "phpNamespace" to_string (js "") in
  let* phpMetadataNamespace_ := field object "phpMetadataNamespace" to_string (js "") in
  let* rubyPackage_ := field object "rubyPackage" to_string (js "") in
  let* features_ := opt_field object "features" FeatureSet_fromJSON in
  let* uninterpretedOption_ := array_field object "uninterpretedOption"
      UninterpretedOption_fromJSON in
  Ok (mkFileOptions (Some javaPackage_) (Some javaOuterClassname_) (Some javaMultipleFiles_) (Some
    javaGenerateEqualsAndHash_) (Some javaStringCheckUtf8_) (Some optimizeFor_) (Some goPackage_)
    (Some ccGenericServices_) (Some javaGenericServices_) (Some pyGenericServices_) (Some
    deprecated_) (Some ccEnableArenas_) (Some objcClassPrefix_) (Some csharpNamespace_) (Some
    swiftPrefix_) (Some phpClassPrefix_) (Some phpNamespace_) (Some phpMetadataNamespace_) (Some
    rubyPackage_) features_ uninterpretedOption_).

Definition FileOptions_toJSON (message : FileOptions) : value :=
  let obj : props := [] in
  let obj := put_defined (FileOptions_javaPackage message) (fun v => negb (str_eqb v (js "")))
    "javaPackage" (fun v => VString v) obj in
  let obj := put_defined (FileOptions_javaOuterClassname message) (fun v => negb (str_eqb v (js
    ""))) "javaOuterClassname" (fun v => VString v) obj in
  let obj := put_defined (FileOptions_javaMultipleFiles message) (fun v => negb (Bool.eqb v
    false)) "javaMultipleFiles" (fun v => VBool v) obj in
  let obj := put_defined (FileOptions_javaGenerateEqualsAndHash message) (fun v => negb (Bool.eqb
    v false)) "javaGenerateEqualsAndHash" (fun v => VBool v) obj in
  let obj := put_defined (FileOptions_javaStringCheckUtf8 message) (fun v => negb (Bool.eqb v
    false)) "javaStringCheckUtf8" (fun v => VBool v) obj in
  let obj := put_defined (FileOptions_optimizeFor message) (fun v => negb (v =? 1)) "optimizeFor"
    (fun v => VString (fileOptions_OptimizeModeToJSON v)) obj in
  let obj := put_defined (FileOptions_goPackage message) (fun v => negb (str_eqb v (js "")))
    "goPackage" (fun v => VString v) obj in
  let obj := put_defined (FileOptions_ccGenericServices message) (fun v => negb (Bool.eqb v
    false)) "ccGenericServices" (fun v => VBool v) obj in
  let obj := put_defined (FileOptions_javaGenericServices message) (fun v => negb (Bool.eqb v
    false)) "javaGenericServices" (fun v => VBool v) obj in
  let obj := put_defined (FileOptions_pyGenericServices message) (fun v => negb (Bool.eqb v
    false)) "pyGenericServices" (fun v => VBool v) obj in
  let obj := put_defined (FileOptions_deprecated message) (fun v => negb (Bool.eqb v false))
    "deprecated" (fun v => VBool v) obj in
  let obj := put_defined (FileOptions_ccEnableArenas message) (fun v => negb (Bool.eqb v true))
    "ccEnableArenas" (fun v => VBool v) obj in
  let obj := put_defined (FileOptions_objcClassPrefix message) (fun v => negb (str_eqb v (js "")))
    "objcClassPrefix" (fun v => VString v) obj in
  let obj := put_defined (FileOptions_csharpNamespace message) (fun v => negb (str_eqb v (js "")))
    "csharpNamespace" (fun v => VString v) obj in
  let obj := put_defined (FileOptions_swiftPrefix message) (fun v => negb (str_eqb v (js "")))
    "swiftPrefix" (fun v => VString v) obj in
  let obj := put_defined (FileOptions_phpClassPrefix message) (fun v => negb (str_eqb v (js "")))
    "phpClassPrefix" (fun v => VString v) obj in
  let obj := put_defined (FileOptions_phpNamespace message) (fun v => negb (str_eqb v (js "")))
    "phpNamespace" (fun v => VString v) obj in
  let obj := put_defined (FileOptions_phpMetadataNamespace message) (fun v => negb (str_eqb v (js
    ""))) "phpMetadataNamespace" (fun v => VString v) obj in
  let obj := put_defined (FileOptions_rubyPackage message) (fun v => negb (str_eqb v (js "")))
    "rubyPackage" (fun v => VString v) obj in
  let obj := put_defined (FileOptions_features message) (fun _ => true) "features" (fun v =>
    FeatureSet_toJSON v) obj in
  let obj := put_if (has_length (FileOptions_uninterpretedOption message)) "uninterpretedOption"
    (VArray (map UninterpretedOption_toJSON (FileOptions_uninterpretedOption message))) obj in
  VObject obj.

Definition FileOptions_fromPartial (object : FileOptions_Partial) : FileOptions :=
  let message := createBaseFileOptions in
  let message := FileOptions_with_javaPackage (Some (nullish (FileOptions_p_javaPackage object)
      (js ""))) message in
  let message := FileOptions_with_javaOuterClassname (Some (nullish
      (FileOptions_p_javaOuterClassname object) (js ""))) message in
  let message := FileOptions_with_javaMultipleFiles (Some (nullish (FileOptions_p_javaMultipleFiles
      object) false)) message in
  let message := FileOptions_with_javaGenerateEqualsAndHash (Some (nullish
      (FileOptions_p_javaGenerateEqualsAndHash object) false)) message in
  let message := FileOptions_with_javaStringCheckUtf8 (Some (nullish
      (FileOptions_p_javaStringCheckUtf8 object) false)) message in
  let message := FileOptions_with_optimizeFor (Some (nullish (FileOptions_p_optimizeFor object) 1))
      message in
  let message := FileOptions_with_goPackage (Some (nullish (FileOptions_p_goPackage object)
      (js ""))) message in
  let message := FileOptions_with_ccGenericServices (Some (nullish (FileOptions_p_ccGenericServices
      object) false)) message in
  let message := FileOptions_with_javaGenericServices (Some (nullish
      (FileOptions_p_javaGenericServices object) false)) message in
  let message := FileOptions_with_pyGenericServices (Some (nullish (FileOptions_p_pyGenericServices
      object) false)) message in
  let message := FileOptions_with_deprecated (Some (nullish (FileOptions_p_deprecated object)
      false)) message in
  let message := FileOptions_with_ccEnableArenas (Some (nullish (FileOptions_p_ccEnableArenas
      object) true)) message in
  let message := FileOptions_with_objcClassPrefix (Some (nullish (FileOptions_p_objcClassPrefix
      object) (js ""))) message in
  let message := FileOptions_with_csharpNamespace (Some (nullish (FileOptions_p_csharpNamespace
      object) (js ""))) message in
  let message := FileOptions_with_swiftPrefix (Some (nullish (FileOptions_p_swiftPrefix object)
      (js ""))) message in
  let message := FileOptions_with_phpClassPrefix (Some (nullish (FileOptions_p_phpClassPrefix
      object) (js ""))) message in
  let message := FileOptions_with_phpNamespace (Some (nullish (FileOptions_p_phpNamespace object)
      (js ""))) message in
  let message := FileOptions_with_phpMetadataNamespace (Some (nullish
      (FileOptions_p_phpMetadataNamespace object) (js ""))) message in
  let message := FileOptions_with_rubyPackage (Some (nullish (FileOptions_p_rubyPackage object)
      (js ""))) message in
  let message := FileOptions_with_features (option_map FeatureSet_fromPartial
      (FileOptions_p_features object)) message in
  let message := FileOptions_with_uninterpretedOption (nullish (option_map (map
      UninterpretedOption_fromPartial) (FileOptions_p_uninterpretedOption object)) []) message in
  message.

Definition FileOptions_create (base : option FileOptions_Partial) : FileOptions :=
  FileOptions_fromPartial (nullish base (mkFileOptions_Partial None None None None None None None
      None None None None None None None None None None None None None None)).

Definition FileOptions_toPartial (m : FileOptions) : FileOptions_Partial :=
  mkFileOptions_Partial (FileOptions_javaPackage m) (FileOptions_javaOuterClassname m)
    (FileOptions_javaMultipleFiles m) (FileOptions_javaGenerateEqualsAndHash m)
    (FileOptions_javaStringCheckUtf8 m) (FileOptions_optimizeFor m) (FileOptions_goPackage m)
    (FileOptions_ccGenericServices m) (FileOptions_javaGenericServices m)
    (FileOptions_pyGenericServices m) (FileOptions_deprecated m) (FileOptions_ccEnableArenas m)
    (FileOptions_objcClassPrefix m) (FileOptions_csharpNamespace m) (FileOptions_swiftPrefix m)
    (FileOptions_phpClassPrefix m) (FileOptions_phpNamespace m) (FileOptions_phpMetadataNamespace
    m) (FileOptions_rubyPackage m) (option_map FeatureSet_toPartial (FileOptions_features m))
    (Some (map UninterpretedOption_toPartial (FileOptions_uninterpretedOption m))).

(** ** [FeatureSet_VisibilityFeature] *)

Record FeatureSet_VisibilityFeature : Type := mkFeatureSet_VisibilityFeature { }.

Record FeatureSet_VisibilityFeature_Partial : Type := mkFeatureSet_VisibilityFeature_Partial { }.

Definition createBaseFeatureSet_VisibilityFeature : FeatureSet_VisibilityFeature :=
    mkFeatureSet_VisibilityFeature.

Definition FeatureSet_VisibilityFeature_encode (_ : FeatureSet_VisibilityFeature) (w : writer)
    : jsres writer :=
  Ok w.

Definition FeatureSet_VisibilityFeature_switch (fuel : nat) (tag : Z)
    (message : FeatureSet_VisibilityFeature) (r : reader)
    : jsres (flow FeatureSet_VisibilityFeature) :=
  Ok Break.

Definition FeatureSet_VisibilityFeature_decode (fuel : nat) (i : input) (length : option Z)
    : jsres (FeatureSet_VisibilityFeature * reader) :=
  decode_with (FeatureSet_VisibilityFeature_switch fuel)
      createBaseFeatureSet_VisibilityFeature fuel i length.

Definition FeatureSet_VisibilityFeature_fromJSON (_ : value) : jsres FeatureSet_VisibilityFeature :=
  Ok mkFeatureSet_VisibilityFeature.

Definition FeatureSet_VisibilityFeature_toJSON (_ : FeatureSet_VisibilityFeature) : value :=
  let obj : props := [] in
  VObject obj.

Definition FeatureSet_VisibilityFeature_fromPartial (_ : FeatureSet_VisibilityFeature_Partial)
    : FeatureSet_VisibilityFeature :=
  let message := createBaseFeatureSet_VisibilityFeature in
  message.

Definition FeatureSet_VisibilityFeature_create (base : option FeatureSet_VisibilityFeature_Partial)
    : FeatureSet_VisibilityFeature :=
  FeatureSet_VisibilityFeature_fromPartial (nullish base mkFeatureSet_VisibilityFeature_Partial).

Definition FeatureSet_VisibilityFeature_toPartial (_ : FeatureSet_VisibilityFeature)
    : FeatureSet_VisibilityFeature_Partial := mkFeatureSet_VisibilityFeature_Partial.

(** ** [FeatureSetDefaults_FeatureSetEditionDefault] *)

Record FeatureSetDefaults_FeatureSetEditionDefault : Type :=
    mkFeatureSetDefaults_FeatureSetEditionDefault {
  FeatureSetDefaults_FeatureSetEditionDefault_edition : option Z;
  FeatureSetDefaults_FeatureSetEditionDefault_overridableFeatures : option FeatureSet;
  FeatureSetDefaults_FeatureSetEditionDefault_fixedFeatures : option FeatureSet
}.

Record FeatureSetDefaults_FeatureSetEditionDefault_Partial : Type :=
    mkFeatureSetDefaults_FeatureSetEditionDefault_Partial {
  FeatureSetDefaults_FeatureSetEditionDefault_p_edition : option Z;
  FeatureSetDefaults_FeatureSetEditionDefault_p_overridableFeatures : option FeatureSet_Partial;
  FeatureSetDefaults_FeatureSetEditionDefault_p_fixedFeatures : option FeatureSet_Partial
}.

Definition FeatureSetDefaults_FeatureSetEditionDefault_with_edition (v : option Z)
    (m : FeatureSetDefaults_FeatureSetEditionDefault) : FeatureSetDefaults_FeatureSetEditionDefault
    :=
  mkFeatureSetDefaults_FeatureSetEditionDefault v
    (FeatureSetDefaults_FeatureSetEditionDefault_overridableFeatures m)
    (FeatureSetDefaults_FeatureSetEditionDefault_fixedFeatures m).

Definition FeatureSetDefaults_FeatureSetEditionDefault_with_overridableFeatures (v : option
    FeatureSet) (m : FeatureSetDefaults_FeatureSetEditionDefault)
    : FeatureSetDefaults_FeatureSetEditionDefault :=
  mkFeatureSetDefaults_FeatureSetEditionDefault
    (FeatureSetDefaults_FeatureSetEditionDefault_edition m) v
    (FeatureSetDefaults_FeatureSetEditionDefault_fixedFeatures m).

Definition FeatureSetDefaults_FeatureSetEditionDefault_with_fixedFeatures (v : option FeatureSet)
    (m : FeatureSetDefaults_FeatureSetEditionDefault) : FeatureSetDefaults_FeatureSetEditionDefault
    :=
  mkFeatureSetDefaults_FeatureSetEditionDefault
    (FeatureSetDefaults_FeatureSetEditionDefault_edition m)
    (FeatureSetDefaults_FeatureSetEditionDefault_overridableFeatures m) v.

Definition createBaseFeatureSetDefaults_FeatureSetEditionDefault :
    FeatureSetDefaults_FeatureSetEditionDefault :=
  {| FeatureSetDefaults_FeatureSetEditionDefault_edition := (Some 0);
     FeatureSetDefaults_FeatureSetEditionDefault_overridableFeatures := None;
     FeatureSetDefaults_FeatureSetEditionDefault_fixedFeatures := None |}.

Definition FeatureSetDefaults_FeatureSetEditionDefault_encode (message :
    FeatureSetDefaults_FeatureSetEditionDefault) (w : writer) : jsres writer :=
  let* w := match FeatureSetDefaults_FeatureSetEditionDefault_edition message with
             | Some v => if negb (v =? 0) then
                           let* w := w_uint32 (Int 24) w in w_int32 (Int v) w
                         else Ok w
             | None => Ok w
             end in
  let* w := match FeatureSetDefaults_FeatureSetEditionDefault_overridableFeatures message with
             | Some v => let* w := w_uint32 (Int 34) w in
                         let* w := FeatureSet_encode v (fork w) in w_join w
             | None => Ok w
             end in
  let* w := match FeatureSetDefaults_FeatureSetEditionDefault_fixedFeatures message with
             | Some v => let* w := w_uint32 (Int 42) w in
                         let* w := FeatureSet_encode v (fork w) in w_join w
             | None => Ok w
             end in
  Ok w.

Definition FeatureSetDefaults_FeatureSetEditionDefault_switch (fuel : nat) (tag : Z)
    (message : FeatureSetDefaults_FeatureSetEditionDefault) (r : reader)
    : jsres (flow FeatureSetDefaults_FeatureSetEditionDefault) :=
  let field := Z.shiftr tag 3 in
  if field =? 3 then
    if negb (tag =? 24) then Ok Break
    else
      let* (v, r) := r_int32 r in
          Ok (Continue (FeatureSetDefaults_FeatureSetEditionDefault_with_edition (Some v) message)
          r)
  else if field =? 4 then
    if negb (tag =? 34) then Ok Break
    else
      let* (l, r) := r_uint32 r in
      let* (v, r) := FeatureSet_decode fuel (InReader r) (Some l) in
      Ok (Continue (FeatureSetDefaults_FeatureSetEditionDefault_with_overridableFeatures (Some v)
          message) r)
  else if field =? 5 then
    if negb (tag =? 42) then Ok Break
    else
      let* (l, r) := r_uint32 r in
      let* (v, r) := FeatureSet_decode fuel (InReader r) (Some l) in
      Ok (Continue (FeatureSetDefaults_FeatureSetEditionDefault_with_fixedFeatures (Some v)
          message) r)
  else Ok Break.

Definition FeatureSetDefaults_FeatureSetEditionDefault_decode (fuel : nat) (i : input)
    (length : option Z) : jsres (FeatureSetDefaults_FeatureSetEditionDefault * reader) :=
  decode_with (FeatureSetDefaults_FeatureSetEditionDefault_switch fuel)
      createBaseFeatureSetDefaults_FeatureSetEditionDefault fuel i length.

Definition FeatureSetDefaults_FeatureSetEditionDefault_fromJSON (object : value)
    : jsres FeatureSetDefaults_FeatureSetEditionDefault :=
  let* edition_ := field object "edition" (fun v => Ok (Edition_num (editionFromJSON v))) 0 in
  let* overridableFeatures_ := opt_field object "overridableFeatures" FeatureSet_fromJSON in
  let* fixedFeatures_ := opt_field object "fixedFeatures" FeatureSet_fromJSON in
  Ok (mkFeatureSetDefaults_FeatureSetEditionDefault (Some edition_) overridableFeatures_
    fixedFeatures_).

Definition FeatureSetDefaults_FeatureSetEditionDefault_toJSON (message :
    FeatureSetDefaults_FeatureSetEditionDefault) : value :=
  let obj : props := [] in
  let obj := put_defined (FeatureSetDefaults_FeatureSetEditionDefault_edition message) (fun v =>
    negb (v =? 0)) "edition" (fun v => VString (editionToJSON v)) obj in
  let obj := put_defined (FeatureSetDefaults_FeatureSetEditionDefault_overridableFeatures message)
    (fun _ => true) "overridableFeatures" (fun v => FeatureSet_toJSON v) obj in
  let obj := put_defined (FeatureSetDefaults_FeatureSetEditionDefault_fixedFeatures message) (fun
    _ => true) "fixedFeatures" (fun v => FeatureSet_toJSON v) obj in
  VObject obj.

Definition FeatureSetDefaults_FeatureSetEditionDefault_fromPartial (object :
    FeatureSetDefaults_FeatureSetEditionDefault_Partial)
    : FeatureSetDefaults_FeatureSetEditionDefault :=
  let message := createBaseFeatureSetDefaults_FeatureSetEditionDefault in
  let message := FeatureSetDefaults_FeatureSetEditionDefault_with_edition (Some (nullish
      (FeatureSetDefaults_FeatureSetEditionDefault_p_edition object) 0)) message in
  let message := FeatureSetDefaults_FeatureSetEditionDefault_with_overridableFeatures (option_map
      FeatureSet_fromPartial (FeatureSetDefaults_FeatureSetEditionDefault_p_overridableFeatures
      object)) message in
  let message := FeatureSetDefaults_FeatureSetEditionDefault_with_fixedFeatures (option_map
      FeatureSet_fromPartial (FeatureSetDefaults_FeatureSetEditionDefault_p_fixedFeatures object))
      message in
  message.

Definition FeatureSetDefaults_FeatureSetEditionDefault_create (base : option
    FeatureSetDefaults_FeatureSetEditionDefault_Partial)
    : FeatureSetDefaults_FeatureSetEditionDefault :=
  FeatureSetDefaults_FeatureSetEditionDefault_fromPartial (nullish base
      (mkFeatureSetDefaults_FeatureSetEditionDefault_Partial None None None)).

Definition FeatureSetDefaults_FeatureSetEditionDefault_toPartial (m :
    FeatureSetDefaults_FeatureSetEditionDefault) :
    FeatureSetDefaults_FeatureSetEditionDefault_Partial :=
  mkFeatureSetDefaults_FeatureSetEditionDefault_Partial
    (FeatureSetDefaults_FeatureSetEditionDefault_edition m) (option_map FeatureSet_toPartial
    (FeatureSetDefaults_FeatureSetEditionDefault_overridableFeatures m)) (option_map
    FeatureSet_toPartial (FeatureSetDefaults_FeatureSetEditionDefault_fixedFeatures m)).

(** ** [FeatureSetDefaults] *)

Record FeatureSetDefaults : Type := mkFeatureSetDefaults {
  FeatureSetDefaults_defaults : list FeatureSetDefaults_FeatureSetEditionDefault;
  FeatureSetDefaults_minimumEdition : option Z;
  FeatureSetDefaults_maximumEdition : option Z
}.

Record FeatureSetDefaults_Partial : Type := mkFeatureSetDefaults_Partial {
  FeatureSetDefaults_p_defaults : option (list FeatureSetDefaults_FeatureSetEditionDefault_Partial);
  FeatureSetDefaults_p_minimumEdition : option Z;
  FeatureSetDefaults_p_maximumEdition : option Z
}.

Definition FeatureSetDefaults_with_defaults (v : list FeatureSetDefaults_FeatureSetEditionDefault)
    (m : FeatureSetDefaults) : FeatureSetDefaults :=
  mkFeatureSetDefaults v (FeatureSetDefaults_minimumEdition m) (FeatureSetDefaults_maximumEdition
    m).

Definition FeatureSetDefaults_with_minimumEdition (v : option Z) (m : FeatureSetDefaults)
    : FeatureSetDefaults :=
  mkFeatureSetDefaults (FeatureSetDefaults_defaults m) v (FeatureSetDefaults_maximumEdition m).

Definition FeatureSetDefaults_with_maximumEdition (v : option Z) (m : FeatureSetDefaults)
    : FeatureSetDefaults :=
  mkFeatureSetDefaults (FeatureSetDefaults_defaults m) (FeatureSetDefaults_minimumEdition m) v.

Definition createBaseFeatureSetDefaults : FeatureSetDefaults :=
  {| FeatureSetDefaults_defaults := [];
     FeatureSetDefaults_minimumEdition := (Some 0);
     FeatureSetDefaults_maximumEdition := (Some 0) |}.

Definition FeatureSetDefaults_encode (message : FeatureSetDefaults) (w : writer) : jsres writer :=
  let* w := for_each (fun v w => let* w := w_uint32 (Int 10) w in
                               let* w := FeatureSetDefaults_FeatureSetEditionDefault_encode v (fork
                                   w) in w_join w)
               (FeatureSetDefaults_defaults message) w in
  let* w := match FeatureSetDefaults_minimumEdition message with
             | Some v => if negb (v =? 0) then
                           let* w := w_uint32 (Int 32) w in w_int32 (Int v) w
                         else Ok w
             | None => Ok w
             end in
  let* w := match FeatureSetDefaults_maximumEdition message with
             | Some v => if negb (v =? 0) then
                           let* w := w_uint32 (Int 40) w in w_int32 (Int v) w
                         else Ok w
             | None => Ok w
             end in
  Ok w.

Definition FeatureSetDefaults_switch (fuel : nat) (tag : Z) (message : FeatureSetDefaults)
    (r : reader)
    : jsres (flow FeatureSetDefaults) :=
  let field := Z.shiftr tag 3 in
  if field =? 1 then
    if negb (tag =? 10) then Ok Break
    else
      let* (l, r) := r_uint32 r in
      let* (v, r) := FeatureSetDefaults_FeatureSetEditionDefault_decode fuel (InReader r) (Some l)
          in
      Ok (Continue (FeatureSetDefaults_with_defaults (FeatureSetDefaults_defaults message ++ [v])
          message) r)
  else if field =? 4 then
    if negb (tag =? 32) then Ok Break
    else
      let* (v, r) := r_int32 r in
          Ok (Continue (FeatureSetDefaults_with_minimumEdition (Some v) message) r)
  else if field =? 5 then
    if negb (tag =? 40) then Ok Break
    else
      let* (v, r) := r_int32 r in
          Ok (Continue (FeatureSetDefaults_with_maximumEdition (Some v) message) r)
  else Ok Break.

Definition FeatureSetDefaults_decode (fuel : nat) (i : input) (length : option Z)
    : jsres (FeatureSetDefaults * reader) :=
  decode_with (FeatureSetDefaults_switch fuel) createBaseFeatureSetDefaults fuel i length.

Definition FeatureSetDefaults_fromJSON (object : value) : jsres FeatureSetDefaults :=
  let* defaults_ := array_field object "defaults"
      FeatureSetDefaults_FeatureSetEditionDefault_fromJSON in
  let* minimumEdition_ := field object "minimumEdition" (fun v => Ok (Edition_num (editionFromJSON
      v))) 0 in
  let* maximumEdition_ := field object "maximumEdition" (fun v => Ok (Edition_num (editionFromJSON
      v))) 0 in
  Ok (mkFeatureSetDefaults defaults_ (Some minimumEdition_) (Some maximumEdition_)).

Definition FeatureSetDefaults_toJSON (message : FeatureSetDefaults) : value :=
  let obj : props := [] in
  let obj := put_if (has_length (FeatureSetDefaults_defaults message)) "defaults" (VArray (map
    FeatureSetDefaults_FeatureSetEditionDefault_toJSON (FeatureSetDefaults_defaults message))) obj
    in
  let obj := put_defined (FeatureSetDefaults_minimumEdition message) (fun v => negb (v =? 0))
    "minimumEdition" (fun v => VString (editionToJSON v)) obj in
  let obj := put_defined (FeatureSetDefaults_maximumEdition message) (fun v => negb (v =? 0))
    "maximumEdition" (fun v => VString (editionToJSON v)) obj in
  VObject obj.

Definition FeatureSetDefaults_fromPartial (object : FeatureSetDefaults_Partial)
    : FeatureSetDefaults :=
  let message := createBaseFeatureSetDefaults in
  let message := FeatureSetDefaults_with_defaults (nullish (option_map (map
      FeatureSetDefaults_FeatureSetEditionDefault_fromPartial)
      (FeatureSetDefaults_p_defaults object)) []) message in
  let message := FeatureSetDefaults_with_minimumEdition (Some (nullish
      (FeatureSetDefaults_p_minimumEdition object) 0)) message in
  let message := FeatureSetDefaults_with_maximumEdition (Some (nullish
      (FeatureSetDefaults_p_maximumEdition object) 0)) message in
  message.

Definition FeatureSetDefaults_create (base : option FeatureSetDefaults_Partial)
    : FeatureSetDefaults :=
  FeatureSetDefaults_fromPartial (nullish base (mkFeatureSetDefaults_Partial None None None)).

Definition FeatureSetDefaults_toPartial (m : FeatureSetDefaults) : FeatureSetDefaults_Partial :=
  mkFeatureSetDefaults_Partial (Some (map FeatureSetDefaults_FeatureSetEditionDefault_toPartial
    (FeatureSetDefaults_defaults m))) (FeatureSetDefaults_minimumEdition m)
    (FeatureSetDefaults_maximumEdition m).
End DescriptorOptions2.
