(* ===== verification/Descriptor.v ===== *)
(** The descriptor messages of [gen/ts/google/protobuf/descriptor.ts], up to
    [FileDescriptorSet].  [DescriptorProto] embeds a list of itself; the [fromJSON] functions
    above it take fuel that bounds the nesting of the JSON value. *)

From stdpp Require Import base list numbers strings.
From Stdlib Require Import Strings.Byte ZArith Lia.
From S2P Require Import Prelude JsNumber JsValue Wire DescriptorBase DescriptorEnums.
From S2P Require Import DescriptorOptions DescriptorOptions2.
Local Open Scope Z_scope.
#[local] Set Warnings "-register-all".

Section Descriptor.
Context {RT : WireRuntime} {HO : JsHost}.

(** ** [FieldDescriptorProto] *)

Record FieldDescriptorProto : Type := mkFieldDescriptorProto {
  FieldDescriptorProto_name : option jsstring;
  FieldDescriptorProto_number : option number;
  FieldDescriptorProto_label : option Z;
  FieldDescriptorProto_type : option Z;
  FieldDescriptorProto_typeName : option jsstring;
  FieldDescriptorProto_extendee : option jsstring;
  FieldDescriptorProto_defaultValue : option jsstring;
  FieldDescriptorProto_oneofIndex : option number;
  FieldDescriptorProto_jsonName : option jsstring;
  FieldDescriptorProto_options : option FieldOptions;
  FieldDescriptorProto_proto3Optional : option bool
}.

Record FieldDescriptorProto_Partial : Type := mkFieldDescriptorProto_Partial {
  FieldDescriptorProto_p_name : option jsstring;
  FieldDescriptorProto_p_number : option number;
  FieldDescriptorProto_p_label : option Z;
  FieldDescriptorProto_p_type : option Z;
  FieldDescriptorProto_p_typeName : option jsstring;
  FieldDescriptorProto_p_extendee : option jsstring;
  FieldDescriptorProto_p_defaultValue : option jsstring;
  FieldDescriptorProto_p_oneofIndex : option number;
  FieldDescriptorProto_p_jsonName : option jsstring;
  FieldDescriptorProto_p_options : option FieldOptions_Partial;
  FieldDescriptorProto_p_proto3Optional : option bool
}.

Definition FieldDescriptorProto_with_name (v : option jsstring) (m : FieldDescriptorProto)
    : FieldDescriptorProto :=
  mkFieldDescriptorProto v (FieldDescriptorProto_number m) (FieldDescriptorProto_label m)
    (FieldDescriptorProto_type m) (FieldDescriptorProto_typeName m) (FieldDescriptorProto_extendee
    m) (FieldDescriptorProto_defaultValue m) (FieldDescriptorProto_oneofIndex m)
    (FieldDescriptorProto_jsonName m) (FieldDescriptorProto_options m)
    (FieldDescriptorProto_proto3Optional m).

Definition FieldDescriptorProto_with_number (v : option number) (m : FieldDescriptorProto)
    : FieldDescriptorProto :=
  mkFieldDescriptorProto (FieldDescriptorProto_name m) v (FieldDescriptorProto_label m)
    (FieldDescriptorProto_type m) (FieldDescriptorProto_typeName m) (FieldDescriptorProto_extendee
    m) (FieldDescriptorProto_defaultValue m) (FieldDescriptorProto_oneofIndex m)
    (FieldDescriptorProto_jsonName m) (FieldDescriptorProto_options m)
    (FieldDescriptorProto_proto3Optional m).

Definition FieldDescriptorProto_with_label (v : option Z) (m : FieldDescriptorProto)
    : FieldDescriptorProto :=
  mkFieldDescriptorProto (FieldDescriptorProto_name m) (FieldDescriptorProto_number m) v
    (FieldDescriptorProto_type m) (FieldDescriptorProto_typeName m) (FieldDescriptorProto_extendee
    m) (FieldDescriptorProto_defaultValue m) (FieldDescriptorProto_oneofIndex m)
    (FieldDescriptorProto_jsonName m) (FieldDescriptorProto_options m)
    (FieldDescriptorProto_proto3Optional m).

Definition FieldDescriptorProto_with_type (v : option Z) (m : FieldDescriptorProto)
    : FieldDescriptorProto :=
  mkFieldDescriptorProto (FieldDescriptorProto_name m) (FieldDescriptorProto_number m)
    (FieldDescriptorProto_label m) v (FieldDescriptorProto_typeName m)
    (FieldDescriptorProto_extendee m) (FieldDescriptorProto_defaultValue m)
    (FieldDescriptorProto_oneofIndex m) (FieldDescriptorProto_jsonName m)
    (FieldDescriptorProto_options m) (FieldDescriptorProto_proto3Optional m).

Definition FieldDescriptorProto_with_typeName (v : option jsstring) (m : FieldDescriptorProto)
    : FieldDescriptorProto :=
  mkFieldDescriptorProto (FieldDescriptorProto_name m) (FieldDescriptorProto_number m)
    (FieldDescriptorProto_label m) (FieldDescriptorProto_type m) v (FieldDescriptorProto_extendee
    m) (FieldDescriptorProto_defaultValue m) (FieldDescriptorProto_oneofIndex m)
    (FieldDescriptorProto_jsonName m) (FieldDescriptorProto_options m)
    (FieldDescriptorProto_proto3Optional m).

Definition FieldDescriptorProto_with_extendee (v : option jsstring) (m : FieldDescriptorProto)
    : FieldDescriptorProto :=
  mkFieldDescriptorProto (FieldDescriptorProto_name m) (FieldDescriptorProto_number m)
    (FieldDescriptorProto_label m) (FieldDescriptorProto_type m) (FieldDescriptorProto_typeName m)
    v (FieldDescriptorProto_defaultValue m) (FieldDescriptorProto_oneofIndex m)
    (FieldDescriptorProto_jsonName m) (FieldDescriptorProto_options m)
    (FieldDescriptorProto_proto3Optional m).

Definition FieldDescriptorProto_with_defaultValue (v : option jsstring) (m : FieldDescriptorProto)
    : FieldDescriptorProto :=
  mkFieldDescriptorProto (FieldDescriptorProto_name m) (FieldDescriptorProto_number m)
    (FieldDescriptorProto_label m) (FieldDescriptorProto_type m) (FieldDescriptorProto_typeName m)
    (FieldDescriptorProto_extendee m) v (FieldDescriptorProto_oneofIndex m)
    (FieldDescriptorProto_jsonName m) (FieldDescriptorProto_options m)
    (FieldDescriptorProto_proto3Optional m).

Definition FieldDescriptorProto_with_oneofIndex (v : option number) (m : FieldDescriptorProto)
    : FieldDescriptorProto :=
  mkFieldDescriptorProto (FieldDescriptorProto_name m) (FieldDescriptorProto_number m)
    (FieldDescriptorProto_label m) (FieldDescriptorProto_type m) (FieldDescriptorProto_typeName m)
    (FieldDescriptorProto_extendee m) (FieldDescriptorProto_defaultValue m) v
    (FieldDescriptorProto_jsonName m) (FieldDescriptorProto_options m)
    (FieldDescriptorProto_proto3Optional m).

Definition FieldDescriptorProto_with_jsonName (v : option jsstring) (m : FieldDescriptorProto)
    : FieldDescriptorProto :=
  mkFieldDescriptorProto (FieldDescriptorProto_name m) (FieldDescriptorProto_number m)
    (FieldDescriptorProto_label m) (FieldDescriptorProto_type m) (FieldDescriptorProto_typeName m)
    (FieldDescriptorProto_extendee m) (FieldDescriptorProto_defaultValue m)
    (FieldDescriptorProto_oneofIndex m) v (FieldDescriptorProto_options m)
    (FieldDescriptorProto_proto3Optional m).

Definition FieldDescriptorProto_with_options (v : option FieldOptions) (m : FieldDescriptorProto)
    : FieldDescriptorProto :=
  mkFieldDescriptorProto (FieldDescriptorProto_name m) (FieldDescriptorProto_number m)
    (FieldDescriptorProto_label m) (FieldDescriptorProto_type m) (FieldDescriptorProto_typeName m)
    (FieldDescriptorProto_extendee m) (FieldDescriptorProto_defaultValue m)
    (FieldDescriptorProto_oneofIndex m) (FieldDescriptorProto_jsonName m) v
    (FieldDescriptorProto_proto3Optional m).

Definition FieldDescriptorProto_with_proto3Optional (v : option bool) (m : FieldDescriptorProto)
    : FieldDescriptorProto :=
  mkFieldDescriptorProto (FieldDescriptorProto_name m) (FieldDescriptorProto_number m)
    (FieldDescriptorProto_label m) (FieldDescriptorProto_type m) (FieldDescriptorProto_typeName m)
    (FieldDescriptorProto_extendee m) (FieldDescriptorProto_defaultValue m)
    (FieldDescriptorProto_oneofIndex m) (FieldDescriptorProto_jsonName m)
    (FieldDescriptorProto_options m) v.

Definition createBaseFieldDescriptorProto : FieldDescriptorProto :=
  {| FieldDescriptorProto_name := (Some (js ""));
     FieldDescriptorProto_number := (Some (Int 0));
     FieldDescriptorProto_label := (Some 1);
     FieldDescriptorProto_type := (Some 1);
     FieldDescriptorProto_typeName := (Some (js ""));
     FieldDescriptorProto_extendee := (Some (js ""));
     FieldDescriptorProto_defaultValue := (Some (js ""));
     FieldDescriptorProto_oneofIndex := (Some (Int 0));
     FieldDescriptorProto_jsonName := (Some (js ""));
     FieldDescriptorProto_options := None;
     FieldDescriptorProto_proto3Optional := (Some false) |}.

Definition FieldDescriptorProto_encode (message : FieldDescriptorProto) (w : writer)
    : jsres writer :=
  let* w := match FieldDescriptorProto_name message with
             | Some v => if negb (str_eqb v (js "")) then
                           let* w := w_uint32 (Int 10) w in w_string v w
                         else Ok w
             | None => Ok w
             end in
  let* w := match FieldDescriptorProto_number message with
             | Some v => if negb (num_eqb v (Int 0)) then
                           let* w := w_uint32 (Int 24) w in w_int32 v w
                         else Ok w
             | None => Ok w
             end in
  let* w := match FieldDescriptorProto_label message with
             | Some v => if negb (v =? 1) then
                           let* w := w_uint32 (Int 32) w in w_int32 (Int v) w
                         else Ok w
             | None => Ok w
             end in
  let* w := match FieldDescriptorProto_type message with
             | Some v => if negb (v =? 1) then
                           let* w := w_uint32 (Int 40) w in w_int32 (Int v) w
                         else Ok w
             | None => Ok w
             end in
  let* w := match FieldDescriptorProto_typeName message with
             | Some v => if negb (str_eqb v (js "")) then
                           let* w := w_uint32 (Int 50) w in w_string v w
                         else Ok w
             | None => Ok w
             end in
  let* w := match FieldDescriptorProto_extendee message with
             | Some v => if negb (str_eqb v (js "")) then
                           let* w := w_uint32 (Int 18) w in w_string v w
                         else Ok w
             | None => Ok w
             end in
  let* w := match FieldDescriptorProto_defaultValue message with
             | Some v => if negb (str_eqb v (js "")) then
                           let* w := w_uint32 (Int 58) w in w_string v w
                         else Ok w
             | None => Ok w
             end in
  let* w := match FieldDescriptorProto_oneofIndex message with
             | Some v => if negb (num_eqb v (Int 0)) then
                           let* w := w_uint32 (Int 72) w in w_int32 v w
                         else Ok w
             | None => Ok w
             end in
  let* w := match FieldDescriptorProto_jsonName message with
             | Some v => if negb (str_eqb v (js "")) then
                           let* w := w_uint32 (Int 82) w in w_string v w
                         else Ok w
             | None => Ok w
             end in
  let* w := match FieldDescriptorProto_options message with
             | Some v => let* w := w_uint32 (Int 66) w in
                         let* w := FieldOptions_encode v (fork w) in w_join w
             | None => Ok w
             end in
  let* w := match FieldDescriptorProto_proto3Optional message with
             | Some v => if negb (Bool.eqb v false) then
                           let* w := w_uint32 (Int 136) w in w_bool v w
                         else Ok w
             | None => Ok w
             end in
  Ok w.

Definition FieldDescriptorProto_switch (fuel : nat) (tag : Z) (message : FieldDescriptorProto)
    (r : reader)
    : jsres (flow FieldDescriptorProto) :=
  let field := Z.shiftr tag 3 in
  if field =? 1 then
    if negb (tag =? 10) then Ok Break
    else
      let* (v, r) := r_string r in Ok (Continue (FieldDescriptorProto_with_name (Some v) message) r)
  else if field =? 3 then
    if negb (tag =? 24) then Ok Break
    else
      let* (v, r) := r_int32_number r in
          Ok (Continue (FieldDescriptorProto_with_number (Some v) message) r)
  else if field =? 4 then
    if negb (tag =? 32) then Ok Break
    else
      let* (v, r) := r_int32 r in Ok (Continue (FieldDescriptorProto_with_label (Some v) message) r)
  else if field =? 5 then
    if negb (tag =? 40) then Ok Break
    else
      let* (v, r) := r_int32 r in Ok (Continue (FieldDescriptorProto_with_type (Some v) message) r)
  else if field =? 6 then
    if negb (tag =? 50) then Ok Break
    else
      let* (v, r) := r_string r in
          Ok (Continue (FieldDescriptorProto_with_typeName (Some v) message) r)
  else if field =? 2 then
    if negb (tag =? 18) then Ok Break
    else
      let* (v, r) := r_string r in
          Ok (Continue (FieldDescriptorProto_with_extendee (Some v) message) r)
  else if field =? 7 then
    if negb (tag =? 58) then Ok Break
    else
      let* (v, r) := r_string r in
          Ok (Continue (FieldDescriptorProto_with_defaultValue (Some v) message) r)
  else if field =? 9 then
    if negb (tag =? 72) then Ok Break
    else
      let* (v, r) := r_int32_number r in
          Ok (Continue (FieldDescriptorProto_with_oneofIndex (Some v) message) r)
  else if field =? 10 then
    if negb (tag =? 82) then Ok Break
    else
      let* (v, r) := r_string r in
          Ok (Continue (FieldDescriptorProto_with_jsonName (Some v) message) r)
  else if field =? 8 then
    if negb (tag =? 66) then Ok Break
    else
      let* (l, r) := r_uint32 r in
      let* (v, r) := FieldOptions_decode fuel (InReader r) (Some l) in
      Ok (Continue (FieldDescriptorProto_with_options (Some v) message) r)
  else if field =? 17 then
    if negb (tag =? 136) then Ok Break
    else
      let* (v, r) := r_bool r in
          Ok (Continue (FieldDescriptorProto_with_proto3Optional (Some v) message) r)
  else Ok Break.

Definition FieldDescriptorProto_decode (fuel : nat) (i : input) (length : option Z)
    : jsres (FieldDescriptorProto * reader) :=
  decode_with (FieldDescriptorProto_switch fuel) createBaseFieldDescriptorProto fuel i length.

Definition FieldDescriptorProto_fromJSON (object : value) : jsres FieldDescriptorProto :=
  let* name_ := field object "name" to_string (js "") in
  let* number_ := field object "number" to_number (Int 0) in
  let* label_ := field object "label" (fun v => Ok (FieldDescriptorProto_Label_num
      (fieldDescriptorProto_LabelFromJSON v))) 1 in
  let* type_ := field object "type" (fun v => Ok (FieldDescriptorProto_Type_num
      (fieldDescriptorProto_TypeFromJSON v))) 1 in
  let* typeName_ := field object "typeName" to_string (js "") in
  let* extendee_ := field object "extendee" to_string (js "") in
  let* defaultValue_ := field object "defaultValue" to_string (js "") in
  let* oneofIndex_ := field object "oneofIndex" to_number (Int 0) in
  let* jsonName_ := field object "jsonName" to_string (js "") in
  let* options_ := opt_field object "options" FieldOptions_fromJSON in
  let* proto3Optional_ := field object "proto3Optional" to_bool false in
  Ok (mkFieldDescriptorProto (Some name_) (Some number_) (Some label_) (Some type_) (Some
    typeName_) (Some extendee_) (Some defaultValue_) (Some oneofIndex_) (Some jsonName_) options_
    (Some proto3Optional_)).

Definition FieldDescriptorProto_toJSON (message : FieldDescriptorProto) : value :=
  let obj : props := [] in
  let obj := put_defined (FieldDescriptorProto_name message) (fun v => negb (str_eqb v (js "")))
    "name" (fun v => VString v) obj in
  let obj := put_defined (FieldDescriptorProto_number message) (fun v => negb (num_eqb v (Int 0)))
    "number" (fun v => VNumber (math_round v)) obj in
  let obj := put_defined (FieldDescriptorProto_label message) (fun v => negb (v =? 1)) "label"
    (fun v => VString (fieldDescriptorProto_LabelToJSON v)) obj in
  let obj := put_defined (FieldDescriptorProto_type message) (fun v => negb (v =? 1)) "type" (fun
    v => VString (fieldDescriptorProto_TypeToJSON v)) obj in
  let obj := put_defined (FieldDescriptorProto_typeName message) (fun v => negb (str_eqb v (js
    ""))) "typeName" (fun v => VString v) obj in
  let obj := put_defined (FieldDescriptorProto_extendee message) (fun v => negb (str_eqb v (js
    ""))) "extendee" (fun v => VString v) obj in
  let obj := put_defined (FieldDescriptorProto_defaultValue message) (fun v => negb (str_eqb v (js
    ""))) "defaultValue" (fun v => VString v) obj in
  let obj := put_defined (FieldDescriptorProto_oneofIndex message) (fun v => negb (num_eqb v (Int
    0))) "oneofIndex" (fun v => VNumber (math_round v)) obj in
  let obj := put_defined (FieldDescriptorProto_jsonName message) (fun v => negb (str_eqb v (js
    ""))) "jsonName" (fun v => VString v) obj in
  let obj := put_defined (FieldDescriptorProto_options message) (fun _ => true) "options" (fun v
    => FieldOptions_toJSON v) obj in
  let obj := put_defined (FieldDescriptorProto_proto3Optional message) (fun v => negb (Bool.eqb v
    false)) "proto3Optional" (fun v => VBool v) obj in
  VObject obj.

Definition FieldDescriptorProto_fromPartial (object : FieldDescriptorProto_Partial)
    : FieldDescriptorProto :=
  let message := createBaseFieldDescriptorProto in
  let message := FieldDescriptorProto_with_name (Some (nullish (FieldDescriptorProto_p_name object)
      (js ""))) message in
  let message := FieldDescriptorProto_with_number (Some (nullish (FieldDescriptorProto_p_number
      object) (Int 0))) message in
  let message := FieldDescriptorProto_with_label (Some (nullish (FieldDescriptorProto_p_label
      object) 1)) message in
  let message := FieldDescriptorProto_with_type (Some (nullish (FieldDescriptorProto_p_type object)
      1)) message in
  let message := FieldDescriptorProto_with_typeName (Some (nullish (FieldDescriptorProto_p_typeName
      object) (js ""))) message in
  let message := FieldDescriptorProto_with_extendee (Some (nullish (FieldDescriptorProto_p_extendee
      object) (js ""))) message in
  let message := FieldDescriptorProto_with_defaultValue (Some (nullish
      (FieldDescriptorProto_p_defaultValue object) (js ""))) message in
  let message := FieldDescriptorProto_with_oneofIndex (Some (nullish
      (FieldDescriptorProto_p_oneofIndex object) (Int 0))) message in
  let message := FieldDescriptorProto_with_jsonName (Some (nullish (FieldDescriptorProto_p_jsonName
      object) (js ""))) message in
  let message := FieldDescriptorProto_with_options (option_map FieldOptions_fromPartial
      (FieldDescriptorProto_p_options object)) message in
  let message := FieldDescriptorProto_with_proto3Optional (Some (nullish
      (FieldDescriptorProto_p_proto3Optional object) false)) message in
  message.

Definition FieldDescriptorProto_create (base : option FieldDescriptorProto_Partial)
    : FieldDescriptorProto :=
  FieldDescriptorProto_fromPartial (nullish base (mkFieldDescriptorProto_Partial None None None
      None None None None None None None None)).

Definition FieldDescriptorProto_toPartial (m : FieldDescriptorProto)
    : FieldDescriptorProto_Partial :=
  mkFieldDescriptorProto_Partial (FieldDescriptorProto_name m) (FieldDescriptorProto_number m)
    (FieldDescriptorProto_label m) (FieldDescriptorProto_type m) (FieldDescriptorProto_typeName m)
    (FieldDescriptorProto_extendee m) (FieldDescriptorProto_defaultValue m)
    (FieldDescriptorProto_oneofIndex m) (FieldDescriptorProto_jsonName m) (option_map
    FieldOptions_toPartial (FieldDescriptorProto_options m)) (FieldDescriptorProto_proto3Optional
    m).

(** ** [EnumValueDescriptorProto] *)

Record EnumValueDescriptorProto : Type := mkEnumValueDescriptorProto {
  EnumValueDescriptorProto_name : option jsstring;
  EnumValueDescriptorProto_number : option number;
  EnumValueDescriptorProto_options : option EnumValueOptions
}.

Record EnumValueDescriptorProto_Partial : Type := mkEnumValueDescriptorProto_Partial {
  EnumValueDescriptorProto_p_name : option jsstring;
  EnumValueDescriptorProto_p_number : option number;
  EnumValueDescriptorProto_p_options : option EnumValueOptions_Partial
}.

Definition EnumValueDescriptorProto_with_name (v : option jsstring) (m : EnumValueDescriptorProto)
    : EnumValueDescriptorProto :=
  mkEnumValueDescriptorProto v (EnumValueDescriptorProto_number m)
    (EnumValueDescriptorProto_options m).

Definition EnumValueDescriptorProto_with_number (v : option number) (m : EnumValueDescriptorProto)
    : EnumValueDescriptorProto :=
  mkEnumValueDescriptorProto (EnumValueDescriptorProto_name m) v (EnumValueDescriptorProto_options
    m).

Definition EnumValueDescriptorProto_with_options (v : option EnumValueOptions)
    (m : EnumValueDescriptorProto) : EnumValueDescriptorProto :=
  mkEnumValueDescriptorProto (EnumValueDescriptorProto_name m) (EnumValueDescriptorProto_number m)
    v.

Definition createBaseEnumValueDescriptorProto : EnumValueDescriptorProto :=
  {| EnumValueDescriptorProto_name := (Some (js ""));
     EnumValueDescriptorProto_number := (Some (Int 0));
     EnumValueDescriptorProto_options := None |}.

Definition EnumValueDescriptorProto_encode (message : EnumValueDescriptorProto) (w : writer)
    : jsres writer :=
  let* w := match EnumValueDescriptorProto_name message with
             | Some v => if negb (str_eqb v (js "")) then
                           let* w := w_uint32 (Int 10) w in w_string v w
                         else Ok w
             | None => Ok w
             end in
  let* w := match EnumValueDescriptorProto_number message with
             | Some v => if negb (num_eqb v (Int 0)) then
                           let* w := w_uint32 (Int 16) w in w_int32 v w
                         else Ok w
             | None => Ok w
             end in
  let* w := match EnumValueDescriptorProto_options message with
             | Some v => let* w := w_uint32 (Int 26) w in
                         let* w := EnumValueOptions_encode v (fork w) in w_join w
             | None => Ok w
             end in
  Ok w.

Definition EnumValueDescriptorProto_switch (fuel : nat) (tag : Z)
    (message : EnumValueDescriptorProto) (r : reader)
    : jsres (flow EnumValueDescriptorProto) :=
  let field := Z.shiftr tag 3 in
  if field =? 1 then
    if negb (tag =? 10) then Ok Break
    else
      let* (v, r) := r_string r in
          Ok (Continue (EnumValueDescriptorProto_with_name (Some v) message) r)
  else if field =? 2 then
    if negb (tag =? 16) then Ok Break
    else
      let* (v, r) := r_int32_number r in
          Ok (Continue (EnumValueDescriptorProto_with_number (Some v) message) r)
  else if field =? 3 then
    if negb (tag =? 26) then Ok Break
    else
      let* (l, r) := r_uint32 r in
      let* (v, r) := EnumValueOptions_decode fuel (InReader r) (Some l) in
      Ok (Continue (EnumValueDescriptorProto_with_options (Some v) message) r)
  else Ok Break.

Definition EnumValueDescriptorProto_decode (fuel : nat) (i : input) (length : option Z)
    : jsres (EnumValueDescriptorProto * reader) :=
  decode_with (EnumValueDescriptorProto_switch fuel) createBaseEnumValueDescriptorProto fuel i
      length.

Definition EnumValueDescriptorProto_fromJSON (object : value) : jsres EnumValueDescriptorProto :=
  let* name_ := field object "name" to_string (js "") in
  let* number_ := field object "number" to_number (Int 0) in
  let* options_ := opt_field object "options" EnumValueOptions_fromJSON in
  Ok (mkEnumValueDescriptorProto (Some name_) (Some number_) options_).

Definition EnumValueDescriptorProto_toJSON (message : EnumValueDescriptorProto) : value :=
  let obj : props := [] in
  let obj := put_defined (EnumValueDescriptorProto_name message) (fun v => negb (str_eqb v (js
    ""))) "name" (fun v => VString v) obj in
  let obj := put_defined (EnumValueDescriptorProto_number message) (fun v => negb (num_eqb v (Int
    0))) "number" (fun v => VNumber (math_round v)) obj in
  let obj := put_defined (EnumValueDescriptorProto_options message) (fun _ => true) "options" (fun
    v => EnumValueOptions_toJSON v) obj in
  VObject obj.

Definition EnumValueDescriptorProto_fromPartial (object : EnumValueDescriptorProto_Partial)
    : EnumValueDescriptorProto :=
  let message := createBaseEnumValueDescriptorProto in
  let message := EnumValueDescriptorProto_with_name (Some (nullish (EnumValueDescriptorProto_p_name
      object) (js ""))) message in
  let message := EnumValueDescriptorProto_with_number (Some (nullish
      (EnumValueDescriptorProto_p_number object) (Int 0))) message in
  let message := EnumValueDescriptorProto_with_options (option_map EnumValueOptions_fromPartial
      (EnumValueDescriptorProto_p_options object)) message in
  message.

Definition EnumValueDescriptorProto_create (base : option EnumValueDescriptorProto_Partial)
    : EnumValueDescriptorProto :=
  EnumValueDescriptorProto_fromPartial (nullish base (mkEnumValueDescriptorProto_Partial None None
      None)).

Definition EnumValueDescriptorProto_toPartial (m : EnumValueDescriptorProto)
    : EnumValueDescriptorProto_Partial :=
  mkEnumValueDescriptorProto_Partial (EnumValueDescriptorProto_name m)
    (EnumValueDescriptorProto_number m) (option_map EnumValueOptions_toPartial
    (EnumValueDescriptorProto_options m)).

(** ** [EnumDescriptorProto_EnumReservedRange] *)

Record EnumDescriptorProto_EnumReservedRange : Type := mkEnumDescriptorProto_EnumReservedRange {
  EnumDescriptorProto_EnumReservedRange_start : option number;
  EnumDescriptorProto_EnumReservedRange_end : option number
}.

Record EnumDescriptorProto_EnumReservedRange_Partial : Type :=
    mkEnumDescriptorProto_EnumReservedRange_Partial {
  EnumDescriptorProto_EnumReservedRange_p_start : option number;
  EnumDescriptorProto_EnumReservedRange_p_end : option number
}.

Definition EnumDescriptorProto_EnumReservedRange_with_start (v : option number)
    (m : EnumDescriptorProto_EnumReservedRange) : EnumDescriptorProto_EnumReservedRange :=
  mkEnumDescriptorProto_EnumReservedRange v (EnumDescriptorProto_EnumReservedRange_end m).

Definition EnumDescriptorProto_EnumReservedRange_with_end (v : option number)
    (m : EnumDescriptorProto_EnumReservedRange) : EnumDescriptorProto_EnumReservedRange :=
  mkEnumDescriptorProto_EnumReservedRange (EnumDescriptorProto_EnumReservedRange_start m) v.

Definition createBaseEnumDescriptorProto_EnumReservedRange : EnumDescriptorProto_EnumReservedRange
    :=
  {| EnumDescriptorProto_EnumReservedRange_start := (Some (Int 0));
     EnumDescriptorProto_EnumReservedRange_end := (Some (Int 0)) |}.

Definition EnumDescriptorProto_EnumReservedRange_encode (message :
    EnumDescriptorProto_EnumReservedRange) (w : writer) : jsres writer :=
  let* w := match EnumDescriptorProto_EnumReservedRange_start message with
             | Some v => if negb (num_eqb v (Int 0)) then
                           let* w := w_uint32 (Int 8) w in w_int32 v w
                         else Ok w
             | None => Ok w
             end in
  let* w := match EnumDescriptorProto_EnumReservedRange_end message with
             | Some v => if negb (num_eqb v (Int 0)) then
                           let* w := w_uint32 (Int 16) w in w_int32 v w
                         else Ok w
             | None => Ok w
             end in
  Ok w.

Definition EnumDescriptorProto_EnumReservedRange_switch (fuel : nat) (tag : Z)
    (message : EnumDescriptorProto_EnumReservedRange) (r : reader)
    : jsres (flow EnumDescriptorProto_EnumReservedRange) :=
  let field := Z.shiftr tag 3 in
  if field =? 1 then
    if negb (tag =? 8) then Ok Break
    else
      let* (v, r) := r_int32_number r in
          Ok (Continue (EnumDescriptorProto_EnumReservedRange_with_start (Some v) message) r)
  else if field =? 2 then
    if negb (tag =? 16) then Ok Break
    else
      let* (v, r) := r_int32_number r in
          Ok (Continue (EnumDescriptorProto_EnumReservedRange_with_end (Some v) message) r)
  else Ok Break.

Definition EnumDescriptorProto_EnumReservedRange_decode (fuel : nat) (i : input)
    (length : option Z) : jsres (EnumDescriptorProto_EnumReservedRange * reader) :=
  decode_with (EnumDescriptorProto_EnumReservedRange_switch fuel)
      createBaseEnumDescriptorProto_EnumReservedRange fuel i length.

Definition EnumDescriptorProto_EnumReservedRange_fromJSON (object : value)
    : jsres EnumDescriptorProto_EnumReservedRange :=
  let* start_ := field object "start" to_number (Int 0) in
  let* end_ := field object "end" to_number (Int 0) in
  Ok (mkEnumDescriptorProto_EnumReservedRange (Some start_) (Some end_)).

Definition EnumDescriptorProto_EnumReservedRange_toJSON (message :
    EnumDescriptorProto_EnumReservedRange) : value :=
  let obj : props := [] in
  let obj := put_defined (EnumDescriptorProto_EnumReservedRange_start message) (fun v => negb
    (num_eqb v (Int 0))) "start" (fun v => VNumber (math_round v)) obj in
  let obj := put_defined (EnumDescriptorProto_EnumReservedRange_end message) (fun v => negb
    (num_eqb v (Int 0))) "end" (fun v => VNumber (math_round v)) obj in
  VObject obj.

Definition EnumDescriptorProto_EnumReservedRange_fromPartial (object :
    EnumDescriptorProto_EnumReservedRange_Partial) : EnumDescriptorProto_EnumReservedRange :=
  let message := createBaseEnumDescriptorProto_EnumReservedRange in
  let message := EnumDescriptorProto_EnumReservedRange_with_start (Some (nullish
      (EnumDescriptorProto_EnumReservedRange_p_start object) (Int 0))) message in
  let message := EnumDescriptorProto_EnumReservedRange_with_end (Some (nullish
      (EnumDescriptorProto_EnumReservedRange_p_end object) (Int 0))) message in
  message.

Definition EnumDescriptorProto_EnumReservedRange_create (base : option
    EnumDescriptorProto_EnumReservedRange_Partial) : EnumDescriptorProto_EnumReservedRange :=
  EnumDescriptorProto_EnumReservedRange_fromPartial (nullish base
      (mkEnumDescriptorProto_EnumReservedRange_Partial None None)).

Definition EnumDescriptorProto_EnumReservedRange_toPartial (m :
    EnumDescriptorProto_EnumReservedRange) : EnumDescriptorProto_EnumReservedRange_Partial :=
  mkEnumDescriptorProto_EnumReservedRange_Partial (EnumDescriptorProto_EnumReservedRange_start m)
    (EnumDescriptorProto_EnumReservedRange_end m).

(** ** [EnumDescriptorProto] *)

Record EnumDescriptorProto : Type := mkEnumDescriptorProto {
  EnumDescriptorProto_name : option jsstring;
  EnumDescriptorProto_value : list EnumValueDescriptorProto;
  EnumDescriptorProto_options : option EnumOptions;
  EnumDescriptorProto_reservedRange : list EnumDescriptorProto_EnumReservedRange;
  EnumDescriptorProto_reservedName : list jsstring;
  EnumDescriptorProto_visibility : option Z
}.

Record EnumDescriptorProto_Partial : Type := mkEnumDescriptorProto_Partial {
  EnumDescriptorProto_p_name : option jsstring;
  EnumDescriptorProto_p_value : option (list EnumValueDescriptorProto_Partial);
  EnumDescriptorProto_p_options : option EnumOptions_Partial;
  EnumDescriptorProto_p_reservedRange : option (list EnumDescriptorProto_EnumReservedRange_Partial);
  EnumDescriptorProto_p_reservedName : option (list jsstring);
  EnumDescriptorProto_p_visibility : option Z
}.

Definition EnumDescriptorProto_with_name (v : option jsstring) (m : EnumDescriptorProto)
    : EnumDescriptorProto :=
  mkEnumDescriptorProto v (EnumDescriptorProto_value m) (EnumDescriptorProto_options m)
    (EnumDescriptorProto_reservedRange m) (EnumDescriptorProto_reservedName m)
    (EnumDescriptorProto_visibility m).

Definition EnumDescriptorProto_with_value (v : list EnumValueDescriptorProto)
    (m : EnumDescriptorProto) : EnumDescriptorProto :=
  mkEnumDescriptorProto (EnumDescriptorProto_name m) v (EnumDescriptorProto_options m)
    (EnumDescriptorProto_reservedRange m) (EnumDescriptorProto_reservedName m)
    (EnumDescriptorProto_visibility m).

Definition EnumDescriptorProto_with_options (v : option EnumOptions) (m : EnumDescriptorProto)
    : EnumDescriptorProto :=
  mkEnumDescriptorProto (EnumDescriptorProto_name m) (EnumDescriptorProto_value m) v
    (EnumDescriptorProto_reservedRange m) (EnumDescriptorProto_reservedName m)
    (EnumDescriptorProto_visibility m).

Definition EnumDescriptorProto_with_reservedRange (v : list EnumDescriptorProto_EnumReservedRange)
    (m : EnumDescriptorProto) : EnumDescriptorProto :=
  mkEnumDescriptorProto (EnumDescriptorProto_name m) (EnumDescriptorProto_value m)
    (EnumDescriptorProto_options m) v (EnumDescriptorProto_reservedName m)
    (EnumDescriptorProto_visibility m).

Definition EnumDescriptorProto_with_reservedName (v : list jsstring) (m : EnumDescriptorProto)
    : EnumDescriptorProto :=
  mkEnumDescriptorProto (EnumDescriptorProto_name m) (EnumDescriptorProto_value m)
    (EnumDescriptorProto_options m) (EnumDescriptorProto_reservedRange m) v
    (EnumDescriptorProto_visibility m).

Definition EnumDescriptorProto_with_visibility (v : option Z) (m : EnumDescriptorProto)
    : EnumDescriptorProto :=
  mkEnumDescriptorProto (EnumDescriptorProto_name m) (EnumDescriptorProto_value m)
    (EnumDescriptorProto_options m) (EnumDescriptorProto_reservedRange m)
    (EnumDescriptorProto_reservedName m) v.

Definition createBaseEnumDescriptorProto : EnumDescriptorProto :=
  {| EnumDescriptorProto_name := (Some (js ""));
     EnumDescriptorProto_value := [];
     EnumDescriptorProto_options := None;
     EnumDescriptorProto_reservedRange := [];
     EnumDescriptorProto_reservedName := [];
     EnumDescriptorProto_visibility := (Some 0) |}.

Definition EnumDescriptorProto_encode (message : EnumDescriptorProto) (w : writer) : jsres writer :=
  let* w := match EnumDescriptorProto_name message with
             | Some v => if negb (str_eqb v (js "")) then
                           let* w := w_uint32 (Int 10) w in w_string v w
                         else Ok w
             | None => Ok w
             end in
  let* w := for_each (fun v w => let* w := w_uint32 (Int 18) w in
                               let* w := EnumValueDescriptorProto_encode v (fork w) in w_join w)
               (EnumDescriptorProto_value message) w in
  let* w := match EnumDescriptorProto_options message with
             | Some v => let* w := w_uint32 (Int 26) w in
                         let* w := EnumOptions_encode v (fork w) in w_join w
             | None => Ok w
             end in
  let* w := for_each (fun v w => let* w := w_uint32 (Int 34) w in
                               let* w := EnumDescriptorProto_EnumReservedRange_encode v (fork w) in
                                   w_join w)
               (EnumDescriptorProto_reservedRange message) w in
  let* w := for_each (fun v w => let* w := w_uint32 (Int 42) w in w_string v w)
               (EnumDescriptorProto_reservedName message) w in
  let* w := match EnumDescriptorProto_visibility message with
             | Some v => if negb (v =? 0) then
                           let* w := w_uint32 (Int 48) w in w_int32 (Int v) w
                         else Ok w
             | None => Ok w
             end in
  Ok w.

Definition EnumDescriptorProto_switch (fuel : nat) (tag : Z) (message : EnumDescriptorProto)
    (r : reader)
    : jsres (flow EnumDescriptorProto) :=
  let field := Z.shiftr tag 3 in
  if field =? 1 then
    if negb (tag =? 10) then Ok Break
    else
      let* (v, r) := r_string r in Ok (Continue (EnumDescriptorProto_with_name (Some v) message) r)
  else if field =? 2 then
    if negb (tag =? 18) then Ok Break
    else
      let* (l, r) := r_uint32 r in
      let* (v, r) := EnumValueDescriptorProto_decode fuel (InReader r) (Some l) in
      Ok (Continue (EnumDescriptorProto_with_value (EnumDescriptorProto_value message ++ [v])
          message) r)
  else if field =? 3 then
    if negb (tag =? 26) then Ok Break
    else
      let* (l, r) := r_uint32 r in
      let* (v, r) := EnumOptions_decode fuel (InReader r) (Some l) in
      Ok (Continue (EnumDescriptorProto_with_options (Some v) message) r)
  else if field =? 4 then
    if negb (tag =? 34) then Ok Break
    else
      let* (l, r) := r_uint32 r in
      let* (v, r) := EnumDescriptorProto_EnumReservedRange_decode fuel (InReader r) (Some l) in
      Ok (Continue (EnumDescriptorProto_with_reservedRange (EnumDescriptorProto_reservedRange
          message ++ [v]) message) r)
  else if field =? 5 then
    if negb (tag =? 42) then Ok Break
    else
      let* (v, r) := r_string r in
      Ok (Continue (EnumDescriptorProto_with_reservedName (EnumDescriptorProto_reservedName message
          ++ [v]) message) r)
  else if field =? 6 then
    if negb (tag =? 48) then Ok Break
    else
      let* (v, r) := r_int32 r in
          Ok (Continue (EnumDescriptorProto_with_visibility (Some v) message) r)
  else Ok Break.

Definition EnumDescriptorProto_decode (fuel : nat) (i : input) (length : option Z)
    : jsres (EnumDescriptorProto * reader) :=
  decode_with (EnumDescriptorProto_switch fuel) createBaseEnumDescriptorProto fuel i length.

Definition EnumDescriptorProto_fromJSON (object : value) : jsres EnumDescriptorProto :=
  let* name_ := field object "name" to_string (js "") in
  let* value_ := array_field object "value" EnumValueDescriptorProto_fromJSON in
  let* options_ := opt_field object "options" EnumOptions_fromJSON in
  let* reservedRange_ := array_field object "reservedRange"
      EnumDescriptorProto_EnumReservedRange_fromJSON in
  let* reservedName_ := array_field object "reservedName" to_string in
  let* visibility_ := field object "visibility" (fun v => Ok (SymbolVisibility_num
      (symbolVisibilityFromJSON v))) 0 in
  Ok (mkEnumDescriptorProto (Some name_) value_ options_ reservedRange_ reservedName_ (Some
    visibility_)).

Definition EnumDescriptorProto_toJSON (message : EnumDescriptorProto) : value :=
  let obj : props := [] in
  let obj := put_defined (EnumDescriptorProto_name message) (fun v => negb (str_eqb v (js "")))
    "name" (fun v => VString v) obj in
  let obj := put_if (has_length (EnumDescriptorProto_value message)) "value" (VArray (map
    EnumValueDescriptorProto_toJSON (EnumDescriptorProto_value message))) obj in
  let obj := put_defined (EnumDescriptorProto_options message) (fun _ => true) "options" (fun v =>
    EnumOptions_toJSON v) obj in
  let obj := put_if (has_length (EnumDescriptorProto_reservedRange message)) "reservedRange"
    (VArray (map EnumDescriptorProto_EnumReservedRange_toJSON (EnumDescriptorProto_reservedRange
    message))) obj in
  let obj := put_if (has_length (EnumDescriptorProto_reservedName message)) "reservedName" (VArray
    (map VString (EnumDescriptorProto_reservedName message))) obj in
  let obj := put_defined (EnumDescriptorProto_visibility message) (fun v => negb (v =? 0))
    "visibility" (fun v => VString (symbolVisibilityToJSON v)) obj in
  VObject obj.

Definition EnumDescriptorProto_fromPartial (object : EnumDescriptorProto_Partial)
    : EnumDescriptorProto :=
  let message := createBaseEnumDescriptorProto in
  let message := EnumDescriptorProto_with_name (Some (nullish (EnumDescriptorProto_p_name object)
      (js ""))) message in
  let message := EnumDescriptorProto_with_value (nullish (option_map (map
      EnumValueDescriptorProto_fromPartial) (EnumDescriptorProto_p_value object)) []) message in
  let message := EnumDescriptorProto_with_options (option_map EnumOptions_fromPartial
      (EnumDescriptorProto_p_options object)) message in
  let message := EnumDescriptorProto_with_reservedRange (nullish (option_map (map
      EnumDescriptorProto_EnumReservedRange_fromPartial)
      (EnumDescriptorProto_p_reservedRange object)) []) message in
  let message := EnumDescriptorProto_with_reservedName (nullish (EnumDescriptorProto_p_reservedName
      object) []) message in
  let message := EnumDescriptorProto_with_visibility (Some (nullish
      (EnumDescriptorProto_p_visibility object) 0)) message in
  message.

Definition EnumDescriptorProto_create (base : option EnumDescriptorProto_Partial)
    : EnumDescriptorProto :=
  EnumDescriptorProto_fromPartial (nullish base (mkEnumDescriptorProto_Partial None None None None
      None None)).

Definition EnumDescriptorProto_toPartial (m : EnumDescriptorProto) : EnumDescriptorProto_Partial :=
  mkEnumDescriptorProto_Partial (EnumDescriptorProto_name m) (Some (map
    EnumValueDescriptorProto_toPartial (EnumDescriptorProto_value m))) (option_map
    EnumOptions_toPartial (EnumDescriptorProto_options m)) (Some (map
    EnumDescriptorProto_EnumReservedRange_toPartial (EnumDescriptorProto_reservedRange m))) (Some
    (EnumDescriptorProto_reservedName m)) (EnumDescriptorProto_visibility m).

(** ** [DescriptorProto_ExtensionRange] *)

Record DescriptorProto_ExtensionRange : Type := mkDescriptorProto_ExtensionRange {
  DescriptorProto_ExtensionRange_start : option number;
  DescriptorProto_ExtensionRange_end : option number;
  DescriptorProto_ExtensionRange_options : option ExtensionRangeOptions
}.

Record DescriptorProto_ExtensionRange_Partial : Type := mkDescriptorProto_ExtensionRange_Partial {
  DescriptorProto_ExtensionRange_p_start : option number;
  DescriptorProto_ExtensionRange_p_end : option number;
  DescriptorProto_ExtensionRange_p_options : option ExtensionRangeOptions_Partial
}.

Definition DescriptorProto_ExtensionRange_with_start (v : option number)
    (m : DescriptorProto_ExtensionRange) : DescriptorProto_ExtensionRange :=
  mkDescriptorProto_ExtensionRange v (DescriptorProto_ExtensionRange_end m)
    (DescriptorProto_ExtensionRange_options m).

Definition DescriptorProto_ExtensionRange_with_end (v : option number)
    (m : DescriptorProto_ExtensionRange) : DescriptorProto_ExtensionRange :=
  mkDescriptorProto_ExtensionRange (DescriptorProto_ExtensionRange_start m) v
    (DescriptorProto_ExtensionRange_options m).

Definition DescriptorProto_ExtensionRange_with_options (v : option ExtensionRangeOptions)
    (m : DescriptorProto_ExtensionRange) : DescriptorProto_ExtensionRange :=
  mkDescriptorProto_ExtensionRange (DescriptorProto_ExtensionRange_start m)
    (DescriptorProto_ExtensionRange_end m) v.

Definition createBaseDescriptorProto_ExtensionRange : DescriptorProto_ExtensionRange :=
  {| DescriptorProto_ExtensionRange_start := (Some (Int 0));
     DescriptorProto_ExtensionRange_end := (Some (Int 0));
     DescriptorProto_ExtensionRange_options := None |}.

Definition DescriptorProto_ExtensionRange_encode (message : DescriptorProto_ExtensionRange)
    (w : writer) : jsres writer :=
  let* w := match DescriptorProto_ExtensionRange_start message with
             | Some v => if negb (num_eqb v (Int 0)) then
                           let* w := w_uint32 (Int 8) w in w_int32 v w
                         else Ok w
             | None => Ok w
             end in
  let* w := match DescriptorProto_ExtensionRange_end message with
             | Some v => if negb (num_eqb v (Int 0)) then
                           let* w := w_uint32 (Int 16) w in w_int32 v w
                         else Ok w
             | None => Ok w
             end in
  let* w := match DescriptorProto_ExtensionRange_options message with
             | Some v => let* w := w_uint32 (Int 26) w in
                         let* w := ExtensionRangeOptions_encode v (fork w) in w_join w
             | None => Ok w
             end in
  Ok w.

Definition DescriptorProto_ExtensionRange_switch (fuel : nat) (tag : Z)
    (message : DescriptorProto_ExtensionRange) (r : reader)
    : jsres (flow DescriptorProto_ExtensionRange) :=
  let field := Z.shiftr tag 3 in
  if field =? 1 then
    if negb (tag =? 8) then Ok Break
    else
      let* (v, r) := r_int32_number r in
          Ok (Continue (DescriptorProto_ExtensionRange_with_start (Some v) message) r)
  else if field =? 2 then
    if negb (tag =? 16) then Ok Break
    else
      let* (v, r) := r_int32_number r in
          Ok (Continue (DescriptorProto_ExtensionRange_with_end (Some v) message) r)
  else if field =? 3 then
    if negb (tag =? 26) then Ok Break
    else
      let* (l, r) := r_uint32 r in
      let* (v, r) := ExtensionRangeOptions_decode fuel (InReader r) (Some l) in
      Ok (Continue (DescriptorProto_ExtensionRange_with_options (Some v) message) r)
  else Ok Break.

Definition DescriptorProto_ExtensionRange_decode (fuel : nat) (i : input) (length : option Z)
    : jsres (DescriptorProto_ExtensionRange * reader) :=
  decode_with (DescriptorProto_ExtensionRange_switch fuel)
      createBaseDescriptorProto_ExtensionRange fuel i length.

Definition DescriptorProto_ExtensionRange_fromJSON (object : value)
    : jsres DescriptorProto_ExtensionRange :=
  let* start_ := field object "start" to_number (Int 0) in
  let* end_ := field object "end" to_number (Int 0) in
  let* options_ := opt_field object "options" ExtensionRangeOptions_fromJSON in
  Ok (mkDescriptorProto_ExtensionRange (Some start_) (Some end_) options_).

Definition DescriptorProto_ExtensionRange_toJSON (message : DescriptorProto_ExtensionRange)
    : value :=
  let obj : props := [] in
  let obj := put_defined (DescriptorProto_ExtensionRange_start message) (fun v => negb (num_eqb v
    (Int 0))) "start" (fun v => VNumber (math_round v)) obj in
  let obj := put_defined (DescriptorProto_ExtensionRange_end message) (fun v => negb (num_eqb v
    (Int 0))) "end" (fun v => VNumber (math_round v)) obj in
  let obj := put_defined (DescriptorProto_ExtensionRange_options message) (fun _ => true)
    "options" (fun v => ExtensionRangeOptions_toJSON v) obj in
  VObject obj.

Definition DescriptorProto_ExtensionRange_fromPartial (object :
    DescriptorProto_ExtensionRange_Partial) : DescriptorProto_ExtensionRange :=
  let message := createBaseDescriptorProto_ExtensionRange in
  let message := DescriptorProto_ExtensionRange_with_start (Some (nullish
      (DescriptorProto_ExtensionRange_p_start object) (Int 0))) message in
  let message := DescriptorProto_ExtensionRange_with_end (Some (nullish
      (DescriptorProto_ExtensionRange_p_end object) (Int 0))) message in
  let message := DescriptorProto_ExtensionRange_with_options (option_map
      ExtensionRangeOptions_fromPartial (DescriptorProto_ExtensionRange_p_options object))
      message in
  message.

Definition DescriptorProto_ExtensionRange_create (base : option
    DescriptorProto_ExtensionRange_Partial) : DescriptorProto_ExtensionRange :=
  DescriptorProto_ExtensionRange_fromPartial (nullish base
      (mkDescriptorProto_ExtensionRange_Partial None None None)).

Definition DescriptorProto_ExtensionRange_toPartial (m : DescriptorProto_ExtensionRange)
    : DescriptorProto_ExtensionRange_Partial :=
  mkDescriptorProto_ExtensionRange_Partial (DescriptorProto_ExtensionRange_start m)
    (DescriptorProto_ExtensionRange_end m) (option_map ExtensionRangeOptions_toPartial
    (DescriptorProto_ExtensionRange_options m)).

(** ** [OneofDescriptorProto] *)

Record OneofDescriptorProto : Type := mkOneofDescriptorProto {
  OneofDescriptorProto_name : option jsstring;
  OneofDescriptorProto_options : option OneofOptions
}.

Record OneofDescriptorProto_Partial : Type := mkOneofDescriptorProto_Partial {
  OneofDescriptorProto_p_name : option jsstring;
  OneofDescriptorProto_p_options : option OneofOptions_Partial
}.

Definition OneofDescriptorProto_with_name (v : option jsstring) (m : OneofDescriptorProto)
    : OneofDescriptorProto :=
  mkOneofDescriptorProto v (OneofDescriptorProto_options m).

Definition OneofDescriptorProto_with_options (v : option OneofOptions) (m : OneofDescriptorProto)
    : OneofDescriptorProto :=
  mkOneofDescriptorProto (OneofDescriptorProto_name m) v.

Definition createBaseOneofDescriptorProto : OneofDescriptorProto :=
  {| OneofDescriptorProto_name := (Some (js ""));
     OneofDescriptorProto_options := None |}.

Definition OneofDescriptorProto_encode (message : OneofDescriptorProto) (w : writer)
    : jsres writer :=
  let* w := match OneofDescriptorProto_name message with
             | Some v => if negb (str_eqb v (js "")) then
                           let* w := w_uint32 (Int 10) w in w_string v w
                         else Ok w
             | None => Ok w
             end in
  let* w := match OneofDescriptorProto_options message with
             | Some v => let* w := w_uint32 (Int 18) w in
                         let* w := OneofOptions_encode v (fork w) in w_join w
             | None => Ok w
             end in
  Ok w.

Definition OneofDescriptorProto_switch (fuel : nat) (tag : Z) (message : OneofDescriptorProto)
    (r : reader)
    : jsres (flow OneofDescriptorProto) :=
  let field := Z.shiftr tag 3 in
  if field =? 1 then
    if negb (tag =? 10) then Ok Break
    else
      let* (v, r) := r_string r in Ok (Continue (OneofDescriptorProto_with_name (Some v) message) r)
  else if field =? 2 then
    if negb (tag =? 18) then Ok Break
    else
      let* (l, r) := r_uint32 r in
      let* (v, r) := OneofOptions_decode fuel (InReader r) (Some l) in
      Ok (Continue (OneofDescriptorProto_with_options (Some v) message) r)
  else Ok Break.

Definition OneofDescriptorProto_decode (fuel : nat) (i : input) (length : option Z)
    : jsres (OneofDescriptorProto * reader) :=
  decode_with (OneofDescriptorProto_switch fuel) createBaseOneofDescriptorProto fuel i length.

Definition OneofDescriptorProto_fromJSON (object : value) : jsres OneofDescriptorProto :=
  let* name_ := field object "name" to_string (js "") in
  let* options_ := opt_field object "options" OneofOptions_fromJSON in
  Ok (mkOneofDescriptorProto (Some name_) options_).

Definition OneofDescriptorProto_toJSON (message : OneofDescriptorProto) : value :=
  let obj : props := [] in
  let obj := put_defined (OneofDescriptorProto_name message) (fun v => negb (str_eqb v (js "")))
    "name" (fun v => VString v) obj in
  let obj := put_defined (OneofDescriptorProto_options message) (fun _ => true) "options" (fun v
    => OneofOptions_toJSON v) obj in
  VObject obj.

Definition OneofDescriptorProto_fromPartial (object : OneofDescriptorProto_Partial)
    : OneofDescriptorProto :=
  let message := createBaseOneofDescriptorProto in
  let message := OneofDescriptorProto_with_name (Some (nullish (OneofDescriptorProto_p_name object)
      (js ""))) message in
  let message := OneofDescriptorProto_with_options (option_map OneofOptions_fromPartial
      (OneofDescriptorProto_p_options object)) message in
  message.

Definition OneofDescriptorProto_create (base : option OneofDescriptorProto_Partial)
    : OneofDescriptorProto :=
  OneofDescriptorProto_fromPartial (nullish base (mkOneofDescriptorProto_Partial None None)).

Definition OneofDescriptorProto_toPartial (m : OneofDescriptorProto)
    : OneofDescriptorProto_Partial :=
  mkOneofDescriptorProto_Partial (OneofDescriptorProto_name m) (option_map OneofOptions_toPartial
    (OneofDescriptorProto_options m)).

(** ** [DescriptorProto_ReservedRange] *)

Record DescriptorProto_ReservedRange : Type := mkDescriptorProto_ReservedRange {
  DescriptorProto_ReservedRange_start : option number;
  DescriptorProto_ReservedRange_end : option number
}.

Record DescriptorProto_ReservedRange_Partial : Type := mkDescriptorProto_ReservedRange_Partial {
  DescriptorProto_ReservedRange_p_start : option number;
  DescriptorProto_ReservedRange_p_end : option number
}.

Definition DescriptorProto_ReservedRange_with_start (v : option number)
    (m : DescriptorProto_ReservedRange) : DescriptorProto_ReservedRange :=
  mkDescriptorProto_ReservedRange v (DescriptorProto_ReservedRange_end m).

Definition DescriptorProto_ReservedRange_with_end (v : option number)
    (m : DescriptorProto_ReservedRange) : DescriptorProto_ReservedRange :=
  mkDescriptorProto_ReservedRange (DescriptorProto_ReservedRange_start m) v.

Definition createBaseDescriptorProto_ReservedRange : DescriptorProto_ReservedRange :=
  {| DescriptorProto_ReservedRange_start := (Some (Int 0));
     DescriptorProto_ReservedRange_end := (Some (Int 0)) |}.

Definition DescriptorProto_ReservedRange_encode (message : DescriptorProto_ReservedRange)
    (w : writer) : jsres writer :=
  let* w := match DescriptorProto_ReservedRange_start message with
             | Some v => if negb (num_eqb v (Int 0)) then
                           let* w := w_uint32 (Int 8) w in w_int32 v w
                         else Ok w
             | None => Ok w
             end in
  let* w := match DescriptorProto_ReservedRange_end message with
             | Some v => if negb (num_eqb v (Int 0)) then
                           let* w := w_uint32 (Int 16) w in w_int32 v w
                         else Ok w
             | None => Ok w
             end in
  Ok w.

Definition DescriptorProto_ReservedRange_switch (fuel : nat) (tag : Z)
    (message : DescriptorProto_ReservedRange) (r : reader)
    : jsres (flow DescriptorProto_ReservedRange) :=
  let field := Z.shiftr tag 3 in
  if field =? 1 then
    if negb (tag =? 8) then Ok Break
    else
      let* (v, r) := r_int32_number r in
          Ok (Continue (DescriptorProto_ReservedRange_with_start (Some v) message) r)
  else if field =? 2 then
    if negb (tag =? 16) then Ok Break
    else
      let* (v, r) := r_int32_number r in
          Ok (Continue (DescriptorProto_ReservedRange_with_end (Some v) message) r)
  else Ok Break.

Definition DescriptorProto_ReservedRange_decode (fuel : nat) (i : input) (length : option Z)
    : jsres (DescriptorProto_ReservedRange * reader) :=
  decode_with (DescriptorProto_ReservedRange_switch fuel)
      createBaseDescriptorProto_ReservedRange fuel i length.

Definition DescriptorProto_ReservedRange_fromJSON (object : value)
    : jsres DescriptorProto_ReservedRange :=
  let* start_ := field object "start" to_number (Int 0) in
  let* end_ := field object "end" to_number (Int 0) in
  Ok (mkDescriptorProto_ReservedRange (Some start_) (Some end_)).

Definition DescriptorProto_ReservedRange_toJSON (message : DescriptorProto_ReservedRange) : value :=
  let obj : props := [] in
  let obj := put_defined (DescriptorProto_ReservedRange_start message) (fun v => negb (num_eqb v
    (Int 0))) "start" (fun v => VNumber (math_round v)) obj in
  let obj := put_defined (DescriptorProto_ReservedRange_end message) (fun v => negb (num_eqb v
    (Int 0))) "end" (fun v => VNumber (math_round v)) obj in
  VObject obj.

Definition DescriptorProto_ReservedRange_fromPartial (object :
    DescriptorProto_ReservedRange_Partial) : DescriptorProto_ReservedRange :=
  let message := createBaseDescriptorProto_ReservedRange in
  let message := DescriptorProto_ReservedRange_with_start (Some (nullish
      (DescriptorProto_ReservedRange_p_start object) (Int 0))) message in
  let message := DescriptorProto_ReservedRange_with_end (Some (nullish
      (DescriptorProto_ReservedRange_p_end object) (Int 0))) message in
  message.

Definition DescriptorProto_ReservedRange_create (base : option
    DescriptorProto_ReservedRange_Partial) : DescriptorProto_ReservedRange :=
  DescriptorProto_ReservedRange_fromPartial (nullish base (mkDescriptorProto_ReservedRange_Partial
      None None)).

Definition DescriptorProto_ReservedRange_toPartial (m : DescriptorProto_ReservedRange)
    : DescriptorProto_ReservedRange_Partial :=
  mkDescriptorProto_ReservedRange_Partial (DescriptorProto_ReservedRange_start m)
    (DescriptorProto_ReservedRange_end m).

(** ** [DescriptorProto] *)

Inductive DescriptorProto : Type := mkDescriptorProto {
  DescriptorProto_name : option jsstring;
  DescriptorProto_field : list FieldDescriptorProto;
  DescriptorProto_extension : list FieldDescriptorProto;
  DescriptorProto_nestedType : list DescriptorProto;
  DescriptorProto_enumType : list EnumDescriptorProto;
  DescriptorProto_extensionRange : list DescriptorProto_ExtensionRange;
  DescriptorProto_oneofDecl : list OneofDescriptorProto;
  DescriptorProto_options : option MessageOptions;
  DescriptorProto_reservedRange : list DescriptorProto_ReservedRange;
  DescriptorProto_reservedName : list jsstring;
  DescriptorProto_visibility : option Z
}.

Inductive DescriptorProto_Partial : Type := mkDescriptorProto_Partial {
  DescriptorProto_p_name : option jsstring;
  DescriptorProto_p_field : option (list FieldDescriptorProto_Partial);
  DescriptorProto_p_extension : option (list FieldDescriptorProto_Partial);
  DescriptorProto_p_nestedType : option (list DescriptorProto_Partial);
  DescriptorProto_p_enumType : option (list EnumDescriptorProto_Partial);
  DescriptorProto_p_extensionRange : option (list DescriptorProto_ExtensionRange_Partial);
  DescriptorProto_p_oneofDecl : option (list OneofDescriptorProto_Partial);
  DescriptorProto_p_options : option MessageOptions_Partial;
  DescriptorProto_p_reservedRange : option (list DescriptorProto_ReservedRange_Partial);
  DescriptorProto_p_reservedName : option (list jsstring);
  DescriptorProto_p_visibility : option Z
}.

Definition DescriptorProto_with_name (v : option jsstring) (m : DescriptorProto)
    : DescriptorProto :=
  mkDescriptorProto v (DescriptorProto_field m) (DescriptorProto_extension m)
    (DescriptorProto_nestedType m) (DescriptorProto_enumType m) (DescriptorProto_extensionRange m)
    (DescriptorProto_oneofDecl m) (DescriptorProto_options m) (DescriptorProto_reservedRange m)
    (DescriptorProto_reservedName m) (DescriptorProto_visibility m).

Definition DescriptorProto_with_field (v : list FieldDescriptorProto) (m : DescriptorProto)
    : DescriptorProto :=
  mkDescriptorProto (DescriptorProto_name m) v (DescriptorProto_extension m)
    (DescriptorProto_nestedType m) (DescriptorProto_enumType m) (DescriptorProto_extensionRange m)
    (DescriptorProto_oneofDecl m) (DescriptorProto_options m) (DescriptorProto_reservedRange m)
    (DescriptorProto_reservedName m) (DescriptorProto_visibility m).

Definition DescriptorProto_with_extension (v : list FieldDescriptorProto) (m : DescriptorProto)
    : DescriptorProto :=
  mkDescriptorProto (DescriptorProto_name m) (DescriptorProto_field m) v
    (DescriptorProto_nestedType m) (DescriptorProto_enumType m) (DescriptorProto_extensionRange m)
    (DescriptorProto_oneofDecl m) (DescriptorProto_options m) (DescriptorProto_reservedRange m)
    (DescriptorProto_reservedName m) (DescriptorProto_visibility m).

Definition DescriptorProto_with_nestedType (v : list DescriptorProto) (m : DescriptorProto)
    : DescriptorProto :=
  mkDescriptorProto (DescriptorProto_name m) (DescriptorProto_field m) (DescriptorProto_extension
    m) v (DescriptorProto_enumType m) (DescriptorProto_extensionRange m)
    (DescriptorProto_oneofDecl m) (DescriptorProto_options m) (DescriptorProto_reservedRange m)
    (DescriptorProto_reservedName m) (DescriptorProto_visibility m).

Definition DescriptorProto_with_enumType (v : list EnumDescriptorProto) (m : DescriptorProto)
    : DescriptorProto :=
  mkDescriptorProto (DescriptorProto_name m) (DescriptorProto_field m) (DescriptorProto_extension
    m) (DescriptorProto_nestedType m) v (DescriptorProto_extensionRange m)
    (DescriptorProto_oneofDecl m) (DescriptorProto_options m) (DescriptorProto_reservedRange m)
    (DescriptorProto_reservedName m) (DescriptorProto_visibility m).

Definition DescriptorProto_with_extensionRange (v : list DescriptorProto_ExtensionRange)
    (m : DescriptorProto) : DescriptorProto :=
  mkDescriptorProto (DescriptorProto_name m) (DescriptorProto_field m) (DescriptorProto_extension
    m) (DescriptorProto_nestedType m) (DescriptorProto_enumType m) v (DescriptorProto_oneofDecl m)
    (DescriptorProto_options m) (DescriptorProto_reservedRange m) (DescriptorProto_reservedName m)
    (DescriptorProto_visibility m).

Definition DescriptorProto_with_oneofDecl (v : list OneofDescriptorProto) (m : DescriptorProto)
    : DescriptorProto :=
  mkDescriptorProto (DescriptorProto_name m) (DescriptorProto_field m) (DescriptorProto_extension
    m) (DescriptorProto_nestedType m) (DescriptorProto_enumType m) (DescriptorProto_extensionRange
    m) v (DescriptorProto_options m) (DescriptorProto_reservedRange m)
    (DescriptorProto_reservedName m) (DescriptorProto_visibility m).

Definition DescriptorProto_with_options (v : option MessageOptions) (m : DescriptorProto)
    : DescriptorProto :=
  mkDescriptorProto (DescriptorProto_name m) (DescriptorProto_field m) (DescriptorProto_extension
    m) (DescriptorProto_nestedType m) (DescriptorProto_enumType m) (DescriptorProto_extensionRange
    m) (DescriptorProto_oneofDecl m) v (DescriptorProto_reservedRange m)
    (DescriptorProto_reservedName m) (DescriptorProto_visibility m).

Definition DescriptorProto_with_reservedRange (v : list DescriptorProto_ReservedRange)
    (m : DescriptorProto) : DescriptorProto :=
  mkDescriptorProto (DescriptorProto_name m) (DescriptorProto_field m) (DescriptorProto_extension
    m) (DescriptorProto_nestedType m) (DescriptorProto_enumType m) (DescriptorProto_extensionRange
    m) (DescriptorProto_oneofDecl m) (DescriptorProto_options m) v (DescriptorProto_reservedName
    m) (DescriptorProto_visibility m).

Definition DescriptorProto_with_reservedName (v : list jsstring) (m : DescriptorProto)
    : DescriptorProto :=
  mkDescriptorProto (DescriptorProto_name m) (DescriptorProto_field m) (DescriptorProto_extension
    m) (DescriptorProto_nestedType m) (DescriptorProto_enumType m) (DescriptorProto_extensionRange
    m) (DescriptorProto_oneofDecl m) (DescriptorProto_options m) (DescriptorProto_reservedRange m)
    v (DescriptorProto_visibility m).

Definition DescriptorProto_with_visibility (v : option Z) (m : DescriptorProto) : DescriptorProto :=
  mkDescriptorProto (DescriptorProto_name m) (DescriptorProto_field m) (DescriptorProto_extension
    m) (DescriptorProto_nestedType m) (DescriptorProto_enumType m) (DescriptorProto_extensionRange
    m) (DescriptorProto_oneofDecl m) (DescriptorProto_options m) (DescriptorProto_reservedRange m)
    (DescriptorProto_reservedName m) v.

Definition createBaseDescriptorProto : DescriptorProto :=
  {| DescriptorProto_name := (Some (js ""));
     DescriptorProto_field := [];
     DescriptorProto_extension := [];
     DescriptorProto_nestedType := [];
     DescriptorProto_enumType := [];
     DescriptorProto_extensionRange := [];
     DescriptorProto_oneofDecl := [];
     DescriptorProto_options := None;
     DescriptorProto_reservedRange := [];
     DescriptorProto_reservedName := [];
     DescriptorProto_visibility := (Some 0) |}.

Fixpoint DescriptorProto_encode (message : DescriptorProto) (w : writer) : jsres writer :=
  let* w := match DescriptorProto_name message with
             | Some v => if negb (str_eqb v (js "")) then
                           let* w := w_uint32 (Int 10) w in w_string v w
                         else Ok w
             | None => Ok w
             end in
  let* w := for_each (fun v w => let* w := w_uint32 (Int 18) w in
                               let* w := FieldDescriptorProto_encode v (fork w) in w_join w)
               (DescriptorProto_field message) w in
  let* w := for_each (fun v w => let* w := w_uint32 (Int 50) w in
                               let* w := FieldDescriptorProto_encode v (fork w) in w_join w)
               (DescriptorProto_extension message) w in
  let* w := for_each (fun v w => let* w := w_uint32 (Int 26) w in
                               let* w := DescriptorProto_encode v (fork w) in w_join w)
               (DescriptorProto_nestedType message) w in
  let* w := for_each (fun v w => let* w := w_uint32 (Int 34) w in
                               let* w := EnumDescriptorProto_encode v (fork w) in w_join w)
               (DescriptorProto_enumType message) w in
  let* w := for_each (fun v w => let* w := w_uint32 (Int 42) w in
                               let* w := DescriptorProto_ExtensionRange_encode v (fork w) in
                                   w_join w)
               (DescriptorProto_extensionRange message) w in
  let* w := for_each (fun v w => let* w := w_uint32 (Int 66) w in
                               let* w := OneofDescriptorProto_encode v (fork w) in w_join w)
               (DescriptorProto_oneofDecl message) w in
  let* w := match DescriptorProto_options message with
             | Some v => let* w := w_uint32 (Int 58) w in
                         let* w := MessageOptions_encode v (fork w) in w_join w
             | None => Ok w
             end in
  let* w := for_each (fun v w => let* w := w_uint32 (Int 74) w in
                               let* w := DescriptorProto_ReservedRange_encode v (fork w) in
                                   w_join w)
               (DescriptorProto_reservedRange message) w in
  let* w := for_each (fun v w => let* w := w_uint32 (Int 82) w in w_string v w)
               (DescriptorProto_reservedName message) w in
  let* w := match DescriptorProto_visibility message with
             | Some v => if negb (v =? 0) then
                           let* w := w_uint32 (Int 88) w in w_int32 (Int v) w
                         else Ok w
             | None => Ok w
             end in
  Ok w.

Definition DescriptorProto_switch
    (decode : nat -> input -> option Z -> jsres (DescriptorProto * reader)) (fuel : nat) (tag : Z)
        (message : DescriptorProto) (r : reader)
    : jsres (flow DescriptorProto) :=
  let field := Z.shiftr tag 3 in
  if field =? 1 then
    if negb (tag =? 10) then Ok Break
    else
      let* (v, r) := r_string r in Ok (Continue (DescriptorProto_with_name (Some v) message) r)
  else if field =? 2 then
    if negb (tag =? 18) then Ok Break
    else
      let* (l, r) := r_uint32 r in
      let* (v, r) := FieldDescriptorProto_decode fuel (InReader r) (Some l) in
      Ok (Continue (DescriptorProto_with_field (DescriptorProto_field message ++ [v]) message) r)
  else if field =? 6 then
    if negb (tag =? 50) then Ok Break
    else
      let* (l, r) := r_uint32 r in
      let* (v, r) := FieldDescriptorProto_decode fuel (InReader r) (Some l) in
      Ok (Continue (DescriptorProto_with_extension (DescriptorProto_extension message ++ [v])
          message) r)
  else if field =? 3 then
    if negb (tag =? 26) then Ok Break
    else
      let* (l, r) := r_uint32 r in
      let* (v, r) := decode fuel (InReader r) (Some l) in
      Ok (Continue (DescriptorProto_with_nestedType (DescriptorProto_nestedType message ++ [v])
          message) r)
  else if field =? 4 then
    if negb (tag =? 34) then Ok Break
    else
      let* (l, r) := r_uint32 r in
      let* (v, r) := EnumDescriptorProto_decode fuel (InReader r) (Some l) in
      Ok (Continue (DescriptorProto_with_enumType (DescriptorProto_enumType message ++ [v])
          message) r)
  else if field =? 5 then
    if negb (tag =? 42) then Ok Break
    else
      let* (l, r) := r_uint32 r in
      let* (v, r) := DescriptorProto_ExtensionRange_decode fuel (InReader r) (Some l) in
      Ok (Continue (DescriptorProto_with_extensionRange (DescriptorProto_extensionRange message ++
          [v]) message) r)
  else if field =? 8 then
    if negb (tag =? 66) then Ok Break
    else
      let* (l, r) := r_uint32 r in
      let* (v, r) := OneofDescriptorProto_decode fuel (InReader r) (Some l) in
      Ok (Continue (DescriptorProto_with_oneofDecl (DescriptorProto_oneofDecl message ++ [v])
          message) r)
  else if field =? 7 then
    if negb (tag =? 58) then Ok Break
    else
      let* (l, r) := r_uint32 r in
      let* (v, r) := MessageOptions_decode fuel (InReader r) (Some l) in
      Ok (Continue (DescriptorProto_with_options (Some v) message) r)
  else if field =? 9 then
    if negb (tag =? 74) then Ok Break
    else
      let* (l, r) := r_uint32 r in
      let* (v, r) := DescriptorProto_ReservedRange_decode fuel (InReader r) (Some l) in
      Ok (Continue (DescriptorProto_with_reservedRange (DescriptorProto_reservedRange message ++
          [v]) message) r)
  else if field =? 10 then
    if negb (tag =? 82) then Ok Break
    else
      let* (v, r) := r_string r in
      Ok (Continue (DescriptorProto_with_reservedName (DescriptorProto_reservedName message ++ [v])
          message) r)
  else if field =? 11 then
    if negb (tag =? 88) then Ok Break
    else
      let* (v, r) := r_int32 r in Ok (Continue (DescriptorProto_with_visibility (Some v) message) r)
  else Ok Break.

Fixpoint DescriptorProto_decode (fuel : nat) (i : input) (length : option Z)
    : jsres (DescriptorProto * reader) :=
  match fuel with
  | O => OutOfFuel
  | S fuel' => decode_with (DescriptorProto_switch DescriptorProto_decode fuel')
      createBaseDescriptorProto fuel i length
  end.

Fixpoint DescriptorProto_fromJSON (fuel : nat) (object : value) : jsres DescriptorProto :=
  match fuel with
  | O => OutOfFuel
  | S fuel =>
      let* name_ := field object "name" to_string (js "") in
      let* field_ := array_field object "field" FieldDescriptorProto_fromJSON in
      let* extension_ := array_field object "extension" FieldDescriptorProto_fromJSON in
      let* nestedType_ := array_field object "nestedType" (DescriptorProto_fromJSON fuel) in
      let* enumType_ := array_field object "enumType" EnumDescriptorProto_fromJSON in
      let* extensionRange_ := array_field object "extensionRange"
          DescriptorProto_ExtensionRange_fromJSON in
      let* oneofDecl_ := array_field object "oneofDecl" OneofDescriptorProto_fromJSON in
      let* options_ := opt_field object "options" MessageOptions_fromJSON in
      let* reservedRange_ := array_field object "reservedRange"
          DescriptorProto_ReservedRange_fromJSON in
      let* reservedName_ := array_field object "reservedName" to_string in
      let* visibility_ := field object "visibility" (fun v => Ok (SymbolVisibility_num
          (symbolVisibilityFromJSON v))) 0 in
      Ok (mkDescriptorProto (Some name_) field_ extension_ nestedType_ enumType_ extensionRange_
        oneofDecl_ options_ reservedRange_ reservedName_ (Some visibility_))
  end.

Fixpoint DescriptorProto_toJSON (message : DescriptorProto) : value :=
  let obj : props := [] in
  let obj := put_defined (DescriptorProto_name message) (fun v => negb (str_eqb v (js ""))) "name"
    (fun v => VString v) obj in
  let obj := put_if (has_length (DescriptorProto_field message)) "field" (VArray (map
    FieldDescriptorProto_toJSON (DescriptorProto_field message))) obj in
  let obj := put_if (has_length (DescriptorProto_extension message)) "extension" (VArray (map
    FieldDescriptorProto_toJSON (DescriptorProto_extension message))) obj in
  let obj := put_if (has_length (DescriptorProto_nestedType message)) "nestedType" (VArray (map
    DescriptorProto_toJSON (DescriptorProto_nestedType message))) obj in
  let obj := put_if (has_length (DescriptorProto_enumType message)) "enumType" (VArray (map
    EnumDescriptorProto_toJSON (DescriptorProto_enumType message))) obj in
  let obj := put_if (has_length (DescriptorProto_extensionRange message)) "extensionRange" (VArray
    (map DescriptorProto_ExtensionRange_toJSON (DescriptorProto_extensionRange message))) obj in
  let obj := put_if (has_length (DescriptorProto_oneofDecl message)) "oneofDecl" (VArray (map
    OneofDescriptorProto_toJSON (DescriptorProto_oneofDecl message))) obj in
  let obj := put_defined (DescriptorProto_options message) (fun _ => true) "options" (fun v =>
    MessageOptions_toJSON v) obj in
  let obj := put_if (has_length (DescriptorProto_reservedRange message)) "reservedRange" (VArray
    (map DescriptorProto_ReservedRange_toJSON (DescriptorProto_reservedRange message))) obj in
  let obj := put_if (has_length (DescriptorProto_reservedName message)) "reservedName" (VArray
    (map VString (DescriptorProto_reservedName message))) obj in
  let obj := put_defined (DescriptorProto_visibility message) (fun v => negb (v =? 0))
    "visibility" (fun v => VString (symbolVisibilityToJSON v)) obj in
  VObject obj.

Fixpoint DescriptorProto_fromPartial (object : DescriptorProto_Partial) : DescriptorProto :=
  let message := createBaseDescriptorProto in
  let message := DescriptorProto_with_name (Some (nullish (DescriptorProto_p_name object) (js "")))
      message in
  let message := DescriptorProto_with_field (nullish (option_map (map
      FieldDescriptorProto_fromPartial) (DescriptorProto_p_field object)) []) message in
  let message := DescriptorProto_with_extension (nullish (option_map (map
      FieldDescriptorProto_fromPartial) (DescriptorProto_p_extension object)) []) message in
  let message := DescriptorProto_with_nestedType (nullish (option_map (map
      DescriptorProto_fromPartial) (DescriptorProto_p_nestedType object)) []) message in
  let message := DescriptorProto_with_enumType (nullish (option_map (map
      EnumDescriptorProto_fromPartial) (DescriptorProto_p_enumType object)) []) message in
  let message := DescriptorProto_with_extensionRange (nullish (option_map (map
      DescriptorProto_ExtensionRange_fromPartial) (DescriptorProto_p_extensionRange object)) [])
      message in
  let message := DescriptorProto_with_oneofDecl (nullish (option_map (map
      OneofDescriptorProto_fromPartial) (DescriptorProto_p_oneofDecl object)) []) message in
  let message := DescriptorProto_with_options (option_map MessageOptions_fromPartial
      (DescriptorProto_p_options object)) message in
  let message := DescriptorProto_with_reservedRange (nullish (option_map (map
      DescriptorProto_ReservedRange_fromPartial) (DescriptorProto_p_reservedRange object)) [])
      message in
  let message := DescriptorProto_with_reservedName (nullish (DescriptorProto_p_reservedName object)
      []) message in
  let message := DescriptorProto_with_visibility (Some (nullish (DescriptorProto_p_visibility
      object) 0)) message in
  message.

Definition DescriptorProto_create (base : option DescriptorProto_Partial) : DescriptorProto :=
  DescriptorProto_fromPartial (nullish base (mkDescriptorProto_Partial None None None None None
      None None None None None None)).

Fixpoint DescriptorProto_toPartial (m : DescriptorProto) : DescriptorProto_Partial :=
  mkDescriptorProto_Partial (DescriptorProto_name m) (Some (map FieldDescriptorProto_toPartial
    (DescriptorProto_field m))) (Some (map FieldDescriptorProto_toPartial
    (DescriptorProto_extension m))) (Some (map DescriptorProto_toPartial
    (DescriptorProto_nestedType m))) (Some (map EnumDescriptorProto_toPartial
    (DescriptorProto_enumType m))) (Some (map DescriptorProto_ExtensionRange_toPartial
    (DescriptorProto_extensionRange m))) (Some (map OneofDescriptorProto_toPartial
    (DescriptorProto_oneofDecl m))) (option_map MessageOptions_toPartial (DescriptorProto_options
    m)) (Some (map DescriptorProto_ReservedRange_toPartial (DescriptorProto_reservedRange m)))
    (Some (DescriptorProto_reservedName m)) (DescriptorProto_visibility m).

(** ** [MethodDescriptorProto] *)

Record MethodDescriptorProto : Type := mkMethodDescriptorProto {
  MethodDescriptorProto_name : option jsstring;
  MethodDescriptorProto_inputType : option jsstring;
  MethodDescriptorProto_outputType : option jsstring;
  MethodDescriptorProto_options : option MethodOptions;
  MethodDescriptorProto_clientStreaming : option bool;
  MethodDescriptorProto_serverStreaming : option bool
}.

Record MethodDescriptorProto_Partial : Type := mkMethodDescriptorProto_Partial {
  MethodDescriptorProto_p_name : option jsstring;
  MethodDescriptorProto_p_inputType : option jsstring;
  MethodDescriptorProto_p_outputType : option jsstring;
  MethodDescriptorProto_p_options : option MethodOptions_Partial;
  MethodDescriptorProto_p_clientStreaming : option bool;
  MethodDescriptorProto_p_serverStreaming : option bool
}.

Definition MethodDescriptorProto_with_name (v : option jsstring) (m : MethodDescriptorProto)
    : MethodDescriptorProto :=
  mkMethodDescriptorProto v (MethodDescriptorProto_inputType m) (MethodDescriptorProto_outputType
    m) (MethodDescriptorProto_options m) (MethodDescriptorProto_clientStreaming m)
    (MethodDescriptorProto_serverStreaming m).

Definition MethodDescriptorProto_with_inputType (v : option jsstring) (m : MethodDescriptorProto)
    : MethodDescriptorProto :=
  mkMethodDescriptorProto (MethodDescriptorProto_name m) v (MethodDescriptorProto_outputType m)
    (MethodDescriptorProto_options m) (MethodDescriptorProto_clientStreaming m)
    (MethodDescriptorProto_serverStreaming m).

Definition MethodDescriptorProto_with_outputType (v : option jsstring) (m : MethodDescriptorProto)
    : MethodDescriptorProto :=
  mkMethodDescriptorProto (MethodDescriptorProto_name m) (MethodDescriptorProto_inputType m) v
    (MethodDescriptorProto_options m) (MethodDescriptorProto_clientStreaming m)
    (MethodDescriptorProto_serverStreaming m).

Definition MethodDescriptorProto_with_options (v : option MethodOptions)
    (m : MethodDescriptorProto) : MethodDescriptorProto :=
  mkMethodDescriptorProto (MethodDescriptorProto_name m) (MethodDescriptorProto_inputType m)
    (MethodDescriptorProto_outputType m) v (MethodDescriptorProto_clientStreaming m)
    (MethodDescriptorProto_serverStreaming m).

Definition MethodDescriptorProto_with_clientStreaming (v : option bool) (m : MethodDescriptorProto)
    : MethodDescriptorProto :=
  mkMethodDescriptorProto (MethodDescriptorProto_name m) (MethodDescriptorProto_inputType m)
    (MethodDescriptorProto_outputType m) (MethodDescriptorProto_options m) v
    (MethodDescriptorProto_serverStreaming m).

Definition MethodDescriptorProto_with_serverStreaming (v : option bool) (m : MethodDescriptorProto)
    : MethodDescriptorProto :=
  mkMethodDescriptorProto (MethodDescriptorProto_name m) (MethodDescriptorProto_inputType m)
    (MethodDescriptorProto_outputType m) (MethodDescriptorProto_options m)
    (MethodDescriptorProto_clientStreaming m) v.

Definition createBaseMethodDescriptorProto : MethodDescriptorProto :=
  {| MethodDescriptorProto_name := (Some (js ""));
     MethodDescriptorProto_inputType := (Some (js ""));
     MethodDescriptorProto_outputType := (Some (js ""));
     MethodDescriptorProto_options := None;
     MethodDescriptorProto_clientStreaming := (Some false);
     MethodDescriptorProto_serverStreaming := (Some false) |}.

Definition MethodDescriptorProto_encode (message : MethodDescriptorProto) (w : writer)
    : jsres writer :=
  let* w := match MethodDescriptorProto_name message with
             | Some v => if negb (str_eqb v (js "")) then
                           let* w := w_uint32 (Int 10) w in w_string v w
                         else Ok w
             | None => Ok w
             end in
  let* w := match MethodDescriptorProto_inputType message with
             | Some v => if negb (str_eqb v (js "")) then
                           let* w := w_uint32 (Int 18) w in w_string v w
                         else Ok w
             | None => Ok w
             end in
  let* w := match MethodDescriptorProto_outputType message with
             | Some v => if negb (str_eqb v (js "")) then
                           let* w := w_uint32 (Int 26) w in w_string v w
                         else Ok w
             | None => Ok w
             end in
  let* w := match MethodDescriptorProto_options message with
             | Some v => let* w := w_uint32 (Int 34) w in
                         let* w := MethodOptions_encode v (fork w) in w_join w
             | None => Ok w
             end in
  let* w := match MethodDescriptorProto_clientStreaming message with
             | Some v => if negb (Bool.eqb v false) then
                           let* w := w_uint32 (Int 40) w in w_bool v w
                         else Ok w
             | None => Ok w
             end in
  let* w := match MethodDescriptorProto_serverStreaming message with
             | Some v => if negb (Bool.eqb v false) then
                           let* w := w_uint32 (Int 48) w in w_bool v w
                         else Ok w
             | None => Ok w
             end in
  Ok w.

Definition MethodDescriptorProto_switch (fuel : nat) (tag : Z) (message : MethodDescriptorProto)
    (r : reader)
    : jsres (flow MethodDescriptorProto) :=
  let field := Z.shiftr tag 3 in
  if field =? 1 then
    if negb (tag =? 10) then Ok Break
    else
      let* (v, r) := r_string r in
          Ok (Continue (MethodDescriptorProto_with_name (Some v) message) r)
  else if field =? 2 then
    if negb (tag =? 18) then Ok Break
    else
      let* (v, r) := r_string r in
          Ok (Continue (MethodDescriptorProto_with_inputType (Some v) message) r)
  else if field =? 3 then
    if negb (tag =? 26) then Ok Break
    else
      let* (v, r) := r_string r in
          Ok (Continue (MethodDescriptorProto_with_outputType (Some v) message) r)
  else if field =? 4 then
    if negb (tag =? 34) then Ok Break
    else
      let* (l, r) := r_uint32 r in
      let* (v, r) := MethodOptions_decode fuel (InReader r) (Some l) in
      Ok (Continue (MethodDescriptorProto_with_options (Some v) message) r)
  else if field =? 5 then
    if negb (tag =? 40) then Ok Break
    else
      let* (v, r) := r_bool r in
          Ok (Continue (MethodDescriptorProto_with_clientStreaming (Some v) message) r)
  else if field =? 6 then
    if negb (tag =? 48) then Ok Break
    else
      let* (v, r) := r_bool r in
          Ok (Continue (MethodDescriptorProto_with_serverStreaming (Some v) message) r)
  else Ok Break.

Definition MethodDescriptorProto_decode (fuel : nat) (i : input) (length : option Z)
    : jsres (MethodDescriptorProto * reader) :=
  decode_with (MethodDescriptorProto_switch fuel) createBaseMethodDescriptorProto fuel i length.

Definition MethodDescriptorProto_fromJSON (object : value) : jsres MethodDescriptorProto :=
  let* name_ := field object "name" to_string (js "") in
  let* inputType_ := field object "inputType" to_string (js "") in
  let* outputType_ := field object "outputType" to_string (js "") in
  let* options_ := opt_field object "options" MethodOptions_fromJSON in
  let* clientStreaming_ := field object "clientStreaming" to_bool false in
  let* serverStreaming_ := field object "serverStreaming" to_bool false in
  Ok (mkMethodDescriptorProto (Some name_) (Some inputType_) (Some outputType_) options_ (Some
    clientStreaming_) (Some serverStreaming_)).

Definition MethodDescriptorProto_toJSON (message : MethodDescriptorProto) : value :=
  let obj : props := [] in
  let obj := put_defined (MethodDescriptorProto_name message) (fun v => negb (str_eqb v (js "")))
    "name" (fun v => VString v) obj in
  let obj := put_defined (MethodDescriptorProto_inputType message) (fun v => negb (str_eqb v (js
    ""))) "inputType" (fun v => VString v) obj in
  let obj := put_defined (MethodDescriptorProto_outputType message) (fun v => negb (str_eqb v (js
    ""))) "outputType" (fun v => VString v) obj in
  let obj := put_defined (MethodDescriptorProto_options message) (fun _ => true) "options" (fun v
    => MethodOptions_toJSON v) obj in
  let obj := put_defined (MethodDescriptorProto_clientStreaming message) (fun v => negb (Bool.eqb
    v false)) "clientStreaming" (fun v => VBool v) obj in
  let obj := put_defined (MethodDescriptorProto_serverStreaming message) (fun v => negb (Bool.eqb
    v false)) "serverStreaming" (fun v => VBool v) obj in
  VObject obj.

Definition MethodDescriptorProto_fromPartial (object : MethodDescriptorProto_Partial)
    : MethodDescriptorProto :=
  let message := createBaseMethodDescriptorProto in
  let message := MethodDescriptorProto_with_name (Some (nullish (MethodDescriptorProto_p_name
      object) (js ""))) message in
  let message := MethodDescriptorProto_with_inputType (Some (nullish
      (MethodDescriptorProto_p_inputType object) (js ""))) message in
  let message := MethodDescriptorProto_with_outputType (Some (nullish
      (MethodDescriptorProto_p_outputType object) (js ""))) message in
  let message := MethodDescriptorProto_with_options (option_map MethodOptions_fromPartial
      (MethodDescriptorProto_p_options object)) message in
  let message := MethodDescriptorProto_with_clientStreaming (Some (nullish
      (MethodDescriptorProto_p_clientStreaming object) false)) message in
  let message := MethodDescriptorProto_with_serverStreaming (Some (nullish
      (MethodDescriptorProto_p_serverStreaming object) false)) message in
  message.

Definition MethodDescriptorProto_create (base : option MethodDescriptorProto_Partial)
    : MethodDescriptorProto :=
  MethodDescriptorProto_fromPartial (nullish base (mkMethodDescriptorProto_Partial None None None
      None None None)).

Definition MethodDescriptorProto_toPartial (m : MethodDescriptorProto)
    : MethodDescriptorProto_Partial :=
  mkMethodDescriptorProto_Partial (MethodDescriptorProto_name m) (MethodDescriptorProto_inputType
    m) (MethodDescriptorProto_outputType m) (option_map MethodOptions_toPartial
    (MethodDescriptorProto_options m)) (MethodDescriptorProto_clientStreaming m)
    (MethodDescriptorProto_serverStreaming m).

(** ** [ServiceDescriptorProto] *)

Record ServiceDescriptorProto : Type := mkServiceDescriptorProto {
  ServiceDescriptorProto_name : option jsstring;
  ServiceDescriptorProto_method : list MethodDescriptorProto;
  ServiceDescriptorProto_options : option ServiceOptions
}.

Record ServiceDescriptorProto_Partial : Type := mkServiceDescriptorProto_Partial {
  ServiceDescriptorProto_p_name : option jsstring;
  ServiceDescriptorProto_p_method : option (list MethodDescriptorProto_Partial);
  ServiceDescriptorProto_p_options : option ServiceOptions_Partial
}.

Definition ServiceDescriptorProto_with_name (v : option jsstring) (m : ServiceDescriptorProto)
    : ServiceDescriptorProto :=
  mkServiceDescriptorProto v (ServiceDescriptorProto_method m) (ServiceDescriptorProto_options m).

Definition ServiceDescriptorProto_with_method (v : list MethodDescriptorProto)
    (m : ServiceDescriptorProto) : ServiceDescriptorProto :=
  mkServiceDescriptorProto (ServiceDescriptorProto_name m) v (ServiceDescriptorProto_options m).

Definition ServiceDescriptorProto_with_options (v : option ServiceOptions)
    (m : ServiceDescriptorProto) : ServiceDescriptorProto :=
  mkServiceDescriptorProto (ServiceDescriptorProto_name m) (ServiceDescriptorProto_method m) v.

Definition createBaseServiceDescriptorProto : ServiceDescriptorProto :=
  {| ServiceDescriptorProto_name := (Some (js ""));
     ServiceDescriptorProto_method := [];
     ServiceDescriptorProto_options := None |}.

Definition ServiceDescriptorProto_encode (message : ServiceDescriptorProto) (w : writer)
    : jsres writer :=
  let* w := match ServiceDescriptorProto_name message with
             | Some v => if negb (str_eqb v (js "")) then
                           let* w := w_uint32 (Int 10) w in w_string v w
                         else Ok w
             | None => Ok w
             end in
  let* w := for_each (fun v w => let* w := w_uint32 (Int 18) w in
                               let* w := MethodDescriptorProto_encode v (fork w) in w_join w)
               (ServiceDescriptorProto_method message) w in
  let* w := match ServiceDescriptorProto_options message with
             | Some v => let* w := w_uint32 (Int 26) w in
                         let* w := ServiceOptions_encode v (fork w) in w_join w
             | None => Ok w
             end in
  Ok w.

Definition ServiceDescriptorProto_switch (fuel : nat) (tag : Z) (message : ServiceDescriptorProto)
    (r : reader)
    : jsres (flow ServiceDescriptorProto) :=
  let field := Z.shiftr tag 3 in
  if field =? 1 then
    if negb (tag =? 10) then Ok Break
    else
      let* (v, r) := r_string r in
          Ok (Continue (ServiceDescriptorProto_with_name (Some v) message) r)
  else if field =? 2 then
    if negb (tag =? 18) then Ok Break
    else
      let* (l, r) := r_uint32 r in
      let* (v, r) := MethodDescriptorProto_decode fuel (InReader r) (Some l) in
      Ok (Continue (ServiceDescriptorProto_with_method (ServiceDescriptorProto_method message ++
          [v]) message) r)
  else if field =? 3 then
    if negb (tag =? 26) then Ok Break
    else
      let* (l, r) := r_uint32 r in
      let* (v, r) := ServiceOptions_decode fuel (InReader r) (Some l) in
      Ok (Continue (ServiceDescriptorProto_with_options (Some v) message) r)
  else Ok Break.

Definition ServiceDescriptorProto_decode (fuel : nat) (i : input) (length : option Z)
    : jsres (ServiceDescriptorProto * reader) :=
  decode_with (ServiceDescriptorProto_switch fuel) createBaseServiceDescriptorProto fuel i length.

Definition ServiceDescriptorProto_fromJSON (object : value) : jsres ServiceDescriptorProto :=
  let* name_ := field object "name" to_string (js "") in
  let* method_ := array_field object "method" MethodDescriptorProto_fromJSON in
  let* options_ := opt_field object "options" ServiceOptions_fromJSON in
  Ok (mkServiceDescriptorProto (Some name_) method_ options_).

Definition ServiceDescriptorProto_toJSON (message : ServiceDescriptorProto) : value :=
  let obj : props := [] in
  let obj := put_defined (ServiceDescriptorProto_name message) (fun v => negb (str_eqb v (js "")))
    "name" (fun v => VString v) obj in
  let obj := put_if (has_length (ServiceDescriptorProto_method message)) "method" (VArray (map
    MethodDescriptorProto_toJSON (ServiceDescriptorProto_method message))) obj in
  let obj := put_defined (ServiceDescriptorProto_options message) (fun _ => true) "options" (fun v
    => ServiceOptions_toJSON v) obj in
  VObject obj.

Definition ServiceDescriptorProto_fromPartial (object : ServiceDescriptorProto_Partial)
    : ServiceDescriptorProto :=
  let message := createBaseServiceDescriptorProto in
  let message := ServiceDescriptorProto_with_name (Some (nullish (ServiceDescriptorProto_p_name
      object) (js ""))) message in
  let message := ServiceDescriptorProto_with_method (nullish (option_map (map
      MethodDescriptorProto_fromPartial) (ServiceDescriptorProto_p_method object)) []) message in
  let message := ServiceDescriptorProto_with_options (option_map ServiceOptions_fromPartial
      (ServiceDescriptorProto_p_options object)) message in
  message.

Definition ServiceDescriptorProto_create (base : option ServiceDescriptorProto_Partial)
    : ServiceDescriptorProto :=
  ServiceDescriptorProto_fromPartial (nullish base (mkServiceDescriptorProto_Partial None None
      None)).

Definition ServiceDescriptorProto_toPartial (m : ServiceDescriptorProto)
    : ServiceDescriptorProto_Partial :=
  mkServiceDescriptorProto_Partial (ServiceDescriptorProto_name m) (Some (map
    MethodDescriptorProto_toPartial (ServiceDescriptorProto_method m))) (option_map
    ServiceOptions_toPartial (ServiceDescriptorProto_options m)).

(** ** [SourceCodeInfo_Location] *)

Record SourceCodeInfo_Location : Type := mkSourceCodeInfo_Location {
  SourceCodeInfo_Location_path : list number;
  SourceCodeInfo_Location_span : list number;
  SourceCodeInfo_Location_leadingComments : option jsstring;
  SourceCodeInfo_Location_trailingComments : option jsstring;
  SourceCodeInfo_Location_leadingDetachedComments : list jsstring
}.

Record SourceCodeInfo_Location_Partial : Type := mkSourceCodeInfo_Location_Partial {
  SourceCodeInfo_Location_p_path : option (list number);
  SourceCodeInfo_Location_p_span : option (list number);
  SourceCodeInfo_Location_p_leadingComments : option jsstring;
  SourceCodeInfo_Location_p_trailingComments : option jsstring;
  SourceCodeInfo_Location_p_leadingDetachedComments : option (list jsstring)
}.

Definition SourceCodeInfo_Location_with_path (v : list number) (m : SourceCodeInfo_Location)
    : SourceCodeInfo_Location :=
  mkSourceCodeInfo_Location v (SourceCodeInfo_Location_span m)
    (SourceCodeInfo_Location_leadingComments m) (SourceCodeInfo_Location_trailingComments m)
    (SourceCodeInfo_Location_leadingDetachedComments m).

Definition SourceCodeInfo_Location_with_span (v : list number) (m : SourceCodeInfo_Location)
    : SourceCodeInfo_Location :=
  mkSourceCodeInfo_Location (SourceCodeInfo_Location_path m) v
    (SourceCodeInfo_Location_leadingComments m) (SourceCodeInfo_Location_trailingComments m)
    (SourceCodeInfo_Location_leadingDetachedComments m).

Definition SourceCodeInfo_Location_with_leadingComments (v : option jsstring)
    (m : SourceCodeInfo_Location) : SourceCodeInfo_Location :=
  mkSourceCodeInfo_Location (SourceCodeInfo_Location_path m) (SourceCodeInfo_Location_span m) v
    (SourceCodeInfo_Location_trailingComments m) (SourceCodeInfo_Location_leadingDetachedComments
    m).

Definition SourceCodeInfo_Location_with_trailingComments (v : option jsstring)
    (m : SourceCodeInfo_Location) : SourceCodeInfo_Location :=
  mkSourceCodeInfo_Location (SourceCodeInfo_Location_path m) (SourceCodeInfo_Location_span m)
    (SourceCodeInfo_Location_leadingComments m) v (SourceCodeInfo_Location_leadingDetachedComments
    m).

Definition SourceCodeInfo_Location_with_leadingDetachedComments (v : list jsstring)
    (m : SourceCodeInfo_Location) : SourceCodeInfo_Location :=
  mkSourceCodeInfo_Location (SourceCodeInfo_Location_path m) (SourceCodeInfo_Location_span m)
    (SourceCodeInfo_Location_leadingComments m) (SourceCodeInfo_Location_trailingComments m) v.

Definition createBaseSourceCodeInfo_Location : SourceCodeInfo_Location :=
  {| SourceCodeInfo_Location_path := [];
     SourceCodeInfo_Location_span := [];
     SourceCodeInfo_Location_leadingComments := (Some (js ""));
     SourceCodeInfo_Location_trailingComments := (Some (js ""));
     SourceCodeInfo_Location_leadingDetachedComments := [] |}.

Definition SourceCodeInfo_Location_encode (message : SourceCodeInfo_Location) (w : writer)
    : jsres writer :=
  let* w := (let* w := w_uint32 (Int 10) w in
              let* w := for_each (fun v w => w_int32 v w) (SourceCodeInfo_Location_path message)
                  (fork w) in
              w_join w) in
  let* w := (let* w := w_uint32 (Int 18) w in
              let* w := for_each (fun v w => w_int32 v w) (SourceCodeInfo_Location_span message)
                  (fork w) in
              w_join w) in
  let* w := match SourceCodeInfo_Location_leadingComments message with
             | Some v => if negb (str_eqb v (js "")) then
                           let* w := w_uint32 (Int 26) w in w_string v w
                         else Ok w
             | None => Ok w
             end in
  let* w := match SourceCodeInfo_Location_trailingComments message with
             | Some v => if negb (str_eqb v (js "")) then
                           let* w := w_uint32 (Int 34) w in w_string v w
                         else Ok w
             | None => Ok w
             end in
  let* w := for_each (fun v w => let* w := w_uint32 (Int 50) w in w_string v w)
               (SourceCodeInfo_Location_leadingDetachedComments message) w in
  Ok w.

Definition SourceCodeInfo_Location_switch (fuel : nat) (tag : Z)
    (message : SourceCodeInfo_Location) (r : reader)
    : jsres (flow SourceCodeInfo_Location) :=
  let field := Z.shiftr tag 3 in
  if field =? 1 then
    if tag =? 8 then
      let* (v, r) := r_int32_number r in
      Ok (Continue (SourceCodeInfo_Location_with_path (SourceCodeInfo_Location_path message ++ [v])
          message) r)
    else if tag =? 10 then
      let* (n, r) := r_uint32 r in
      let* (xs, r) := packed_loop r_int32_number fuel (n + pos r)
          (SourceCodeInfo_Location_path message) r in
      Ok (Continue (SourceCodeInfo_Location_with_path xs message) r)
    else Ok Break
  else if field =? 2 then
    if tag =? 16 then
      let* (v, r) := r_int32_number r in
      Ok (Continue (SourceCodeInfo_Location_with_span (SourceCodeInfo_Location_span message ++ [v])
          message) r)
    else if tag =? 18 then
      let* (n, r) := r_uint32 r in
      let* (xs, r) := packed_loop r_int32_number fuel (n + pos r)
          (SourceCodeInfo_Location_span message) r in
      Ok (Continue (SourceCodeInfo_Location_with_span xs message) r)
    else Ok Break
  else if field =? 3 then
    if negb (tag =? 26) then Ok Break
    else
      let* (v, r) := r_string r in
          Ok (Continue (SourceCodeInfo_Location_with_leadingComments (Some v) message) r)
  else if field =? 4 then
    if negb (tag =? 34) then Ok Break
    else
      let* (v, r) := r_string r in
          Ok (Continue (SourceCodeInfo_Location_with_trailingComments (Some v) message) r)
  else if field =? 6 then
    if negb (tag =? 50) then Ok Break
    else
      let* (v, r) := r_string r in
      Ok (Continue (SourceCodeInfo_Location_with_leadingDetachedComments
          (SourceCodeInfo_Location_leadingDetachedComments message ++ [v]) message) r)
  else Ok Break.

Definition SourceCodeInfo_Location_decode (fuel : nat) (i : input) (length : option Z)
    : jsres (SourceCodeInfo_Location * reader) :=
  decode_with (SourceCodeInfo_Location_switch fuel) createBaseSourceCodeInfo_Location fuel i length.

Definition SourceCodeInfo_Location_fromJSON (object : value) : jsres SourceCodeInfo_Location :=
  let* path_ := array_field object "path" to_number in
  let* span_ := array_field object "span" to_number in
  let* leadingComments_ := field object "leadingComments" to_string (js "") in
  let* trailingComments_ := field object "trailingComments" to_string (js "") in
  let* leadingDetachedComments_ := array_field object "leadingDetachedComments" to_string in
  Ok (mkSourceCodeInfo_Location path_ span_ (Some leadingComments_) (Some trailingComments_)
    leadingDetachedComments_).

Definition SourceCodeInfo_Location_toJSON (message : SourceCodeInfo_Location) : value :=
  let obj : props := [] in
  let obj := put_if (has_length (SourceCodeInfo_Location_path message)) "path" (VArray (map (fun e
    => VNumber (math_round e)) (SourceCodeInfo_Location_path message))) obj in
  let obj := put_if (has_length (SourceCodeInfo_Location_span message)) "span" (VArray (map (fun e
    => VNumber (math_round e)) (SourceCodeInfo_Location_span message))) obj in
  let obj := put_defined (SourceCodeInfo_Location_leadingComments message) (fun v => negb (str_eqb
    v (js ""))) "leadingComments" (fun v => VString v) obj in
  let obj := put_defined (SourceCodeInfo_Location_trailingComments message) (fun v => negb
    (str_eqb v (js ""))) "trailingComments" (fun v => VString v) obj in
  let obj := put_if (has_length (SourceCodeInfo_Location_leadingDetachedComments message))
    "leadingDetachedComments" (VArray (map VString
    (SourceCodeInfo_Location_leadingDetachedComments message))) obj in
  VObject obj.

Definition SourceCodeInfo_Location_fromPartial (object : SourceCodeInfo_Location_Partial)
    : SourceCodeInfo_Location :=
  let message := createBaseSourceCodeInfo_Location in
  let message := SourceCodeInfo_Location_with_path (nullish (SourceCodeInfo_Location_p_path object)
      []) message in
  let message := SourceCodeInfo_Location_with_span (nullish (SourceCodeInfo_Location_p_span object)
      []) message in
  let message := SourceCodeInfo_Location_with_leadingComments (Some (nullish
      (SourceCodeInfo_Location_p_leadingComments object) (js ""))) message in
  let message := SourceCodeInfo_Location_with_trailingComments (Some (nullish
      (SourceCodeInfo_Location_p_trailingComments object) (js ""))) message in
  let message := SourceCodeInfo_Location_with_leadingDetachedComments (nullish
      (SourceCodeInfo_Location_p_leadingDetachedComments object) []) message in
  message.

Definition SourceCodeInfo_Location_create (base : option SourceCodeInfo_Location_Partial)
    : SourceCodeInfo_Location :=
  SourceCodeInfo_Location_fromPartial (nullish base (mkSourceCodeInfo_Location_Partial None None
      None None None)).

Definition SourceCodeInfo_Location_toPartial (m : SourceCodeInfo_Location)
    : SourceCodeInfo_Location_Partial :=
  mkSourceCodeInfo_Location_Partial (Some (SourceCodeInfo_Location_path m)) (Some
    (SourceCodeInfo_Location_span m)) (SourceCodeInfo_Location_leadingComments m)
    (SourceCodeInfo_Location_trailingComments m) (Some
    (SourceCodeInfo_Location_leadingDetachedComments m)).

(** ** [SourceCodeInfo] *)

Record SourceCodeInfo : Type := mkSourceCodeInfo {
  SourceCodeInfo_location : list SourceCodeInfo_Location
}.

Record SourceCodeInfo_Partial : Type := mkSourceCodeInfo_Partial {
  SourceCodeInfo_p_location : option (list SourceCodeInfo_Location_Partial)
}.

Definition SourceCodeInfo_with_location (v : list SourceCodeInfo_Location) (m : SourceCodeInfo)
    : SourceCodeInfo :=
  mkSourceCodeInfo v.

Definition createBaseSourceCodeInfo : SourceCodeInfo :=
  {| SourceCodeInfo_location := [] |}.

Definition SourceCodeInfo_encode (message : SourceCodeInfo) (w : writer) : jsres writer :=
  let* w := for_each (fun v w => let* w := w_uint32 (Int 10) w in
                               let* w := SourceCodeInfo_Location_encode v (fork w) in w_join w)
               (SourceCodeInfo_location message) w in
  Ok w.

Definition SourceCodeInfo_switch (fuel : nat) (tag : Z) (message : SourceCodeInfo) (r : reader)
    : jsres (flow SourceCodeInfo) :=
  let field := Z.shiftr tag 3 in
  if field =? 1 then
    if negb (tag =? 10) then Ok Break
    else
      let* (l, r) := r_uint32 r in
      let* (v, r) := SourceCodeInfo_Location_decode fuel (InReader r) (Some l) in
      Ok (Continue (SourceCodeInfo_with_location (SourceCodeInfo_location message ++ [v]) message)
          r)
  else Ok Break.

Definition SourceCodeInfo_decode (fuel : nat) (i : input) (length : option Z)
    : jsres (SourceCodeInfo * reader) :=
  decode_with (SourceCodeInfo_switch fuel) createBaseSourceCodeInfo fuel i length.

Definition SourceCodeInfo_fromJSON (object : value) : jsres SourceCodeInfo :=
  let* location_ := array_field object "location" SourceCodeInfo_Location_fromJSON in
  Ok (mkSourceCodeInfo location_).

Definition SourceCodeInfo_toJSON (message : SourceCodeInfo) : value :=
  let obj : props := [] in
  let obj := put_if (has_length (SourceCodeInfo_location message)) "location" (VArray (map
    SourceCodeInfo_Location_toJSON (SourceCodeInfo_location message))) obj in
  VObject obj.

Definition SourceCodeInfo_fromPartial (object : SourceCodeInfo_Partial) : SourceCodeInfo :=
  let message := createBaseSourceCodeInfo in
  let message := SourceCodeInfo_with_location (nullish (option_map (map
      SourceCodeInfo_Location_fromPartial) (SourceCodeInfo_p_location object)) []) message in
  message.

Definition SourceCodeInfo_create (base : option SourceCodeInfo_Partial) : SourceCodeInfo :=
  SourceCodeInfo_fromPartial (nullish base (mkSourceCodeInfo_Partial None)).

Definition SourceCodeInfo_toPartial (m : SourceCodeInfo) : SourceCodeInfo_Partial :=
  mkSourceCodeInfo_Partial (Some (map SourceCodeInfo_Location_toPartial (SourceCodeInfo_location
    m))).

(** ** [FileDescriptorProto] *)

Record FileDescriptorProto : Type := mkFileDescriptorProto {
  FileDescriptorProto_name : option jsstring;
  FileDescriptorProto_package : option jsstring;
  FileDescriptorProto_dependency : list jsstring;
  FileDescriptorProto_publicDependency : list number;
  FileDescriptorProto_weakDependency : list number;
  FileDescriptorProto_optionDependency : list jsstring;
  FileDescriptorProto_messageType : list DescriptorProto;
  FileDescriptorProto_enumType : list EnumDescriptorProto;
  FileDescriptorProto_service : list ServiceDescriptorProto;
  FileDescriptorProto_extension : list FieldDescriptorProto;
  FileDescriptorProto_options : option FileOptions;
  FileDescriptorProto_sourceCodeInfo : option SourceCodeInfo;
  FileDescriptorProto_syntax : option jsstring;
  FileDescriptorProto_edition : option Z
}.

Record FileDescriptorProto_Partial : Type := mkFileDescriptorProto_Partial {
  FileDescriptorProto_p_name : option jsstring;
  FileDescriptorProto_p_package : option jsstring;
  FileDescriptorProto_p_dependency : option (list jsstring);
  FileDescriptorProto_p_publicDependency : option (list number);
  FileDescriptorProto_p_weakDependency : option (list number);
  FileDescriptorProto_p_optionDependency : option (list jsstring);
  FileDescriptorProto_p_messageType : option (list DescriptorProto_Partial);
  FileDescriptorProto_p_enumType : option (list EnumDescriptorProto_Partial);
  FileDescriptorProto_p_service : option (list ServiceDescriptorProto_Partial);
  FileDescriptorProto_p_extension : option (list FieldDescriptorProto_Partial);
  FileDescriptorProto_p_options : option FileOptions_Partial;
  FileDescriptorProto_p_sourceCodeInfo : option SourceCodeInfo_Partial;
  FileDescriptorProto_p_syntax : option jsstring;
  FileDescriptorProto_p_edition : option Z
}.

Definition FileDescriptorProto_with_name (v : option jsstring) (m : FileDescriptorProto)
    : FileDescriptorProto :=
  mkFileDescriptorProto v (FileDescriptorProto_package m) (FileDescriptorProto_dependency m)
    (FileDescriptorProto_publicDependency m) (FileDescriptorProto_weakDependency m)
    (FileDescriptorProto_optionDependency m) (FileDescriptorProto_messageType m)
    (FileDescriptorProto_enumType m) (FileDescriptorProto_service m)
    (FileDescriptorProto_extension m) (FileDescriptorProto_options m)
    (FileDescriptorProto_sourceCodeInfo m) (FileDescriptorProto_syntax m)
    (FileDescriptorProto_edition m).

Definition FileDescriptorProto_with_package (v : option jsstring) (m : FileDescriptorProto)
    : FileDescriptorProto :=
  mkFileDescriptorProto (FileDescriptorProto_name m) v (FileDescriptorProto_dependency m)
    (FileDescriptorProto_publicDependency m) (FileDescriptorProto_weakDependency m)
    (FileDescriptorProto_optionDependency m) (FileDescriptorProto_messageType m)
    (FileDescriptorProto_enumType m) (FileDescriptorProto_service m)
    (FileDescriptorProto_extension m) (FileDescriptorProto_options m)
    (FileDescriptorProto_sourceCodeInfo m) (FileDescriptorProto_syntax m)
    (FileDescriptorProto_edition m).

Definition FileDescriptorProto_with_dependency (v : list jsstring) (m : FileDescriptorProto)
    : FileDescriptorProto :=
  mkFileDescriptorProto (FileDescriptorProto_name m) (FileDescriptorProto_package m) v
    (FileDescriptorProto_publicDependency m) (FileDescriptorProto_weakDependency m)
    (FileDescriptorProto_optionDependency m) (FileDescriptorProto_messageType m)
    (FileDescriptorProto_enumType m) (FileDescriptorProto_service m)
    (FileDescriptorProto_extension m) (FileDescriptorProto_options m)
    (FileDescriptorProto_sourceCodeInfo m) (FileDescriptorProto_syntax m)
    (FileDescriptorProto_edition m).

Definition FileDescriptorProto_with_publicDependency (v : list number) (m : FileDescriptorProto)
    : FileDescriptorProto :=
  mkFileDescriptorProto (FileDescriptorProto_name m) (FileDescriptorProto_package m)
    (FileDescriptorProto_dependency m) v (FileDescriptorProto_weakDependency m)
    (FileDescriptorProto_optionDependency m) (FileDescriptorProto_messageType m)
    (FileDescriptorProto_enumType m) (FileDescriptorProto_service m)
    (FileDescriptorProto_extension m) (FileDescriptorProto_options m)
    (FileDescriptorProto_sourceCodeInfo m) (FileDescriptorProto_syntax m)
    (FileDescriptorProto_edition m).

Definition FileDescriptorProto_with_weakDependency (v : list number) (m : FileDescriptorProto)
    : FileDescriptorProto :=
  mkFileDescriptorProto (FileDescriptorProto_name m) (FileDescriptorProto_package m)
    (FileDescriptorProto_dependency m) (FileDescriptorProto_publicDependency m) v
    (FileDescriptorProto_optionDependency m) (FileDescriptorProto_messageType m)
    (FileDescriptorProto_enumType m) (FileDescriptorProto_service m)
    (FileDescriptorProto_extension m) (FileDescriptorProto_options m)
    (FileDescriptorProto_sourceCodeInfo m) (FileDescriptorProto_syntax m)
    (FileDescriptorProto_edition m).

Definition FileDescriptorProto_with_optionDependency (v : list jsstring) (m : FileDescriptorProto)
    : FileDescriptorProto :=
  mkFileDescriptorProto (FileDescriptorProto_name m) (FileDescriptorProto_package m)
    (FileDescriptorProto_dependency m) (FileDescriptorProto_publicDependency m)
    (FileDescriptorProto_weakDependency m) v (FileDescriptorProto_messageType m)
    (FileDescriptorProto_enumType m) (FileDescriptorProto_service m)
    (FileDescriptorProto_extension m) (FileDescriptorProto_options m)
    (FileDescriptorProto_sourceCodeInfo m) (FileDescriptorProto_syntax m)
    (FileDescriptorProto_edition m).

Definition FileDescriptorProto_with_messageType (v : list DescriptorProto)
    (m : FileDescriptorProto) : FileDescriptorProto :=
  mkFileDescriptorProto (FileDescriptorProto_name m) (FileDescriptorProto_package m)
    (FileDescriptorProto_dependency m) (FileDescriptorProto_publicDependency m)
    (FileDescriptorProto_weakDependency m) (FileDescriptorProto_optionDependency m) v
    (FileDescriptorProto_enumType m) (FileDescriptorProto_service m)
    (FileDescriptorProto_extension m) (FileDescriptorProto_options m)
    (FileDescriptorProto_sourceCodeInfo m) (FileDescriptorProto_syntax m)
    (FileDescriptorProto_edition m).

Definition FileDescriptorProto_with_enumType (v : list EnumDescriptorProto)
    (m : FileDescriptorProto) : FileDescriptorProto :=
  mkFileDescriptorProto (FileDescriptorProto_name m) (FileDescriptorProto_package m)
    (FileDescriptorProto_dependency m) (FileDescriptorProto_publicDependency m)
    (FileDescriptorProto_weakDependency m) (FileDescriptorProto_optionDependency m)
    (FileDescriptorProto_messageType m) v (FileDescriptorProto_service m)
    (FileDescriptorProto_extension m) (FileDescriptorProto_options m)
    (FileDescriptorProto_sourceCodeInfo m) (FileDescriptorProto_syntax m)
    (FileDescriptorProto_edition m).

Definition FileDescriptorProto_with_service (v : list ServiceDescriptorProto)
    (m : FileDescriptorProto) : FileDescriptorProto :=
  mkFileDescriptorProto (FileDescriptorProto_name m) (FileDescriptorProto_package m)
    (FileDescriptorProto_dependency m) (FileDescriptorProto_publicDependency m)
    (FileDescriptorProto_weakDependency m) (FileDescriptorProto_optionDependency m)
    (FileDescriptorProto_messageType m) (FileDescriptorProto_enumType m) v
    (FileDescriptorProto_extension m) (FileDescriptorProto_options m)
    (FileDescriptorProto_sourceCodeInfo m) (FileDescriptorProto_syntax m)
    (FileDescriptorProto_edition m).

Definition FileDescriptorProto_with_extension (v : list FieldDescriptorProto)
    (m : FileDescriptorProto) : FileDescriptorProto :=
  mkFileDescriptorProto (FileDescriptorProto_name m) (FileDescriptorProto_package m)
    (FileDescriptorProto_dependency m) (FileDescriptorProto_publicDependency m)
    (FileDescriptorProto_weakDependency m) (FileDescriptorProto_optionDependency m)
    (FileDescriptorProto_messageType m) (FileDescriptorProto_enumType m)
    (FileDescriptorProto_service m) v (FileDescriptorProto_options m)
    (FileDescriptorProto_sourceCodeInfo m) (FileDescriptorProto_syntax m)
    (FileDescriptorProto_edition m).

Definition FileDescriptorProto_with_options (v : option FileOptions) (m : FileDescriptorProto)
    : FileDescriptorProto :=
  mkFileDescriptorProto (FileDescriptorProto_name m) (FileDescriptorProto_package m)
    (FileDescriptorProto_dependency m) (FileDescriptorProto_publicDependency m)
    (FileDescriptorProto_weakDependency m) (FileDescriptorProto_optionDependency m)
    (FileDescriptorProto_messageType m) (FileDescriptorProto_enumType m)
    (FileDescriptorProto_service m) (FileDescriptorProto_extension m) v
    (FileDescriptorProto_sourceCodeInfo m) (FileDescriptorProto_syntax m)
    (FileDescriptorProto_edition m).

Definition FileDescriptorProto_with_sourceCodeInfo (v : option SourceCodeInfo)
    (m : FileDescriptorProto) : FileDescriptorProto :=
  mkFileDescriptorProto (FileDescriptorProto_name m) (FileDescriptorProto_package m)
    (FileDescriptorProto_dependency m) (FileDescriptorProto_publicDependency m)
    (FileDescriptorProto_weakDependency m) (FileDescriptorProto_optionDependency m)
    (FileDescriptorProto_messageType m) (FileDescriptorProto_enumType m)
    (FileDescriptorProto_service m) (FileDescriptorProto_extension m) (FileDescriptorProto_options
    m) v (FileDescriptorProto_syntax m) (FileDescriptorProto_edition m).

Definition FileDescriptorProto_with_syntax (v : option jsstring) (m : FileDescriptorProto)
    : FileDescriptorProto :=
  mkFileDescriptorProto (FileDescriptorProto_name m) (FileDescriptorProto_package m)
    (FileDescriptorProto_dependency m) (FileDescriptorProto_publicDependency m)
    (FileDescriptorProto_weakDependency m) (FileDescriptorProto_optionDependency m)
    (FileDescriptorProto_messageType m) (FileDescriptorProto_enumType m)
    (FileDescriptorProto_service m) (FileDescriptorProto_extension m) (FileDescriptorProto_options
    m) (FileDescriptorProto_sourceCodeInfo m) v (FileDescriptorProto_edition m).

Definition FileDescriptorProto_with_edition (v : option Z) (m : FileDescriptorProto)
    : FileDescriptorProto :=
  mkFileDescriptorProto (FileDescriptorProto_name m) (FileDescriptorProto_package m)
    (FileDescriptorProto_dependency m) (FileDescriptorProto_publicDependency m)
    (FileDescriptorProto_weakDependency m) (FileDescriptorProto_optionDependency m)
    (FileDescriptorProto_messageType m) (FileDescriptorProto_enumType m)
    (FileDescriptorProto_service m) (FileDescriptorProto_extension m) (FileDescriptorProto_options
    m) (FileDescriptorProto_sourceCodeInfo m) (FileDescriptorProto_syntax m) v.

Definition createBaseFileDescriptorProto : FileDescriptorProto :=
  {| FileDescriptorProto_name := (Some (js ""));
     FileDescriptorProto_package := (Some (js ""));
     FileDescriptorProto_dependency := [];
     FileDescriptorProto_publicDependency := [];
     FileDescriptorProto_weakDependency := [];
     FileDescriptorProto_optionDependency := [];
     FileDescriptorProto_messageType := [];
     FileDescriptorProto_enumType := [];
     FileDescriptorProto_service := [];
     FileDescriptorProto_extension := [];
     FileDescriptorProto_options := None;
     FileDescriptorProto_sourceCodeInfo := None;
     FileDescriptorProto_syntax := (Some (js ""));
     FileDescriptorProto_edition := (Some 0) |}.

Definition FileDescriptorProto_encode (message : FileDescriptorProto) (w : writer) : jsres writer :=
  let* w := match FileDescriptorProto_name message with
             | Some v => if negb (str_eqb v (js "")) then
                           let* w := w_uint32 (Int 10) w in w_string v w
                         else Ok w
             | None => Ok w
             end in
  let* w := match FileDescriptorProto_package message with
             | Some v => if negb (str_eqb v (js "")) then
                           let* w := w_uint32 (Int 18) w in w_string v w
                         else Ok w
             | None => Ok w
             end in
  let* w := for_each (fun v w => let* w := w_uint32 (Int 26) w in w_string v w)
               (FileDescriptorProto_dependency message) w in
  let* w := (let* w := w_uint32 (Int 82) w in
              let* w := for_each (fun v w => w_int32 v w)
                  (FileDescriptorProto_publicDependency message) (fork w) in
              w_join w) in
  let* w := (let* w := w_uint32 (Int 90) w in
              let* w := for_each (fun v w => w_int32 v w)
                  (FileDescriptorProto_weakDependency message) (fork w) in
              w_join w) in
  let* w := for_each (fun v w => let* w := w_uint32 (Int 122) w in w_string v w)
               (FileDescriptorProto_optionDependency message) w in
  let* w := for_each (fun v w => let* w := w_uint32 (Int 34) w in
                               let* w := DescriptorProto_encode v (fork w) in w_join w)
               (FileDescriptorProto_messageType message) w in
  let* w := for_each (fun v w => let* w := w_uint32 (Int 42) w in
                               let* w := EnumDescriptorProto_encode v (fork w) in w_join w)
               (FileDescriptorProto_enumType message) w in
  let* w := for_each (fun v w => let* w := w_uint32 (Int 50) w in
                               let* w := ServiceDescriptorProto_encode v (fork w) in w_join w)
               (FileDescriptorProto_service message) w in
  let* w := for_each (fun v w => let* w := w_uint32 (Int 58) w in
                               let* w := FieldDescriptorProto_encode v (fork w) in w_join w)
               (FileDescriptorProto_extension message) w in
  let* w := match FileDescriptorProto_options message with
             | Some v => let* w := w_uint32 (Int 66) w in
                         let* w := FileOptions_encode v (fork w) in w_join w
             | None => Ok w
             end in
  let* w := match FileDescriptorProto_sourceCodeInfo message with
             | Some v => let* w := w_uint32 (Int 74) w in
                         let* w := SourceCodeInfo_encode v (fork w) in w_join w
             | None => Ok w
             end in
  let* w := match FileDescriptorProto_syntax message with
             | Some v => if negb (str_eqb v (js "")) then
                           let* w := w_uint32 (Int 98) w in w_string v w
                         else Ok w
             | None => Ok w
             end in
  let* w := match FileDescriptorProto_edition message with
             | Some v => if negb (v =? 0) then
                           let* w := w_uint32 (Int 112) w in w_int32 (Int v) w
                         else Ok w
             | None => Ok w
             end in
  Ok w.

Definition FileDescriptorProto_switch (fuel : nat) (tag : Z) (message : FileDescriptorProto)
    (r : reader)
    : jsres (flow FileDescriptorProto) :=
  let field := Z.shiftr tag 3 in
  if field =? 1 then
    if negb (tag =? 10) then Ok Break
    else
      let* (v, r) := r_string r in Ok (Continue (FileDescriptorProto_with_name (Some v) message) r)
  else if field =? 2 then
    if negb (tag =? 18) then Ok Break
    else
      let* (v, r) := r_string r in
          Ok (Continue (FileDescriptorProto_with_package (Some v) message) r)
  else if field =? 3 then
    if negb (tag =? 26) then Ok Break
    else
      let* (v, r) := r_string r in
      Ok (Continue (FileDescriptorProto_with_dependency (FileDescriptorProto_dependency message ++
          [v]) message) r)
  else if field =? 10 then
    if tag =? 80 then
      let* (v, r) := r_int32_number r in
      Ok (Continue (FileDescriptorProto_with_publicDependency (FileDescriptorProto_publicDependency
          message ++ [v]) message) r)
    else if tag =? 82 then
      let* (n, r) := r_uint32 r in
      let* (xs, r) := packed_loop r_int32_number fuel (n + pos r)
          (FileDescriptorProto_publicDependency message) r in
      Ok (Continue (FileDescriptorProto_with_publicDependency xs message) r)
    else Ok Break
  else if field =? 11 then
    if tag =? 88 then
      let* (v, r) := r_int32_number r in
      Ok (Continue (FileDescriptorProto_with_weakDependency (FileDescriptorProto_weakDependency
          message ++ [v]) message) r)
    else if tag =? 90 then
      let* (n, r) := r_uint32 r in
      let* (xs, r) := packed_loop r_int32_number fuel (n + pos r)
          (FileDescriptorProto_weakDependency message) r in
      Ok (Continue (FileDescriptorProto_with_weakDependency xs message) r)
    else Ok Break
  else if field =? 15 then
    if negb (tag =? 122) then Ok Break
    else
      let* (v, r) := r_string r in
      Ok (Continue (FileDescriptorProto_with_optionDependency (FileDescriptorProto_optionDependency
          message ++ [v]) message) r)
  else if field =? 4 then
    if negb (tag =? 34) then Ok Break
    else
      let* (l, r) := r_uint32 r in
      let* (v, r) := DescriptorProto_decode fuel (InReader r) (Some l) in
      Ok (Continue (FileDescriptorProto_with_messageType (FileDescriptorProto_messageType message
          ++ [v]) message) r)
  else if field =? 5 then
    if negb (tag =? 42) then Ok Break
    else
      let* (l, r) := r_uint32 r in
      let* (v, r) := EnumDescriptorProto_decode fuel (InReader r) (Some l) in
      Ok (Continue (FileDescriptorProto_with_enumType (FileDescriptorProto_enumType message ++ [v])
          message) r)
  else if field =? 6 then
    if negb (tag =? 50) then Ok Break
    else
      let* (l, r) := r_uint32 r in
      let* (v, r) := ServiceDescriptorProto_decode fuel (InReader r) (Some l) in
      Ok (Continue (FileDescriptorProto_with_service (FileDescriptorProto_service message ++ [v])
          message) r)
  else if field =? 7 then
    if negb (tag =? 58) then Ok Break
    else
      let* (l, r) := r_uint32 r in
      let* (v, r) := FieldDescriptorProto_decode fuel (InReader r) (Some l) in
      Ok (Continue (FileDescriptorProto_with_extension (FileDescriptorProto_extension message ++
          [v]) message) r)
  else if field =? 8 then
    if negb (tag =? 66) then Ok Break
    else
      let* (l, r) := r_uint32 r in
      let* (v, r) := FileOptions_decode fuel (InReader r) (Some l) in
      Ok (Continue (FileDescriptorProto_with_options (Some v) message) r)
  else if field =? 9 then
    if negb (tag =? 74) then Ok Break
    else
      let* (l, r) := r_uint32 r in
      let* (v, r) := SourceCodeInfo_decode fuel (InReader r) (Some l) in
      Ok (Continue (FileDescriptorProto_with_sourceCodeInfo (Some v) message) r)
  else if field =? 12 then
    if negb (tag =? 98) then Ok Break
    else
      let* (v, r) := r_string r in
          Ok (Continue (FileDescriptorProto_with_syntax (Some v) message) r)
  else if field =? 14 then
    if negb (tag =? 112) then Ok Break
    else
      let* (v, r) := r_int32 r in
          Ok (Continue (FileDescriptorProto_with_edition (Some v) message) r)
  else Ok Break.

Definition FileDescriptorProto_decode (fuel : nat) (i : input) (length : option Z)
    : jsres (FileDescriptorProto * reader) :=
  decode_with (FileDescriptorProto_switch fuel) createBaseFileDescriptorProto fuel i length.

Definition FileDescriptorProto_fromJSON (fuel : nat) (object : value) : jsres FileDescriptorProto :=
  let* name_ := field object "name" to_string (js "") in
  let* package_ := field object "package" to_string (js "") in
  let* dependency_ := array_field object "dependency" to_string in
  let* publicDependency_ := array_field object "publicDependency" to_number in
  let* weakDependency_ := array_field object "weakDependency" to_number in
  let* optionDependency_ := array_field object "optionDependency" to_string in
  let* messageType_ := array_field object "messageType" (DescriptorProto_fromJSON fuel) in
  let* enumType_ := array_field object "enumType" EnumDescriptorProto_fromJSON in
  let* service_ := array_field object "service" ServiceDescriptorProto_fromJSON in
  let* extension_ := array_field object "extension" FieldDescriptorProto_fromJSON in
  let* options_ := opt_field object "options" FileOptions_fromJSON in
  let* sourceCodeInfo_ := opt_field object "sourceCodeInfo" SourceCodeInfo_fromJSON in
  let* syntax_ := field object "syntax" to_string (js "") in
  let* edition_ := field object "edition" (fun v => Ok (Edition_num (editionFromJSON v))) 0 in
  Ok (mkFileDescriptorProto (Some name_) (Some package_) dependency_ publicDependency_
    weakDependency_ optionDependency_ messageType_ enumType_ service_ extension_ options_
    sourceCodeInfo_ (Some syntax_) (Some edition_)).

Definition FileDescriptorProto_toJSON (message : FileDescriptorProto) : value :=
  let obj : props := [] in
  let obj := put_defined (FileDescriptorProto_name message) (fun v => negb (str_eqb v (js "")))
    "name" (fun v => VString v) obj in
  let obj := put_defined (FileDescriptorProto_package message) (fun v => negb (str_eqb v (js "")))
    "package" (fun v => VString v) obj in
  let obj := put_if (has_length (FileDescriptorProto_dependency message)) "dependency" (VArray
    (map VString (FileDescriptorProto_dependency message))) obj in
  let obj := put_if (has_length (FileDescriptorProto_publicDependency message)) "publicDependency"
    (VArray (map (fun e => VNumber (math_round e)) (FileDescriptorProto_publicDependency
    message))) obj in
  let obj := put_if (has_length (FileDescriptorProto_weakDependency message)) "weakDependency"
    (VArray (map (fun e => VNumber (math_round e)) (FileDescriptorProto_weakDependency message)))
    obj in
  let obj := put_if (has_length (FileDescriptorProto_optionDependency message)) "optionDependency"
    (VArray (map VString (FileDescriptorProto_optionDependency message))) obj in
  let obj := put_if (has_length (FileDescriptorProto_messageType message)) "messageType" (VArray
    (map DescriptorProto_toJSON (FileDescriptorProto_messageType message))) obj in
  let obj := put_if (has_length (FileDescriptorProto_enumType message)) "enumType" (VArray (map
    EnumDescriptorProto_toJSON (FileDescriptorProto_enumType message))) obj in
  let obj := put_if (has_length (FileDescriptorProto_service message)) "service" (VArray (map
    ServiceDescriptorProto_toJSON (FileDescriptorProto_service message))) obj in
  let obj := put_if (has_length (FileDescriptorProto_extension message)) "extension" (VArray (map
    FieldDescriptorProto_toJSON (FileDescriptorProto_extension message))) obj in
  let obj := put_defined (FileDescriptorProto_options message) (fun _ => true) "options" (fun v =>
    FileOptions_toJSON v) obj in
  let obj := put_defined (FileDescriptorProto_sourceCodeInfo message) (fun _ => true)
    "sourceCodeInfo" (fun v => SourceCodeInfo_toJSON v) obj in
  let obj := put_defined (FileDescriptorProto_syntax message) (fun v => negb (str_eqb v (js "")))
    "syntax" (fun v => VString v) obj in
  let obj := put_defined (FileDescriptorProto_edition message) (fun v => negb (v =? 0)) "edition"
    (fun v => VString (editionToJSON v)) obj in
  VObject obj.

Definition FileDescriptorProto_fromPartial (object : FileDescriptorProto_Partial)
    : FileDescriptorProto :=
  let message := createBaseFileDescriptorProto in
  let message := FileDescriptorProto_with_name (Some (nullish (FileDescriptorProto_p_name object)
      (js ""))) message in
  let message := FileDescriptorProto_with_package (Some (nullish (FileDescriptorProto_p_package
      object) (js ""))) message in
  let message := FileDescriptorProto_with_dependency (nullish (FileDescriptorProto_p_dependency
      object) []) message in
  let message := FileDescriptorProto_with_publicDependency (nullish
      (FileDescriptorProto_p_publicDependency object) []) message in
  let message := FileDescriptorProto_with_weakDependency (nullish
      (FileDescriptorProto_p_weakDependency object) []) message in
  let message := FileDescriptorProto_with_optionDependency (nullish
      (FileDescriptorProto_p_optionDependency object) []) message in
  let message := FileDescriptorProto_with_messageType (nullish (option_map (map
      DescriptorProto_fromPartial) (FileDescriptorProto_p_messageType object)) []) message in
  let message := FileDescriptorProto_with_enumType (nullish (option_map (map
      EnumDescriptorProto_fromPartial) (FileDescriptorProto_p_enumType object)) []) message in
  let message := FileDescriptorProto_with_service (nullish (option_map (map
      ServiceDescriptorProto_fromPartial) (FileDescriptorProto_p_service object)) []) message in
  let message := FileDescriptorProto_with_extension (nullish (option_map (map
      FieldDescriptorProto_fromPartial) (FileDescriptorProto_p_extension object)) []) message in
  let message := FileDescriptorProto_with_options (option_map FileOptions_fromPartial
      (FileDescriptorProto_p_options object)) message in
  let message := FileDescriptorProto_with_sourceCodeInfo (option_map SourceCodeInfo_fromPartial
      (FileDescriptorProto_p_sourceCodeInfo object)) message in
  let message := FileDescriptorProto_with_syntax (Some (nullish (FileDescriptorProto_p_syntax
      object) (js ""))) message in
  let message := FileDescriptorProto_with_edition (Some (nullish (FileDescriptorProto_p_edition
      object) 0)) message in
  message.

Definition FileDescriptorProto_create (base : option FileDescriptorProto_Partial)
    : FileDescriptorProto :=
  FileDescriptorProto_fromPartial (nullish base (mkFileDescriptorProto_Partial None None None None
      None None None None None None None None None None)).

Definition FileDescriptorProto_toPartial (m : FileDescriptorProto) : FileDescriptorProto_Partial :=
  mkFileDescriptorProto_Partial (FileDescriptorProto_name m) (FileDescriptorProto_package m) (Some
    (FileDescriptorProto_dependency m)) (Some (FileDescriptorProto_publicDependency m)) (Some
    (FileDescriptorProto_weakDependency m)) (Some (FileDescriptorProto_optionDependency m)) (Some
    (map DescriptorProto_toPartial (FileDescriptorProto_messageType m))) (Some (map
    EnumDescriptorProto_toPartial (FileDescriptorProto_enumType m))) (Some (map
    ServiceDescriptorProto_toPartial (FileDescriptorProto_service m))) (Some (map
    FieldDescriptorProto_toPartial (FileDescriptorProto_extension m))) (option_map
    FileOptions_toPartial (FileDescriptorProto_options m)) (option_map SourceCodeInfo_toPartial
    (FileDescriptorProto_sourceCodeInfo m)) (FileDescriptorProto_syntax m)
    (FileDescriptorProto_edition m).

(** ** [FileDescriptorSet] *)

Record FileDescriptorSet : Type := mkFileDescriptorSet {
  FileDescriptorSet_file : list FileDescriptorProto
}.

Record FileDescriptorSet_Partial : Type := mkFileDescriptorSet_Partial {
  FileDescriptorSet_p_file : option (list FileDescriptorProto_Partial)
}.

Definition FileDescriptorSet_with_file (v : list FileDescriptorProto) (m : FileDescriptorSet)
    : FileDescriptorSet :=
  mkFileDescriptorSet v.

Definition createBaseFileDescriptorSet : FileDescriptorSet :=
  {| FileDescriptorSet_file := [] |}.

Definition FileDescriptorSet_encode (message : FileDescriptorSet) (w : writer) : jsres writer :=
  let* w := for_each (fun v w => let* w := w_uint32 (Int 10) w in
                               let* w := FileDescriptorProto_encode v (fork w) in w_join w)
               (FileDescriptorSet_file message) w in
  Ok w.

Definition FileDescriptorSet_switch (fuel : nat) (tag : Z) (message : FileDescriptorSet)
    (r : reader)
    : jsres (flow FileDescriptorSet) :=
  let field := Z.shiftr tag 3 in
  if field =? 1 then
    if negb (tag =? 10) then Ok Break
    else
      let* (l, r) := r_uint32 r in
      let* (v, r) := FileDescriptorProto_decode fuel (InReader r) (Some l) in
      Ok (Continue (FileDescriptorSet_with_file (FileDescriptorSet_file message ++ [v]) message) r)
  else Ok Break.

Definition FileDescriptorSet_decode (fuel : nat) (i : input) (length : option Z)
    : jsres (FileDescriptorSet * reader) :=
  decode_with (FileDescriptorSet_switch fuel) createBaseFileDescriptorSet fuel i length.

Definition FileDescriptorSet_fromJSON (fuel : nat) (object : value) : jsres FileDescriptorSet :=
  let* file_ := array_field object "file" (FileDescriptorProto_fromJSON fuel) in
  Ok (mkFileDescriptorSet file_).

Definition FileDescriptorSet_toJSON (message : FileDescriptorSet) : value :=
  let obj : props := [] in
  let obj := put_if (has_length (FileDescriptorSet_file message)) "file" (VArray (map
    FileDescriptorProto_toJSON (FileDescriptorSet_file message))) obj in
  VObject obj.

Definition FileDescriptorSet_fromPartial (object : FileDescriptorSet_Partial) : FileDescriptorSet :=
  let message := createBaseFileDescriptorSet in
  let message := FileDescriptorSet_with_file (nullish (option_map (map
      FileDescriptorProto_fromPartial) (FileDescriptorSet_p_file object)) []) message in
  message.

Definition FileDescriptorSet_create (base : option FileDescriptorSet_Partial) : FileDescriptorSet :=
  FileDescriptorSet_fromPartial (nullish base (mkFileDescriptorSet_Partial None)).

Definition FileDescriptorSet_toPartial (m : FileDescriptorSet) : FileDescriptorSet_Partial :=
  mkFileDescriptorSet_Partial (Some (map FileDescriptorProto_toPartial (FileDescriptorSet_file
    m))).

(** ** [GeneratedCodeInfo_Annotation] *)

Record GeneratedCodeInfo_Annotation : Type := mkGeneratedCodeInfo_Annotation {
  GeneratedCodeInfo_Annotation_path : list number;
  GeneratedCodeInfo_Annotation_sourceFile : option jsstring;
  GeneratedCodeInfo_Annotation_begin : option number;
  GeneratedCodeInfo_Annotation_end : option number;
  GeneratedCodeInfo_Annotation_semantic : option Z
}.

Record GeneratedCodeInfo_Annotation_Partial : Type := mkGeneratedCodeInfo_Annotation_Partial {
  GeneratedCodeInfo_Annotation_p_path : option (list number);
  GeneratedCodeInfo_Annotation_p_sourceFile : option jsstring;
  GeneratedCodeInfo_Annotation_p_begin : option number;
  GeneratedCodeInfo_Annotation_p_end : option number;
  GeneratedCodeInfo_Annotation_p_semantic : option Z
}.

Definition GeneratedCodeInfo_Annotation_with_path (v : list number)
    (m : GeneratedCodeInfo_Annotation) : GeneratedCodeInfo_Annotation :=
  mkGeneratedCodeInfo_Annotation v (GeneratedCodeInfo_Annotation_sourceFile m)
    (GeneratedCodeInfo_Annotation_begin m) (GeneratedCodeInfo_Annotation_end m)
    (GeneratedCodeInfo_Annotation_semantic m).

Definition GeneratedCodeInfo_Annotation_with_sourceFile (v : option jsstring)
    (m : GeneratedCodeInfo_Annotation) : GeneratedCodeInfo_Annotation :=
  mkGeneratedCodeInfo_Annotation (GeneratedCodeInfo_Annotation_path m) v
    (GeneratedCodeInfo_Annotation_begin m) (GeneratedCodeInfo_Annotation_end m)
    (GeneratedCodeInfo_Annotation_semantic m).

Definition GeneratedCodeInfo_Annotation_with_begin (v : option number)
    (m : GeneratedCodeInfo_Annotation) : GeneratedCodeInfo_Annotation :=
  mkGeneratedCodeInfo_Annotation (GeneratedCodeInfo_Annotation_path m)
    (GeneratedCodeInfo_Annotation_sourceFile m) v (GeneratedCodeInfo_Annotation_end m)
    (GeneratedCodeInfo_Annotation_semantic m).

Definition GeneratedCodeInfo_Annotation_with_end (v : option number)
    (m : GeneratedCodeInfo_Annotation) : GeneratedCodeInfo_Annotation :=
  mkGeneratedCodeInfo_Annotation (GeneratedCodeInfo_Annotation_path m)
    (GeneratedCodeInfo_Annotation_sourceFile m) (GeneratedCodeInfo_Annotation_begin m) v
    (GeneratedCodeInfo_Annotation_semantic m).

Definition GeneratedCodeInfo_Annotation_with_semantic (v : option Z)
    (m : GeneratedCodeInfo_Annotation) : GeneratedCodeInfo_Annotation :=
  mkGeneratedCodeInfo_Annotation (GeneratedCodeInfo_Annotation_path m)
    (GeneratedCodeInfo_Annotation_sourceFile m) (GeneratedCodeInfo_Annotation_begin m)
    (GeneratedCodeInfo_Annotation_end m) v.

Definition createBaseGeneratedCodeInfo_Annotation : GeneratedCodeInfo_Annotation :=
  {| GeneratedCodeInfo_Annotation_path := [];
     GeneratedCodeInfo_Annotation_sourceFile := (Some (js ""));
     GeneratedCodeInfo_Annotation_begin := (Some (Int 0));
     GeneratedCodeInfo_Annotation_end := (Some (Int 0));
     GeneratedCodeInfo_Annotation_semantic := (Some 0) |}.

Definition GeneratedCodeInfo_Annotation_encode (message : GeneratedCodeInfo_Annotation)
    (w : writer) : jsres writer :=
  let* w := (let* w := w_uint32 (Int 10) w in
              let* w := for_each (fun v w => w_int32 v w)
                  (GeneratedCodeInfo_Annotation_path message) (fork w) in
              w_join w) in
  let* w := match GeneratedCodeInfo_Annotation_sourceFile message with
             | Some v => if negb (str_eqb v (js "")) then
                           let* w := w_uint32 (Int 18) w in w_string v w
                         else Ok w
             | None => Ok w
             end in
  let* w := match GeneratedCodeInfo_Annotation_begin message with
             | Some v => if negb (num_eqb v (Int 0)) then
                           let* w := w_uint32 (Int 24) w in w_int32 v w
                         else Ok w
             | None => Ok w
             end in
  let* w := match GeneratedCodeInfo_Annotation_end message with
             | Some v => if negb (num_eqb v (Int 0)) then
                           let* w := w_uint32 (Int 32) w in w_int32 v w
                         else Ok w
             | None => Ok w
             end in
  let* w := match GeneratedCodeInfo_Annotation_semantic message with
             | Some v => if negb (v =? 0) then
                           let* w := w_uint32 (Int 40) w in w_int32 (Int v) w
                         else Ok w
             | None => Ok w
             end in
  Ok w.

Definition GeneratedCodeInfo_Annotation_switch (fuel : nat) (tag : Z)
    (message : GeneratedCodeInfo_Annotation) (r : reader)
    : jsres (flow GeneratedCodeInfo_Annotation) :=
  let field := Z.shiftr tag 3 in
  if field =? 1 then
    if tag =? 8 then
      let* (v, r) := r_int32_number r in
      Ok (Continue (GeneratedCodeInfo_Annotation_with_path (GeneratedCodeInfo_Annotation_path
          message ++ [v]) message) r)
    else if tag =? 10 then
      let* (n, r) := r_uint32 r in
      let* (xs, r) := packed_loop r_int32_number fuel (n + pos r)
          (GeneratedCodeInfo_Annotation_path message) r in
      Ok (Continue (GeneratedCodeInfo_Annotation_with_path xs message) r)
    else Ok Break
  else if field =? 2 then
    if negb (tag =? 18) then Ok Break
    else
      let* (v, r) := r_string r in
          Ok (Continue (GeneratedCodeInfo_Annotation_with_sourceFile (Some v) message) r)
  else if field =? 3 then
    if negb (tag =? 24) then Ok Break
    else
      let* (v, r) := r_int32_number r in
          Ok (Continue (GeneratedCodeInfo_Annotation_with_begin (Some v) message) r)
  else if field =? 4 then
    if negb (tag =? 32) then Ok Break
    else
      let* (v, r) := r_int32_number r in
          Ok (Continue (GeneratedCodeInfo_Annotation_with_end (Some v) message) r)
  else if field =? 5 then
    if negb (tag =? 40) then Ok Break
    else
      let* (v, r) := r_int32 r in
          Ok (Continue (GeneratedCodeInfo_Annotation_with_semantic (Some v) message) r)
  else Ok Break.

Definition GeneratedCodeInfo_Annotation_decode (fuel : nat) (i : input) (length : option Z)
    : jsres (GeneratedCodeInfo_Annotation * reader) :=
  decode_with (GeneratedCodeInfo_Annotation_switch fuel)
      createBaseGeneratedCodeInfo_Annotation fuel i length.

Definition GeneratedCodeInfo_Annotation_fromJSON (object : value)
    : jsres GeneratedCodeInfo_Annotation :=
  let* path_ := array_field object "path" to_number in
  let* sourceFile_ := field object "sourceFile" to_string (js "") in
  let* begin_ := field object "begin" to_number (Int 0) in
  let* end_ := field object "end" to_number (Int 0) in
  let* semantic_ := field object "semantic" (fun v => Ok (GeneratedCodeInfo_Annotation_Semantic_num
      (generatedCodeInfo_Annotation_SemanticFromJSON v))) 0 in
  Ok (mkGeneratedCodeInfo_Annotation path_ (Some sourceFile_) (Some begin_) (Some end_) (Some
    semantic_)).

Definition GeneratedCodeInfo_Annotation_toJSON (message : GeneratedCodeInfo_Annotation) : value :=
  let obj : props := [] in
  let obj := put_if (has_length (GeneratedCodeInfo_Annotation_path message)) "path" (VArray (map
    (fun e => VNumber (math_round e)) (GeneratedCodeInfo_Annotation_path message))) obj in
  let obj := put_defined (GeneratedCodeInfo_Annotation_sourceFile message) (fun v => negb (str_eqb
    v (js ""))) "sourceFile" (fun v => VString v) obj in
  let obj := put_defined (GeneratedCodeInfo_Annotation_begin message) (fun v => negb (num_eqb v
    (Int 0))) "begin" (fun v => VNumber (math_round v)) obj in
  let obj := put_defined (GeneratedCodeInfo_Annotation_end message) (fun v => negb (num_eqb v (Int
    0))) "end" (fun v => VNumber (math_round v)) obj in
  let obj := put_defined (GeneratedCodeInfo_Annotation_semantic message) (fun v => negb (v =? 0))
    "semantic" (fun v => VString (generatedCodeInfo_Annotation_SemanticToJSON v)) obj in
  VObject obj.

Definition GeneratedCodeInfo_Annotation_fromPartial (object : GeneratedCodeInfo_Annotation_Partial)
    : GeneratedCodeInfo_Annotation :=
  let message := createBaseGeneratedCodeInfo_Annotation in
  let message := GeneratedCodeInfo_Annotation_with_path (nullish
      (GeneratedCodeInfo_Annotation_p_path object) []) message in
  let message := GeneratedCodeInfo_Annotation_with_sourceFile (Some (nullish
      (GeneratedCodeInfo_Annotation_p_sourceFile object) (js ""))) message in
  let message := GeneratedCodeInfo_Annotation_with_begin (Some (nullish
      (GeneratedCodeInfo_Annotation_p_begin object) (Int 0))) message in
  let message := GeneratedCodeInfo_Annotation_with_end (Some (nullish
      (GeneratedCodeInfo_Annotation_p_end object) (Int 0))) message in
  let message := GeneratedCodeInfo_Annotation_with_semantic (Some (nullish
      (GeneratedCodeInfo_Annotation_p_semantic object) 0)) message in
  message.

Definition GeneratedCodeInfo_Annotation_create (base : option GeneratedCodeInfo_Annotation_Partial)
    : GeneratedCodeInfo_Annotation :=
  GeneratedCodeInfo_Annotation_fromPartial (nullish base (mkGeneratedCodeInfo_Annotation_Partial
      None None None None None)).

Definition GeneratedCodeInfo_Annotation_toPartial (m : GeneratedCodeInfo_Annotation)
    : GeneratedCodeInfo_Annotation_Partial :=
  mkGeneratedCodeInfo_Annotation_Partial (Some (GeneratedCodeInfo_Annotation_path m))
    (GeneratedCodeInfo_Annotation_sourceFile m) (GeneratedCodeInfo_Annotation_begin m)
    (GeneratedCodeInfo_Annotation_end m) (GeneratedCodeInfo_Annotation_semantic m).

(** ** [GeneratedCodeInfo] *)

Record GeneratedCodeInfo : Type := mkGeneratedCodeInfo {
  GeneratedCodeInfo_annotation : list GeneratedCodeInfo_Annotation
}.

Record GeneratedCodeInfo_Partial : Type := mkGeneratedCodeInfo_Partial {
  GeneratedCodeInfo_p_annotation : option (list GeneratedCodeInfo_Annotation_Partial)
}.

Definition GeneratedCodeInfo_with_annotation (v : list GeneratedCodeInfo_Annotation)
    (m : GeneratedCodeInfo) : GeneratedCodeInfo :=
  mkGeneratedCodeInfo v.

Definition createBaseGeneratedCodeInfo : GeneratedCodeInfo :=
  {| GeneratedCodeInfo_annotation := [] |}.

Definition GeneratedCodeInfo_encode (message : GeneratedCodeInfo) (w : writer) : jsres writer :=
  let* w := for_each (fun v w => let* w := w_uint32 (Int 10) w in
                               let* w := GeneratedCodeInfo_Annotation_encode v (fork w) in w_join w)
               (GeneratedCodeInfo_annotation message) w in
  Ok w.

Definition GeneratedCodeInfo_switch (fuel : nat) (tag : Z) (message : GeneratedCodeInfo)
    (r : reader)
    : jsres (flow GeneratedCodeInfo) :=
  let field := Z.shiftr tag 3 in
  if field =? 1 then
    if negb (tag =? 10) then Ok Break
    else
      let* (l, r) := r_uint32 r in
      let* (v, r) := GeneratedCodeInfo_Annotation_decode fuel (InReader r) (Some l) in
      Ok (Continue (GeneratedCodeInfo_with_annotation (GeneratedCodeInfo_annotation message ++ [v])
          message) r)
  else Ok Break.

Definition GeneratedCodeInfo_decode (fuel : nat) (i : input) (length : option Z)
    : jsres (GeneratedCodeInfo * reader) :=
  decode_with (GeneratedCodeInfo_switch fuel) createBaseGeneratedCodeInfo fuel i length.

Definition GeneratedCodeInfo_fromJSON (object : value) : jsres GeneratedCodeInfo :=
  let* annotation_ := array_field object "annotation" GeneratedCodeInfo_Annotation_fromJSON in
  Ok (mkGeneratedCodeInfo annotation_).

Definition GeneratedCodeInfo_toJSON (message : GeneratedCodeInfo) : value :=
  let obj : props := [] in
  let obj := put_if (has_length (GeneratedCodeInfo_annotation message)) "annotation" (VArray (map
    GeneratedCodeInfo_Annotation_toJSON (GeneratedCodeInfo_annotation message))) obj in
  VObject obj.

Definition GeneratedCodeInfo_fromPartial (object : GeneratedCodeInfo_Partial) : GeneratedCodeInfo :=
  let message := createBaseGeneratedCodeInfo in
  let message := GeneratedCodeInfo_with_annotation (nullish (option_map (map
      GeneratedCodeInfo_Annotation_fromPartial) (GeneratedCodeInfo_p_annotation object)) [])
      message in
  message.

Definition GeneratedCodeInfo_create (base : option GeneratedCodeInfo_Partial) : GeneratedCodeInfo :=
  GeneratedCodeInfo_fromPartial (nullish base (mkGeneratedCodeInfo_Partial None)).

Definition GeneratedCodeInfo_toPartial (m : GeneratedCodeInfo) : GeneratedCodeInfo_Partial :=
  mkGeneratedCodeInfo_Partial (Some (map GeneratedCodeInfo_Annotation_toPartial
    (GeneratedCodeInfo_annotation m))).
End Descriptor.
