(* ===== verification/DescriptorOptionsFacts.v ===== *)
(** The wire format of the option messages of [DescriptorOptions]. *)

From stdpp Require Import base list numbers strings.
From Stdlib Require Import Strings.Byte ZArith Lia.
From S2P Require Import Prelude JsNumber JsValue Wire WireFacts DescriptorBase DescriptorEnums.
From S2P Require Import DescriptorOptions.
Local Open Scope Z_scope.

Definition FieldOptions_EditionDefault_norm (m : FieldOptions_EditionDefault)
    : FieldOptions_EditionDefault :=
  mkFieldOptions_EditionDefault (Some (default 0 (FieldOptions_EditionDefault_edition m))) (Some
    (default (js "") (FieldOptions_EditionDefault_value m))).

Lemma FieldOptions_EditionDefault_fromPartial_toPartial :
  forall m, FieldOptions_EditionDefault_fromPartial (FieldOptions_EditionDefault_toPartial m)
      = FieldOptions_EditionDefault_norm m.
Proof. solve_fromPartial FieldOptions_EditionDefault_fromPartial
    FieldOptions_EditionDefault_toPartial FieldOptions_EditionDefault_norm. Qed.
#[export] Hint Rewrite FieldOptions_EditionDefault_fromPartial_toPartial : partials.

Definition FeatureSet_norm (m : FeatureSet) : FeatureSet :=
  mkFeatureSet (Some (default 0 (FeatureSet_fieldPresence m))) (Some (default 0
    (FeatureSet_enumType m))) (Some (default 0 (FeatureSet_repeatedFieldEncoding m))) (Some
    (default 0 (FeatureSet_utf8Validation m))) (Some (default 0 (FeatureSet_messageEncoding m)))
    (Some (default 0 (FeatureSet_jsonFormat m))) (Some (default 0 (FeatureSet_enforceNamingStyle
    m))) (Some (default 0 (FeatureSet_defaultSymbolVisibility m))).

Lemma FeatureSet_fromPartial_toPartial :
  forall m, FeatureSet_fromPartial (FeatureSet_toPartial m) = FeatureSet_norm m.
Proof. solve_fromPartial FeatureSet_fromPartial FeatureSet_toPartial FeatureSet_norm. Qed.
#[export] Hint Rewrite FeatureSet_fromPartial_toPartial : partials.

Definition FieldOptions_FeatureSupport_norm (m : FieldOptions_FeatureSupport)
    : FieldOptions_FeatureSupport :=
  mkFieldOptions_FeatureSupport (Some (default 0 (FieldOptions_FeatureSupport_editionIntroduced
    m))) (Some (default 0 (FieldOptions_FeatureSupport_editionDeprecated m))) (Some (default (js
    "") (FieldOptions_FeatureSupport_deprecationWarning m))) (Some (default 0
    (FieldOptions_FeatureSupport_editionRemoved m))).

Lemma FieldOptions_FeatureSupport_fromPartial_toPartial :
  forall m, FieldOptions_FeatureSupport_fromPartial (FieldOptions_FeatureSupport_toPartial m)
      = FieldOptions_FeatureSupport_norm m.
Proof. solve_fromPartial FieldOptions_FeatureSupport_fromPartial
    FieldOptions_FeatureSupport_toPartial FieldOptions_FeatureSupport_norm. Qed.
#[export] Hint Rewrite FieldOptions_FeatureSupport_fromPartial_toPartial : partials.

Definition UninterpretedOption_NamePart_norm (m : UninterpretedOption_NamePart)
    : UninterpretedOption_NamePart :=
  mkUninterpretedOption_NamePart (UninterpretedOption_NamePart_namePart m)
    (UninterpretedOption_NamePart_isExtension m).

Lemma UninterpretedOption_NamePart_fromPartial_toPartial :
  forall m, UninterpretedOption_NamePart_fromPartial (UninterpretedOption_NamePart_toPartial m)
      = UninterpretedOption_NamePart_norm m.
Proof. solve_fromPartial UninterpretedOption_NamePart_fromPartial
    UninterpretedOption_NamePart_toPartial UninterpretedOption_NamePart_norm. Qed.
#[export] Hint Rewrite UninterpretedOption_NamePart_fromPartial_toPartial : partials.

Definition UninterpretedOption_norm (m : UninterpretedOption) : UninterpretedOption :=
  mkUninterpretedOption (map UninterpretedOption_NamePart_norm (UninterpretedOption_name m)) (Some
    (default (js "") (UninterpretedOption_identifierValue m))) (Some (default (Int 0)
    (UninterpretedOption_positiveIntValue m))) (Some (default (Int 0)
    (UninterpretedOption_negativeIntValue m))) (Some (default (Int 0)
    (UninterpretedOption_doubleValue m))) (Some (default [] (UninterpretedOption_stringValue m)))
    (Some (default (js "") (UninterpretedOption_aggregateValue m))).

Lemma UninterpretedOption_fromPartial_toPartial :
  forall m, UninterpretedOption_fromPartial (UninterpretedOption_toPartial m)
      = UninterpretedOption_norm m.
Proof. solve_fromPartial UninterpretedOption_fromPartial UninterpretedOption_toPartial
    UninterpretedOption_norm. Qed.
#[export] Hint Rewrite UninterpretedOption_fromPartial_toPartial : partials.

Definition FieldOptions_norm (m : FieldOptions) : FieldOptions :=
  mkFieldOptions (Some (default 0 (FieldOptions_ctype m))) (Some (default false
    (FieldOptions_packed m))) (Some (default 0 (FieldOptions_jstype m))) (Some (default false
    (FieldOptions_lazy m))) (Some (default false (FieldOptions_unverifiedLazy m))) (Some (default
    false (FieldOptions_deprecated m))) (Some (default false (FieldOptions_weak m))) (Some
    (default false (FieldOptions_debugRedact m))) (Some (default 0 (FieldOptions_retention m)))
    (FieldOptions_targets m) (map FieldOptions_EditionDefault_norm (FieldOptions_editionDefaults
    m)) (option_map FeatureSet_norm (FieldOptions_features m)) (option_map
    FieldOptions_FeatureSupport_norm (FieldOptions_featureSupport m)) (map
    UninterpretedOption_norm (FieldOptions_uninterpretedOption m)).

Lemma FieldOptions_fromPartial_toPartial :
  forall m, FieldOptions_fromPartial (FieldOptions_toPartial m) = FieldOptions_norm m.
Proof. solve_fromPartial FieldOptions_fromPartial FieldOptions_toPartial FieldOptions_norm. Qed.
#[export] Hint Rewrite FieldOptions_fromPartial_toPartial : partials.

Section OptionsWire.
Context {RT : WireRuntime} {L : WireLaws RT}.

Ltac FieldOptions_EditionDefault_settle m :=
  eval cbv beta iota delta
    [createBaseFieldOptions_EditionDefault FieldOptions_EditionDefault_with_edition
      FieldOptions_EditionDefault_with_value FieldOptions_EditionDefault_edition
      FieldOptions_EditionDefault_value] in m.

Definition FieldOptions_EditionDefault_image (m : FieldOptions_EditionDefault) : bytes :=
  match FieldOptions_EditionDefault_edition m with
  | Some v => if negb (v =? 0) then enc_uint32 24 ++ enc_int32 v else []
  | None => []
  end ++
  match FieldOptions_EditionDefault_value m with
  | Some v => if negb (str_eqb v (js "")) then enc_uint32 18 ++ enc_string v else []
  | None => []
  end ++
  [].

Definition FieldOptions_EditionDefault_ok (m : FieldOptions_EditionDefault) : Prop :=
  opt_all enum_ok (FieldOptions_EditionDefault_edition m) /\
  opt_all string_ok (FieldOptions_EditionDefault_value m).

Lemma FieldOptions_EditionDefault_eats (F : nat) (m : FieldOptions_EditionDefault) :
  FieldOptions_EditionDefault_ok m -> eats (FieldOptions_EditionDefault_switch F)
      F (FieldOptions_EditionDefault_image m) createBaseFieldOptions_EditionDefault
      (FieldOptions_EditionDefault_norm m).
Proof.
  intros (H_edition & H_value). unfold FieldOptions_EditionDefault_image.
  settle FieldOptions_EditionDefault_settle.
  eat_opt enum_scalar 24 FieldOptions_EditionDefault_with_edition 0;
      settle FieldOptions_EditionDefault_settle.
  eat_opt string_scalar 18 FieldOptions_EditionDefault_with_value (js "");
      settle FieldOptions_EditionDefault_settle.
  apply eats_nil.
Qed.

Lemma FieldOptions_EditionDefault_codec : codec FieldOptions_EditionDefault_encode
    FieldOptions_EditionDefault_decode FieldOptions_EditionDefault_norm
    FieldOptions_EditionDefault_image FieldOptions_EditionDefault_ok.
Proof.
  split.
  - intros m (H_edition & H_value). unfold FieldOptions_EditionDefault_encode,
      FieldOptions_EditionDefault_image.
    write ltac:(write_scalar_as enum_scalar). write ltac:(write_scalar_as string_scalar).
    apply writes_ret.
  - intros m f r tl Hm Hr Hf. apply (decode_with_reads _ f);
      [by apply FieldOptions_EditionDefault_eats|done|lia|done].
Qed.

Lemma FieldOptions_EditionDefault_safe : safe_decode FieldOptions_EditionDefault_decode.
Proof.
  apply (decode_with_safe FieldOptions_EditionDefault_switch
      createBaseFieldOptions_EditionDefault). intros F tag m r Hr.
      unfold FieldOptions_EditionDefault_switch.
  solve_safe_switch.
Qed.
#[local] Hint Resolve FieldOptions_EditionDefault_safe : model.

Ltac FeatureSet_settle m :=
  eval cbv beta iota delta
    [createBaseFeatureSet FeatureSet_with_fieldPresence FeatureSet_with_enumType
      FeatureSet_with_repeatedFieldEncoding FeatureSet_with_utf8Validation
      FeatureSet_with_messageEncoding FeatureSet_with_jsonFormat
      FeatureSet_with_enforceNamingStyle FeatureSet_with_defaultSymbolVisibility
      FeatureSet_fieldPresence FeatureSet_enumType FeatureSet_repeatedFieldEncoding
      FeatureSet_utf8Validation FeatureSet_messageEncoding FeatureSet_jsonFormat
      FeatureSet_enforceNamingStyle FeatureSet_defaultSymbolVisibility] in m.

Definition FeatureSet_image (m : FeatureSet) : bytes :=
  match FeatureSet_fieldPresence m with
  | Some v => if negb (v =? 0) then enc_uint32 8 ++ enc_int32 v else []
  | None => []
  end ++
  match FeatureSet_enumType m with
  | Some v => if negb (v =? 0) then enc_uint32 16 ++ enc_int32 v else []
  | None => []
  end ++
  match FeatureSet_repeatedFieldEncoding m with
  | Some v => if negb (v =? 0) then enc_uint32 24 ++ enc_int32 v else []
  | None => []
  end ++
  match FeatureSet_utf8Validation m with
  | Some v => if negb (v =? 0) then enc_uint32 32 ++ enc_int32 v else []
  | None => []
  end ++
  match FeatureSet_messageEncoding m with
  | Some v => if negb (v =? 0) then enc_uint32 40 ++ enc_int32 v else []
  | None => []
  end ++
  match FeatureSet_jsonFormat m with
  | Some v => if negb (v =? 0) then enc_uint32 48 ++ enc_int32 v else []
  | None => []
  end ++
  match FeatureSet_enforceNamingStyle m with
  | Some v => if negb (v =? 0) then enc_uint32 56 ++ enc_int32 v else []
  | None => []
  end ++
  match FeatureSet_defaultSymbolVisibility m with
  | Some v => if negb (v =? 0) then enc_uint32 64 ++ enc_int32 v else []
  | None => []
  end ++
  [].

Definition FeatureSet_ok (m : FeatureSet) : Prop :=
  opt_all enum_ok (FeatureSet_fieldPresence m) /\
  opt_all enum_ok (FeatureSet_enumType m) /\
  opt_all enum_ok (FeatureSet_repeatedFieldEncoding m) /\
  opt_all enum_ok (FeatureSet_utf8Validation m) /\
  opt_all enum_ok (FeatureSet_messageEncoding m) /\
  opt_all enum_ok (FeatureSet_jsonFormat m) /\
  opt_all enum_ok (FeatureSet_enforceNamingStyle m) /\
  opt_all enum_ok (FeatureSet_defaultSymbolVisibility m).

Lemma FeatureSet_eats (F : nat) (m : FeatureSet) :
  FeatureSet_ok m -> eats (FeatureSet_switch F) F (FeatureSet_image m)
      createBaseFeatureSet (FeatureSet_norm m).
Proof.
  intros (H_fieldPresence & H_enumType & H_repeatedFieldEncoding & H_utf8Validation &
      H_messageEncoding & H_jsonFormat & H_enforceNamingStyle & H_defaultSymbolVisibility).
      unfold FeatureSet_image.
  settle FeatureSet_settle.
  eat_opt enum_scalar 8 FeatureSet_with_fieldPresence 0; settle FeatureSet_settle.
  eat_opt enum_scalar 16 FeatureSet_with_enumType 0; settle FeatureSet_settle.
  eat_opt enum_scalar 24 FeatureSet_with_repeatedFieldEncoding 0; settle FeatureSet_settle.
  eat_opt enum_scalar 32 FeatureSet_with_utf8Validation 0; settle FeatureSet_settle.
  eat_opt enum_scalar 40 FeatureSet_with_messageEncoding 0; settle FeatureSet_settle.
  eat_opt enum_scalar 48 FeatureSet_with_jsonFormat 0; settle FeatureSet_settle.
  eat_opt enum_scalar 56 FeatureSet_with_enforceNamingStyle 0; settle FeatureSet_settle.
  eat_opt enum_scalar 64 FeatureSet_with_defaultSymbolVisibility 0; settle FeatureSet_settle.
  apply eats_nil.
Qed.

Lemma FeatureSet_codec : codec FeatureSet_encode FeatureSet_decode FeatureSet_norm FeatureSet_image
    FeatureSet_ok.
Proof.
  split.
  - intros m (H_fieldPresence & H_enumType & H_repeatedFieldEncoding & H_utf8Validation &
      H_messageEncoding & H_jsonFormat & H_enforceNamingStyle & H_defaultSymbolVisibility).
      unfold FeatureSet_encode, FeatureSet_image.
    write ltac:(write_scalar_as enum_scalar). write ltac:(write_scalar_as enum_scalar).
        write ltac:(write_scalar_as enum_scalar). write ltac:(write_scalar_as enum_scalar).
        write ltac:(write_scalar_as enum_scalar). write ltac:(write_scalar_as enum_scalar).
        write ltac:(write_scalar_as enum_scalar). write ltac:(write_scalar_as enum_scalar).
    apply writes_ret.
  - intros m f r tl Hm Hr Hf. apply (decode_with_reads _ f);
      [by apply FeatureSet_eats|done|lia|done].
Qed.

Lemma FeatureSet_safe : safe_decode FeatureSet_decode.
Proof.
  apply (decode_with_safe FeatureSet_switch createBaseFeatureSet). intros F tag m r Hr.
      unfold FeatureSet_switch.
  solve_safe_switch.
Qed.
#[local] Hint Resolve FeatureSet_safe : model.

Ltac FieldOptions_FeatureSupport_settle m :=
  eval cbv beta iota delta
    [createBaseFieldOptions_FeatureSupport FieldOptions_FeatureSupport_with_editionIntroduced
      FieldOptions_FeatureSupport_with_editionDeprecated
      FieldOptions_FeatureSupport_with_deprecationWarning
      FieldOptions_FeatureSupport_with_editionRemoved
      FieldOptions_FeatureSupport_editionIntroduced FieldOptions_FeatureSupport_editionDeprecated
      FieldOptions_FeatureSupport_deprecationWarning FieldOptions_FeatureSupport_editionRemoved]
      in m.

Definition FieldOptions_FeatureSupport_image (m : FieldOptions_FeatureSupport) : bytes :=
  match FieldOptions_FeatureSupport_editionIntroduced m with
  | Some v => if negb (v =? 0) then enc_uint32 8 ++ enc_int32 v else []
  | None => []
  end ++
  match FieldOptions_FeatureSupport_editionDeprecated m with
  | Some v => if negb (v =? 0) then enc_uint32 16 ++ enc_int32 v else []
  | None => []
  end ++
  match FieldOptions_FeatureSupport_deprecationWarning m with
  | Some v => if negb (str_eqb v (js "")) then enc_uint32 26 ++ enc_string v else []
  | None => []
  end ++
  match FieldOptions_FeatureSupport_editionRemoved m with
  | Some v => if negb (v =? 0) then enc_uint32 32 ++ enc_int32 v else []
  | None => []
  end ++
  [].

Definition FieldOptions_FeatureSupport_ok (m : FieldOptions_FeatureSupport) : Prop :=
  opt_all enum_ok (FieldOptions_FeatureSupport_editionIntroduced m) /\
  opt_all enum_ok (FieldOptions_FeatureSupport_editionDeprecated m) /\
  opt_all string_ok (FieldOptions_FeatureSupport_deprecationWarning m) /\
  opt_all enum_ok (FieldOptions_FeatureSupport_editionRemoved m).

Lemma FieldOptions_FeatureSupport_eats (F : nat) (m : FieldOptions_FeatureSupport) :
  FieldOptions_FeatureSupport_ok m -> eats (FieldOptions_FeatureSupport_switch F)
      F (FieldOptions_FeatureSupport_image m) createBaseFieldOptions_FeatureSupport
      (FieldOptions_FeatureSupport_norm m).
Proof.
  intros (H_editionIntroduced & H_editionDeprecated & H_deprecationWarning & H_editionRemoved).
      unfold FieldOptions_FeatureSupport_image.
  settle FieldOptions_FeatureSupport_settle.
  eat_opt enum_scalar 8 FieldOptions_FeatureSupport_with_editionIntroduced 0;
      settle FieldOptions_FeatureSupport_settle.
  eat_opt enum_scalar 16 FieldOptions_FeatureSupport_with_editionDeprecated 0;
      settle FieldOptions_FeatureSupport_settle.
  eat_opt string_scalar 26 FieldOptions_FeatureSupport_with_deprecationWarning (js "");
      settle FieldOptions_FeatureSupport_settle.
  eat_opt enum_scalar 32 FieldOptions_FeatureSupport_with_editionRemoved 0;
      settle FieldOptions_FeatureSupport_settle.
  apply eats_nil.
Qed.

Lemma FieldOptions_FeatureSupport_codec : codec FieldOptions_FeatureSupport_encode
    FieldOptions_FeatureSupport_decode FieldOptions_FeatureSupport_norm
    FieldOptions_FeatureSupport_image FieldOptions_FeatureSupport_ok.
Proof.
  split.
  - intros m (H_editionIntroduced & H_editionDeprecated & H_deprecationWarning & H_editionRemoved).
      unfold FieldOptions_FeatureSupport_encode, FieldOptions_FeatureSupport_image.
    write ltac:(write_scalar_as enum_scalar). write ltac:(write_scalar_as enum_scalar).
        write ltac:(write_scalar_as string_scalar). write ltac:(write_scalar_as enum_scalar).
    apply writes_ret.
  - intros m f r tl Hm Hr Hf. apply (decode_with_reads _ f);
      [by apply FieldOptions_FeatureSupport_eats|done|lia|done].
Qed.

Lemma FieldOptions_FeatureSupport_safe : safe_decode FieldOptions_FeatureSupport_decode.
Proof.
  apply (decode_with_safe FieldOptions_FeatureSupport_switch
      createBaseFieldOptions_FeatureSupport). intros F tag m r Hr.
      unfold FieldOptions_FeatureSupport_switch.
  solve_safe_switch.
Qed.
#[local] Hint Resolve FieldOptions_FeatureSupport_safe : model.

Ltac UninterpretedOption_NamePart_settle m :=
  eval cbv beta iota delta
    [createBaseUninterpretedOption_NamePart UninterpretedOption_NamePart_with_namePart
      UninterpretedOption_NamePart_with_isExtension UninterpretedOption_NamePart_namePart
      UninterpretedOption_NamePart_isExtension] in m.

Definition UninterpretedOption_NamePart_image (m : UninterpretedOption_NamePart) : bytes :=
  (if negb (str_eqb (UninterpretedOption_NamePart_namePart m) (js "")) then enc_uint32 10 ++
      enc_string (UninterpretedOption_NamePart_namePart m) else []) ++
  (if negb (Bool.eqb (UninterpretedOption_NamePart_isExtension m) false) then enc_uint32 16 ++
      enc_bool (UninterpretedOption_NamePart_isExtension m) else []) ++
  [].

Definition UninterpretedOption_NamePart_ok (m : UninterpretedOption_NamePart) : Prop :=
  string_ok (UninterpretedOption_NamePart_namePart m) /\
  (fun _ : bool => True) (UninterpretedOption_NamePart_isExtension m).

Lemma UninterpretedOption_NamePart_eats (F : nat) (m : UninterpretedOption_NamePart) :
  UninterpretedOption_NamePart_ok m -> eats (UninterpretedOption_NamePart_switch F)
      F (UninterpretedOption_NamePart_image m) createBaseUninterpretedOption_NamePart
      (UninterpretedOption_NamePart_norm m).
Proof.
  intros (H_namePart & H_isExtension). unfold UninterpretedOption_NamePart_image.
  settle UninterpretedOption_NamePart_settle.
  eat_scalar string_scalar 10 UninterpretedOption_NamePart_with_namePart (js "");
      settle UninterpretedOption_NamePart_settle.
  eat_scalar bool_scalar 16 UninterpretedOption_NamePart_with_isExtension false;
      settle UninterpretedOption_NamePart_settle.
  apply eats_nil.
Qed.

Lemma UninterpretedOption_NamePart_codec : codec UninterpretedOption_NamePart_encode
    UninterpretedOption_NamePart_decode UninterpretedOption_NamePart_norm
    UninterpretedOption_NamePart_image UninterpretedOption_NamePart_ok.
Proof.
  split.
  - intros m (H_namePart & H_isExtension). unfold UninterpretedOption_NamePart_encode,
      UninterpretedOption_NamePart_image.
    write ltac:(write_scalar_as string_scalar). write ltac:(write_scalar_as bool_scalar).
    apply writes_ret.
  - intros m f r tl Hm Hr Hf. apply (decode_with_reads _ f);
      [by apply UninterpretedOption_NamePart_eats|done|lia|done].
Qed.

Lemma UninterpretedOption_NamePart_safe : safe_decode UninterpretedOption_NamePart_decode.
Proof.
  apply (decode_with_safe UninterpretedOption_NamePart_switch
      createBaseUninterpretedOption_NamePart). intros F tag m r Hr.
      unfold UninterpretedOption_NamePart_switch.
  solve_safe_switch.
Qed.
#[local] Hint Resolve UninterpretedOption_NamePart_safe : model.

Ltac UninterpretedOption_settle m :=
  eval cbv beta iota delta
    [createBaseUninterpretedOption UninterpretedOption_with_name
      UninterpretedOption_with_identifierValue UninterpretedOption_with_positiveIntValue
      UninterpretedOption_with_negativeIntValue UninterpretedOption_with_doubleValue
      UninterpretedOption_with_stringValue UninterpretedOption_with_aggregateValue
      UninterpretedOption_name UninterpretedOption_identifierValue
      UninterpretedOption_positiveIntValue UninterpretedOption_negativeIntValue
      UninterpretedOption_doubleValue UninterpretedOption_stringValue
      UninterpretedOption_aggregateValue] in m.

Definition UninterpretedOption_image (m : UninterpretedOption) : bytes :=
  concat (map (fun v => delimited 18 (UninterpretedOption_NamePart_image v))
      (UninterpretedOption_name m)) ++
  match UninterpretedOption_identifierValue m with
  | Some v => if negb (str_eqb v (js "")) then enc_uint32 26 ++ enc_string v else []
  | None => []
  end ++
  match UninterpretedOption_positiveIntValue m with
  | Some v => if negb (num_eqb v (Int 0)) then enc_uint32 32 ++ enc_number enc_uint64 v else []
  | None => []
  end ++
  match UninterpretedOption_negativeIntValue m with
  | Some v => if negb (num_eqb v (Int 0)) then enc_uint32 40 ++ enc_number enc_int64 v else []
  | None => []
  end ++
  match UninterpretedOption_doubleValue m with
  | Some v => if negb (num_eqb v (Int 0)) then enc_uint32 49 ++ enc_double v else []
  | None => []
  end ++
  match UninterpretedOption_stringValue m with
  | Some v => if has_length v then enc_uint32 58 ++ enc_bytes v else []
  | None => []
  end ++
  match UninterpretedOption_aggregateValue m with
  | Some v => if negb (str_eqb v (js "")) then enc_uint32 66 ++ enc_string v else []
  | None => []
  end ++
  [].

Definition UninterpretedOption_ok (m : UninterpretedOption) : Prop :=
  Forall (fun v => UninterpretedOption_NamePart_ok v /\ bytes_ok
      (UninterpretedOption_NamePart_image v)) (UninterpretedOption_name m) /\
  opt_all string_ok (UninterpretedOption_identifierValue m) /\
  opt_all uint64_safe (UninterpretedOption_positiveIntValue m) /\
  opt_all int64_safe (UninterpretedOption_negativeIntValue m) /\
  opt_all double_ok (UninterpretedOption_doubleValue m) /\
  opt_all bytes_ok (UninterpretedOption_stringValue m) /\
  opt_all string_ok (UninterpretedOption_aggregateValue m).

Lemma UninterpretedOption_eats (F : nat) (m : UninterpretedOption) :
  UninterpretedOption_ok m -> eats (UninterpretedOption_switch F) F (UninterpretedOption_image m)
      createBaseUninterpretedOption (UninterpretedOption_norm m).
Proof.
  intros (H_name & H_identifierValue & H_positiveIntValue & H_negativeIntValue & H_doubleValue &
      H_stringValue & H_aggregateValue). unfold UninterpretedOption_image.
  settle UninterpretedOption_settle.
  eat_messages UninterpretedOption_NamePart_codec 18 UninterpretedOption_with_name;
      settle UninterpretedOption_settle.
  eat_opt string_scalar 26 UninterpretedOption_with_identifierValue (js "");
      settle UninterpretedOption_settle.
  eat_opt uint64_scalar 32 UninterpretedOption_with_positiveIntValue (Int 0);
      settle UninterpretedOption_settle.
  eat_opt int64_scalar 40 UninterpretedOption_with_negativeIntValue (Int 0);
      settle UninterpretedOption_settle.
  eat_opt double_nz_scalar 49 UninterpretedOption_with_doubleValue (Int 0);
      settle UninterpretedOption_settle.
  eat_opt bytes_scalar 58 UninterpretedOption_with_stringValue (@nil byte);
      settle UninterpretedOption_settle.
  eat_opt string_scalar 66 UninterpretedOption_with_aggregateValue (js "");
      settle UninterpretedOption_settle.
  apply eats_nil.
Qed.

Lemma UninterpretedOption_codec : codec UninterpretedOption_encode UninterpretedOption_decode
    UninterpretedOption_norm UninterpretedOption_image UninterpretedOption_ok.
Proof.
  split.
  - intros m (H_name & H_identifierValue & H_positiveIntValue & H_negativeIntValue &
      H_doubleValue & H_stringValue & H_aggregateValue).
      unfold UninterpretedOption_encode, UninterpretedOption_image.
    write ltac:(write_message_as UninterpretedOption_NamePart_codec).
        write ltac:(write_scalar_as string_scalar). write ltac:(write_scalar_as uint64_scalar).
        write ltac:(write_scalar_as int64_scalar). write ltac:(write_scalar_as double_nz_scalar).
        write ltac:(write_scalar_as bytes_scalar). write ltac:(write_scalar_as string_scalar).
    apply writes_ret.
  - intros m f r tl Hm Hr Hf. apply (decode_with_reads _ f);
      [by apply UninterpretedOption_eats|done|lia|done].
Qed.

Lemma UninterpretedOption_safe : safe_decode UninterpretedOption_decode.
Proof.
  apply (decode_with_safe UninterpretedOption_switch createBaseUninterpretedOption).
      intros F tag m r Hr. unfold UninterpretedOption_switch.
  solve_safe_switch.
Qed.
#[local] Hint Resolve UninterpretedOption_safe : model.

Ltac FieldOptions_settle m :=
  eval cbv beta iota delta
    [createBaseFieldOptions FieldOptions_with_ctype FieldOptions_with_packed
      FieldOptions_with_jstype FieldOptions_with_lazy FieldOptions_with_unverifiedLazy
      FieldOptions_with_deprecated FieldOptions_with_weak FieldOptions_with_debugRedact
      FieldOptions_with_retention FieldOptions_with_targets FieldOptions_with_editionDefaults
      FieldOptions_with_features FieldOptions_with_featureSupport
      FieldOptions_with_uninterpretedOption FieldOptions_ctype FieldOptions_packed
      FieldOptions_jstype FieldOptions_lazy FieldOptions_unverifiedLazy FieldOptions_deprecated
      FieldOptions_weak FieldOptions_debugRedact FieldOptions_retention FieldOptions_targets
      FieldOptions_editionDefaults FieldOptions_features FieldOptions_featureSupport
      FieldOptions_uninterpretedOption] in m.

Definition FieldOptions_image (m : FieldOptions) : bytes :=
  match FieldOptions_ctype m with
  | Some v => if negb (v =? 0) then enc_uint32 8 ++ enc_int32 v else []
  | None => []
  end ++
  match FieldOptions_packed m with
  | Some v => if negb (Bool.eqb v false) then enc_uint32 16 ++ enc_bool v else []
  | None => []
  end ++
  match FieldOptions_jstype m with
  | Some v => if negb (v =? 0) then enc_uint32 48 ++ enc_int32 v else []
  | None => []
  end ++
  match FieldOptions_lazy m with
  | Some v => if negb (Bool.eqb v false) then enc_uint32 40 ++ enc_bool v else []
  | None => []
  end ++
  match FieldOptions_unverifiedLazy m with
  | Some v => if negb (Bool.eqb v false) then enc_uint32 120 ++ enc_bool v else []
  | None => []
  end ++
  match FieldOptions_deprecated m with
  | Some v => if negb (Bool.eqb v false) then enc_uint32 24 ++ enc_bool v else []
  | None => []
  end ++
  match FieldOptions_weak m with
  | Some v => if negb (Bool.eqb v false) then enc_uint32 80 ++ enc_bool v else []
  | None => []
  end ++
  match FieldOptions_debugRedact m with
  | Some v => if negb (Bool.eqb v false) then enc_uint32 128 ++ enc_bool v else []
  | None => []
  end ++
  match FieldOptions_retention m with
  | Some v => if negb (v =? 0) then enc_uint32 136 ++ enc_int32 v else []
  | None => []
  end ++
  delimited 154 (concat (map enc_int32 (FieldOptions_targets m))) ++
  concat (map (fun v => delimited 162 (FieldOptions_EditionDefault_image v))
      (FieldOptions_editionDefaults m)) ++
  match FieldOptions_features m with Some v => delimited 170 (FeatureSet_image v) | None => []
      end ++
  match FieldOptions_featureSupport m with Some v => delimited 178
      (FieldOptions_FeatureSupport_image v) | None => [] end ++
  concat (map (fun v => delimited 7994 (UninterpretedOption_image v))
      (FieldOptions_uninterpretedOption m)) ++
  [].

Definition FieldOptions_ok (m : FieldOptions) : Prop :=
  opt_all enum_ok (FieldOptions_ctype m) /\
  opt_all (fun _ : bool => True) (FieldOptions_packed m) /\
  opt_all enum_ok (FieldOptions_jstype m) /\
  opt_all (fun _ : bool => True) (FieldOptions_lazy m) /\
  opt_all (fun _ : bool => True) (FieldOptions_unverifiedLazy m) /\
  opt_all (fun _ : bool => True) (FieldOptions_deprecated m) /\
  opt_all (fun _ : bool => True) (FieldOptions_weak m) /\
  opt_all (fun _ : bool => True) (FieldOptions_debugRedact m) /\
  opt_all enum_ok (FieldOptions_retention m) /\
  Forall enum_ok (FieldOptions_targets m) /\
  bytes_ok (concat (map enc_int32 (FieldOptions_targets m))) /\
  Forall (fun v => FieldOptions_EditionDefault_ok v /\ bytes_ok (FieldOptions_EditionDefault_image
      v)) (FieldOptions_editionDefaults m) /\
  opt_all (fun v => FeatureSet_ok v /\ bytes_ok (FeatureSet_image v)) (FieldOptions_features m) /\
  opt_all (fun v => FieldOptions_FeatureSupport_ok v /\ bytes_ok (FieldOptions_FeatureSupport_image
      v)) (FieldOptions_featureSupport m) /\
  Forall (fun v => UninterpretedOption_ok v /\ bytes_ok (UninterpretedOption_image v))
      (FieldOptions_uninterpretedOption m).

Lemma FieldOptions_eats (F : nat) (m : FieldOptions) :
  FieldOptions_ok m -> eats (FieldOptions_switch F) F (FieldOptions_image m)
      createBaseFieldOptions (FieldOptions_norm m).
Proof.
  intros (H_ctype & H_packed & H_jstype & H_lazy & H_unverifiedLazy & H_deprecated & H_weak &
      H_debugRedact & H_retention & H_targets & H_targets_size & H_editionDefaults & H_features &
      H_featureSupport & H_uninterpretedOption). unfold FieldOptions_image.
  settle FieldOptions_settle.
  eat_opt enum_scalar 8 FieldOptions_with_ctype 0; settle FieldOptions_settle.
  eat_opt bool_scalar 16 FieldOptions_with_packed false; settle FieldOptions_settle.
  eat_opt enum_scalar 48 FieldOptions_with_jstype 0; settle FieldOptions_settle.
  eat_opt bool_scalar 40 FieldOptions_with_lazy false; settle FieldOptions_settle.
  eat_opt bool_scalar 120 FieldOptions_with_unverifiedLazy false; settle FieldOptions_settle.
  eat_opt bool_scalar 24 FieldOptions_with_deprecated false; settle FieldOptions_settle.
  eat_opt bool_scalar 80 FieldOptions_with_weak false; settle FieldOptions_settle.
  eat_opt bool_scalar 128 FieldOptions_with_debugRedact false; settle FieldOptions_settle.
  eat_opt enum_scalar 136 FieldOptions_with_retention 0; settle FieldOptions_settle.
  eat_packed enum_scalar r_int32_forward 154 FieldOptions_with_targets; settle FieldOptions_settle.
  eat_messages FieldOptions_EditionDefault_codec 162 FieldOptions_with_editionDefaults;
      settle FieldOptions_settle.
  eat_message FeatureSet_codec 170 FieldOptions_with_features; settle FieldOptions_settle.
  eat_message FieldOptions_FeatureSupport_codec 178 FieldOptions_with_featureSupport;
      settle FieldOptions_settle.
  eat_messages UninterpretedOption_codec 7994 FieldOptions_with_uninterpretedOption;
      settle FieldOptions_settle.
  apply eats_nil.
Qed.

Lemma FieldOptions_codec : codec FieldOptions_encode FieldOptions_decode FieldOptions_norm
    FieldOptions_image FieldOptions_ok.
Proof.
  split.
  - intros m (H_ctype & H_packed & H_jstype & H_lazy & H_unverifiedLazy & H_deprecated & H_weak &
      H_debugRedact & H_retention & H_targets & H_targets_size & H_editionDefaults & H_features &
      H_featureSupport & H_uninterpretedOption). unfold FieldOptions_encode, FieldOptions_image.
    write ltac:(write_scalar_as enum_scalar). write ltac:(write_scalar_as bool_scalar).
        write ltac:(write_scalar_as enum_scalar). write ltac:(write_scalar_as bool_scalar).
        write ltac:(write_scalar_as bool_scalar). write ltac:(write_scalar_as bool_scalar).
        write ltac:(write_scalar_as bool_scalar). write ltac:(write_scalar_as bool_scalar).
        write ltac:(write_scalar_as enum_scalar). write ltac:(write_scalar_as enum_scalar).
        write ltac:(write_message_as FieldOptions_EditionDefault_codec).
        write ltac:(write_message_as FeatureSet_codec). write ltac:(write_message_as
        FieldOptions_FeatureSupport_codec). write ltac:(write_message_as UninterpretedOption_codec).
    apply writes_ret.
  - intros m f r tl Hm Hr Hf. apply (decode_with_reads _ f);
      [by apply FieldOptions_eats|done|lia|done].
Qed.

Lemma FieldOptions_safe : safe_decode FieldOptions_decode.
Proof.
  apply (decode_with_safe FieldOptions_switch createBaseFieldOptions). intros F tag m r Hr.
      unfold FieldOptions_switch.
  solve_safe_switch.
Qed.
#[local] Hint Resolve FieldOptions_safe : model.
End OptionsWire.

#[export] Hint Resolve FieldOptions_EditionDefault_safe FeatureSet_safe
    FieldOptions_FeatureSupport_safe UninterpretedOption_NamePart_safe UninterpretedOption_safe
    FieldOptions_safe : model.
