(* ===== verification/DescriptorOptions2Facts.v ===== *)
(** The wire format of the option messages of [DescriptorOptions2]. *)

From stdpp Require Import base list numbers strings.
From Stdlib Require Import Strings.Byte ZArith Lia.
From S2P Require Import Prelude JsNumber JsValue Wire WireFacts DescriptorBase DescriptorEnums.
From S2P Require Import DescriptorOptions DescriptorOptions2 DescriptorOptionsFacts.
Local Open Scope Z_scope.

Definition EnumValueOptions_norm (m : EnumValueOptions) : EnumValueOptions :=
  mkEnumValueOptions (Some (default false (EnumValueOptions_deprecated m))) (option_map
    FeatureSet_norm (EnumValueOptions_features m)) (Some (default false
    (EnumValueOptions_debugRedact m))) (option_map FieldOptions_FeatureSupport_norm
    (EnumValueOptions_featureSupport m)) (map UninterpretedOption_norm
    (EnumValueOptions_uninterpretedOption m)).

Lemma EnumValueOptions_fromPartial_toPartial :
  forall m, EnumValueOptions_fromPartial (EnumValueOptions_toPartial m) = EnumValueOptions_norm m.
Proof. solve_fromPartial EnumValueOptions_fromPartial EnumValueOptions_toPartial
    EnumValueOptions_norm. Qed.
#[export] Hint Rewrite EnumValueOptions_fromPartial_toPartial : partials.

Definition EnumOptions_norm (m : EnumOptions) : EnumOptions :=
  mkEnumOptions (Some (default false (EnumOptions_allowAlias m))) (Some (default false
    (EnumOptions_deprecated m))) (Some (default false
    (EnumOptions_deprecatedLegacyJsonFieldConflicts m))) (option_map FeatureSet_norm
    (EnumOptions_features m)) (map UninterpretedOption_norm (EnumOptions_uninterpretedOption m)).

Lemma EnumOptions_fromPartial_toPartial :
  forall m, EnumOptions_fromPartial (EnumOptions_toPartial m) = EnumOptions_norm m.
Proof. solve_fromPartial EnumOptions_fromPartial EnumOptions_toPartial EnumOptions_norm. Qed.
#[export] Hint Rewrite EnumOptions_fromPartial_toPartial : partials.

Definition ExtensionRangeOptions_Declaration_norm (m : ExtensionRangeOptions_Declaration)
    : ExtensionRangeOptions_Declaration :=
  mkExtensionRangeOptions_Declaration (Some (default (Int 0)
    (ExtensionRangeOptions_Declaration_number m))) (Some (default (js "")
    (ExtensionRangeOptions_Declaration_fullName m))) (Some (default (js "")
    (ExtensionRangeOptions_Declaration_type m))) (Some (default false
    (ExtensionRangeOptions_Declaration_reserved m))) (Some (default false
    (ExtensionRangeOptions_Declaration_repeated m))).

Lemma ExtensionRangeOptions_Declaration_fromPartial_toPartial :
  forall m, ExtensionRangeOptions_Declaration_fromPartial
      (ExtensionRangeOptions_Declaration_toPartial m) = ExtensionRangeOptions_Declaration_norm m.
Proof. solve_fromPartial ExtensionRangeOptions_Declaration_fromPartial
    ExtensionRangeOptions_Declaration_toPartial ExtensionRangeOptions_Declaration_norm. Qed.
#[export] Hint Rewrite ExtensionRangeOptions_Declaration_fromPartial_toPartial : partials.

Definition ExtensionRangeOptions_norm (m : ExtensionRangeOptions) : ExtensionRangeOptions :=
  mkExtensionRangeOptions (map UninterpretedOption_norm (ExtensionRangeOptions_uninterpretedOption
    m)) (map ExtensionRangeOptions_Declaration_norm (ExtensionRangeOptions_declaration m))
    (option_map FeatureSet_norm (ExtensionRangeOptions_features m)) (Some (default 1
    (ExtensionRangeOptions_verification m))).

Lemma ExtensionRangeOptions_fromPartial_toPartial :
  forall m, ExtensionRangeOptions_fromPartial (ExtensionRangeOptions_toPartial m)
      = ExtensionRangeOptions_norm m.
Proof. solve_fromPartial ExtensionRangeOptions_fromPartial ExtensionRangeOptions_toPartial
    ExtensionRangeOptions_norm. Qed.
#[export] Hint Rewrite ExtensionRangeOptions_fromPartial_toPartial : partials.

Definition OneofOptions_norm (m : OneofOptions) : OneofOptions :=
  mkOneofOptions (option_map FeatureSet_norm (OneofOptions_features m)) (map
    UninterpretedOption_norm (OneofOptions_uninterpretedOption m)).

Lemma OneofOptions_fromPartial_toPartial :
  forall m, OneofOptions_fromPartial (OneofOptions_toPartial m) = OneofOptions_norm m.
Proof. solve_fromPartial OneofOptions_fromPartial OneofOptions_toPartial OneofOptions_norm. Qed.
#[export] Hint Rewrite OneofOptions_fromPartial_toPartial : partials.

Definition MessageOptions_norm (m : MessageOptions) : MessageOptions :=
  mkMessageOptions (Some (default false (MessageOptions_messageSetWireFormat m))) (Some (default
    false (MessageOptions_noStandardDescriptorAccessor m))) (Some (default false
    (MessageOptions_deprecated m))) (Some (default false (MessageOptions_mapEntry m))) (Some
    (default false (MessageOptions_deprecatedLegacyJsonFieldConflicts m))) (option_map
    FeatureSet_norm (MessageOptions_features m)) (map UninterpretedOption_norm
    (MessageOptions_uninterpretedOption m)).

Lemma MessageOptions_fromPartial_toPartial :
  forall m, MessageOptions_fromPartial (MessageOptions_toPartial m) = MessageOptions_norm m.
Proof. solve_fromPartial MessageOptions_fromPartial MessageOptions_toPartial MessageOptions_norm.
    Qed.
#[export] Hint Rewrite MessageOptions_fromPartial_toPartial : partials.

Definition MethodOptions_norm (m : MethodOptions) : MethodOptions :=
  mkMethodOptions (Some (default false (MethodOptions_deprecated m))) (Some (default 0
    (MethodOptions_idempotencyLevel m))) (option_map FeatureSet_norm (MethodOptions_features m))
    (map UninterpretedOption_norm (MethodOptions_uninterpretedOption m)).

Lemma MethodOptions_fromPartial_toPartial :
  forall m, MethodOptions_fromPartial (MethodOptions_toPartial m) = MethodOptions_norm m.
Proof. solve_fromPartial MethodOptions_fromPartial MethodOptions_toPartial MethodOptions_norm. Qed.
#[export] Hint Rewrite MethodOptions_fromPartial_toPartial : partials.

Definition ServiceOptions_norm (m : ServiceOptions) : ServiceOptions :=
  mkServiceOptions (option_map FeatureSet_norm (ServiceOptions_features m)) (Some (default false
    (ServiceOptions_deprecated m))) (map UninterpretedOption_norm
    (ServiceOptions_uninterpretedOption m)).

Lemma ServiceOptions_fromPartial_toPartial :
  forall m, ServiceOptions_fromPartial (ServiceOptions_toPartial m) = ServiceOptions_norm m.
Proof. solve_fromPartial ServiceOptions_fromPartial ServiceOptions_toPartial ServiceOptions_norm.
    Qed.
#[export] Hint Rewrite ServiceOptions_fromPartial_toPartial : partials.

Definition FileOptions_norm (m : FileOptions) : FileOptions :=
  mkFileOptions (Some (default (js "") (FileOptions_javaPackage m))) (Some (default (js "")
    (FileOptions_javaOuterClassname m))) (Some (default false (FileOptions_javaMultipleFiles m)))
    (Some (default false (FileOptions_javaGenerateEqualsAndHash m))) (Some (default false
    (FileOptions_javaStringCheckUtf8 m))) (Some (default 1 (FileOptions_optimizeFor m))) (Some
    (default (js "") (FileOptions_goPackage m))) (Some (default false
    (FileOptions_ccGenericServices m))) (Some (default false (FileOptions_javaGenericServices m)))
    (Some (default false (FileOptions_pyGenericServices m))) (Some (default false
    (FileOptions_deprecated m))) (Some (default true (FileOptions_ccEnableArenas m))) (Some
    (default (js "") (FileOptions_objcClassPrefix m))) (Some (default (js "")
    (FileOptions_csharpNamespace m))) (Some (default (js "") (FileOptions_swiftPrefix m))) (Some
    (default (js "") (FileOptions_phpClassPrefix m))) (Some (default (js "")
    (FileOptions_phpNamespace m))) (Some (default (js "") (FileOptions_phpMetadataNamespace m)))
    (Some (default (js "") (FileOptions_rubyPackage m))) (option_map FeatureSet_norm
    (FileOptions_features m)) (map UninterpretedOption_norm (FileOptions_uninterpretedOption m)).

Lemma FileOptions_fromPartial_toPartial :
  forall m, FileOptions_fromPartial (FileOptions_toPartial m) = FileOptions_norm m.
Proof. solve_fromPartial FileOptions_fromPartial FileOptions_toPartial FileOptions_norm. Qed.
#[export] Hint Rewrite FileOptions_fromPartial_toPartial : partials.

Definition FeatureSet_VisibilityFeature_norm (_ : FeatureSet_VisibilityFeature)
    : FeatureSet_VisibilityFeature := mkFeatureSet_VisibilityFeature.

Lemma FeatureSet_VisibilityFeature_fromPartial_toPartial :
  forall m, FeatureSet_VisibilityFeature_fromPartial (FeatureSet_VisibilityFeature_toPartial m)
      = FeatureSet_VisibilityFeature_norm m.
Proof. solve_fromPartial FeatureSet_VisibilityFeature_fromPartial
    FeatureSet_VisibilityFeature_toPartial FeatureSet_VisibilityFeature_norm. Qed.
#[export] Hint Rewrite FeatureSet_VisibilityFeature_fromPartial_toPartial : partials.

Definition FeatureSetDefaults_FeatureSetEditionDefault_norm (m :
    FeatureSetDefaults_FeatureSetEditionDefault) : FeatureSetDefaults_FeatureSetEditionDefault :=
  mkFeatureSetDefaults_FeatureSetEditionDefault (Some (default 0
    (FeatureSetDefaults_FeatureSetEditionDefault_edition m))) (option_map FeatureSet_norm
    (FeatureSetDefaults_FeatureSetEditionDefault_overridableFeatures m)) (option_map
    FeatureSet_norm (FeatureSetDefaults_FeatureSetEditionDefault_fixedFeatures m)).

Lemma FeatureSetDefaults_FeatureSetEditionDefault_fromPartial_toPartial :
  forall m, FeatureSetDefaults_FeatureSetEditionDefault_fromPartial
      (FeatureSetDefaults_FeatureSetEditionDefault_toPartial m)
      = FeatureSetDefaults_FeatureSetEditionDefault_norm m.
Proof. solve_fromPartial FeatureSetDefaults_FeatureSetEditionDefault_fromPartial
    FeatureSetDefaults_FeatureSetEditionDefault_toPartial
    FeatureSetDefaults_FeatureSetEditionDefault_norm. Qed.
#[export] Hint Rewrite FeatureSetDefaults_FeatureSetEditionDefault_fromPartial_toPartial : partials.

Definition FeatureSetDefaults_norm (m : FeatureSetDefaults) : FeatureSetDefaults :=
  mkFeatureSetDefaults (map FeatureSetDefaults_FeatureSetEditionDefault_norm
    (FeatureSetDefaults_defaults m)) (Some (default 0 (FeatureSetDefaults_minimumEdition m)))
    (Some (default 0 (FeatureSetDefaults_maximumEdition m))).

Lemma FeatureSetDefaults_fromPartial_toPartial :
  forall m, FeatureSetDefaults_fromPartial (FeatureSetDefaults_toPartial m)
      = FeatureSetDefaults_norm m.
Proof. solve_fromPartial FeatureSetDefaults_fromPartial FeatureSetDefaults_toPartial
    FeatureSetDefaults_norm. Qed.
#[export] Hint Rewrite FeatureSetDefaults_fromPartial_toPartial : partials.

Section Options2Wire.
Context {RT : WireRuntime} {L : WireLaws RT}.

Ltac EnumValueOptions_settle m :=
  eval cbv beta iota delta
    [createBaseEnumValueOptions EnumValueOptions_with_deprecated EnumValueOptions_with_features
      EnumValueOptions_with_debugRedact EnumValueOptions_with_featureSupport
      EnumValueOptions_with_uninterpretedOption EnumValueOptions_deprecated
      EnumValueOptions_features EnumValueOptions_debugRedact EnumValueOptions_featureSupport
      EnumValueOptions_uninterpretedOption] in m.

Definition EnumValueOptions_image (m : EnumValueOptions) : bytes :=
  match EnumValueOptions_deprecated m with
  | Some v => if negb (Bool.eqb v false) then enc_uint32 8 ++ enc_bool v else []
  | None => []
  end ++
  match EnumValueOptions_features m with Some v => delimited 18 (FeatureSet_image v) | None => []
      end ++
  match EnumValueOptions_debugRedact m with
  | Some v => if negb (Bool.eqb v false) then enc_uint32 24 ++ enc_bool v else []
  | None => []
  end ++
  match EnumValueOptions_featureSupport m with Some v => delimited 34
      (FieldOptions_FeatureSupport_image v) | None => [] end ++
  concat (map (fun v => delimited 7994 (UninterpretedOption_image v))
      (EnumValueOptions_uninterpretedOption m)) ++
  [].

Definition EnumValueOptions_ok (m : EnumValueOptions) : Prop :=
  opt_all (fun _ : bool => True) (EnumValueOptions_deprecated m) /\
  opt_all (fun v => FeatureSet_ok v /\ bytes_ok (FeatureSet_image v)) (EnumValueOptions_features m)
      /\
  opt_all (fun _ : bool => True) (EnumValueOptions_debugRedact m) /\
  opt_all (fun v => FieldOptions_FeatureSupport_ok v /\ bytes_ok (FieldOptions_FeatureSupport_image
      v)) (EnumValueOptions_featureSupport m) /\
  Forall (fun v => UninterpretedOption_ok v /\ bytes_ok (UninterpretedOption_image v))
      (EnumValueOptions_uninterpretedOption m).

Lemma EnumValueOptions_eats (F : nat) (m : EnumValueOptions) :
  EnumValueOptions_ok m -> eats (EnumValueOptions_switch F) F (EnumValueOptions_image m)
      createBaseEnumValueOptions (EnumValueOptions_norm m).
Proof.
  intros (H_deprecated & H_features & H_debugRedact & H_featureSupport & H_uninterpretedOption).
      unfold EnumValueOptions_image.
  settle EnumValueOptions_settle.
  eat_opt bool_scalar 8 EnumValueOptions_with_deprecated false; settle EnumValueOptions_settle.
  eat_message FeatureSet_codec 18 EnumValueOptions_with_features; settle EnumValueOptions_settle.
  eat_opt bool_scalar 24 EnumValueOptions_with_debugRedact false; settle EnumValueOptions_settle.
  eat_message FieldOptions_FeatureSupport_codec 34 EnumValueOptions_with_featureSupport;
      settle EnumValueOptions_settle.
  eat_messages UninterpretedOption_codec 7994 EnumValueOptions_with_uninterpretedOption;
      settle EnumValueOptions_settle.
  apply eats_nil.
Qed.

Lemma EnumValueOptions_codec : codec EnumValueOptions_encode EnumValueOptions_decode
    EnumValueOptions_norm EnumValueOptions_image EnumValueOptions_ok.
Proof.
  split.
  - intros m (H_deprecated & H_features & H_debugRedact & H_featureSupport &
      H_uninterpretedOption). unfold EnumValueOptions_encode, EnumValueOptions_image.
    write ltac:(write_scalar_as bool_scalar). write ltac:(write_message_as FeatureSet_codec).
        write ltac:(write_scalar_as bool_scalar). write ltac:(write_message_as
        FieldOptions_FeatureSupport_codec). write ltac:(write_message_as UninterpretedOption_codec).
    apply writes_ret.
  - intros m f r tl Hm Hr Hf. apply (decode_with_reads _ f);
      [by apply EnumValueOptions_eats|done|lia|done].
Qed.

Lemma EnumValueOptions_safe : safe_decode EnumValueOptions_decode.
Proof.
  apply (decode_with_safe EnumValueOptions_switch createBaseEnumValueOptions). intros F tag m r Hr.
      unfold EnumValueOptions_switch.
  solve_safe_switch.
Qed.
#[local] Hint Resolve EnumValueOptions_safe : model.

Ltac EnumOptions_settle m :=
  eval cbv beta iota delta
    [createBaseEnumOptions EnumOptions_with_allowAlias EnumOptions_with_deprecated
      EnumOptions_with_deprecatedLegacyJsonFieldConflicts EnumOptions_with_features
      EnumOptions_with_uninterpretedOption EnumOptions_allowAlias EnumOptions_deprecated
      EnumOptions_deprecatedLegacyJsonFieldConflicts EnumOptions_features
      EnumOptions_uninterpretedOption] in m.

Definition EnumOptions_image (m : EnumOptions) : bytes :=
  match EnumOptions_allowAlias m with
  | Some v => if negb (Bool.eqb v false) then enc_uint32 16 ++ enc_bool v else []
  | None => []
  end ++
  match EnumOptions_deprecated m with
  | Some v => if negb (Bool.eqb v false) then enc_uint32 24 ++ enc_bool v else []
  | None => []
  end ++
  match EnumOptions_deprecatedLegacyJsonFieldConflicts m with
  | Some v => if negb (Bool.eqb v false) then enc_uint32 48 ++ enc_bool v else []
  | None => []
  end ++
  match EnumOptions_features m with Some v => delimited 58 (FeatureSet_image v) | None => [] end ++
  concat (map (fun v => delimited 7994 (UninterpretedOption_image v))
      (EnumOptions_uninterpretedOption m)) ++
  [].

Definition EnumOptions_ok (m : EnumOptions) : Prop :=
  opt_all (fun _ : bool => True) (EnumOptions_allowAlias m) /\
  opt_all (fun _ : bool => True) (EnumOptions_deprecated m) /\
  opt_all (fun _ : bool => True) (EnumOptions_deprecatedLegacyJsonFieldConflicts m) /\
  opt_all (fun v => FeatureSet_ok v /\ bytes_ok (FeatureSet_image v)) (EnumOptions_features m) /\
  Forall (fun v => UninterpretedOption_ok v /\ bytes_ok (UninterpretedOption_image v))
      (EnumOptions_uninterpretedOption m).

Lemma EnumOptions_eats (F : nat) (m : EnumOptions) :
  EnumOptions_ok m -> eats (EnumOptions_switch F) F (EnumOptions_image m)
      createBaseEnumOptions (EnumOptions_norm m).
Proof.
  intros (H_allowAlias & H_deprecated & H_deprecatedLegacyJsonFieldConflicts & H_features &
      H_uninterpretedOption). unfold EnumOptions_image.
  settle EnumOptions_settle.
  eat_opt bool_scalar 16 EnumOptions_with_allowAlias false; settle EnumOptions_settle.
  eat_opt bool_scalar 24 EnumOptions_with_deprecated false; settle EnumOptions_settle.
  eat_opt bool_scalar 48 EnumOptions_with_deprecatedLegacyJsonFieldConflicts false;
      settle EnumOptions_settle.
  eat_message FeatureSet_codec 58 EnumOptions_with_features; settle EnumOptions_settle.
  eat_messages UninterpretedOption_codec 7994 EnumOptions_with_uninterpretedOption;
      settle EnumOptions_settle.
  apply eats_nil.
Qed.

Lemma EnumOptions_codec : codec EnumOptions_encode EnumOptions_decode EnumOptions_norm
    EnumOptions_image EnumOptions_ok.
Proof.
  split.
  - intros m (H_allowAlias & H_deprecated & H_deprecatedLegacyJsonFieldConflicts & H_features &
      H_uninterpretedOption). unfold EnumOptions_encode, EnumOptions_image.
    write ltac:(write_scalar_as bool_scalar). write ltac:(write_scalar_as bool_scalar).
        write ltac:(write_scalar_as bool_scalar). write ltac:(write_message_as FeatureSet_codec).
        write ltac:(write_message_as UninterpretedOption_codec).
    apply writes_ret.
  - intros m f r tl Hm Hr Hf. apply (decode_with_reads _ f);
      [by apply EnumOptions_eats|done|lia|done].
Qed.

Lemma EnumOptions_safe : safe_decode EnumOptions_decode.
Proof.
  apply (decode_with_safe EnumOptions_switch createBaseEnumOptions). intros F tag m r Hr.
      unfold EnumOptions_switch.
  solve_safe_switch.
Qed.
#[local] Hint Resolve EnumOptions_safe : model.

Ltac ExtensionRangeOptions_Declaration_settle m :=
  eval cbv beta iota delta
    [createBaseExtensionRangeOptions_Declaration ExtensionRangeOptions_Declaration_with_number
      ExtensionRangeOptions_Declaration_with_fullName ExtensionRangeOptions_Declaration_with_type
      ExtensionRangeOptions_Declaration_with_reserved
      ExtensionRangeOptions_Declaration_with_repeated ExtensionRangeOptions_Declaration_number
      ExtensionRangeOptions_Declaration_fullName ExtensionRangeOptions_Declaration_type
      ExtensionRangeOptions_Declaration_reserved ExtensionRangeOptions_Declaration_repeated] in m.

Definition ExtensionRangeOptions_Declaration_image (m : ExtensionRangeOptions_Declaration)
    : bytes :=
  match ExtensionRangeOptions_Declaration_number m with
  | Some v => if negb (num_eqb v (Int 0)) then enc_uint32 8 ++ enc_number enc_int32 v else []
  | None => []
  end ++
  match ExtensionRangeOptions_Declaration_fullName m with
  | Some v => if negb (str_eqb v (js "")) then enc_uint32 18 ++ enc_string v else []
  | None => []
  end ++
  match ExtensionRangeOptions_Declaration_type m with
  | Some v => if negb (str_eqb v (js "")) then enc_uint32 26 ++ enc_string v else []
  | None => []
  end ++
  match ExtensionRangeOptions_Declaration_reserved m with
  | Some v => if negb (Bool.eqb v false) then enc_uint32 40 ++ enc_bool v else []
  | None => []
  end ++
  match ExtensionRangeOptions_Declaration_repeated m with
  | Some v => if negb (Bool.eqb v false) then enc_uint32 48 ++ enc_bool v else []
  | None => []
  end ++
  [].

Definition ExtensionRangeOptions_Declaration_ok (m : ExtensionRangeOptions_Declaration) : Prop :=
  opt_all int32_ok (ExtensionRangeOptions_Declaration_number m) /\
  opt_all string_ok (ExtensionRangeOptions_Declaration_fullName m) /\
  opt_all string_ok (ExtensionRangeOptions_Declaration_type m) /\
  opt_all (fun _ : bool => True) (ExtensionRangeOptions_Declaration_reserved m) /\
  opt_all (fun _ : bool => True) (ExtensionRangeOptions_Declaration_repeated m).

Lemma ExtensionRangeOptions_Declaration_eats (F : nat) (m : ExtensionRangeOptions_Declaration) :
  ExtensionRangeOptions_Declaration_ok m -> eats (ExtensionRangeOptions_Declaration_switch F)
      F (ExtensionRangeOptions_Declaration_image m) createBaseExtensionRangeOptions_Declaration
      (ExtensionRangeOptions_Declaration_norm m).
Proof.
  intros (H_number & H_fullName & H_type & H_reserved & H_repeated).
      unfold ExtensionRangeOptions_Declaration_image.
  settle ExtensionRangeOptions_Declaration_settle.
  eat_opt int32_scalar 8 ExtensionRangeOptions_Declaration_with_number (Int 0);
      settle ExtensionRangeOptions_Declaration_settle.
  eat_opt string_scalar 18 ExtensionRangeOptions_Declaration_with_fullName (js "");
      settle ExtensionRangeOptions_Declaration_settle.
  eat_opt string_scalar 26 ExtensionRangeOptions_Declaration_with_type (js "");
      settle ExtensionRangeOptions_Declaration_settle.
  eat_opt bool_scalar 40 ExtensionRangeOptions_Declaration_with_reserved false;
      settle ExtensionRangeOptions_Declaration_settle.
  eat_opt bool_scalar 48 ExtensionRangeOptions_Declaration_with_repeated false;
      settle ExtensionRangeOptions_Declaration_settle.
  apply eats_nil.
Qed.

Lemma ExtensionRangeOptions_Declaration_codec : codec ExtensionRangeOptions_Declaration_encode
    ExtensionRangeOptions_Declaration_decode ExtensionRangeOptions_Declaration_norm
    ExtensionRangeOptions_Declaration_image ExtensionRangeOptions_Declaration_ok.
Proof.
  split.
  - intros m (H_number & H_fullName & H_type & H_reserved & H_repeated).
      unfold ExtensionRangeOptions_Declaration_encode, ExtensionRangeOptions_Declaration_image.
    write ltac:(write_scalar_as int32_scalar). write ltac:(write_scalar_as string_scalar).
        write ltac:(write_scalar_as string_scalar). write ltac:(write_scalar_as bool_scalar).
        write ltac:(write_scalar_as bool_scalar).
    apply writes_ret.
  - intros m f r tl Hm Hr Hf. apply (decode_with_reads _ f);
      [by apply ExtensionRangeOptions_Declaration_eats|done|lia|done].
Qed.

Lemma ExtensionRangeOptions_Declaration_safe : safe_decode ExtensionRangeOptions_Declaration_decode.
Proof.
  apply (decode_with_safe ExtensionRangeOptions_Declaration_switch
      createBaseExtensionRangeOptions_Declaration). intros F tag m r Hr.
      unfold ExtensionRangeOptions_Declaration_switch.
  solve_safe_switch.
Qed.
#[local] Hint Resolve ExtensionRangeOptions_Declaration_safe : model.

Ltac ExtensionRangeOptions_settle m :=
  eval cbv beta iota delta
    [createBaseExtensionRangeOptions ExtensionRangeOptions_with_uninterpretedOption
      ExtensionRangeOptions_with_declaration ExtensionRangeOptions_with_features
      ExtensionRangeOptions_with_verification ExtensionRangeOptions_uninterpretedOption
      ExtensionRangeOptions_declaration ExtensionRangeOptions_features
      ExtensionRangeOptions_verification] in m.

Definition ExtensionRangeOptions_image (m : ExtensionRangeOptions) : bytes :=
  concat (map (fun v => delimited 7994 (UninterpretedOption_image v))
      (ExtensionRangeOptions_uninterpretedOption m)) ++
  concat (map (fun v => delimited 18 (ExtensionRangeOptions_Declaration_image v))
      (ExtensionRangeOptions_declaration m)) ++
  match ExtensionRangeOptions_features m with Some v => delimited 402 (FeatureSet_image v)
      | None => [] end ++
  match ExtensionRangeOptions_verification m with
  | Some v => if negb (v =? 1) then enc_uint32 24 ++ enc_int32 v else []
  | None => []
  end ++
  [].

Definition ExtensionRangeOptions_ok (m : ExtensionRangeOptions) : Prop :=
  Forall (fun v => UninterpretedOption_ok v /\ bytes_ok (UninterpretedOption_image v))
      (ExtensionRangeOptions_uninterpretedOption m) /\
  Forall (fun v => ExtensionRangeOptions_Declaration_ok v /\
      bytes_ok (ExtensionRangeOptions_Declaration_image v)) (ExtensionRangeOptions_declaration m) /\
  opt_all (fun v => FeatureSet_ok v /\ bytes_ok (FeatureSet_image v))
      (ExtensionRangeOptions_features m) /\
  opt_all enum_ok (ExtensionRangeOptions_verification m).

Lemma ExtensionRangeOptions_eats (F : nat) (m : ExtensionRangeOptions) :
  ExtensionRangeOptions_ok m -> eats (ExtensionRangeOptions_switch F)
      F (ExtensionRangeOptions_image m) createBaseExtensionRangeOptions (ExtensionRangeOptions_norm
      m).
Proof.
  intros (H_uninterpretedOption & H_declaration & H_features & H_verification).
      unfold ExtensionRangeOptions_image.
  settle ExtensionRangeOptions_settle.
  eat_messages UninterpretedOption_codec 7994 ExtensionRangeOptions_with_uninterpretedOption;
      settle ExtensionRangeOptions_settle.
  eat_messages ExtensionRangeOptions_Declaration_codec 18 ExtensionRangeOptions_with_declaration;
      settle ExtensionRangeOptions_settle.
  eat_message FeatureSet_codec 402 ExtensionRangeOptions_with_features;
      settle ExtensionRangeOptions_settle.
  eat_opt enum_scalar 24 ExtensionRangeOptions_with_verification 1;
      settle ExtensionRangeOptions_settle.
  apply eats_nil.
Qed.

Lemma ExtensionRangeOptions_codec : codec ExtensionRangeOptions_encode ExtensionRangeOptions_decode
    ExtensionRangeOptions_norm ExtensionRangeOptions_image ExtensionRangeOptions_ok.
Proof.
  split.
  - intros m (H_uninterpretedOption & H_declaration & H_features & H_verification).
      unfold ExtensionRangeOptions_encode, ExtensionRangeOptions_image.
    write ltac:(write_message_as UninterpretedOption_codec).
        write ltac:(write_message_as ExtensionRangeOptions_Declaration_codec).
        write ltac:(write_message_as FeatureSet_codec). write ltac:(write_scalar_as enum_scalar).
    apply writes_ret.
  - intros m f r tl Hm Hr Hf. apply (decode_with_reads _ f);
      [by apply ExtensionRangeOptions_eats|done|lia|done].
Qed.

Lemma ExtensionRangeOptions_safe : safe_decode ExtensionRangeOptions_decode.
Proof.
  apply (decode_with_safe ExtensionRangeOptions_switch createBaseExtensionRangeOptions).
      intros F tag m r Hr. unfold ExtensionRangeOptions_switch.
  solve_safe_switch.
Qed.
#[local] Hint Resolve ExtensionRangeOptions_safe : model.

Ltac OneofOptions_settle m :=
  eval cbv beta iota delta
    [createBaseOneofOptions OneofOptions_with_features OneofOptions_with_uninterpretedOption
      OneofOptions_features OneofOptions_uninterpretedOption] in m.

Definition OneofOptions_image (m : OneofOptions) : bytes :=
  match OneofOptions_features m with Some v => delimited 10 (FeatureSet_image v) | None => [] end ++
  concat (map (fun v => delimited 7994 (UninterpretedOption_image v))
      (OneofOptions_uninterpretedOption m)) ++
  [].

Definition OneofOptions_ok (m : OneofOptions) : Prop :=
  opt_all (fun v => FeatureSet_ok v /\ bytes_ok (FeatureSet_image v)) (OneofOptions_features m) /\
  Forall (fun v => UninterpretedOption_ok v /\ bytes_ok (UninterpretedOption_image v))
      (OneofOptions_uninterpretedOption m).

Lemma OneofOptions_eats (F : nat) (m : OneofOptions) :
  OneofOptions_ok m -> eats (OneofOptions_switch F) F (OneofOptions_image m)
      createBaseOneofOptions (OneofOptions_norm m).
Proof.
  intros (H_features & H_uninterpretedOption). unfold OneofOptions_image.
  settle OneofOptions_settle.
  eat_message FeatureSet_codec 10 OneofOptions_with_features; settle OneofOptions_settle.
  eat_messages UninterpretedOption_codec 7994 OneofOptions_with_uninterpretedOption;
      settle OneofOptions_settle.
  apply eats_nil.
Qed.

Lemma OneofOptions_codec : codec OneofOptions_encode OneofOptions_decode OneofOptions_norm
    OneofOptions_image OneofOptions_ok.
Proof.
  split.
  - intros m (H_features & H_uninterpretedOption). unfold OneofOptions_encode, OneofOptions_image.
    write ltac:(write_message_as FeatureSet_codec). write ltac:(write_message_as
        UninterpretedOption_codec).
    apply writes_ret.
  - intros m f r tl Hm Hr Hf. apply (decode_with_reads _ f);
      [by apply OneofOptions_eats|done|lia|done].
Qed.

Lemma OneofOptions_safe : safe_decode OneofOptions_decode.
Proof.
  apply (decode_with_safe OneofOptions_switch createBaseOneofOptions). intros F tag m r Hr.
      unfold OneofOptions_switch.
  solve_safe_switch.
Qed.
#[local] Hint Resolve OneofOptions_safe : model.

Ltac MessageOptions_settle m :=
  eval cbv beta iota delta
    [createBaseMessageOptions MessageOptions_with_messageSetWireFormat
      MessageOptions_with_noStandardDescriptorAccessor MessageOptions_with_deprecated
      MessageOptions_with_mapEntry MessageOptions_with_deprecatedLegacyJsonFieldConflicts
      MessageOptions_with_features MessageOptions_with_uninterpretedOption
      MessageOptions_messageSetWireFormat MessageOptions_noStandardDescriptorAccessor
      MessageOptions_deprecated MessageOptions_mapEntry
      MessageOptions_deprecatedLegacyJsonFieldConflicts MessageOptions_features
      MessageOptions_uninterpretedOption] in m.

Definition MessageOptions_image (m : MessageOptions) : bytes :=
  match MessageOptions_messageSetWireFormat m with
  | Some v => if negb (Bool.eqb v false) then enc_uint32 8 ++ enc_bool v else []
  | None => []
  end ++
  match MessageOptions_noStandardDescriptorAccessor m with
  | Some v => if negb (Bool.eqb v false) then enc_uint32 16 ++ enc_bool v else []
  | None => []
  end ++
  match MessageOptions_deprecated m with
  | Some v => if negb (Bool.eqb v false) then enc_uint32 24 ++ enc_bool v else []
  | None => []
  end ++
  match MessageOptions_mapEntry m with
  | Some v => if negb (Bool.eqb v false) then enc_uint32 56 ++ enc_bool v else []
  | None => []
  end ++
  match MessageOptions_deprecatedLegacyJsonFieldConflicts m with
  | Some v => if negb (Bool.eqb v false) then enc_uint32 88 ++ enc_bool v else []
  | None => []
  end ++
  match MessageOptions_features m with Some v => delimited 98 (FeatureSet_image v) | None => []
      end ++
  concat (map (fun v => delimited 7994 (UninterpretedOption_image v))
      (MessageOptions_uninterpretedOption m)) ++
  [].

Definition MessageOptions_ok (m : MessageOptions) : Prop :=
  opt_all (fun _ : bool => True) (MessageOptions_messageSetWireFormat m) /\
  opt_all (fun _ : bool => True) (MessageOptions_noStandardDescriptorAccessor m) /\
  opt_all (fun _ : bool => True) (MessageOptions_deprecated m) /\
  opt_all (fun _ : bool => True) (MessageOptions_mapEntry m) /\
  opt_all (fun _ : bool => True) (MessageOptions_deprecatedLegacyJsonFieldConflicts m) /\
  opt_all (fun v => FeatureSet_ok v /\ bytes_ok (FeatureSet_image v)) (MessageOptions_features m) /\
  Forall (fun v => UninterpretedOption_ok v /\ bytes_ok (UninterpretedOption_image v))
      (MessageOptions_uninterpretedOption m).

Lemma MessageOptions_eats (F : nat) (m : MessageOptions) :
  MessageOptions_ok m -> eats (MessageOptions_switch F) F (MessageOptions_image m)
      createBaseMessageOptions (MessageOptions_norm m).
Proof.
  intros (H_messageSetWireFormat & H_noStandardDescriptorAccessor & H_deprecated & H_mapEntry &
      H_deprecatedLegacyJsonFieldConflicts & H_features & H_uninterpretedOption).
      unfold MessageOptions_image.
  settle MessageOptions_settle.
  eat_opt bool_scalar 8 MessageOptions_with_messageSetWireFormat false;
      settle MessageOptions_settle.
  eat_opt bool_scalar 16 MessageOptions_with_noStandardDescriptorAccessor false;
      settle MessageOptions_settle.
  eat_opt bool_scalar 24 MessageOptions_with_deprecated false; settle MessageOptions_settle.
  eat_opt bool_scalar 56 MessageOptions_with_mapEntry false; settle MessageOptions_settle.
  eat_opt bool_scalar 88 MessageOptions_with_deprecatedLegacyJsonFieldConflicts false;
      settle MessageOptions_settle.
  eat_message FeatureSet_codec 98 MessageOptions_with_features; settle MessageOptions_settle.
  eat_messages UninterpretedOption_codec 7994 MessageOptions_with_uninterpretedOption;
      settle MessageOptions_settle.
  apply eats_nil.
Qed.

Lemma MessageOptions_codec : codec MessageOptions_encode MessageOptions_decode MessageOptions_norm
    MessageOptions_image MessageOptions_ok.
Proof.
  split.
  - intros m (H_messageSetWireFormat & H_noStandardDescriptorAccessor & H_deprecated & H_mapEntry &
      H_deprecatedLegacyJsonFieldConflicts & H_features & H_uninterpretedOption).
      unfold MessageOptions_encode, MessageOptions_image.
    write ltac:(write_scalar_as bool_scalar). write ltac:(write_scalar_as bool_scalar).
        write ltac:(write_scalar_as bool_scalar). write ltac:(write_scalar_as bool_scalar).
        write ltac:(write_scalar_as bool_scalar). write ltac:(write_message_as FeatureSet_codec).
        write ltac:(write_message_as UninterpretedOption_codec).
    apply writes_ret.
  - intros m f r tl Hm Hr Hf. apply (decode_with_reads _ f);
      [by apply MessageOptions_eats|done|lia|done].
Qed.

Lemma MessageOptions_safe : safe_decode MessageOptions_decode.
Proof.
  apply (decode_with_safe MessageOptions_switch createBaseMessageOptions). intros F tag m r Hr.
      unfold MessageOptions_switch.
  solve_safe_switch.
Qed.
#[local] Hint Resolve MessageOptions_safe : model.

Ltac MethodOptions_settle m :=
  eval cbv beta iota delta
    [createBaseMethodOptions MethodOptions_with_deprecated MethodOptions_with_idempotencyLevel
      MethodOptions_with_features MethodOptions_with_uninterpretedOption MethodOptions_deprecated
      MethodOptions_idempotencyLevel MethodOptions_features MethodOptions_uninterpretedOption] in
      m.

Definition MethodOptions_image (m : MethodOptions) : bytes :=
  match MethodOptions_deprecated m with
  | Some v => if negb (Bool.eqb v false) then enc_uint32 264 ++ enc_bool v else []
  | None => []
  end ++
  match MethodOptions_idempotencyLevel m with
  | Some v => if negb (v =? 0) then enc_uint32 272 ++ enc_int32 v else []
  | None => []
  end ++
  match MethodOptions_features m with Some v => delimited 282 (FeatureSet_image v) | None => []
      end ++
  concat (map (fun v => delimited 7994 (UninterpretedOption_image v))
      (MethodOptions_uninterpretedOption m)) ++
  [].

Definition MethodOptions_ok (m : MethodOptions) : Prop :=
  opt_all (fun _ : bool => True) (MethodOptions_deprecated m) /\
  opt_all enum_ok (MethodOptions_idempotencyLevel m) /\
  opt_all (fun v => FeatureSet_ok v /\ bytes_ok (FeatureSet_image v)) (MethodOptions_features m) /\
  Forall (fun v => UninterpretedOption_ok v /\ bytes_ok (UninterpretedOption_image v))
      (MethodOptions_uninterpretedOption m).

Lemma MethodOptions_eats (F : nat) (m : MethodOptions) :
  MethodOptions_ok m -> eats (MethodOptions_switch F) F (MethodOptions_image m)
      createBaseMethodOptions (MethodOptions_norm m).
Proof.
  intros (H_deprecated & H_idempotencyLevel & H_features & H_uninterpretedOption).
      unfold MethodOptions_image.
  settle MethodOptions_settle.
  eat_opt bool_scalar 264 MethodOptions_with_deprecated false; settle MethodOptions_settle.
  eat_opt enum_scalar 272 MethodOptions_with_idempotencyLevel 0; settle MethodOptions_settle.
  eat_message FeatureSet_codec 282 MethodOptions_with_features; settle MethodOptions_settle.
  eat_messages UninterpretedOption_codec 7994 MethodOptions_with_uninterpretedOption;
      settle MethodOptions_settle.
  apply eats_nil.
Qed.

Lemma MethodOptions_codec : codec MethodOptions_encode MethodOptions_decode MethodOptions_norm
    MethodOptions_image MethodOptions_ok.
Proof.
  split.
  - intros m (H_deprecated & H_idempotencyLevel & H_features & H_uninterpretedOption).
      unfold MethodOptions_encode, MethodOptions_image.
    write ltac:(write_scalar_as bool_scalar). write ltac:(write_scalar_as enum_scalar).
        write ltac:(write_message_as FeatureSet_codec). write ltac:(write_message_as
        UninterpretedOption_codec).
    apply writes_ret.
  - intros m f r tl Hm Hr Hf. apply (decode_with_reads _ f);
      [by apply MethodOptions_eats|done|lia|done].
Qed.

Lemma MethodOptions_safe : safe_decode MethodOptions_decode.
Proof.
  apply (decode_with_safe MethodOptions_switch createBaseMethodOptions). intros F tag m r Hr.
      unfold MethodOptions_switch.
  solve_safe_switch.
Qed.
#[local] Hint Resolve MethodOptions_safe : model.

Ltac ServiceOptions_settle m :=
  eval cbv beta iota delta
    [createBaseServiceOptions ServiceOptions_with_features ServiceOptions_with_deprecated
      ServiceOptions_with_uninterpretedOption ServiceOptions_features ServiceOptions_deprecated
      ServiceOptions_uninterpretedOption] in m.

Definition ServiceOptions_image (m : ServiceOptions) : bytes :=
  match ServiceOptions_features m with Some v => delimited 274 (FeatureSet_image v) | None => []
      end ++
  match ServiceOptions_deprecated m with
  | Some v => if negb (Bool.eqb v false) then enc_uint32 264 ++ enc_bool v else []
  | None => []
  end ++
  concat (map (fun v => delimited 7994 (UninterpretedOption_image v))
      (ServiceOptions_uninterpretedOption m)) ++
  [].

Definition ServiceOptions_ok (m : ServiceOptions) : Prop :=
  opt_all (fun v => FeatureSet_ok v /\ bytes_ok (FeatureSet_image v)) (ServiceOptions_features m) /\
  opt_all (fun _ : bool => True) (ServiceOptions_deprecated m) /\
  Forall (fun v => UninterpretedOption_ok v /\ bytes_ok (UninterpretedOption_image v))
      (ServiceOptions_uninterpretedOption m).

Lemma ServiceOptions_eats (F : nat) (m : ServiceOptions) :
  ServiceOptions_ok m -> eats (ServiceOptions_switch F) F (ServiceOptions_image m)
      createBaseServiceOptions (ServiceOptions_norm m).
Proof.
  intros (H_features & H_deprecated & H_uninterpretedOption). unfold ServiceOptions_image.
  settle ServiceOptions_settle.
  eat_message FeatureSet_codec 274 ServiceOptions_with_features; settle ServiceOptions_settle.
  eat_opt bool_scalar 264 ServiceOptions_with_deprecated false; settle ServiceOptions_settle.
  eat_messages UninterpretedOption_codec 7994 ServiceOptions_with_uninterpretedOption;
      settle ServiceOptions_settle.
  apply eats_nil.
Qed.

Lemma ServiceOptions_codec : codec ServiceOptions_encode ServiceOptions_decode ServiceOptions_norm
    ServiceOptions_image ServiceOptions_ok.
Proof.
  split.
  - intros m (H_features & H_deprecated & H_uninterpretedOption).
      unfold ServiceOptions_encode, ServiceOptions_image.
    write ltac:(write_message_as FeatureSet_codec). write ltac:(write_scalar_as bool_scalar).
        write ltac:(write_message_as UninterpretedOption_codec).
    apply writes_ret.
  - intros m f r tl Hm Hr Hf. apply (decode_with_reads _ f);
      [by apply ServiceOptions_eats|done|lia|done].
Qed.

Lemma ServiceOptions_safe : safe_decode ServiceOptions_decode.
Proof.
  apply (decode_with_safe ServiceOptions_switch createBaseServiceOptions). intros F tag m r Hr.
      unfold ServiceOptions_switch.
  solve_safe_switch.
Qed.
#[local] Hint Resolve ServiceOptions_safe : model.

Ltac FileOptions_settle m :=
  eval cbv beta iota delta
    [createBaseFileOptions FileOptions_with_javaPackage FileOptions_with_javaOuterClassname
      FileOptions_with_javaMultipleFiles FileOptions_with_javaGenerateEqualsAndHash
      FileOptions_with_javaStringCheckUtf8 FileOptions_with_optimizeFor FileOptions_with_goPackage
      FileOptions_with_ccGenericServices FileOptions_with_javaGenericServices
      FileOptions_with_pyGenericServices FileOptions_with_deprecated
      FileOptions_with_ccEnableArenas FileOptions_with_objcClassPrefix
      FileOptions_with_csharpNamespace FileOptions_with_swiftPrefix
      FileOptions_with_phpClassPrefix FileOptions_with_phpNamespace
      FileOptions_with_phpMetadataNamespace FileOptions_with_rubyPackage FileOptions_with_features
      FileOptions_with_uninterpretedOption FileOptions_javaPackage FileOptions_javaOuterClassname
      FileOptions_javaMultipleFiles FileOptions_javaGenerateEqualsAndHash
      FileOptions_javaStringCheckUtf8 FileOptions_optimizeFor FileOptions_goPackage
      FileOptions_ccGenericServices FileOptions_javaGenericServices FileOptions_pyGenericServices
      FileOptions_deprecated FileOptions_ccEnableArenas FileOptions_objcClassPrefix
      FileOptions_csharpNamespace FileOptions_swiftPrefix FileOptions_phpClassPrefix
      FileOptions_phpNamespace FileOptions_phpMetadataNamespace FileOptions_rubyPackage
      FileOptions_features FileOptions_uninterpretedOption] in m.

Definition FileOptions_image (m : FileOptions) : bytes :=
  match FileOptions_javaPackage m with
  | Some v => if negb (str_eqb v (js "")) then enc_uint32 10 ++ enc_string v else []
  | None => []
  end ++
  match FileOptions_javaOuterClassname m with
  | Some v => if negb (str_eqb v (js "")) then enc_uint32 66 ++ enc_string v else []
  | None => []
  end ++
  match FileOptions_javaMultipleFiles m with
  | Some v => if negb (Bool.eqb v false) then enc_uint32 80 ++ enc_bool v else []
  | None => []
  end ++
  match FileOptions_javaGenerateEqualsAndHash m with
  | Some v => if negb (Bool.eqb v false) then enc_uint32 160 ++ enc_bool v else []
  | None => []
  end ++
  match FileOptions_javaStringCheckUtf8 m with
  | Some v => if negb (Bool.eqb v false) then enc_uint32 216 ++ enc_bool v else []
  | None => []
  end ++
  match FileOptions_optimizeFor m with
  | Some v => if negb (v =? 1) then enc_uint32 72 ++ enc_int32 v else []
  | None => []
  end ++
  match FileOptions_goPackage m with
  | Some v => if negb (str_eqb v (js "")) then enc_uint32 90 ++ enc_string v else []
  | None => []
  end ++
  match FileOptions_ccGenericServices m with
  | Some v => if negb (Bool.eqb v false) then enc_uint32 128 ++ enc_bool v else []
  | None => []
  end ++
  match FileOptions_javaGenericServices m with
  | Some v => if negb (Bool.eqb v false) then enc_uint32 136 ++ enc_bool v else []
  | None => []
  end ++
  match FileOptions_pyGenericServices m with
  | Some v => if negb (Bool.eqb v false) then enc_uint32 144 ++ enc_bool v else []
  | None => []
  end ++
  match FileOptions_deprecated m with
  | Some v => if negb (Bool.eqb v false) then enc_uint32 184 ++ enc_bool v else []
  | None => []
  end ++
  match FileOptions_ccEnableArenas m with
  | Some v => if negb (Bool.eqb v true) then enc_uint32 248 ++ enc_bool v else []
  | None => []
  end ++
  match FileOptions_objcClassPrefix m with
  | Some v => if negb (str_eqb v (js "")) then enc_uint32 290 ++ enc_string v else []
  | None => []
  end ++
  match FileOptions_csharpNamespace m with
  | Some v => if negb (str_eqb v (js "")) then enc_uint32 298 ++ enc_string v else []
  | None => []
  end ++
  match FileOptions_swiftPrefix m with
  | Some v => if negb (str_eqb v (js "")) then enc_uint32 314 ++ enc_string v else []
  | None => []
  end ++
  match FileOptions_phpClassPrefix m with
  | Some v => if negb (str_eqb v (js "")) then enc_uint32 322 ++ enc_string v else []
  | None => []
  end ++
  match FileOptions_phpNamespace m with
  | Some v => if negb (str_eqb v (js "")) then enc_uint32 330 ++ enc_string v else []
  | None => []
  end ++
  match FileOptions_phpMetadataNamespace m with
  | Some v => if negb (str_eqb v (js "")) then enc_uint32 354 ++ enc_string v else []
  | None => []
  end ++
  match FileOptions_rubyPackage m with
  | Some v => if negb (str_eqb v (js "")) then enc_uint32 362 ++ enc_string v else []
  | None => []
  end ++
  match FileOptions_features m with Some v => delimited 402 (FeatureSet_image v) | None => [] end ++
  concat (map (fun v => delimited 7994 (UninterpretedOption_image v))
      (FileOptions_uninterpretedOption m)) ++
  [].

Definition FileOptions_ok (m : FileOptions) : Prop :=
  opt_all string_ok (FileOptions_javaPackage m) /\
  opt_all string_ok (FileOptions_javaOuterClassname m) /\
  opt_all (fun _ : bool => True) (FileOptions_javaMultipleFiles m) /\
  opt_all (fun _ : bool => True) (FileOptions_javaGenerateEqualsAndHash m) /\
  opt_all (fun _ : bool => True) (FileOptions_javaStringCheckUtf8 m) /\
  opt_all enum_ok (FileOptions_optimizeFor m) /\
  opt_all string_ok (FileOptions_goPackage m) /\
  opt_all (fun _ : bool => True) (FileOptions_ccGenericServices m) /\
  opt_all (fun _ : bool => True) (FileOptions_javaGenericServices m) /\
  opt_all (fun _ : bool => True) (FileOptions_pyGenericServices m) /\
  opt_all (fun _ : bool => True) (FileOptions_deprecated m) /\
  opt_all (fun _ : bool => True) (FileOptions_ccEnableArenas m) /\
  opt_all string_ok (FileOptions_objcClassPrefix m) /\
  opt_all string_ok (FileOptions_csharpNamespace m) /\
  opt_all string_ok (FileOptions_swiftPrefix m) /\
  opt_all string_ok (FileOptions_phpClassPrefix m) /\
  opt_all string_ok (FileOptions_phpNamespace m) /\
  opt_all string_ok (FileOptions_phpMetadataNamespace m) /\
  opt_all string_ok (FileOptions_rubyPackage m) /\
  opt_all (fun v => FeatureSet_ok v /\ bytes_ok (FeatureSet_image v)) (FileOptions_features m) /\
  Forall (fun v => UninterpretedOption_ok v /\ bytes_ok (UninterpretedOption_image v))
      (FileOptions_uninterpretedOption m).

Lemma FileOptions_eats (F : nat) (m : FileOptions) :
  FileOptions_ok m -> eats (FileOptions_switch F) F (FileOptions_image m)
      createBaseFileOptions (FileOptions_norm m).
Proof.
  intros (H_javaPackage & H_javaOuterClassname & H_javaMultipleFiles &
      H_javaGenerateEqualsAndHash & H_javaStringCheckUtf8 & H_optimizeFor & H_goPackage &
      H_ccGenericServices & H_javaGenericServices & H_pyGenericServices & H_deprecated &
      H_ccEnableArenas & H_objcClassPrefix & H_csharpNamespace & H_swiftPrefix & H_phpClassPrefix &
      H_phpNamespace & H_phpMetadataNamespace & H_rubyPackage & H_features &
      H_uninterpretedOption). unfold FileOptions_image.
  settle FileOptions_settle.
  eat_opt string_scalar 10 FileOptions_with_javaPackage (js ""); settle FileOptions_settle.
  eat_opt string_scalar 66 FileOptions_with_javaOuterClassname (js ""); settle FileOptions_settle.
  eat_opt bool_scalar 80 FileOptions_with_javaMultipleFiles false; settle FileOptions_settle.
  eat_opt bool_scalar 160 FileOptions_with_javaGenerateEqualsAndHash false;
      settle FileOptions_settle.
  eat_opt bool_scalar 216 FileOptions_with_javaStringCheckUtf8 false; settle FileOptions_settle.
  eat_opt enum_scalar 72 FileOptions_with_optimizeFor 1; settle FileOptions_settle.
  eat_opt string_scalar 90 FileOptions_with_goPackage (js ""); settle FileOptions_settle.
  eat_opt bool_scalar 128 FileOptions_with_ccGenericServices false; settle FileOptions_settle.
  eat_opt bool_scalar 136 FileOptions_with_javaGenericServices false; settle FileOptions_settle.
  eat_opt bool_scalar 144 FileOptions_with_pyGenericServices false; settle FileOptions_settle.
  eat_opt bool_scalar 184 FileOptions_with_deprecated false; settle FileOptions_settle.
  eat_opt bool_scalar 248 FileOptions_with_ccEnableArenas true; settle FileOptions_settle.
  eat_opt string_scalar 290 FileOptions_with_objcClassPrefix (js ""); settle FileOptions_settle.
  eat_opt string_scalar 298 FileOptions_with_csharpNamespace (js ""); settle FileOptions_settle.
  eat_opt string_scalar 314 FileOptions_with_swiftPrefix (js ""); settle FileOptions_settle.
  eat_opt string_scalar 322 FileOptions_with_phpClassPrefix (js ""); settle FileOptions_settle.
  eat_opt string_scalar 330 FileOptions_with_phpNamespace (js ""); settle FileOptions_settle.
  eat_opt string_scalar 354 FileOptions_with_phpMetadataNamespace (js "");
      settle FileOptions_settle.
  eat_opt string_scalar 362 FileOptions_with_rubyPackage (js ""); settle FileOptions_settle.
  eat_message FeatureSet_codec 402 FileOptions_with_features; settle FileOptions_settle.
  eat_messages UninterpretedOption_codec 7994 FileOptions_with_uninterpretedOption;
      settle FileOptions_settle.
  apply eats_nil.
Qed.

Lemma FileOptions_codec : codec FileOptions_encode FileOptions_decode FileOptions_norm
    FileOptions_image FileOptions_ok.
Proof.
  split.
  - intros m (H_javaPackage & H_javaOuterClassname & H_javaMultipleFiles &
      H_javaGenerateEqualsAndHash & H_javaStringCheckUtf8 & H_optimizeFor & H_goPackage &
      H_ccGenericServices & H_javaGenericServices & H_pyGenericServices & H_deprecated &
      H_ccEnableArenas & H_objcClassPrefix & H_csharpNamespace & H_swiftPrefix & H_phpClassPrefix &
      H_phpNamespace & H_phpMetadataNamespace & H_rubyPackage & H_features &
      H_uninterpretedOption). unfold FileOptions_encode, FileOptions_image.
    write ltac:(write_scalar_as string_scalar). write ltac:(write_scalar_as string_scalar).
        write ltac:(write_scalar_as bool_scalar). write ltac:(write_scalar_as bool_scalar).
        write ltac:(write_scalar_as bool_scalar). write ltac:(write_scalar_as enum_scalar).
        write ltac:(write_scalar_as string_scalar). write ltac:(write_scalar_as bool_scalar).
        write ltac:(write_scalar_as bool_scalar). write ltac:(write_scalar_as bool_scalar).
        write ltac:(write_scalar_as bool_scalar). write ltac:(write_scalar_as bool_scalar).
        write ltac:(write_scalar_as string_scalar). write ltac:(write_scalar_as string_scalar).
        write ltac:(write_scalar_as string_scalar). write ltac:(write_scalar_as string_scalar).
        write ltac:(write_scalar_as string_scalar). write ltac:(write_scalar_as string_scalar).
        write ltac:(write_scalar_as string_scalar). write ltac:(write_message_as FeatureSet_codec).
        write ltac:(write_message_as UninterpretedOption_codec).
    apply writes_ret.
  - intros m f r tl Hm Hr Hf. apply (decode_with_reads _ f);
      [by apply FileOptions_eats|done|lia|done].
Qed.

Lemma FileOptions_safe : safe_decode FileOptions_decode.
Proof.
  apply (decode_with_safe FileOptions_switch createBaseFileOptions). intros F tag m r Hr.
      unfold FileOptions_switch.
  solve_safe_switch.
Qed.
#[local] Hint Resolve FileOptions_safe : model.

Definition FeatureSet_VisibilityFeature_image (_ : FeatureSet_VisibilityFeature) : bytes :=
  [].

Definition FeatureSet_VisibilityFeature_ok (_ : FeatureSet_VisibilityFeature) : Prop :=
  True.

Lemma FeatureSet_VisibilityFeature_eats (F : nat) (m : FeatureSet_VisibilityFeature) :
  FeatureSet_VisibilityFeature_ok m -> eats (FeatureSet_VisibilityFeature_switch F)
      F (FeatureSet_VisibilityFeature_image m) createBaseFeatureSet_VisibilityFeature
      (FeatureSet_VisibilityFeature_norm m).
Proof.
  intros _. unfold FeatureSet_VisibilityFeature_image.
  idtac.
  apply eats_nil.
Qed.

Lemma FeatureSet_VisibilityFeature_codec : codec FeatureSet_VisibilityFeature_encode
    FeatureSet_VisibilityFeature_decode FeatureSet_VisibilityFeature_norm
    FeatureSet_VisibilityFeature_image FeatureSet_VisibilityFeature_ok.
Proof.
  split.
  - intros m _. unfold FeatureSet_VisibilityFeature_encode, FeatureSet_VisibilityFeature_image.
    
    apply writes_ret.
  - intros m f r tl Hm Hr Hf. apply (decode_with_reads _ f);
      [by apply FeatureSet_VisibilityFeature_eats|done|lia|done].
Qed.

Lemma FeatureSet_VisibilityFeature_safe : safe_decode FeatureSet_VisibilityFeature_decode.
Proof.
  apply (decode_with_safe FeatureSet_VisibilityFeature_switch
      createBaseFeatureSet_VisibilityFeature). intros F tag m r Hr.
      unfold FeatureSet_VisibilityFeature_switch.
  solve_safe_switch.
Qed.
#[local] Hint Resolve FeatureSet_VisibilityFeature_safe : model.

Ltac FeatureSetDefaults_FeatureSetEditionDefault_settle m :=
  eval cbv beta iota delta
    [createBaseFeatureSetDefaults_FeatureSetEditionDefault
      FeatureSetDefaults_FeatureSetEditionDefault_with_edition
      FeatureSetDefaults_FeatureSetEditionDefault_with_overridableFeatures
      FeatureSetDefaults_FeatureSetEditionDefault_with_fixedFeatures
      FeatureSetDefaults_FeatureSetEditionDefault_edition
      FeatureSetDefaults_FeatureSetEditionDefault_overridableFeatures
      FeatureSetDefaults_FeatureSetEditionDefault_fixedFeatures] in m.

Definition FeatureSetDefaults_FeatureSetEditionDefault_image (m :
    FeatureSetDefaults_FeatureSetEditionDefault) : bytes :=
  match FeatureSetDefaults_FeatureSetEditionDefault_edition m with
  | Some v => if negb (v =? 0) then enc_uint32 24 ++ enc_int32 v else []
  | None => []
  end ++
  match FeatureSetDefaults_FeatureSetEditionDefault_overridableFeatures m with Some v => delimited
      34 (FeatureSet_image v) | None => [] end ++
  match FeatureSetDefaults_FeatureSetEditionDefault_fixedFeatures m with Some v => delimited 42
      (FeatureSet_image v) | None => [] end ++
  [].

Definition FeatureSetDefaults_FeatureSetEditionDefault_ok (m :
    FeatureSetDefaults_FeatureSetEditionDefault) : Prop :=
  opt_all enum_ok (FeatureSetDefaults_FeatureSetEditionDefault_edition m) /\
  opt_all (fun v => FeatureSet_ok v /\ bytes_ok (FeatureSet_image v))
      (FeatureSetDefaults_FeatureSetEditionDefault_overridableFeatures m) /\
  opt_all (fun v => FeatureSet_ok v /\ bytes_ok (FeatureSet_image v))
      (FeatureSetDefaults_FeatureSetEditionDefault_fixedFeatures m).

Lemma FeatureSetDefaults_FeatureSetEditionDefault_eats (F : nat)
    (m : FeatureSetDefaults_FeatureSetEditionDefault) :
  FeatureSetDefaults_FeatureSetEditionDefault_ok m -> eats
      (FeatureSetDefaults_FeatureSetEditionDefault_switch F)
      F (FeatureSetDefaults_FeatureSetEditionDefault_image m)
      createBaseFeatureSetDefaults_FeatureSetEditionDefault
      (FeatureSetDefaults_FeatureSetEditionDefault_norm m).
Proof.
  intros (H_edition & H_overridableFeatures & H_fixedFeatures).
      unfold FeatureSetDefaults_FeatureSetEditionDefault_image.
  settle FeatureSetDefaults_FeatureSetEditionDefault_settle.
  eat_opt enum_scalar 24 FeatureSetDefaults_FeatureSetEditionDefault_with_edition 0;
      settle FeatureSetDefaults_FeatureSetEditionDefault_settle.
  eat_message FeatureSet_codec 34
      FeatureSetDefaults_FeatureSetEditionDefault_with_overridableFeatures;
      settle FeatureSetDefaults_FeatureSetEditionDefault_settle.
  eat_message FeatureSet_codec 42 FeatureSetDefaults_FeatureSetEditionDefault_with_fixedFeatures;
      settle FeatureSetDefaults_FeatureSetEditionDefault_settle.
  apply eats_nil.
Qed.

Lemma FeatureSetDefaults_FeatureSetEditionDefault_codec : codec
    FeatureSetDefaults_FeatureSetEditionDefault_encode
    FeatureSetDefaults_FeatureSetEditionDefault_decode
    FeatureSetDefaults_FeatureSetEditionDefault_norm
    FeatureSetDefaults_FeatureSetEditionDefault_image
    FeatureSetDefaults_FeatureSetEditionDefault_ok.
Proof.
  split.
  - intros m (H_edition & H_overridableFeatures & H_fixedFeatures).
      unfold FeatureSetDefaults_FeatureSetEditionDefault_encode,
      FeatureSetDefaults_FeatureSetEditionDefault_image.
    write ltac:(write_scalar_as enum_scalar). write ltac:(write_message_as FeatureSet_codec).
        write ltac:(write_message_as FeatureSet_codec).
    apply writes_ret.
  - intros m f r tl Hm Hr Hf. apply (decode_with_reads _ f);
      [by apply FeatureSetDefaults_FeatureSetEditionDefault_eats|done|lia|done].
Qed.

Lemma FeatureSetDefaults_FeatureSetEditionDefault_safe : safe_decode
    FeatureSetDefaults_FeatureSetEditionDefault_decode.
Proof.
  apply (decode_with_safe FeatureSetDefaults_FeatureSetEditionDefault_switch
      createBaseFeatureSetDefaults_FeatureSetEditionDefault). intros F tag m r Hr.
      unfold FeatureSetDefaults_FeatureSetEditionDefault_switch.
  solve_safe_switch.
Qed.
#[local] Hint Resolve FeatureSetDefaults_FeatureSetEditionDefault_safe : model.

Ltac FeatureSetDefaults_settle m :=
  eval cbv beta iota delta
    [createBaseFeatureSetDefaults FeatureSetDefaults_with_defaults
      FeatureSetDefaults_with_minimumEdition FeatureSetDefaults_with_maximumEdition
      FeatureSetDefaults_defaults FeatureSetDefaults_minimumEdition
      FeatureSetDefaults_maximumEdition] in m.

Definition FeatureSetDefaults_image (m : FeatureSetDefaults) : bytes :=
  concat (map (fun v => delimited 10 (FeatureSetDefaults_FeatureSetEditionDefault_image v))
      (FeatureSetDefaults_defaults m)) ++
  match FeatureSetDefaults_minimumEdition m with
  | Some v => if negb (v =? 0) then enc_uint32 32 ++ enc_int32 v else []
  | None => []
  end ++
  match FeatureSetDefaults_maximumEdition m with
  | Some v => if negb (v =? 0) then enc_uint32 40 ++ enc_int32 v else []
  | None => []
  end ++
  [].

Definition FeatureSetDefaults_ok (m : FeatureSetDefaults) : Prop :=
  Forall (fun v => FeatureSetDefaults_FeatureSetEditionDefault_ok v /\
      bytes_ok (FeatureSetDefaults_FeatureSetEditionDefault_image v))
      (FeatureSetDefaults_defaults m) /\
  opt_all enum_ok (FeatureSetDefaults_minimumEdition m) /\
  opt_all enum_ok (FeatureSetDefaults_maximumEdition m).

Lemma FeatureSetDefaults_eats (F : nat) (m : FeatureSetDefaults) :
  FeatureSetDefaults_ok m -> eats (FeatureSetDefaults_switch F) F (FeatureSetDefaults_image m)
      createBaseFeatureSetDefaults (FeatureSetDefaults_norm m).
Proof.
  intros (H_defaults & H_minimumEdition & H_maximumEdition). unfold FeatureSetDefaults_image.
  settle FeatureSetDefaults_settle.
  eat_messages FeatureSetDefaults_FeatureSetEditionDefault_codec 10
      FeatureSetDefaults_with_defaults; settle FeatureSetDefaults_settle.
  eat_opt enum_scalar 32 FeatureSetDefaults_with_minimumEdition 0; settle FeatureSetDefaults_settle.
  eat_opt enum_scalar 40 FeatureSetDefaults_with_maximumEdition 0; settle FeatureSetDefaults_settle.
  apply eats_nil.
Qed.

Lemma FeatureSetDefaults_codec : codec FeatureSetDefaults_encode FeatureSetDefaults_decode
    FeatureSetDefaults_norm FeatureSetDefaults_image FeatureSetDefaults_ok.
Proof.
  split.
  - intros m (H_defaults & H_minimumEdition & H_maximumEdition).
      unfold FeatureSetDefaults_encode, FeatureSetDefaults_image.
    write ltac:(write_message_as FeatureSetDefaults_FeatureSetEditionDefault_codec).
        write ltac:(write_scalar_as enum_scalar). write ltac:(write_scalar_as enum_scalar).
    apply writes_ret.
  - intros m f r tl Hm Hr Hf. apply (decode_with_reads _ f);
      [by apply FeatureSetDefaults_eats|done|lia|done].
Qed.

Lemma FeatureSetDefaults_safe : safe_decode FeatureSetDefaults_decode.
Proof.
  apply (decode_with_safe FeatureSetDefaults_switch createBaseFeatureSetDefaults).
      intros F tag m r Hr. unfold FeatureSetDefaults_switch.
  solve_safe_switch.
Qed.
#[local] Hint Resolve FeatureSetDefaults_safe : model.
End Options2Wire.

#[export] Hint Resolve EnumValueOptions_safe EnumOptions_safe
    ExtensionRangeOptions_Declaration_safe ExtensionRangeOptions_safe OneofOptions_safe
    MessageOptions_safe MethodOptions_safe ServiceOptions_safe FileOptions_safe
    FeatureSet_VisibilityFeature_safe FeatureSetDefaults_FeatureSetEditionDefault_safe
    FeatureSetDefaults_safe : model.
