(* ===== verification/DescriptorFacts.v ===== *)
(** The wire format of the descriptor messages: images, normal forms, and that decoding
    inverts encoding and terminates, nested message types included. *)

From stdpp Require Import base list numbers strings.
From Stdlib Require Import Strings.Byte ZArith Lia.
From S2P Require Import Prelude JsNumber JsValue Wire WireFacts DescriptorBase DescriptorEnums.
From S2P Require Import DescriptorOptions DescriptorOptions2 Descriptor DescriptorOptionsFacts.
From S2P Require Import DescriptorOptions2Facts.
Local Open Scope Z_scope.

Definition FieldDescriptorProto_norm (m : FieldDescriptorProto) : FieldDescriptorProto :=
  mkFieldDescriptorProto (Some (default (js "") (FieldDescriptorProto_name m))) (Some (default
    (Int 0) (FieldDescriptorProto_number m))) (Some (default 1 (FieldDescriptorProto_label m)))
    (Some (default 1 (FieldDescriptorProto_type m))) (Some (default (js "")
    (FieldDescriptorProto_typeName m))) (Some (default (js "") (FieldDescriptorProto_extendee m)))
    (Some (default (js "") (FieldDescriptorProto_defaultValue m))) (Some (default (Int 0)
    (FieldDescriptorProto_oneofIndex m))) (Some (default (js "") (FieldDescriptorProto_jsonName
    m))) (option_map FieldOptions_norm (FieldDescriptorProto_options m)) (Some (default false
    (FieldDescriptorProto_proto3Optional m))).

Lemma FieldDescriptorProto_fromPartial_toPartial :
  forall m, FieldDescriptorProto_fromPartial (FieldDescriptorProto_toPartial m)
      = FieldDescriptorProto_norm m.
Proof. solve_fromPartial FieldDescriptorProto_fromPartial FieldDescriptorProto_toPartial
    FieldDescriptorProto_norm. Qed.
#[export] Hint Rewrite FieldDescriptorProto_fromPartial_toPartial : partials.

Definition EnumValueDescriptorProto_norm (m : EnumValueDescriptorProto)
    : EnumValueDescriptorProto :=
  mkEnumValueDescriptorProto (Some (default (js "") (EnumValueDescriptorProto_name m))) (Some
    (default (Int 0) (EnumValueDescriptorProto_number m))) (option_map EnumValueOptions_norm
    (EnumValueDescriptorProto_options m)).

Lemma EnumValueDescriptorProto_fromPartial_toPartial :
  forall m, EnumValueDescriptorProto_fromPartial (EnumValueDescriptorProto_toPartial m)
      = EnumValueDescriptorProto_norm m.
Proof. solve_fromPartial EnumValueDescriptorProto_fromPartial EnumValueDescriptorProto_toPartial
    EnumValueDescriptorProto_norm. Qed.
#[export] Hint Rewrite EnumValueDescriptorProto_fromPartial_toPartial : partials.

Definition EnumDescriptorProto_EnumReservedRange_norm (m : EnumDescriptorProto_EnumReservedRange)
    : EnumDescriptorProto_EnumReservedRange :=
  mkEnumDescriptorProto_EnumReservedRange (Some (default (Int 0)
    (EnumDescriptorProto_EnumReservedRange_start m))) (Some (default (Int 0)
    (EnumDescriptorProto_EnumReservedRange_end m))).

Lemma EnumDescriptorProto_EnumReservedRange_fromPartial_toPartial :
  forall m, EnumDescriptorProto_EnumReservedRange_fromPartial
      (EnumDescriptorProto_EnumReservedRange_toPartial m)
      = EnumDescriptorProto_EnumReservedRange_norm m.
Proof. solve_fromPartial EnumDescriptorProto_EnumReservedRange_fromPartial
    EnumDescriptorProto_EnumReservedRange_toPartial EnumDescriptorProto_EnumReservedRange_norm. Qed.
#[export] Hint Rewrite EnumDescriptorProto_EnumReservedRange_fromPartial_toPartial : partials.

Definition EnumDescriptorProto_norm (m : EnumDescriptorProto) : EnumDescriptorProto :=
  mkEnumDescriptorProto (Some (default (js "") (EnumDescriptorProto_name m))) (map
    EnumValueDescriptorProto_norm (EnumDescriptorProto_value m)) (option_map EnumOptions_norm
    (EnumDescriptorProto_options m)) (map EnumDescriptorProto_EnumReservedRange_norm
    (EnumDescriptorProto_reservedRange m)) (EnumDescriptorProto_reservedName m) (Some (default 0
    (EnumDescriptorProto_visibility m))).

Lemma EnumDescriptorProto_fromPartial_toPartial :
  forall m, EnumDescriptorProto_fromPartial (EnumDescriptorProto_toPartial m)
      = EnumDescriptorProto_norm m.
Proof. solve_fromPartial EnumDescriptorProto_fromPartial EnumDescriptorProto_toPartial
    EnumDescriptorProto_norm. Qed.
#[export] Hint Rewrite EnumDescriptorProto_fromPartial_toPartial : partials.

Definition DescriptorProto_ExtensionRange_norm (m : DescriptorProto_ExtensionRange)
    : DescriptorProto_ExtensionRange :=
  mkDescriptorProto_ExtensionRange (Some (default (Int 0) (DescriptorProto_ExtensionRange_start
    m))) (Some (default (Int 0) (DescriptorProto_ExtensionRange_end m))) (option_map
    ExtensionRangeOptions_norm (DescriptorProto_ExtensionRange_options m)).

Lemma DescriptorProto_ExtensionRange_fromPartial_toPartial :
  forall m, DescriptorProto_ExtensionRange_fromPartial (DescriptorProto_ExtensionRange_toPartial m)
      = DescriptorProto_ExtensionRange_norm m.
Proof. solve_fromPartial DescriptorProto_ExtensionRange_fromPartial
    DescriptorProto_ExtensionRange_toPartial DescriptorProto_ExtensionRange_norm. Qed.
#[export] Hint Rewrite DescriptorProto_ExtensionRange_fromPartial_toPartial : partials.

Definition OneofDescriptorProto_norm (m : OneofDescriptorProto) : OneofDescriptorProto :=
  mkOneofDescriptorProto (Some (default (js "") (OneofDescriptorProto_name m))) (option_map
    OneofOptions_norm (OneofDescriptorProto_options m)).

Lemma OneofDescriptorProto_fromPartial_toPartial :
  forall m, OneofDescriptorProto_fromPartial (OneofDescriptorProto_toPartial m)
      = OneofDescriptorProto_norm m.
Proof. solve_fromPartial OneofDescriptorProto_fromPartial OneofDescriptorProto_toPartial
    OneofDescriptorProto_norm. Qed.
#[export] Hint Rewrite OneofDescriptorProto_fromPartial_toPartial : partials.

Definition DescriptorProto_ReservedRange_norm (m : DescriptorProto_ReservedRange)
    : DescriptorProto_ReservedRange :=
  mkDescriptorProto_ReservedRange (Some (default (Int 0) (DescriptorProto_ReservedRange_start m)))
    (Some (default (Int 0) (DescriptorProto_ReservedRange_end m))).

Lemma DescriptorProto_ReservedRange_fromPartial_toPartial :
  forall m, DescriptorProto_ReservedRange_fromPartial (DescriptorProto_ReservedRange_toPartial m)
      = DescriptorProto_ReservedRange_norm m.
Proof. solve_fromPartial DescriptorProto_ReservedRange_fromPartial
    DescriptorProto_ReservedRange_toPartial DescriptorProto_ReservedRange_norm. Qed.
#[export] Hint Rewrite DescriptorProto_ReservedRange_fromPartial_toPartial : partials.

Fixpoint DescriptorProto_norm (m : DescriptorProto) : DescriptorProto :=
  mkDescriptorProto (Some (default (js "") (DescriptorProto_name m))) (map
    FieldDescriptorProto_norm (DescriptorProto_field m)) (map FieldDescriptorProto_norm
    (DescriptorProto_extension m)) (map DescriptorProto_norm (DescriptorProto_nestedType m)) (map
    EnumDescriptorProto_norm (DescriptorProto_enumType m)) (map
    DescriptorProto_ExtensionRange_norm (DescriptorProto_extensionRange m)) (map
    OneofDescriptorProto_norm (DescriptorProto_oneofDecl m)) (option_map MessageOptions_norm
    (DescriptorProto_options m)) (map DescriptorProto_ReservedRange_norm
    (DescriptorProto_reservedRange m)) (DescriptorProto_reservedName m) (Some (default 0
    (DescriptorProto_visibility m))).

(** Induction on the nesting of messages. *)
Lemma DescriptorProto_nested_ind (P : DescriptorProto -> Prop) :
  (forall m, Forall P (DescriptorProto_nestedType m) -> P m) -> forall m, P m.
Proof.
  intros H. fix IH 1. intros m. apply H. destruct m as [name field extension nestedType enumType
      extensionRange oneofDecl options reservedRange reservedName visibility].
      cbn [DescriptorProto_nestedType].
  induction nestedType as [|x l IHl]; constructor; [apply IH|apply IHl].
Qed.

Lemma DescriptorProto_fromPartial_toPartial :
  forall m, DescriptorProto_fromPartial (DescriptorProto_toPartial m) = DescriptorProto_norm m.
Proof.
  apply DescriptorProto_nested_ind. intros [name field extension nestedType enumType extensionRange
      oneofDecl options reservedRange reservedName visibility] IH. cbn [DescriptorProto_nestedType]
      in IH.
  cbn [DescriptorProto_fromPartial DescriptorProto_toPartial DescriptorProto_norm]. cbn.
      rewrite ?map_map.
  assert (map (fun x => DescriptorProto_fromPartial (DescriptorProto_toPartial x))
      nestedType = map DescriptorProto_norm nestedType) as ->
    by (by apply map_ext_Forall).
  solve_nested_partials.
Qed.
#[export] Hint Rewrite DescriptorProto_fromPartial_toPartial : partials.

Definition MethodDescriptorProto_norm (m : MethodDescriptorProto) : MethodDescriptorProto :=
  mkMethodDescriptorProto (Some (default (js "") (MethodDescriptorProto_name m))) (Some (default
    (js "") (MethodDescriptorProto_inputType m))) (Some (default (js "")
    (MethodDescriptorProto_outputType m))) (option_map MethodOptions_norm
    (MethodDescriptorProto_options m)) (Some (default false (MethodDescriptorProto_clientStreaming
    m))) (Some (default false (MethodDescriptorProto_serverStreaming m))).

Lemma MethodDescriptorProto_fromPartial_toPartial :
  forall m, MethodDescriptorProto_fromPartial (MethodDescriptorProto_toPartial m)
      = MethodDescriptorProto_norm m.
Proof. solve_fromPartial MethodDescriptorProto_fromPartial MethodDescriptorProto_toPartial
    MethodDescriptorProto_norm. Qed.
#[export] Hint Rewrite MethodDescriptorProto_fromPartial_toPartial : partials.

Definition ServiceDescriptorProto_norm (m : ServiceDescriptorProto) : ServiceDescriptorProto :=
  mkServiceDescriptorProto (Some (default (js "") (ServiceDescriptorProto_name m))) (map
    MethodDescriptorProto_norm (ServiceDescriptorProto_method m)) (option_map ServiceOptions_norm
    (ServiceDescriptorProto_options m)).

Lemma ServiceDescriptorProto_fromPartial_toPartial :
  forall m, ServiceDescriptorProto_fromPartial (ServiceDescriptorProto_toPartial m)
      = ServiceDescriptorProto_norm m.
Proof. solve_fromPartial ServiceDescriptorProto_fromPartial ServiceDescriptorProto_toPartial
    ServiceDescriptorProto_norm. Qed.
#[export] Hint Rewrite ServiceDescriptorProto_fromPartial_toPartial : partials.

Definition SourceCodeInfo_Location_norm (m : SourceCodeInfo_Location) : SourceCodeInfo_Location :=
  mkSourceCodeInfo_Location (SourceCodeInfo_Location_path m) (SourceCodeInfo_Location_span m)
    (Some (default (js "") (SourceCodeInfo_Location_leadingComments m))) (Some (default (js "")
    (SourceCodeInfo_Location_trailingComments m)))
    (SourceCodeInfo_Location_leadingDetachedComments m).

Lemma SourceCodeInfo_Location_fromPartial_toPartial :
  forall m, SourceCodeInfo_Location_fromPartial (SourceCodeInfo_Location_toPartial m)
      = SourceCodeInfo_Location_norm m.
Proof. solve_fromPartial SourceCodeInfo_Location_fromPartial SourceCodeInfo_Location_toPartial
    SourceCodeInfo_Location_norm. Qed.
#[export] Hint Rewrite SourceCodeInfo_Location_fromPartial_toPartial : partials.

Definition SourceCodeInfo_norm (m : SourceCodeInfo) : SourceCodeInfo :=
  mkSourceCodeInfo (map SourceCodeInfo_Location_norm (SourceCodeInfo_location m)).

Lemma SourceCodeInfo_fromPartial_toPartial :
  forall m, SourceCodeInfo_fromPartial (SourceCodeInfo_toPartial m) = SourceCodeInfo_norm m.
Proof. solve_fromPartial SourceCodeInfo_fromPartial SourceCodeInfo_toPartial SourceCodeInfo_norm.
    Qed.
#[export] Hint Rewrite SourceCodeInfo_fromPartial_toPartial : partials.

Definition FileDescriptorProto_norm (m : FileDescriptorProto) : FileDescriptorProto :=
  mkFileDescriptorProto (Some (default (js "") (FileDescriptorProto_name m))) (Some (default (js
    "") (FileDescriptorProto_package m))) (FileDescriptorProto_dependency m)
    (FileDescriptorProto_publicDependency m) (FileDescriptorProto_weakDependency m)
    (FileDescriptorProto_optionDependency m) (map DescriptorProto_norm
    (FileDescriptorProto_messageType m)) (map EnumDescriptorProto_norm
    (FileDescriptorProto_enumType m)) (map ServiceDescriptorProto_norm
    (FileDescriptorProto_service m)) (map FieldDescriptorProto_norm (FileDescriptorProto_extension
    m)) (option_map FileOptions_norm (FileDescriptorProto_options m)) (option_map
    SourceCodeInfo_norm (FileDescriptorProto_sourceCodeInfo m)) (Some (default (js "")
    (FileDescriptorProto_syntax m))) (Some (default 0 (FileDescriptorProto_edition m))).

Lemma FileDescriptorProto_fromPartial_toPartial :
  forall m, FileDescriptorProto_fromPartial (FileDescriptorProto_toPartial m)
      = FileDescriptorProto_norm m.
Proof. solve_fromPartial FileDescriptorProto_fromPartial FileDescriptorProto_toPartial
    FileDescriptorProto_norm. Qed.
#[export] Hint Rewrite FileDescriptorProto_fromPartial_toPartial : partials.

Definition FileDescriptorSet_norm (m : FileDescriptorSet) : FileDescriptorSet :=
  mkFileDescriptorSet (map FileDescriptorProto_norm (FileDescriptorSet_file m)).

Lemma FileDescriptorSet_fromPartial_toPartial :
  forall m, FileDescriptorSet_fromPartial (FileDescriptorSet_toPartial m)
      = FileDescriptorSet_norm m.
Proof. solve_fromPartial FileDescriptorSet_fromPartial FileDescriptorSet_toPartial
    FileDescriptorSet_norm. Qed.
#[export] Hint Rewrite FileDescriptorSet_fromPartial_toPartial : partials.

Definition GeneratedCodeInfo_Annotation_norm (m : GeneratedCodeInfo_Annotation)
    : GeneratedCodeInfo_Annotation :=
  mkGeneratedCodeInfo_Annotation (GeneratedCodeInfo_Annotation_path m) (Some (default (js "")
    (GeneratedCodeInfo_Annotation_sourceFile m))) (Some (default (Int 0)
    (GeneratedCodeInfo_Annotation_begin m))) (Some (default (Int 0)
    (GeneratedCodeInfo_Annotation_end m))) (Some (default 0 (GeneratedCodeInfo_Annotation_semantic
    m))).

Lemma GeneratedCodeInfo_Annotation_fromPartial_toPartial :
  forall m, GeneratedCodeInfo_Annotation_fromPartial (GeneratedCodeInfo_Annotation_toPartial m)
      = GeneratedCodeInfo_Annotation_norm m.
Proof. solve_fromPartial GeneratedCodeInfo_Annotation_fromPartial
    GeneratedCodeInfo_Annotation_toPartial GeneratedCodeInfo_Annotation_norm. Qed.
#[export] Hint Rewrite GeneratedCodeInfo_Annotation_fromPartial_toPartial : partials.

Definition GeneratedCodeInfo_norm (m : GeneratedCodeInfo) : GeneratedCodeInfo :=
  mkGeneratedCodeInfo (map GeneratedCodeInfo_Annotation_norm (GeneratedCodeInfo_annotation m)).

Lemma GeneratedCodeInfo_fromPartial_toPartial :
  forall m, GeneratedCodeInfo_fromPartial (GeneratedCodeInfo_toPartial m)
      = GeneratedCodeInfo_norm m.
Proof. solve_fromPartial GeneratedCodeInfo_fromPartial GeneratedCodeInfo_toPartial
    GeneratedCodeInfo_norm. Qed.
#[export] Hint Rewrite GeneratedCodeInfo_fromPartial_toPartial : partials.

Section DescriptorWire.
Context {RT : WireRuntime} {L : WireLaws RT}.

Ltac FieldDescriptorProto_settle m :=
  eval cbv beta iota delta
    [createBaseFieldDescriptorProto FieldDescriptorProto_with_name
      FieldDescriptorProto_with_number FieldDescriptorProto_with_label
      FieldDescriptorProto_with_type FieldDescriptorProto_with_typeName
      FieldDescriptorProto_with_extendee FieldDescriptorProto_with_defaultValue
      FieldDescriptorProto_with_oneofIndex FieldDescriptorProto_with_jsonName
      FieldDescriptorProto_with_options FieldDescriptorProto_with_proto3Optional
      FieldDescriptorProto_name FieldDescriptorProto_number FieldDescriptorProto_label
      FieldDescriptorProto_type FieldDescriptorProto_typeName FieldDescriptorProto_extendee
      FieldDescriptorProto_defaultValue FieldDescriptorProto_oneofIndex
      FieldDescriptorProto_jsonName FieldDescriptorProto_options
      FieldDescriptorProto_proto3Optional] in m.

Definition FieldDescriptorProto_image (m : FieldDescriptorProto) : bytes :=
  match FieldDescriptorProto_name m with
  | Some v => if negb (str_eqb v (js "")) then enc_uint32 10 ++ enc_string v else []
  | None => []
  end ++
  match FieldDescriptorProto_number m with
  | Some v => if negb (num_eqb v (Int 0)) then enc_uint32 24 ++ enc_number enc_int32 v else []
  | None => []
  end ++
  match FieldDescriptorProto_label m with
  | Some v => if negb (v =? 1) then enc_uint32 32 ++ enc_int32 v else []
  | None => []
  end ++
  match FieldDescriptorProto_type m with
  | Some v => if negb (v =? 1) then enc_uint32 40 ++ enc_int32 v else []
  | None => []
  end ++
  match FieldDescriptorProto_typeName m with
  | Some v => if negb (str_eqb v (js "")) then enc_uint32 50 ++ enc_string v else []
  | None => []
  end ++
  match FieldDescriptorProto_extendee m with
  | Some v => if negb (str_eqb v (js "")) then enc_uint32 18 ++ enc_string v else []
  | None => []
  end ++
  match FieldDescriptorProto_defaultValue m with
  | Some v => if negb (str_eqb v (js "")) then enc_uint32 58 ++ enc_string v else []
  | None => []
  end ++
  match FieldDescriptorProto_oneofIndex m with
  | Some v => if negb (num_eqb v (Int 0)) then enc_uint32 72 ++ enc_number enc_int32 v else []
  | None => []
  end ++
  match FieldDescriptorProto_jsonName m with
  | Some v => if negb (str_eqb v (js "")) then enc_uint32 82 ++ enc_string v else []
  | None => []
  end ++
  match FieldDescriptorProto_options m with Some v => delimited 66 (FieldOptions_image v)
      | None => [] end ++
  match FieldDescriptorProto_proto3Optional m with
  | Some v => if negb (Bool.eqb v false) then enc_uint32 136 ++ enc_bool v else []
  | None => []
  end ++
  [].

Definition FieldDescriptorProto_ok (m : FieldDescriptorProto) : Prop :=
  opt_all string_ok (FieldDescriptorProto_name m) /\
  opt_all int32_ok (FieldDescriptorProto_number m) /\
  opt_all enum_ok (FieldDescriptorProto_label m) /\
  opt_all enum_ok (FieldDescriptorProto_type m) /\
  opt_all string_ok (FieldDescriptorProto_typeName m) /\
  opt_all string_ok (FieldDescriptorProto_extendee m) /\
  opt_all string_ok (FieldDescriptorProto_defaultValue m) /\
  opt_all int32_ok (FieldDescriptorProto_oneofIndex m) /\
  opt_all string_ok (FieldDescriptorProto_jsonName m) /\
  opt_all (fun v => FieldOptions_ok v /\ bytes_ok (FieldOptions_image v))
      (FieldDescriptorProto_options m) /\
  opt_all (fun _ : bool => True) (FieldDescriptorProto_proto3Optional m).

Lemma FieldDescriptorProto_eats (F : nat) (m : FieldDescriptorProto) :
  FieldDescriptorProto_ok m -> eats (FieldDescriptorProto_switch F)
      F (FieldDescriptorProto_image m) createBaseFieldDescriptorProto (FieldDescriptorProto_norm m).
Proof.
  intros (H_name & H_number & H_label & H_type & H_typeName & H_extendee & H_defaultValue &
      H_oneofIndex & H_jsonName & H_options & H_proto3Optional). unfold FieldDescriptorProto_image.
  settle FieldDescriptorProto_settle.
  eat_opt string_scalar 10 FieldDescriptorProto_with_name (js "");
      settle FieldDescriptorProto_settle.
  eat_opt int32_scalar 24 FieldDescriptorProto_with_number (Int 0);
      settle FieldDescriptorProto_settle.
  eat_opt enum_scalar 32 FieldDescriptorProto_with_label 1; settle FieldDescriptorProto_settle.
  eat_opt enum_scalar 40 FieldDescriptorProto_with_type 1; settle FieldDescriptorProto_settle.
  eat_opt string_scalar 50 FieldDescriptorProto_with_typeName (js "");
      settle FieldDescriptorProto_settle.
  eat_opt string_scalar 18 FieldDescriptorProto_with_extendee (js "");
      settle FieldDescriptorProto_settle.
  eat_opt string_scalar 58 FieldDescriptorProto_with_defaultValue (js "");
      settle FieldDescriptorProto_settle.
  eat_opt int32_scalar 72 FieldDescriptorProto_with_oneofIndex (Int 0);
      settle FieldDescriptorProto_settle.
  eat_opt string_scalar 82 FieldDescriptorProto_with_jsonName (js "");
      settle FieldDescriptorProto_settle.
  eat_message FieldOptions_codec 66 FieldDescriptorProto_with_options;
      settle FieldDescriptorProto_settle.
  eat_opt bool_scalar 136 FieldDescriptorProto_with_proto3Optional false;
      settle FieldDescriptorProto_settle.
  apply eats_nil.
Qed.

Lemma FieldDescriptorProto_codec : codec FieldDescriptorProto_encode FieldDescriptorProto_decode
    FieldDescriptorProto_norm FieldDescriptorProto_image FieldDescriptorProto_ok.
Proof.
  split.
  - intros m (H_name & H_number & H_label & H_type & H_typeName & H_extendee & H_defaultValue &
      H_oneofIndex & H_jsonName & H_options & H_proto3Optional).
      unfold FieldDescriptorProto_encode, FieldDescriptorProto_image.
    write ltac:(write_scalar_as string_scalar). write ltac:(write_scalar_as int32_scalar).
        write ltac:(write_scalar_as enum_scalar). write ltac:(write_scalar_as enum_scalar).
        write ltac:(write_scalar_as string_scalar). write ltac:(write_scalar_as string_scalar).
        write ltac:(write_scalar_as string_scalar). write ltac:(write_scalar_as int32_scalar).
        write ltac:(write_scalar_as string_scalar). write ltac:(write_message_as
        FieldOptions_codec). write ltac:(write_scalar_as bool_scalar).
    apply writes_ret.
  - intros m f r tl Hm Hr Hf. apply (decode_with_reads _ f);
      [by apply FieldDescriptorProto_eats|done|lia|done].
Qed.

Lemma FieldDescriptorProto_safe : safe_decode FieldDescriptorProto_decode.
Proof.
  apply (decode_with_safe FieldDescriptorProto_switch createBaseFieldDescriptorProto).
      intros F tag m r Hr. unfold FieldDescriptorProto_switch.
  solve_safe_switch.
Qed.
#[local] Hint Resolve FieldDescriptorProto_safe : model.

Ltac EnumValueDescriptorProto_settle m :=
  eval cbv beta iota delta
    [createBaseEnumValueDescriptorProto EnumValueDescriptorProto_with_name
      EnumValueDescriptorProto_with_number EnumValueDescriptorProto_with_options
      EnumValueDescriptorProto_name EnumValueDescriptorProto_number
      EnumValueDescriptorProto_options] in m.

Definition EnumValueDescriptorProto_image (m : EnumValueDescriptorProto) : bytes :=
  match EnumValueDescriptorProto_name m with
  | Some v => if negb (str_eqb v (js "")) then enc_uint32 10 ++ enc_string v else []
  | None => []
  end ++
  match EnumValueDescriptorProto_number m with
  | Some v => if negb (num_eqb v (Int 0)) then enc_uint32 16 ++ enc_number enc_int32 v else []
  | None => []
  end ++
  match EnumValueDescriptorProto_options m with Some v => delimited 26 (EnumValueOptions_image v)
      | None => [] end ++
  [].

Definition EnumValueDescriptorProto_ok (m : EnumValueDescriptorProto) : Prop :=
  opt_all string_ok (EnumValueDescriptorProto_name m) /\
  opt_all int32_ok (EnumValueDescriptorProto_number m) /\
  opt_all (fun v => EnumValueOptions_ok v /\ bytes_ok (EnumValueOptions_image v))
      (EnumValueDescriptorProto_options m).

Lemma EnumValueDescriptorProto_eats (F : nat) (m : EnumValueDescriptorProto) :
  EnumValueDescriptorProto_ok m -> eats (EnumValueDescriptorProto_switch F)
      F (EnumValueDescriptorProto_image m) createBaseEnumValueDescriptorProto
      (EnumValueDescriptorProto_norm m).
Proof.
  intros (H_name & H_number & H_options). unfold EnumValueDescriptorProto_image.
  settle EnumValueDescriptorProto_settle.
  eat_opt string_scalar 10 EnumValueDescriptorProto_with_name (js "");
      settle EnumValueDescriptorProto_settle.
  eat_opt int32_scalar 16 EnumValueDescriptorProto_with_number (Int 0);
      settle EnumValueDescriptorProto_settle.
  eat_message EnumValueOptions_codec 26 EnumValueDescriptorProto_with_options;
      settle EnumValueDescriptorProto_settle.
  apply eats_nil.
Qed.

Lemma EnumValueDescriptorProto_codec : codec EnumValueDescriptorProto_encode
    EnumValueDescriptorProto_decode EnumValueDescriptorProto_norm EnumValueDescriptorProto_image
    EnumValueDescriptorProto_ok.
Proof.
  split.
  - intros m (H_name & H_number & H_options). unfold EnumValueDescriptorProto_encode,
      EnumValueDescriptorProto_image.
    write ltac:(write_scalar_as string_scalar). write ltac:(write_scalar_as int32_scalar).
        write ltac:(write_message_as EnumValueOptions_codec).
    apply writes_ret.
  - intros m f r tl Hm Hr Hf. apply (decode_with_reads _ f);
      [by apply EnumValueDescriptorProto_eats|done|lia|done].
Qed.

Lemma EnumValueDescriptorProto_safe : safe_decode EnumValueDescriptorProto_decode.
Proof.
  apply (decode_with_safe EnumValueDescriptorProto_switch createBaseEnumValueDescriptorProto).
      intros F tag m r Hr. unfold EnumValueDescriptorProto_switch.
  solve_safe_switch.
Qed.
#[local] Hint Resolve EnumValueDescriptorProto_safe : model.

Ltac EnumDescriptorProto_EnumReservedRange_settle m :=
  eval cbv beta iota delta
    [createBaseEnumDescriptorProto_EnumReservedRange
      EnumDescriptorProto_EnumReservedRange_with_start
      EnumDescriptorProto_EnumReservedRange_with_end EnumDescriptorProto_EnumReservedRange_start
      EnumDescriptorProto_EnumReservedRange_end] in m.

Definition EnumDescriptorProto_EnumReservedRange_image (m : EnumDescriptorProto_EnumReservedRange)
    : bytes :=
  match EnumDescriptorProto_EnumReservedRange_start m with
  | Some v => if negb (num_eqb v (Int 0)) then enc_uint32 8 ++ enc_number enc_int32 v else []
  | None => []
  end ++
  match EnumDescriptorProto_EnumReservedRange_end m with
  | Some v => if negb (num_eqb v (Int 0)) then enc_uint32 16 ++ enc_number enc_int32 v else []
  | None => []
  end ++
  [].

Definition EnumDescriptorProto_EnumReservedRange_ok (m : EnumDescriptorProto_EnumReservedRange)
    : Prop :=
  opt_all int32_ok (EnumDescriptorProto_EnumReservedRange_start m) /\
  opt_all int32_ok (EnumDescriptorProto_EnumReservedRange_end m).

Lemma EnumDescriptorProto_EnumReservedRange_eats (F : nat)
    (m : EnumDescriptorProto_EnumReservedRange) :
  EnumDescriptorProto_EnumReservedRange_ok m -> eats (EnumDescriptorProto_EnumReservedRange_switch
      F) F (EnumDescriptorProto_EnumReservedRange_image m)
      createBaseEnumDescriptorProto_EnumReservedRange (EnumDescriptorProto_EnumReservedRange_norm
      m).
Proof.
  intros (H_start & H_end). unfold EnumDescriptorProto_EnumReservedRange_image.
  settle EnumDescriptorProto_EnumReservedRange_settle.
  eat_opt int32_scalar 8 EnumDescriptorProto_EnumReservedRange_with_start (Int 0);
      settle EnumDescriptorProto_EnumReservedRange_settle.
  eat_opt int32_scalar 16 EnumDescriptorProto_EnumReservedRange_with_end (Int 0);
      settle EnumDescriptorProto_EnumReservedRange_settle.
  apply eats_nil.
Qed.

Lemma EnumDescriptorProto_EnumReservedRange_codec : codec
    EnumDescriptorProto_EnumReservedRange_encode EnumDescriptorProto_EnumReservedRange_decode
    EnumDescriptorProto_EnumReservedRange_norm EnumDescriptorProto_EnumReservedRange_image
    EnumDescriptorProto_EnumReservedRange_ok.
Proof.
  split.
  - intros m (H_start & H_end). unfold EnumDescriptorProto_EnumReservedRange_encode,
      EnumDescriptorProto_EnumReservedRange_image.
    write ltac:(write_scalar_as int32_scalar). write ltac:(write_scalar_as int32_scalar).
    apply writes_ret.
  - intros m f r tl Hm Hr Hf. apply (decode_with_reads _ f);
      [by apply EnumDescriptorProto_EnumReservedRange_eats|done|lia|done].
Qed.

Lemma EnumDescriptorProto_EnumReservedRange_safe : safe_decode
    EnumDescriptorProto_EnumReservedRange_decode.
Proof.
  apply (decode_with_safe EnumDescriptorProto_EnumReservedRange_switch
      createBaseEnumDescriptorProto_EnumReservedRange). intros F tag m r Hr.
      unfold EnumDescriptorProto_EnumReservedRange_switch.
  solve_safe_switch.
Qed.
#[local] Hint Resolve EnumDescriptorProto_EnumReservedRange_safe : model.

Ltac EnumDescriptorProto_settle m :=
  eval cbv beta iota delta
    [createBaseEnumDescriptorProto EnumDescriptorProto_with_name EnumDescriptorProto_with_value
      EnumDescriptorProto_with_options EnumDescriptorProto_with_reservedRange
      EnumDescriptorProto_with_reservedName EnumDescriptorProto_with_visibility
      EnumDescriptorProto_name EnumDescriptorProto_value EnumDescriptorProto_options
      EnumDescriptorProto_reservedRange EnumDescriptorProto_reservedName
      EnumDescriptorProto_visibility] in m.

Definition EnumDescriptorProto_image (m : EnumDescriptorProto) : bytes :=
  match EnumDescriptorProto_name m with
  | Some v => if negb (str_eqb v (js "")) then enc_uint32 10 ++ enc_string v else []
  | None => []
  end ++
  concat (map (fun v => delimited 18 (EnumValueDescriptorProto_image v))
      (EnumDescriptorProto_value m)) ++
  match EnumDescriptorProto_options m with Some v => delimited 26 (EnumOptions_image v)
      | None => [] end ++
  concat (map (fun v => delimited 34 (EnumDescriptorProto_EnumReservedRange_image v))
      (EnumDescriptorProto_reservedRange m)) ++
  concat (map (fun v => enc_uint32 42 ++ enc_string v) (EnumDescriptorProto_reservedName m)) ++
  match EnumDescriptorProto_visibility m with
  | Some v => if negb (v =? 0) then enc_uint32 48 ++ enc_int32 v else []
  | None => []
  end ++
  [].

Definition EnumDescriptorProto_ok (m : EnumDescriptorProto) : Prop :=
  opt_all string_ok (EnumDescriptorProto_name m) /\
  Forall (fun v => EnumValueDescriptorProto_ok v /\ bytes_ok (EnumValueDescriptorProto_image v))
      (EnumDescriptorProto_value m) /\
  opt_all (fun v => EnumOptions_ok v /\ bytes_ok (EnumOptions_image v))
      (EnumDescriptorProto_options m) /\
  Forall (fun v => EnumDescriptorProto_EnumReservedRange_ok v /\
      bytes_ok (EnumDescriptorProto_EnumReservedRange_image v))
      (EnumDescriptorProto_reservedRange m) /\
  Forall string_ok (EnumDescriptorProto_reservedName m) /\
  opt_all enum_ok (EnumDescriptorProto_visibility m).

Lemma EnumDescriptorProto_eats (F : nat) (m : EnumDescriptorProto) :
  EnumDescriptorProto_ok m -> eats (EnumDescriptorProto_switch F) F (EnumDescriptorProto_image m)
      createBaseEnumDescriptorProto (EnumDescriptorProto_norm m).
Proof.
  intros (H_name & H_value & H_options & H_reservedRange & H_reservedName & H_visibility).
      unfold EnumDescriptorProto_image.
  settle EnumDescriptorProto_settle.
  eat_opt string_scalar 10 EnumDescriptorProto_with_name (js ""); settle EnumDescriptorProto_settle.
  eat_messages EnumValueDescriptorProto_codec 18 EnumDescriptorProto_with_value;
      settle EnumDescriptorProto_settle.
  eat_message EnumOptions_codec 26 EnumDescriptorProto_with_options;
      settle EnumDescriptorProto_settle.
  eat_messages EnumDescriptorProto_EnumReservedRange_codec 34
      EnumDescriptorProto_with_reservedRange; settle EnumDescriptorProto_settle.
  eat_repeated string_scalar 42 EnumDescriptorProto_with_reservedName;
      settle EnumDescriptorProto_settle.
  eat_opt enum_scalar 48 EnumDescriptorProto_with_visibility 0; settle EnumDescriptorProto_settle.
  apply eats_nil.
Qed.

Lemma EnumDescriptorProto_codec : codec EnumDescriptorProto_encode EnumDescriptorProto_decode
    EnumDescriptorProto_norm EnumDescriptorProto_image EnumDescriptorProto_ok.
Proof.
  split.
  - intros m (H_name & H_value & H_options & H_reservedRange & H_reservedName & H_visibility).
      unfold EnumDescriptorProto_encode, EnumDescriptorProto_image.
    write ltac:(write_scalar_as string_scalar). write ltac:(write_message_as
        EnumValueDescriptorProto_codec). write ltac:(write_message_as EnumOptions_codec).
        write ltac:(write_message_as EnumDescriptorProto_EnumReservedRange_codec).
        write ltac:(write_scalar_as string_scalar). write ltac:(write_scalar_as enum_scalar).
    apply writes_ret.
  - intros m f r tl Hm Hr Hf. apply (decode_with_reads _ f);
      [by apply EnumDescriptorProto_eats|done|lia|done].
Qed.

Lemma EnumDescriptorProto_safe : safe_decode EnumDescriptorProto_decode.
Proof.
  apply (decode_with_safe EnumDescriptorProto_switch createBaseEnumDescriptorProto).
      intros F tag m r Hr. unfold EnumDescriptorProto_switch.
  solve_safe_switch.
Qed.
#[local] Hint Resolve EnumDescriptorProto_safe : model.

Ltac DescriptorProto_ExtensionRange_settle m :=
  eval cbv beta iota delta
    [createBaseDescriptorProto_ExtensionRange DescriptorProto_ExtensionRange_with_start
      DescriptorProto_ExtensionRange_with_end DescriptorProto_ExtensionRange_with_options
      DescriptorProto_ExtensionRange_start DescriptorProto_ExtensionRange_end
      DescriptorProto_ExtensionRange_options] in m.

Definition DescriptorProto_ExtensionRange_image (m : DescriptorProto_ExtensionRange) : bytes :=
  match DescriptorProto_ExtensionRange_start m with
  | Some v => if negb (num_eqb v (Int 0)) then enc_uint32 8 ++ enc_number enc_int32 v else []
  | None => []
  end ++
  match DescriptorProto_ExtensionRange_end m with
  | Some v => if negb (num_eqb v (Int 0)) then enc_uint32 16 ++ enc_number enc_int32 v else []
  | None => []
  end ++
  match DescriptorProto_ExtensionRange_options m with Some v => delimited 26
      (ExtensionRangeOptions_image v) | None => [] end ++
  [].

Definition DescriptorProto_ExtensionRange_ok (m : DescriptorProto_ExtensionRange) : Prop :=
  opt_all int32_ok (DescriptorProto_ExtensionRange_start m) /\
  opt_all int32_ok (DescriptorProto_ExtensionRange_end m) /\
  opt_all (fun v => ExtensionRangeOptions_ok v /\ bytes_ok (ExtensionRangeOptions_image v))
      (DescriptorProto_ExtensionRange_options m).

Lemma DescriptorProto_ExtensionRange_eats (F : nat) (m : DescriptorProto_ExtensionRange) :
  DescriptorProto_ExtensionRange_ok m -> eats (DescriptorProto_ExtensionRange_switch F)
      F (DescriptorProto_ExtensionRange_image m) createBaseDescriptorProto_ExtensionRange
      (DescriptorProto_ExtensionRange_norm m).
Proof.
  intros (H_start & H_end & H_options). unfold DescriptorProto_ExtensionRange_image.
  settle DescriptorProto_ExtensionRange_settle.
  eat_opt int32_scalar 8 DescriptorProto_ExtensionRange_with_start (Int 0);
      settle DescriptorProto_ExtensionRange_settle.
  eat_opt int32_scalar 16 DescriptorProto_ExtensionRange_with_end (Int 0);
      settle DescriptorProto_ExtensionRange_settle.
  eat_message ExtensionRangeOptions_codec 26 DescriptorProto_ExtensionRange_with_options;
      settle DescriptorProto_ExtensionRange_settle.
  apply eats_nil.
Qed.

Lemma DescriptorProto_ExtensionRange_codec : codec DescriptorProto_ExtensionRange_encode
    DescriptorProto_ExtensionRange_decode DescriptorProto_ExtensionRange_norm
    DescriptorProto_ExtensionRange_image DescriptorProto_ExtensionRange_ok.
Proof.
  split.
  - intros m (H_start & H_end & H_options). unfold DescriptorProto_ExtensionRange_encode,
      DescriptorProto_ExtensionRange_image.
    write ltac:(write_scalar_as int32_scalar). write ltac:(write_scalar_as int32_scalar).
        write ltac:(write_message_as ExtensionRangeOptions_codec).
    apply writes_ret.
  - intros m f r tl Hm Hr Hf. apply (decode_with_reads _ f);
      [by apply DescriptorProto_ExtensionRange_eats|done|lia|done].
Qed.

Lemma DescriptorProto_ExtensionRange_safe : safe_decode DescriptorProto_ExtensionRange_decode.
Proof.
  apply (decode_with_safe DescriptorProto_ExtensionRange_switch
      createBaseDescriptorProto_ExtensionRange). intros F tag m r Hr.
      unfold DescriptorProto_ExtensionRange_switch.
  solve_safe_switch.
Qed.
#[local] Hint Resolve DescriptorProto_ExtensionRange_safe : model.

Ltac OneofDescriptorProto_settle m :=
  eval cbv beta iota delta
    [createBaseOneofDescriptorProto OneofDescriptorProto_with_name
      OneofDescriptorProto_with_options OneofDescriptorProto_name OneofDescriptorProto_options] in
      m.

Definition OneofDescriptorProto_image (m : OneofDescriptorProto) : bytes :=
  match OneofDescriptorProto_name m with
  | Some v => if negb (str_eqb v (js "")) then enc_uint32 10 ++ enc_string v else []
  | None => []
  end ++
  match OneofDescriptorProto_options m with Some v => delimited 18 (OneofOptions_image v)
      | None => [] end ++
  [].

Definition OneofDescriptorProto_ok (m : OneofDescriptorProto) : Prop :=
  opt_all string_ok (OneofDescriptorProto_name m) /\
  opt_all (fun v => OneofOptions_ok v /\ bytes_ok (OneofOptions_image v))
      (OneofDescriptorProto_options m).

Lemma OneofDescriptorProto_eats (F : nat) (m : OneofDescriptorProto) :
  OneofDescriptorProto_ok m -> eats (OneofDescriptorProto_switch F)
      F (OneofDescriptorProto_image m) createBaseOneofDescriptorProto (OneofDescriptorProto_norm m).
Proof.
  intros (H_name & H_options). unfold OneofDescriptorProto_image.
  settle OneofDescriptorProto_settle.
  eat_opt string_scalar 10 OneofDescriptorProto_with_name (js "");
      settle OneofDescriptorProto_settle.
  eat_message OneofOptions_codec 18 OneofDescriptorProto_with_options;
      settle OneofDescriptorProto_settle.
  apply eats_nil.
Qed.

Lemma OneofDescriptorProto_codec : codec OneofDescriptorProto_encode OneofDescriptorProto_decode
    OneofDescriptorProto_norm OneofDescriptorProto_image OneofDescriptorProto_ok.
Proof.
  split.
  - intros m (H_name & H_options). unfold OneofDescriptorProto_encode, OneofDescriptorProto_image.
    write ltac:(write_scalar_as string_scalar). write ltac:(write_message_as OneofOptions_codec).
    apply writes_ret.
  - intros m f r tl Hm Hr Hf. apply (decode_with_reads _ f);
      [by apply OneofDescriptorProto_eats|done|lia|done].
Qed.

Lemma OneofDescriptorProto_safe : safe_decode OneofDescriptorProto_decode.
Proof.
  apply (decode_with_safe OneofDescriptorProto_switch createBaseOneofDescriptorProto).
      intros F tag m r Hr. unfold OneofDescriptorProto_switch.
  solve_safe_switch.
Qed.
#[local] Hint Resolve OneofDescriptorProto_safe : model.

Ltac DescriptorProto_ReservedRange_settle m :=
  eval cbv beta iota delta
    [createBaseDescriptorProto_ReservedRange DescriptorProto_ReservedRange_with_start
      DescriptorProto_ReservedRange_with_end DescriptorProto_ReservedRange_start
      DescriptorProto_ReservedRange_end] in m.

Definition DescriptorProto_ReservedRange_image (m : DescriptorProto_ReservedRange) : bytes :=
  match DescriptorProto_ReservedRange_start m with
  | Some v => if negb (num_eqb v (Int 0)) then enc_uint32 8 ++ enc_number enc_int32 v else []
  | None => []
  end ++
  match DescriptorProto_ReservedRange_end m with
  | Some v => if negb (num_eqb v (Int 0)) then enc_uint32 16 ++ enc_number enc_int32 v else []
  | None => []
  end ++
  [].

Definition DescriptorProto_ReservedRange_ok (m : DescriptorProto_ReservedRange) : Prop :=
  opt_all int32_ok (DescriptorProto_ReservedRange_start m) /\
  opt_all int32_ok (DescriptorProto_ReservedRange_end m).

Lemma DescriptorProto_ReservedRange_eats (F : nat) (m : DescriptorProto_ReservedRange) :
  DescriptorProto_ReservedRange_ok m -> eats (DescriptorProto_ReservedRange_switch F)
      F (DescriptorProto_ReservedRange_image m) createBaseDescriptorProto_ReservedRange
      (DescriptorProto_ReservedRange_norm m).
Proof.
  intros (H_start & H_end). unfold DescriptorProto_ReservedRange_image.
  settle DescriptorProto_ReservedRange_settle.
  eat_opt int32_scalar 8 DescriptorProto_ReservedRange_with_start (Int 0);
      settle DescriptorProto_ReservedRange_settle.
  eat_opt int32_scalar 16 DescriptorProto_ReservedRange_with_end (Int 0);
      settle DescriptorProto_ReservedRange_settle.
  apply eats_nil.
Qed.

Lemma DescriptorProto_ReservedRange_codec : codec DescriptorProto_ReservedRange_encode
    DescriptorProto_ReservedRange_decode DescriptorProto_ReservedRange_norm
    DescriptorProto_ReservedRange_image DescriptorProto_ReservedRange_ok.
Proof.
  split.
  - intros m (H_start & H_end). unfold DescriptorProto_ReservedRange_encode,
      DescriptorProto_ReservedRange_image.
    write ltac:(write_scalar_as int32_scalar). write ltac:(write_scalar_as int32_scalar).
    apply writes_ret.
  - intros m f r tl Hm Hr Hf. apply (decode_with_reads _ f);
      [by apply DescriptorProto_ReservedRange_eats|done|lia|done].
Qed.

Lemma DescriptorProto_ReservedRange_safe : safe_decode DescriptorProto_ReservedRange_decode.
Proof.
  apply (decode_with_safe DescriptorProto_ReservedRange_switch
      createBaseDescriptorProto_ReservedRange). intros F tag m r Hr.
      unfold DescriptorProto_ReservedRange_switch.
  solve_safe_switch.
Qed.
#[local] Hint Resolve DescriptorProto_ReservedRange_safe : model.

Ltac DescriptorProto_settle m :=
  eval cbv beta iota delta
    [createBaseDescriptorProto DescriptorProto_with_name DescriptorProto_with_field
      DescriptorProto_with_extension DescriptorProto_with_nestedType DescriptorProto_with_enumType
      DescriptorProto_with_extensionRange DescriptorProto_with_oneofDecl
      DescriptorProto_with_options DescriptorProto_with_reservedRange
      DescriptorProto_with_reservedName DescriptorProto_with_visibility DescriptorProto_name
      DescriptorProto_field DescriptorProto_extension DescriptorProto_nestedType
      DescriptorProto_enumType DescriptorProto_extensionRange DescriptorProto_oneofDecl
      DescriptorProto_options DescriptorProto_reservedRange DescriptorProto_reservedName
      DescriptorProto_visibility] in m.

Fixpoint DescriptorProto_image (m : DescriptorProto) : bytes :=
  match DescriptorProto_name m with
  | Some v => if negb (str_eqb v (js "")) then enc_uint32 10 ++ enc_string v else []
  | None => []
  end ++
  concat (map (fun v => delimited 18 (FieldDescriptorProto_image v)) (DescriptorProto_field m)) ++
  concat (map (fun v => delimited 50 (FieldDescriptorProto_image v)) (DescriptorProto_extension m))
      ++
  concat (map (fun v => delimited 26 (DescriptorProto_image v)) (DescriptorProto_nestedType m)) ++
  concat (map (fun v => delimited 34 (EnumDescriptorProto_image v)) (DescriptorProto_enumType m)) ++
  concat (map (fun v => delimited 42 (DescriptorProto_ExtensionRange_image v))
      (DescriptorProto_extensionRange m)) ++
  concat (map (fun v => delimited 66 (OneofDescriptorProto_image v)) (DescriptorProto_oneofDecl m))
      ++
  match DescriptorProto_options m with Some v => delimited 58 (MessageOptions_image v) | None => []
      end ++
  concat (map (fun v => delimited 74 (DescriptorProto_ReservedRange_image v))
      (DescriptorProto_reservedRange m)) ++
  concat (map (fun v => enc_uint32 82 ++ enc_string v) (DescriptorProto_reservedName m)) ++
  match DescriptorProto_visibility m with
  | Some v => if negb (v =? 0) then enc_uint32 88 ++ enc_int32 v else []
  | None => []
  end ++
  [].

Fixpoint DescriptorProto_ok (m : DescriptorProto) : Prop :=
  opt_all string_ok (DescriptorProto_name m) /\
  Forall (fun v => FieldDescriptorProto_ok v /\ bytes_ok (FieldDescriptorProto_image v))
      (DescriptorProto_field m) /\
  Forall (fun v => FieldDescriptorProto_ok v /\ bytes_ok (FieldDescriptorProto_image v))
      (DescriptorProto_extension m) /\
  all_of (fun v => DescriptorProto_ok v /\ bytes_ok (DescriptorProto_image v))
      (DescriptorProto_nestedType m) /\
  Forall (fun v => EnumDescriptorProto_ok v /\ bytes_ok (EnumDescriptorProto_image v))
      (DescriptorProto_enumType m) /\
  Forall (fun v => DescriptorProto_ExtensionRange_ok v /\
      bytes_ok (DescriptorProto_ExtensionRange_image v)) (DescriptorProto_extensionRange m) /\
  Forall (fun v => OneofDescriptorProto_ok v /\ bytes_ok (OneofDescriptorProto_image v))
      (DescriptorProto_oneofDecl m) /\
  opt_all (fun v => MessageOptions_ok v /\ bytes_ok (MessageOptions_image v))
      (DescriptorProto_options m) /\
  Forall (fun v => DescriptorProto_ReservedRange_ok v /\
      bytes_ok (DescriptorProto_ReservedRange_image v)) (DescriptorProto_reservedRange m) /\
  Forall string_ok (DescriptorProto_reservedName m) /\
  opt_all enum_ok (DescriptorProto_visibility m).

(** The nesting depth of a message. *)
Fixpoint DescriptorProto_depth (m : DescriptorProto) : nat := S (list_max (map
    DescriptorProto_depth (DescriptorProto_nestedType m))).

Definition DescriptorProto_ok_to (k : nat) (m : DescriptorProto) : Prop := DescriptorProto_ok m /\
    (DescriptorProto_depth m <= k)%nat.

Lemma DescriptorProto_ok_nested (k : nat) (m : DescriptorProto) :
  DescriptorProto_ok_to (S k) m ->
  Forall (fun v => DescriptorProto_ok_to k v /\ bytes_ok (DescriptorProto_image v))
      (DescriptorProto_nestedType m).
Proof.
  intros [Hok Hd]. destruct m as [name field extension nestedType enumType extensionRange oneofDecl
      options reservedRange reservedName visibility].
  cbn [DescriptorProto_depth DescriptorProto_nestedType] in *. apply le_S_n, list_max_elem in Hd.
  destruct Hok as (H_name & H_field & H_extension & H_nestedType & H_enumType & H_extensionRange &
      H_oneofDecl & H_options & H_reservedRange & H_reservedName & H_visibility).
      rewrite all_of_Forall in H_nestedType.
  apply Forall_forall. intros x Hx. rewrite Forall_forall in Hd, H_nestedType.
  destruct (H_nestedType x Hx). split; [split|]; auto.
Qed.

Lemma DescriptorProto_codec_to (k : nat) :
  codec DescriptorProto_encode DescriptorProto_decode DescriptorProto_norm DescriptorProto_image
      (DescriptorProto_ok_to k).
Proof.
  induction k as [|k IH].
  { split; intros [] *; intros [_ Hd]; cbn in Hd; lia. }
  split.
  - intros m Hm. pose proof (DescriptorProto_ok_nested k m Hm) as Hn. destruct Hm as [Hok _].
    destruct m as [name field extension nestedType enumType extensionRange oneofDecl options
        reservedRange reservedName visibility]. destruct Hok as (H_name & H_field & H_extension &
        H_nestedType & H_enumType & H_extensionRange & H_oneofDecl & H_options & H_reservedRange &
        H_reservedName & H_visibility).
    cbn [DescriptorProto_encode DescriptorProto_image].
    write ltac:(write_scalar_as string_scalar). write ltac:(write_message_as
        FieldDescriptorProto_codec). write ltac:(write_message_as FieldDescriptorProto_codec).
        write ltac:(write_message_as IH). write ltac:(write_message_as EnumDescriptorProto_codec).
        write ltac:(write_message_as DescriptorProto_ExtensionRange_codec).
        write ltac:(write_message_as OneofDescriptorProto_codec).
        write ltac:(write_message_as MessageOptions_codec).
        write ltac:(write_message_as DescriptorProto_ReservedRange_codec).
        write ltac:(write_scalar_as string_scalar). write ltac:(write_scalar_as enum_scalar).
    apply writes_ret.
  - intros m f r tl Hm Hr Hf. pose proof (DescriptorProto_ok_nested k m Hm) as Hn.
      destruct Hm as [Hok _].
    destruct f as [|f]; [lia|]. cbn [DescriptorProto_decode].
    apply (decode_with_reads _ f); [|done|lia|done].
    destruct m as [name field extension nestedType enumType extensionRange oneofDecl options
        reservedRange reservedName visibility]. destruct Hok as (H_name & H_field & H_extension &
        H_nestedType & H_enumType & H_extensionRange & H_oneofDecl & H_options & H_reservedRange &
        H_reservedName & H_visibility).
    cbn [DescriptorProto_image DescriptorProto_norm].
    settle DescriptorProto_settle.
    eat_opt string_scalar 10 DescriptorProto_with_name (js ""); settle DescriptorProto_settle.
    eat_messages FieldDescriptorProto_codec 18 DescriptorProto_with_field;
        settle DescriptorProto_settle.
    eat_messages FieldDescriptorProto_codec 50 DescriptorProto_with_extension;
        settle DescriptorProto_settle.
    eat_messages IH 26 DescriptorProto_with_nestedType; settle DescriptorProto_settle.
    eat_messages EnumDescriptorProto_codec 34 DescriptorProto_with_enumType;
        settle DescriptorProto_settle.
    eat_messages DescriptorProto_ExtensionRange_codec 42 DescriptorProto_with_extensionRange;
        settle DescriptorProto_settle.
    eat_messages OneofDescriptorProto_codec 66 DescriptorProto_with_oneofDecl;
        settle DescriptorProto_settle.
    eat_message MessageOptions_codec 58 DescriptorProto_with_options; settle DescriptorProto_settle.
    eat_messages DescriptorProto_ReservedRange_codec 74 DescriptorProto_with_reservedRange;
        settle DescriptorProto_settle.
    eat_repeated string_scalar 82 DescriptorProto_with_reservedName; settle DescriptorProto_settle.
    eat_opt enum_scalar 88 DescriptorProto_with_visibility 0; settle DescriptorProto_settle.
    apply eats_nil.
Qed.

Lemma DescriptorProto_codec : codec DescriptorProto_encode DescriptorProto_decode
    DescriptorProto_norm DescriptorProto_image DescriptorProto_ok.
Proof.
  split; intros m.
  - intros Hm. apply (codec_writes _ _ _ _ _ (DescriptorProto_codec_to (DescriptorProto_depth m))).
      by split.
  - intros f r tl Hm. apply (codec_reads _ _ _ _ _ (DescriptorProto_codec_to (DescriptorProto_depth
      m))). by split.
Qed.

Lemma DescriptorProto_safe : safe_decode DescriptorProto_decode.
Proof.
  apply (decode_rec_safe _ DescriptorProto_switch createBaseDescriptorProto); [done|].
  intros F HF tag m r Hr. unfold DescriptorProto_switch. solve_safe_switch.
Qed.
#[local] Hint Resolve DescriptorProto_safe : model.

Ltac MethodDescriptorProto_settle m :=
  eval cbv beta iota delta
    [createBaseMethodDescriptorProto MethodDescriptorProto_with_name
      MethodDescriptorProto_with_inputType MethodDescriptorProto_with_outputType
      MethodDescriptorProto_with_options MethodDescriptorProto_with_clientStreaming
      MethodDescriptorProto_with_serverStreaming MethodDescriptorProto_name
      MethodDescriptorProto_inputType MethodDescriptorProto_outputType
      MethodDescriptorProto_options MethodDescriptorProto_clientStreaming
      MethodDescriptorProto_serverStreaming] in m.

Definition MethodDescriptorProto_image (m : MethodDescriptorProto) : bytes :=
  match MethodDescriptorProto_name m with
  | Some v => if negb (str_eqb v (js "")) then enc_uint32 10 ++ enc_string v else []
  | None => []
  end ++
  match MethodDescriptorProto_inputType m with
  | Some v => if negb (str_eqb v (js "")) then enc_uint32 18 ++ enc_string v else []
  | None => []
  end ++
  match MethodDescriptorProto_outputType m with
  | Some v => if negb (str_eqb v (js "")) then enc_uint32 26 ++ enc_string v else []
  | None => []
  end ++
  match MethodDescriptorProto_options m with Some v => delimited 34 (MethodOptions_image v)
      | None => [] end ++
  match MethodDescriptorProto_clientStreaming m with
  | Some v => if negb (Bool.eqb v false) then enc_uint32 40 ++ enc_bool v else []
  | None => []
  end ++
  match MethodDescriptorProto_serverStreaming m with
  | Some v => if negb (Bool.eqb v false) then enc_uint32 48 ++ enc_bool v else []
  | None => []
  end ++
  [].

Definition MethodDescriptorProto_ok (m : MethodDescriptorProto) : Prop :=
  opt_all string_ok (MethodDescriptorProto_name m) /\
  opt_all string_ok (MethodDescriptorProto_inputType m) /\
  opt_all string_ok (MethodDescriptorProto_outputType m) /\
  opt_all (fun v => MethodOptions_ok v /\ bytes_ok (MethodOptions_image v))
      (MethodDescriptorProto_options m) /\
  opt_all (fun _ : bool => True) (MethodDescriptorProto_clientStreaming m) /\
  opt_all (fun _ : bool => True) (MethodDescriptorProto_serverStreaming m).

Lemma MethodDescriptorProto_eats (F : nat) (m : MethodDescriptorProto) :
  MethodDescriptorProto_ok m -> eats (MethodDescriptorProto_switch F)
      F (MethodDescriptorProto_image m) createBaseMethodDescriptorProto (MethodDescriptorProto_norm
      m).
Proof.
  intros (H_name & H_inputType & H_outputType & H_options & H_clientStreaming & H_serverStreaming).
      unfold MethodDescriptorProto_image.
  settle MethodDescriptorProto_settle.
  eat_opt string_scalar 10 MethodDescriptorProto_with_name (js "");
      settle MethodDescriptorProto_settle.
  eat_opt string_scalar 18 MethodDescriptorProto_with_inputType (js "");
      settle MethodDescriptorProto_settle.
  eat_opt string_scalar 26 MethodDescriptorProto_with_outputType (js "");
      settle MethodDescriptorProto_settle.
  eat_message MethodOptions_codec 34 MethodDescriptorProto_with_options;
      settle MethodDescriptorProto_settle.
  eat_opt bool_scalar 40 MethodDescriptorProto_with_clientStreaming false;
      settle MethodDescriptorProto_settle.
  eat_opt bool_scalar 48 MethodDescriptorProto_with_serverStreaming false;
      settle MethodDescriptorProto_settle.
  apply eats_nil.
Qed.

Lemma MethodDescriptorProto_codec : codec MethodDescriptorProto_encode MethodDescriptorProto_decode
    MethodDescriptorProto_norm MethodDescriptorProto_image MethodDescriptorProto_ok.
Proof.
  split.
  - intros m (H_name & H_inputType & H_outputType & H_options & H_clientStreaming &
      H_serverStreaming). unfold MethodDescriptorProto_encode, MethodDescriptorProto_image.
    write ltac:(write_scalar_as string_scalar). write ltac:(write_scalar_as string_scalar).
        write ltac:(write_scalar_as string_scalar). write ltac:(write_message_as
        MethodOptions_codec). write ltac:(write_scalar_as bool_scalar).
        write ltac:(write_scalar_as bool_scalar).
    apply writes_ret.
  - intros m f r tl Hm Hr Hf. apply (decode_with_reads _ f);
      [by apply MethodDescriptorProto_eats|done|lia|done].
Qed.

Lemma MethodDescriptorProto_safe : safe_decode MethodDescriptorProto_decode.
Proof.
  apply (decode_with_safe MethodDescriptorProto_switch createBaseMethodDescriptorProto).
      intros F tag m r Hr. unfold MethodDescriptorProto_switch.
  solve_safe_switch.
Qed.
#[local] Hint Resolve MethodDescriptorProto_safe : model.

Ltac ServiceDescriptorProto_settle m :=
  eval cbv beta iota delta
    [createBaseServiceDescriptorProto ServiceDescriptorProto_with_name
      ServiceDescriptorProto_with_method ServiceDescriptorProto_with_options
      ServiceDescriptorProto_name ServiceDescriptorProto_method ServiceDescriptorProto_options] in
      m.

Definition ServiceDescriptorProto_image (m : ServiceDescriptorProto) : bytes :=
  match ServiceDescriptorProto_name m with
  | Some v => if negb (str_eqb v (js "")) then enc_uint32 10 ++ enc_string v else []
  | None => []
  end ++
  concat (map (fun v => delimited 18 (MethodDescriptorProto_image v))
      (ServiceDescriptorProto_method m)) ++
  match ServiceDescriptorProto_options m with Some v => delimited 26 (ServiceOptions_image v)
      | None => [] end ++
  [].

Definition ServiceDescriptorProto_ok (m : ServiceDescriptorProto) : Prop :=
  opt_all string_ok (ServiceDescriptorProto_name m) /\
  Forall (fun v => MethodDescriptorProto_ok v /\ bytes_ok (MethodDescriptorProto_image v))
      (ServiceDescriptorProto_method m) /\
  opt_all (fun v => ServiceOptions_ok v /\ bytes_ok (ServiceOptions_image v))
      (ServiceDescriptorProto_options m).

Lemma ServiceDescriptorProto_eats (F : nat) (m : ServiceDescriptorProto) :
  ServiceDescriptorProto_ok m -> eats (ServiceDescriptorProto_switch F)
      F (ServiceDescriptorProto_image m) createBaseServiceDescriptorProto
      (ServiceDescriptorProto_norm m).
Proof.
  intros (H_name & H_method & H_options). unfold ServiceDescriptorProto_image.
  settle ServiceDescriptorProto_settle.
  eat_opt string_scalar 10 ServiceDescriptorProto_with_name (js "");
      settle ServiceDescriptorProto_settle.
  eat_messages MethodDescriptorProto_codec 18 ServiceDescriptorProto_with_method;
      settle ServiceDescriptorProto_settle.
  eat_message ServiceOptions_codec 26 ServiceDescriptorProto_with_options;
      settle ServiceDescriptorProto_settle.
  apply eats_nil.
Qed.

Lemma ServiceDescriptorProto_codec : codec ServiceDescriptorProto_encode
    ServiceDescriptorProto_decode ServiceDescriptorProto_norm ServiceDescriptorProto_image
    ServiceDescriptorProto_ok.
Proof.
  split.
  - intros m (H_name & H_method & H_options). unfold ServiceDescriptorProto_encode,
      ServiceDescriptorProto_image.
    write ltac:(write_scalar_as string_scalar). write ltac:(write_message_as
        MethodDescriptorProto_codec). write ltac:(write_message_as ServiceOptions_codec).
    apply writes_ret.
  - intros m f r tl Hm Hr Hf. apply (decode_with_reads _ f);
      [by apply ServiceDescriptorProto_eats|done|lia|done].
Qed.

Lemma ServiceDescriptorProto_safe : safe_decode ServiceDescriptorProto_decode.
Proof.
  apply (decode_with_safe ServiceDescriptorProto_switch createBaseServiceDescriptorProto).
      intros F tag m r Hr. unfold ServiceDescriptorProto_switch.
  solve_safe_switch.
Qed.
#[local] Hint Resolve ServiceDescriptorProto_safe : model.

Ltac SourceCodeInfo_Location_settle m :=
  eval cbv beta iota delta
    [createBaseSourceCodeInfo_Location SourceCodeInfo_Location_with_path
      SourceCodeInfo_Location_with_span SourceCodeInfo_Location_with_leadingComments
      SourceCodeInfo_Location_with_trailingComments
      SourceCodeInfo_Location_with_leadingDetachedComments SourceCodeInfo_Location_path
      SourceCodeInfo_Location_span SourceCodeInfo_Location_leadingComments
      SourceCodeInfo_Location_trailingComments SourceCodeInfo_Location_leadingDetachedComments] in
      m.

Definition SourceCodeInfo_Location_image (m : SourceCodeInfo_Location) : bytes :=
  delimited 10 (concat (map (enc_number enc_int32) (SourceCodeInfo_Location_path m))) ++
  delimited 18 (concat (map (enc_number enc_int32) (SourceCodeInfo_Location_span m))) ++
  match SourceCodeInfo_Location_leadingComments m with
  | Some v => if negb (str_eqb v (js "")) then enc_uint32 26 ++ enc_string v else []
  | None => []
  end ++
  match SourceCodeInfo_Location_trailingComments m with
  | Some v => if negb (str_eqb v (js "")) then enc_uint32 34 ++ enc_string v else []
  | None => []
  end ++
  concat (map (fun v => enc_uint32 50 ++ enc_string v)
      (SourceCodeInfo_Location_leadingDetachedComments m)) ++
  [].

Definition SourceCodeInfo_Location_ok (m : SourceCodeInfo_Location) : Prop :=
  Forall int32_ok (SourceCodeInfo_Location_path m) /\
  bytes_ok (concat (map (enc_number enc_int32) (SourceCodeInfo_Location_path m))) /\
  Forall int32_ok (SourceCodeInfo_Location_span m) /\
  bytes_ok (concat (map (enc_number enc_int32) (SourceCodeInfo_Location_span m))) /\
  opt_all string_ok (SourceCodeInfo_Location_leadingComments m) /\
  opt_all string_ok (SourceCodeInfo_Location_trailingComments m) /\
  Forall string_ok (SourceCodeInfo_Location_leadingDetachedComments m).

Lemma SourceCodeInfo_Location_eats (F : nat) (m : SourceCodeInfo_Location) :
  SourceCodeInfo_Location_ok m -> eats (SourceCodeInfo_Location_switch F)
      F (SourceCodeInfo_Location_image m) createBaseSourceCodeInfo_Location
      (SourceCodeInfo_Location_norm m).
Proof.
  intros (H_path & H_path_size & H_span & H_span_size & H_leadingComments & H_trailingComments &
      H_leadingDetachedComments). unfold SourceCodeInfo_Location_image.
  settle SourceCodeInfo_Location_settle.
  eat_packed int32_scalar r_int32_number_forward 10 SourceCodeInfo_Location_with_path;
      settle SourceCodeInfo_Location_settle.
  eat_packed int32_scalar r_int32_number_forward 18 SourceCodeInfo_Location_with_span;
      settle SourceCodeInfo_Location_settle.
  eat_opt string_scalar 26 SourceCodeInfo_Location_with_leadingComments (js "");
      settle SourceCodeInfo_Location_settle.
  eat_opt string_scalar 34 SourceCodeInfo_Location_with_trailingComments (js "");
      settle SourceCodeInfo_Location_settle.
  eat_repeated string_scalar 50 SourceCodeInfo_Location_with_leadingDetachedComments;
      settle SourceCodeInfo_Location_settle.
  apply eats_nil.
Qed.

Lemma SourceCodeInfo_Location_codec : codec SourceCodeInfo_Location_encode
    SourceCodeInfo_Location_decode SourceCodeInfo_Location_norm SourceCodeInfo_Location_image
    SourceCodeInfo_Location_ok.
Proof.
  split.
  - intros m (H_path & H_path_size & H_span & H_span_size & H_leadingComments &
      H_trailingComments & H_leadingDetachedComments). unfold SourceCodeInfo_Location_encode,
      SourceCodeInfo_Location_image.
    write ltac:(write_scalar_as int32_scalar). write ltac:(write_scalar_as int32_scalar).
        write ltac:(write_scalar_as string_scalar). write ltac:(write_scalar_as string_scalar).
        write ltac:(write_scalar_as string_scalar).
    apply writes_ret.
  - intros m f r tl Hm Hr Hf. apply (decode_with_reads _ f);
      [by apply SourceCodeInfo_Location_eats|done|lia|done].
Qed.

Lemma SourceCodeInfo_Location_safe : safe_decode SourceCodeInfo_Location_decode.
Proof.
  apply (decode_with_safe SourceCodeInfo_Location_switch createBaseSourceCodeInfo_Location).
      intros F tag m r Hr. unfold SourceCodeInfo_Location_switch.
  solve_safe_switch.
Qed.
#[local] Hint Resolve SourceCodeInfo_Location_safe : model.

Ltac SourceCodeInfo_settle m :=
  eval cbv beta iota delta
    [createBaseSourceCodeInfo SourceCodeInfo_with_location SourceCodeInfo_location] in m.

Definition SourceCodeInfo_image (m : SourceCodeInfo) : bytes :=
  concat (map (fun v => delimited 10 (SourceCodeInfo_Location_image v))
      (SourceCodeInfo_location m)) ++
  [].

Definition SourceCodeInfo_ok (m : SourceCodeInfo) : Prop :=
  Forall (fun v => SourceCodeInfo_Location_ok v /\ bytes_ok (SourceCodeInfo_Location_image v))
      (SourceCodeInfo_location m).

Lemma SourceCodeInfo_eats (F : nat) (m : SourceCodeInfo) :
  SourceCodeInfo_ok m -> eats (SourceCodeInfo_switch F) F (SourceCodeInfo_image m)
      createBaseSourceCodeInfo (SourceCodeInfo_norm m).
Proof.
  intros H_location. unfold SourceCodeInfo_image.
  settle SourceCodeInfo_settle.
  eat_messages SourceCodeInfo_Location_codec 10 SourceCodeInfo_with_location;
      settle SourceCodeInfo_settle.
  apply eats_nil.
Qed.

Lemma SourceCodeInfo_codec : codec SourceCodeInfo_encode SourceCodeInfo_decode SourceCodeInfo_norm
    SourceCodeInfo_image SourceCodeInfo_ok.
Proof.
  split.
  - intros m H_location. unfold SourceCodeInfo_encode, SourceCodeInfo_image.
    write ltac:(write_message_as SourceCodeInfo_Location_codec).
    apply writes_ret.
  - intros m f r tl Hm Hr Hf. apply (decode_with_reads _ f);
      [by apply SourceCodeInfo_eats|done|lia|done].
Qed.

Lemma SourceCodeInfo_safe : safe_decode SourceCodeInfo_decode.
Proof.
  apply (decode_with_safe SourceCodeInfo_switch createBaseSourceCodeInfo). intros F tag m r Hr.
      unfold SourceCodeInfo_switch.
  solve_safe_switch.
Qed.
#[local] Hint Resolve SourceCodeInfo_safe : model.

Ltac FileDescriptorProto_settle m :=
  eval cbv beta iota delta
    [createBaseFileDescriptorProto FileDescriptorProto_with_name FileDescriptorProto_with_package
      FileDescriptorProto_with_dependency FileDescriptorProto_with_publicDependency
      FileDescriptorProto_with_weakDependency FileDescriptorProto_with_optionDependency
      FileDescriptorProto_with_messageType FileDescriptorProto_with_enumType
      FileDescriptorProto_with_service FileDescriptorProto_with_extension
      FileDescriptorProto_with_options FileDescriptorProto_with_sourceCodeInfo
      FileDescriptorProto_with_syntax FileDescriptorProto_with_edition FileDescriptorProto_name
      FileDescriptorProto_package FileDescriptorProto_dependency
      FileDescriptorProto_publicDependency FileDescriptorProto_weakDependency
      FileDescriptorProto_optionDependency FileDescriptorProto_messageType
      FileDescriptorProto_enumType FileDescriptorProto_service FileDescriptorProto_extension
      FileDescriptorProto_options FileDescriptorProto_sourceCodeInfo FileDescriptorProto_syntax
      FileDescriptorProto_edition] in m.

Definition FileDescriptorProto_image (m : FileDescriptorProto) : bytes :=
  match FileDescriptorProto_name m with
  | Some v => if negb (str_eqb v (js "")) then enc_uint32 10 ++ enc_string v else []
  | None => []
  end ++
  match FileDescriptorProto_package m with
  | Some v => if negb (str_eqb v (js "")) then enc_uint32 18 ++ enc_string v else []
  | None => []
  end ++
  concat (map (fun v => enc_uint32 26 ++ enc_string v) (FileDescriptorProto_dependency m)) ++
  delimited 82 (concat (map (enc_number enc_int32) (FileDescriptorProto_publicDependency m))) ++
  delimited 90 (concat (map (enc_number enc_int32) (FileDescriptorProto_weakDependency m))) ++
  concat (map (fun v => enc_uint32 122 ++ enc_string v) (FileDescriptorProto_optionDependency m)) ++
  concat (map (fun v => delimited 34 (DescriptorProto_image v))
      (FileDescriptorProto_messageType m)) ++
  concat (map (fun v => delimited 42 (EnumDescriptorProto_image v))
      (FileDescriptorProto_enumType m)) ++
  concat (map (fun v => delimited 50 (ServiceDescriptorProto_image v))
      (FileDescriptorProto_service m)) ++
  concat (map (fun v => delimited 58 (FieldDescriptorProto_image v))
      (FileDescriptorProto_extension m)) ++
  match FileDescriptorProto_options m with Some v => delimited 66 (FileOptions_image v)
      | None => [] end ++
  match FileDescriptorProto_sourceCodeInfo m with Some v => delimited 74 (SourceCodeInfo_image v)
      | None => [] end ++
  match FileDescriptorProto_syntax m with
  | Some v => if negb (str_eqb v (js "")) then enc_uint32 98 ++ enc_string v else []
  | None => []
  end ++
  match FileDescriptorProto_edition m with
  | Some v => if negb (v =? 0) then enc_uint32 112 ++ enc_int32 v else []
  | None => []
  end ++
  [].

Definition FileDescriptorProto_ok (m : FileDescriptorProto) : Prop :=
  opt_all string_ok (FileDescriptorProto_name m) /\
  opt_all string_ok (FileDescriptorProto_package m) /\
  Forall string_ok (FileDescriptorProto_dependency m) /\
  Forall int32_ok (FileDescriptorProto_publicDependency m) /\
  bytes_ok (concat (map (enc_number enc_int32) (FileDescriptorProto_publicDependency m))) /\
  Forall int32_ok (FileDescriptorProto_weakDependency m) /\
  bytes_ok (concat (map (enc_number enc_int32) (FileDescriptorProto_weakDependency m))) /\
  Forall string_ok (FileDescriptorProto_optionDependency m) /\
  Forall (fun v => DescriptorProto_ok v /\ bytes_ok (DescriptorProto_image v))
      (FileDescriptorProto_messageType m) /\
  Forall (fun v => EnumDescriptorProto_ok v /\ bytes_ok (EnumDescriptorProto_image v))
      (FileDescriptorProto_enumType m) /\
  Forall (fun v => ServiceDescriptorProto_ok v /\ bytes_ok (ServiceDescriptorProto_image v))
      (FileDescriptorProto_service m) /\
  Forall (fun v => FieldDescriptorProto_ok v /\ bytes_ok (FieldDescriptorProto_image v))
      (FileDescriptorProto_extension m) /\
  opt_all (fun v => FileOptions_ok v /\ bytes_ok (FileOptions_image v))
      (FileDescriptorProto_options m) /\
  opt_all (fun v => SourceCodeInfo_ok v /\ bytes_ok (SourceCodeInfo_image v))
      (FileDescriptorProto_sourceCodeInfo m) /\
  opt_all string_ok (FileDescriptorProto_syntax m) /\
  opt_all enum_ok (FileDescriptorProto_edition m).

Lemma FileDescriptorProto_eats (F : nat) (m : FileDescriptorProto) :
  FileDescriptorProto_ok m -> eats (FileDescriptorProto_switch F) F (FileDescriptorProto_image m)
      createBaseFileDescriptorProto (FileDescriptorProto_norm m).
Proof.
  intros (H_name & H_package & H_dependency & H_publicDependency & H_publicDependency_size &
      H_weakDependency & H_weakDependency_size & H_optionDependency & H_messageType & H_enumType &
      H_service & H_extension & H_options & H_sourceCodeInfo & H_syntax & H_edition).
      unfold FileDescriptorProto_image.
  settle FileDescriptorProto_settle.
  eat_opt string_scalar 10 FileDescriptorProto_with_name (js ""); settle FileDescriptorProto_settle.
  eat_opt string_scalar 18 FileDescriptorProto_with_package (js "");
      settle FileDescriptorProto_settle.
  eat_repeated string_scalar 26 FileDescriptorProto_with_dependency;
      settle FileDescriptorProto_settle.
  eat_packed int32_scalar r_int32_number_forward 82 FileDescriptorProto_with_publicDependency;
      settle FileDescriptorProto_settle.
  eat_packed int32_scalar r_int32_number_forward 90 FileDescriptorProto_with_weakDependency;
      settle FileDescriptorProto_settle.
  eat_repeated string_scalar 122 FileDescriptorProto_with_optionDependency;
      settle FileDescriptorProto_settle.
  eat_messages DescriptorProto_codec 34 FileDescriptorProto_with_messageType;
      settle FileDescriptorProto_settle.
  eat_messages EnumDescriptorProto_codec 42 FileDescriptorProto_with_enumType;
      settle FileDescriptorProto_settle.
  eat_messages ServiceDescriptorProto_codec 50 FileDescriptorProto_with_service;
      settle FileDescriptorProto_settle.
  eat_messages FieldDescriptorProto_codec 58 FileDescriptorProto_with_extension;
      settle FileDescriptorProto_settle.
  eat_message FileOptions_codec 66 FileDescriptorProto_with_options;
      settle FileDescriptorProto_settle.
  eat_message SourceCodeInfo_codec 74 FileDescriptorProto_with_sourceCodeInfo;
      settle FileDescriptorProto_settle.
  eat_opt string_scalar 98 FileDescriptorProto_with_syntax (js "");
      settle FileDescriptorProto_settle.
  eat_opt enum_scalar 112 FileDescriptorProto_with_edition 0; settle FileDescriptorProto_settle.
  apply eats_nil.
Qed.

Lemma FileDescriptorProto_codec : codec FileDescriptorProto_encode FileDescriptorProto_decode
    FileDescriptorProto_norm FileDescriptorProto_image FileDescriptorProto_ok.
Proof.
  split.
  - intros m (H_name & H_package & H_dependency & H_publicDependency & H_publicDependency_size &
      H_weakDependency & H_weakDependency_size & H_optionDependency & H_messageType & H_enumType &
      H_service & H_extension & H_options & H_sourceCodeInfo & H_syntax & H_edition).
      unfold FileDescriptorProto_encode, FileDescriptorProto_image.
    write ltac:(write_scalar_as string_scalar). write ltac:(write_scalar_as string_scalar).
        write ltac:(write_scalar_as string_scalar). write ltac:(write_scalar_as int32_scalar).
        write ltac:(write_scalar_as int32_scalar). write ltac:(write_scalar_as string_scalar).
        write ltac:(write_message_as DescriptorProto_codec).
        write ltac:(write_message_as EnumDescriptorProto_codec).
        write ltac:(write_message_as ServiceDescriptorProto_codec).
        write ltac:(write_message_as FieldDescriptorProto_codec).
        write ltac:(write_message_as FileOptions_codec).
        write ltac:(write_message_as SourceCodeInfo_codec).
        write ltac:(write_scalar_as string_scalar). write ltac:(write_scalar_as enum_scalar).
    apply writes_ret.
  - intros m f r tl Hm Hr Hf. apply (decode_with_reads _ f);
      [by apply FileDescriptorProto_eats|done|lia|done].
Qed.

Lemma FileDescriptorProto_safe : safe_decode FileDescriptorProto_decode.
Proof.
  apply (decode_with_safe FileDescriptorProto_switch createBaseFileDescriptorProto).
      intros F tag m r Hr. unfold FileDescriptorProto_switch.
  solve_safe_switch.
Qed.
#[local] Hint Resolve FileDescriptorProto_safe : model.

Ltac FileDescriptorSet_settle m :=
  eval cbv beta iota delta
    [createBaseFileDescriptorSet FileDescriptorSet_with_file FileDescriptorSet_file] in m.

Definition FileDescriptorSet_image (m : FileDescriptorSet) : bytes :=
  concat (map (fun v => delimited 10 (FileDescriptorProto_image v)) (FileDescriptorSet_file m)) ++
  [].

Definition FileDescriptorSet_ok (m : FileDescriptorSet) : Prop :=
  Forall (fun v => FileDescriptorProto_ok v /\ bytes_ok (FileDescriptorProto_image v))
      (FileDescriptorSet_file m).

Lemma FileDescriptorSet_eats (F : nat) (m : FileDescriptorSet) :
  FileDescriptorSet_ok m -> eats (FileDescriptorSet_switch F) F (FileDescriptorSet_image m)
      createBaseFileDescriptorSet (FileDescriptorSet_norm m).
Proof.
  intros H_file. unfold FileDescriptorSet_image.
  settle FileDescriptorSet_settle.
  eat_messages FileDescriptorProto_codec 10 FileDescriptorSet_with_file;
      settle FileDescriptorSet_settle.
  apply eats_nil.
Qed.

Lemma FileDescriptorSet_codec : codec FileDescriptorSet_encode FileDescriptorSet_decode
    FileDescriptorSet_norm FileDescriptorSet_image FileDescriptorSet_ok.
Proof.
  split.
  - intros m H_file. unfold FileDescriptorSet_encode, FileDescriptorSet_image.
    write ltac:(write_message_as FileDescriptorProto_codec).
    apply writes_ret.
  - intros m f r tl Hm Hr Hf. apply (decode_with_reads _ f);
      [by apply FileDescriptorSet_eats|done|lia|done].
Qed.

Lemma FileDescriptorSet_safe : safe_decode FileDescriptorSet_decode.
Proof.
  apply (decode_with_safe FileDescriptorSet_switch createBaseFileDescriptorSet).
      intros F tag m r Hr. unfold FileDescriptorSet_switch.
  solve_safe_switch.
Qed.
#[local] Hint Resolve FileDescriptorSet_safe : model.

Ltac GeneratedCodeInfo_Annotation_settle m :=
  eval cbv beta iota delta
    [createBaseGeneratedCodeInfo_Annotation GeneratedCodeInfo_Annotation_with_path
      GeneratedCodeInfo_Annotation_with_sourceFile GeneratedCodeInfo_Annotation_with_begin
      GeneratedCodeInfo_Annotation_with_end GeneratedCodeInfo_Annotation_with_semantic
      GeneratedCodeInfo_Annotation_path GeneratedCodeInfo_Annotation_sourceFile
      GeneratedCodeInfo_Annotation_begin GeneratedCodeInfo_Annotation_end
      GeneratedCodeInfo_Annotation_semantic] in m.

Definition GeneratedCodeInfo_Annotation_image (m : GeneratedCodeInfo_Annotation) : bytes :=
  delimited 10 (concat (map (enc_number enc_int32) (GeneratedCodeInfo_Annotation_path m))) ++
  match GeneratedCodeInfo_Annotation_sourceFile m with
  | Some v => if negb (str_eqb v (js "")) then enc_uint32 18 ++ enc_string v else []
  | None => []
  end ++
  match GeneratedCodeInfo_Annotation_begin m with
  | Some v => if negb (num_eqb v (Int 0)) then enc_uint32 24 ++ enc_number enc_int32 v else []
  | None => []
  end ++
  match GeneratedCodeInfo_Annotation_end m with
  | Some v => if negb (num_eqb v (Int 0)) then enc_uint32 32 ++ enc_number enc_int32 v else []
  | None => []
  end ++
  match GeneratedCodeInfo_Annotation_semantic m with
  | Some v => if negb (v =? 0) then enc_uint32 40 ++ enc_int32 v else []
  | None => []
  end ++
  [].

Definition GeneratedCodeInfo_Annotation_ok (m : GeneratedCodeInfo_Annotation) : Prop :=
  Forall int32_ok (GeneratedCodeInfo_Annotation_path m) /\
  bytes_ok (concat (map (enc_number enc_int32) (GeneratedCodeInfo_Annotation_path m))) /\
  opt_all string_ok (GeneratedCodeInfo_Annotation_sourceFile m) /\
  opt_all int32_ok (GeneratedCodeInfo_Annotation_begin m) /\
  opt_all int32_ok (GeneratedCodeInfo_Annotation_end m) /\
  opt_all enum_ok (GeneratedCodeInfo_Annotation_semantic m).

Lemma GeneratedCodeInfo_Annotation_eats (F : nat) (m : GeneratedCodeInfo_Annotation) :
  GeneratedCodeInfo_Annotation_ok m -> eats (GeneratedCodeInfo_Annotation_switch F)
      F (GeneratedCodeInfo_Annotation_image m) createBaseGeneratedCodeInfo_Annotation
      (GeneratedCodeInfo_Annotation_norm m).
Proof.
  intros (H_path & H_path_size & H_sourceFile & H_begin & H_end & H_semantic).
      unfold GeneratedCodeInfo_Annotation_image.
  settle GeneratedCodeInfo_Annotation_settle.
  eat_packed int32_scalar r_int32_number_forward 10 GeneratedCodeInfo_Annotation_with_path;
      settle GeneratedCodeInfo_Annotation_settle.
  eat_opt string_scalar 18 GeneratedCodeInfo_Annotation_with_sourceFile (js "");
      settle GeneratedCodeInfo_Annotation_settle.
  eat_opt int32_scalar 24 GeneratedCodeInfo_Annotation_with_begin (Int 0);
      settle GeneratedCodeInfo_Annotation_settle.
  eat_opt int32_scalar 32 GeneratedCodeInfo_Annotation_with_end (Int 0);
      settle GeneratedCodeInfo_Annotation_settle.
  eat_opt enum_scalar 40 GeneratedCodeInfo_Annotation_with_semantic 0;
      settle GeneratedCodeInfo_Annotation_settle.
  apply eats_nil.
Qed.

Lemma GeneratedCodeInfo_Annotation_codec : codec GeneratedCodeInfo_Annotation_encode
    GeneratedCodeInfo_Annotation_decode GeneratedCodeInfo_Annotation_norm
    GeneratedCodeInfo_Annotation_image GeneratedCodeInfo_Annotation_ok.
Proof.
  split.
  - intros m (H_path & H_path_size & H_sourceFile & H_begin & H_end & H_semantic).
      unfold GeneratedCodeInfo_Annotation_encode, GeneratedCodeInfo_Annotation_image.
    write ltac:(write_scalar_as int32_scalar). write ltac:(write_scalar_as string_scalar).
        write ltac:(write_scalar_as int32_scalar). write ltac:(write_scalar_as int32_scalar).
        write ltac:(write_scalar_as enum_scalar).
    apply writes_ret.
  - intros m f r tl Hm Hr Hf. apply (decode_with_reads _ f);
      [by apply GeneratedCodeInfo_Annotation_eats|done|lia|done].
Qed.

Lemma GeneratedCodeInfo_Annotation_safe : safe_decode GeneratedCodeInfo_Annotation_decode.
Proof.
  apply (decode_with_safe GeneratedCodeInfo_Annotation_switch
      createBaseGeneratedCodeInfo_Annotation). intros F tag m r Hr.
      unfold GeneratedCodeInfo_Annotation_switch.
  solve_safe_switch.
Qed.
#[local] Hint Resolve GeneratedCodeInfo_Annotation_safe : model.

Ltac GeneratedCodeInfo_settle m :=
  eval cbv beta iota delta
    [createBaseGeneratedCodeInfo GeneratedCodeInfo_with_annotation GeneratedCodeInfo_annotation]
      in m.

Definition GeneratedCodeInfo_image (m : GeneratedCodeInfo) : bytes :=
  concat (map (fun v => delimited 10 (GeneratedCodeInfo_Annotation_image v))
      (GeneratedCodeInfo_annotation m)) ++
  [].

Definition GeneratedCodeInfo_ok (m : GeneratedCodeInfo) : Prop :=
  Forall (fun v => GeneratedCodeInfo_Annotation_ok v /\ bytes_ok
      (GeneratedCodeInfo_Annotation_image v)) (GeneratedCodeInfo_annotation m).

Lemma GeneratedCodeInfo_eats (F : nat) (m : GeneratedCodeInfo) :
  GeneratedCodeInfo_ok m -> eats (GeneratedCodeInfo_switch F) F (GeneratedCodeInfo_image m)
      createBaseGeneratedCodeInfo (GeneratedCodeInfo_norm m).
Proof.
  intros H_annotation. unfold GeneratedCodeInfo_image.
  settle GeneratedCodeInfo_settle.
  eat_messages GeneratedCodeInfo_Annotation_codec 10 GeneratedCodeInfo_with_annotation;
      settle GeneratedCodeInfo_settle.
  apply eats_nil.
Qed.

Lemma GeneratedCodeInfo_codec : codec GeneratedCodeInfo_encode GeneratedCodeInfo_decode
    GeneratedCodeInfo_norm GeneratedCodeInfo_image GeneratedCodeInfo_ok.
Proof.
  split.
  - intros m H_annotation. unfold GeneratedCodeInfo_encode, GeneratedCodeInfo_image.
    write ltac:(write_message_as GeneratedCodeInfo_Annotation_codec).
    apply writes_ret.
  - intros m f r tl Hm Hr Hf. apply (decode_with_reads _ f);
      [by apply GeneratedCodeInfo_eats|done|lia|done].
Qed.

Lemma GeneratedCodeInfo_safe : safe_decode GeneratedCodeInfo_decode.
Proof.
  apply (decode_with_safe GeneratedCodeInfo_switch createBaseGeneratedCodeInfo).
      intros F tag m r Hr. unfold GeneratedCodeInfo_switch.
  solve_safe_switch.
Qed.
#[local] Hint Resolve GeneratedCodeInfo_safe : model.
End DescriptorWire.

#[export] Hint Resolve FieldDescriptorProto_safe EnumValueDescriptorProto_safe
    EnumDescriptorProto_EnumReservedRange_safe EnumDescriptorProto_safe
    DescriptorProto_ExtensionRange_safe OneofDescriptorProto_safe
    DescriptorProto_ReservedRange_safe DescriptorProto_safe MethodDescriptorProto_safe
    ServiceDescriptorProto_safe SourceCodeInfo_Location_safe SourceCodeInfo_safe
    FileDescriptorProto_safe FileDescriptorSet_safe GeneratedCodeInfo_Annotation_safe
    GeneratedCodeInfo_safe : model.
