(* ===== verification/DescriptorOptionsJson.v ===== *)
(** The JSON form of the option messages: [fromJSON] reads back what [toJSON] wrote. *)

From stdpp Require Import base list numbers strings.
From Stdlib Require Import Strings.Byte ZArith Lia.
From S2P Require Import Prelude JsNumber JsValue Wire WireFacts DescriptorBase DescriptorEnums.
From S2P Require Import DescriptorOptions DescriptorOptions2 Descriptor DescriptorOptionsFacts.
From S2P Require Import DescriptorOptions2Facts DescriptorFacts.
Local Open Scope Z_scope.

Section OptionsJson.
Context {HO : JsHost} {HL : JsHostLaws HO}.

Definition FieldOptions_EditionDefault_json_ok (m : FieldOptions_EditionDefault) : Prop :=
  opt_all Edition_known (FieldOptions_EditionDefault_edition m).

Lemma FieldOptions_EditionDefault_json (m : FieldOptions_EditionDefault) :
  FieldOptions_EditionDefault_json_ok m -> FieldOptions_EditionDefault_fromJSON
      (FieldOptions_EditionDefault_toJSON m) = Ok (FieldOptions_EditionDefault_norm m).
Proof.
  intros H_edition. unfold FieldOptions_EditionDefault_fromJSON,
      FieldOptions_EditionDefault_toJSON. cbv zeta.
  erewrite (field_enum _ _ (fun v => Edition_num (editionFromJSON v))
      editionToJSON 0 (FieldOptions_EditionDefault_edition m));
      [cbn [res_bind]|eapply opt_all_impl; [apply Edition_known_json|assumption]|json_get].
  erewrite (field_string _ _ (FieldOptions_EditionDefault_value m)) by json_get; cbn [res_bind].
  reflexivity.
Qed.

Definition FeatureSet_json_ok (m : FeatureSet) : Prop :=
  opt_all FeatureSet_FieldPresence_known (FeatureSet_fieldPresence m) /\
  opt_all FeatureSet_EnumType_known (FeatureSet_enumType m) /\
  opt_all FeatureSet_RepeatedFieldEncoding_known (FeatureSet_repeatedFieldEncoding m) /\
  opt_all FeatureSet_Utf8Validation_known (FeatureSet_utf8Validation m) /\
  opt_all FeatureSet_MessageEncoding_known (FeatureSet_messageEncoding m) /\
  opt_all FeatureSet_JsonFormat_known (FeatureSet_jsonFormat m) /\
  opt_all FeatureSet_EnforceNamingStyle_known (FeatureSet_enforceNamingStyle m) /\
  opt_all FeatureSet_VisibilityFeature_DefaultSymbolVisibility_known
      (FeatureSet_defaultSymbolVisibility m).

Lemma FeatureSet_json (m : FeatureSet) :
  FeatureSet_json_ok m -> FeatureSet_fromJSON (FeatureSet_toJSON m) = Ok (FeatureSet_norm m).
Proof.
  intros (H_fieldPresence & H_enumType & H_repeatedFieldEncoding & H_utf8Validation &
      H_messageEncoding & H_jsonFormat & H_enforceNamingStyle & H_defaultSymbolVisibility).
      unfold FeatureSet_fromJSON, FeatureSet_toJSON. cbv zeta.
  erewrite (field_enum _ _ (fun v => FeatureSet_FieldPresence_num (featureSet_FieldPresenceFromJSON
      v)) featureSet_FieldPresenceToJSON 0 (FeatureSet_fieldPresence m));
      [cbn [res_bind]|eapply opt_all_impl; [apply
      FeatureSet_FieldPresence_known_json|assumption]|json_get].
  erewrite (field_enum _ _ (fun v => FeatureSet_EnumType_num (featureSet_EnumTypeFromJSON v))
      featureSet_EnumTypeToJSON 0 (FeatureSet_enumType m)); [cbn [res_bind]|eapply opt_all_impl;
      [apply FeatureSet_EnumType_known_json|assumption]|json_get].
  erewrite (field_enum _ _ (fun v => FeatureSet_RepeatedFieldEncoding_num
      (featureSet_RepeatedFieldEncodingFromJSON v)) featureSet_RepeatedFieldEncodingToJSON 0
      (FeatureSet_repeatedFieldEncoding m)); [cbn [res_bind]|eapply opt_all_impl;
      [apply FeatureSet_RepeatedFieldEncoding_known_json|assumption]|json_get].
  erewrite (field_enum _ _ (fun v => FeatureSet_Utf8Validation_num
      (featureSet_Utf8ValidationFromJSON v)) featureSet_Utf8ValidationToJSON 0
      (FeatureSet_utf8Validation m)); [cbn [res_bind]|eapply opt_all_impl;
      [apply FeatureSet_Utf8Validation_known_json|assumption]|json_get].
  erewrite (field_enum _ _ (fun v => FeatureSet_MessageEncoding_num
      (featureSet_MessageEncodingFromJSON v)) featureSet_MessageEncodingToJSON 0
      (FeatureSet_messageEncoding m)); [cbn [res_bind]|eapply opt_all_impl;
      [apply FeatureSet_MessageEncoding_known_json|assumption]|json_get].
  erewrite (field_enum _ _ (fun v => FeatureSet_JsonFormat_num (featureSet_JsonFormatFromJSON v))
      featureSet_JsonFormatToJSON 0 (FeatureSet_jsonFormat m));
      [cbn [res_bind]|eapply opt_all_impl; [apply
      FeatureSet_JsonFormat_known_json|assumption]|json_get].
  erewrite (field_enum _ _ (fun v => FeatureSet_EnforceNamingStyle_num
      (featureSet_EnforceNamingStyleFromJSON v)) featureSet_EnforceNamingStyleToJSON 0
      (FeatureSet_enforceNamingStyle m)); [cbn [res_bind]|eapply opt_all_impl;
      [apply FeatureSet_EnforceNamingStyle_known_json|assumption]|json_get].
  erewrite (field_enum _ _ (fun v => FeatureSet_VisibilityFeature_DefaultSymbolVisibility_num
      (featureSet_VisibilityFeature_DefaultSymbolVisibilityFromJSON v))
      featureSet_VisibilityFeature_DefaultSymbolVisibilityToJSON 0
      (FeatureSet_defaultSymbolVisibility m)); [cbn [res_bind]|eapply opt_all_impl;
      [apply FeatureSet_VisibilityFeature_DefaultSymbolVisibility_known_json|assumption]|json_get].
  reflexivity.
Qed.

Definition FieldOptions_FeatureSupport_json_ok (m : FieldOptions_FeatureSupport) : Prop :=
  opt_all Edition_known (FieldOptions_FeatureSupport_editionIntroduced m) /\
  opt_all Edition_known (FieldOptions_FeatureSupport_editionDeprecated m) /\
  opt_all Edition_known (FieldOptions_FeatureSupport_editionRemoved m).

Lemma FieldOptions_FeatureSupport_json (m : FieldOptions_FeatureSupport) :
  FieldOptions_FeatureSupport_json_ok m -> FieldOptions_FeatureSupport_fromJSON
      (FieldOptions_FeatureSupport_toJSON m) = Ok (FieldOptions_FeatureSupport_norm m).
Proof.
  intros (H_editionIntroduced & H_editionDeprecated & H_editionRemoved).
      unfold FieldOptions_FeatureSupport_fromJSON, FieldOptions_FeatureSupport_toJSON. cbv zeta.
  erewrite (field_enum _ _ (fun v => Edition_num (editionFromJSON v))
      editionToJSON 0 (FieldOptions_FeatureSupport_editionIntroduced m));
      [cbn [res_bind]|eapply opt_all_impl; [apply Edition_known_json|assumption]|json_get].
  erewrite (field_enum _ _ (fun v => Edition_num (editionFromJSON v))
      editionToJSON 0 (FieldOptions_FeatureSupport_editionDeprecated m));
      [cbn [res_bind]|eapply opt_all_impl; [apply Edition_known_json|assumption]|json_get].
  erewrite (field_string _ _ (FieldOptions_FeatureSupport_deprecationWarning m)) by json_get;
      cbn [res_bind].
  erewrite (field_enum _ _ (fun v => Edition_num (editionFromJSON v))
      editionToJSON 0 (FieldOptions_FeatureSupport_editionRemoved m));
      [cbn [res_bind]|eapply opt_all_impl; [apply Edition_known_json|assumption]|json_get].
  reflexivity.
Qed.

Definition UninterpretedOption_NamePart_json_ok (_ : UninterpretedOption_NamePart) : Prop :=
  True.

Lemma UninterpretedOption_NamePart_json (m : UninterpretedOption_NamePart) :
  UninterpretedOption_NamePart_json_ok m -> UninterpretedOption_NamePart_fromJSON
      (UninterpretedOption_NamePart_toJSON m) = Ok (UninterpretedOption_NamePart_norm m).
Proof.
  intros _. unfold UninterpretedOption_NamePart_fromJSON, UninterpretedOption_NamePart_toJSON.
      cbv zeta.
  erewrite (field_string _ _ (Some (UninterpretedOption_NamePart_namePart m))) by json_get;
      cbn [res_bind].
  erewrite (field_bool _ _ false (Some (UninterpretedOption_NamePart_isExtension m))) by json_get;
      cbn [res_bind].
  reflexivity.
Qed.

Definition UninterpretedOption_json_ok (m : UninterpretedOption) : Prop :=
  Forall UninterpretedOption_NamePart_json_ok (UninterpretedOption_name m) /\
  opt_all json_int (UninterpretedOption_positiveIntValue m) /\
  opt_all json_int (UninterpretedOption_negativeIntValue m) /\
  opt_all (fun x => x <> NegZero) (UninterpretedOption_doubleValue m).

Lemma UninterpretedOption_json (m : UninterpretedOption) :
  UninterpretedOption_json_ok m -> UninterpretedOption_fromJSON (UninterpretedOption_toJSON m)
      = Ok (UninterpretedOption_norm m).
Proof.
  intros (H_name & H_positiveIntValue & H_negativeIntValue & H_doubleValue).
      unfold UninterpretedOption_fromJSON, UninterpretedOption_toJSON. cbv zeta.
  erewrite (array_field_map _ _ UninterpretedOption_NamePart_toJSON _
      UninterpretedOption_NamePart_norm UninterpretedOption_NamePart_json_ok
      (UninterpretedOption_name m)); [cbn [res_bind]|by apply
      UninterpretedOption_NamePart_json|assumption|json_get].
  erewrite (field_string _ _ (UninterpretedOption_identifierValue m)) by json_get; cbn [res_bind].
  erewrite (field_int _ _ (UninterpretedOption_positiveIntValue m));
      [cbn [res_bind]|assumption|json_get].
  erewrite (field_int _ _ (UninterpretedOption_negativeIntValue m));
      [cbn [res_bind]|assumption|json_get].
  erewrite (field_double _ _ (UninterpretedOption_doubleValue m));
      [cbn [res_bind]|assumption|json_get].
  erewrite (field_bytes _ _ (UninterpretedOption_stringValue m)) by json_get; cbn [res_bind].
  erewrite (field_string _ _ (UninterpretedOption_aggregateValue m)) by json_get; cbn [res_bind].
  reflexivity.
Qed.

Definition FieldOptions_json_ok (m : FieldOptions) : Prop :=
  opt_all FieldOptions_CType_known (FieldOptions_ctype m) /\
  opt_all FieldOptions_JSType_known (FieldOptions_jstype m) /\
  opt_all FieldOptions_OptionRetention_known (FieldOptions_retention m) /\
  Forall FieldOptions_OptionTargetType_known (FieldOptions_targets m) /\
  Forall FieldOptions_EditionDefault_json_ok (FieldOptions_editionDefaults m) /\
  opt_all FeatureSet_json_ok (FieldOptions_features m) /\
  opt_all FieldOptions_FeatureSupport_json_ok (FieldOptions_featureSupport m) /\
  Forall UninterpretedOption_json_ok (FieldOptions_uninterpretedOption m).

Lemma FieldOptions_json (m : FieldOptions) :
  FieldOptions_json_ok m -> FieldOptions_fromJSON (FieldOptions_toJSON m)
      = Ok (FieldOptions_norm m).
Proof.
  intros (H_ctype & H_jstype & H_retention & H_targets & H_editionDefaults & H_features &
      H_featureSupport & H_uninterpretedOption). unfold FieldOptions_fromJSON, FieldOptions_toJSON.
      cbv zeta.
  erewrite (field_enum _ _ (fun v => FieldOptions_CType_num (fieldOptions_CTypeFromJSON v))
      fieldOptions_CTypeToJSON 0 (FieldOptions_ctype m)); [cbn [res_bind]|eapply opt_all_impl;
      [apply FieldOptions_CType_known_json|assumption]|json_get].
  erewrite (field_bool _ _ false (FieldOptions_packed m)) by json_get; cbn [res_bind].
  erewrite (field_enum _ _ (fun v => FieldOptions_JSType_num (fieldOptions_JSTypeFromJSON v))
      fieldOptions_JSTypeToJSON 0 (FieldOptions_jstype m)); [cbn [res_bind]|eapply opt_all_impl;
      [apply FieldOptions_JSType_known_json|assumption]|json_get].
  erewrite (field_bool _ _ false (FieldOptions_lazy m)) by json_get; cbn [res_bind].
  erewrite (field_bool _ _ false (FieldOptions_unverifiedLazy m)) by json_get; cbn [res_bind].
  erewrite (field_bool _ _ false (FieldOptions_deprecated m)) by json_get; cbn [res_bind].
  erewrite (field_bool _ _ false (FieldOptions_weak m)) by json_get; cbn [res_bind].
  erewrite (field_bool _ _ false (FieldOptions_debugRedact m)) by json_get; cbn [res_bind].
  erewrite (field_enum _ _ (fun v => FieldOptions_OptionRetention_num
      (fieldOptions_OptionRetentionFromJSON v)) fieldOptions_OptionRetentionToJSON 0
      (FieldOptions_retention m)); [cbn [res_bind]|eapply opt_all_impl;
      [apply FieldOptions_OptionRetention_known_json|assumption]|json_get].
  erewrite (array_field_id _ _ (fun e => VString (fieldOptions_OptionTargetTypeToJSON e))
      _ FieldOptions_OptionTargetType_known (FieldOptions_targets m)); [cbn [res_bind]|intros;
      f_equal; by apply FieldOptions_OptionTargetType_known_json|assumption|json_get].
  erewrite (array_field_map _ _ FieldOptions_EditionDefault_toJSON _
      FieldOptions_EditionDefault_norm FieldOptions_EditionDefault_json_ok
      (FieldOptions_editionDefaults m)); [cbn [res_bind]|by apply
      FieldOptions_EditionDefault_json|assumption|json_get].
  erewrite (opt_field_message _ _ FeatureSet_toJSON _ FeatureSet_norm FeatureSet_json_ok
      (FieldOptions_features m)); [cbn [res_bind]|intros; split;
      [reflexivity|by apply FeatureSet_json]|assumption|json_get].
  erewrite (opt_field_message _ _ FieldOptions_FeatureSupport_toJSON _
      FieldOptions_FeatureSupport_norm FieldOptions_FeatureSupport_json_ok
      (FieldOptions_featureSupport m)); [cbn [res_bind]|intros; split;
      [reflexivity|by apply FieldOptions_FeatureSupport_json]|assumption|json_get].
  erewrite (array_field_map _ _ UninterpretedOption_toJSON _ UninterpretedOption_norm
      UninterpretedOption_json_ok (FieldOptions_uninterpretedOption m));
      [cbn [res_bind]|by apply UninterpretedOption_json|assumption|json_get].
  reflexivity.
Qed.

Definition EnumValueOptions_json_ok (m : EnumValueOptions) : Prop :=
  opt_all FeatureSet_json_ok (EnumValueOptions_features m) /\
  opt_all FieldOptions_FeatureSupport_json_ok (EnumValueOptions_featureSupport m) /\
  Forall UninterpretedOption_json_ok (EnumValueOptions_uninterpretedOption m).

Lemma EnumValueOptions_json (m : EnumValueOptions) :
  EnumValueOptions_json_ok m -> EnumValueOptions_fromJSON (EnumValueOptions_toJSON m)
      = Ok (EnumValueOptions_norm m).
Proof.
  intros (H_features & H_featureSupport & H_uninterpretedOption).
      unfold EnumValueOptions_fromJSON, EnumValueOptions_toJSON. cbv zeta.
  erewrite (field_bool _ _ false (EnumValueOptions_deprecated m)) by json_get; cbn [res_bind].
  erewrite (opt_field_message _ _ FeatureSet_toJSON _ FeatureSet_norm FeatureSet_json_ok
      (EnumValueOptions_features m)); [cbn [res_bind]|intros; split;
      [reflexivity|by apply FeatureSet_json]|assumption|json_get].
  erewrite (field_bool _ _ false (EnumValueOptions_debugRedact m)) by json_get; cbn [res_bind].
  erewrite (opt_field_message _ _ FieldOptions_FeatureSupport_toJSON _
      FieldOptions_FeatureSupport_norm FieldOptions_FeatureSupport_json_ok
      (EnumValueOptions_featureSupport m)); [cbn [res_bind]|intros; split;
      [reflexivity|by apply FieldOptions_FeatureSupport_json]|assumption|json_get].
  erewrite (array_field_map _ _ UninterpretedOption_toJSON _ UninterpretedOption_norm
      UninterpretedOption_json_ok (EnumValueOptions_uninterpretedOption m));
      [cbn [res_bind]|by apply UninterpretedOption_json|assumption|json_get].
  reflexivity.
Qed.

Definition EnumOptions_json_ok (m : EnumOptions) : Prop :=
  opt_all FeatureSet_json_ok (EnumOptions_features m) /\
  Forall UninterpretedOption_json_ok (EnumOptions_uninterpretedOption m).

Lemma EnumOptions_json (m : EnumOptions) :
  EnumOptions_json_ok m -> EnumOptions_fromJSON (EnumOptions_toJSON m) = Ok (EnumOptions_norm m).
Proof.
  intros (H_features & H_uninterpretedOption). unfold EnumOptions_fromJSON, EnumOptions_toJSON.
      cbv zeta.
  erewrite (field_bool _ _ false (EnumOptions_allowAlias m)) by json_get; cbn [res_bind].
  erewrite (field_bool _ _ false (EnumOptions_deprecated m)) by json_get; cbn [res_bind].
  erewrite (field_bool _ _ false (EnumOptions_deprecatedLegacyJsonFieldConflicts m)) by json_get;
      cbn [res_bind].
  erewrite (opt_field_message _ _ FeatureSet_toJSON _ FeatureSet_norm FeatureSet_json_ok
      (EnumOptions_features m)); [cbn [res_bind]|intros; split;
      [reflexivity|by apply FeatureSet_json]|assumption|json_get].
  erewrite (array_field_map _ _ UninterpretedOption_toJSON _ UninterpretedOption_norm
      UninterpretedOption_json_ok (EnumOptions_uninterpretedOption m));
      [cbn [res_bind]|by apply UninterpretedOption_json|assumption|json_get].
  reflexivity.
Qed.

Definition ExtensionRangeOptions_Declaration_json_ok (m : ExtensionRangeOptions_Declaration)
    : Prop :=
  opt_all json_int (ExtensionRangeOptions_Declaration_number m).

Lemma ExtensionRangeOptions_Declaration_json (m : ExtensionRangeOptions_Declaration) :
  ExtensionRangeOptions_Declaration_json_ok m -> ExtensionRangeOptions_Declaration_fromJSON
      (ExtensionRangeOptions_Declaration_toJSON m) = Ok (ExtensionRangeOptions_Declaration_norm m).
Proof.
  intros H_number. unfold ExtensionRangeOptions_Declaration_fromJSON,
      ExtensionRangeOptions_Declaration_toJSON. cbv zeta.
  erewrite (field_int _ _ (ExtensionRangeOptions_Declaration_number m));
      [cbn [res_bind]|assumption|json_get].
  erewrite (field_string _ _ (ExtensionRangeOptions_Declaration_fullName m)) by json_get;
      cbn [res_bind].
  erewrite (field_string _ _ (ExtensionRangeOptions_Declaration_type m)) by json_get;
      cbn [res_bind].
  erewrite (field_bool _ _ false (ExtensionRangeOptions_Declaration_reserved m)) by json_get;
      cbn [res_bind].
  erewrite (field_bool _ _ false (ExtensionRangeOptions_Declaration_repeated m)) by json_get;
      cbn [res_bind].
  reflexivity.
Qed.

Definition ExtensionRangeOptions_json_ok (m : ExtensionRangeOptions) : Prop :=
  Forall UninterpretedOption_json_ok (ExtensionRangeOptions_uninterpretedOption m) /\
  Forall ExtensionRangeOptions_Declaration_json_ok (ExtensionRangeOptions_declaration m) /\
  opt_all FeatureSet_json_ok (ExtensionRangeOptions_features m) /\
  opt_all ExtensionRangeOptions_VerificationState_known (ExtensionRangeOptions_verification m).

Lemma ExtensionRangeOptions_json (m : ExtensionRangeOptions) :
  ExtensionRangeOptions_json_ok m -> ExtensionRangeOptions_fromJSON (ExtensionRangeOptions_toJSON
      m) = Ok (ExtensionRangeOptions_norm m).
Proof.
  intros (H_uninterpretedOption & H_declaration & H_features & H_verification).
      unfold ExtensionRangeOptions_fromJSON, ExtensionRangeOptions_toJSON. cbv zeta.
  erewrite (array_field_map _ _ UninterpretedOption_toJSON _ UninterpretedOption_norm
      UninterpretedOption_json_ok (ExtensionRangeOptions_uninterpretedOption m));
      [cbn [res_bind]|by apply UninterpretedOption_json|assumption|json_get].
  erewrite (array_field_map _ _ ExtensionRangeOptions_Declaration_toJSON _
      ExtensionRangeOptions_Declaration_norm ExtensionRangeOptions_Declaration_json_ok
      (ExtensionRangeOptions_declaration m)); [cbn [res_bind]|by apply
      ExtensionRangeOptions_Declaration_json|assumption|json_get].
  erewrite (opt_field_message _ _ FeatureSet_toJSON _ FeatureSet_norm FeatureSet_json_ok
      (ExtensionRangeOptions_features m)); [cbn [res_bind]|intros; split;
      [reflexivity|by apply FeatureSet_json]|assumption|json_get].
  erewrite (field_enum _ _ (fun v => ExtensionRangeOptions_VerificationState_num
      (extensionRangeOptions_VerificationStateFromJSON v))
      extensionRangeOptions_VerificationStateToJSON 1 (ExtensionRangeOptions_verification m));
      [cbn [res_bind]|eapply opt_all_impl; [apply
      ExtensionRangeOptions_VerificationState_known_json|assumption]|json_get].
  reflexivity.
Qed.

Definition OneofOptions_json_ok (m : OneofOptions) : Prop :=
  opt_all FeatureSet_json_ok (OneofOptions_features m) /\
  Forall UninterpretedOption_json_ok (OneofOptions_uninterpretedOption m).

Lemma OneofOptions_json (m : OneofOptions) :
  OneofOptions_json_ok m -> OneofOptions_fromJSON (OneofOptions_toJSON m)
      = Ok (OneofOptions_norm m).
Proof.
  intros (H_features & H_uninterpretedOption). unfold OneofOptions_fromJSON, OneofOptions_toJSON.
      cbv zeta.
  erewrite (opt_field_message _ _ FeatureSet_toJSON _ FeatureSet_norm FeatureSet_json_ok
      (OneofOptions_features m)); [cbn [res_bind]|intros; split;
      [reflexivity|by apply FeatureSet_json]|assumption|json_get].
  erewrite (array_field_map _ _ UninterpretedOption_toJSON _ UninterpretedOption_norm
      UninterpretedOption_json_ok (OneofOptions_uninterpretedOption m));
      [cbn [res_bind]|by apply UninterpretedOption_json|assumption|json_get].
  reflexivity.
Qed.

Definition MessageOptions_json_ok (m : MessageOptions) : Prop :=
  opt_all FeatureSet_json_ok (MessageOptions_features m) /\
  Forall UninterpretedOption_json_ok (MessageOptions_uninterpretedOption m).

Lemma MessageOptions_json (m : MessageOptions) :
  MessageOptions_json_ok m -> MessageOptions_fromJSON (MessageOptions_toJSON m)
      = Ok (MessageOptions_norm m).
Proof.
  intros (H_features & H_uninterpretedOption). unfold MessageOptions_fromJSON,
      MessageOptions_toJSON. cbv zeta.
  erewrite (field_bool _ _ false (MessageOptions_messageSetWireFormat m)) by json_get;
      cbn [res_bind].
  erewrite (field_bool _ _ false (MessageOptions_noStandardDescriptorAccessor m)) by json_get;
      cbn [res_bind].
  erewrite (field_bool _ _ false (MessageOptions_deprecated m)) by json_get; cbn [res_bind].
  erewrite (field_bool _ _ false (MessageOptions_mapEntry m)) by json_get; cbn [res_bind].
  erewrite (field_bool _ _ false (MessageOptions_deprecatedLegacyJsonFieldConflicts m))
      by json_get; cbn [res_bind].
  erewrite (opt_field_message _ _ FeatureSet_toJSON _ FeatureSet_norm FeatureSet_json_ok
      (MessageOptions_features m)); [cbn [res_bind]|intros; split;
      [reflexivity|by apply FeatureSet_json]|assumption|json_get].
  erewrite (array_field_map _ _ UninterpretedOption_toJSON _ UninterpretedOption_norm
      UninterpretedOption_json_ok (MessageOptions_uninterpretedOption m));
      [cbn [res_bind]|by apply UninterpretedOption_json|assumption|json_get].
  reflexivity.
Qed.

Definition MethodOptions_json_ok (m : MethodOptions) : Prop :=
  opt_all MethodOptions_IdempotencyLevel_known (MethodOptions_idempotencyLevel m) /\
  opt_all FeatureSet_json_ok (MethodOptions_features m) /\
  Forall UninterpretedOption_json_ok (MethodOptions_uninterpretedOption m).

Lemma MethodOptions_json (m : MethodOptions) :
  MethodOptions_json_ok m -> MethodOptions_fromJSON (MethodOptions_toJSON m)
      = Ok (MethodOptions_norm m).
Proof.
  intros (H_idempotencyLevel & H_features & H_uninterpretedOption).
      unfold MethodOptions_fromJSON, MethodOptions_toJSON. cbv zeta.
  erewrite (field_bool _ _ false (MethodOptions_deprecated m)) by json_get; cbn [res_bind].
  erewrite (field_enum _ _ (fun v => MethodOptions_IdempotencyLevel_num
      (methodOptions_IdempotencyLevelFromJSON v)) methodOptions_IdempotencyLevelToJSON 0
      (MethodOptions_idempotencyLevel m)); [cbn [res_bind]|eapply opt_all_impl;
      [apply MethodOptions_IdempotencyLevel_known_json|assumption]|json_get].
  erewrite (opt_field_message _ _ FeatureSet_toJSON _ FeatureSet_norm FeatureSet_json_ok
      (MethodOptions_features m)); [cbn [res_bind]|intros; split;
      [reflexivity|by apply FeatureSet_json]|assumption|json_get].
  erewrite (array_field_map _ _ UninterpretedOption_toJSON _ UninterpretedOption_norm
      UninterpretedOption_json_ok (MethodOptions_uninterpretedOption m));
      [cbn [res_bind]|by apply UninterpretedOption_json|assumption|json_get].
  reflexivity.
Qed.

Definition ServiceOptions_json_ok (m : ServiceOptions) : Prop :=
  opt_all FeatureSet_json_ok (ServiceOptions_features m) /\
  Forall UninterpretedOption_json_ok (ServiceOptions_uninterpretedOption m).

Lemma ServiceOptions_json (m : ServiceOptions) :
  ServiceOptions_json_ok m -> ServiceOptions_fromJSON (ServiceOptions_toJSON m)
      = Ok (ServiceOptions_norm m).
Proof.
  intros (H_features & H_uninterpretedOption). unfold ServiceOptions_fromJSON,
      ServiceOptions_toJSON. cbv zeta.
  erewrite (opt_field_message _ _ FeatureSet_toJSON _ FeatureSet_norm FeatureSet_json_ok
      (ServiceOptions_features m)); [cbn [res_bind]|intros; split;
      [reflexivity|by apply FeatureSet_json]|assumption|json_get].
  erewrite (field_bool _ _ false (ServiceOptions_deprecated m)) by json_get; cbn [res_bind].
  erewrite (array_field_map _ _ UninterpretedOption_toJSON _ UninterpretedOption_norm
      UninterpretedOption_json_ok (ServiceOptions_uninterpretedOption m));
      [cbn [res_bind]|by apply UninterpretedOption_json|assumption|json_get].
  reflexivity.
Qed.

Definition FileOptions_json_ok (m : FileOptions) : Prop :=
  opt_all FileOptions_OptimizeMode_known (FileOptions_optimizeFor m) /\
  opt_all FeatureSet_json_ok (FileOptions_features m) /\
  Forall UninterpretedOption_json_ok (FileOptions_uninterpretedOption m).

Lemma FileOptions_json (m : FileOptions) :
  FileOptions_json_ok m -> FileOptions_fromJSON (FileOptions_toJSON m) = Ok (FileOptions_norm m).
Proof.
  intros (H_optimizeFor & H_features & H_uninterpretedOption).
      unfold FileOptions_fromJSON, FileOptions_toJSON. cbv zeta.
  erewrite (field_string _ _ (FileOptions_javaPackage m)) by json_get; cbn [res_bind].
  erewrite (field_string _ _ (FileOptions_javaOuterClassname m)) by json_get; cbn [res_bind].
  erewrite (field_bool _ _ false (FileOptions_javaMultipleFiles m)) by json_get; cbn [res_bind].
  erewrite (field_bool _ _ false (FileOptions_javaGenerateEqualsAndHash m)) by json_get;
      cbn [res_bind].
  erewrite (field_bool _ _ false (FileOptions_javaStringCheckUtf8 m)) by json_get; cbn [res_bind].
  erewrite (field_enum _ _ (fun v => FileOptions_OptimizeMode_num (fileOptions_OptimizeModeFromJSON
      v)) fileOptions_OptimizeModeToJSON 1 (FileOptions_optimizeFor m));
      [cbn [res_bind]|eapply opt_all_impl; [apply
      FileOptions_OptimizeMode_known_json|assumption]|json_get].
  erewrite (field_string _ _ (FileOptions_goPackage m)) by json_get; cbn [res_bind].
  erewrite (field_bool _ _ false (FileOptions_ccGenericServices m)) by json_get; cbn [res_bind].
  erewrite (field_bool _ _ false (FileOptions_javaGenericServices m)) by json_get; cbn [res_bind].
  erewrite (field_bool _ _ false (FileOptions_pyGenericServices m)) by json_get; cbn [res_bind].
  erewrite (field_bool _ _ false (FileOptions_deprecated m)) by json_get; cbn [res_bind].
  erewrite (field_bool _ _ true (FileOptions_ccEnableArenas m)) by json_get; cbn [res_bind].
  erewrite (field_string _ _ (FileOptions_objcClassPrefix m)) by json_get; cbn [res_bind].
  erewrite (field_string _ _ (FileOptions_csharpNamespace m)) by json_get; cbn [res_bind].
  erewrite (field_string _ _ (FileOptions_swiftPrefix m)) by json_get; cbn [res_bind].
  erewrite (field_string _ _ (FileOptions_phpClassPrefix m)) by json_get; cbn [res_bind].
  erewrite (field_string _ _ (FileOptions_phpNamespace m)) by json_get; cbn [res_bind].
  erewrite (field_string _ _ (FileOptions_phpMetadataNamespace m)) by json_get; cbn [res_bind].
  erewrite (field_string _ _ (FileOptions_rubyPackage m)) by json_get; cbn [res_bind].
  erewrite (opt_field_message _ _ FeatureSet_toJSON _ FeatureSet_norm FeatureSet_json_ok
      (FileOptions_features m)); [cbn [res_bind]|intros; split;
      [reflexivity|by apply FeatureSet_json]|assumption|json_get].
  erewrite (array_field_map _ _ UninterpretedOption_toJSON _ UninterpretedOption_norm
      UninterpretedOption_json_ok (FileOptions_uninterpretedOption m));
      [cbn [res_bind]|by apply UninterpretedOption_json|assumption|json_get].
  reflexivity.
Qed.

Definition FeatureSet_VisibilityFeature_json_ok (_ : FeatureSet_VisibilityFeature) : Prop :=
  True.

Lemma FeatureSet_VisibilityFeature_json (m : FeatureSet_VisibilityFeature) :
  FeatureSet_VisibilityFeature_json_ok m -> FeatureSet_VisibilityFeature_fromJSON
      (FeatureSet_VisibilityFeature_toJSON m) = Ok (FeatureSet_VisibilityFeature_norm m).
Proof.
  intros _. unfold FeatureSet_VisibilityFeature_fromJSON, FeatureSet_VisibilityFeature_toJSON.
      cbv zeta.
  reflexivity.
Qed.

Definition FeatureSetDefaults_FeatureSetEditionDefault_json_ok (m :
    FeatureSetDefaults_FeatureSetEditionDefault) : Prop :=
  opt_all Edition_known (FeatureSetDefaults_FeatureSetEditionDefault_edition m) /\
  opt_all FeatureSet_json_ok (FeatureSetDefaults_FeatureSetEditionDefault_overridableFeatures m) /\
  opt_all FeatureSet_json_ok (FeatureSetDefaults_FeatureSetEditionDefault_fixedFeatures m).

Lemma FeatureSetDefaults_FeatureSetEditionDefault_json (m :
    FeatureSetDefaults_FeatureSetEditionDefault) :
  FeatureSetDefaults_FeatureSetEditionDefault_json_ok m ->
      FeatureSetDefaults_FeatureSetEditionDefault_fromJSON
      (FeatureSetDefaults_FeatureSetEditionDefault_toJSON m)
      = Ok (FeatureSetDefaults_FeatureSetEditionDefault_norm m).
Proof.
  intros (H_edition & H_overridableFeatures & H_fixedFeatures).
      unfold FeatureSetDefaults_FeatureSetEditionDefault_fromJSON,
      FeatureSetDefaults_FeatureSetEditionDefault_toJSON. cbv zeta.
  erewrite (field_enum _ _ (fun v => Edition_num (editionFromJSON v))
      editionToJSON 0 (FeatureSetDefaults_FeatureSetEditionDefault_edition m));
      [cbn [res_bind]|eapply opt_all_impl; [apply Edition_known_json|assumption]|json_get].
  erewrite (opt_field_message _ _ FeatureSet_toJSON _ FeatureSet_norm FeatureSet_json_ok
      (FeatureSetDefaults_FeatureSetEditionDefault_overridableFeatures m)); [cbn [res_bind]|intros;
      split; [reflexivity|by apply FeatureSet_json]|assumption|json_get].
  erewrite (opt_field_message _ _ FeatureSet_toJSON _ FeatureSet_norm FeatureSet_json_ok
      (FeatureSetDefaults_FeatureSetEditionDefault_fixedFeatures m)); [cbn [res_bind]|intros;
      split; [reflexivity|by apply FeatureSet_json]|assumption|json_get].
  reflexivity.
Qed.

Definition FeatureSetDefaults_json_ok (m : FeatureSetDefaults) : Prop :=
  Forall FeatureSetDefaults_FeatureSetEditionDefault_json_ok (FeatureSetDefaults_defaults m) /\
  opt_all Edition_known (FeatureSetDefaults_minimumEdition m) /\
  opt_all Edition_known (FeatureSetDefaults_maximumEdition m).

Lemma FeatureSetDefaults_json (m : FeatureSetDefaults) :
  FeatureSetDefaults_json_ok m -> FeatureSetDefaults_fromJSON (FeatureSetDefaults_toJSON m)
      = Ok (FeatureSetDefaults_norm m).
Proof.
  intros (H_defaults & H_minimumEdition & H_maximumEdition).
      unfold FeatureSetDefaults_fromJSON, FeatureSetDefaults_toJSON. cbv zeta.
  erewrite (array_field_map _ _ FeatureSetDefaults_FeatureSetEditionDefault_toJSON _
      FeatureSetDefaults_FeatureSetEditionDefault_norm
      FeatureSetDefaults_FeatureSetEditionDefault_json_ok (FeatureSetDefaults_defaults m));
      [cbn [res_bind]|by apply
      FeatureSetDefaults_FeatureSetEditionDefault_json|assumption|json_get].
  erewrite (field_enum _ _ (fun v => Edition_num (editionFromJSON v))
      editionToJSON 0 (FeatureSetDefaults_minimumEdition m)); [cbn [res_bind]|eapply opt_all_impl;
      [apply Edition_known_json|assumption]|json_get].
  erewrite (field_enum _ _ (fun v => Edition_num (editionFromJSON v))
      editionToJSON 0 (FeatureSetDefaults_maximumEdition m)); [cbn [res_bind]|eapply opt_all_impl;
      [apply Edition_known_json|assumption]|json_get].
  reflexivity.
Qed.
End OptionsJson.
