(* ===== verification/DescriptorJson.v ===== *)
(** The JSON form of the descriptor messages, up to [FileDescriptorSet]. *)

From stdpp Require Import base list numbers strings.
From Stdlib Require Import Strings.Byte ZArith Lia.
From S2P Require Import Prelude JsNumber JsValue Wire WireFacts DescriptorBase DescriptorEnums.
From S2P Require Import DescriptorOptions DescriptorOptions2 Descriptor DescriptorOptionsFacts.
From S2P Require Import DescriptorOptions2Facts DescriptorFacts DescriptorOptionsJson.
Local Open Scope Z_scope.

Section DescriptorJson.
Context {HO : JsHost} {HL : JsHostLaws HO}.

Definition FieldDescriptorProto_json_ok (m : FieldDescriptorProto) : Prop :=
  opt_all json_int (FieldDescriptorProto_number m) /\
  opt_all FieldDescriptorProto_Label_known (FieldDescriptorProto_label m) /\
  opt_all FieldDescriptorProto_Type_known (FieldDescriptorProto_type m) /\
  opt_all json_int (FieldDescriptorProto_oneofIndex m) /\
  opt_all FieldOptions_json_ok (FieldDescriptorProto_options m).

Lemma FieldDescriptorProto_json (m : FieldDescriptorProto) :
  FieldDescriptorProto_json_ok m -> FieldDescriptorProto_fromJSON (FieldDescriptorProto_toJSON m)
      = Ok (FieldDescriptorProto_norm m).
Proof.
  intros (H_number & H_label & H_type & H_oneofIndex & H_options).
      unfold FieldDescriptorProto_fromJSON, FieldDescriptorProto_toJSON. cbv zeta.
  erewrite (field_string _ _ (FieldDescriptorProto_name m)) by json_get; cbn [res_bind].
  erewrite (field_int _ _ (FieldDescriptorProto_number m)); [cbn [res_bind]|assumption|json_get].
  erewrite (field_enum _ _ (fun v => FieldDescriptorProto_Label_num
      (fieldDescriptorProto_LabelFromJSON v)) fieldDescriptorProto_LabelToJSON 1
      (FieldDescriptorProto_label m)); [cbn [res_bind]|eapply opt_all_impl;
      [apply FieldDescriptorProto_Label_known_json|assumption]|json_get].
  erewrite (field_enum _ _ (fun v => FieldDescriptorProto_Type_num
      (fieldDescriptorProto_TypeFromJSON v)) fieldDescriptorProto_TypeToJSON 1
      (FieldDescriptorProto_type m)); [cbn [res_bind]|eapply opt_all_impl;
      [apply FieldDescriptorProto_Type_known_json|assumption]|json_get].
  erewrite (field_string _ _ (FieldDescriptorProto_typeName m)) by json_get; cbn [res_bind].
  erewrite (field_string _ _ (FieldDescriptorProto_extendee m)) by json_get; cbn [res_bind].
  erewrite (field_string _ _ (FieldDescriptorProto_defaultValue m)) by json_get; cbn [res_bind].
  erewrite (field_int _ _ (FieldDescriptorProto_oneofIndex m));
      [cbn [res_bind]|assumption|json_get].
  erewrite (field_string _ _ (FieldDescriptorProto_jsonName m)) by json_get; cbn [res_bind].
  erewrite (opt_field_message _ _ FieldOptions_toJSON _ FieldOptions_norm FieldOptions_json_ok
      (FieldDescriptorProto_options m)); [cbn [res_bind]|intros; split;
      [reflexivity|by apply FieldOptions_json]|assumption|json_get].
  erewrite (field_bool _ _ false (FieldDescriptorProto_proto3Optional m)) by json_get;
      cbn [res_bind].
  reflexivity.
Qed.

Definition EnumValueDescriptorProto_json_ok (m : EnumValueDescriptorProto) : Prop :=
  opt_all json_int (EnumValueDescriptorProto_number m) /\
  opt_all EnumValueOptions_json_ok (EnumValueDescriptorProto_options m).

Lemma EnumValueDescriptorProto_json (m : EnumValueDescriptorProto) :
  EnumValueDescriptorProto_json_ok m -> EnumValueDescriptorProto_fromJSON
      (EnumValueDescriptorProto_toJSON m) = Ok (EnumValueDescriptorProto_norm m).
Proof.
  intros (H_number & H_options). unfold EnumValueDescriptorProto_fromJSON,
      EnumValueDescriptorProto_toJSON. cbv zeta.
  erewrite (field_string _ _ (EnumValueDescriptorProto_name m)) by json_get; cbn [res_bind].
  erewrite (field_int _ _ (EnumValueDescriptorProto_number m));
      [cbn [res_bind]|assumption|json_get].
  erewrite (opt_field_message _ _ EnumValueOptions_toJSON _ EnumValueOptions_norm
      EnumValueOptions_json_ok (EnumValueDescriptorProto_options m)); [cbn [res_bind]|intros;
      split; [reflexivity|by apply EnumValueOptions_json]|assumption|json_get].
  reflexivity.
Qed.

Definition EnumDescriptorProto_EnumReservedRange_json_ok (m :
    EnumDescriptorProto_EnumReservedRange) : Prop :=
  opt_all json_int (EnumDescriptorProto_EnumReservedRange_start m) /\
  opt_all json_int (EnumDescriptorProto_EnumReservedRange_end m).

Lemma EnumDescriptorProto_EnumReservedRange_json (m : EnumDescriptorProto_EnumReservedRange) :
  EnumDescriptorProto_EnumReservedRange_json_ok m -> EnumDescriptorProto_EnumReservedRange_fromJSON
      (EnumDescriptorProto_EnumReservedRange_toJSON m) = Ok
      (EnumDescriptorProto_EnumReservedRange_norm m).
Proof.
  intros (H_start & H_end). unfold EnumDescriptorProto_EnumReservedRange_fromJSON,
      EnumDescriptorProto_EnumReservedRange_toJSON. cbv zeta.
  erewrite (field_int _ _ (EnumDescriptorProto_EnumReservedRange_start m));
      [cbn [res_bind]|assumption|json_get].
  erewrite (field_int _ _ (EnumDescriptorProto_EnumReservedRange_end m));
      [cbn [res_bind]|assumption|json_get].
  reflexivity.
Qed.

Definition EnumDescriptorProto_json_ok (m : EnumDescriptorProto) : Prop :=
  Forall EnumValueDescriptorProto_json_ok (EnumDescriptorProto_value m) /\
  opt_all EnumOptions_json_ok (EnumDescriptorProto_options m) /\
  Forall EnumDescriptorProto_EnumReservedRange_json_ok (EnumDescriptorProto_reservedRange m) /\
  opt_all SymbolVisibility_known (EnumDescriptorProto_visibility m).

Lemma EnumDescriptorProto_json (m : EnumDescriptorProto) :
  EnumDescriptorProto_json_ok m -> EnumDescriptorProto_fromJSON (EnumDescriptorProto_toJSON m)
      = Ok (EnumDescriptorProto_norm m).
Proof.
  intros (H_value & H_options & H_reservedRange & H_visibility).
      unfold EnumDescriptorProto_fromJSON, EnumDescriptorProto_toJSON. cbv zeta.
  erewrite (field_string _ _ (EnumDescriptorProto_name m)) by json_get; cbn [res_bind].
  erewrite (array_field_map _ _ EnumValueDescriptorProto_toJSON _ EnumValueDescriptorProto_norm
      EnumValueDescriptorProto_json_ok (EnumDescriptorProto_value m));
      [cbn [res_bind]|by apply EnumValueDescriptorProto_json|assumption|json_get].
  erewrite (opt_field_message _ _ EnumOptions_toJSON _ EnumOptions_norm EnumOptions_json_ok
      (EnumDescriptorProto_options m)); [cbn [res_bind]|intros; split;
      [reflexivity|by apply EnumOptions_json]|assumption|json_get].
  erewrite (array_field_map _ _ EnumDescriptorProto_EnumReservedRange_toJSON _
      EnumDescriptorProto_EnumReservedRange_norm EnumDescriptorProto_EnumReservedRange_json_ok
      (EnumDescriptorProto_reservedRange m)); [cbn [res_bind]|by apply
      EnumDescriptorProto_EnumReservedRange_json|assumption|json_get].
  erewrite (array_field_id _ _ VString _ (fun _ => True) (EnumDescriptorProto_reservedName m));
      [cbn [res_bind]|done|by apply Forall_true|json_get].
  erewrite (field_enum _ _ (fun v => SymbolVisibility_num (symbolVisibilityFromJSON v))
      symbolVisibilityToJSON 0 (EnumDescriptorProto_visibility m));
      [cbn [res_bind]|eapply opt_all_impl; [apply SymbolVisibility_known_json|assumption]|json_get].
  reflexivity.
Qed.

Definition DescriptorProto_ExtensionRange_json_ok (m : DescriptorProto_ExtensionRange) : Prop :=
  opt_all json_int (DescriptorProto_ExtensionRange_start m) /\
  opt_all json_int (DescriptorProto_ExtensionRange_end m) /\
  opt_all ExtensionRangeOptions_json_ok (DescriptorProto_ExtensionRange_options m).

Lemma DescriptorProto_ExtensionRange_json (m : DescriptorProto_ExtensionRange) :
  DescriptorProto_ExtensionRange_json_ok m -> DescriptorProto_ExtensionRange_fromJSON
      (DescriptorProto_ExtensionRange_toJSON m) = Ok (DescriptorProto_ExtensionRange_norm m).
Proof.
  intros (H_start & H_end & H_options). unfold DescriptorProto_ExtensionRange_fromJSON,
      DescriptorProto_ExtensionRange_toJSON. cbv zeta.
  erewrite (field_int _ _ (DescriptorProto_ExtensionRange_start m));
      [cbn [res_bind]|assumption|json_get].
  erewrite (field_int _ _ (DescriptorProto_ExtensionRange_end m));
      [cbn [res_bind]|assumption|json_get].
  erewrite (opt_field_message _ _ ExtensionRangeOptions_toJSON _ ExtensionRangeOptions_norm
      ExtensionRangeOptions_json_ok (DescriptorProto_ExtensionRange_options m));
      [cbn [res_bind]|intros; split; [reflexivity|by apply
      ExtensionRangeOptions_json]|assumption|json_get].
  reflexivity.
Qed.

Definition OneofDescriptorProto_json_ok (m : OneofDescriptorProto) : Prop :=
  opt_all OneofOptions_json_ok (OneofDescriptorProto_options m).

Lemma OneofDescriptorProto_json (m : OneofDescriptorProto) :
  OneofDescriptorProto_json_ok m -> OneofDescriptorProto_fromJSON (OneofDescriptorProto_toJSON m)
      = Ok (OneofDescriptorProto_norm m).
Proof.
  intros H_options. unfold OneofDescriptorProto_fromJSON, OneofDescriptorProto_toJSON. cbv zeta.
  erewrite (field_string _ _ (OneofDescriptorProto_name m)) by json_get; cbn [res_bind].
  erewrite (opt_field_message _ _ OneofOptions_toJSON _ OneofOptions_norm OneofOptions_json_ok
      (OneofDescriptorProto_options m)); [cbn [res_bind]|intros; split;
      [reflexivity|by apply OneofOptions_json]|assumption|json_get].
  reflexivity.
Qed.

Definition DescriptorProto_ReservedRange_json_ok (m : DescriptorProto_ReservedRange) : Prop :=
  opt_all json_int (DescriptorProto_ReservedRange_start m) /\
  opt_all json_int (DescriptorProto_ReservedRange_end m).

Lemma DescriptorProto_ReservedRange_json (m : DescriptorProto_ReservedRange) :
  DescriptorProto_ReservedRange_json_ok m -> DescriptorProto_ReservedRange_fromJSON
      (DescriptorProto_ReservedRange_toJSON m) = Ok (DescriptorProto_ReservedRange_norm m).
Proof.
  intros (H_start & H_end). unfold DescriptorProto_ReservedRange_fromJSON,
      DescriptorProto_ReservedRange_toJSON. cbv zeta.
  erewrite (field_int _ _ (DescriptorProto_ReservedRange_start m));
      [cbn [res_bind]|assumption|json_get].
  erewrite (field_int _ _ (DescriptorProto_ReservedRange_end m));
      [cbn [res_bind]|assumption|json_get].
  reflexivity.
Qed.

Fixpoint DescriptorProto_json_ok (m : DescriptorProto) : Prop :=
  Forall FieldDescriptorProto_json_ok (DescriptorProto_field m) /\
  Forall FieldDescriptorProto_json_ok (DescriptorProto_extension m) /\
  all_of DescriptorProto_json_ok (DescriptorProto_nestedType m) /\
  Forall EnumDescriptorProto_json_ok (DescriptorProto_enumType m) /\
  Forall DescriptorProto_ExtensionRange_json_ok (DescriptorProto_extensionRange m) /\
  Forall OneofDescriptorProto_json_ok (DescriptorProto_oneofDecl m) /\
  opt_all MessageOptions_json_ok (DescriptorProto_options m) /\
  Forall DescriptorProto_ReservedRange_json_ok (DescriptorProto_reservedRange m) /\
  opt_all SymbolVisibility_known (DescriptorProto_visibility m).

Lemma DescriptorProto_json (fuel : nat) (m : DescriptorProto) :
  DescriptorProto_json_ok m -> (DescriptorProto_depth m <= fuel)%nat ->
  DescriptorProto_fromJSON fuel (DescriptorProto_toJSON m) = Ok (DescriptorProto_norm m).
Proof.
  revert m. induction fuel as [|fuel IH]; intros [name field extension nestedType enumType
      extensionRange oneofDecl options reservedRange reservedName visibility] Hok Hd.
  { cbn in Hd. lia. }
  destruct Hok as (H_field & H_extension & H_nestedType & H_enumType & H_extensionRange &
      H_oneofDecl & H_options & H_reservedRange & H_visibility).
  cbn [DescriptorProto_depth DescriptorProto_nestedType] in *. apply le_S_n, list_max_elem in Hd.
  rewrite all_of_Forall in H_nestedType.
  assert (Forall (fun v => DescriptorProto_json_ok v /\ (DescriptorProto_depth v <= fuel)%nat)
      nestedType) as H_nested
    by (rewrite Forall_forall in *; auto).
  cbn [DescriptorProto_fromJSON DescriptorProto_toJSON DescriptorProto_norm].
  erewrite (field_string _ _ name) by json_get; cbn [res_bind].
  erewrite (array_field_map _ _ FieldDescriptorProto_toJSON _ FieldDescriptorProto_norm
      FieldDescriptorProto_json_ok field); [cbn [res_bind]|by apply
      FieldDescriptorProto_json|assumption|json_get].
  erewrite (array_field_map _ _ FieldDescriptorProto_toJSON _ FieldDescriptorProto_norm
      FieldDescriptorProto_json_ok extension); [cbn [res_bind]|by apply
      FieldDescriptorProto_json|assumption|json_get].
  erewrite (array_field_map _ _ DescriptorProto_toJSON _ DescriptorProto_norm (fun v =>
      DescriptorProto_json_ok v /\ (DescriptorProto_depth v <= fuel)%nat) nestedType);
      [cbn [res_bind]|by intros ? []; apply IH|assumption|json_get].
  erewrite (array_field_map _ _ EnumDescriptorProto_toJSON _ EnumDescriptorProto_norm
      EnumDescriptorProto_json_ok enumType); [cbn [res_bind]|by apply
      EnumDescriptorProto_json|assumption|json_get].
  erewrite (array_field_map _ _ DescriptorProto_ExtensionRange_toJSON _
      DescriptorProto_ExtensionRange_norm DescriptorProto_ExtensionRange_json_ok extensionRange);
      [cbn [res_bind]|by apply DescriptorProto_ExtensionRange_json|assumption|json_get].
  erewrite (array_field_map _ _ OneofDescriptorProto_toJSON _ OneofDescriptorProto_norm
      OneofDescriptorProto_json_ok oneofDecl); [cbn [res_bind]|by apply
      OneofDescriptorProto_json|assumption|json_get].
  erewrite (opt_field_message _ _ MessageOptions_toJSON _ MessageOptions_norm
      MessageOptions_json_ok options); [cbn [res_bind]|intros; split;
      [reflexivity|by apply MessageOptions_json]|assumption|json_get].
  erewrite (array_field_map _ _ DescriptorProto_ReservedRange_toJSON _
      DescriptorProto_ReservedRange_norm DescriptorProto_ReservedRange_json_ok reservedRange);
      [cbn [res_bind]|by apply DescriptorProto_ReservedRange_json|assumption|json_get].
  erewrite (array_field_id _ _ VString _ (fun _ => True) reservedName);
      [cbn [res_bind]|done|by apply Forall_true|json_get].
  erewrite (field_enum _ _ (fun v => SymbolVisibility_num (symbolVisibilityFromJSON v))
      symbolVisibilityToJSON 0 visibility); [cbn [res_bind]|eapply opt_all_impl;
      [apply SymbolVisibility_known_json|assumption]|json_get].
  reflexivity.
Qed.

Definition MethodDescriptorProto_json_ok (m : MethodDescriptorProto) : Prop :=
  opt_all MethodOptions_json_ok (MethodDescriptorProto_options m).

Lemma MethodDescriptorProto_json (m : MethodDescriptorProto) :
  MethodDescriptorProto_json_ok m -> MethodDescriptorProto_fromJSON (MethodDescriptorProto_toJSON
      m) = Ok (MethodDescriptorProto_norm m).
Proof.
  intros H_options. unfold MethodDescriptorProto_fromJSON, MethodDescriptorProto_toJSON. cbv zeta.
  erewrite (field_string _ _ (MethodDescriptorProto_name m)) by json_get; cbn [res_bind].
  erewrite (field_string _ _ (MethodDescriptorProto_inputType m)) by json_get; cbn [res_bind].
  erewrite (field_string _ _ (MethodDescriptorProto_outputType m)) by json_get; cbn [res_bind].
  erewrite (opt_field_message _ _ MethodOptions_toJSON _ MethodOptions_norm MethodOptions_json_ok
      (MethodDescriptorProto_options m)); [cbn [res_bind]|intros; split;
      [reflexivity|by apply MethodOptions_json]|assumption|json_get].
  erewrite (field_bool _ _ false (MethodDescriptorProto_clientStreaming m)) by json_get;
      cbn [res_bind].
  erewrite (field_bool _ _ false (MethodDescriptorProto_serverStreaming m)) by json_get;
      cbn [res_bind].
  reflexivity.
Qed.

Definition ServiceDescriptorProto_json_ok (m : ServiceDescriptorProto) : Prop :=
  Forall MethodDescriptorProto_json_ok (ServiceDescriptorProto_method m) /\
  opt_all ServiceOptions_json_ok (ServiceDescriptorProto_options m).

Lemma ServiceDescriptorProto_json (m : ServiceDescriptorProto) :
  ServiceDescriptorProto_json_ok m -> ServiceDescriptorProto_fromJSON
      (ServiceDescriptorProto_toJSON m) = Ok (ServiceDescriptorProto_norm m).
Proof.
  intros (H_method & H_options). unfold ServiceDescriptorProto_fromJSON,
      ServiceDescriptorProto_toJSON. cbv zeta.
  erewrite (field_string _ _ (ServiceDescriptorProto_name m)) by json_get; cbn [res_bind].
  erewrite (array_field_map _ _ MethodDescriptorProto_toJSON _ MethodDescriptorProto_norm
      MethodDescriptorProto_json_ok (ServiceDescriptorProto_method m));
      [cbn [res_bind]|by apply MethodDescriptorProto_json|assumption|json_get].
  erewrite (opt_field_message _ _ ServiceOptions_toJSON _ ServiceOptions_norm
      ServiceOptions_json_ok (ServiceDescriptorProto_options m)); [cbn [res_bind]|intros; split;
      [reflexivity|by apply ServiceOptions_json]|assumption|json_get].
  reflexivity.
Qed.

Definition SourceCodeInfo_Location_json_ok (m : SourceCodeInfo_Location) : Prop :=
  Forall json_int (SourceCodeInfo_Location_path m) /\
  Forall json_int (SourceCodeInfo_Location_span m).

Lemma SourceCodeInfo_Location_json (m : SourceCodeInfo_Location) :
  SourceCodeInfo_Location_json_ok m -> SourceCodeInfo_Location_fromJSON
      (SourceCodeInfo_Location_toJSON m) = Ok (SourceCodeInfo_Location_norm m).
Proof.
  intros (H_path & H_span). unfold SourceCodeInfo_Location_fromJSON,
      SourceCodeInfo_Location_toJSON. cbv zeta.
  erewrite (array_field_id _ _ (fun e => VNumber (math_round e))
      _ json_int (SourceCodeInfo_Location_path m)); [cbn [res_bind]|by intros ? [->
      _]|assumption|json_get].
  erewrite (array_field_id _ _ (fun e => VNumber (math_round e))
      _ json_int (SourceCodeInfo_Location_span m)); [cbn [res_bind]|by intros ? [->
      _]|assumption|json_get].
  erewrite (field_string _ _ (SourceCodeInfo_Location_leadingComments m)) by json_get;
      cbn [res_bind].
  erewrite (field_string _ _ (SourceCodeInfo_Location_trailingComments m)) by json_get;
      cbn [res_bind].
  erewrite (array_field_id _ _ VString _ (fun _ => True)
      (SourceCodeInfo_Location_leadingDetachedComments m));
      [cbn [res_bind]|done|by apply Forall_true|json_get].
  reflexivity.
Qed.

Definition SourceCodeInfo_json_ok (m : SourceCodeInfo) : Prop :=
  Forall SourceCodeInfo_Location_json_ok (SourceCodeInfo_location m).

Lemma SourceCodeInfo_json (m : SourceCodeInfo) :
  SourceCodeInfo_json_ok m -> SourceCodeInfo_fromJSON (SourceCodeInfo_toJSON m)
      = Ok (SourceCodeInfo_norm m).
Proof.
  intros H_location. unfold SourceCodeInfo_fromJSON, SourceCodeInfo_toJSON. cbv zeta.
  erewrite (array_field_map _ _ SourceCodeInfo_Location_toJSON _ SourceCodeInfo_Location_norm
      SourceCodeInfo_Location_json_ok (SourceCodeInfo_location m));
      [cbn [res_bind]|by apply SourceCodeInfo_Location_json|assumption|json_get].
  reflexivity.
Qed.

Definition FileDescriptorProto_json_ok (fuel : nat) (m : FileDescriptorProto) : Prop :=
  Forall json_int (FileDescriptorProto_publicDependency m) /\
  Forall json_int (FileDescriptorProto_weakDependency m) /\
  Forall (fun v => DescriptorProto_json_ok v /\ (DescriptorProto_depth v <= fuel)%nat)
      (FileDescriptorProto_messageType m) /\
  Forall EnumDescriptorProto_json_ok (FileDescriptorProto_enumType m) /\
  Forall ServiceDescriptorProto_json_ok (FileDescriptorProto_service m) /\
  Forall FieldDescriptorProto_json_ok (FileDescriptorProto_extension m) /\
  opt_all FileOptions_json_ok (FileDescriptorProto_options m) /\
  opt_all SourceCodeInfo_json_ok (FileDescriptorProto_sourceCodeInfo m) /\
  opt_all Edition_known (FileDescriptorProto_edition m).

Lemma FileDescriptorProto_json (fuel : nat) (m : FileDescriptorProto) :
  FileDescriptorProto_json_ok fuel m -> FileDescriptorProto_fromJSON fuel
      (FileDescriptorProto_toJSON m) = Ok (FileDescriptorProto_norm m).
Proof.
  intros (H_publicDependency & H_weakDependency & H_messageType & H_enumType & H_service &
      H_extension & H_options & H_sourceCodeInfo & H_edition).
      unfold FileDescriptorProto_fromJSON, FileDescriptorProto_toJSON. cbv zeta.
  erewrite (field_string _ _ (FileDescriptorProto_name m)) by json_get; cbn [res_bind].
  erewrite (field_string _ _ (FileDescriptorProto_package m)) by json_get; cbn [res_bind].
  erewrite (array_field_id _ _ VString _ (fun _ => True) (FileDescriptorProto_dependency m));
      [cbn [res_bind]|done|by apply Forall_true|json_get].
  erewrite (array_field_id _ _ (fun e => VNumber (math_round e))
      _ json_int (FileDescriptorProto_publicDependency m));
      [cbn [res_bind]|by intros ? [-> _]|assumption|json_get].
  erewrite (array_field_id _ _ (fun e => VNumber (math_round e))
      _ json_int (FileDescriptorProto_weakDependency m));
      [cbn [res_bind]|by intros ? [-> _]|assumption|json_get].
  erewrite (array_field_id _ _ VString _ (fun _ => True) (FileDescriptorProto_optionDependency m));
      [cbn [res_bind]|done|by apply Forall_true|json_get].
  erewrite (array_field_map _ _ DescriptorProto_toJSON _ DescriptorProto_norm (fun v =>
      DescriptorProto_json_ok v /\ (DescriptorProto_depth v <= fuel)%nat)
      (FileDescriptorProto_messageType m)); [cbn [res_bind]|by intros ? [];
      apply DescriptorProto_json|assumption|json_get].
  erewrite (array_field_map _ _ EnumDescriptorProto_toJSON _ EnumDescriptorProto_norm
      EnumDescriptorProto_json_ok (FileDescriptorProto_enumType m));
      [cbn [res_bind]|by apply EnumDescriptorProto_json|assumption|json_get].
  erewrite (array_field_map _ _ ServiceDescriptorProto_toJSON _ ServiceDescriptorProto_norm
      ServiceDescriptorProto_json_ok (FileDescriptorProto_service m));
      [cbn [res_bind]|by apply ServiceDescriptorProto_json|assumption|json_get].
  erewrite (array_field_map _ _ FieldDescriptorProto_toJSON _ FieldDescriptorProto_norm
      FieldDescriptorProto_json_ok (FileDescriptorProto_extension m));
      [cbn [res_bind]|by apply FieldDescriptorProto_json|assumption|json_get].
  erewrite (opt_field_message _ _ FileOptions_toJSON _ FileOptions_norm FileOptions_json_ok
      (FileDescriptorProto_options m)); [cbn [res_bind]|intros; split;
      [reflexivity|by apply FileOptions_json]|assumption|json_get].
  erewrite (opt_field_message _ _ SourceCodeInfo_toJSON _ SourceCodeInfo_norm
      SourceCodeInfo_json_ok (FileDescriptorProto_sourceCodeInfo m)); [cbn [res_bind]|intros;
      split; [reflexivity|by apply SourceCodeInfo_json]|assumption|json_get].
  erewrite (field_string _ _ (FileDescriptorProto_syntax m)) by json_get; cbn [res_bind].
  erewrite (field_enum _ _ (fun v => Edition_num (editionFromJSON v))
      editionToJSON 0 (FileDescriptorProto_edition m)); [cbn [res_bind]|eapply opt_all_impl;
      [apply Edition_known_json|assumption]|json_get].
  reflexivity.
Qed.

Definition FileDescriptorSet_json_ok (fuel : nat) (m : FileDescriptorSet) : Prop :=
  Forall (FileDescriptorProto_json_ok fuel) (FileDescriptorSet_file m).

Lemma FileDescriptorSet_json (fuel : nat) (m : FileDescriptorSet) :
  FileDescriptorSet_json_ok fuel m -> FileDescriptorSet_fromJSON fuel (FileDescriptorSet_toJSON m)
      = Ok (FileDescriptorSet_norm m).
Proof.
  intros H_file. unfold FileDescriptorSet_fromJSON, FileDescriptorSet_toJSON. cbv zeta.
  erewrite (array_field_map _ _ FileDescriptorProto_toJSON _ FileDescriptorProto_norm
      (FileDescriptorProto_json_ok fuel) (FileDescriptorSet_file m));
      [cbn [res_bind]|by apply FileDescriptorProto_json|assumption|json_get].
  reflexivity.
Qed.

Definition GeneratedCodeInfo_Annotation_json_ok (m : GeneratedCodeInfo_Annotation) : Prop :=
  Forall json_int (GeneratedCodeInfo_Annotation_path m) /\
  opt_all json_int (GeneratedCodeInfo_Annotation_begin m) /\
  opt_all json_int (GeneratedCodeInfo_Annotation_end m) /\
  opt_all GeneratedCodeInfo_Annotation_Semantic_known (GeneratedCodeInfo_Annotation_semantic m).

Lemma GeneratedCodeInfo_Annotation_json (m : GeneratedCodeInfo_Annotation) :
  GeneratedCodeInfo_Annotation_json_ok m -> GeneratedCodeInfo_Annotation_fromJSON
      (GeneratedCodeInfo_Annotation_toJSON m) = Ok (GeneratedCodeInfo_Annotation_norm m).
Proof.
  intros (H_path & H_begin & H_end & H_semantic). unfold GeneratedCodeInfo_Annotation_fromJSON,
      GeneratedCodeInfo_Annotation_toJSON. cbv zeta.
  erewrite (array_field_id _ _ (fun e => VNumber (math_round e))
      _ json_int (GeneratedCodeInfo_Annotation_path m));
      [cbn [res_bind]|by intros ? [-> _]|assumption|json_get].
  erewrite (field_string _ _ (GeneratedCodeInfo_Annotation_sourceFile m)) by json_get;
      cbn [res_bind].
  erewrite (field_int _ _ (GeneratedCodeInfo_Annotation_begin m));
      [cbn [res_bind]|assumption|json_get].
  erewrite (field_int _ _ (GeneratedCodeInfo_Annotation_end m));
      [cbn [res_bind]|assumption|json_get].
  erewrite (field_enum _ _ (fun v => GeneratedCodeInfo_Annotation_Semantic_num
      (generatedCodeInfo_Annotation_SemanticFromJSON v))
      generatedCodeInfo_Annotation_SemanticToJSON 0 (GeneratedCodeInfo_Annotation_semantic m));
      [cbn [res_bind]|eapply opt_all_impl; [apply
      GeneratedCodeInfo_Annotation_Semantic_known_json|assumption]|json_get].
  reflexivity.
Qed.

Definition GeneratedCodeInfo_json_ok (m : GeneratedCodeInfo) : Prop :=
  Forall GeneratedCodeInfo_Annotation_json_ok (GeneratedCodeInfo_annotation m).

Lemma GeneratedCodeInfo_json (m : GeneratedCodeInfo) :
  GeneratedCodeInfo_json_ok m -> GeneratedCodeInfo_fromJSON (GeneratedCodeInfo_toJSON m)
      = Ok (GeneratedCodeInfo_norm m).
Proof.
  intros H_annotation. unfold GeneratedCodeInfo_fromJSON, GeneratedCodeInfo_toJSON. cbv zeta.
  erewrite (array_field_map _ _ GeneratedCodeInfo_Annotation_toJSON _
      GeneratedCodeInfo_Annotation_norm GeneratedCodeInfo_Annotation_json_ok
      (GeneratedCodeInfo_annotation m)); [cbn [res_bind]|by apply
      GeneratedCodeInfo_Annotation_json|assumption|json_get].
  reflexivity.
Qed.
End DescriptorJson.
