(* ===== verification/DescriptorHalts.v ===== *)
(** Reading a descriptor message from an arbitrary JSON value finishes: one unit of fuel per
    level of nesting of the value is enough. *)

From stdpp Require Import base list numbers strings.
From Stdlib Require Import Strings.Byte ZArith Lia.
From S2P Require Import Prelude JsNumber JsValue Wire DescriptorBase DescriptorEnums.
From S2P Require Import DescriptorOptions DescriptorOptions2 Descriptor.
Local Open Scope Z_scope.

Section Halting.
Context {HO : JsHost}.

Lemma bytesFromBase64_halts (n : nat) : halts_below n bytesFromBase64.
Proof.
  intros v _. unfold bytesFromBase64. destruct has_Buffer.
  - by destruct (Buffer_from_base64 v).
  - apply halts_bind; [by destruct (atob v)|done].
Qed.
#[local] Hint Resolve bytesFromBase64_halts : halting.

Lemma FieldOptions_EditionDefault_halts (n : nat) : halts_below n
    FieldOptions_EditionDefault_fromJSON.
Proof.
  intros v _. pose proof (Nat.le_refl (value_depth v)). unfold
      FieldOptions_EditionDefault_fromJSON. solve_halts.
Qed.
#[local] Hint Resolve FieldOptions_EditionDefault_halts : halting.

Lemma FeatureSet_halts (n : nat) : halts_below n FeatureSet_fromJSON.
Proof.
  intros v _. pose proof (Nat.le_refl (value_depth v)). unfold FeatureSet_fromJSON. solve_halts.
Qed.
#[local] Hint Resolve FeatureSet_halts : halting.

Lemma FieldOptions_FeatureSupport_halts (n : nat) : halts_below n
    FieldOptions_FeatureSupport_fromJSON.
Proof.
  intros v _. pose proof (Nat.le_refl (value_depth v)). unfold
      FieldOptions_FeatureSupport_fromJSON. solve_halts.
Qed.
#[local] Hint Resolve FieldOptions_FeatureSupport_halts : halting.

Lemma UninterpretedOption_NamePart_halts (n : nat) : halts_below n
    UninterpretedOption_NamePart_fromJSON.
Proof.
  intros v _. pose proof (Nat.le_refl (value_depth v)). unfold
      UninterpretedOption_NamePart_fromJSON. solve_halts.
Qed.
#[local] Hint Resolve UninterpretedOption_NamePart_halts : halting.

Lemma UninterpretedOption_halts (n : nat) : halts_below n UninterpretedOption_fromJSON.
Proof.
  intros v _. pose proof (Nat.le_refl (value_depth v)). unfold UninterpretedOption_fromJSON.
      solve_halts.
Qed.
#[local] Hint Resolve UninterpretedOption_halts : halting.

Lemma FieldOptions_halts (n : nat) : halts_below n FieldOptions_fromJSON.
Proof.
  intros v _. pose proof (Nat.le_refl (value_depth v)). unfold FieldOptions_fromJSON. solve_halts.
Qed.
#[local] Hint Resolve FieldOptions_halts : halting.

Lemma EnumValueOptions_halts (n : nat) : halts_below n EnumValueOptions_fromJSON.
Proof.
  intros v _. pose proof (Nat.le_refl (value_depth v)). unfold EnumValueOptions_fromJSON.
      solve_halts.
Qed.
#[local] Hint Resolve EnumValueOptions_halts : halting.

Lemma EnumOptions_halts (n : nat) : halts_below n EnumOptions_fromJSON.
Proof.
  intros v _. pose proof (Nat.le_refl (value_depth v)). unfold EnumOptions_fromJSON. solve_halts.
Qed.
#[local] Hint Resolve EnumOptions_halts : halting.

Lemma ExtensionRangeOptions_Declaration_halts (n : nat) : halts_below n
    ExtensionRangeOptions_Declaration_fromJSON.
Proof.
  intros v _. pose proof (Nat.le_refl (value_depth v)). unfold
      ExtensionRangeOptions_Declaration_fromJSON. solve_halts.
Qed.
#[local] Hint Resolve ExtensionRangeOptions_Declaration_halts : halting.

Lemma ExtensionRangeOptions_halts (n : nat) : halts_below n ExtensionRangeOptions_fromJSON.
Proof.
  intros v _. pose proof (Nat.le_refl (value_depth v)). unfold ExtensionRangeOptions_fromJSON.
      solve_halts.
Qed.
#[local] Hint Resolve ExtensionRangeOptions_halts : halting.

Lemma OneofOptions_halts (n : nat) : halts_below n OneofOptions_fromJSON.
Proof.
  intros v _. pose proof (Nat.le_refl (value_depth v)). unfold OneofOptions_fromJSON. solve_halts.
Qed.
#[local] Hint Resolve OneofOptions_halts : halting.

Lemma MessageOptions_halts (n : nat) : halts_below n MessageOptions_fromJSON.
Proof.
  intros v _. pose proof (Nat.le_refl (value_depth v)). unfold MessageOptions_fromJSON. solve_halts.
Qed.
#[local] Hint Resolve MessageOptions_halts : halting.

Lemma MethodOptions_halts (n : nat) : halts_below n MethodOptions_fromJSON.
Proof.
  intros v _. pose proof (Nat.le_refl (value_depth v)). unfold MethodOptions_fromJSON. solve_halts.
Qed.
#[local] Hint Resolve MethodOptions_halts : halting.

Lemma ServiceOptions_halts (n : nat) : halts_below n ServiceOptions_fromJSON.
Proof.
  intros v _. pose proof (Nat.le_refl (value_depth v)). unfold ServiceOptions_fromJSON. solve_halts.
Qed.
#[local] Hint Resolve ServiceOptions_halts : halting.

Lemma FileOptions_halts (n : nat) : halts_below n FileOptions_fromJSON.
Proof.
  intros v _. pose proof (Nat.le_refl (value_depth v)). unfold FileOptions_fromJSON. solve_halts.
Qed.
#[local] Hint Resolve FileOptions_halts : halting.

Lemma FeatureSet_VisibilityFeature_halts (n : nat) : halts_below n
    FeatureSet_VisibilityFeature_fromJSON.
Proof.
  intros v _. pose proof (Nat.le_refl (value_depth v)). unfold
      FeatureSet_VisibilityFeature_fromJSON. solve_halts.
Qed.
#[local] Hint Resolve FeatureSet_VisibilityFeature_halts : halting.

Lemma FeatureSetDefaults_FeatureSetEditionDefault_halts (n : nat)
    : halts_below n FeatureSetDefaults_FeatureSetEditionDefault_fromJSON.
Proof.
  intros v _. pose proof (Nat.le_refl (value_depth v)). unfold
      FeatureSetDefaults_FeatureSetEditionDefault_fromJSON. solve_halts.
Qed.
#[local] Hint Resolve FeatureSetDefaults_FeatureSetEditionDefault_halts : halting.

Lemma FeatureSetDefaults_halts (n : nat) : halts_below n FeatureSetDefaults_fromJSON.
Proof.
  intros v _. pose proof (Nat.le_refl (value_depth v)). unfold FeatureSetDefaults_fromJSON.
      solve_halts.
Qed.
#[local] Hint Resolve FeatureSetDefaults_halts : halting.

Lemma FieldDescriptorProto_halts (n : nat) : halts_below n FieldDescriptorProto_fromJSON.
Proof.
  intros v _. pose proof (Nat.le_refl (value_depth v)). unfold FieldDescriptorProto_fromJSON.
      solve_halts.
Qed.
#[local] Hint Resolve FieldDescriptorProto_halts : halting.

Lemma EnumValueDescriptorProto_halts (n : nat) : halts_below n EnumValueDescriptorProto_fromJSON.
Proof.
  intros v _. pose proof (Nat.le_refl (value_depth v)). unfold EnumValueDescriptorProto_fromJSON.
      solve_halts.
Qed.
#[local] Hint Resolve EnumValueDescriptorProto_halts : halting.

Lemma EnumDescriptorProto_EnumReservedRange_halts (n : nat)
    : halts_below n EnumDescriptorProto_EnumReservedRange_fromJSON.
Proof.
  intros v _. pose proof (Nat.le_refl (value_depth v)). unfold
      EnumDescriptorProto_EnumReservedRange_fromJSON. solve_halts.
Qed.
#[local] Hint Resolve EnumDescriptorProto_EnumReservedRange_halts : halting.

Lemma EnumDescriptorProto_halts (n : nat) : halts_below n EnumDescriptorProto_fromJSON.
Proof.
  intros v _. pose proof (Nat.le_refl (value_depth v)). unfold EnumDescriptorProto_fromJSON.
      solve_halts.
Qed.
#[local] Hint Resolve EnumDescriptorProto_halts : halting.

Lemma DescriptorProto_ExtensionRange_halts (n : nat) : halts_below n
    DescriptorProto_ExtensionRange_fromJSON.
Proof.
  intros v _. pose proof (Nat.le_refl (value_depth v)). unfold
      DescriptorProto_ExtensionRange_fromJSON. solve_halts.
Qed.
#[local] Hint Resolve DescriptorProto_ExtensionRange_halts : halting.

Lemma OneofDescriptorProto_halts (n : nat) : halts_below n OneofDescriptorProto_fromJSON.
Proof.
  intros v _. pose proof (Nat.le_refl (value_depth v)). unfold OneofDescriptorProto_fromJSON.
      solve_halts.
Qed.
#[local] Hint Resolve OneofDescriptorProto_halts : halting.

Lemma DescriptorProto_ReservedRange_halts (n : nat) : halts_below n
    DescriptorProto_ReservedRange_fromJSON.
Proof.
  intros v _. pose proof (Nat.le_refl (value_depth v)). unfold
      DescriptorProto_ReservedRange_fromJSON. solve_halts.
Qed.
#[local] Hint Resolve DescriptorProto_ReservedRange_halts : halting.

Lemma DescriptorProto_halts (fuel : nat) : halts_below fuel (DescriptorProto_fromJSON fuel).
Proof.
  induction fuel as [|fuel IH]; intros v Hv; [lia|]. apply le_S_n in Hv.
  cbn [DescriptorProto_fromJSON]. solve_halts.
Qed.
#[local] Hint Resolve DescriptorProto_halts : halting.

Lemma MethodDescriptorProto_halts (n : nat) : halts_below n MethodDescriptorProto_fromJSON.
Proof.
  intros v _. pose proof (Nat.le_refl (value_depth v)). unfold MethodDescriptorProto_fromJSON.
      solve_halts.
Qed.
#[local] Hint Resolve MethodDescriptorProto_halts : halting.

Lemma ServiceDescriptorProto_halts (n : nat) : halts_below n ServiceDescriptorProto_fromJSON.
Proof.
  intros v _. pose proof (Nat.le_refl (value_depth v)). unfold ServiceDescriptorProto_fromJSON.
      solve_halts.
Qed.
#[local] Hint Resolve ServiceDescriptorProto_halts : halting.

Lemma SourceCodeInfo_Location_halts (n : nat) : halts_below n SourceCodeInfo_Location_fromJSON.
Proof.
  intros v _. pose proof (Nat.le_refl (value_depth v)). unfold SourceCodeInfo_Location_fromJSON.
      solve_halts.
Qed.
#[local] Hint Resolve SourceCodeInfo_Location_halts : halting.

Lemma SourceCodeInfo_halts (n : nat) : halts_below n SourceCodeInfo_fromJSON.
Proof.
  intros v _. pose proof (Nat.le_refl (value_depth v)). unfold SourceCodeInfo_fromJSON. solve_halts.
Qed.
#[local] Hint Resolve SourceCodeInfo_halts : halting.

Lemma FileDescriptorProto_halts (fuel : nat) (v : value) :
  (value_depth v <= fuel)%nat -> halts (FileDescriptorProto_fromJSON fuel v).
Proof. intros Hv. unfold FileDescriptorProto_fromJSON. solve_halts. Qed.

Lemma FileDescriptorProto_halts_below (fuel : nat) : halts_below fuel (FileDescriptorProto_fromJSON
    fuel).
Proof. intros v Hv. apply FileDescriptorProto_halts. lia. Qed.
#[local] Hint Resolve FileDescriptorProto_halts_below : halting.

Lemma FileDescriptorSet_halts (fuel : nat) (v : value) :
  (value_depth v <= fuel)%nat -> halts (FileDescriptorSet_fromJSON fuel v).
Proof. intros Hv. unfold FileDescriptorSet_fromJSON. solve_halts. Qed.

Lemma FileDescriptorSet_halts_below (fuel : nat) : halts_below fuel (FileDescriptorSet_fromJSON
    fuel).
Proof. intros v Hv. apply FileDescriptorSet_halts. lia. Qed.
#[local] Hint Resolve FileDescriptorSet_halts_below : halting.

Lemma GeneratedCodeInfo_Annotation_halts (n : nat) : halts_below n
    GeneratedCodeInfo_Annotation_fromJSON.
Proof.
  intros v _. pose proof (Nat.le_refl (value_depth v)). unfold
      GeneratedCodeInfo_Annotation_fromJSON. solve_halts.
Qed.
#[local] Hint Resolve GeneratedCodeInfo_Annotation_halts : halting.

Lemma GeneratedCodeInfo_halts (n : nat) : halts_below n GeneratedCodeInfo_fromJSON.
Proof.
  intros v _. pose proof (Nat.le_refl (value_depth v)). unfold GeneratedCodeInfo_fromJSON.
      solve_halts.
Qed.
#[local] Hint Resolve GeneratedCodeInfo_halts : halting.
End Halting.
