(* ===== verification/DescriptorTheorems.v ===== *)
(** Theorems about [gen/ts/google/protobuf/descriptor.ts]: round trips of the descriptor
    messages in binary and in JSON, termination on arbitrary input, both encodings of repeated
    integers, 64-bit integers that do not fit a JavaScript number, enum names, and base64. *)

From stdpp Require Import base list numbers strings.
From Stdlib Require Import Strings.Byte ZArith Lia.
From S2P Require Import Prelude JsNumber JsValue Wire WireFacts DescriptorBase WireInstance.
From S2P Require Import DescriptorEnums DescriptorOptions DescriptorOptions2 Descriptor.
From S2P Require Import DescriptorOptionsFacts DescriptorOptions2Facts DescriptorFacts.
From S2P Require Import DescriptorOptionsJson DescriptorJson DescriptorHalts.
Local Open Scope Z_scope.

(** * The binary form *)

Section Wire.
Context {RT : WireRuntime} {L : WireLaws RT}.

Lemma FileDescriptorSet_whole : decodes_whole FileDescriptorSet_decode.
Proof. apply (decode_with_whole FileDescriptorSet_switch). Qed.

Lemma FeatureSetDefaults_whole : decodes_whole FeatureSetDefaults_decode.
Proof. apply (decode_with_whole FeatureSetDefaults_switch). Qed.

Lemma GeneratedCodeInfo_whole : decodes_whole GeneratedCodeInfo_decode.
Proof. apply (decode_with_whole GeneratedCodeInfo_switch). Qed.

Lemma VisibilityFeature_whole : decodes_whole FeatureSet_VisibilityFeature_decode.
Proof. apply (decode_with_whole FeatureSet_VisibilityFeature_switch). Qed.

(** C35: the four messages that no other embeds, of which three embed all the rest and one has no
    fields: [decode(encode(m).finish())] is [fromPartial(m)], that is [m] with absent scalars at
    their defaults, whenever the format can carry [m]: strings are well-formed and do not start
    with a byte order mark, numbers are in the range of their type, and embedded messages are
    shorter than 2^32 bytes. *)
Theorem descriptor_wire_roundtrip :
  (forall m, FileDescriptorSet_ok m ->
     (let* b := encoded FileDescriptorSet_encode m in decoded FileDescriptorSet_decode b)
     = Ok (FileDescriptorSet_fromPartial (FileDescriptorSet_toPartial m))) /\
  (forall m, FeatureSetDefaults_ok m ->
     (let* b := encoded FeatureSetDefaults_encode m in decoded FeatureSetDefaults_decode b)
     = Ok (FeatureSetDefaults_fromPartial (FeatureSetDefaults_toPartial m))) /\
  (forall m, GeneratedCodeInfo_ok m ->
     (let* b := encoded GeneratedCodeInfo_encode m in decoded GeneratedCodeInfo_decode b)
     = Ok (GeneratedCodeInfo_fromPartial (GeneratedCodeInfo_toPartial m))) /\
  (forall m,
     (let* b := encoded FeatureSet_VisibilityFeature_encode m in decoded FeatureSet_VisibilityFeature_decode b)
     = Ok (FeatureSet_VisibilityFeature_fromPartial (FeatureSet_VisibilityFeature_toPartial m))).
Proof.
  split; [|split; [|split]]; intros m; [intros Hm..|].
  - by rewrite FileDescriptorSet_fromPartial_toPartial,
      (codec_roundtrip FileDescriptorSet_codec m FileDescriptorSet_whole Hm).
  - by rewrite FeatureSetDefaults_fromPartial_toPartial,
      (codec_roundtrip FeatureSetDefaults_codec m FeatureSetDefaults_whole Hm).
  - by rewrite GeneratedCodeInfo_fromPartial_toPartial,
      (codec_roundtrip GeneratedCodeInfo_codec m GeneratedCodeInfo_whole Hm).
  - by rewrite FeatureSet_VisibilityFeature_fromPartial_toPartial,
      (codec_roundtrip FeatureSet_VisibilityFeature_codec m VisibilityFeature_whole I).
Qed.

(** Decoding any byte sequence as one of these messages finishes, however deep the bytes
    nest message types. *)
Theorem descriptor_decode_terminates (b : bytes) :
  decoded FileDescriptorSet_decode b <> OutOfFuel /\
  decoded FeatureSetDefaults_decode b <> OutOfFuel /\
  decoded GeneratedCodeInfo_decode b <> OutOfFuel.
Proof.
  repeat split; apply decoded_total;
    auto using FileDescriptorSet_whole, FeatureSetDefaults_whole, GeneratedCodeInfo_whole,
      FileDescriptorSet_safe, FeatureSetDefaults_safe, GeneratedCodeInfo_safe.
Qed.

(** A repeated [int32] field in its two encodings: one tag per element, or one tag and the
    elements packed into one length-delimited field. *)
Definition unpacked_int32 (number : Z) (xs : list JsNumber.number) : bytes :=
  concat (map (fun x => enc_uint32 (8 * number) ++ enc_number enc_int32 x) xs).
Definition packed_int32 (number : Z) (xs : list JsNumber.number) : bytes :=
  delimited (8 * number + 2) (concat (map (enc_number enc_int32) xs)).

(** The [path] and [span] of a source location decode to the same message from the packed
    encoding that [encode] writes and from the unpacked encoding that older writers use, and
    from a mixture of the two. *)
Theorem location_packed_or_unpacked (path span : list number) :
  Forall int32_ok path -> Forall int32_ok span ->
  bytes_ok (concat (map (enc_number enc_int32) path)) ->
  bytes_ok (concat (map (enc_number enc_int32) span)) ->
  let location := mkSourceCodeInfo_Location path span (Some (js "")) (Some (js "")) [] in
  decoded SourceCodeInfo_Location_decode (packed_int32 1 path ++ packed_int32 2 span) = Ok location /\
  decoded SourceCodeInfo_Location_decode (unpacked_int32 1 path ++ unpacked_int32 2 span) = Ok location /\
  decoded SourceCodeInfo_Location_decode (packed_int32 1 path ++ unpacked_int32 2 span) = Ok location.
Proof.
  intros Hp Hs Bp Bs location. split; [|split]; apply (decoded_eats SourceCodeInfo_Location_switch).
  - apply (eats_app _ _ _ _ _ (mkSourceCodeInfo_Location path [] (Some (js "")) (Some (js "")) [])).
    + by apply (eats_packed _ _ int32_scalar r_int32_number_forward 10 SourceCodeInfo_Location_with_path).
    + by apply (eats_packed _ _ int32_scalar r_int32_number_forward 18 SourceCodeInfo_Location_with_span
        (mkSourceCodeInfo_Location path [] (Some (js "")) (Some (js "")) [])).
  - apply (eats_app _ _ _ _ _ (mkSourceCodeInfo_Location path [] (Some (js "")) (Some (js "")) [])).
    + by apply (eats_repeated _ _ int32_scalar 8 SourceCodeInfo_Location_with_path).
    + by apply (eats_repeated _ _ int32_scalar 16 SourceCodeInfo_Location_with_span
        (mkSourceCodeInfo_Location path [] (Some (js "")) (Some (js "")) [])).
  - apply (eats_app _ _ _ _ _ (mkSourceCodeInfo_Location path [] (Some (js "")) (Some (js "")) [])).
    + by apply (eats_packed _ _ int32_scalar r_int32_number_forward 10 SourceCodeInfo_Location_with_path).
    + by apply (eats_repeated _ _ int32_scalar 16 SourceCodeInfo_Location_with_span
        (mkSourceCodeInfo_Location path [] (Some (js "")) (Some (js "")) [])).
Qed.

(** * 64-bit integers *)

Definition too_large : js_error := JsError (js "Value is larger than Number.MAX_SAFE_INTEGER").
Definition too_small : js_error := JsError (js "Value is smaller than Number.MIN_SAFE_INTEGER").

(** [longToNumber] returns every integer between [Number.MIN_SAFE_INTEGER] and
    [Number.MAX_SAFE_INTEGER] exactly, and throws on every other one, also on those that
    rounding to a double would bring to the bound. *)
Theorem longToNumber_exact_or_throws (n : Z) :
  longToNumber n = if MAX_SAFE_INTEGER <? n then Throw too_large
                   else if n <? MIN_SAFE_INTEGER then Throw too_small
                   else Ok (Int n).
Proof.
  unfold MAX_SAFE_INTEGER, MIN_SAFE_INTEGER.
  destruct (Z.ltb_spec (2 ^ 53 - 1) n); [apply longToNumber_large; lia|].
  destruct (Z.ltb_spec n (- (2 ^ 53 - 1))); [apply longToNumber_small; lia|].
  apply longToNumber_safe. lia.
Qed.

Lemma decoded_throws {M : Type} (sw : nat -> Z -> M -> reader -> jsres (flow M)) (base : M)
    (T : Z) (payload : bytes) (e : js_error) :
  tag_ok T = true ->
  (forall F m r, rest r = payload -> sw F T m r = Throw e) ->
  decoded (fun f i l => decode_with (sw f) base f i l) (enc_uint32 T ++ payload) = Throw e.
Proof.
  intros HT Hsw. unfold decoded. rewrite (decode_with_whole sw base), fuel_for_new.
  set (b := enc_uint32 T ++ payload). unfold decode_with. cbn [reader_of].
  assert (rest (new_reader b) = enc_uint32 T ++ payload) as Hr by apply rest_new.
  unfold tag_ok in HT. destruct (rd_uint32_ok T (new_reader b) payload Hr) as (r1 & E1 & R1); [lia|].
  pose proof (rd_uint32_moves _ _ _ E1) as (L1 & P1 & _).
  pose proof (len_rest (new_reader b)) as Lr. pose proof (len_rest r1) as Lr1.
  rewrite rest_new in Lr. cbn [decode_loop].
  destruct (Z.ltb_spec (pos (new_reader b)) (pos (new_reader b) + Z.of_nat (length b))); [|lia].
  unfold r_uint32. rewrite E1. cbn [lift res_bind]. by rewrite Hsw.
Qed.

(** An option whose 64-bit integer does not fit a JavaScript number is not decoded to a
    rounded value: [decode] throws. *)
Theorem wide_integers_are_rejected (n : Z) :
  (MAX_SAFE_INTEGER < n < 2 ^ 64 ->
     decoded UninterpretedOption_decode (enc_uint32 32 ++ enc_uint64 n) = Throw too_large) /\
  (- 2 ^ 63 <= n < MIN_SAFE_INTEGER ->
     decoded UninterpretedOption_decode (enc_uint32 40 ++ enc_int64 n) = Throw too_small).
Proof.
  unfold MAX_SAFE_INTEGER, MIN_SAFE_INTEGER.
  split; intros Hn; apply (decoded_throws UninterpretedOption_switch); try reflexivity; intros F m r Hr;
    unfold UninterpretedOption_switch; cbn [Z.shiftr Z.shiftl Z.eqb Pos.eqb Z.div2 Pos.div2 Pos.iter negb];
    unfold longToNumber_of.
  - destruct (rd_uint64_ok n r []) as (r' & E & _); [by rewrite app_nil_r|lia|].
    unfold r_uint64. rewrite E. cbn [lift res_bind]. by rewrite longToNumber_large by lia.
  - destruct (rd_int64_ok n r []) as (r' & E & _); [by rewrite app_nil_r|lia|].
    unfold r_int64. rewrite E. cbn [lift res_bind]. by rewrite longToNumber_small by lia.
Qed.
End Wire.

(** * Enums *)

(** What the two functions of an enum promise: a member's name reads back as the member, its
    number too, a number that is no member's is written [UNRECOGNIZED], and a value that is
    neither a number nor a string reads as [UNRECOGNIZED]. *)
Definition enum_json {E : Type} (num : E -> Z) (from : value -> E) (to : Z -> jsstring)
    (unrecognized : E) : Prop :=
  (forall e, from (VString (to (num e))) = e) /\
  (forall e, from (VNumber (Int (num e))) = e) /\
  (forall z, (forall e, num e <> z) -> to z = js "UNRECOGNIZED") /\
  (forall v, match v with VNumber _ | VString _ => True | _ => from v = unrecognized end).

Ltac solve_unknown_number :=
  match goal with |- ?to ?z = _ => unfold to end;
  repeat match goal with
  | H : forall e, ?num e <> ?z |- context [?z =? ?n] =>
      destruct (Z.eqb_spec z n) as [E|]; [exfalso; eapply H; symmetry; exact E|]
  end; reflexivity.

(** The JSON functions of all twenty enums. *)
Theorem enums_json :
  enum_json Edition_num editionFromJSON editionToJSON Edition_UNRECOGNIZED /\
  enum_json SymbolVisibility_num symbolVisibilityFromJSON symbolVisibilityToJSON SymbolVisibility_UNRECOGNIZED /\
  enum_json ExtensionRangeOptions_VerificationState_num extensionRangeOptions_VerificationStateFromJSON extensionRangeOptions_VerificationStateToJSON ExtensionRangeOptions_VerificationState_UNRECOGNIZED /\
  enum_json FieldDescriptorProto_Type_num fieldDescriptorProto_TypeFromJSON fieldDescriptorProto_TypeToJSON FieldDescriptorProto_Type_UNRECOGNIZED /\
  enum_json FieldDescriptorProto_Label_num fieldDescriptorProto_LabelFromJSON fieldDescriptorProto_LabelToJSON FieldDescriptorProto_Label_UNRECOGNIZED /\
  enum_json FileOptions_OptimizeMode_num fileOptions_OptimizeModeFromJSON fileOptions_OptimizeModeToJSON FileOptions_OptimizeMode_UNRECOGNIZED /\
  enum_json FieldOptions_CType_num fieldOptions_CTypeFromJSON fieldOptions_CTypeToJSON FieldOptions_CType_UNRECOGNIZED /\
  enum_json FieldOptions_JSType_num fieldOptions_JSTypeFromJSON fieldOptions_JSTypeToJSON FieldOptions_JSType_UNRECOGNIZED /\
  enum_json FieldOptions_OptionRetention_num fieldOptions_OptionRetentionFromJSON fieldOptions_OptionRetentionToJSON FieldOptions_OptionRetention_UNRECOGNIZED /\
  enum_json FieldOptions_OptionTargetType_num fieldOptions_OptionTargetTypeFromJSON fieldOptions_OptionTargetTypeToJSON FieldOptions_OptionTargetType_UNRECOGNIZED /\
  enum_json MethodOptions_IdempotencyLevel_num methodOptions_IdempotencyLevelFromJSON methodOptions_IdempotencyLevelToJSON MethodOptions_IdempotencyLevel_UNRECOGNIZED /\
  enum_json FeatureSet_FieldPresence_num featureSet_FieldPresenceFromJSON featureSet_FieldPresenceToJSON FeatureSet_FieldPresence_UNRECOGNIZED /\
  enum_json FeatureSet_EnumType_num featureSet_EnumTypeFromJSON featureSet_EnumTypeToJSON FeatureSet_EnumType_UNRECOGNIZED /\
  enum_json FeatureSet_RepeatedFieldEncoding_num featureSet_RepeatedFieldEncodingFromJSON featureSet_RepeatedFieldEncodingToJSON FeatureSet_RepeatedFieldEncoding_UNRECOGNIZED /\
  enum_json FeatureSet_Utf8Validation_num featureSet_Utf8ValidationFromJSON featureSet_Utf8ValidationToJSON FeatureSet_Utf8Validation_UNRECOGNIZED /\
  enum_json FeatureSet_MessageEncoding_num featureSet_MessageEncodingFromJSON featureSet_MessageEncodingToJSON FeatureSet_MessageEncoding_UNRECOGNIZED /\
  enum_json FeatureSet_JsonFormat_num featureSet_JsonFormatFromJSON featureSet_JsonFormatToJSON FeatureSet_JsonFormat_UNRECOGNIZED /\
  enum_json FeatureSet_EnforceNamingStyle_num featureSet_EnforceNamingStyleFromJSON featureSet_EnforceNamingStyleToJSON FeatureSet_EnforceNamingStyle_UNRECOGNIZED /\
  enum_json FeatureSet_VisibilityFeature_DefaultSymbolVisibility_num featureSet_VisibilityFeature_DefaultSymbolVisibilityFromJSON featureSet_VisibilityFeature_DefaultSymbolVisibilityToJSON FeatureSet_VisibilityFeature_DefaultSymbolVisibility_UNRECOGNIZED /\
  enum_json GeneratedCodeInfo_Annotation_Semantic_num generatedCodeInfo_Annotation_SemanticFromJSON generatedCodeInfo_Annotation_SemanticToJSON GeneratedCodeInfo_Annotation_Semantic_UNRECOGNIZED.
Proof.
  repeat apply conj; intros;
    solve [ destruct e; reflexivity | destruct v; exact I || reflexivity | solve_unknown_number ].
Qed.

(** * JSON *)

Section Json.
Context {HO : JsHost} {HL : JsHostLaws HO}.

(** C39: [fromJSON(toJSON(m))] is [fromPartial(m)] for the four messages that no other embeds,
    when numbers are integers, enum values are members, and the fuel covers the nesting of
    message types. *)
Theorem descriptor_json_roundtrip :
  (forall fuel m, FileDescriptorSet_json_ok fuel m ->
     FileDescriptorSet_fromJSON fuel (FileDescriptorSet_toJSON m)
     = Ok (FileDescriptorSet_fromPartial (FileDescriptorSet_toPartial m))) /\
  (forall m, FeatureSetDefaults_json_ok m ->
     FeatureSetDefaults_fromJSON (FeatureSetDefaults_toJSON m)
     = Ok (FeatureSetDefaults_fromPartial (FeatureSetDefaults_toPartial m))) /\
  (forall m, GeneratedCodeInfo_json_ok m ->
     GeneratedCodeInfo_fromJSON (GeneratedCodeInfo_toJSON m)
     = Ok (GeneratedCodeInfo_fromPartial (GeneratedCodeInfo_toPartial m))) /\
  (forall m, FeatureSet_VisibilityFeature_fromJSON (FeatureSet_VisibilityFeature_toJSON m)
     = Ok (FeatureSet_VisibilityFeature_fromPartial (FeatureSet_VisibilityFeature_toPartial m))).
Proof.
  split; [|split; [|split]]; intros.
  - by rewrite FileDescriptorSet_fromPartial_toPartial, FileDescriptorSet_json.
  - by rewrite FeatureSetDefaults_fromPartial_toPartial, FeatureSetDefaults_json.
  - by rewrite GeneratedCodeInfo_fromPartial_toPartial, GeneratedCodeInfo_json.
  - by rewrite FeatureSet_VisibilityFeature_fromPartial_toPartial, FeatureSet_VisibilityFeature_json.
Qed.

(** Reading a descriptor set from an arbitrary JSON value finishes: fuel for the nesting
    of the value is enough. *)
Theorem descriptor_json_terminates (v : value) (fuel : nat) :
  (value_depth v <= fuel)%nat -> FileDescriptorSet_fromJSON fuel v <> OutOfFuel.
Proof. intros Hv. by eapply total_not_fuel, FileDescriptorSet_halts. Qed.

(** [bytes] fields survive JSON: [bytesFromBase64] inverts [base64FromBytes], on hosts
    with a [Buffer] and on hosts with [atob] and [btoa], whose strings hold one byte per
    character. *)
Theorem base64_roundtrip (b : bytes) : bytesFromBase64 (VString (base64FromBytes b)) = Ok b.
Proof. apply base64_inverse. Qed.
End Json.

(** Reading descriptor messages finishes.  Decoding any byte sequence, however deep it nests
    message types, returns a message or throws; so does reading a descriptor set from an
    arbitrary JSON value, for which fuel for the nesting of the value is enough. *)
Theorem descriptor_reading_terminates {RT : WireRuntime} {L : WireLaws RT} {HO : JsHost} {HL : JsHostLaws HO}
    (b : bytes) (v : value) (fuel : nat) :
  (decoded FileDescriptorSet_decode b <> OutOfFuel /\ decoded FeatureSetDefaults_decode b <> OutOfFuel /\
   decoded GeneratedCodeInfo_decode b <> OutOfFuel) /\
  ((value_depth v <= fuel)%nat -> FileDescriptorSet_fromJSON fuel v <> OutOfFuel).
Proof. split; [apply descriptor_decode_terminates|apply descriptor_json_terminates]. Qed.

(** * Witnesses *)

Definition demo_field : FieldDescriptorProto :=
  mkFieldDescriptorProto (Some (js "leaf")) (Some (Int 2)) (Some 1) (Some 9) None None None None
    (Some (js "leaf")) None None.
Definition demo_message (nested : list DescriptorProto) : DescriptorProto :=
  mkDescriptorProto (Some (js "Proof")) [demo_field] [] nested [] [] [] None [] [js "old"] None.
Definition demo_location : SourceCodeInfo_Location :=
  mkSourceCodeInfo_Location [Int 4; Int 0] [Int 1; Int (-7)] None None [].
Definition demo_file : FileDescriptorProto :=
  mkFileDescriptorProto (Some (js "query.proto")) None [js "http.proto"] [Int 0] [] []
    [demo_message [demo_message []]] [] [] [] None (Some (mkSourceCodeInfo [demo_location])) None (Some 999).
Definition demo_set : FileDescriptorSet := mkFileDescriptorSet [demo_file].

Lemma descriptor_wire_roundtrip_witness :
  (let* b := encoded FileDescriptorSet_encode demo_set in decoded FileDescriptorSet_decode b)
  = Ok (FileDescriptorSet_fromPartial (FileDescriptorSet_toPartial demo_set)).
Proof. refine (proj1 descriptor_wire_roundtrip demo_set _). concrete_ok. Defined.

Lemma location_packed_or_unpacked_witness :
  decoded SourceCodeInfo_Location_decode (unpacked_int32 1 [Int 4; Int (-1)] ++ unpacked_int32 2 [Int 300])
  = Ok (mkSourceCodeInfo_Location [Int 4; Int (-1)] [Int 300] (Some (js "")) (Some (js "")) []).
Proof.
  refine (proj1 (proj2 (location_packed_or_unpacked [Int 4; Int (-1)] [Int 300] _ _ _ _))); concrete_ok.
Defined.

Lemma wide_integers_are_rejected_witness :
  decoded UninterpretedOption_decode (enc_uint32 32 ++ enc_uint64 (2 ^ 63)) = Throw too_large.
Proof. refine (proj1 (wide_integers_are_rejected (2 ^ 63)) _). vm_compute. split; reflexivity. Defined.

Lemma descriptor_json_roundtrip_witness :
  FileDescriptorSet_fromJSON 2 (FileDescriptorSet_toJSON demo_set)
  = Ok (FileDescriptorSet_fromPartial (FileDescriptorSet_toPartial demo_set)).
Proof. refine (proj1 descriptor_json_roundtrip 2%nat demo_set _). concrete_ok. Defined.

Lemma descriptor_reading_terminates_witness :
  decoded FileDescriptorSet_decode [x0a; x02; x22; x00] <> OutOfFuel /\
  FileDescriptorSet_fromJSON 2 (VObject [(js "file", VArray [VNumber (Int 1)])]) <> OutOfFuel.
Proof.
  destruct (descriptor_reading_terminates [x0a; x02; x22; x00] (VObject [(js "file", VArray [VNumber (Int 1)])]) 2)
    as [[Hd _] Hj].
  split; [exact Hd|]. apply Hj. vm_compute. lia.
Defined.

Lemma base64_roundtrip_witness :
  bytesFromBase64 (VString (base64FromBytes [x4d; x61])) = Ok [x4d; x61].
Proof. apply base64_roundtrip. Defined.
