(* ===== verification/EndToEnd.v ===== *)
(** From the TypeScript client to the Go server: the generated client over a transport to the
    handlers, and a client that checks the proofs it gets. *)

From stdpp Require Import base list numbers strings gmap.
From Stdlib Require Import ZArith Lia.
From S2P Require Import Prelude GoBase MerkleSpec SparseTree SparseTreeFacts SparseTreeInsert.
From S2P Require Import SparseTreeProofs SparseTreeSimulation Storage StorageFacts Registry.
From S2P Require Import RegistryFacts RegistryRuns.
From S2P Require Import GoInstance RegistryTheorems Service ServiceFacts Handlers HandlersFacts.
From S2P Require Import ServiceInstance ServiceTheorems HandlersTheorems.
From S2P Require Import JsNumber JsValue Wire WireFacts WireInstance Query QueryFacts.
From S2P Require Import QueryTheorems.
Local Open Scope Z_scope.

(** Text on its way between the two languages, and the error a client sees for a status: what
    the protobuf and gRPC runtimes of both sides do. *)
Class TextTransfer := {
  to_go : jsstring -> string;
  from_go : string -> jsstring;
  grpc_error : go_error -> js_error;
}.

(** ASCII text arrives as it is. *)
Class TextTransferLaws (TT : TextTransfer) := {
  to_go_ascii : forall s, ascii_text s = true -> to_go (js s) = s;
  from_go_ascii : forall s, ascii_text s = true -> from_go s = js s;
}.

Section Theorems.
Context {U256 : Uint256} {UL : Uint256Laws U256} {PH : Poseidon} {PL : PoseidonLaws PH} {GE : GoEnv}.
Context {KV : KVDatabase} {KL : KVDatabaseLaws KV}.
Context {HA : HexAddress} {HL : HexAddressLaws HA} {UT : Uint256Text} {TL : Uint256TextLaws UT}.
Context {RT : WireRuntime} {L : WireLaws RT} {TT : TextTransfer} {TTL : TextTransferLaws TT}.

(** * The handlers as a service for the client *)

Definition answered {A B : Type} (f : A -> B) (c : gores A) : js_error + B :=
  match c with
  | Ok a => inr (f a)
  | Throw e => inl (grpc_error e)
  | OutOfFuel => inl (HostError (js "not reached"))
  end.

Definition from_go_proof (p : pb_Proof) : ProofMsg :=
  mkProofMsg (from_go (pb_Proof_Leaf p)) (map from_go (pb_Proof_Path p)) (Int (pb_Proof_Index p))
      (from_go (pb_Proof_Root p)).

Definition from_go_batch_proof (p : pb_BatchProof) : BatchProof :=
  mkBatchProof (Int (pb_BatchProof_Index p)) (map from_go (pb_BatchProof_Path p)).

(** The server in the state [s]. *)
Definition go_service (s : service_state) : QueryService :=
  mkQueryService
    (fun req => answered (fun res => mkQueryProofResponse (Some (from_go_proof (pb_QueryProofResponse_Proof res))))
       (fst (Server_Proof (mkpb_QueryProofRequest (to_go (QueryProofRequest_registry req))
                             (to_go (QueryProofRequest_leaf req))) s)))
    (fun req => answered (fun res =>
         mkGetEmptyLeafProofResponse (Some (from_go_proof (pb_GetEmptyLeafProofResponse_Proof res))))
       (fst (Server_GetEmptyLeafProof (mkpb_GetEmptyLeafProofRequest (to_go (GetEmptyLeafProofRequest_registry
           req))) s)))
    (fun req => answered (fun res => mkQueryBatchProofsResponse (from_go
        (pb_QueryBatchProofsResponse_InitialRoot res))
         (map from_go_batch_proof (pb_QueryBatchProofsResponse_Proofs res)))
       (fst (Server_GetBatchProofs (mkpb_QueryBatchProofsRequest (to_go (QueryBatchProofsRequest_registry req))
          (map (fun op => mkpb_BatchOperation (to_go (BatchOperation_leafHash op)) (BatchOperation_isAddition op))
             (QueryBatchProofsRequest_operations req))) s))).

(** * A client that checks *)

Definition read_number (s : jsstring) : option Z :=
  match uint256_FromDecimal (to_go s) with inr z => Some z | inl _ => None end.

(** The proof for a leaf value: the numbers in the message, and whether the path has [d] steps
    and leads from the value to the root. *)
Definition check_proof (d v : Z) (m : ProofMsg) : bool :=
  match mapM read_number (ProofMsg_path m), ProofMsg_index m, read_number (ProofMsg_root m) with
  | Some path, Int i, Some root => (length path =? Z.to_nat d)%nat && (root_of hash v path i =? root)
  | _, _, _ => false
  end.

Lemma read_number_text (z : Z) : 0 <= z < 2 ^ 256 -> read_number (from_go (uint256_String z)) = Some z.
Proof.
  intros Hz. unfold read_number. rewrite from_go_ascii, to_go_ascii by (by apply String_ascii).
  by rewrite FromDecimal_String.
Qed.

Lemma read_path (path : list Z) :
  Forall in_field path -> mapM read_number (map from_go (map uint256_String path)) = Some path.
Proof.
  induction 1 as [|z path Hz _ IH]; [done|]. cbn [map mapM]. rewrite read_number_text by (by apply field_256).
  cbn. by rewrite IH.
Qed.

Lemma serving_root_field (s : service_state) (a : gobytes) (d e : Z) (leaf : Z -> Z) :
  status_ok s a (Serving d e leaf) -> in_field (tree_root hash d leaf).
Proof.
  intros (h & reg & idx & [_ _ Hm _] & <- & _). pose proof (depth_range _ _ _ Hm) as Hd.
  assert (inside (depth (reg_tree (registry_view s reg))) (depth (reg_tree (registry_view s reg))) 0) as Hin
    by (split; [lia|rewrite Z.sub_diag; lia]).
  unfold tree_root. rewrite <- (stored_nodes _ _ _ _ _ Hm Hin). apply stored_field; [apply Hm|].
  by apply (index_key (depth (reg_tree (registry_view s reg)))); [apply Hm|].
Qed.

Lemma checked_message (d v i : Z) (leaf : Z -> Z) (text : string) (p : pb_Proof) :
  in_field (tree_root hash d leaf) -> leaf i = v -> proof_message d leaf i text p ->
  check_proof d v (from_go_proof p) = true /\ ProofMsg_index (from_go_proof p) = Int i /\
  read_number (ProofMsg_root (from_go_proof p)) = Some (tree_root hash d leaf).
Proof.
  intros Hr <- (path & [Hlen Hf] & Hp & ->). unfold check_proof, from_go_proof.
  cbn [ProofMsg_path ProofMsg_index ProofMsg_root pb_Proof_Path pb_Proof_Index pb_Proof_Root].
  rewrite (read_path path Hf), read_number_text by (by apply field_256).
  rewrite Hlen, Nat.eqb_refl, Hp, Z.eqb_refl. done.
Qed.

(** C8: the TypeScript client against the Go server.  For a registry that serves leaves, a request
    in ASCII, and an answer that fits the wire: the client's [Proof] resolves exactly when
    a leaf holds the value asked for, to a message with the index of such a leaf and the
    tree's root, whose texts, read back as numbers, form a path from the value to the root;
    otherwise it rejects with the server's not-found status. *)
Theorem client_proofs_check (s : service_state) (M : gobytes -> registry_status) (r t : string) (v d e : Z)
    (leaf : Z -> Z) :
  let client := new_QueryClientImpl (transport (go_service s)) None in
  let req := mkQueryProofRequest (js r) (js t) in
  context_active -> represents s M -> ascii_text r = true -> ascii_text t = true ->
  IsHexAddress r = true -> M (HexToAddress r) = Serving d e leaf -> uint256_FromDecimal t = inr v ->
  QueryProofRequest_ok req -> right_all QueryProofResponse_ok (QueryService_Proof (go_service s) req) ->
  (exists i m, 0 <= i < 2 ^ d /\ leaf i = v /\ v <> e /\
     QueryClientImpl_Proof client req = Ok (mkQueryProofResponse (Some m)) /\
     check_proof d v m = true /\ ProofMsg_index m = Int i /\
     read_number (ProofMsg_root m) = Some (tree_root hash d leaf)) \/
  ((v = e \/ forall i, 0 <= i < 2 ^ d -> leaf i <> v) /\
     QueryClientImpl_Proof client req = Throw (grpc_error (Status NotFound "leaf not found: %s" [] [t] None))).
Proof.
  intros client req Hctx H Hr Ht Hhex EM Ev Hreq Hresp.
  pose proof (H _ (HexToAddress_length _ Hhex)) as Hst. rewrite EM in Hst.
  destruct (serve_ok s M (Query_Proof (mkpb_QueryProofRequest r t)) Hctx H I) as (c & s' & E & _ & Hc).
  unfold answer_spec in Hc. cbn [query_registry pb_QueryProofRequest_Registry] in Hc. rewrite Hhex, EM in Hc.
  cbn [serving_spec pb_QueryProofRequest_Leaf] in Hc. unfold proof_spec in Hc. rewrite Ev in Hc.
  unfold client. rewrite (client_Proof _ _ Hreq Hresp). cbn [QueryService_Proof go_service req
    QueryProofRequest_registry QueryProofRequest_leaf]. rewrite !to_go_ascii by done.
  cbn [serve_query] in E. unfold go_bind in E. destruct (Server_Proof _ s) as [c1 s1]. cbn [fst].
  destruct Hc as [(i & p & Hi & El & Hne & Hp & Ec)|[Hno Ec]]; subst c; destruct c1 as [res|err|]; try discriminate E.
  - injection E as -> _. left. exists i, (from_go_proof p).
    destruct (checked_message d v i leaf t p (serving_root_field _ _ _ _ _ Hst) El Hp) as (C1 & C2 & C3). done.
  - injection E as -> _. right. done.
Qed.
End Theorems.

(** * Witness *)

#[export] Instance char_codes : TextTransfer := {
  to_go s := String.string_of_list_ascii (map (fun c => Ascii.ascii_of_N (Z.to_N c)) s);
  from_go := js;
  grpc_error _ := HostError (js "status");
}.

#[export, refine] Instance char_codes_laws : TextTransferLaws char_codes := {}.
Proof.
  - intros s _. cbn [to_go char_codes]. unfold js. rewrite map_map.
    rewrite (map_ext _ id); [by rewrite map_id, String.string_of_list_ascii_of_string|].
    intros a. by rewrite N2Z.id, Ascii.ascii_N_embedding.
  - done.
Qed.

Definition toy_request : QueryProofRequest := mkQueryProofRequest (js toy_address_text) (js "30").

Definition toy_message : ProofMsg := mkProofMsg (js "30") [js "7"; js "341"; js "17"] (Int 6) (js "610").

Lemma toy_answer : QueryService_Proof (go_service toy_serving)
    toy_request = inr (mkQueryProofResponse (Some toy_message)).
Proof. vm_compute. reflexivity. Qed.

Lemma client_proofs_check_witness :
  exists i m, 0 <= i < 8 /\ toy_reg_leaves i = 30 /\
    QueryClientImpl_Proof (new_QueryClientImpl (transport (go_service toy_serving)) None) toy_request =
      Ok (mkQueryProofResponse (Some m)) /\ check_proof 3 30 m = true.
Proof.
  destruct toy_address_hex as [Hh Ha].
  destruct (client_proofs_check toy_serving toy_status toy_address_text "30" 30 3 7 toy_reg_leaves
    toy_active_context toy_represents eq_refl eq_refl Hh) as [(i & m & Hi & El & _ & E & C & _)|[[F|F] _]].
  - rewrite Ha. reflexivity.
  - vm_compute. reflexivity.
  - concrete_ok.
  - fold toy_request. rewrite toy_answer. concrete_ok.
  - exists i, m. split; [exact Hi|]. split; [exact El|]. split; [exact E|exact C].
  - discriminate F.
  - exfalso. apply (F 6); [lia|]. vm_compute. reflexivity.
Defined.
